(* ===== verification/_CoqProject ===== *)
-Q . S2P
Prelude.v
RingBuffer.v
Interfaces.v
AATree.v
AndTree.v
AndTreeRep.v
AndTreeInsert.v
AndTreeRemove.v
AndTreeFind.v
C4Alloc.v
C4AllocInv.v
C4AllocOps.v
Addrman.v
AddrmanInv.v
AddrmanOps.v
AddrmanSpec.v
CString.v
Words.v
Text.v
Prng.v
Kernel.v
Mem.v
Nameserver.v
Connman.v
ConnmanSpec.v
Ata.v
AtaDrive.v
AtaSpec.v
Ext2.v
Ext2Inode.v
Filesystem.v
Ext2Server.v
Ext2File.v
Ext2Lookup.v
Ext2Write.v
Ext2Answers.v
Ext2Main.v
Devices.v
Font.v
Display.v
DisplaySpec.v
WinList.v
Ppm.v
Wm.v
WmDraw.v
WmEvents.v
Keyboard.v
Ps2mouse.v
Pci.v
Elf.v
ElfStack.v
ElfSpec.v
Crt.v
Stdio.v
StdioSpec.v
FopenSpec.v
FileServer.v
PathLookup.v
FileWrite.v
Spawn.v
Initsys.v
Terminal.v
Forth.v
ForthWords.v
Ipcbench.v
TestProgs.v
