(* ===== verification/Prelude.v ===== *)
(** * C4-OS: the runtime library and the user programs

    C4-OS is a microkernel system for the i686.  This development models the C
    code of its user side: the runtime every program is linked with
    ([src/libraries/c4rt], written [libraries/c4rt] below) and the programs
    ([src/programs]).  The kernel, the boot server sigma0 and the Forth
    interpreter miniforth are git submodules whose directories are empty here:
    they are parameters.

    ** How the system works, and how it is modelled

    Programs share nothing but messages and pages.  A program acts on the world
    by system calls only, so a program is modelled as a computation over the
    history of the calls it made: [Kernel.kernel] maps a history to the answer of
    its latest call, and every theorem holds for every such function, or for the
    ones with a stated documented property (a drive that behaves as ATA drives
    do, a kernel that grants what is asked for).  Other threads and programs are
    inside that function.

    A computation is [M S A], from a state to [Ret], [UB] or [NoFuel]
    ([Prelude]).  [UB] is an access the C code has no right to make, [NoFuel] a
    loop that was still running; the theorems show which outcome it is, so a
    theorem that ends in [Ret] also says that nothing faults and that the fuel
    given is enough.  Machine integers are [Z] with their wrap-around written
    out ([u8] to [u64], [i8], [i32]); the target is little-endian and [char] is
    signed.  Components work on their own state and are put together with
    [zoom]; pointers are addresses into finite maps: bytes ([CString.mem]) where
    the code casts and copies, records where it does not.

    ** The files

    The runtime library:
    - [RingBuffer]: [src/ringbuffer.c].  The queue two programs share a page
      for; it refines a bounded queue.
    - [AATree], [AndTree], [AndTreeRep], [AndTreeInsert], [AndTreeRemove],
      [AndTreeFind]: [src/andtree.c].  [AndTree] is the pointer code, [AATree]
      the same trees as values with the balance invariant, the others the
      refinement: insertion, removal, lookups and neighbours.
    - [Interfaces]: the class [Allocator] with its laws, and regions of address
      space; [C4AllocOps] and [AddrmanSpec] give the instances.
    - [C4Alloc], [C4AllocInv], [C4AllocOps]: [src/alloc.c] and
      [malloc]/[calloc]/[free].  Blocks tile the superblocks, the free lists are
      exact.
    - [Addrman], [AddrmanInv], [AddrmanOps], [AddrmanSpec]: [src/addrman.c].  Two
      trees over the same blocks; the blocks tile the region.
    - [CString], [Words], [Text], [Prng]: [libc/string.c], [getenv], words and
      string arrays in memory, [src/debug.c], [src/galois_lfsr.c].
    - [Kernel], [Mem]: the system call wrappers and memory objects.
    - [Connman], [ConnmanSpec]: connections between clients and servers
      ([src/connman.c]).  The server's registry refines a finite map, and both
      ends of a connection come out with the same endpoint and buffers.
    - [Filesystem], [Devices]: the client stubs of [interface/].
    - [Elf], [ElfStack], [ElfSpec], [Crt]: [src/elf.c] and [crt/crt0.c].  The
      loader and what a new process finds; the two meet in
      [Crt.loaded_process_runs_main].
    - [Stdio], [StdioSpec], [FopenSpec], [Spawn]: [libc/stdio.c] and [spawn] of
      [libc/stdlib.c].  Files are byte streams that the file system hands out in
      pieces of any size; paths are walked component by component.

    The programs:
    - [Nameserver]: names to endpoints, refining a finite map.
    - [Ata], [AtaDrive], [AtaSpec]: the disk driver, against a drive as a state
      machine over the port accesses.
    - [Ext2], [Ext2Inode], [Ext2Server], [Ext2Main]: the file system on its one
      shared page buffer, its request handlers, and the start-up with its
      listings.  [Ext2File], [Ext2Lookup], [Ext2Write]: the bytes of a file and
      the entries of a directory on the disk, and the handlers that read, search
      and write them.  [Ext2Answers]: every acceptable request is answered.
    - [FileServer], [FileWrite], [PathLookup]: the client library, a connection
      and the ext2 server together: reading a file, writing it, following a path.
    - [Font], [Display], [DisplaySpec]: the console on text or pixels.
    - [WinList], [Ppm], [Wm], [WmDraw], [WmEvents]: the window manager: stacking
      order, pictures, drawing compared pixel by pixel with a reference scene,
      events.
    - [Keyboard], [Ps2mouse], [Pci]: drivers and the bus scanner, against
      reference decoders.
    - [Terminal]: the terminal window; [Initsys]: the first program.
    - [Forth], [ForthWords]: the shell: line editing, the interpreter's input,
      and the words it adds.
    - [Ipcbench], [TestProgs]: the message benchmark and the small test programs.

    ** What the theorems show

    - Data structures: refinement of an abstract structure, with every pointer
      and the allocator ([ring_refines_queue], [andtree_insert_correct],
      [andtree_remove_correct], [window_list_correct], [nameserver_refines_map]);
      the invariants are kept by every operation.
    - Memory: allocations are disjoint from what is live, frees give back exactly
      one block ([c4a_alloc_correct], [c4a_free_correct], [vaddr_alloc_correct],
      [vaddr_free_correct], [memobj_alloc_free]).
    - Composition across programs: a path names the node it names on the disk
      ([fopen_opens_named]), a program reads the bytes that lie there
      ([fread_reads_disk]), and what it writes replaces just these bytes
      ([write_block_correct], [fwrite_reaches_disk]); what the loader lays out is what the start-up
      code reads; a file handed out in pieces is loaded whole ([spawn_correct]);
      what is typed is what the interpreter reads ([typed_line_read]); a word of
      the shell reads a line through the C library from the server
      ([read_line_word_correct]); a sector written is the sector read back
      ([pio_roundtrip]); client and server agree on a new connection
      ([connection_agrees]).
    - Safety and bounds: no drawing routine or event leaves its memory
      ([frame_correct], [desktop_safe], [draw_background_correct]), and which
      sequences of console operations and of scan codes do is exact
      ([console_safe], [keyboard_events_correct]).
    - Error paths: what is left when something fails ([spawn_rejects],
      [guarded_words_stop]).
    - Termination: loops are shown to end by the outcome [Ret] (a directory
      listing: [listing_ends]; the ext2 server over whole sessions of requests:
      [requests_answered]); where the code does not end, that is a theorem
      too ([zero_entry_hangs]).
    - Defects are theorems as well: a client the registry cannot find again
      ([registered_client_lost]), blocks too large for the buffer they travel in
      ([page_blocks_unreadable]), a name that stays behind and is looked up in
      place of the next ([stale_name_looked_up]), a write that hits block 0
      ([write_past_limit]), unread bytes that are written back
      ([unread_bytes_written]), a program left in the buffer that is started in
      place of a shorter file ([stale_program_started]), an allocation that is
      not checked ([client_calloc_unchecked]).

    ** Bounds and fuel

    A tree operation takes fuel logarithmic in the number of nodes
    ([AATree.aa_height_log]); scans of a string take its length and one; reads
    take one turn per piece and one to see the end, and the turns asked for are
    stated in the theorems as bounds on [turns], [lines] or [fuel].  Servers and
    event loops do not end: they are modelled one turn at a time, and the
    theorems are about any number of turns.

    ** What is not modelled

    - The kernel, sigma0 and miniforth: not in the repository.
    - Memory shared by two threads of a program is changed by one turn at a time;
      the code takes no locks, so finer interleavings are not covered.
    - Procedures that only print (tree and heap dumps) change nothing but the
      debug output.
    - Headers that only declare, and constants no function uses (most of [elf.h],
      [ext2fs.h], [ata.h]).
    - The ext2 server's heap: the one allocation it makes for a connection has
      room or has not ([Ext2Server.ClientHeap]); the theorems about a session ask
      for room until the client has selected a node.
    - The payload of heap blocks, except where a program lays out bytes in it.
*)

From stdpp Require Export base numbers option list gmap.
From Stdlib Require Export Lia ZArith.

#[global] Open Scope Z_scope.

(** ** Machine integers of the i686 target

    A w-bit unsigned C integer is a [Z] kept in range by an explicit
    wrap-around, a signed one by the two's-complement wrap. *)
Definition wrapu (w z : Z) : Z := z mod 2 ^ w.

Definition wraps (w z : Z) : Z :=
  let u := z mod 2 ^ w in if u <? 2 ^ (w - 1) then u else u - 2 ^ w.

Abbreviation u8 := (wrapu 8).
Abbreviation u16 := (wrapu 16).
Abbreviation u32 := (wrapu 32).
Abbreviation u64 := (wrapu 64).
Abbreviation i8 := (wraps 8).
Abbreviation i32 := (wraps 32).

(** [c != 0] as C's [if] reads it. *)
Definition truthy (z : Z) : bool := negb (z =? 0).

(** ** Computations

    [Ret] is a value, [UB] an access the C code has no right to make (a null
    or dangling pointer, an array index out of range), [NoFuel] a loop the
    fuel given was too small for: theorems always show which one it is. *)
Inductive outcome (A : Type) : Type :=
| Ret (a : A)
| UB
| NoFuel.
Arguments Ret {A} a.
Arguments UB {A}.
Arguments NoFuel {A}.

Definition M (S A : Type) : Type := S → outcome (A * S).

#[global] Instance M_ret {S} : MRet (M S) := λ A a s, Ret (a, s).

#[global] Instance M_bind {S} : MBind (M S) := λ A B f m s,
  match m s with
  | Ret (a, s') => f a s'
  | UB => UB
  | NoFuel => NoFuel
  end.

#[global] Instance M_fmap {S} : FMap (M S) := λ A B f m s,
  match m s with
  | Ret (a, s') => Ret (f a, s')
  | UB => UB
  | NoFuel => NoFuel
  end.

Definition ub {S A} : M S A := λ _, UB.
Definition nofuel {S A} : M S A := λ _, NoFuel.
Definition get {S} : M S S := λ s, Ret (s, s).
Definition gets {S A} (f : S → A) : M S A := λ s, Ret (f s, s).
Definition modify {S} (f : S → S) : M S unit := λ s, Ret (tt, f s).

(** Read something that may not be there. *)
Definition getsome {S A} (f : S → option A) : M S A := λ s,
  match f s with Some a => Ret (a, s) | None => UB end.

(** Run a computation on a component of a larger state. *)
Definition zoom {S T A} (proj : S → T) (inj : T → S → S) (m : M T A) : M S A :=
  λ s, match m (proj s) with
       | Ret (a, t) => Ret (a, inj t s)
       | UB => UB
       | NoFuel => NoFuel
       end.

(** [for ( i = i0; i < i0 + n; i++ ) body(i)] where [body] cannot leave. *)
Fixpoint for_loop {S} (n : nat) (i : Z) (body : Z → M S unit) : M S unit :=
  match n with
  | O => mret tt
  | S n' => _ ← body i; for_loop n' (i + 1) body
  end.

(** ** Lists indexed by [Z], as a C array is *)
Definition zget {A} (l : list A) (i : Z) : option A :=
  if i <? 0 then None else l !! Z.to_nat i.

Definition zset {A} (l : list A) (i : Z) (x : A) : option (list A) :=
  if (0 <=? i) && (i <? Z.of_nat (length l)) then Some (<[Z.to_nat i := x]> l)
  else None.

(** ** Little-endian words in a list of bytes *)
Definition ld8 (b : list Z) (o : Z) : option Z := zget b o.
Definition ld16 (b : list Z) (o : Z) : option Z := x ← zget b o; y ← zget b (o + 1); Some (x + 256 * y).
Definition ld32 (b : list Z) (o : Z) : option Z := x ← ld16 b o; y ← ld16 b (o + 2); Some (x + 65536 * y).

(** [n] bytes from offset [o], when they are there. *)
Definition ldn (b : list Z) (o : Z) (n : nat) : option (list Z) :=
  if (0 <=? o) && (o + Z.of_nat n <=? Z.of_nat (length b)) then Some (take n (drop (Z.to_nat o) b)) else None.
Definition stn (b : list Z) (o : Z) (xs : list Z) : option (list Z) :=
  if (0 <=? o) && (o + Z.of_nat (length xs) <=? Z.of_nat (length b))
  then Some (take (Z.to_nat o) b ++ xs ++ drop (Z.to_nat o + length xs) b) else None.

Definition le16 (v : Z) : list Z := [v mod 256; (v / 256) mod 256].
Definition le32 (v : Z) : list Z := [v mod 256; (v / 256) mod 256; (v / 65536) mod 256; (v / 16777216) mod 256].

(** ** Automation *)
Create HintDb c4.
Create Rewrite HintDb c4w.

Ltac zmod_bound :=
  repeat match goal with
  | |- context [?a mod ?b] =>
      lazymatch goal with
      | H : 0 <= a mod b < b |- _ => fail
      | _ => pose proof (Z.mod_pos_bound a b ltac:(lia))
      end
  end.

(** Case analysis on the boolean comparisons of the goal, innermost first. *)
Ltac no_if t := lazymatch t with context [if _ then _ else _] => fail | _ => idtac end.

Ltac zbool :=
  repeat match goal with
  | |- context [Z.eqb ?a ?b] => no_if a; no_if b; let Hz := fresh "Hz" in destruct (Z.eqb_spec a b) as [Hz|Hz]
  | |- context [Z.ltb ?a ?b] => no_if a; no_if b; let Hz := fresh "Hz" in destruct (Z.ltb_spec a b) as [Hz|Hz]
  | |- context [Z.leb ?a ?b] => no_if a; no_if b; let Hz := fresh "Hz" in destruct (Z.leb_spec a b) as [Hz|Hz]
  end.

(** Case analysis on the boolean comparisons of a hypothesis. *)
Ltac zbool_in H :=
  repeat match type of H with
  | context [Z.eqb ?a ?b] => no_if a; no_if b; let Hz := fresh "Hz" in destruct (Z.eqb_spec a b) as [Hz|Hz]
  | context [Z.ltb ?a ?b] => no_if a; no_if b; let Hz := fresh "Hz" in destruct (Z.ltb_spec a b) as [Hz|Hz]
  | context [Z.leb ?a ?b] => no_if a; no_if b; let Hz := fresh "Hz" in destruct (Z.leb_spec a b) as [Hz|Hz]
  end.

(** Unfold one step of monadic code. *)
Ltac munfold := unfold mbind, M_bind, mret, M_ret, get, gets, getsome, modify, ub, nofuel.
Ltac munfold_in H :=
  unfold mbind, M_bind, mret, M_ret, get, gets, getsome, modify, ub, nofuel in H.

(** ** Stepping through monadic code *)
Lemma bind_run {S A B} (m : M S A) (f : A → M S B) s a s' : m s = Ret (a, s') → (m ≫= f) s = f a s'.
Proof. unfold mbind, M_bind. by intros ->. Qed.

Lemma bind_ext_run {S A B} (m : M S A) (k k' : A → M S B) s :
  (∀ x s', m s = Ret (x, s') → k x s' = k' x s') → (x ← m; k x) s = (x ← m; k' x) s.
Proof. intros Hk. unfold mbind, M_bind. destruct (m s) as [[x s']| |]; auto. Qed.

Lemma bind_assoc_run {S A B C} (m : M S A) (f : A → M S B) (g : B → M S C) s :
  ((m ≫= f) ≫= g) s = (m ≫= (λ x, f x ≫= g)) s.
Proof. unfold mbind, M_bind. by destruct (m s) as [[]| |]. Qed.

(** ** Word lemmas *)
Lemma wrapu_range w z : 0 <= w → 0 <= wrapu w z < 2 ^ w.
Proof. intros. apply Z.mod_pos_bound. lia. Qed.

Lemma wrapu_small w z : 0 <= z < 2 ^ w → wrapu w z = z.
Proof. apply Z.mod_small. Qed.

Lemma wrapu_wrapu w z : wrapu w (wrapu w z) = wrapu w z.
Proof. unfold wrapu. apply Zmod_mod. Qed.

Lemma wraps_range w z : 0 < w → - 2 ^ (w - 1) <= wraps w z < 2 ^ (w - 1).
Proof.
  intros Hw. unfold wraps.
  assert (2 ^ w = 2 * 2 ^ (w - 1)) as E.
  { replace w with (1 + (w - 1)) at 1 by lia. rewrite Z.pow_add_r by lia. lia. }
  pose proof (Z.mod_pos_bound z (2 ^ w) ltac:(lia)).
  cbv zeta. zbool; lia.
Qed.

Lemma wraps_small w z : 0 < w → - 2 ^ (w - 1) <= z < 2 ^ (w - 1) → wraps w z = z.
Proof.
  intros Hw Hz. unfold wraps.
  assert (2 ^ w = 2 * 2 ^ (w - 1)) as E.
  { replace w with (1 + (w - 1)) at 1 by lia. rewrite Z.pow_add_r by lia. lia. }
  destruct (Z_lt_le_dec z 0).
  - replace (z mod 2 ^ w) with (z + 2 ^ w).
    + cbv zeta. zbool; lia.
    + apply (Z.mod_unique_pos _ _ (-1)); lia.
  - rewrite Z.mod_small by lia. cbv zeta. zbool; lia.
Qed.

Lemma u32_range z : 0 <= u32 z < 2 ^ 32.
Proof. apply wrapu_range. lia. Qed.

Lemma u32_small z : 0 <= z < 2 ^ 32 → u32 z = z.
Proof. apply wrapu_small. Qed.

Lemma i32_small z : - 2 ^ 31 <= z < 2 ^ 31 → i32 z = z.
Proof. intros. apply wraps_small; lia. Qed.

Lemma wraps_wrapu w z : wraps w (wrapu w z) = wraps w z.
Proof. unfold wraps, wrapu. by rewrite Zmod_mod. Qed.

Lemma i32_u32 z : - 2 ^ 31 <= z < 2 ^ 31 → i32 (u32 z) = z.
Proof. intros. rewrite wraps_wrapu. by apply i32_small. Qed.

Lemma truthy_ne c : c ≠ 0 → truthy c = true.
Proof. unfold truthy. intros. destruct (Z.eqb_spec c 0); done. Qed.

#[export] Hint Resolve u32_range u32_small i32_small : c4.
#[export] Hint Rewrite wrapu_wrapu : c4w.

(** ** Array lemmas *)
Lemma zget_Some {A} (l : list A) i x :
  zget l i = Some x ↔ 0 <= i ∧ l !! Z.to_nat i = Some x.
Proof. unfold zget. zbool; naive_solver lia. Qed.

Lemma zget_lt {A} (l : list A) i :
  0 <= i < Z.of_nat (length l) → ∃ x, zget l i = Some x ∧ l !! Z.to_nat i = Some x.
Proof.
  intros Hi. destruct (lookup_lt_is_Some_2 l (Z.to_nat i)) as [x Hx]; [lia|].
  exists x. rewrite zget_Some. naive_solver lia.
Qed.

Lemma zset_lt {A} (l : list A) i x :
  0 <= i < Z.of_nat (length l) → zset l i x = Some (<[Z.to_nat i := x]> l).
Proof. intros Hi. unfold zset. zbool; simpl; try lia; done. Qed.

Lemma zget_insert {A} (l : list A) i j x : 0 <= i < Z.of_nat (length l) →
  zget (<[Z.to_nat i := x]> l) j = if j =? i then Some x else zget l j.
Proof.
  intros Hi. unfold zget. destruct (Z.eqb_spec j i) as [->|Hne].
  - rewrite (proj2 (Z.ltb_ge i 0)) by lia. by rewrite list_lookup_insert_eq by lia.
  - zbool; [done|]. by rewrite list_lookup_insert_ne by lia.
Qed.

Lemma zget_None {A} (l : list A) i : i < 0 ∨ Z.of_nat (length l) <= i → zget l i = None.
Proof. intros Hi. unfold zget. zbool; [done|]. apply lookup_ge_None. lia. Qed.

(** A loop keeps what its body keeps. *)
Lemma for_loop_inv {S} (P : Z → S → Prop) (body : Z → M S unit) n : ∀ i s,
  P i s → (∀ j s, i <= j < i + Z.of_nat n → P j s → ∃ s', body j s = Ret (tt, s') ∧ P (j + 1) s') →
  ∃ s', for_loop n i body s = Ret (tt, s') ∧ P (i + Z.of_nat n) s'.
Proof.
  induction n as [|n IH]; intros i s Hi Hstep; cbn [for_loop].
  - exists s. split; [done|]. by replace (i + Z.of_nat 0) with i by lia.
  - destruct (Hstep i s ltac:(lia) Hi) as (s1 & E & H1).
    destruct (IH (i + 1) s1 H1) as (s2 & E2 & H2); [intros; apply Hstep; [lia|done]|].
    exists s2. split; [by rewrite (bind_run _ _ _ _ _ E)|]. by replace (i + Z.of_nat (Datatypes.S n)) with (i + 1 + Z.of_nat n) by lia.
Qed.

(** Where a list is cut by an element that is nowhere else in front. *)
Lemma app_cons_unique {A} (v : A) xs ys xs' ys' : xs ++ v :: ys = xs' ++ v :: ys' → v ∉ xs' → v ∉ xs → xs = xs' ∧ ys = ys'.
Proof.
  revert xs'. induction xs as [|x xs IH]; intros [|x' xs']; simpl.
  - by intros [= ->].
  - intros [= -> _] Hv. destruct Hv. left.
  - intros [= -> _] _ Hv. destruct Hv. left.
  - intros [= -> E] [_ Hx']%not_elem_of_cons [_ Hx]%not_elem_of_cons. by destruct (IH xs' E Hx' Hx) as [-> ->].
Qed.

(** ** Lists in equal pieces *)
Lemma drop_concat {A} (n k : nat) (ls : list (list A)) : Forall (λ l, length l = n) ls → (k <= length ls)%nat →
  drop (k * n) (concat ls) = concat (drop k ls).
Proof.
  intros Hall. revert k. induction Hall as [|l ls Hl _ IH]; intros [|k] Hk; simpl in *; [done|lia|done|].
  rewrite <-(IH k) by lia. rewrite drop_app, Hl, drop_ge by lia. simpl. f_equal. lia.
Qed.

Lemma length_concat_pieces {A} (n : nat) (ls : list (list A)) : Forall (λ l, length l = n) ls →
  length (concat ls) = (length ls * n)%nat.
Proof. induction 1 as [|l ls Hl _ IH]; [done|]. simpl. rewrite length_app. lia. Qed.

Lemma take_drop_concat {A} (n k : nat) (l : list A) (ls : list (list A)) : Forall (λ l, length l = n) ls → ls !! k = Some l →
  take n (drop (k * n) (concat ls)) = l.
Proof.
  intros Hall Hk. pose proof (lookup_lt_Some _ _ _ Hk). rewrite drop_concat by (done || lia).
  rewrite (drop_S _ _ _ Hk). simpl. apply take_app_length'. symmetry. exact (Forall_lookup_1 _ _ _ _ Hall Hk).
Qed.
