(* ===== verification/RingBuffer.v ===== *)
(** The byte ring buffer of the C4 runtime ([libraries/c4rt/src/ringbuffer.c],
    [include/c4rt/ringbuffer.h]): the buffer every connection shares between a
    client and a server.  The abstract contract is a bounded FIFO queue. *)

From S2P Require Import Prelude.

(** ** Data *)

(** [struct c4_ringbuffer]; [data] is the flexible array member. *)
Record c4_ringbuf := mk_ringbuf {
  read_index : Z;
  write_index : Z;
  size : Z;
  data : list Z
}.

(** [sizeof(c4_ringbuf_t)] on i686: two [unsigned] and one [size_t]. *)
Definition sizeof_ringbuf : Z := 12.

Definition set_read_index (i : Z) (b : c4_ringbuf) : c4_ringbuf :=
  mk_ringbuf i (write_index b) (size b) (data b).

Definition set_write_index (i : Z) (b : c4_ringbuf) : c4_ringbuf :=
  mk_ringbuf (read_index b) i (size b) (data b).

(** ** Operations *)
Definition mask (buf : c4_ringbuf) (value : Z) : Z := value mod size buf.

Definition increment (buf : c4_ringbuf) (value : Z) : Z := mask buf (u32 (value + 1)).

Definition c4_ringbuf_init (sz : Z) : M c4_ringbuf bool := buf ← get;
  if sizeof_ringbuf + 1 <? sz then
    _ ← modify (λ b, mk_ringbuf 0 0 (u32 (sz - sizeof_ringbuf)) (data b));
    mret true
  else mret false.

Definition c4_ringbuf_full (buf : c4_ringbuf) : bool :=
  increment buf (write_index buf) =? read_index buf.

Definition c4_ringbuf_empty (buf : c4_ringbuf) : bool :=
  read_index buf =? write_index buf.

Definition c4_ringbuf_available (buf : c4_ringbuf) : Z :=
  u32 (size buf - mask buf (u32 (write_index buf - read_index buf))).

Definition c4_ringbuf_can_write (buf : c4_ringbuf) (sz : Z) : bool :=
  sz <? c4_ringbuf_available buf.

Definition c4_ringbuf_can_read (buf : c4_ringbuf) (sz : Z) : bool :=
  sz <=? u32 (size buf - c4_ringbuf_available buf).

Definition c4_ringbuf_put_byte (byte : Z) : M c4_ringbuf bool := buf ← get;
  if negb (c4_ringbuf_full buf) then
    d ← getsome (λ b, zset (data b) (write_index b) byte);
    _ ← modify (λ b, mk_ringbuf (read_index b) (write_index b) (size b) d);
    _ ← modify (λ b, set_write_index (increment b (write_index b)) b);
    mret true
  else mret false.

(** The byte read, when there is one, is what [*byte] receives. *)
Definition c4_ringbuf_get_byte : M c4_ringbuf (option Z) := buf ← get;
  if negb (c4_ringbuf_empty buf) then
    byte ← getsome (λ b, zget (data b) (read_index b));
    _ ← modify (λ b, set_read_index (increment b (read_index b)) b);
    mret (Some byte)
  else mret None.

Fixpoint write_loop (n : nat) (i : Z) (bytes : list Z) (wrote : Z) : M c4_ringbuf Z :=
  match n with
  | O => mret wrote
  | S n' =>
      byte ← getsome (λ _, zget bytes i);
      ok ← c4_ringbuf_put_byte byte;
      if ok : bool then write_loop n' (i + 1) bytes (u32 (wrote + 1)) else mret wrote
  end.

Definition c4_ringbuf_write (bytes : list Z) (sz : Z) : M c4_ringbuf Z :=
  write_loop (Z.to_nat sz) 0 bytes 0.

(** [out] is the part of the caller's buffer filled so far. *)
Fixpoint read_loop (n : nat) (out : list Z) (nread : Z) : M c4_ringbuf (list Z * Z) :=
  match n with
  | O => mret (out, nread)
  | S n' =>
      byte ← c4_ringbuf_get_byte;
      match byte with
      | Some b => read_loop n' (out ++ [b]) (u32 (nread + 1))
      | None => mret (out, nread)
      end
  end.

Definition c4_ringbuf_read (sz : Z) : M c4_ringbuf (list Z * Z) :=
  read_loop (Z.to_nat sz) [] 0.

(** ** Specification: a bounded queue *)
Record ring_wf (b : c4_ringbuf) : Prop := {
  wf_size : 2 <= size b < 2 ^ 32;
  wf_read : 0 <= read_index b < size b;
  wf_write : 0 <= write_index b < size b;
  wf_data : Z.of_nat (length (data b)) = size b
}.

(** Number of bytes waiting, and the bytes themselves, oldest first. *)
Definition ring_len (b : c4_ringbuf) : Z := (write_index b - read_index b) mod size b.

Definition ring_slot (b : c4_ringbuf) (k : nat) : nat :=
  Z.to_nat ((read_index b + Z.of_nat k) mod size b).

Definition contents (b : c4_ringbuf) : list Z :=
  (λ k, nth (ring_slot b k) (data b) 0) <$> seq 0 (Z.to_nat (ring_len b)).

Definition capacity (b : c4_ringbuf) : Z := size b - 1.

Inductive ring_op := OpPut (byte : Z) | OpGet.
Inductive ring_ans := AnsPut (ok : bool) | AnsGet (byte : option Z).

Definition ring_step (o : ring_op) : M c4_ringbuf ring_ans :=
  match o with
  | OpPut b => ok ← c4_ringbuf_put_byte b; mret (AnsPut ok)
  | OpGet => r ← c4_ringbuf_get_byte; mret (AnsGet r)
  end.

Definition queue_step (cap : Z) (o : ring_op) (q : list Z) : ring_ans * list Z :=
  match o with
  | OpPut b => if Z.of_nat (length q) <? cap then (AnsPut true, q ++ [b]) else (AnsPut false, q)
  | OpGet => match q with [] => (AnsGet None, []) | b :: q' => (AnsGet (Some b), q') end
  end.

Fixpoint ring_run (os : list ring_op) : M c4_ringbuf (list ring_ans) :=
  match os with
  | [] => mret []
  | o :: os' => a ← ring_step o; r ← ring_run os'; mret (a :: r)
  end.

Fixpoint queue_run (cap : Z) (os : list ring_op) (q : list Z) : list ring_ans * list Z :=
  match os with
  | [] => ([], q)
  | o :: os' =>
      let '(a, q') := queue_step cap o q in
      let '(r, q'') := queue_run cap os' q' in (a :: r, q'')
  end.

(** ** Index arithmetic *)
Lemma ring_len_eq b : ring_wf b →
  ring_len b = if read_index b <=? write_index b then write_index b - read_index b
               else write_index b - read_index b + size b.
Proof.
  intros [? ? ? ?]. unfold ring_len. zbool.
  - rewrite Z.mod_small; lia.
  - symmetry. apply (Z.mod_unique_pos _ _ (-1)); lia.
Qed.

Lemma increment_eq b i : ring_wf b → 0 <= i < size b →
  increment b i = if i + 1 =? size b then 0 else i + 1.
Proof.
  intros [? ? ? ?] Hi. unfold increment, mask. rewrite u32_small by lia. zbool.
  - rewrite Hz. apply Z.mod_same. lia.
  - apply Z.mod_small. lia.
Qed.

Lemma ring_slot_eq b k : ring_wf b → Z.of_nat k < size b →
  ring_slot b k = if read_index b + Z.of_nat k <? size b
                  then Z.to_nat (read_index b + Z.of_nat k)
                  else Z.to_nat (read_index b + Z.of_nat k - size b).
Proof.
  intros [? ? ? ?] Hk. unfold ring_slot. zbool.
  - by rewrite Z.mod_small by lia.
  - f_equal. symmetry. apply (Z.mod_unique_pos _ _ 1); lia.
Qed.

Lemma ring_len_range b : ring_wf b → 0 <= ring_len b < size b.
Proof. intros [? ? ? ?]. unfold ring_len. apply Z.mod_pos_bound. lia. Qed.

Lemma length_contents b : length (contents b) = Z.to_nat (ring_len b).
Proof. unfold contents. by rewrite length_fmap, length_seq. Qed.

Lemma full_iff b : ring_wf b → c4_ringbuf_full b = (ring_len b =? size b - 1).
Proof.
  intros Hwf. unfold c4_ringbuf_full.
  rewrite increment_eq, ring_len_eq by (try apply Hwf; done).
  destruct Hwf. zbool; lia.
Qed.

Lemma empty_iff b : ring_wf b → c4_ringbuf_empty b = (ring_len b =? 0).
Proof.
  intros Hwf. unfold c4_ringbuf_empty. rewrite ring_len_eq by done.
  destruct Hwf. zbool; lia.
Qed.

Lemma write_slot b : ring_wf b → ring_slot b (Z.to_nat (ring_len b)) = Z.to_nat (write_index b).
Proof.
  intros Hwf. pose proof (ring_len_range b Hwf). rewrite ring_slot_eq by (done || lia).
  rewrite ring_len_eq by done. destruct Hwf. zbool; lia.
Qed.

Lemma ring_slot_inj b j k : ring_wf b → Z.of_nat j < size b → Z.of_nat k < size b →
  ring_slot b j = ring_slot b k → j = k.
Proof.
  intros Hwf Hj Hk. rewrite !ring_slot_eq by done. destruct Hwf. zbool; lia.
Qed.

Lemma ring_slot_lt b k : ring_wf b → (ring_slot b k < length (data b))%nat.
Proof.
  intros [? ? ? ?]. unfold ring_slot.
  pose proof (Z.mod_pos_bound (read_index b + Z.of_nat k) (size b)). lia.
Qed.

#[export] Hint Resolve ring_slot_lt ring_len_range : c4.

(** Advancing an index by one changes the length by one. *)
Lemma increment_mod b i : ring_wf b → 0 <= i < size b → increment b i = (i + 1) mod size b.
Proof. intros [? ? ? ?] Hi. unfold increment, mask. by rewrite u32_small by lia. Qed.

Lemma ring_len_write b d : ring_wf b → ring_len b < capacity b →
  ring_len (mk_ringbuf (read_index b) (increment b (write_index b)) (size b) d) = ring_len b + 1.
Proof.
  intros Hwf Hl. pose proof (ring_len_range b Hwf). unfold capacity in Hl.
  unfold ring_len at 1. simpl. rewrite increment_mod by (done || apply Hwf).
  rewrite Zminus_mod_idemp_l.
  replace (write_index b + 1 - read_index b) with (write_index b - read_index b + 1) by lia.
  rewrite <- Zplus_mod_idemp_l. apply Z.mod_small. fold (ring_len b). lia.
Qed.

Lemma ring_len_read b d : ring_wf b → 0 < ring_len b →
  ring_len (mk_ringbuf (increment b (read_index b)) (write_index b) (size b) d) = ring_len b - 1.
Proof.
  intros Hwf Hl. pose proof (ring_len_range b Hwf).
  unfold ring_len at 1. simpl. rewrite increment_mod by (done || apply Hwf).
  rewrite Zminus_mod_idemp_r.
  replace (write_index b - (read_index b + 1)) with (write_index b - read_index b - 1) by lia.
  rewrite <- Zminus_mod_idemp_l. apply Z.mod_small. fold (ring_len b). lia.
Qed.

Lemma ring_wf_write b d : ring_wf b → length d = length (data b) →
  ring_wf (mk_ringbuf (read_index b) (increment b (write_index b)) (size b) d).
Proof.
  intros [? ? ? ?] Hd. split; simpl; try done; [|lia].
  unfold increment, mask. apply Z.mod_pos_bound. lia.
Qed.

Lemma ring_wf_read b : ring_wf b → ring_wf (set_read_index (increment b (read_index b)) b).
Proof.
  intros [? ? ? ?]. split; simpl; try done.
  unfold increment, mask. apply Z.mod_pos_bound. lia.
Qed.

Lemma contents_write b x : ring_wf b → ring_len b < capacity b →
  contents (mk_ringbuf (read_index b) (increment b (write_index b)) (size b)
              (<[Z.to_nat (write_index b) := x]> (data b))) = contents b ++ [x].
Proof.
  intros Hwf Hl. pose proof (ring_len_range b Hwf). pose proof (write_slot b Hwf) as Hws.
  unfold contents. rewrite ring_len_write by done. pose proof Hwf as [? ? ? ?].
  replace (Z.to_nat (ring_len b + 1)) with (Z.to_nat (ring_len b) + 1)%nat by lia.
  rewrite seq_app, fmap_app. f_equal.
  - apply list_fmap_ext. intros i k Hk. apply lookup_seq in Hk as [-> Hk].
    simpl data. rewrite !nth_lookup, list_lookup_insert_ne; [done|].
    rewrite <- Hws. intros E. apply (ring_slot_inj b) in E; (done || lia).
  - simpl. f_equal.
    change (ring_slot _ (Z.to_nat (ring_len b))) with (ring_slot b (Z.to_nat (ring_len b))).
    rewrite Hws, nth_lookup, list_lookup_insert_eq by lia. done.
Qed.

Lemma contents_cons b : ring_wf b → 0 < ring_len b →
  contents b = nth (Z.to_nat (read_index b)) (data b) 0
               :: contents (set_read_index (increment b (read_index b)) b).
Proof.
  intros Hwf Hl. pose proof (ring_len_range b Hwf).
  unfold contents, set_read_index. rewrite ring_len_read by done.
  replace (Z.to_nat (ring_len b)) with (S (Z.to_nat (ring_len b - 1))) at 1 by lia.
  simpl. f_equal.
  - rewrite ring_slot_eq by (done || lia). destruct Hwf. zbool; [|lia].
    f_equal. lia.
  - rewrite <- fmap_S_seq, <- list_fmap_compose.
    apply list_fmap_ext. intros i k Hk. apply lookup_seq in Hk as [-> Hk]. simpl.
    f_equal. unfold ring_slot at 2. simpl. rewrite increment_mod by (done || apply Hwf).
    rewrite Zplus_mod_idemp_l. unfold ring_slot. do 2 f_equal. lia.
Qed.

(** ** One byte in, one byte out *)
Lemma put_byte_full b x : ring_wf b → ring_len b = capacity b →
  c4_ringbuf_put_byte x b = Ret (false, b).
Proof.
  intros Hwf Hl. unfold c4_ringbuf_put_byte. munfold.
  rewrite full_iff by done. unfold capacity in *. by rewrite Hl, Z.eqb_refl.
Qed.

Lemma put_byte_room b x : ring_wf b → ring_len b < capacity b →
  ∃ b', c4_ringbuf_put_byte x b = Ret (true, b') ∧ ring_wf b' ∧ size b' = size b ∧
        read_index b' = read_index b ∧ contents b' = contents b ++ [x].
Proof.
  intros Hwf Hl. pose proof Hwf as [? ? ? Hd].
  exists (mk_ringbuf (read_index b) (increment b (write_index b)) (size b)
            (<[Z.to_nat (write_index b) := x]> (data b))).
  split_and!.
  - unfold c4_ringbuf_put_byte. munfold. rewrite full_iff by done. unfold capacity in Hl.
    destruct (Z.eqb_spec (ring_len b) (size b - 1)); [lia|]. simpl.
    rewrite zset_lt by lia. reflexivity.
  - apply ring_wf_write; [done|]. apply length_insert.
  - done.
  - done.
  - by apply contents_write.
Qed.

Lemma get_byte_empty b : ring_wf b → ring_len b = 0 → c4_ringbuf_get_byte b = Ret (None, b).
Proof.
  intros Hwf Hl. unfold c4_ringbuf_get_byte. munfold.
  rewrite empty_iff by done. by rewrite Hl.
Qed.

Lemma get_byte_some b x q : ring_wf b → contents b = x :: q →
  ∃ b', c4_ringbuf_get_byte b = Ret (Some x, b') ∧ ring_wf b' ∧ size b' = size b ∧
        write_index b' = write_index b ∧ contents b' = q.
Proof.
  intros Hwf Hc. pose proof Hwf as [? ? ? Hd]. pose proof (ring_len_range b Hwf).
  assert (0 < ring_len b) as Hpos.
  { pose proof (length_contents b) as E. rewrite Hc in E. simpl in E. lia. }
  rewrite contents_cons in Hc by done. injection Hc as Hx Hq.
  destruct (zget_lt (data b) (read_index b)) as [y [Hy Hy']]; [lia|].
  rewrite nth_lookup, Hy' in Hx. simpl in Hx. subst y.
  eexists. split_and!; [|by apply ring_wf_read|done|done|done].
  unfold c4_ringbuf_get_byte. munfold. rewrite empty_iff by done.
  destruct (Z.eqb_spec (ring_len b) 0); [lia|]. simpl. by rewrite Hy.
Qed.

Lemma contents_le b : ring_wf b → Z.of_nat (length (contents b)) <= capacity b.
Proof. intros Hwf. pose proof (ring_len_range b Hwf). rewrite length_contents. unfold capacity. lia. Qed.

Lemma contents_len b : ring_wf b → Z.of_nat (length (contents b)) = ring_len b.
Proof. intros Hwf. pose proof (ring_len_range b Hwf). rewrite length_contents. lia. Qed.

(** One ring operation is one queue operation. *)
Lemma ring_step_refines o b : ring_wf b →
  ∃ b', ring_step o b = Ret ((queue_step (capacity b) o (contents b)).1, b') ∧
        ring_wf b' ∧ size b' = size b ∧
        contents b' = (queue_step (capacity b) o (contents b)).2.
Proof.
  intros Hwf. pose proof (contents_len b Hwf). pose proof (ring_len_range b Hwf).
  destruct o as [x|]; simpl; munfold.
  - zbool.
    + destruct (put_byte_room b x) as (b' & -> & ? & ? & ? & ?); [done|lia|]. by exists b'.
    + rewrite put_byte_full by (done || unfold capacity in *; lia). by exists b.
  - destruct (contents b) as [|x q] eqn:Hc; simpl in *.
    + rewrite get_byte_empty by (done || lia). by exists b.
    + destruct (get_byte_some b x q) as (b' & -> & ? & ? & ? & ?); [done..|]. by exists b'.
Qed.

(** C1: the ring buffer refines a bounded FIFO queue.  Whatever sequence of
    byte writes and reads is run on a well-formed buffer, it never faults,
    every answer (accepted or refused, byte or nothing) is the one a queue of
    capacity [size - 1] gives, and the buffer ends holding the queue. *)
Theorem ring_refines_queue (os : list ring_op) (b : c4_ringbuf) :
  ring_wf b →
  ∃ b', ring_run os b = Ret ((queue_run (capacity b) os (contents b)).1, b') ∧
        ring_wf b' ∧ size b' = size b ∧
        contents b' = (queue_run (capacity b) os (contents b)).2.
Proof.
  revert b. induction os as [|o os IH]; intros b Hwf; [by exists b|]. simpl. munfold.
  destruct (ring_step_refines o b Hwf) as (b1 & -> & Hwf1 & Hs1 & Hc1).
  destruct (queue_step (capacity b) o (contents b)) as [a q] eqn:Eq. simpl in *.
  destruct (IH b1 Hwf1) as (b2 & -> & Hwf2 & Hs2 & Hc2).
  unfold capacity in *. rewrite Hs1, Hc1 in *.
  destruct (queue_run (size b - 1) os q) as [r q'] eqn:Er. simpl in *.
  exists b2. split_and!; congruence.
Qed.

Definition sample_ring : c4_ringbuf := mk_ringbuf 3 1 4 [7; 8; 9; 5].

Lemma sample_ring_wf : ring_wf sample_ring.
Proof. split; simpl; lia. Qed.

Lemma ring_refines_queue_witness :
  ring_wf sample_ring ∧
  ∃ b', ring_run [OpGet; OpPut 1; OpPut 2; OpPut 3; OpGet] sample_ring
        = Ret ((queue_run 3 [OpGet; OpPut 1; OpPut 2; OpPut 3; OpGet] [5; 7]).1, b').
Proof.
  split; [apply sample_ring_wf|].
  destruct (ring_refines_queue [OpGet; OpPut 1; OpPut 2; OpPut 3; OpGet] sample_ring
              sample_ring_wf) as (b' & H & _).
  exists b'. exact H.
Defined.

(** ** Block writes and reads *)
Lemma write_loop_spec n i bytes w b :
  ring_wf b → 0 <= i → Z.of_nat n + i <= Z.of_nat (length bytes) →
  0 <= w → w + Z.of_nat n < 2 ^ 32 →
  let room := Z.to_nat (capacity b - ring_len b) in
  let k := Nat.min n room in
  ∃ b', write_loop n i bytes w b = Ret (w + Z.of_nat k, b') ∧ ring_wf b' ∧ size b' = size b ∧
        contents b' = contents b ++ take k (drop (Z.to_nat i) bytes).
Proof.
  revert i w b. induction n as [|n IH]; intros i w b Hwf Hi Hn Hw Hwn; simpl.
  { exists b. rewrite Z.add_0_r, app_nil_r. done. }
  pose proof (ring_len_range b Hwf). munfold.
  destruct (zget_lt bytes i) as [x [Hx Hx']]; [lia|]. rewrite Hx.
  destruct (Z.eq_dec (ring_len b) (capacity b)) as [E|E].
  - rewrite put_byte_full by done. rewrite E, Z.sub_diag. simpl. exists b.
    rewrite Z.add_0_r, app_nil_r. done.
  - assert (ring_len b < capacity b) as Hl by (unfold capacity in *; lia).
    destruct (put_byte_room b x) as (b1 & -> & Hwf1 & Hs1 & _ & Hc1); [done..|].
    pose proof (contents_len b Hwf) as L0. pose proof (contents_len b1 Hwf1) as L1.
    rewrite Hc1, length_app in L1. simpl in L1. unfold capacity in *.
    rewrite u32_small by lia.
    destruct (IH (i + 1) (w + 1) b1) as (b2 & -> & Hwf2 & Hs2 & Hc2); try lia; [done|].
    unfold capacity in *. rewrite Hs1 in *.
    replace (Z.to_nat (size b - 1 - ring_len b)) with
      (S (Z.to_nat (size b - 1 - ring_len b1))) by lia. simpl.
    exists b2. split_and!; [do 2 f_equal; lia|done|done|].
    rewrite Hc2, Hc1, <- app_assoc. f_equal.
    rewrite (drop_S bytes x (Z.to_nat i)) by done. simpl.
    by replace (Z.to_nat (i + 1)) with (S (Z.to_nat i)) by lia.
Qed.

Lemma read_loop_spec n out w b :
  ring_wf b → 0 <= w → w + Z.of_nat n < 2 ^ 32 →
  let k := Nat.min n (length (contents b)) in
  ∃ b', read_loop n out w b = Ret ((out ++ take k (contents b), w + Z.of_nat k), b') ∧
        ring_wf b' ∧ size b' = size b ∧ contents b' = drop k (contents b).
Proof.
  revert out w b. induction n as [|n IH]; intros out w b Hwf Hw Hwn; simpl.
  { exists b. by rewrite Z.add_0_r, app_nil_r. }
  pose proof (contents_len b Hwf) as L0. munfold.
  destruct (contents b) as [|x q] eqn:Hc; simpl in *.
  - rewrite get_byte_empty by (done || lia). exists b. by rewrite Z.add_0_r, app_nil_r.
  - destruct (get_byte_some b x q) as (b1 & -> & Hwf1 & Hs1 & _ & Hc1); [done..|].
    rewrite u32_small by lia.
    destruct (IH (out ++ [x]) (w + 1) b1) as (b2 & -> & Hwf2 & Hs2 & Hc2); [done|lia..|].
    rewrite Hc1 in *. exists b2. split_and!; try done; [|congruence].
    rewrite <- app_assoc. simpl. do 3 f_equal. lia.
Qed.

Lemma ringbuf_write_ok (bytes : list Z) (sz : Z) (b : c4_ringbuf) :
  ring_wf b → 0 <= sz <= Z.of_nat (length bytes) → sz < 2 ^ 32 →
  let k := Z.min sz (capacity b - Z.of_nat (length (contents b))) in
  ∃ b', c4_ringbuf_write bytes sz b = Ret (k, b') ∧ ring_wf b' ∧ size b' = size b ∧
        contents b' = contents b ++ take (Z.to_nat k) bytes.
Proof.
  intros Hwf Hsz H32. pose proof (contents_len b Hwf). pose proof (ring_len_range b Hwf).
  pose proof (contents_le b Hwf).
  destruct (write_loop_spec (Z.to_nat sz) 0 bytes 0 b) as (b' & H' & ? & ? & Hc); [done|lia..|].
  exists b'. unfold c4_ringbuf_write. rewrite H', Hc, drop_0.
  split_and!; [do 2 f_equal; lia|done|done|]. do 2 f_equal. lia.
Qed.

(** A block write stores the longest prefix of the data that fits, in
    order, after what is already waiting, and returns its length. *)
Theorem ringbuf_write_spec (bytes : list Z) (sz : Z) (b : c4_ringbuf) :
  ring_wf b → 0 <= sz <= Z.of_nat (length bytes) → sz < 2 ^ 32 →
  let k := Z.min sz (capacity b - Z.of_nat (length (contents b))) in
  ∃ b', c4_ringbuf_write bytes sz b = Ret (k, b') ∧ ring_wf b' ∧ size b' = size b ∧
        contents b' = contents b ++ take (Z.to_nat k) bytes.
Proof. apply ringbuf_write_ok. Qed.

Lemma ringbuf_write_spec_witness :
  (0 <= 3 <= Z.of_nat (length [1; 2; 3])) ∧
  ∃ b', c4_ringbuf_write [1; 2; 3] 3 sample_ring = Ret (1, b') ∧ contents b' = [5; 7; 1].
Proof.
  split; [simpl; lia|].
  destruct (ringbuf_write_spec [1; 2; 3] 3 sample_ring sample_ring_wf) as (b' & H & _ & _ & Hc);
    [simpl; lia|lia|].
  exists b'. split; [exact H|exact Hc].
Defined.

Lemma ringbuf_read_ok (sz : Z) (b : c4_ringbuf) :
  ring_wf b → 0 <= sz < 2 ^ 32 →
  let k := Z.min sz (Z.of_nat (length (contents b))) in
  ∃ b', c4_ringbuf_read sz b = Ret ((take (Z.to_nat k) (contents b), k), b') ∧
        ring_wf b' ∧ size b' = size b ∧ contents b' = drop (Z.to_nat k) (contents b).
Proof.
  intros Hwf Hsz. destruct (read_loop_spec (Z.to_nat sz) [] 0 b) as (b' & H' & ? & ? & Hc);
    [done|lia..|].
  exists b'. unfold c4_ringbuf_read. rewrite H', Hc. simpl.
  replace (Nat.min (Z.to_nat sz) (length (contents b)))
    with (Z.to_nat (Z.min sz (Z.of_nat (length (contents b))))) by lia.
  split_and!; try done. do 3 f_equal. lia.
Qed.

(** A block read takes the longest available prefix of the waiting bytes,
    in order, and returns its length: nothing is lost, duplicated or
    reordered. *)
Theorem ringbuf_read_spec (sz : Z) (b : c4_ringbuf) :
  ring_wf b → 0 <= sz < 2 ^ 32 →
  let k := Z.min sz (Z.of_nat (length (contents b))) in
  ∃ b', c4_ringbuf_read sz b = Ret ((take (Z.to_nat k) (contents b), k), b') ∧
        ring_wf b' ∧ size b' = size b ∧ contents b' = drop (Z.to_nat k) (contents b).
Proof. apply ringbuf_read_ok. Qed.

Lemma ringbuf_read_spec_witness :
  ring_wf sample_ring ∧ ∃ b', c4_ringbuf_read 3 sample_ring = Ret (([5; 7], 2), b').
Proof.
  split; [apply sample_ring_wf|].
  destruct (ringbuf_read_spec 3 sample_ring sample_ring_wf) as (b' & H & _); [lia|].
  exists b'. exact H.
Defined.

(** ** Capacity queries *)
Lemma available_mask b : ring_wf b → ∀ l, mask b (u32 (write_index b - read_index b)) = l →
  c4_ringbuf_available b = size b - l ∧ 0 <= l < size b.
Proof.
  intros [? ? ? ?] l Hl.
  assert (0 <= l < size b) as Hr by (subst l; unfold mask; apply Z.mod_pos_bound; lia).
  split; [|done]. unfold c4_ringbuf_available. rewrite Hl. apply u32_small. lia.
Qed.

Lemma mask_difference b : ring_wf b →
  read_index b <= write_index b ∨ (size b | 2 ^ 32) →
  mask b (u32 (write_index b - read_index b)) = ring_len b.
Proof.
  intros [? ? ? ?] Hor. unfold mask, ring_len, wrapu.
  destruct (Z_le_gt_dec (read_index b) (write_index b)) as [Hle|Hgt].
  - by rewrite (Z.mod_small _ (2 ^ 32)) by lia.
  - destruct Hor as [?|Hd]; [lia|]. by apply Z.mod_mod_divide.
Qed.

(** [c4_ringbuf_available], [can_write] and [can_read] are exact for every
    buffer whose indices have not wrapped, and for every buffer whose size
    divides 2^32: [can_write n] holds exactly when a write of [n] bytes is
    accepted whole, [can_read n] exactly when [n] bytes are waiting. *)
Theorem ringbuf_queries_exact (b : c4_ringbuf) (n : Z) :
  ring_wf b → read_index b <= write_index b ∨ (size b | 2 ^ 32) → 0 <= n →
  c4_ringbuf_available b = size b - Z.of_nat (length (contents b)) ∧
  (c4_ringbuf_can_write b n = true ↔ n <= capacity b - Z.of_nat (length (contents b))) ∧
  (c4_ringbuf_can_read b n = true ↔ n <= Z.of_nat (length (contents b))).
Proof.
  intros Hwf Hor Hn. rewrite contents_len by done.
  destruct (available_mask b Hwf _ (mask_difference b Hwf Hor)) as [Ha Hr].
  unfold c4_ringbuf_can_write, c4_ringbuf_can_read, capacity. rewrite Ha.
  destruct Hwf. rewrite u32_small by lia. rewrite Z.ltb_lt, Z.leb_le. lia.
Qed.

Lemma ringbuf_queries_exact_witness :
  (size sample_ring | 2 ^ 32) ∧ c4_ringbuf_available sample_ring = 2.
Proof.
  assert (size sample_ring | 2 ^ 32) as D by (exists (2 ^ 30); reflexivity).
  split; [exact D|].
  destruct (ringbuf_queries_exact sample_ring 1 sample_ring_wf (or_intror D)) as [H _]; [lia|].
  exact H.
Defined.

(** The size [c4rt_connman_connect] gives its buffers: one page less the header. *)
Definition connman_ring_size : Z := 4096 - sizeof_ringbuf.

(** On the buffers connections really use (one page less the header, 4084
    bytes) the queries are wrong as soon as the write index has wrapped below
    the read index: [write_index - read_index] wraps at 2^32, which 4084 does
    not divide, so the count of waiting bytes is off by 108 modulo the size. *)
Theorem ringbuf_available_wrapped (b : c4_ringbuf) :
  ring_wf b → size b = connman_ring_size → write_index b < read_index b →
  c4_ringbuf_available b
  = size b - (Z.of_nat (length (contents b)) + 108) mod connman_ring_size.
Proof.
  intros Hwf Hs Hlt. pose proof Hwf as [? ? ? ?].
  destruct (available_mask b Hwf ((ring_len b + 108) mod connman_ring_size)) as [Ha _].
  - unfold mask, wrapu.
    replace ((write_index b - read_index b) mod 2 ^ 32)
      with (write_index b - read_index b + 2 ^ 32)
      by (apply (Z.mod_unique_pos _ _ (-1)); lia).
    rewrite Hs. replace (2 ^ 32) with (108 + 1051657 * connman_ring_size) by reflexivity.
    rewrite Z.add_assoc, Z_mod_plus_full.
    rewrite <- Zplus_mod_idemp_l, <- Hs. reflexivity.
  - rewrite Ha, contents_len by done. done.
Qed.

(** One byte waiting, write index wrapped to 0. *)
Definition wrapped_ring : c4_ringbuf := mk_ringbuf 4083 0 connman_ring_size (replicate 4084 0).

Lemma wrapped_ring_wf : ring_wf wrapped_ring.
Proof. split; vm_compute; repeat split; congruence. Qed.

Lemma ringbuf_available_wrapped_witness :
  contents wrapped_ring = [0] ∧ c4_ringbuf_available wrapped_ring = 3975 ∧
  c4_ringbuf_can_read wrapped_ring 109 = true.
Proof.
  split; [vm_compute; reflexivity|]. split; [|vm_compute; reflexivity].
  rewrite (ringbuf_available_wrapped wrapped_ring wrapped_ring_wf);
    [vm_compute; reflexivity|reflexivity|vm_compute; reflexivity].
Defined.

(** [c4_ringbuf_init] gives an empty well-formed buffer. *)
Lemma ringbuf_init_spec sz b :
  sz < 2 ^ 32 → Z.of_nat (length (data b)) = sz - sizeof_ringbuf →
  (sz <= sizeof_ringbuf + 1 → c4_ringbuf_init sz b = Ret (false, b)) ∧
  (sizeof_ringbuf + 1 < sz →
   ∃ b', c4_ringbuf_init sz b = Ret (true, b') ∧ ring_wf b' ∧ contents b' = []).
Proof.
  intros Hsz Hd. unfold c4_ringbuf_init. munfold. unfold sizeof_ringbuf in *.
  zbool; split; try lia; intros _; [|done].
  eexists. split; [reflexivity|]. rewrite u32_small by lia.
  split; [split; simpl; lia|]. reflexivity.
Qed.
