(* ===== verification/Interfaces.v ===== *)
(** What one component of the runtime promises to another.  The dynamic
    allocator ([malloc]/[calloc]/[free], [libraries/c4rt/libc/stdlib.c]) is
    used by the trees, the address space manager and the connection manager
    through this interface; [C4Alloc.v] shows that the buddy-style heap of
    [libraries/c4rt/src/alloc.c] implements it. *)

From S2P Require Import Prelude.

(** [0] is the null pointer. *)
Class Allocator (H : Type) := {
  al_alloc : Z → M H Z;
  al_free : Z → M H unit;
  al_live : H → gset Z;
  al_inv : H → Prop;
  al_room : H → Prop
}.

Class AllocatorLaws (H : Type) `{Allocator H} := {
  (** While there is address space left, an allocation never faults; it fails
      without effect on the live blocks, or returns an address that was not
      live. *)
  al_alloc_ok : ∀ n h, al_inv h → al_room h → 0 <= n < 2 ^ 31 →
    ∃ a h', al_alloc n h = Ret (a, h') ∧ al_inv h' ∧
      ((a = 0 ∧ al_live h' = al_live h) ∨
       (a ≠ 0 ∧ a ∉ al_live h ∧ al_live h' = {[a]} ∪ al_live h));
  (** Freeing a live block takes exactly that block away. *)
  al_free_ok : ∀ a h, al_inv h → a ∈ al_live h →
    ∃ h', al_free a h = Ret (tt, h') ∧ al_inv h' ∧ al_live h' = al_live h ∖ {[a]}
}.

(** A region of address space ([addrman.c]) promises the same, but for blocks
    of at least one byte only, and needs room to free as well: its free list
    is a tree whose nodes are allocated. *)
Class RegionLaws (R : Type) `{Allocator R} := {
  va_alloc_ok : ∀ n r, al_inv r → al_room r → 0 < n < 2 ^ 31 →
    ∃ a r', al_alloc n r = Ret (a, r') ∧ al_inv r' ∧
      ((a = 0 ∧ al_live r' = al_live r) ∨
       (a ≠ 0 ∧ a ∉ al_live r ∧ al_live r' = {[a]} ∪ al_live r));
  va_free_ok : ∀ a r, al_inv r → al_room r → a ∈ al_live r →
    ∃ r', al_free a r = Ret (tt, r') ∧ al_inv r' ∧ al_live r' = al_live r ∖ {[a]}
}.

#[global] Instance allocator_region `{AllocatorLaws R} : RegionLaws R.
Proof. split; intros; [apply al_alloc_ok|apply al_free_ok]; (done || lia). Qed.

(** The allocation that succeeds. *)
Definition alloc_succeeds {H} `{Allocator H} (n : Z) (h : H) : Prop :=
  ∃ a h', al_alloc n h = Ret (a, h') ∧ a ≠ 0.

(** One allocation and one release, as steps of the heap. *)
Definition allocated {H} `{Allocator H} (n a : Z) (h h' : H) : Prop :=
  al_alloc n h = Ret (a, h') ∧ al_live h' = {[a]} ∪ al_live h.
Definition freed {H} `{Allocator H} (a : Z) (h h' : H) : Prop :=
  al_free a h = Ret (tt, h') ∧ al_live h' = al_live h ∖ {[a]}.

(** The next [n] allocations of small blocks succeed, whatever is freed
    between them. *)
Fixpoint plenty {H} `{Allocator H} (n : nat) (h : H) : Prop :=
  match n with
  | O => True
  | S n' => al_room h ∧
      (∀ k, 0 <= k <= 64 → ∃ a h', al_alloc k h = Ret (a, h') ∧ a ≠ 0 ∧ plenty n' h') ∧
      (∀ a h', a ∈ al_live h → al_free a h = Ret (tt, h') → plenty n' h')
  end.

Section plenty.
Context {H : Type} `{AllocatorLaws H}.

Lemma plenty_room n h : plenty (S n) h → al_room h.
Proof. by intros [? _]. Qed.

Lemma plenty_succeeds n k h : plenty (S n) h → 0 <= k <= 64 → alloc_succeeds k h.
Proof. intros (_ & Ha & _) Hk. destruct (Ha k Hk) as (a & h' & E & Hne & _). by exists a, h'. Qed.

Lemma plenty_allocated n k a h h' : plenty (S n) h → 0 <= k <= 64 → allocated k a h h' → plenty n h'.
Proof. intros (_ & Ha & _) Hk [E _]. destruct (Ha k Hk) as (? & ? & E' & _ & Hp). congruence. Qed.

Lemma plenty_freed n a h h' : plenty (S n) h → a ∈ al_live h → freed a h h' → plenty n h'.
Proof. intros (_ & _ & Hf) Ha [E _]. eauto. Qed.

Lemma plenty_S n h : al_inv h → plenty (S n) h → plenty n h.
Proof.
  revert h. induction n as [|n IH]; intros h Hi; [done|]. intros (Hr & Ha & Hf). split_and!; [done| |].
  - intros k Hk. destruct (Ha k Hk) as (a & h' & E & Hne & Hp). exists a, h'. split_and!; [done..|].
    destruct (al_alloc_ok k h Hi Hr ltac:(lia)) as (? & ? & E' & Hi' & _). rewrite E in E'. injection E' as <- <-. auto.
  - intros a h' Hl E. destruct (al_free_ok a h Hi Hl) as (? & E' & Hi' & _). rewrite E in E'. injection E' as <-. eauto.
Qed.

Lemma plenty_le n m h : al_inv h → (m <= n)%nat → plenty n h → plenty m h.
Proof. induction 2; [done|]. intros ?%plenty_S; auto. Qed.

(** A small allocation from a plentiful heap. *)
Lemma alloc_plenty n k h : al_inv h → plenty (S n) h → 0 <= k <= 64 →
  ∃ a h', allocated k a h h' ∧ a ≠ 0 ∧ a ∉ al_live h ∧ al_inv h' ∧ plenty n h'.
Proof.
  intros Hi (Hr & Ha & _) Hk. destruct (Ha k Hk) as (a & h' & E & Hne & Hp).
  destruct (al_alloc_ok k h Hi Hr ltac:(lia)) as (? & ? & E' & Hi' & Hc). rewrite E in E'. injection E' as <- <-.
  destruct Hc as [[? _]|(_ & Hni & Hl)]; [done|]. exists a, h'. by split_and!.
Qed.

Lemma free_plenty n a h : al_inv h → plenty (S n) h → a ∈ al_live h →
  ∃ h', freed a h h' ∧ al_inv h' ∧ plenty n h'.
Proof.
  intros Hi (_ & _ & Hf) Ha. destruct (al_free_ok a h Hi Ha) as (h' & E & Hi' & Hl).
  exists h'. split_and!; [done|done|]. eauto.
Qed.
End plenty.

(** ** A smallest implementation, to evaluate clients on

    Addresses are handed out once, in increasing order. *)
Module Bump.
Record bump := mk_bump { next : Z; live : gset Z }.

Definition alloc (n : Z) : M bump Z := λ h,
  Ret (next h, mk_bump (next h + Z.max 1 n) ({[next h]} ∪ live h)).

Definition free (a : Z) : M bump unit := λ h, Ret (tt, mk_bump (next h) (live h ∖ {[a]})).

Definition inv (h : bump) : Prop := 0 < next h ∧ ∀ a, a ∈ live h → a < next h.

#[global] Instance bump_allocator : Allocator bump :=
  {| al_alloc := alloc; al_free := free; al_live := live; al_inv := inv; al_room := λ _, True |}.

#[global] Instance bump_laws : AllocatorLaws bump.
Proof.
  split; simpl.
  - intros n h [Hn Hl] _ _. eexists _, _. split_and!; [reflexivity|split; simpl; [lia|]|].
    + intros a [->%elem_of_singleton|Ha%Hl]%elem_of_union; lia.
    + right. split_and!; [lia| |done]. intros Ha%Hl. lia.
  - intros a h [Hn Hl] Ha. eexists. split_and!; [reflexivity|split; simpl; [done|]|done].
    intros b [Hb _]%elem_of_difference. auto.
Qed.

Lemma bump_plenty n h : inv h → plenty n h.
Proof.
  revert h. induction n as [|n IH]; intros h Hi; [done|]. split_and!; [done| |].
  - intros k Hk. destruct (@al_alloc_ok bump bump_allocator bump_laws k h Hi I ltac:(lia)) as (a & h' & E & Hi' & _).
    exists a, h'. split_and!; [done| |by apply IH]. simpl in E. injection E as <- <-. destruct Hi. lia.
  - intros a h' Ha E. destruct (@al_free_ok bump bump_allocator bump_laws a h Hi Ha) as (? & E' & Hi' & _). rewrite E in E'. injection E' as <-. by apply IH.
Qed.

Definition start : bump := mk_bump 4096 ∅.

Lemma start_inv : al_inv start.
Proof. split; simpl; [lia|]. set_solver. Qed.
End Bump.
