(* ===== verification/AATree.v ===== *)
(** Reference trees: the balanced tree that [libraries/c4rt/src/andtree.c]
    keeps in memory, as a value.  Every node carries the address of the
    [c4rt_andnode_t] it stands for, so that [AndTree.v]'s pointer code can be
    related to it exactly.  [skewT], [splitT] and [fixT] are what one call of
    [andtree_skew], [andtree_split] and one turn of the removal repair loop do;
    the theorems are about balance and order only. *)

From S2P Require Import Prelude.
From stdpp Require Import sorting.
#[local] Open Scope Z_scope.

(** ** Trees *)
Inductive aatree : Type :=
| Nil
| Node (a lv d : Z) (l r : aatree).

Definition level (t : aatree) : Z := match t with Nil => 0 | Node _ lv _ _ _ => lv end.
Definition left_of (t : aatree) : aatree := match t with Nil => Nil | Node _ _ _ l _ => l end.
Definition right_of (t : aatree) : aatree := match t with Nil => Nil | Node _ _ _ _ r => r end.

Fixpoint tree_size (t : aatree) : nat :=
  match t with Nil => O | Node _ _ _ l r => S (tree_size l + tree_size r) end.

Fixpoint height (t : aatree) : nat :=
  match t with Nil => O | Node _ _ _ l r => S (Nat.max (height l) (height r)) end.

(** Address and data of every node, in order. *)
Fixpoint inorder (t : aatree) : list (Z * Z) :=
  match t with Nil => [] | Node a _ d l r => inorder l ++ (a, d) :: inorder r end.

Definition elements (t : aatree) : list Z := (inorder t).*2.
Definition addrs (t : aatree) : list Z := (inorder t).*1.

(** The AA-tree balance conditions. *)
Fixpoint aa (t : aatree) : Prop :=
  match t with
  | Nil => True
  | Node _ lv _ l r =>
      lv = level l + 1 ∧ (level r = lv - 1 ∨ level r = lv) ∧ level (right_of r) < lv ∧ aa l ∧ aa r
  end.

(** ** Rebalancing steps *)
Fixpoint skew_node (a lv d : Z) (l r : aatree) : aatree :=
  match l with
  | Node b lvb db bl br =>
      if lvb =? lv then Node b lvb db bl (skew_node a lv d br r) else Node a lv d l r
  | Nil => Node a lv d l r
  end.

Definition skewT (t : aatree) : aatree :=
  match t with Nil => Nil | Node a lv d l r => skew_node a lv d l r end.

Fixpoint splitT (t : aatree) : aatree :=
  match t with
  | Node a lv d l (Node b lvb db bl (Node c lvc dc cl cr as rr)) =>
      if lv =? lvc then Node b (lvb + 1) db (Node a lv d l bl) (splitT rr) else t
  | _ => t
  end.

Definition capT (lv : Z) (t : aatree) : aatree :=
  match t with
  | Nil => Nil
  | Node a lv' d l r => if lv <? lv' then Node a lv d l r else t
  end.

(** One turn of the loop of [andtree_remove_repair]. *)
Definition fixT (t : aatree) : aatree :=
  match t with
  | Nil => Nil
  | Node a lv d l r =>
      if (level l <? lv - 1) || (level r <? lv - 1) then
        match splitT (skewT (Node a (lv - 1) d l (capT (lv - 1) r))) with
        | Nil => Nil
        | Node b lvb db bl br => skewT (Node b lvb db (splitT bl) br)
        end
      else t
  end.

(** ** Insertion and removal *)
Section ops.
Context (key : Z → Z).

Fixpoint insT (p x : Z) (t : aatree) : aatree :=
  match t with
  | Nil => Node p 1 x Nil Nil
  | Node a lv d l r =>
      splitT (skewT (if key x <? key d then Node a lv d (insT p x l) r
                     else Node a lv d l (insT p x r)))
  end.

Fixpoint findT (k : Z) (t : aatree) : option Z :=
  match t with
  | Nil => None
  | Node a _ d l r =>
      if k =? key d then Some a else if k <? key d then findT k l else findT k r
  end.

(** The node with the least key that is at least [k]. *)
Fixpoint find_at_leastT (k : Z) (t : aatree) : option (Z * Z) :=
  match t with
  | Nil => None
  | Node a _ d l r =>
      if k =? key d then Some (a, d)
      else if k <? key d then
        match find_at_leastT k l with
        | Some (b, e) => if key e <? key d then Some (b, e) else Some (a, d)
        | None => Some (a, d)
        end
      else find_at_leastT k r
  end.

Definition sorted (xs : list Z) : Prop := StronglySorted (λ x y, key x <= key y) xs.

(** Ordered insertion after every element with a smaller or equal key. *)
Fixpoint insert_list (x : Z) (xs : list Z) : list Z :=
  match xs with
  | [] => [x]
  | y :: ys => if key x <? key y then x :: xs else y :: insert_list x ys
  end.
End ops.

(** Removal of the greatest / least node: its address and data, and what is left. *)
Fixpoint delmaxT (a lv d : Z) (l r : aatree) : (Z * Z) * aatree :=
  match r with
  | Nil => ((a, d), l)
  | Node b lvb db bl br =>
      let '(m, r') := delmaxT b lvb db bl br in (m, fixT (Node a lv d l r'))
  end.

Fixpoint delminT (a lv d : Z) (l r : aatree) : (Z * Z) * aatree :=
  match l with
  | Nil => ((a, d), r)
  | Node b lvb db bl br =>
      let '(m, l') := delminT b lvb db bl br in (m, fixT (Node a lv d l' r))
  end.

(** Removal of the data of the root; also the address of the node freed. *)
Definition delrootT (a lv d : Z) (l r : aatree) : Z * aatree :=
  match l, r with
  | Node b lvb db bl br, _ =>
      let '((f, m), l') := delmaxT b lvb db bl br in (f, fixT (Node a lv m l' r))
  | Nil, Node b lvb db bl br =>
      let '((f, m), r') := delminT b lvb db bl br in (f, fixT (Node a lv m l r'))
  | Nil, Nil => (a, Nil)
  end.

(** ** Contexts: the path from a node up to the root, innermost frame first *)
Inductive frame : Type :=
| FL (a lv d : Z) (r : aatree)
| FR (a lv d : Z) (l : aatree).

Definition plug1 (f : frame) (t : aatree) : aatree :=
  match f with FL a lv d r => Node a lv d t r | FR a lv d l => Node a lv d l t end.

Fixpoint plug (c : list frame) (t : aatree) : aatree :=
  match c with [] => t | f :: c' => plug c' (plug1 f t) end.

(** Walk up from the hole, applying [g] to every ancestor. *)
Fixpoint upT (g : aatree → aatree) (c : list frame) (t : aatree) : aatree :=
  match c with [] => t | f :: c' => upT g c' (g (plug1 f t)) end.

Definition frame_before (f : frame) : list (Z * Z) :=
  match f with FL _ _ _ _ => [] | FR a _ d l => inorder l ++ [(a, d)] end.
Definition frame_after (f : frame) : list (Z * Z) :=
  match f with FL a _ d r => (a, d) :: inorder r | FR _ _ _ _ => [] end.

Fixpoint ctx_before (c : list frame) : list (Z * Z) :=
  match c with [] => [] | f :: c' => ctx_before c' ++ frame_before f end.
Fixpoint ctx_after (c : list frame) : list (Z * Z) :=
  match c with [] => [] | f :: c' => frame_after f ++ ctx_after c' end.

(** The level a removal may leave behind: the same, without a new horizontal
    right link, or one less. *)
Definition shrinks (t t' : aatree) : Prop :=
  aa t' ∧ ((level t' = level t ∧ (level (right_of t') = level t → level (right_of t) = level t))
           ∨ level t' = level t - 1).

(** ** In-order contents are not touched by rebalancing *)
Lemma inorder_skew_node a lv d l r : inorder (skew_node a lv d l r) = inorder (Node a lv d l r).
Proof.
  revert a lv d r. induction l as [|b lvb db bl _ br IH]; intros; simpl; [done|].
  case_match; simpl; [|done]. rewrite IH. simpl. by rewrite <- app_assoc.
Qed.

Lemma inorder_skewT t : inorder (skewT t) = inorder t.
Proof. destruct t; [done|]. apply inorder_skew_node. Qed.

Lemma splitT_unfold a lv d l r :
  splitT (Node a lv d l r) =
  match r with
  | Node b lvb db bl (Node _ lvc _ _ _ as rr) =>
      if lv =? lvc then Node b (lvb + 1) db (Node a lv d l bl) (splitT rr) else Node a lv d l r
  | _ => Node a lv d l r
  end.
Proof. destruct r as [|? ? ? ? []]; reflexivity. Qed.

(** [splitT] recurses two levels down. *)
Lemma aatree_ind2 (P : aatree → Prop) :
  P Nil →
  (∀ a lv d l r, P r → P (right_of r) → P (Node a lv d l r)) →
  ∀ t, P t.
Proof.
  intros H0 H1 t. enough (P t ∧ P (right_of t)) by tauto.
  induction t as [|a lv d l _ r [IH1 IH2]]; simpl; auto.
Qed.

Lemma inorder_splitT t : inorder (splitT t) = inorder t.
Proof.
  induction t as [|a lv d l r _ IH] using aatree_ind2; [done|]. rewrite splitT_unfold.
  destruct r as [|b lvb db bl [|c lvc dc cl cr]]; try done. case_match; [|done].
  simpl right_of in IH. cbn [inorder]. rewrite IH. cbn [inorder]. by rewrite <- app_assoc.
Qed.

Lemma inorder_capT lv t : inorder (capT lv t) = inorder t.
Proof. destruct t; simpl; [done|]. by case_match. Qed.

Lemma inorder_fixT t : inorder (fixT t) = inorder t.
Proof.
  destruct t as [|a lv d l r]; [done|]. unfold fixT. case_match; [|done].
  destruct (splitT _) as [|b lvb db bl br] eqn:E.
  - apply (f_equal inorder) in E.
    rewrite inorder_splitT, inorder_skewT in E. simpl in E. by destruct (inorder l).
  - apply (f_equal inorder) in E. rewrite inorder_splitT, inorder_skewT in E.
    cbn [inorder] in E. rewrite inorder_capT in E.
    rewrite inorder_skewT. cbn [inorder]. by rewrite inorder_splitT.
Qed.

#[export] Hint Rewrite inorder_skewT inorder_skew_node inorder_splitT inorder_capT inorder_fixT : c4w.

Lemma inorder_plug c t : inorder (plug c t) = ctx_before c ++ inorder t ++ ctx_after c.
Proof.
  revert t. induction c as [|f c IH]; intros t; simpl; [by rewrite app_nil_r|].
  rewrite IH. destruct f; simpl; rewrite ?app_nil_r, <- ?app_assoc; simpl; by rewrite <- ?app_assoc.
Qed.

Lemma inorder_upT g c t : (∀ u, inorder (g u) = inorder u) →
  inorder (upT g c t) = ctx_before c ++ inorder t ++ ctx_after c.
Proof.
  intros Hg. revert t. induction c as [|f c IH]; intros t; simpl; [by rewrite app_nil_r|].
  rewrite IH, Hg. destruct f; simpl; rewrite ?app_nil_r, <- ?app_assoc; simpl; by rewrite <- ?app_assoc.
Qed.

Lemma upT_app g c1 c2 t : upT g (c1 ++ c2) t = upT g c2 (upT g c1 t).
Proof. revert t. induction c1; intros; simpl; auto. Qed.

Lemma plug_app c1 c2 t : plug (c1 ++ c2) t = plug c2 (plug c1 t).
Proof. revert t. induction c1; intros; simpl; auto. Qed.

(** ** When each rebalancing step does something *)
Lemma skew_id a lv d l r : level l ≠ lv → skew_node a lv d l r = Node a lv d l r.
Proof. destruct l; simpl; [done|]. intros. zbool; done. Qed.

Lemma skew_rot a lv d b lvb db bl br r : lvb = lv →
  skew_node a lv d (Node b lvb db bl br) r = Node b lvb db bl (skew_node a lv d br r).
Proof. intros ->. simpl. by rewrite Z.eqb_refl. Qed.

Lemma splitT_id a lv d l r : level (right_of r) ≠ lv → splitT (Node a lv d l r) = Node a lv d l r.
Proof.
  rewrite splitT_unfold. destruct r as [|b lvb db bl [|c lvc dc cl cr]]; try done.
  simpl. intros. zbool; congruence.
Qed.

Lemma splitT_rot a lv d l b lvb db bl br : 0 < lv → level br = lv →
  splitT (Node a lv d l (Node b lvb db bl br)) = Node b (lvb + 1) db (Node a lv d l bl) (splitT br).
Proof.
  intros H0 Hl. rewrite splitT_unfold. destruct br as [|c lvc dc cl cr]; simpl in Hl; [lia|].
  subst. by rewrite Z.eqb_refl.
Qed.

Lemma capT_id lv t : level t <= lv → capT lv t = t.
Proof. destruct t; simpl; [done|]. intros. zbool; (lia || done). Qed.

Lemma capT_lower lv a lv' d l r : lv < lv' → capT lv (Node a lv' d l r) = Node a lv d l r.
Proof. simpl. intros. zbool; (lia || done). Qed.

Lemma aa_level t : aa t → 0 <= level t ∧ 0 <= level (right_of t) <= level t.
Proof.
  induction t as [|a lv d l IHl r IHr]; simpl; [lia|]. intros (?&?&?&?&?).
  destruct (IHl ltac:(done)), (IHr ltac:(done)). lia.
Qed.

Lemma splitT_aa_id t : aa t → splitT t = t.
Proof.
  destruct t as [|a lv d l r]; [done|]. simpl. intros (?&?&?&?&?).
  apply splitT_id. lia.
Qed.

Lemma skewT_aa_id t : aa t → skewT t = t.
Proof.
  destruct t as [|a lv d l r]; [done|]. simpl. intros (?&?&?&?&?). apply skew_id. lia.
Qed.

(** Facts about the levels of every tree named in a context of [aa] facts. *)
Ltac aa_levels :=
  repeat match goal with
  | H : aa ?t |- _ =>
      lazymatch goal with
      | _ : 0 <= level t ∧ 0 <= level (right_of t) <= level t |- _ => fail
      | _ => pose proof (aa_level t H)
      end
  end.

(** A tree known to have positive level is a node. *)
Lemma positive_node t : 0 < level t → ∃ a d l r, t = Node a (level t) d l r.
Proof. destruct t; simpl; [lia|]. intros. eauto. Qed.

Ltac aa_node t :=
  let H := fresh in
  assert (0 < level t) as H by lia;
  let a := fresh "a" in let d := fresh "d" in let l := fresh "l" in let r := fresh "r" in
  let lv := fresh "lv" in
  destruct t as [|a lv d l r]; [simpl in H; lia|]; clear H;
  cbn [level right_of left_of aa] in *; destruct_and?; aa_levels; subst.

Ltac aa_rewrite :=
  repeat first
    [ progress cbn match
    | rewrite capT_id by (cbn [level]; lia)
    | rewrite capT_lower by lia
    | rewrite skew_rot by lia
    | rewrite skew_id by (cbn [level]; lia)
    | rewrite splitT_rot by (cbn [level]; lia)
    | rewrite splitT_id by (cbn [level right_of]; lia)
    | rewrite splitT_aa_id by (cbn [level right_of aa]; split_and?; (assumption || lia)) ].

Ltac aa_done := cbn [level right_of left_of aa]; split_and?; (assumption || lia).

(** The effect of an insertion on the level: unchanged, or one more when the
    right link was horizontal, and then the new right link is not. *)
Definition grows (t t' : aatree) : Prop :=
  aa t' ∧ (level t' = level t ∨
           (level t' = level t + 1 ∧ level (right_of t) = level t ∧ level (right_of t') = level t)).

Lemma grows_left a lv d l r l' : aa (Node a lv d l r) → grows l l' →
  grows (Node a lv d l r) (splitT (skewT (Node a lv d l' r))).
Proof.
  unfold grows. cbn [aa level right_of skewT]. intros (Hlv & Hr & Hrr & Hl & Har) [Hl' Hg].
  aa_levels. destruct Hg as [Hg|(Hg & Hh & Hg')].
  - aa_rewrite. aa_done.
  - aa_node l'.
    assert (level r = level l + 1 ∨ level r = level l) as [E|E] by lia.
    + aa_node r. aa_rewrite. aa_done.
    + aa_rewrite. aa_done.
Qed.

Lemma grows_right a lv d l r r' : aa (Node a lv d l r) → grows r r' →
  grows (Node a lv d l r) (splitT (skewT (Node a lv d l r'))).
Proof.
  unfold grows. cbn [aa level right_of skewT]. intros (Hlv & Hr & Hrr & Hl & Har) [Hr' Hg].
  aa_levels. rewrite skew_id by lia.
  destruct (Z.eq_dec (level (right_of r')) lv) as [E|E].
  - aa_node r'. aa_rewrite. aa_done.
  - aa_rewrite. aa_done.
Qed.

(** A left subtree that lost a level. *)
Lemma shrinks_left a lv d d' l r l' : aa (Node a lv d l r) → shrinks l l' →
  shrinks (Node a lv d l r) (fixT (Node a lv d' l' r)).
Proof.
  unfold shrinks. cbn [aa level right_of fixT]. intros (Hlv & Hr & Hrr & Hl & Har) [Hl' Hs].
  aa_levels. destruct Hs as [[Hs Hs']|Hs].
  { zbool; try lia. cbn [orb]. aa_done. }
  destruct (Z.ltb_spec (level l') (lv - 1)); [|lia]. cbn [orb skewT].
  rewrite skew_id by lia. aa_node r.
  destruct Hr as [Hr|Hr].
  - assert (level r0 = level l ∨ level r0 ≠ level l) as [E|E] by lia.
    + aa_rewrite. aa_done.
    + aa_rewrite. aa_done.
  - aa_rewrite. assert (level (right_of l0) = level l ∨ level (right_of l0) ≠ level l) as [E|E] by lia.
    + aa_node l0. aa_rewrite. aa_done.
    + aa_rewrite. aa_done.
Qed.

(** A right subtree that lost a level. *)
Lemma shrinks_right a lv d d' l r r' : aa (Node a lv d l r) → shrinks r r' →
  shrinks (Node a lv d l r) (fixT (Node a lv d' l r')).
Proof.
  unfold shrinks. cbn [aa level right_of fixT]. intros (Hlv & Hr & Hrr & Hl & Har) [Hr' Hs].
  aa_levels. destruct (Z.ltb_spec (level l) (lv - 1)); [lia|].
  destruct (Z.ltb_spec (level r') (lv - 1)); cbn [orb skewT]; [|aa_done].
  rewrite (capT_id (lv - 1) r') by lia. aa_node l.
  assert (level r = level r0 ∨ level r ≠ level r0) as [E|E] by lia.
  - aa_node r0. aa_rewrite. aa_done.
  - aa_rewrite. aa_done.
Qed.

#[global] Arguments fixT : simpl never.

Lemma shrinks_aa t t' : shrinks t t' → aa t'.
Proof. by intros []. Qed.

(** ** Insertion and removal keep the balance *)
Section ops_lemmas.
Context (key : Z → Z).

Lemma insT_grows p x t : aa t → grows t (insT key p x t).
Proof.
  induction t as [|a lv d l IHl r IHr]; intros Ht.
  - unfold grows. simpl. lia.
  - cbn [insT]. pose proof Ht as (_ & _ & _ & Hl & Hr). case_match.
    + apply grows_left; auto.
    + apply grows_right; auto.
Qed.

Lemma elements_Node a lv d l r : elements (Node a lv d l r) = elements l ++ d :: elements r.
Proof. unfold elements. simpl. by rewrite fmap_app. Qed.

Lemma insert_list_app x xs y ys :
  Forall (λ z, key z <= key x) xs →
  insert_list key x (xs ++ y :: ys) = xs ++ insert_list key x (y :: ys).
Proof.
  induction 1 as [|z xs Hz _ IH]; [done|].
  change ((z :: xs) ++ ?u) with (z :: (xs ++ u)). rewrite <- IH.
  cbn [insert_list]. zbool; [lia|done].
Qed.

Lemma insert_list_app_l x xs y ys :
  key x < key y → insert_list key x (xs ++ y :: ys) = insert_list key x xs ++ y :: ys.
Proof.
  intros Hx. induction xs as [|z xs IH]; simpl; [by zbool; [|lia]|].
  zbool; [done|]. simpl. by rewrite IH.
Qed.

Lemma sorted_app xs y ys : sorted key (xs ++ y :: ys) →
  sorted key xs ∧ sorted key ys ∧ Forall (λ z, key z <= key y) xs ∧ Forall (λ z, key y <= key z) ys.
Proof.
  unfold sorted. intros H. split_and!.
  - by eapply StronglySorted_app_1_l.
  - apply StronglySorted_app_1_r in H. by apply StronglySorted_inv in H as [].
  - apply Forall_forall. intros z Hz. apply (StronglySorted_app_1_elem_of _ _ _ z y H Hz). left.
  - apply StronglySorted_app_1_r in H. by apply StronglySorted_inv in H as [].
Qed.

Lemma elements_insT p x t : sorted key (elements t) →
  elements (insT key p x t) = insert_list key x (elements t).
Proof.
  induction t as [|a lv d l IHl r IHr]; [done|].
  rewrite elements_Node. intros (Hl & Hr & Hbl & Hbr)%sorted_app. cbn [insT].
  unfold elements at 1. autorewrite with c4w.
  change ((inorder ?u).*2) with (elements u).
  case_match eqn:E; rewrite elements_Node.
  - rewrite insert_list_app_l by lia. by rewrite IHl.
  - rewrite insert_list_app, IHr; [|done|].
    + cbn [insert_list]. by rewrite E.
    + eapply Forall_impl; [exact Hbl|]. simpl. intros. apply Z.ltb_ge in E. lia.
Qed.

Lemma insert_list_perm x xs : insert_list key x xs ≡ₚ x :: xs.
Proof.
  induction xs as [|y ys IH]; simpl; [done|]. zbool; [done|].
  rewrite IH. apply Permutation_swap.
Qed.

Lemma sorted_insert_list x xs : sorted key xs → sorted key (insert_list key x xs).
Proof.
  unfold sorted. induction 1 as [|y ys Hys IH Hy]; simpl; [by repeat constructor|].
  zbool.
  - constructor; [by constructor|]. constructor; [lia|].
    eapply Forall_impl; [exact Hy|]. simpl. lia.
  - constructor; [done|]. rewrite insert_list_perm. constructor; [lia|done].
Qed.

Lemma sorted_remove xs y ys : sorted key (xs ++ y :: ys) → sorted key (xs ++ ys).
Proof.
  unfold sorted. rewrite !StronglySorted_app, StronglySorted_cons.
  intros (Hxy & Hxs & _ & Hys). split_and!; [|done|done].
  intros x z Hx Hz. apply Hxy; [done|]. by right.
Qed.

(** ** Search *)
Lemma findT_Some k t a : sorted key (elements t) → findT key k t = Some a →
  ∃ d, (a, d) ∈ inorder t ∧ key d = k.
Proof.
  induction t as [|b lv d l IHl r IHr]; [done|].
  rewrite elements_Node. intros (Hl & Hr & _ & _)%sorted_app. cbn [findT inorder].
  zbool; intros Hf.
  - injection Hf as ->. exists d. split; [set_solver|done].
  - destruct (IHl Hl Hf) as (e & He & ?). exists e. split; [set_solver|done].
  - destruct (IHr Hr Hf) as (e & He & ?). exists e. split; [set_solver|done].
Qed.

Lemma elem_of_elements_inorder d t : d ∈ elements t ↔ ∃ a, (a, d) ∈ inorder t.
Proof.
  unfold elements. rewrite list_elem_of_fmap. split.
  - intros ([a e] & -> & H). by exists a.
  - intros [a H]. by exists (a, d).
Qed.

Lemma findT_None k t : sorted key (elements t) → findT key k t = None →
  ∀ d, d ∈ elements t → key d ≠ k.
Proof.
  induction t as [|b lv d l IHl r IHr]; [unfold elements; set_solver|].
  rewrite elements_Node. intros (Hl & Hr & Hbl & Hbr)%sorted_app. cbn [findT].
  rewrite Forall_forall in Hbl, Hbr.
  zbool; intros Hf x; [done|..]; rewrite elem_of_app, elem_of_cons;
    intros [He|[->|He]]; try lia; auto.
  - specialize (Hbr _ He). simpl in Hbr. lia.
  - specialize (Hbl _ He). simpl in Hbl. lia.
Qed.

(** [find_at_leastT] is a lower bound search. *)
Lemma find_at_leastT_spec k t : sorted key (elements t) →
  match find_at_leastT key k t with
  | Some (a, d) => (a, d) ∈ inorder t ∧ k <= key d ∧
                   ∀ e, e ∈ elements t → k <= key e → key d <= key e
  | None => ∀ e, e ∈ elements t → key e < k
  end.
Proof.
  induction t as [|b lv d l IHl r IHr]; [unfold elements; set_solver|].
  rewrite elements_Node. intros (Hl & Hr & Hbl & Hbr)%sorted_app. cbn [find_at_leastT inorder].
  rewrite Forall_forall in Hbl, Hbr. specialize (IHl Hl). specialize (IHr Hr).
  assert (∀ e, e ∈ elements l ++ d :: elements r → e ∈ elements l ∨ e = d ∨ e ∈ elements r) as Hin.
  { intros e. rewrite elem_of_app, elem_of_cons. tauto. }
  zbool.
  - split_and!; [set_solver|lia|]. intros e He Hk. lia.
  - destruct (find_at_leastT key k l) as [[b' e']|].
    + destruct IHl as (? & ? & Hmin). zbool; (split_and!; [set_solver|lia|]); intros e He Hk;
        destruct (Hin e He) as [He'|[->|He']]; try lia; auto;
        try (specialize (Hbr _ He'); simpl in Hbr; lia).
      specialize (Hmin _ He' Hk). lia.
    + split_and!; [set_solver|lia|]. intros e He Hk.
      destruct (Hin e He) as [He'|[->|He']]; try lia.
      * specialize (IHl _ He'). lia.
      * specialize (Hbr _ He'). simpl in Hbr. lia.
  - destruct (find_at_leastT key k r) as [[b' e']|].
    + destruct IHr as (? & ? & Hmin). split_and!; [set_solver|lia|]. intros e He Hk.
      destruct (Hin e He) as [He'|[->|He']]; try lia; auto.
      specialize (Hbl _ He'). simpl in Hbl. lia.
    + intros e He. destruct (Hin e He) as [He'|[->|He']]; try lia; auto.
      specialize (Hbl _ He'). simpl in Hbl. lia.
Qed.
End ops_lemmas.

(** ** Removal *)
Lemma shrinks_refl_level t t' : aa t' → level t' = level t - 1 → shrinks t t'.
Proof. intros. split; [done|]. by right. Qed.

Lemma delmaxT_spec a lv d l r : aa (Node a lv d l r) →
  shrinks (Node a lv d l r) (delmaxT a lv d l r).2 ∧
  inorder (Node a lv d l r) = inorder (delmaxT a lv d l r).2 ++ [(delmaxT a lv d l r).1].
Proof.
  revert a lv d l. induction r as [|b lvb db bl _ br IH]; intros a lv d l Ht; pose proof Ht as H;
    cbn [aa level right_of] in H; destruct_and? H; aa_levels.
  - simpl. split; [apply shrinks_refl_level; [done|simpl; lia]|done].
  - cbn [delmaxT]. destruct (IH b lvb db bl) as [IHs IHi]; [simpl; tauto|].
    destruct (delmaxT b lvb db bl br) as [m r'] eqn:E. simpl in IHs, IHi |- *. split.
    + by apply shrinks_right.
    + autorewrite with c4w. remember (Node b lvb db bl br) as r0. cbn [inorder].
      rewrite IHi. by rewrite <- app_assoc.
Qed.

Lemma delminT_spec a lv d l r : aa (Node a lv d l r) →
  shrinks (Node a lv d l r) (delminT a lv d l r).2 ∧
  inorder (Node a lv d l r) = (delminT a lv d l r).1 :: inorder (delminT a lv d l r).2.
Proof.
  revert a lv d r. induction l as [|b lvb db bl IH br _]; intros a lv d r Ht; pose proof Ht as H;
    cbn [aa level right_of] in H; destruct_and? H; aa_levels.
  - cbn [delminT fst snd inorder app]. split; [|done]. unfold shrinks. cbn [level right_of]. split; [done|].
    destruct (Z.eq_dec (level r) lv); [left|right]; lia.
  - cbn [delminT]. destruct (IH b lvb db br) as [IHs IHi]; [simpl; tauto|].
    destruct (delminT b lvb db bl br) as [m l'] eqn:E. simpl in IHs, IHi |- *. split.
    + by apply shrinks_left.
    + autorewrite with c4w. cbn [inorder]. by rewrite IHi.
Qed.

Lemma delrootT_shrinks a lv d l r : aa (Node a lv d l r) →
  shrinks (Node a lv d l r) (delrootT a lv d l r).2.
Proof.
  intros Ht. pose proof Ht as H. cbn [aa level right_of] in H. destruct_and? H. aa_levels.
  unfold delrootT. destruct l as [|b lvb db bl br].
  - destruct r as [|b lvb db bl br].
    + apply shrinks_refl_level; simpl in *; (done || lia).
    + destruct (delminT_spec b lvb db bl br) as [Hs Hi]; [done|].
      destruct (delminT b lvb db bl br) as [[f m] r']. simpl in *. by apply shrinks_right.
  - destruct (delmaxT_spec b lvb db bl br) as [Hs Hi]; [done|].
    destruct (delmaxT b lvb db bl br) as [[f m] l']. simpl in *. by apply shrinks_left.
Qed.

(** The data of the root goes, every other data stays in order. *)
Lemma delrootT_elements a lv d l r : aa (Node a lv d l r) →
  elements (delrootT a lv d l r).2 = elements l ++ elements r.
Proof.
  intros Ht. cbn [aa] in Ht. destruct_and? Ht. unfold delrootT, elements.
  destruct l as [|b lvb db bl br].
  - destruct r as [|b lvb db bl br]; [done|].
    destruct (delminT_spec b lvb db bl br) as [_ Hi]; [done|].
    destruct (delminT b lvb db bl br) as [[f m] r']. cbn [fst snd] in *. rewrite Hi.
    autorewrite with c4w. done.
  - destruct (delmaxT_spec b lvb db bl br) as [_ Hi]; [done|].
    destruct (delmaxT b lvb db bl br) as [[f m] l']. cbn [fst snd] in *. rewrite Hi.
    autorewrite with c4w. cbn [inorder]. rewrite !fmap_app, <- app_assoc. done.
Qed.

(** One node goes, every other node stays. *)
Lemma delrootT_addrs a lv d l r : aa (Node a lv d l r) →
  addrs (Node a lv d l r) ≡ₚ (delrootT a lv d l r).1 :: addrs (delrootT a lv d l r).2.
Proof.
  intros Ht. cbn [aa] in Ht. destruct_and? Ht. unfold delrootT, addrs.
  destruct l as [|b lvb db bl br].
  - destruct r as [|b lvb db bl br]; [done|].
    destruct (delminT_spec b lvb db bl br) as [_ Hi]; [done|].
    destruct (delminT b lvb db bl br) as [[f m] r']. cbn [fst snd] in *.
    autorewrite with c4w. cbn [inorder app] in *. rewrite Hi. simpl. apply Permutation_swap.
  - destruct (delmaxT_spec b lvb db bl br) as [_ Hi]; [done|].
    destruct (delmaxT b lvb db bl br) as [[f m] l']. cbn [fst snd] in *.
    autorewrite with c4w. remember (Node b lvb db bl br) as l. cbn [inorder]. rewrite Hi.
    rewrite !fmap_app, !fmap_cons, <- app_assoc. simpl. symmetry. apply Permutation_middle.
Qed.

Lemma aa_plug c t : aa (plug c t) → aa t.
Proof.
  revert t. induction c as [|f c IH]; intros t Ht; [done|]. apply IH in Ht.
  destruct f; simpl in Ht; tauto.
Qed.

Lemma upT_shrinks c t t' : aa (plug c t) → shrinks t t' → shrinks (plug c t) (upT fixT c t').
Proof.
  revert t t'. induction c as [|f c IH]; intros t t' Ht Hs; [done|]. simpl. apply IH; [done|].
  apply (aa_plug c) in Ht. destruct f; simpl; [by apply shrinks_left|by apply shrinks_right].
Qed.

(** ** Height *)
Lemma aa_size t : aa t → 2 ^ level t <= Z.of_nat (tree_size t) + 1.
Proof.
  induction t as [|a lv d l IHl r IHr]; [done|]. cbn [aa level tree_size].
  intros (-> & Hr & Hrr & Hl & Har). specialize (IHl Hl). specialize (IHr Har). aa_levels.
  rewrite Z.pow_add_r by lia. assert (2 ^ level l <= 2 ^ level r) by (apply Z.pow_le_mono_r; lia). lia.
Qed.

Lemma aa_height t : aa t →
  Z.of_nat (height t) <= 2 * level t ∧ Z.of_nat (height (right_of t)) <= 2 * level t - (if level (right_of t) <? level t then 1 else 0) ∧
  (level (right_of t) < level t → Z.of_nat (height t) <= 2 * level t - 1).
Proof.
  induction t as [|a lv d l IHl r IHr]; [done|]. cbn [aa level right_of height].
  intros (Hlv & Hr & Hrr & Hl & Har). specialize (IHl Hl). specialize (IHr Har). aa_levels.
  destruct IHl as (? & _ & _), IHr as (? & _ & Hh).
  assert (level r = lv → Z.of_nat (height r) <= 2 * lv - 1) by (intros E; rewrite <- E; apply Hh; lia).
  zbool; lia.
Qed.

(** A balanced tree of [n] nodes is at most [2 log2 (n + 1)] deep. *)
Lemma aa_height_log t : aa t →
  Z.of_nat (height t) <= 2 * Z.log2 (Z.of_nat (tree_size t) + 1).
Proof.
  intros Ht. pose proof (aa_height t Ht) as [H _]. pose proof (aa_size t Ht) as Hs.
  pose proof (aa_level t Ht). apply Z.log2_le_mono in Hs. rewrite Z.log2_pow2 in Hs by lia. lia.
Qed.

Lemma length_inorder t : length (inorder t) = tree_size t.
Proof.
  induction t as [|a lv d l IHl r IHr]; simpl; [done|]. rewrite length_app. simpl. lia.
Qed.

(** ** Finding a node's place *)
Lemma aa_plug_ext c t t' : level t' = level t → level (right_of t') = level (right_of t) → aa t' →
  aa (plug c t) → aa (plug c t').
Proof.
  revert t t'. induction c as [|f c IH]; intros t t' Hl Hr Ht' Ht; [done|]. simpl in *.
  pose proof (aa_plug c _ Ht) as Hf.
  apply (IH (plug1 f t)); [by destruct f| | |done]; destruct f; simpl in *; destruct_and? Hf;
    rewrite ?Hl, ?Hr; auto.
Qed.

Lemma level_plug_ext c t t' : level t' = level t → level (plug c t') = level (plug c t).
Proof.
  revert t t'. induction c as [|f c IH]; intros t t' Hl; [done|]. apply IH. by destruct f.
Qed.

Lemma elem_of_inorder_plug a d t : (a, d) ∈ inorder t → ∃ c lv l r, t = plug c (Node a lv d l r).
Proof.
  induction t as [|b lv e l IHl r IHr]; simpl; [set_solver|].
  rewrite elem_of_app, elem_of_cons. intros [Hin|[[= -> ->]|Hin]].
  - destruct (IHl Hin) as (c & lv' & l' & r' & ->). exists (c ++ [FL b lv e r]), lv', l', r'.
    by rewrite plug_app.
  - by exists [], lv, l, r.
  - destruct (IHr Hin) as (c & lv' & l' & r' & ->). exists (c ++ [FR b lv e l]), lv', l', r'.
    by rewrite plug_app.
Qed.

Lemma nodup_split_unique {A} (x y : Z * A) (X Y X' Y' : list (Z * A)) : x.1 = y.1 →
  NoDup (X ++ x :: Y).*1 → X ++ x :: Y = X' ++ y :: Y' → X = X' ∧ x = y ∧ Y = Y'.
Proof.
  intros Hxy. revert X'. induction X as [|z X IH]; intros [|z' X'] Hn E; simpl in *.
  - by injection E as -> ->.
  - injection E as -> ->. exfalso. apply NoDup_cons in Hn as [Hn _]. apply Hn.
    rewrite fmap_app, elem_of_app. right. rewrite fmap_cons, Hxy. left.
  - injection E as -> <-. exfalso. apply NoDup_cons in Hn as [Hn _]. apply Hn.
    rewrite fmap_app, elem_of_app. right. rewrite fmap_cons, Hxy. left.
  - injection E as <- E. apply NoDup_cons in Hn as [_ Hn]. destruct (IH X' Hn E) as (-> & ? & ?). done.
Qed.

(** The node with address [a] sits where the in-order listing says. *)
Lemma inorder_plug_split a d t X Y : NoDup (addrs t) → inorder t = X ++ (a, d) :: Y →
  ∃ c lv l r, t = plug c (Node a lv d l r) ∧
    X = ctx_before c ++ inorder l ∧ Y = inorder r ++ ctx_after c.
Proof.
  intros Hn E. destruct (elem_of_inorder_plug a d t) as (c & lv & l & r & ->); [rewrite E; set_solver|].
  exists c, lv, l, r. split; [done|]. unfold addrs in Hn. rewrite E in Hn.
  rewrite inorder_plug in E. simpl in E. rewrite <- app_assoc, (app_assoc (ctx_before c)) in E. simpl in E.
  symmetry in E. apply nodup_split_unique in E as (-> & _ & ->); done.
Qed.
