(* ===== verification/AndTree.v ===== *)
(** The balanced trees of the C4 runtime ([libraries/c4rt/src/andtree.c],
    [include/c4rt/andtree.h]) as the code has them: nodes in memory with parent
    pointers, one static sentinel shared by every tree, rotations done by
    assignment in the order of the source.  Loops and recursion take fuel;
    [AndTreeRep.v] shows how much is enough and what the operations do. *)

From S2P Require Import Prelude Interfaces.
#[local] Open Scope Z_scope.

(** ** Data *)

(** Pointers to tree nodes. *)
Inductive nptr : Type := PNull | PSentinel | PNode (a : Z).

#[export] Instance nptr_eq_dec : EqDecision nptr.
Proof. solve_decision. Defined.

#[export] Program Instance nptr_countable : Countable nptr :=
  inj_countable (λ p, match p with PNull => None | PSentinel => Some None | PNode a => Some (Some a) end)
    (λ o, Some (match o with None => PNull | Some None => PSentinel | Some (Some a) => PNode a end)) _.
Next Obligation. by intros []. Qed.

(** [struct c4rt_andnode]; [data] pointers are plain addresses. *)
Record c4rt_andnode := mk_andnode {
  parent : nptr;
  leaf0 : nptr;
  leaf1 : nptr;
  nlevel : Z;
  ndata : Z
}.

(** [struct c4rt_andtree] (its [get_key] is a parameter of the operations)
    with the memory and the allocator it works on. *)
Record anstate (H : Type) := mk_anstate {
  t_root : nptr;
  t_nodes : Z;
  t_heap : H;
  t_mem : gmap nptr c4rt_andnode
}.
Arguments mk_anstate {H}.
Arguments t_root {H}.
Arguments t_nodes {H}.
Arguments t_heap {H}.
Arguments t_mem {H}.

(** [enum { LEFT, RIGHT }], the index into [leaves]. *)
Definition LEFT : bool := false.
Definition RIGHT : bool := true.

Definition leaf (dir : bool) (n : c4rt_andnode) : nptr := if dir then leaf1 n else leaf0 n.

Definition set_leaf (dir : bool) (p : nptr) (n : c4rt_andnode) : c4rt_andnode :=
  if dir then mk_andnode (parent n) (leaf0 n) p (nlevel n) (ndata n)
  else mk_andnode (parent n) p (leaf1 n) (nlevel n) (ndata n).
Definition set_parent (p : nptr) (n : c4rt_andnode) : c4rt_andnode :=
  mk_andnode p (leaf0 n) (leaf1 n) (nlevel n) (ndata n).
Definition set_level (lv : Z) (n : c4rt_andnode) : c4rt_andnode :=
  mk_andnode (parent n) (leaf0 n) (leaf1 n) lv (ndata n).
Definition set_data (d : Z) (n : c4rt_andnode) : c4rt_andnode :=
  mk_andnode (parent n) (leaf0 n) (leaf1 n) (nlevel n) d.

(** The static [sentinel]. *)
Definition sentinel : c4rt_andnode := mk_andnode PNull PSentinel PSentinel 0 0.

(** [sizeof(c4rt_andnode_t)] on i686. *)
Definition sizeof_andnode : Z := 20.

Section andtree.
Context {H : Type} `{Allocator H}.
Context (get_key : Z → Z).

Abbreviation T := (M (anstate H)).

Definition load (p : nptr) : T c4rt_andnode := getsome (λ s, t_mem s !! p).

Definition upd (p : nptr) (f : c4rt_andnode → c4rt_andnode) : T unit :=
  n ← load p;
  modify (λ s, mk_anstate (t_root s) (t_nodes s) (t_heap s) (<[p := f n]> (t_mem s))).

Definition set_root (p : nptr) : T unit :=
  modify (λ s, mk_anstate p (t_nodes s) (t_heap s) (t_mem s)).

Definition set_nodes (f : Z → Z) : T unit :=
  modify (λ s, mk_anstate (t_root s) (f (t_nodes s)) (t_heap s) (t_mem s)).

Definition on_heap {A} (m : M H A) : T A :=
  zoom t_heap (λ h s, mk_anstate (t_root s) (t_nodes s) h (t_mem s)) m.

(** ** Small helpers *)
Definition is_nil (node : nptr) : T bool :=
  if decide (node = PNull) then mret true
  else n ← load node; mret (nlevel n =? 0).

Definition parentside (node : nptr) : T bool :=
  if decide (node = PNull) then mret RIGHT
  else n ← load node;
       if decide (parent n = PNull) then mret RIGHT
       else p ← load (parent n);
            mret (negb (bool_decide (leaf LEFT p = node))).

Definition direction (n : Z) : bool := negb (n <=? 0).

Definition andtree_compare (key : Z) (node : nptr) : T Z :=
  n ← load node; mret (i32 (key - get_key (ndata n))).

(** [for ( ; !is_nil(node->leaves[dir]); node = node->leaves[dir] );] *)
Fixpoint follow (fuel : nat) (dir : bool) (node : nptr) : T nptr :=
  match fuel with
  | O => nofuel
  | S fuel' =>
      n ← load node;
      nil ← is_nil (leaf dir n);
      if nil : bool then mret node else follow fuel' dir (leaf dir n)
  end.

Definition find_min_node (fuel : nat) (node : nptr) : T nptr :=
  n ← load node;
  if nlevel n =? 0 then mret PNull else follow fuel LEFT node.

Definition find_max_node (fuel : nat) (node : nptr) : T nptr :=
  nil ← is_nil node;
  if nil : bool then mret PNull else follow fuel RIGHT node.

(** ** Lookups *)
Fixpoint find_key_loop (fuel : nat) (key : Z) (temp : nptr) : T nptr :=
  match fuel with
  | O => nofuel
  | S fuel' =>
      nil ← is_nil temp;
      if nil : bool then mret PNull
      else
        diff ← andtree_compare key temp;
        if diff =? 0 then mret temp
        else n ← load temp; find_key_loop fuel' key (leaf (direction diff) n)
  end.

Definition andtree_find_key (fuel : nat) (key : Z) : T nptr :=
  s ← get; find_key_loop fuel key (t_root s).

Fixpoint andtree_find_dupe_data (fuel : nat) (node : nptr) (data : Z) : T nptr :=
  match fuel with
  | O => nofuel
  | S fuel' =>
      nil ← is_nil node;
      if nil : bool then mret PNull
      else
        n ← load node;
        if ndata n =? data then mret node
        else
          diff ← andtree_compare (get_key data) node;
          let rest := n ← load node; andtree_find_dupe_data fuel' (leaf (direction diff) n) data in
          if diff =? 0 then
            a ← andtree_find_dupe_data fuel' (leaf LEFT n) data;
            if decide (a ≠ PNull) then mret a
            else
              b ← andtree_find_dupe_data fuel' (leaf RIGHT n) data;
              if decide (b ≠ PNull) then mret b else rest
          else rest
  end.

Fixpoint find_data_loop (fuel : nat) (data : Z) (temp : nptr) : T nptr :=
  match fuel with
  | O => nofuel
  | S fuel' =>
      nil ← is_nil temp;
      if nil : bool then mret PNull
      else
        diff ← andtree_compare (get_key data) temp;
        if diff =? 0 then andtree_find_dupe_data fuel' temp data
        else n ← load temp; find_data_loop fuel' data (leaf (direction diff) n)
  end.

Definition andtree_find_data (fuel : nat) (data : Z) : T nptr :=
  s ← get; find_data_loop fuel data (t_root s).

Fixpoint do_find_at_least (fuel : nat) (node : nptr) (key : Z) : T nptr :=
  match fuel with
  | O => nofuel
  | S fuel' =>
      nil ← is_nil node;
      if nil : bool then mret PNull
      else
        diff ← andtree_compare key node;
        let dir := direction diff in
        if diff =? 0 then mret node
        else
          n ← load node;
          temp ← do_find_at_least fuel' (leaf dir n) key;
          if diff <? 0 then
            if decide (temp = PNull) then mret node
            else
              diff' ← andtree_compare key temp;
              mret (if diff <? diff' then temp else node)
          else mret temp
  end.

Definition andtree_find_at_least (fuel : nat) (key : Z) : T nptr :=
  s ← get; do_find_at_least fuel (t_root s) key.

(** ** Traversal *)
Definition andtree_start (fuel : nat) : T nptr := s ← get; find_min_node fuel (t_root s).
Definition andtree_end (fuel : nat) : T nptr := s ← get; find_max_node fuel (t_root s).

(** [while (!is_nil(p) && p->leaves[dir] == last) last = p, p = p->parent;] *)
Fixpoint climb (fuel : nat) (dir : bool) (last p : nptr) : T nptr :=
  match fuel with
  | O => nofuel
  | S fuel' =>
      nil ← is_nil p;
      if nil : bool then mret p
      else
        n ← load p;
        if decide (leaf dir n = last) then climb fuel' dir p (parent n) else mret p
  end.

Definition andtree_next (fuel : nat) (node : nptr) : T nptr :=
  if decide (node = PNull) then mret node
  else
    n ← load node;
    right ← find_min_node fuel (leaf RIGHT n);
    n' ← load node;
    nil ← is_nil right;
    if nil : bool then climb fuel RIGHT node (parent n') else mret right.

Definition andtree_previous (fuel : nat) (node : nptr) : T nptr :=
  if decide (node = PNull) then mret node
  else
    n ← load node;
    left ← find_max_node fuel (leaf LEFT n);
    n' ← load node;
    nil ← is_nil left;
    if nil : bool then climb fuel LEFT node (parent n') else mret left.

(** ** Rebalancing *)
Definition replace_in_parent (node value : nptr) : T unit :=
  n ← load node;
  (if decide (parent n ≠ PNull) then
     side ← parentside node;
     upd (parent n) (set_leaf side value)
   else mret tt);;
  nil ← is_nil value;
  if negb nil then n' ← load node; upd value (set_parent (parent n')) else mret tt.

Definition rotate (node : nptr) (dir : bool) : T nptr :=
  n ← load node;
  let temp := leaf (negb dir) n in
  t ← load temp;
  upd node (set_leaf (negb dir) (leaf dir t));;
  upd temp (set_leaf dir node);;
  n1 ← load node;
  (if decide (leaf (negb dir) n1 ≠ PNull) then upd (leaf (negb dir) n1) (set_parent node)
   else mret tt);;
  replace_in_parent node temp;;
  upd node (set_parent temp);;
  s ← get;
  (if decide (node = t_root s) then set_root temp else mret tt);;
  mret temp.

Fixpoint andtree_skew (fuel : nat) (node : nptr) : T nptr :=
  match fuel with
  | O => nofuel
  | S fuel' =>
      nil ← is_nil node;
      if nil : bool then mret node
      else
        n ← load node;
        l ← load (leaf LEFT n);
        if nlevel l =? nlevel n then
          ret ← rotate node RIGHT;
          r ← load ret;
          andtree_skew fuel' (leaf RIGHT r);;
          mret ret
        else mret node
  end.

Fixpoint andtree_split (fuel : nat) (node : nptr) : T nptr :=
  match fuel with
  | O => nofuel
  | S fuel' =>
      nil ← is_nil node;
      if nil : bool then mret node
      else
        n ← load node;
        r ← load (leaf RIGHT n);
        rr ← load (leaf RIGHT r);
        if nlevel n =? nlevel rr then
          ret ← rotate node LEFT;
          upd ret (λ m, set_level (u32 (nlevel m + 1)) m);;
          m ← load ret;
          andtree_split fuel' (leaf RIGHT m);;
          mret ret
        else mret node
  end.

Definition do_remove_node (node replacement : nptr) : T unit :=
  s ← get;
  (if decide (node = t_root s) then set_root replacement else mret tt);;
  replace_in_parent node replacement;;
  match node with
  | PNode a =>
      on_heap (al_free a);;
      modify (λ s, mk_anstate (t_root s) (t_nodes s) (t_heap s) (delete node (t_mem s)))
  | _ => ub
  end;;
  set_nodes (λ k, u32 (k - 1)).

Fixpoint count_nodes (fuel : nat) (node : nptr) : T Z :=
  match fuel with
  | O => nofuel
  | S fuel' =>
      nil ← is_nil node;
      if nil : bool then mret 0
      else
        n ← load node;
        l ← count_nodes fuel' (leaf LEFT n);
        r ← count_nodes fuel' (leaf RIGHT n);
        mret (u32 (l + r + 1))
  end.

(** ** Insertion *)
Fixpoint bin_insert_loop (fuel : nat) (node temp : nptr) : T unit :=
  match fuel with
  | O => nofuel
  | S fuel' =>
      if decide (temp = node) then mret tt
      else
        n ← load node;
        diff ← andtree_compare (get_key (ndata n)) temp;
        let dir := negb (diff <? 0) in
        t ← load temp;
        nil ← is_nil (leaf dir t);
        (if nil : bool then
           upd temp (set_leaf dir node);;
           upd node (set_parent temp)
         else mret tt);;
        t' ← load temp;
        bin_insert_loop fuel' node (leaf dir t')
  end.

Definition andtree_bin_insert (fuel : nat) (node : nptr) : T unit :=
  s ← get;
  nil ← is_nil (t_root s);
  if nil : bool then set_root node
  else bin_insert_loop fuel node (t_root s).

Fixpoint andtree_insert_repair (fuel : nat) (temp : nptr) : T unit :=
  match fuel with
  | O => nofuel
  | S fuel' =>
      if decide (temp = PNull) then mret tt
      else
        temp1 ← andtree_skew fuel' temp;
        temp2 ← andtree_split fuel' temp1;
        n ← load temp2;
        andtree_insert_repair fuel' (parent n)
  end.

(** [calloc] zeroes the node; a failed allocation is a null dereference. *)
Definition make_andnode (data : Z) : T nptr :=
  a ← on_heap (al_alloc sizeof_andnode);
  if a =? 0 then ub
  else
    let ret := PNode a in
    modify (λ s, mk_anstate (t_root s) (t_nodes s) (t_heap s)
                   (<[ret := mk_andnode PNull PNull PNull 0 0]> (t_mem s)));;
    upd ret (set_data data);;
    upd ret (set_level 1);;
    upd ret (set_leaf RIGHT PSentinel);;
    upd ret (set_leaf LEFT PSentinel);;
    mret ret.

Definition andtree_insert (fuel : nat) (data : Z) : T nptr :=
  node ← make_andnode data;
  andtree_bin_insert fuel node;;
  andtree_insert_repair fuel node;;
  set_nodes (λ k, u32 (k + 1));;
  mret node.

(** ** Removal *)

(** The body of the repair loop, from [repair] to the new [repair]. *)
Definition repair_step (fuel : nat) (repair : nptr) : T nptr :=
  n ← load repair;
  l ← load (leaf LEFT n);
  r ← load (leaf RIGHT n);
  if (nlevel l <? u32 (nlevel n - 1)) || (nlevel r <? u32 (nlevel n - 1)) then
    upd repair (λ m, set_level (u32 (nlevel m - 1)) m);;
    n1 ← load repair;
    r1 ← load (leaf RIGHT n1);
    (if nlevel n1 <? nlevel r1 then upd (leaf RIGHT n1) (set_level (nlevel n1)) else mret tt);;
    repair1 ← andtree_skew fuel repair;
    repair2 ← andtree_split fuel repair1;
    n2 ← load repair2;
    andtree_split fuel (leaf LEFT n2);;
    andtree_skew fuel repair2
  else mret repair.

Fixpoint repair_loop (fuel : nat) (repair : nptr) : T unit :=
  match fuel with
  | O => nofuel
  | S fuel' =>
      nil ← is_nil repair;
      if nil : bool then mret tt
      else
        repair' ← repair_step fuel' repair;
        n ← load repair';
        repair_loop fuel' (parent n)
  end.

Definition andtree_remove_repair (fuel : nat) (node : nptr) : T unit :=
  n ← load node;
  s1 ← find_max_node fuel (leaf LEFT n);
  n' ← load node;
  successor ← (if decide (s1 ≠ PNull) then mret s1 else find_min_node fuel (leaf RIGHT n'));
  nil ← is_nil successor;
  let temp := if nil : bool then node else successor in
  tn ← load temp;
  let repair := parent tn in
  (if decide (successor ≠ PNull) then
     sn ← load successor;
     upd node (set_data (ndata sn));;
     sn' ← load successor;
     lnil ← is_nil (leaf LEFT sn');
     do_remove_node successor (leaf lnil sn')
   else do_remove_node node PSentinel);;
  repair_loop fuel repair.

Definition andtree_remove (fuel : nat) (node : nptr) : T unit :=
  andtree_remove_repair fuel node.

(** The data pointer removed, [0] (NULL) when the key is not in the tree. *)
Definition andtree_remove_key (fuel : nat) (key : Z) : T Z :=
  node ← andtree_find_key fuel key;
  if decide (node = PNull) then mret 0
  else n ← load node; andtree_remove fuel node;; mret (ndata n).

Definition andtree_remove_data (fuel : nat) (data : Z) : T Z :=
  node ← andtree_find_data fuel data;
  if decide (node = PNull) then mret 0
  else n ← load node; andtree_remove fuel node;; mret (ndata n).

Definition andtree_init : T unit :=
  set_root PNull;; set_nodes (λ _, 0);; set_root PSentinel.

(** ** Self check *)
Definition check_child (dir : bool) (n : c4rt_andnode) : T bool :=
  nil ← is_nil (leaf dir n);
  if nil : bool then mret true
  else
    c ← load (leaf dir n);
    mret (negb (nlevel c <? u32 (nlevel n - 1)) && negb (nlevel n <? nlevel c)).

Fixpoint check_tree (fuel : nat) (node : nptr) : T bool :=
  match fuel with
  | O => nofuel
  | S fuel' =>
      nil ← is_nil node;
      if nil : bool then mret true
      else
        n ← load node;
        left ← check_tree fuel' (leaf LEFT n);
        right ← check_tree fuel' (leaf RIGHT n);
        valid1 ← (if 1 <? nlevel n then
                    lnil ← is_nil (leaf LEFT n);
                    rnil ← is_nil (leaf RIGHT n);
                    v0 ← check_child LEFT n;
                    v1 ← check_child RIGHT n;
                    mret (negb (lnil && rnil) && v0 && v1)
                  else mret true);
        l ← load (leaf LEFT n);
        r ← load (leaf RIGHT n);
        rr ← load (leaf RIGHT r);
        mret (left && right && valid1 && negb (nlevel l =? nlevel n)
              && negb (nlevel rr =? nlevel n))
  end.

Definition andtree_check (fuel : nat) : T bool := s ← get; check_tree fuel (t_root s).

End andtree.
