(* ===== verification/AndTreeRep.v ===== *)
(** Refinement of the pointer trees: [AndTree.v]'s operations, run on memory
    that represents a reference tree of [AATree.v], never fault, never run out
    of a stated amount of fuel, touch no node outside the tree, and leave
    memory representing the tree the reference operation gives. *)

From S2P Require Import Prelude Interfaces AATree AndTree.
#[local] Open Scope Z_scope.

(** ** Representation *)
Definition tptr (t : aatree) : nptr := match t with Nil => PSentinel | Node a _ _ _ _ => PNode a end.

(** [t] is in memory, its root having parent pointer [par]. *)
Fixpoint rep (m : gmap nptr c4rt_andnode) (par : nptr) (t : aatree) : Prop :=
  match t with
  | Nil => True
  | Node a lv d l r =>
      m !! PNode a = Some (mk_andnode par (tptr l) (tptr r) lv d) ∧
      rep m (PNode a) l ∧ rep m (PNode a) r
  end.

(** The sentinel: its own child, level 0; its parent field is scratch. *)
Definition sent_ok (m : gmap nptr c4rt_andnode) : Prop :=
  ∃ par, m !! PSentinel = Some (mk_andnode par PSentinel PSentinel 0 0).

Fixpoint levels (B : Z) (t : aatree) : Prop :=
  match t with Nil => True | Node _ lv _ l r => 1 <= lv <= B ∧ levels B l ∧ levels B r end.

Definition frame_addr (f : frame) : Z := match f with FL a _ _ _ => a | FR a _ _ _ => a end.
Definition frame_side (f : frame) : bool := match f with FL _ _ _ _ => LEFT | FR _ _ _ _ => RIGHT end.
Definition frame_tree (f : frame) : aatree := match f with FL _ _ _ t => t | FR _ _ _ t => t end.

(** The memory cell of a frame whose hole points to [p]. *)
Definition frame_cell (par p : nptr) (f : frame) : c4rt_andnode :=
  match f with
  | FL _ lv d r => mk_andnode par p (tptr r) lv d
  | FR _ lv d l => mk_andnode par (tptr l) p lv d
  end.

(** A cell by its link on side [dir] and its link on the other side. *)
Definition cellD (dir : bool) (par : nptr) (lv d : Z) (same opp : nptr) : c4rt_andnode :=
  if dir then mk_andnode par opp same lv d else mk_andnode par same opp lv d.

Definition ctx_ptr (c : list frame) : nptr :=
  match c with [] => PNull | f :: _ => PNode (frame_addr f) end.

(** The path above a hole that points to [p] is in memory. *)
Fixpoint rep_ctx (m : gmap nptr c4rt_andnode) (p : nptr) (c : list frame) : Prop :=
  match c with
  | [] => True
  | f :: c' =>
      m !! PNode (frame_addr f) = Some (frame_cell (ctx_ptr c') p f) ∧
      rep m (PNode (frame_addr f)) (frame_tree f) ∧
      rep_ctx m (PNode (frame_addr f)) c'
  end.

Definition ctx_addrs (c : list frame) : list Z :=
  c ≫= λ f, frame_addr f :: addrs (frame_tree f).

Section rep.
Context {H : Type} `{Allocator H}.

Record tree_state (s : anstate H) (t : aatree) : Prop := {
  ts_root : t_root s = tptr t;
  ts_rep : rep (t_mem s) PNull t;
  ts_sent : sent_ok (t_mem s);
  ts_nodup : NoDup (addrs t)
}.

(** Everything but the nodes named is untouched. *)
Definition untouched (xs : list Z) (s s' : anstate H) : Prop :=
  t_heap s' = t_heap s ∧ t_nodes s' = t_nodes s ∧
  ∀ z, z ∉ xs → t_mem s' !! PNode z = t_mem s !! PNode z.

(** [m] returns [v] and turns the tree [t] into [t']. *)
Definition runs {A} (m : M (anstate H) A) (s : anstate H) (t : aatree) (v : A) (t' : aatree) : Prop :=
  ∃ s', m s = Ret (v, s') ∧ tree_state s' t' ∧ untouched (addrs t) s s'.

Definition with_mem (m : gmap nptr c4rt_andnode) (s : anstate H) : anstate H :=
  mk_anstate (t_root s) (t_nodes s) (t_heap s) m.

(** ** Running the monad *)
Lemma load_ok p (s : anstate H) n : t_mem s !! p = Some n → load p s = Ret (n, s).
Proof. unfold load, getsome. by intros ->. Qed.

Lemma upd_ok p f (s : anstate H) n : t_mem s !! p = Some n →
  upd p f s = Ret (tt, with_mem (<[p := f n]> (t_mem s)) s).
Proof. intros E. unfold upd. by rewrite (bind_run _ _ _ _ _ (load_ok _ _ _ E)). Qed.

Lemma is_nil_null (s : anstate H) : is_nil PNull s = Ret (true, s).
Proof. done. Qed.

Lemma is_nil_load p (s : anstate H) n : p ≠ PNull → t_mem s !! p = Some n →
  is_nil p s = Ret (nlevel n =? 0, s).
Proof.
  intros Hp E. unfold is_nil. rewrite decide_False by done.
  by rewrite (bind_run _ _ _ _ _ (load_ok _ _ _ E)).
Qed.

Lemma is_nil_node a (s : anstate H) n : t_mem s !! PNode a = Some n → 1 <= nlevel n →
  is_nil (PNode a) s = Ret (false, s).
Proof.
  intros E Hl. rewrite (is_nil_load _ _ n) by done. do 2 f_equal. apply Z.eqb_neq. lia.
Qed.

Lemma is_nil_sentinel (s : anstate H) : sent_ok (t_mem s) → is_nil PSentinel s = Ret (true, s).
Proof. intros [par E]. by erewrite is_nil_load by done. Qed.

(** ** Addresses and contexts *)
Lemma addrs_Node a lv d l r : addrs (Node a lv d l r) = addrs l ++ a :: addrs r.
Proof. unfold addrs. simpl. by rewrite fmap_app. Qed.

Lemma addrs_plug c t : addrs (plug c t) ≡ₚ addrs t ++ ctx_addrs c.
Proof.
  revert t. induction c as [|f c IH]; intros t; simpl; [by rewrite app_nil_r|].
  rewrite IH. unfold ctx_addrs. simpl. fold (ctx_addrs c).
  destruct f; simpl; rewrite addrs_Node; simpl; solve_Permutation.
Qed.

Lemma rep_ext m m' par t : (∀ a, a ∈ addrs t → m' !! PNode a = m !! PNode a) →
  rep m par t → rep m' par t.
Proof.
  revert par. induction t as [|a lv d l IHl r IHr]; intros par; [done|].
  rewrite addrs_Node. intros Hm (Ha & Hl & Hr). simpl. split_and!.
  - rewrite Hm; [done|]. set_solver.
  - apply IHl; [set_solver|done].
  - apply IHr; [set_solver|done].
Qed.

Lemma rep_ctx_ext m m' p c : (∀ a, a ∈ ctx_addrs c → m' !! PNode a = m !! PNode a) →
  rep_ctx m p c → rep_ctx m' p c.
Proof.
  revert p. induction c as [|f c IH]; intros p; [done|].
  unfold ctx_addrs. simpl. fold (ctx_addrs c). intros Hm (Ha & Ht & Hc). split_and!.
  - rewrite Hm; [done|]. set_solver.
  - eapply rep_ext; [|done]. set_solver.
  - apply IH; [set_solver|done].
Qed.

Lemma tptr_plug1 f t : tptr (plug1 f t) = PNode (frame_addr f).
Proof. by destruct f. Qed.

Lemma rep_plug m c t : rep m PNull (plug c t) ↔ rep m (ctx_ptr c) t ∧ rep_ctx m (tptr t) c.
Proof.
  revert t. induction c as [|f c IH]; intros t; simpl; [tauto|].
  rewrite IH, tptr_plug1. destruct f; simpl; tauto.
Qed.

Lemma tptr_plug_ext c t t' : tptr t = tptr t' → tptr (plug c t) = tptr (plug c t').
Proof.
  revert t t'. induction c as [|f c IH]; intros t t' E; simpl; [done|].
  apply IH. by rewrite !tptr_plug1.
Qed.

Lemma levels_plug B c t : levels B (plug c t) → levels B t.
Proof.
  revert t. induction c as [|f c IH]; intros t Ht; [done|]. apply IH in Ht.
  destruct f; simpl in Ht; tauto.
Qed.

(** ** Symbolic execution *)
Lemma load_bind {B} p (f : c4rt_andnode → M (anstate H) B) s n :
  t_mem s !! p = Some n → (load p ≫= f) s = f n s.
Proof. intros E. by rewrite (bind_run _ _ _ _ _ (load_ok _ _ _ E)). Qed.

Lemma upd_bind {B} p g (f : unit → M (anstate H) B) s n : t_mem s !! p = Some n →
  (upd p g ≫= f) s = f tt (with_mem (<[p := g n]> (t_mem s)) s).
Proof. intros E. by rewrite (bind_run _ _ _ _ _ (upd_ok _ _ _ _ E)). Qed.

Lemma with_mem_with_mem m m' s : with_mem m (with_mem m' s) = with_mem m s.
Proof. done. Qed.
End rep.

(** Look a node up through a chain of updates. *)
Ltac mlook :=
  cbn [t_mem with_mem];
  repeat first [ rewrite lookup_insert_eq | rewrite lookup_insert_ne by congruence ];
  first [ reflexivity | eassumption ].

(** Run one statement. *)
Ltac mstep :=
  cbn [frame_cell cellD parent leaf leaf0 leaf1 nlevel ndata set_parent set_leaf set_level set_data LEFT RIGHT negb];
  first
    [ rewrite bind_assoc_run
    | erewrite load_bind by mlook
    | erewrite upd_bind by mlook
    | rewrite decide_True by congruence
    | rewrite decide_False by congruence ].

Section rotate.
Context {H : Type} `{Allocator H}.
Implicit Types (s : anstate H) (m : gmap nptr c4rt_andnode).

(** The parent field of the root of a subtree, or of the sentinel. *)
Lemma upd_parent t par q s : rep (t_mem s) par t → sent_ok (t_mem s) → NoDup (addrs t) →
  ∃ m', upd (tptr t) (set_parent q) s = Ret (tt, with_mem m' s) ∧
    rep m' q t ∧ sent_ok m' ∧ ∀ z, PNode z ≠ tptr t → m' !! PNode z = t_mem s !! PNode z.
Proof.
  destruct t as [|a lv d l r]; simpl; intros Ht [sp Hs] Hnd.
  - eexists. rewrite (upd_ok _ _ _ _ Hs). split_and!; [done..| |].
    + eexists. mlook.
    + intros z _. by rewrite lookup_insert_ne.
  - destruct Ht as (Ha & Hl & Hr). rewrite addrs_Node in Hnd.
    apply NoDup_app in Hnd as (? & Hd & [Hd' ?]%NoDup_cons).
    eexists. rewrite (upd_ok _ _ _ _ Ha). split_and!; [done|mlook| | | |].
    + eapply rep_ext; [|done]. intros z Hz. rewrite lookup_insert_ne; [done|]. set_solver.
    + eapply rep_ext; [|done]. intros z Hz. rewrite lookup_insert_ne; [done|]. set_solver.
    + eexists. mlook.
    + intros z Hz. by rewrite lookup_insert_ne.
Qed.

Lemma tptr_not_in t a : a ∉ addrs t → tptr t ≠ PNode a.
Proof. destruct t; simpl; [done|]. rewrite addrs_Node. intros Ha [= ->]. set_solver. Qed.

Lemma ctx_addrs_cons f c : ctx_addrs (f :: c) = frame_addr f :: addrs (frame_tree f) ++ ctx_addrs c.
Proof. done. Qed.

(** First half of [replace_in_parent]: the parent's link. *)
Lemma replace_link_ok {B} a na p c s (k : M (anstate H) B) :
  t_mem s !! PNode a = Some na → parent na = ctx_ptr c →
  rep_ctx (t_mem s) (PNode a) c → NoDup (a :: ctx_addrs c) → sent_ok (t_mem s) →
  ∃ m', ((if decide (parent na ≠ PNull) then
            side ← parentside (PNode a); upd (parent na) (set_leaf side p)
          else mret tt);; k) s = k (with_mem m' s) ∧
    rep_ctx m' p c ∧ sent_ok m' ∧ ∀ z, z ∉ ctx_addrs c → m' !! PNode z = t_mem s !! PNode z.
Proof.
  intros Ha Hpar Hc Hnd [sp Hs]. destruct c as [|f c].
  - exists (t_mem s). rewrite Hpar. simpl. split_and!; [by destruct s|done|by eexists|done].
  - simpl in Hpar, Hc. destruct Hc as (Hf & Ht & Hc).
    rewrite ctx_addrs_cons in *. apply NoDup_cons in Hnd as [Hna [Hnf Hnd]%NoDup_cons].
    rewrite Hpar. rewrite decide_True by done. rewrite bind_assoc_run.
    assert (∀ g : bool → M (anstate H) B, (parentside (PNode a) ≫= g) s = g (frame_side f) s) as E.
    { intros g. unfold parentside. rewrite decide_False by done. mstep.
      mstep. rewrite Hpar, decide_False by done. do 2 mstep.
      destruct f; cbn [frame_cell leaf leaf0 LEFT frame_side].
      - by rewrite bool_decide_true.
      - rewrite bool_decide_false; [done|]. apply tptr_not_in. set_solver. }
    rewrite E. mstep. eexists. split; [reflexivity|]. cbn [rep_ctx]. split_and!.
    + rewrite lookup_insert_eq. by destruct f.
    + eapply rep_ext; [|done]. intros z Hz. rewrite lookup_insert_ne; [done|]. set_solver.
    + eapply rep_ctx_ext; [|done]. intros z Hz. rewrite lookup_insert_ne; [done|]. set_solver.
    + eexists. mlook.
    + intros z Hz. rewrite lookup_insert_ne; [done|]. set_solver.
Qed.

(** Redirect the hole of a context from node [a] to [p]. *)
Lemma replace_in_parent_ok a na p c s :
  t_mem s !! PNode a = Some na → parent na = ctx_ptr c →
  rep_ctx (t_mem s) (PNode a) c → NoDup (a :: ctx_addrs c) → sent_ok (t_mem s) →
  (p = PSentinel ∨ ∃ b nb, p = PNode b ∧ b ∉ a :: ctx_addrs c ∧ t_mem s !! p = Some nb ∧ 1 <= nlevel nb) →
  ∃ m', replace_in_parent (PNode a) p s = Ret (tt, with_mem m' s) ∧
    rep_ctx m' p c ∧ sent_ok m' ∧
    (∀ z, z ∉ ctx_addrs c → PNode z ≠ p → m' !! PNode z = t_mem s !! PNode z) ∧
    (p ≠ PSentinel → m' !! p = set_parent (ctx_ptr c) <$> t_mem s !! p).
Proof.
  intros Ha Hpar Hc Hnd Hs Hp. unfold replace_in_parent. erewrite load_bind by eassumption.
  destruct (replace_link_ok a na p c s
    (nil ← is_nil p; if negb nil then n' ← load (PNode a); upd p (set_parent (parent n')) else mret tt))
    as (m & -> & Hc' & Hs' & Hm); [done..|].
  destruct Hp as [->|(b & nb & -> & Hb & Hnb & Hl)].
  - rewrite (bind_run _ _ _ _ _ (is_nil_sentinel (with_mem m s) Hs')). exists m. split_and!; by auto.
  - assert (m !! PNode b = Some nb) as Hb'. { rewrite Hm; [done|set_solver]. }
    rewrite (bind_run _ _ _ _ _ (is_nil_node b (with_mem m s) nb Hb' Hl)). cbn [negb].
    assert (m !! PNode a = Some na) as Ha'. { rewrite Hm; [done|]. by apply NoDup_cons in Hnd as []. }
    erewrite load_bind by mlook. erewrite upd_ok by mlook. rewrite with_mem_with_mem. cbn [t_mem with_mem].
    eexists. split_and!; [done| | | |].
    + eapply rep_ctx_ext; [|done]. intros z Hz. rewrite lookup_insert_ne; [done|]. set_solver.
    + destruct Hs' as [sp Hs']. eexists. mlook.
    + intros z Hz Hne. rewrite lookup_insert_ne by congruence. by apply Hm.
    + intros _. by rewrite lookup_insert_eq, Hnb, Hpar.
Qed.

(** ** Rotation *)

(** A node by its child on side [dir] and its child on the other side. *)
Definition nodeD (dir : bool) (a lv d : Z) (same opp : aatree) : aatree :=
  if dir then Node a lv d opp same else Node a lv d same opp.

Lemma root_plug c : c ≠ [] → ∃ z, z ∈ ctx_addrs c ∧ ∀ t, tptr (plug c t) = PNode z.
Proof.
  induction c as [|f c IH]; [done|]. intros _. destruct c as [|f' c].
  - exists (frame_addr f). split; [left|]. intros t. simpl. by destruct f.
  - destruct IH as (z & Hz & Ht); [done|]. exists z. split.
    + rewrite ctx_addrs_cons. set_solver.
    + intros t. apply (Ht (plug1 f t)).
Qed.

Lemma tree_state_plug s c t :
  tree_state s (plug c t) ↔
  t_root s = tptr (plug c t) ∧ rep (t_mem s) (ctx_ptr c) t ∧ rep_ctx (t_mem s) (tptr t) c ∧
  sent_ok (t_mem s) ∧ NoDup (addrs t ++ ctx_addrs c).
Proof.
  split.
  - intros [Hr Ht Hs Hn]. apply rep_plug in Ht as [??]. by rewrite addrs_plug in Hn.
  - intros (Hr & Ht & Hc & Hs & Hn). split; [done|by apply rep_plug|done|by rewrite addrs_plug].
Qed.

Lemma addrs_nodeD dir a lv d x y : addrs (nodeD dir a lv d x y) ≡ₚ a :: addrs x ++ addrs y.
Proof. destruct dir; simpl; rewrite addrs_Node; solve_Permutation. Qed.

(** The last statement of [rotate]. *)
Lemma rotate_root c t t' a p s : t_root s = tptr (plug c t) → tptr t = PNode a → a ∉ ctx_addrs c →
  tptr t' = p →
  (s0 ← get; (if decide (PNode a = t_root s0) then set_root p else mret tt);; mret p) s =
  Ret (p, mk_anstate (tptr (plug c t')) (t_nodes s) (t_heap s) (t_mem s)).
Proof.
  intros Hr Ha Hn <-. unfold mbind, M_bind, get, set_root, modify. rewrite Hr.
  destruct (decide (c = [])) as [->|Hc].
  - simpl. by rewrite Ha, decide_True.
  - destruct (root_plug c Hc) as (z & Hz & Ht). rewrite !Ht. rewrite decide_False by set_solver.
    destruct s. simpl in *. by rewrite Hr, Ht.
Qed.

Lemma tptr_not_null t : tptr t ≠ PNull.
Proof. by destruct t. Qed.

Lemma rep_nodeD m par dir a lv d x y : rep m par (nodeD dir a lv d x y) ↔
  m !! PNode a = Some (cellD dir par lv d (tptr x) (tptr y)) ∧ rep m (PNode a) x ∧ rep m (PNode a) y.
Proof. destruct dir; simpl; tauto. Qed.

Lemma tptr_nodeD dir a lv d x y : tptr (nodeD dir a lv d x y) = PNode a.
Proof. by destruct dir. Qed.

(** [rotate] up to the links of the two nodes and of the subtree between them. *)
Lemma rotate_links {B} dir a lv d b lvb db x y z par s (k : nptr → M (anstate H) B) :
  rep (t_mem s) par (nodeD dir a lv d z (nodeD dir b lvb db y x)) → sent_ok (t_mem s) →
  NoDup (a :: b :: addrs x ++ addrs y ++ addrs z) →
  ∃ m', (n ← load (PNode a);
         t ← load (leaf (negb dir) n);
         upd (PNode a) (set_leaf (negb dir) (leaf dir t));;
         upd (leaf (negb dir) n) (set_leaf dir (PNode a));;
         n1 ← load (PNode a);
         (if decide (leaf (negb dir) n1 ≠ PNull) then upd (leaf (negb dir) n1) (set_parent (PNode a))
          else mret tt);; k (leaf (negb dir) n)) s = k (PNode b) (with_mem m' s) ∧
    m' !! PNode a = Some (cellD dir par lv d (tptr z) (tptr y)) ∧
    m' !! PNode b = Some (cellD dir (PNode a) lvb db (PNode a) (tptr x)) ∧
    rep m' (PNode b) x ∧ rep m' (PNode a) y ∧ rep m' (PNode a) z ∧ sent_ok m' ∧
    ∀ w, w ∉ a :: b :: addrs y → m' !! PNode w = t_mem s !! PNode w.
Proof.
  rewrite rep_nodeD, tptr_nodeD, rep_nodeD. intros (Ha & Hz & Hb & Hy & Hx) [sp Hs] Hnd.
  apply NoDup_cons in Hnd as [Hna [Hnb Hnd]%NoDup_cons].
  apply NoDup_app in Hnd as (Hndx & Hdx & [Hndy [Hdy Hndz]]%NoDup_app).
  assert (a ≠ b) as Hab by set_solver.
  set (m2 := <[PNode b := cellD dir (PNode a) lvb db (PNode a) (tptr x)]>
               (<[PNode a := cellD dir par lv d (tptr z) (tptr y)]> (t_mem s))).
  assert (∀ w, w ∉ [a; b] → m2 !! PNode w = t_mem s !! PNode w) as Hm2.
  { intros w Hw. unfold m2. rewrite !lookup_insert_ne by set_solver. done. }
  destruct (upd_parent y (PNode b) (PNode a) (with_mem m2 s)) as (m3 & E3 & Hy3 & Hs3 & Hm3).
  { eapply rep_ext; [|done]. intros w Hw. apply Hm2. set_solver. }
  { exists sp. unfold m2. simpl. mlook. }
  { done. }
  cbn [t_mem with_mem] in Hm3.
  assert (∀ w, w ∉ addrs y → m3 !! PNode w = m2 !! PNode w) as Hm3'.
  { intros w Hw. apply Hm3. intros E. symmetry in E. by apply tptr_not_in in E. }
  exists m3. split_and!.
  - mstep. destruct dir; repeat mstep; rewrite decide_True by apply tptr_not_null;
      cbn [leaf leaf0 leaf1 set_leaf cellD parent nlevel ndata negb] in *.
    all: rewrite (bind_run _ _ _ _ _ E3).
    all: done.
  - rewrite Hm3' by set_solver. unfold m2. mlook.
  - rewrite Hm3' by set_solver. unfold m2. mlook.
  - eapply rep_ext; [|done]. intros w Hw. rewrite Hm3', Hm2 by set_solver. done.
  - done.
  - eapply rep_ext; [|done]. intros w Hw. rewrite Hm3', Hm2 by set_solver. done.
  - done.
  - intros w Hw. rewrite Hm3', Hm2 by set_solver. done.
Qed.

Lemma rotate_ok dir a lv d b lvb db x y z c s :
  1 <= lvb →
  tree_state s (plug c (nodeD dir a lv d z (nodeD dir b lvb db y x))) →
  runs (rotate (PNode a) dir) s (plug c (nodeD dir a lv d z (nodeD dir b lvb db y x)))
    (PNode b) (plug c (nodeD dir b lvb db (nodeD dir a lv d z y) x)).
Proof.
  intros Hlv Hs. pose proof Hs as (Hroot & Hrep & Hctx & Hsent & Hnd)%tree_state_plug.
  rewrite !addrs_nodeD, tptr_nodeD in *.
  assert (Permutation ((a :: addrs z ++ b :: addrs y ++ addrs x) ++ ctx_addrs c)
            ((a :: b :: addrs x ++ addrs y ++ addrs z) ++ ctx_addrs c)) as Hp by solve_Permutation.
  pose proof Hnd as Hnd0. rewrite Hp in Hnd. clear Hp.
  apply NoDup_app in Hnd as (Hnd & Hdis & Hndc).
  destruct (rotate_links dir a lv d b lvb db x y z (ctx_ptr c) s
    (λ p, replace_in_parent (PNode a) p;; upd (PNode a) (set_parent p);;
          s0 ← get; (if decide (PNode a = t_root s0) then set_root p else mret tt);; mret p))
    as (m1 & E1 & Ha & Hb & Hx & Hy & Hz & Hs1 & Hm1); [done..|].
  assert (a ≠ b) as Hab by (apply NoDup_cons in Hnd as []; set_solver).
  assert (a ∉ ctx_addrs c) as Hac by (apply Hdis; left).
  assert (b ∉ ctx_addrs c) as Hbc by (apply Hdis; right; left).
  destruct (replace_in_parent_ok a _ (PNode b) c (with_mem m1 s) Ha) as (m2 & E2 & Hc2 & Hs2 & Hm2 & Hb2).
  { by destruct dir. }
  { eapply rep_ctx_ext; [|done]. intros w Hw. apply Hm1. intros Hin. apply (Hdis w); [|done]. clear -Hin. set_solver. }
  { by constructor. }
  { done. }
  { right. eexists b, _. split_and!; [done| |done|by destruct dir]. clear -Hab Hbc. set_solver. }
  cbn [t_mem with_mem] in *. specialize (Hb2 ltac:(done)). rewrite Hb in Hb2. cbn [fmap option_fmap option_map] in Hb2.
  assert (m2 !! PNode a = m1 !! PNode a) as Ha2 by (apply Hm2; congruence). rewrite Ha in Ha2.
  eexists. split_and!.
  - unfold rotate. setoid_rewrite E1. rewrite (bind_run _ _ _ _ _ E2). mstep.
    rewrite (rotate_root c (nodeD dir a lv d z (nodeD dir b lvb db y x))
               (nodeD dir b lvb db (nodeD dir a lv d z y) x)); [reflexivity|done|by destruct dir|done|by destruct dir].
  - rewrite tree_state_plug. cbn [t_mem t_root with_mem].
    rewrite !rep_nodeD, !addrs_nodeD, !tptr_nodeD. 
    assert (∀ w, w ≠ a → w ≠ b → w ∉ ctx_addrs c → 
       (<[PNode a:=set_parent (PNode b) (cellD dir (ctx_ptr c) lv d (tptr z) (tptr y))]> m2) !! PNode w = m1 !! PNode w) as Hm3.
    { intros w Hwa Hwb Hwc. rewrite lookup_insert_ne by congruence. apply Hm2; congruence. }
    assert (∀ w, w ∈ addrs x ++ addrs y ++ addrs z → w ≠ a ∧ w ≠ b ∧ w ∉ ctx_addrs c) as Hd.
    { apply NoDup_cons in Hnd as [Hna [Hnb _]%NoDup_cons]. intros w Hw. split_and!.
      - intros ->. apply Hna. by right.
      - by intros ->.
      - apply Hdis. by do 2 right. }
    assert (∀ par t, (∀ w, w ∈ addrs t → w ∈ addrs x ++ addrs y ++ addrs z) → rep m1 par t →
      rep (<[PNode a:=set_parent (PNode b) (cellD dir (ctx_ptr c) lv d (tptr z) (tptr y))]> m2) par t) as Hrep'.
    { intros par t Ht. apply rep_ext. intros w Hw. destruct (Hd w (Ht w Hw)) as (?&?&?). by apply Hm3. }
    split_and!.
    + done.
    + rewrite lookup_insert_ne, Hb2 by congruence. by destruct dir.
    + rewrite lookup_insert_eq. by destruct dir.
    + apply Hrep'; [|done]. clear. set_solver.
    + apply Hrep'; [|done]. clear. set_solver.
    + apply Hrep'; [|done]. clear. set_solver.
    + eapply rep_ctx_ext; [|done]. intros w Hw. apply lookup_insert_ne. congruence.
    + destruct Hs2 as [sp Hs2]. eexists. rewrite lookup_insert_ne by done. exact Hs2.
    + eapply NoDup_Permutation_proper; [|exact Hnd0]. solve_Permutation.
  - split_and!; [done..|]. intros w Hw. cbn [t_mem with_mem]. rewrite addrs_plug, !addrs_nodeD in Hw.
    rewrite lookup_insert_ne by (clear -Hw; set_solver).
    rewrite Hm2 by (clear -Hw; set_solver).
    apply Hm1. clear -Hw; set_solver.
Qed.

(** ** Reading and writing one node *)
Lemma tree_cell s c t : tree_state s (plug c t) →
  ∃ n, t_mem s !! tptr t = Some n ∧ nlevel n = level t ∧
       leaf0 n = tptr (left_of t) ∧ leaf1 n = tptr (right_of t).
Proof.
  intros (_ & Ht & _ & [sp Hs] & _)%tree_state_plug. destruct t as [|a lv d l r].
  - by eexists.
  - destruct Ht as (Ha & _). by eexists.
Qed.

Lemma tree_node s c a lv d l r : tree_state s (plug c (Node a lv d l r)) →
  t_mem s !! PNode a = Some (mk_andnode (ctx_ptr c) (tptr l) (tptr r) lv d).
Proof. by intros (_ & (Ha & _) & _)%tree_state_plug. Qed.

Definition is_nilT (t : aatree) : bool := match t with Nil => true | _ => false end.

Lemma tree_is_nil s c t : tree_state s (plug c t) → (is_nilT t = false → 1 <= level t) →
  is_nil (tptr t) s = Ret (is_nilT t, s).
Proof.
  intros Hs Hl. destruct (tree_cell _ _ _ Hs) as (n & Hn & Hlv & _).
  rewrite (is_nil_load _ _ _ (tptr_not_null t) Hn), Hlv. do 2 f_equal.
  destruct t as [|a lv d l r]; [done|]. apply Z.eqb_neq. specialize (Hl eq_refl). lia.
Qed.

Lemma untouched_refl xs s : untouched xs s s.
Proof. done. Qed.

Lemma untouched_trans xs ys s1 s2 s3 : (∀ z, z ∈ ys → z ∈ xs) →
  untouched xs s1 s2 → untouched ys s2 s3 → untouched xs s1 s3.
Proof.
  intros Hxy (?&?&Hm) (?&?&Hm'). split_and!; [congruence..|]. intros z Hz.
  rewrite Hm' by auto. by apply Hm.
Qed.

Lemma runs_ret {A} (v : A) s t : tree_state s t → runs (mret v) s t v t.
Proof. intros Hs. by exists s. Qed.

Lemma runs_bind {A B} (m : M (anstate H) A) (k : A → M (anstate H) B) s t v t' w t'' :
  runs m s t v t' → addrs t' ≡ₚ addrs t →
  (∀ s', tree_state s' t' → runs (k v) s' t' w t'') → runs (m ≫= k) s t w t''.
Proof.
  intros (s1 & E1 & Hs1 & Hu1) Hp Hk. destruct (Hk s1 Hs1) as (s2 & E2 & Hs2 & Hu2).
  exists s2. split_and!; [by rewrite (bind_run _ _ _ _ _ E1)|done|].
  eapply untouched_trans; [|done..]. intros z. by rewrite Hp.
Qed.

(** A step that only reads. *)
Lemma runs_step {A B} (m : M (anstate H) A) (k : A → M (anstate H) B) s t v w t' :
  m s = Ret (v, s) → runs (k v) s t w t' → runs (m ≫= k) s t w t'.
Proof. intros E (s' & ? & ? & ?). exists s'. by rewrite (bind_run _ _ _ _ _ E). Qed.

Lemma runs_upd c a lv d l r lv' d' f s : tree_state s (plug c (Node a lv d l r)) →
  (∀ par p q, f (mk_andnode par p q lv d) = mk_andnode par p q lv' d') →
  runs (upd (PNode a) f) s (plug c (Node a lv d l r)) tt (plug c (Node a lv' d' l r)).
Proof.
  intros Hs Hf. pose proof Hs as (Hr & (Ha & Hl & Hr') & Hc & [sp Hsp] & Hn)%tree_state_plug.
  rewrite addrs_Node in Hn. pose proof Hn as Hn0.
  eexists. split_and!; [by rewrite (upd_ok _ _ _ _ Ha)| |].
  - rewrite Hf, tree_state_plug. cbn [t_root t_mem with_mem rep].
    rewrite addrs_Node. apply NoDup_app in Hn as (Hn1 & Hn2 & Hn3).
    apply NoDup_app in Hn1 as (Hn4 & Hn5 & [Hn6 Hn7]%NoDup_cons).
    split_and!.
    + rewrite Hr. by apply tptr_plug_ext.
    + mlook.
    + eapply rep_ext; [|done]. intros w Hw. apply lookup_insert_ne. intros [= ->].
      apply (Hn5 _ Hw). by left.
    + eapply rep_ext; [|done]. intros w Hw. apply lookup_insert_ne. by intros [= ->].
    + eapply rep_ctx_ext; [|done]. intros w Hw. apply lookup_insert_ne. intros [= ->].
      eapply Hn2; [|done]. apply elem_of_app. right. by left.
    + eexists. mlook.
    + done.
  - split_and!; [done..|]. intros w Hw. cbn [t_mem with_mem]. apply lookup_insert_ne.
    intros [= ->]. apply Hw. rewrite addrs_plug, addrs_Node. clear. set_solver.
Qed.
End rotate.
