(* ===== verification/AndTreeInsert.v ===== *)
(** Rebalancing and insertion of the pointer trees: [andtree_skew] is [skewT],
    [andtree_split] is [splitT], and [andtree_insert] is the reference
    insertion, with fuel logarithmic in the size of the tree. *)

From S2P Require Import Prelude Interfaces AATree AndTree AndTreeRep.
#[local] Open Scope Z_scope.

(** ** Levels and heights of intermediate trees *)

(** The greatest level a split may still raise. *)
Definition max_level : Z := 2 ^ 32 - 2.

Lemma levels_pos B t : levels B t → is_nilT t = false → 1 <= level t.
Proof. destruct t; simpl; [done|lia]. Qed.

Lemma levels_mono B B' t : B <= B' → levels B t → levels B' t.
Proof. induction t; simpl; [done|]. naive_solver lia. Qed.

Lemma levels_skew_node B a lv d l r : levels B (Node a lv d l r) → levels B (skew_node a lv d l r).
Proof.
  revert a lv d r. induction l as [|b lvb db bl _ br IH]; intros a lv d r; [done|].
  intros (? & (? & ? & ?) & ?). simpl. case_match; [|simpl; tauto].
  simpl. split_and!; try tauto. apply IH. simpl. tauto.
Qed.

Lemma levels_skewT B t : levels B t → levels B (skewT t).
Proof. destruct t; [done|]. apply levels_skew_node. Qed.

Lemma levels_splitT B t : levels B t → levels (B + 1) (splitT t).
Proof.
  induction t as [|a lv d l r _ IH] using aatree_ind2; [done|]. rewrite splitT_unfold.
  intros Ht. assert (levels (B + 1) (Node a lv d l r)) as Ht' by (eapply levels_mono; [|done]; lia).
  destruct r as [|b lvb db bl [|c lvc dc cl cr]]; try done. case_match; [|done].
  cbn [right_of] in IH. destruct Ht as (? & ? & ? & ? & Hr). apply IH in Hr.
  cbn [levels] in *. split_and!; try tauto; try lia.
Qed.

Lemma levels_aa t : aa t → levels (level t) t.
Proof.
  induction t as [|a lv d l IHl r IHr]; [done|]. cbn [aa level levels]. intros (?&?&?&Hl&Hr).
  specialize (IHl Hl). specialize (IHr Hr). apply aa_level in Hl, Hr.
  split_and!; [lia|lia| |]; (eapply levels_mono; [|done]; lia).
Qed.

Lemma height_skew_node a lv d l r : (height (skew_node a lv d l r) <= S (height l + height r))%nat.
Proof.
  revert a lv d r. induction l as [|b lvb db bl _ br IH]; intros a lv d r; [simpl; lia|].
  simpl. case_match; simpl; [|lia]. specialize (IH a lv d r). lia.
Qed.

Lemma height_skewT t : (height (skewT t) <= S (height (left_of t) + height (right_of t)))%nat.
Proof. destruct t; simpl; [lia|]. apply height_skew_node. Qed.

Lemma height_splitT t : (height (splitT t) <= S (height t))%nat.
Proof.
  induction t as [|a lv d l r _ IH] using aatree_ind2; [simpl; lia|]. rewrite splitT_unfold.
  destruct r as [|b lvb db bl [|c lvc dc cl cr]]; try lia. case_match; [|lia].
  cbn [right_of height] in *. lia.
Qed.

Lemma height_level t : aa t → (height t <= Z.to_nat (2 * level t))%nat.
Proof. intros Ht. pose proof (aa_height t Ht) as [? _]. pose proof (aa_level t Ht). lia. Qed.

Lemma addrs_plug_eq c t t' : inorder t' = inorder t → addrs (plug c t') ≡ₚ addrs (plug c t).
Proof. intros E. unfold addrs. by rewrite !inorder_plug, E. Qed.

Section ops.
Context {H : Type} `{Allocator H}.
Implicit Types (s : anstate H).

(** ** [andtree_skew] *)
Lemma skew_ok fuel B c t s :
  (S (height (left_of t)) <= fuel)%nat → levels B t → tree_state s (plug c t) →
  runs (andtree_skew fuel (tptr t)) s (plug c t) (tptr (skewT t)) (plug c (skewT t)).
Proof.
  revert c t s. induction fuel as [|fuel IH]; intros c t s Hf Hl Hs; [lia|].
  destruct t as [|a lv d l r].
  { eapply runs_step; [by apply (tree_is_nil _ c Nil Hs)|]. by apply runs_ret. }
  cbn [andtree_skew tptr].
  eapply runs_step; [apply (tree_is_nil _ _ _ Hs), (levels_pos _ _ Hl)|]. cbn [is_nilT].
  eapply runs_step; [apply load_ok, (tree_node _ _ _ _ _ _ _ Hs)|]. cbn [leaf leaf0 LEFT nlevel].
  destruct (tree_cell s (FL a lv d r :: c) l Hs) as (nl & El & Hnl & _).
  eapply runs_step; [apply load_ok, El|]. rewrite Hnl. cbn [skewT].
  destruct (Z.eqb_spec (level l) lv) as [E|E].
  - destruct l as [|b lvb db bl br]; [simpl in *; lia|]. simpl in E. subst lvb. rewrite skew_rot by done.
    destruct Hl as (? & (? & Hbl & Hbr) & Hr). cbn [left_of height] in Hf.
    eapply runs_bind; [apply (rotate_ok true a lv d b lv db bl br r c s); [lia|done]|by apply addrs_plug_eq; simpl; rewrite <- app_assoc|].
    cbn [nodeD]. intros s1 Hs1.
    eapply runs_step; [apply load_ok, (tree_node _ _ _ _ _ _ _ Hs1)|]. cbn [leaf leaf1 RIGHT].
    eapply runs_bind; [refine (IH (FR b lv db bl :: c) (Node a lv d br r) s1 _ _ Hs1); [simpl; lia|by simpl]| |].
    + cbn [plug plug1]. apply addrs_plug_eq. cbn [inorder]. by autorewrite with c4w.
    + intros s2 Hs2. by apply runs_ret.
  - rewrite skew_id by done. by apply runs_ret.
Qed.

(** ** [andtree_split] *)
Lemma split_ok fuel c t s :
  (S (height t) <= fuel)%nat → levels max_level t → tree_state s (plug c t) →
  runs (andtree_split fuel (tptr t)) s (plug c t) (tptr (splitT t)) (plug c (splitT t)).
Proof.
  revert c t s. induction fuel as [|fuel IH]; intros c t s Hf Hl Hs; [lia|].
  destruct t as [|a lv d l r].
  { eapply runs_step; [by apply (tree_is_nil _ c Nil Hs)|]. by apply runs_ret. }
  cbn [andtree_split tptr].
  eapply runs_step; [apply (tree_is_nil _ _ _ Hs), (levels_pos _ _ Hl)|]. cbn [is_nilT].
  eapply runs_step; [apply load_ok, (tree_node _ _ _ _ _ _ _ Hs)|]. cbn [leaf leaf1 RIGHT nlevel].
  destruct (tree_cell s (FR a lv d l :: c) r Hs) as (nr & Er & _ & _ & Hrr).
  eapply runs_step; [apply load_ok, Er|]. cbn [leaf RIGHT]. rewrite Hrr.
  assert (∃ nrr, t_mem s !! tptr (right_of r) = Some nrr ∧ nlevel nrr = level (right_of r)) as (nrr & Err & Hnrr).
  { destruct r as [|b lvb db bl br].
    - destruct (tree_cell s (FR a lv d l :: c) Nil Hs) as (? & ? & ? & _). eauto.
    - destruct (tree_cell s (FR b lvb db bl :: FR a lv d l :: c) br Hs) as (? & ? & ? & _). eauto. }
  eapply runs_step; [apply load_ok, Err|]. rewrite Hnrr.
  destruct (Z.eqb_spec lv (level (right_of r))) as [E|E].
  - destruct Hl as (? & Hll & Hr). destruct r as [|b lvb db bl br]; [simpl in *; lia|].
    destruct Hr as (? & Hbl & Hbr). cbn [right_of] in *. rewrite splitT_rot by lia.
    cbn [height] in Hf.
    eapply runs_bind; [apply (rotate_ok false a lv d b lvb db br bl l c s); [lia|done]|by apply addrs_plug_eq; simpl; rewrite <- app_assoc|].
    cbn [nodeD]. intros s1 Hs1.
    eapply runs_bind; [eapply (runs_upd c b lvb db _ br (lvb + 1) db); [done|]|by apply addrs_plug_eq|].
    { intros. cbn [nlevel]. rewrite u32_small; [done|]. unfold max_level in *. lia. }
    intros s2 Hs2.
    eapply runs_step; [apply load_ok, (tree_node _ _ _ _ _ _ _ Hs2)|]. cbn [leaf leaf1 RIGHT].
    eapply runs_bind; [refine (IH (FR b (lvb + 1) db (Node a lv d l bl) :: c) br s2 _ _ Hs2); [lia|done]| |].
    + cbn [plug plug1]. apply addrs_plug_eq. cbn [inorder]. by autorewrite with c4w.
    + intros s3 Hs3. by apply runs_ret.
  - rewrite splitT_id by congruence. by apply runs_ret.
Qed.

(** ** The repair walk of an insertion *)
Definition rebalance (t : aatree) : aatree := splitT (skewT t).

(** A tree one turn of the repair walk can handle with fuel [n]. *)
Definition small (n : nat) (t : aatree) : Prop :=
  levels max_level t ∧ (height (left_of t) + height (right_of t) + 4 <= n)%nat.

Lemma rebalance_ok {B} n c t s (k : nptr → M (anstate H) B) w t'' : small n t → tree_state s (plug c t) →
  (∀ s', tree_state s' (plug c (rebalance t)) → runs (k (tptr (rebalance t))) s' (plug c (rebalance t)) w t'') →
  runs (t1 ← andtree_skew n (tptr t); t2 ← andtree_split n t1; k t2) s (plug c t) w t''.
Proof.
  intros [Hl Hh] Hs Hk.
  eapply runs_bind; [apply (skew_ok n max_level); [lia|done|done]| |].
  { apply addrs_plug_eq. by autorewrite with c4w. }
  intros s1 Hs1. eapply runs_bind; [apply split_ok; [|by apply levels_skewT|done]| |].
  { pose proof (height_skewT t). lia. }
  { apply addrs_plug_eq. by autorewrite with c4w. }
  done.
Qed.

Fixpoint small_path (n : nat) (g : aatree → aatree) (c : list frame) (t : aatree) : Prop :=
  small n t ∧ match c with [] => True | f :: c' => small_path n g c' (plug1 f (g t)) end.

Lemma tree_parent s c t : tree_state s (plug c t) → t ≠ Nil →
  ∃ n, t_mem s !! tptr t = Some n ∧ parent n = ctx_ptr c.
Proof. destruct t; [done|]. intros Hs%tree_node _. by eexists. Qed.

Lemma rebalance_Node t : t ≠ Nil → rebalance t ≠ Nil.
Proof.
  intros Ht E. apply (f_equal inorder) in E. unfold rebalance in E. autorewrite with c4w in E.
  destruct t; [done|]. simpl in E. by destruct (inorder t1).
Qed.

Lemma plug1_Node f t : plug1 f t ≠ Nil.
Proof. by destruct f. Qed.

Lemma insert_repair_ok n fuel c t s : t ≠ Nil → (n + length c + 2 <= fuel)%nat →
  small_path n rebalance c t → tree_state s (plug c t) →
  runs (andtree_insert_repair fuel (tptr t)) s (plug c t) tt (upT rebalance c (rebalance t)).
Proof.
  revert c t s. induction fuel as [|fuel IH]; intros c t s Ht Hf Hsm Hs; [lia|].
  cbn [andtree_insert_repair]. rewrite decide_False by apply tptr_not_null.
  apply (rebalance_ok fuel); [|done|].
  { destruct c; destruct Hsm as [[? ?] _]; split; (done || lia). }
  intros s1 Hs1. destruct (tree_parent _ _ _ Hs1 (rebalance_Node _ Ht)) as (m & Em & Epar).
  eapply runs_step; [apply load_ok, Em|]. rewrite Epar. destruct c as [|f c].
  - destruct fuel; [simpl in Hf; lia|]. cbn [ctx_ptr andtree_insert_repair]. rewrite decide_True by done.
    by apply runs_ret.
  - cbn [ctx_ptr upT]. rewrite <- (tptr_plug1 f (rebalance t)).
    apply (IH c (plug1 f (rebalance t))); [apply plug1_Node|simpl in Hf; lia|apply Hsm|done].
Qed.

(** ** Linking a new leaf *)
Lemma link_ok f c a x s :
  tree_state s (plug (f :: c) Nil) → a ∉ addrs (plug (f :: c) Nil) →
  t_mem s !! PNode a = Some (mk_andnode PNull PSentinel PSentinel 1 x) →
  ∃ s', (upd (PNode (frame_addr f)) (set_leaf (frame_side f) (PNode a));;
         upd (PNode a) (set_parent (PNode (frame_addr f)))) s = Ret (tt, s') ∧
    tree_state s' (plug (f :: c) (Node a 1 x Nil Nil)) ∧
    t_heap s' = t_heap s ∧ t_nodes s' = t_nodes s ∧
    (∀ z, z ∉ a :: addrs (plug (f :: c) Nil) → t_mem s' !! PNode z = t_mem s !! PNode z).
Proof.
  rewrite addrs_plug, ctx_addrs_cons. intros Hs Ha Ea.
  pose proof Hs as (Hr & _ & (Hf & Hft & Hc) & [sp Hsp] & Hn)%tree_state_plug.
  rewrite ctx_addrs_cons in Hn. cbn [addrs inorder fmap list_fmap app] in Hn, Ha.
  assert (a ≠ frame_addr f) as Hne by (intros ->; apply Ha; left).
  pose proof Hn as [Hnf _]%NoDup_cons.
  eexists. rewrite (upd_bind _ _ _ _ _ Hf). erewrite upd_ok by mlook. split_and!; [done| |done|done|].
  - rewrite tree_state_plug. cbn [t_mem t_root with_mem rep rep_ctx]. split_and!; try done.
    + rewrite Hr. change (plug (f :: c) Nil) with (plug c (plug1 f Nil)).
      change (plug (f :: c) ?t) with (plug c (plug1 f t)). apply tptr_plug_ext. by rewrite !tptr_plug1.
    + by rewrite lookup_insert_eq.
    + rewrite lookup_insert_ne, lookup_insert_eq by congruence. by destruct f.
    + eapply rep_ext; [|done]. intros z Hz. rewrite !lookup_insert_ne; [done| |].
      * intros [= <-]. apply Hnf, elem_of_app. by left.
      * intros [= <-]. apply Ha. right. apply elem_of_app. by left.
    + eapply rep_ctx_ext; [|done]. intros z Hz. rewrite !lookup_insert_ne; [done| |].
      * intros [= <-]. apply Hnf, elem_of_app. by right.
      * intros [= <-]. apply Ha. right. apply elem_of_app. by right.
    + eexists. mlook.
    + cbn [addrs inorder fmap list_fmap app]. rewrite ctx_addrs_cons. by constructor.
  - intros z Hz. cbn [t_mem with_mem]. rewrite !lookup_insert_ne; [done| |].
    + intros [= <-]. apply Hz. rewrite addrs_plug, ctx_addrs_cons. right. left.
    + intros [= <-]. apply Hz. left.
Qed.

(** ** Descent *)
Section descent.
Context (get_key : Z → Z).

(** Where [andtree_bin_insert] puts a node with data [x]. *)
Fixpoint locate (x : Z) (c : list frame) (t : aatree) : list frame :=
  match t with
  | Nil => c
  | Node a lv d l r =>
      if get_key x <? get_key d then locate x (FL a lv d r :: c) l
      else locate x (FR a lv d l :: c) r
  end.

Lemma plug_locate x c t : plug (locate x c t) Nil = plug c t.
Proof.
  revert c. induction t as [|a lv d l IHl r IHr]; intros c; simpl; [done|].
  case_match; [by rewrite IHl|by rewrite IHr].
Qed.

Lemma upT_locate a x c t :
  upT rebalance (locate x c t) (Node a 1 x Nil Nil) = upT rebalance c (insT get_key a x t).
Proof.
  revert c. induction t as [|b lv d l IHl r IHr]; intros c; simpl; [done|].
  case_match; [by rewrite IHl|by rewrite IHr].
Qed.

Lemma length_locate x c t : (length (locate x c t) <= length c + height t)%nat.
Proof.
  revert c. induction t as [|b lv d l IHl r IHr]; intros c; simpl; [lia|].
  case_match; [specialize (IHl (FL b lv d r :: c))|specialize (IHr (FR b lv d l :: c))]; simpl in *; lia.
Qed.

(** The keys are close enough for [key - get_key(data)] to be exact in an [int]. *)
Definition cmp_ok (k : Z) (t : aatree) : Prop :=
  Forall (λ d, - 2 ^ 31 <= k - get_key d < 2 ^ 31) (elements t).

Lemma cmp_ok_Node k a lv d l r : cmp_ok k (Node a lv d l r) ↔
  cmp_ok k l ∧ - 2 ^ 31 <= k - get_key d < 2 ^ 31 ∧ cmp_ok k r.
Proof. unfold cmp_ok. by rewrite elements_Node, Forall_app, Forall_cons. Qed.

Lemma compare_ok k p s n : t_mem s !! p = Some n → - 2 ^ 31 <= k - get_key (ndata n) < 2 ^ 31 →
  andtree_compare get_key k p s = Ret (k - get_key (ndata n), s).
Proof.
  intros E Hk. unfold andtree_compare. rewrite (load_bind _ _ _ _ E). by rewrite i32_small.
Qed.

Lemma bin_insert_loop_ok fuel a x c t s :
  (height t + 2 <= fuel)%nat → t ≠ Nil → levels max_level t → cmp_ok (get_key x) t →
  tree_state s (plug c t) → a ∉ addrs (plug c t) →
  t_mem s !! PNode a = Some (mk_andnode PNull PSentinel PSentinel 1 x) →
  ∃ s', bin_insert_loop get_key fuel (PNode a) (tptr t) s = Ret (tt, s') ∧
    tree_state s' (plug (locate x c t) (Node a 1 x Nil Nil)) ∧
    t_heap s' = t_heap s ∧ t_nodes s' = t_nodes s ∧
    (∀ z, z ∉ a :: addrs (plug c t) → t_mem s' !! PNode z = t_mem s !! PNode z).
Proof.
  revert c t s. induction fuel as [|fuel IH]; intros c t s Hf Ht Hl Hcmp Hs Ha Ea; [lia|].
  destruct t as [|b lv d l r]; [done|]. clear Ht.
  pose proof (tree_node _ _ _ _ _ _ _ Hs) as Eb.
  assert (a ≠ b) as Hab.
  { intros <-. apply Ha. rewrite addrs_plug, addrs_Node. clear. set_solver. }
  apply cmp_ok_Node in Hcmp as (Hcl & Hcd & Hcr). destruct Hl as (? & Hll & Hlr).
  cbn [bin_insert_loop tptr]. rewrite decide_False by congruence.
  rewrite (load_bind _ _ _ _ Ea). cbn [ndata].
  rewrite (bind_run _ _ _ _ _ (compare_ok _ _ _ _ Eb Hcd)). cbn [ndata].
  rewrite (load_bind _ _ _ _ Eb). cbn [locate height] in *.
  replace (get_key x - get_key d <? 0) with (get_key x <? get_key d) by (zbool; lia).
  set (f := if get_key x <? get_key d then FL b lv d r else FR b lv d l).
  set (u := if get_key x <? get_key d then l else r).
  assert (plug c (Node b lv d l r) = plug (f :: c) u) as E.
  { subst f u. by destruct (get_key x <? get_key d). }
  rewrite E in *.
  replace (if get_key x <? get_key d then locate x (FL b lv d r :: c) l else locate x (FR b lv d l :: c) r)
    with (locate x (f :: c) u) by (subst f u; by destruct (get_key x <? get_key d)).
  replace (leaf (negb (get_key x <? get_key d)) (mk_andnode (ctx_ptr c) (tptr l) (tptr r) lv d)) with (tptr u)
    by (subst u; by destruct (get_key x <? get_key d)).
  assert (levels max_level u ∧ cmp_ok (get_key x) u ∧ (height u + 2 <= fuel)%nat) as (Hlu & Hcu & Hhu).
  { subst u. destruct (get_key x <? get_key d); split_and!; (done || lia). }
  rewrite (bind_run _ _ _ _ _ (tree_is_nil s (f :: c) u Hs (levels_pos _ _ Hlu))).
  assert (frame_side f = negb (get_key x <? get_key d)) as Eside
    by (subst f; by destruct (get_key x <? get_key d)).
  assert (frame_addr f = b) as Eaddr by (subst f; by destruct (get_key x <? get_key d)).
  rewrite <- Eside in *. rewrite <- Eaddr in *. clearbody f u. clear E Eside.
  assert (u = Nil ∨ u ≠ Nil) as [->|Hu] by (destruct u; auto); cbn [is_nilT].
  - destruct (link_ok f c a x s Hs Ha Ea) as (s1 & E1 & Hs1 & Hh & Hn & Hm).
    rewrite (bind_run _ _ _ _ _ E1).
    pose proof Hs1 as (_ & _ & (Ef & _) & _)%tree_state_plug.
    rewrite (load_bind _ _ _ _ Ef).
    replace (leaf (frame_side f) (frame_cell (ctx_ptr c) (tptr (Node a 1 x Nil Nil)) f)) with (PNode a)
      by (by destruct f).
    destruct fuel as [|fuel]; [lia|]. cbn [bin_insert_loop]. rewrite decide_True by done.
    by exists s1.
  - replace (is_nilT u) with false by (by destruct u). cbn [negb].
    rewrite (bind_run (mret tt) _ s tt s) by done. rewrite (load_bind _ _ _ _ Eb).
    pose proof Hs as (_ & _ & (Ef & _) & _)%tree_state_plug. rewrite Eb in Ef.
    injection Ef as Ef. replace (leaf (frame_side f) _) with (tptr u) by (rewrite Ef; by destruct f).
    by apply (IH (f :: c) u); [lia|..].
Qed.

(** ** The insertion *)
Record tree_inv (s : anstate H) (t : aatree) : Prop := {
  ti_state :> tree_state s t;
  ti_aa : aa t;
  ti_sorted : sorted get_key (elements t);
  ti_nodes : t_nodes s = Z.of_nat (tree_size t);
  ti_heap : al_inv (t_heap s);
  ti_live : ∀ a, a ∈ addrs t → a ∈ al_live (t_heap s)
}.

(** Enough fuel for any operation on a tree of [n] nodes. *)
Definition tree_fuel (n : nat) : nat := Z.to_nat (12 * Z.log2 (Z.of_nat n + 1) + 24).

Lemma aa_level_log t : aa t → level t <= Z.log2 (Z.of_nat (tree_size t) + 1).
Proof.
  intros Ht. pose proof (aa_size t Ht) as Hs%Z.log2_le_mono. pose proof (aa_level t Ht).
  rewrite Z.log2_pow2 in Hs by lia. done.
Qed.

Lemma aa_level_max t : aa t → Z.of_nat (tree_size t) < 2 ^ 31 → level t + 1 <= max_level.
Proof.
  intros Ht Hs. pose proof (aa_level_log t Ht).
  assert (Z.log2 (Z.of_nat (tree_size t) + 1) <= Z.log2 (2 ^ 31)) as Hl by (apply Z.log2_le_mono; lia).
  rewrite Z.log2_pow2 in Hl by lia. unfold max_level. lia.
Qed.

Lemma level_plug c t : aa (plug c t) → level t <= level (plug c t).
Proof.
  revert t. induction c as [|f c IH]; intros t Ht; [done|]. specialize (IH _ Ht).
  apply (aa_plug c) in Ht. simpl in *.
  destruct f; simpl in *; destruct Ht as (?&?&?&?&?); lia.
Qed.

Lemma small_aa n L f t t0 : aa (plug1 f t0) → aa t → level t <= level t0 + 1 →
  level (plug1 f t0) <= L → L + 1 <= max_level → 4 * L + 8 <= Z.of_nat n → small n (plug1 f t).
Proof.
  intros Hf Ht Hg HL HL' Hn. pose proof (height_level t Ht). pose proof (aa_level t Ht).
  assert (levels max_level t) as Hlt.
  { eapply levels_mono; [|by apply levels_aa]. destruct f; simpl in *; destruct Hf as (?&?&?&?&?); lia. }
  destruct f as [b lv d r|b lv d l]; simpl in *; destruct Hf as (?&?&?&Hl&Hr).
  - pose proof (height_level r Hr). pose proof (aa_level r Hr). pose proof (aa_level t0 Hl).
    pose proof (levels_aa r Hr). split; simpl; [split_and!; [lia|lia|done|]|lia].
    eapply levels_mono; [|done]. lia.
  - pose proof (height_level l Hl). pose proof (aa_level l Hl). pose proof (aa_level t0 Hr).
    pose proof (levels_aa l Hl). split; simpl; [split_and!; [lia|lia| |done]|lia].
    eapply levels_mono; [|done]. lia.
Qed.

Lemma small_path_grows n c t0 t : aa (plug c t0) → small n t → grows t0 (rebalance t) →
  level (plug c t0) + 1 <= max_level → 4 * level (plug c t0) + 8 <= Z.of_nat n →
  small_path n rebalance c t.
Proof.
  revert t0 t. induction c as [|f c IH]; intros t0 t Haa Hsm [Hr Hg] HL Hn; [done|].
  split; [done|]. pose proof (aa_plug c _ Haa) as Haf. pose proof (level_plug c _ Haa) as Hlv.
  pose proof (small_aa n _ f (rebalance t) t0 Haf Hr ltac:(lia) Hlv ltac:(done) ltac:(done)) as Hsm'.
  apply (IH (plug1 f t0)); [done|done| |done|done].
  unfold rebalance at 1.
  destruct f; simpl; [apply grows_left|apply grows_right]; (done || by split).
Qed.

Lemma size_insT a x t : sorted get_key (elements t) →
  tree_size (insT get_key a x t) = S (tree_size t).
Proof.
  intros Hs. rewrite <- !length_inorder. 
  rewrite <- (length_fmap snd), <- (length_fmap snd (inorder t)).
  change (length (elements (insT get_key a x t)) = S (length (elements t))).
  by rewrite elements_insT, insert_list_perm.
Qed.

Lemma tree_state_ext s s' t : tree_state s t → t_root s' = t_root s → sent_ok (t_mem s') →
  (∀ z, z ∈ addrs t → t_mem s' !! PNode z = t_mem s !! PNode z) → tree_state s' t.
Proof. intros [Hr Ht Hs Hn] Er Hs' Hm. split; [congruence|by eapply rep_ext|done..]. Qed.

Lemma make_andnode_ok `{!AllocatorLaws H} x s t : tree_state s t → al_inv (t_heap s) → al_room (t_heap s) →
  (∀ a, a ∈ addrs t → a ∈ al_live (t_heap s)) → alloc_succeeds sizeof_andnode (t_heap s) →
  ∃ a s', make_andnode x s = Ret (PNode a, s') ∧ a ∉ al_live (t_heap s) ∧
    tree_state s' t ∧ t_nodes s' = t_nodes s ∧ al_inv (t_heap s') ∧
    allocated sizeof_andnode a (t_heap s) (t_heap s') ∧
    t_mem s' !! PNode a = Some (mk_andnode PNull PSentinel PSentinel 1 x) ∧
    ∀ z, z ≠ a → t_mem s' !! PNode z = t_mem s !! PNode z.
Proof.
  intros Hs Hh Hroom Hlive (a & h & Ea & Ha).
  destruct (al_alloc_ok sizeof_andnode _ Hh Hroom ltac:(unfold sizeof_andnode; lia)) as (a' & h' & Ea' & Hh' & Hcase).
  rewrite Ea in Ea'. injection Ea' as <- <-. destruct Hcase as [[-> _]|(_ & Hfresh & Hlive')]; [done|].
  unfold make_andnode, on_heap, zoom. unfold mbind at 1, M_bind at 1. rewrite Ea.
  replace (a =? 0) with false by lia. eexists a, _. split.
  { unfold modify. unfold mbind at 1, M_bind at 1. do 4 (erewrite upd_bind by mlook). done. }
  cbn [t_nodes t_heap t_mem t_root with_mem]. split_and!; try done.
  - eapply tree_state_ext; [done|done| |].
    + destruct (ts_sent _ _ Hs) as [sp Hsp]. exists sp. mlook.
    + intros z Hz%Hlive. cbn [t_mem with_mem]. rewrite !lookup_insert_ne by (intros [= <-]; done). done.
  - by rewrite lookup_insert_eq.
  - intros z Hz. by rewrite !lookup_insert_ne by congruence.
Qed.

(** [andtree_bin_insert] on any tree, the empty one included. *)
Lemma bin_insert_ok fuel a x t s :
  (height t + 2 <= fuel)%nat → levels max_level t → cmp_ok (get_key x) t →
  tree_state s t → a ∉ addrs t →
  t_mem s !! PNode a = Some (mk_andnode PNull PSentinel PSentinel 1 x) →
  ∃ s', andtree_bin_insert get_key fuel (PNode a) s = Ret (tt, s') ∧
    tree_state s' (plug (locate x [] t) (Node a 1 x Nil Nil)) ∧
    t_heap s' = t_heap s ∧ t_nodes s' = t_nodes s ∧
    (∀ z, z ∉ a :: addrs t → t_mem s' !! PNode z = t_mem s !! PNode z).
Proof.
  intros Hf Hl Hcmp Hs Ha Ea. unfold andtree_bin_insert.
  rewrite (bind_run get _ s s s) by done. rewrite (ts_root _ _ Hs).
  rewrite (bind_run _ _ _ _ _ (tree_is_nil s [] t Hs (levels_pos _ _ Hl))).
  assert (t = Nil ∨ t ≠ Nil) as [->|Ht] by (destruct t; auto); cbn [is_nilT].
  - eexists. split; [reflexivity|]. split_and!; try done. split; simpl; try done.
    + by destruct Hs.
    + apply NoDup_singleton.
  - replace (is_nilT t) with false by (by destruct t).
    by apply (bin_insert_loop_ok fuel a x []).
Qed.

Lemma addrs_locate a x t :
  addrs (plug (locate x [] t) (Node a 1 x Nil Nil)) ≡ₚ a :: addrs t.
Proof.
  rewrite addrs_plug, addrs_Node. simpl.
  change (plug [] t) with t. rewrite <- (plug_locate x [] t) at 2.
  rewrite addrs_plug. done.
Qed.

Lemma addrs_insT a x t : addrs (insT get_key a x t) ≡ₚ a :: addrs t.
Proof.
  rewrite <- (addrs_locate a x t). unfold addrs.
  assert (∀ u, inorder (rebalance u) = inorder u) as Hr by (intros u; unfold rebalance; by autorewrite with c4w).
  pose proof (inorder_upT rebalance (locate x [] t) (Node a 1 x Nil Nil) Hr) as E.
  rewrite upT_locate in E. cbn [upT] in E. by rewrite E, inorder_plug.
Qed.

Lemma insert_spec `{!AllocatorLaws H} fuel x t s :
  tree_inv s t → cmp_ok (get_key x) t → Z.of_nat (tree_size t) + 1 < 2 ^ 31 →
  al_room (t_heap s) → alloc_succeeds sizeof_andnode (t_heap s) → (tree_fuel (tree_size t) <= fuel)%nat →
  ∃ a s', andtree_insert get_key fuel x s = Ret (PNode a, s') ∧
    a ∉ al_live (t_heap s) ∧ allocated sizeof_andnode a (t_heap s) (t_heap s') ∧
    tree_inv s' (insT get_key a x t) ∧
    elements (insT get_key a x t) = insert_list get_key x (elements t) ∧
    (∀ z, z ∉ a :: addrs t → t_mem s' !! PNode z = t_mem s !! PNode z).
Proof.
  intros [Hs Haa Hsort Hnodes Hh Hlive] Hcmp Hsz Hroom Hal Hf.
  pose proof (aa_level t Haa). pose proof (aa_level_log t Haa) as Hlog.
  pose proof (aa_level_max t Haa ltac:(lia)) as Hmax. pose proof (height_level t Haa).
  assert (levels max_level t) as Hlv by (eapply levels_mono; [|by apply levels_aa]; lia).
  unfold tree_fuel in Hf. unfold andtree_insert.
  destruct (make_andnode_ok x s t Hs Hh Hroom Hlive Hal) as (a & s1 & E1 & Ha & Hs1 & Hn1 & Hh1 & Hl1 & Ea & Hm1).
  rewrite (bind_run _ _ _ _ _ E1). assert (a ∉ addrs t) as Hat by (intros ?%Hlive; done).
  destruct (bin_insert_ok fuel a x t s1) as (s2 & E2 & Hs2 & Hh2 & Hn2 & Hm2); [lia|done..|].
  rewrite (bind_run _ _ _ _ _ E2).
  destruct (insert_repair_ok (Z.to_nat (4 * level t + 8)) fuel (locate x [] t) (Node a 1 x Nil Nil) s2)
    as (s3 & E3 & Hs3 & Hh3 & Hn3 & Hm3); [done| | |done|].
  { pose proof (length_locate x [] t). simpl in *. lia. }
  { apply (small_path_grows _ _ Nil); rewrite ?plug_locate; simpl; [done| | |lia|lia].
    - split; simpl; [unfold max_level|]; lia.
    - apply (insT_grows get_key a x Nil). done. }
  cbn [tptr] in E3. rewrite (bind_run _ _ _ _ _ E3).
  change (rebalance (Node a 1 x Nil Nil)) with (insT get_key a x Nil) in *.
  rewrite (upT_locate a x []) in Hs3.
  assert (∀ z, z ∈ addrs (insT get_key a x t) ↔ z ∈ a :: addrs t) as Hin.
  { intros z. by rewrite addrs_insT. }
  assert (tree_size (insT get_key a x t) = S (tree_size t)) as Hsz' by by apply size_insT.
  eexists a, _. split; [reflexivity|]. split_and!; [done|cbn [t_heap]; by rewrite Hh3, Hh2| | |].
  - split; cbn [t_nodes t_heap].
    + by destruct Hs3.
    + by apply insT_grows.
    + rewrite elements_insT by done. by apply sorted_insert_list.
    + rewrite Hn3, Hn2, Hn1, Hnodes, Hsz'. rewrite u32_small; lia.
    + by rewrite Hh3, Hh2.
    + intros z. rewrite Hin, Hh3, Hh2, (proj2 Hl1). intros [->|Hz%Hlive]%elem_of_cons; [clear|clear -Hz]; set_solver.
  - by apply elements_insT.
  - intros z Hz. cbn [t_mem]. rewrite Hm3, Hm2, Hm1; [done| |done|].
    + intros ->. apply Hz. left.
    + by rewrite addrs_locate.
Qed.

(** C2: [andtree_insert] puts the new data after every element with a smaller
    or equal key, keeps the tree balanced and sorted, counts it, touches only
    the tree's own nodes and one freshly allocated one, and does so within fuel
    logarithmic in the size of the tree. *)
Theorem andtree_insert_correct `{!AllocatorLaws H} fuel x t s :
  tree_inv s t → cmp_ok (get_key x) t → Z.of_nat (tree_size t) + 1 < 2 ^ 31 →
  al_room (t_heap s) → alloc_succeeds sizeof_andnode (t_heap s) → (tree_fuel (tree_size t) <= fuel)%nat →
  ∃ a s', andtree_insert get_key fuel x s = Ret (PNode a, s') ∧
    a ∉ al_live (t_heap s) ∧ allocated sizeof_andnode a (t_heap s) (t_heap s') ∧
    tree_inv s' (insT get_key a x t) ∧
    elements (insT get_key a x t) = insert_list get_key x (elements t) ∧
    (∀ z, z ∉ a :: addrs t → t_mem s' !! PNode z = t_mem s !! PNode z).
Proof. apply insert_spec. Qed.
End descent.
End ops.

#[global] Arguments tree_state {H} s t.
#[global] Arguments tree_inv {H _} get_key s t.

(** ** Concrete trees *)
Definition empty_tree : anstate Bump.bump :=
  mk_anstate PSentinel 0 Bump.start {[PSentinel := sentinel]}.

Lemma empty_tree_inv key : tree_inv key empty_tree Nil.
Proof.
  split; simpl; try done.
  - split; simpl; [done|done|by exists PNull|constructor].
  - constructor.
  - intros a Ha. unfold addrs in Ha. simpl in Ha. by apply not_elem_of_nil in Ha.
Qed.

(** Three elements: 7 at the root, 5 and 9 below. *)
Definition sample : aatree :=
  Node 4096 2 7 (Node 4116 1 5 Nil Nil) (Node 4136 1 9 Nil Nil).

Definition sample_state : anstate Bump.bump :=
  mk_anstate (PNode 4096) 3 (Bump.mk_bump 4156 {[4096; 4116; 4136]})
    (list_to_map
       [(PSentinel, sentinel);
        (PNode 4096, mk_andnode PNull (PNode 4116) (PNode 4136) 2 7);
        (PNode 4116, mk_andnode (PNode 4096) PSentinel PSentinel 1 5);
        (PNode 4136, mk_andnode (PNode 4096) PSentinel PSentinel 1 9)]).

Lemma sample_inv : tree_inv (λ d, d) sample_state sample.
Proof.
  split.
  - split; [done|vm_compute; tauto|by exists PNull|].
    apply (bool_decide_unpack _). by vm_compute.
  - simpl. lia.
  - change (elements sample) with [5; 7; 9]. unfold sorted. repeat constructor; lia.
  - done.
  - split; [done|]. simpl. intros a. rewrite !elem_of_union, !elem_of_singleton. lia.
  - simpl. intros a. change (addrs sample) with [4116; 4096; 4136]. set_solver.
Qed.

Lemma andtree_insert_correct_witness : ∃ a s',
  andtree_insert (λ d, d) (tree_fuel 0) 7 empty_tree = Ret (PNode a, s') ∧
  elements (insT (λ d, d) a 7 Nil) = [7].
Proof.
  destruct (andtree_insert_correct (λ d, d) (tree_fuel 0) 7 Nil empty_tree)
    as (a & s' & E & _ & _ & _ & El & _).
  - apply empty_tree_inv.
  - constructor.
  - simpl. lia.
  - exact I.
  - eexists _, _. split; [reflexivity|discriminate].
  - apply Nat.le_refl.
  - exists a, s'. split; [exact E|exact El].
Defined.
