(* ===== verification/AndTreeRemove.v ===== *)
(** Removal from the pointer trees: the successor's data moves into the node,
    the successor's node is unlinked and freed, and the repair walk restores
    the balance: [andtree_remove] is the reference removal of [AATree.v]. *)

From S2P Require Import Prelude Interfaces AATree AndTree AndTreeRep AndTreeInsert.
#[local] Open Scope Z_scope.

(** ** One turn of the repair loop *)
Lemma height_capT lv t : height (capT lv t) = height t.
Proof. destruct t; simpl; [done|]. by case_match. Qed.

Lemma levels_capT B lv t : 1 <= lv → levels B t → levels B (capT lv t).
Proof. destruct t; simpl; [done|]. case_match; simpl; [|done]. intros ? (?&?&?). split_and!; (done || lia). Qed.

Lemma tptr_capT lv t : tptr (capT lv t) = tptr t.
Proof. destruct t; simpl; [done|]. by case_match. Qed.

Lemma level_nonneg B t : levels B t → 0 <= level t.
Proof. destruct t; simpl; lia. Qed.

Section remove.
Context {H : Type} `{Allocator H}.
Implicit Types (s : anstate H).

(** The level of the right child is cut down to the node's. *)
Lemma cap_ok {B} c a lv d l r s (k : M (anstate H) B) w t'' : 1 <= lv → levels max_level r →
  tree_state s (plug c (Node a lv d l r)) →
  (∀ s', tree_state s' (plug c (Node a lv d l (capT lv r))) →
     runs k s' (plug c (Node a lv d l (capT lv r))) w t'') →
  runs (n1 ← load (PNode a);
        r1 ← load (leaf RIGHT n1);
        (if nlevel n1 <? nlevel r1 then upd (leaf RIGHT n1) (set_level (nlevel n1)) else mret tt);; k)
    s (plug c (Node a lv d l r)) w t''.
Proof.
  intros Hlv Hr Hs Hk.
  eapply runs_step; [apply load_ok, (tree_node _ _ _ _ _ _ _ Hs)|]. cbn [leaf leaf1 RIGHT nlevel].
  destruct (tree_cell s (FR a lv d l :: c) r Hs) as (nr & Er & Hnr & _).
  eapply runs_step; [apply load_ok, Er|]. rewrite Hnr.
  destruct r as [|b lvb db bl br].
  - simpl. destruct (Z.ltb_spec lv 0); [lia|]. eapply runs_step; [done|]. by apply Hk.
  - cbn [level capT tptr] in *. destruct (Z.ltb_spec lv lvb).
    + eapply runs_bind; [refine (runs_upd (FR a lv d l :: c) b lvb db bl br lv db _ s Hs _); done| |].
      * simpl. by apply addrs_plug_eq.
      * intros s1 Hs1. by apply Hk.
    + eapply runs_step; [done|]. by apply Hk.
Qed.

Lemma repair_step_ok n c t s : t ≠ Nil → levels (max_level - 1) t →
  (height (left_of t) + height (right_of t) + 4 <= n)%nat → tree_state s (plug c t) →
  runs (repair_step n (tptr t)) s (plug c t) (tptr (fixT t)) (plug c (fixT t)).
Proof.
  destruct t as [|a lv d l r]; [done|]. cbn [left_of right_of]. intros _ (Hlv & Hll & Hlr) Hh Hs.
  unfold repair_step. cbn [tptr].
  eapply runs_step; [apply load_ok, (tree_node _ _ _ _ _ _ _ Hs)|]. cbn [leaf leaf0 leaf1 LEFT RIGHT nlevel].
  destruct (tree_cell s (FL a lv d r :: c) l Hs) as (nl & El & Hnl & _).
  destruct (tree_cell s (FR a lv d l :: c) r Hs) as (nr & Er & Hnr & _).
  eapply runs_step; [apply load_ok, El|]. eapply runs_step; [apply load_ok, Er|].
  rewrite Hnl, Hnr, u32_small by (unfold max_level in *; lia). unfold fixT.
  destruct ((level l <? lv - 1) || (level r <? lv - 1)) eqn:Ec; [|by apply runs_ret].
  assert (1 <= lv - 1) as Hlv1.
  { pose proof (level_nonneg _ _ Hll). pose proof (level_nonneg _ _ Hlr). lia. }
  eapply runs_bind; [apply (runs_upd c a lv d l r (lv - 1) d); [done|]|by apply addrs_plug_eq|].
  { intros. cbn [nlevel]. rewrite u32_small; [done|]. unfold max_level in *. lia. }
  intros s1 Hs1.
  assert (levels max_level r) as Hlr' by (eapply levels_mono; [|done]; lia).
  apply cap_ok; [done|done|done|].
  intros s2 Hs2. set (t1 := Node a (lv - 1) d l (capT (lv - 1) r)) in *.
  assert (levels (max_level - 1) t1) as Hlt1.
  { simpl. split_and!; [lia|lia|done|]. by apply levels_capT. }
  assert (S (height (left_of t1) + height (right_of t1)) + 3 <= n)%nat as Hh1.
  { simpl. rewrite height_capT. lia. }
  change (PNode a) with (tptr t1).
  eapply runs_bind; [apply (skew_ok n (max_level - 1)); [lia|done|done]| |].
  { apply addrs_plug_eq. by autorewrite with c4w. }
  intros s3 Hs3. pose proof (height_skewT t1). apply levels_skewT in Hlt1.
  eapply runs_bind; [apply split_ok; [lia|by eapply levels_mono; [|done]; lia|done]| |].
  { apply addrs_plug_eq. by autorewrite with c4w. }
  intros s4 Hs4. pose proof (height_splitT (skewT t1)). apply levels_splitT in Hlt1.
  replace (max_level - 1 + 1) with max_level in Hlt1 by lia.
  destruct (splitT (skewT t1)) as [|b lvb db bl br] eqn:E2.
  { by destruct (rebalance_Node t1 ltac:(done) E2). }
  cbn [tptr height] in *. destruct Hlt1 as (? & Hbl & Hbr).
  eapply runs_step; [apply load_ok, (tree_node _ _ _ _ _ _ _ Hs4)|]. cbn [leaf leaf0 LEFT].
  eapply runs_bind; [refine (split_ok n (FL b lvb db br :: c) bl s4 _ Hbl Hs4); lia| |].
  { cbn [plug plug1]. apply addrs_plug_eq. cbn [inorder]. by autorewrite with c4w. }
  cbn [plug plug1]. intros s5 Hs5. pose proof (height_splitT bl).
  apply (skew_ok n (max_level + 1) c (Node b lvb db (splitT bl) br)); [simpl; lia| |done].
  simpl. split_and!; [lia|lia|by apply levels_splitT|]. eapply levels_mono; [|done]. lia.
Qed.

(** ** The repair loop *)
Lemma fixT_Node t : t ≠ Nil → fixT t ≠ Nil.
Proof.
  intros Ht E. apply (f_equal inorder) in E. autorewrite with c4w in E.
  destruct t; [done|]. simpl in E. by destruct (inorder t1).
Qed.

(** The trees the walk meets: [x] in place of [x0] at the hole. *)
Lemma repair_loop_ok n fuel c x0 x s :
  (n + length c + 1 <= fuel)%nat → aa (plug c x0) → shrinks x0 x →
  level (plug c x0) + 1 <= max_level → 4 * level (plug c x0) + 8 <= Z.of_nat n →
  tree_state s (plug c x) →
  runs (repair_loop fuel (ctx_ptr c)) s (plug c x) tt (upT fixT c x).
Proof.
  revert c x0 x s. induction fuel as [|fuel IH]; intros c x0 x s Hf Haa Hsh HL Hn Hs; [lia|].
  cbn [repair_loop]. destruct c as [|f c]; cbn [ctx_ptr].
  { eapply runs_step; [apply is_nil_null|]. by apply runs_ret. }
  cbn [plug upT length] in *.
  pose proof (aa_plug c _ Haa) as Haf. pose proof (level_plug c _ Haa) as Hlv.
  destruct Hsh as [Hx Hsh].
  assert (level x <= level x0) by lia.
  assert (small n (plug1 f x)) as [Hlvs Hh] by (eapply (small_aa n (level (plug c (plug1 f x0)))); (done || lia)).
  assert (levels (max_level - 1) (plug1 f x)) as Hlvs'.
  { pose proof (levels_aa x Hx). destruct f; simpl in *; destruct Haf as (?&?&?&Hl&Hr).
    - pose proof (levels_aa _ Hr). split_and!; [lia|lia|..]; (eapply levels_mono; [|done]; lia).
    - pose proof (levels_aa _ Hl). split_and!; [lia|lia|..]; (eapply levels_mono; [|done]; lia). }
  rewrite <- (tptr_plug1 f x).
  eapply runs_step; [apply (tree_is_nil s c _ Hs), (levels_pos _ _ Hlvs)|].
  replace (is_nilT (plug1 f x)) with false by (by destruct f).
  eapply runs_bind; [apply (repair_step_ok fuel c); [apply plug1_Node|done|lia|done]| |].
  { apply addrs_plug_eq. by autorewrite with c4w. }
  intros s1 Hs1.
  destruct (tree_parent _ _ _ Hs1 (fixT_Node _ (plug1_Node f x))) as (m & Em & Epar).
  eapply runs_step; [apply load_ok, Em|]. rewrite Epar.
  apply (IH c (plug1 f x0)); [lia|done| |done|done|done].
  destruct f; simpl; [apply shrinks_left|apply shrinks_right]; (done || by split).
Qed.

(** ** The extreme nodes of a subtree *)
Lemma follow_max fuel c b lv d l r s :
  levels max_level (Node b lv d l r) → (height (Node b lv d l r) <= fuel)%nat →
  tree_state s (plug c (Node b lv d l r)) →
  ∃ p m lvm dm ml, Node b lv d l r = plug p (Node m lvm dm ml Nil) ∧
    Forall (λ f, frame_side f = RIGHT) p ∧ (length p < height (Node b lv d l r))%nat ∧
    delmaxT b lv d l r = ((m, dm), upT fixT p ml) ∧
    follow fuel RIGHT (PNode b) s = Ret (PNode m, s).
Proof.
  revert fuel c b lv d l. induction r as [|b' lv' d' l' _ r' IH]; intros fuel c b lv d l Hl Hf Hs;
    (destruct fuel as [|fuel]; [simpl in Hf; lia|]); cbn [follow].
  - exists [], b, lv, d, l. split_and!; [done|constructor|simpl; lia|done|].
    rewrite (load_bind _ _ _ _ (tree_node _ _ _ _ _ _ _ Hs)). cbn [leaf leaf1 RIGHT].
    by rewrite (bind_run _ _ _ _ _ (tree_is_nil s (FR b lv d l :: c) Nil Hs ltac:(done))).
  - destruct (IH fuel (FR b lv d l :: c) b' lv' d' l') as (p & m & lvm & dm & ml & E & Hp & Hlen & Ed & Ef);
      [apply Hl|simpl in *; lia|done|].
    exists (p ++ [FR b lv d l]), m, lvm, dm, ml. split_and!.
    + by rewrite plug_app, <- E.
    + apply Forall_app. split; [done|]. by repeat constructor.
    + rewrite length_app. simpl in *. lia.
    + cbn [delmaxT]. rewrite Ed. by rewrite upT_app.
    + rewrite (load_bind _ _ _ _ (tree_node _ _ _ _ _ _ _ Hs)). cbn [leaf leaf1 RIGHT].
      rewrite (bind_run _ _ _ _ _ (tree_is_nil s (FR b lv d l :: c) (Node b' lv' d' l' r') Hs (levels_pos max_level (Node b' lv' d' l' r') (proj2 (proj2 Hl))))).
      done.
Qed.

Lemma follow_min fuel c b lv d l r s :
  levels max_level (Node b lv d l r) → (height (Node b lv d l r) <= fuel)%nat →
  tree_state s (plug c (Node b lv d l r)) →
  ∃ p m lvm dm mr, Node b lv d l r = plug p (Node m lvm dm Nil mr) ∧
    Forall (λ f, frame_side f = LEFT) p ∧ (length p < height (Node b lv d l r))%nat ∧
    delminT b lv d l r = ((m, dm), upT fixT p mr) ∧
    follow fuel LEFT (PNode b) s = Ret (PNode m, s).
Proof.
  revert fuel c b lv d r. induction l as [|b' lv' d' l' IH r' _]; intros fuel c b lv d r Hl Hf Hs;
    (destruct fuel as [|fuel]; [simpl in Hf; lia|]); cbn [follow].
  - exists [], b, lv, d, r. split_and!; [done|constructor|simpl; lia|done|].
    rewrite (load_bind _ _ _ _ (tree_node _ _ _ _ _ _ _ Hs)). cbn [leaf leaf0 LEFT].
    by rewrite (bind_run _ _ _ _ _ (tree_is_nil s (FL b lv d r :: c) Nil Hs ltac:(done))).
  - destruct (IH fuel (FL b lv d r :: c) b' lv' d' r') as (p & m & lvm & dm & mr & E & Hp & Hlen & Ed & Ef);
      [apply Hl|simpl in *; lia|done|].
    exists (p ++ [FL b lv d r]), m, lvm, dm, mr. split_and!.
    + by rewrite plug_app, <- E.
    + apply Forall_app. split; [done|]. by repeat constructor.
    + rewrite length_app. simpl in *. lia.
    + cbn [delminT]. rewrite Ed. by rewrite upT_app.
    + rewrite (load_bind _ _ _ _ (tree_node _ _ _ _ _ _ _ Hs)). cbn [leaf leaf0 LEFT].
      rewrite (bind_run _ _ _ _ _ (tree_is_nil s (FL b lv d r :: c) (Node b' lv' d' l' r') Hs (levels_pos max_level (Node b' lv' d' l' r') (proj1 (proj2 Hl))))).
      done.
Qed.

(** [find_max_node] and [find_min_node] on a subtree. *)
Lemma find_max_nil fuel c s : tree_state s (plug c Nil) → find_max_node fuel PSentinel s = Ret (PNull, s).
Proof. intros Hs. unfold find_max_node. by rewrite (bind_run _ _ _ _ _ (tree_is_nil s c Nil Hs ltac:(done))). Qed.

Lemma find_min_nil fuel c s : tree_state s (plug c Nil) → find_min_node fuel PSentinel s = Ret (PNull, s).
Proof.
  intros Hs. destruct (tree_cell s c Nil Hs) as (n & En & Hn & _). unfold find_min_node.
  rewrite (load_bind _ _ _ _ En). by rewrite Hn.
Qed.

Lemma find_max_Node fuel c b lv d l r s : levels max_level (Node b lv d l r) →
  tree_state s (plug c (Node b lv d l r)) → find_max_node fuel (PNode b) s = follow fuel RIGHT (PNode b) s.
Proof.
  intros Hl Hs. unfold find_max_node.
  by rewrite (bind_run _ _ _ _ _ (tree_is_nil s c _ Hs (levels_pos _ _ Hl))).
Qed.

Lemma find_min_Node fuel c b lv d l r s : levels max_level (Node b lv d l r) →
  tree_state s (plug c (Node b lv d l r)) → find_min_node fuel (PNode b) s = follow fuel LEFT (PNode b) s.
Proof.
  intros [Hl _] Hs. unfold find_min_node. rewrite (load_bind _ _ _ _ (tree_node _ _ _ _ _ _ _ Hs)).
  cbn [nlevel]. by replace (lv =? 0) with false by lia.
Qed.

(** ** Unlinking one node *)
Lemma set_root_ok {B} c t t' a s (k : M (anstate H) B) :
  t_root s = tptr (plug c t) → tptr t = PNode a → a ∉ ctx_addrs c →
  (s0 ← get; (if decide (PNode a = t_root s0) then set_root (tptr t') else mret tt);; k) s =
  k (mk_anstate (tptr (plug c t')) (t_nodes s) (t_heap s) (t_mem s)).
Proof.
  intros Hr Ha Hn. unfold mbind, M_bind, get, set_root, modify. rewrite Hr.
  assert (c = [] ∨ c ≠ []) as [->|Hc] by (destruct c; auto).
  - simpl. by rewrite Ha, decide_True.
  - destruct (root_plug c Hc) as (z & Hz & Ht). rewrite !Ht. rewrite decide_False by set_solver.
    destruct s. simpl in *. by rewrite Hr, Ht.
Qed.

Definition only_child (l r x : aatree) : Prop := (l = Nil ∧ x = r) ∨ (r = Nil ∧ x = l).

Lemma only_child_addrs m lv d l r x : only_child l r x → addrs (Node m lv d l r) ≡ₚ m :: addrs x.
Proof.
  rewrite addrs_Node. intros [[-> ->]|[-> ->]]; simpl; [done|].
  symmetry. apply Permutation_cons_append.
Qed.

Lemma remove_node_ok `{!AllocatorLaws H} c m lv d l r x s :
  tree_state s (plug c (Node m lv d l r)) → only_child l r x → levels max_level x →
  al_inv (t_heap s) → m ∈ al_live (t_heap s) →
  ∃ s', do_remove_node (PNode m) (tptr x) s = Ret (tt, s') ∧
    tree_state s' (plug c x) ∧ t_nodes s' = u32 (t_nodes s - 1) ∧
    al_inv (t_heap s') ∧ freed m (t_heap s) (t_heap s') ∧
    t_mem s' !! PNode m = None ∧
    ∀ z, z ∉ addrs (plug c (Node m lv d l r)) → t_mem s' !! PNode z = t_mem s !! PNode z.
Proof.
  intros Hs Hx Hl Hh Hm.
  pose proof Hs as (Hr & (Em & Hrl & Hrr) & Hc & Hsent & Hn)%tree_state_plug.
  rewrite (only_child_addrs m lv d l r x Hx) in Hn.
  assert (rep (t_mem s) (PNode m) x) as Hrx by (destruct Hx as [[-> ->]|[-> ->]]; done).
  pose proof Hn as [Hmn Hn']%NoDup_cons. apply NoDup_app in Hn' as (Hnx & Hdis & Hnc).
  assert (m ∉ ctx_addrs c ∧ m ∉ addrs x) as [Hmc Hmx].
  { split; intros ?; apply Hmn, elem_of_app; auto. }
  unfold do_remove_node. rewrite (set_root_ok c (Node m lv d l r) x m s) by done.
  destruct (replace_in_parent_ok m _ (tptr x) c (mk_anstate (tptr (plug c x)) (t_nodes s) (t_heap s) (t_mem s)) Em)
    as (m1 & E1 & Hc1 & Hs1 & Hm1 & Hp1); [done|done|by constructor|done| |].
  { destruct x as [|b lvb db bl br]; [by left|right]. destruct Hrx as [Eb _]. eexists b, _. split_and!; [done| |done|apply Hl].
    assert (b ∈ addrs (Node b lvb db bl br)) as Hb by (rewrite addrs_Node; clear; set_solver).
    intros [->|Hbc]%elem_of_cons; [done|]. by apply (Hdis b). }
  cbn [t_mem with_mem t_heap t_nodes t_root] in *.
  destruct (al_free_ok m _ Hh Hm) as (h & Eh & Hh' & Hlive).
  eexists. split.
  { rewrite (bind_run _ _ _ _ _ E1). rewrite bind_assoc_run.
    unfold on_heap, zoom. unfold mbind at 1, M_bind at 1. cbn [t_heap with_mem]. rewrite Eh.
    rewrite (bind_run (modify _) _ _ tt _) by reflexivity. reflexivity. }
  assert (∀ z, z ≠ m → z ∉ ctx_addrs c → PNode z ≠ tptr x → delete (PNode m) m1 !! PNode z = t_mem s !! PNode z) as Hdel.
  { intros z Hz Hzc Hzx. rewrite lookup_delete_ne by congruence. by apply Hm1. }
  cbn [t_mem with_mem t_heap t_nodes t_root]. split_and!; try done.
  - apply tree_state_plug. cbn [t_mem with_mem t_root]. split_and!; try done.
    + destruct x as [|b lvb db bl br]; [done|]. destruct Hrx as (Eb & Hbl & Hbr). cbn [tptr rep] in *.
      rewrite Eb in Hp1. specialize (Hp1 ltac:(done)).
      rewrite addrs_Node in Hnx, Hmx, Hdis. 
      pose proof Hnx as (_ & Hd1 & [Hd2 _]%NoDup_cons)%NoDup_app.
      split_and!.
      * rewrite lookup_delete_ne; [done|]. intros [= <-]. apply Hmx, elem_of_app. right. left.
      * eapply rep_ext; [|done]. intros z Hz. apply Hdel.
        -- intros ->. apply Hmx, elem_of_app. by left.
        -- apply Hdis, elem_of_app. by left.
        -- intros [= ->]. apply (Hd1 _ Hz). left.
      * eapply rep_ext; [|done]. intros z Hz. apply Hdel.
        -- intros ->. apply Hmx, elem_of_app. by do 2 right.
        -- apply Hdis, elem_of_app. by do 2 right.
        -- by intros [= ->].
    + eapply rep_ctx_ext; [|done]. intros z Hz. apply lookup_delete_ne. congruence.
    + destruct Hs1 as [sp Hs1]. exists sp. by rewrite lookup_delete_ne.
    + by apply NoDup_cons in Hn as [].
  - by rewrite lookup_delete_eq.
  - intros z. rewrite addrs_plug, (only_child_addrs m lv d l r x Hx). intros Hz. apply Hdel.
    + intros ->. apply Hz. left.
    + intros ?. apply Hz. right. apply elem_of_app. by right.
    + intros E. symmetry in E. revert E. apply tptr_not_in. intros ?. apply Hz. right. apply elem_of_app. by left.
Qed.

(** ** The successor *)
Lemma successor_ok {B} fuel c a lv d l r s (k : nptr → M (anstate H) B) :
  levels max_level (Node a lv d l r) → (height (Node a lv d l r) <= fuel)%nat →
  tree_state s (plug c (Node a lv d l r)) → l ≠ Nil ∨ r ≠ Nil →
  ∃ p f m lvm dm ml mr x,
    (∀ e, Node a lv e l r = plug (p ++ [f e]) (Node m lvm dm ml mr)) ∧ only_child ml mr x ∧
    delrootT a lv d l r = (m, upT fixT (p ++ [f dm]) x) ∧
    (length p <= height (Node a lv d l r))%nat ∧ (∀ e, frame_addr (f e) = a) ∧
    (n ← load (PNode a);
     s1 ← find_max_node fuel (leaf LEFT n);
     n' ← load (PNode a);
     successor ← (if decide (s1 ≠ PNull) then mret s1 else find_min_node fuel (leaf RIGHT n'));
     k successor) s = k (PNode m) s.
Proof.
  intros (Hlv & Hll & Hlr) Hf Hs Hlr'. pose proof (tree_node _ _ _ _ _ _ _ Hs) as Ea.
  rewrite (load_bind _ _ _ _ Ea). cbn [leaf leaf0 leaf1 LEFT].
  destruct l as [|b lvb db bl br].
  - destruct r as [|b lvb db bl br]; [naive_solver|].
    assert (tree_state s (plug (FR a lv d Nil :: c) (Node b lvb db bl br))) as Hs' by done.
    destruct (follow_min fuel _ b lvb db bl br s Hlr ltac:(simpl in *; lia) Hs')
      as (p & m & lvm & dm & mr & E & _ & Hlen & Ed & Ef).
    exists p, (λ e, FR a lv e Nil), m, lvm, dm, Nil, mr, mr. split_and!.
    + intros e. by rewrite plug_app, <- E.
    + by left.
    + simpl. rewrite Ed. by rewrite upT_app.
    + simpl in *. lia.
    + done.
    + rewrite (bind_run _ _ _ _ _ (find_max_nil fuel (FL a lv d _ :: c) s Hs)).
      rewrite (load_bind _ _ _ _ Ea). rewrite decide_False by (intros HF; by apply HF).
      cbn [leaf leaf1 RIGHT tptr]. by rewrite (bind_run _ _ _ _ _ (eq_trans (find_min_Node _ _ _ _ _ _ _ _ Hlr Hs') Ef)).
  - assert (tree_state s (plug (FL a lv d r :: c) (Node b lvb db bl br))) as Hs' by done.
    destruct (follow_max fuel _ b lvb db bl br s Hll ltac:(simpl in *; lia) Hs')
      as (p & m & lvm & dm & ml & E & _ & Hlen & Ed & Ef).
    exists p, (λ e, FL a lv e r), m, lvm, dm, ml, Nil, ml. split_and!.
    + intros e. by rewrite plug_app, <- E.
    + by right.
    + simpl. rewrite Ed. by rewrite upT_app.
    + simpl in *. lia.
    + done.
    + cbn [tptr]. rewrite (bind_run _ _ _ _ _ (eq_trans (find_max_Node _ _ _ _ _ _ _ _ Hll Hs') Ef)).
      rewrite (load_bind _ _ _ _ Ea). rewrite decide_True by done. by rewrite (bind_run (mret _) _ s (PNode m) s).
Qed.

(** ** Unlink and repair *)
Lemma only_child_shrinks m lv d l r x : aa (Node m lv d l r) → only_child l r x →
  shrinks (Node m lv d l r) x.
Proof.
  cbn [aa]. intros (Hlv & Hr & Hrr & Hl & Har) [[-> ->]|[-> ->]]; (split; [done|]);
    cbn [level right_of] in *; aa_levels; lia.
Qed.

Lemma aa_level_pos a lv d l r : aa (Node a lv d l r) → 1 <= lv.
Proof. cbn [aa]. intros (?&?&?&Hl&_). apply aa_level in Hl. lia. Qed.

Lemma height_plug_le c t : (length c + height t <= height (plug c t))%nat.
Proof.
  revert t. induction c as [|f c IH]; intros t; simpl; [lia|].
  specialize (IH (plug1 f t)). destruct f; simpl in *; lia.
Qed.

Lemma length_ctx c t : (length c <= height (plug c t))%nat.
Proof. pose proof (height_plug_le c t). lia. Qed.

Definition outside (t : aatree) (s s' : anstate H) : Prop :=
  ∀ z, z ∉ addrs t → t_mem s' !! PNode z = t_mem s !! PNode z.

Lemma remove_finish `{!AllocatorLaws H} fuel c m lv d l r x s :
  let t := plug c (Node m lv d l r) in
  tree_state s t → aa t → only_child l r x → level t + 1 <= max_level →
  6 * level t + 12 <= Z.of_nat fuel → al_inv (t_heap s) → m ∈ al_live (t_heap s) →
  ∃ s', (do_remove_node (PNode m) (tptr x);; repair_loop fuel (ctx_ptr c)) s = Ret (tt, s') ∧
    tree_state s' (upT fixT c x) ∧ t_nodes s' = u32 (t_nodes s - 1) ∧
    al_inv (t_heap s') ∧ freed m (t_heap s) (t_heap s') ∧ outside t s s'.
Proof.
  intros t Hs Haa Hx HL Hf Hh Hm.
  pose proof (only_child_shrinks _ _ _ _ _ _ (aa_plug c _ Haa) Hx) as Hsh.
  assert (levels max_level x) as Hlx.
  { eapply levels_mono; [|apply levels_aa, Hsh]. pose proof (level_plug c _ Haa).
    destruct Hsh as [_ Hsh]. subst t. lia. }
  destruct (remove_node_ok c m lv d l r x s Hs Hx Hlx Hh Hm) as (s1 & E1 & Hs1 & Hn1 & Hh1 & Hl1 & _ & Hm1).
  pose proof (length_ctx c (Node m lv d l r)). pose proof (height_level t Haa). pose proof (aa_level t Haa).
  destruct (repair_loop_ok (Z.to_nat (4 * level t + 8)) fuel c (Node m lv d l r) x s1)
    as (s2 & E2 & Hs2 & Hh2 & Hn2 & Hm2); [subst t; lia|done|done|done|subst t; lia|done|].
  exists s2. rewrite (bind_run _ _ _ _ _ E1). split_and!; [done|done|congruence|by rewrite Hh2|by rewrite Hh2|].
  intros z Hz. rewrite Hm2, Hm1; [done|done|]. intros Hin. apply Hz. revert Hin. unfold t.
  rewrite !addrs_plug, (only_child_addrs _ _ _ _ _ _ Hx). clear. set_solver.
Qed.

Lemma upT_shrinks_plug c m lv d l r x : aa (plug c (Node m lv d l r)) → only_child l r x →
  aa (upT fixT c x).
Proof.
  intros Haa Hx. eapply shrinks_aa, upT_shrinks; [done|].
  apply only_child_shrinks; [by eapply aa_plug|done].
Qed.

Lemma remove_at `{!AllocatorLaws H} fuel c a lv d l r s :
  let t := plug c (Node a lv d l r) in
  tree_state s t → aa t → level t + 1 <= max_level →
  6 * level t + 12 <= Z.of_nat fuel → al_inv (t_heap s) →
  (∀ z, z ∈ addrs t → z ∈ al_live (t_heap s)) →
  let f := (delrootT a lv d l r).1 in
  ∃ s', andtree_remove fuel (PNode a) s = Ret (tt, s') ∧
    tree_state s' (upT fixT c (delrootT a lv d l r).2) ∧ t_nodes s' = u32 (t_nodes s - 1) ∧
    al_inv (t_heap s') ∧ freed f (t_heap s) (t_heap s') ∧ outside t s s'.
Proof.
  intros t Hs Haa HL Hf Hh Hlive f.
  pose proof (aa_plug c _ Haa) as Haa'. pose proof (level_plug c _ Haa) as Hlp.
  pose proof (height_level _ Haa') as Hht. pose proof (aa_level t Haa).
  assert (levels max_level (Node a lv d l r)) as Hlv
    by (eapply levels_mono; [|by apply levels_aa]; subst t; lia).
  assert (∀ z, z ∈ addrs (Node a lv d l r) → z ∈ al_live (t_heap s)) as Hlive'.
  { intros z Hz. apply Hlive. unfold t. rewrite addrs_plug. apply elem_of_app. by left. }
  unfold andtree_remove, andtree_remove_repair.
  assert ((l = Nil ∧ r = Nil) ∨ (l ≠ Nil ∨ r ≠ Nil)) as [[-> ->]|Hlr]
    by (destruct l, r; (by left) || (right; naive_solver)).
  - pose proof (tree_node _ _ _ _ _ _ _ Hs) as Ea.
    rewrite (load_bind _ _ _ _ Ea). cbn [leaf leaf0 leaf1 LEFT tptr].
    rewrite (bind_run _ _ _ _ _ (find_max_nil fuel (FL a lv d Nil :: c) s Hs)).
    rewrite (load_bind _ _ _ _ Ea). rewrite decide_False by (intros HF; by apply HF).
    cbn [leaf leaf1 RIGHT].
    rewrite (bind_run _ _ _ _ _ (find_min_nil fuel (FR a lv d Nil :: c) s Hs)).
    rewrite (bind_run _ _ _ _ _ (is_nil_null s)), (load_bind _ _ _ _ Ea).
    rewrite decide_False by (intros HF; by apply HF). cbn [parent].
    apply (remove_finish fuel c a lv d Nil Nil Nil); try done; [by left|].
    apply Hlive'. rewrite addrs_Node. left.
  - destruct (successor_ok fuel c a lv d l r s
      (λ successor, nil ← is_nil successor;
        let temp := if nil : bool then PNode a else successor in
        tn ← load temp;
        let repair := parent tn in
        (if decide (successor ≠ PNull) then
           sn ← load successor;
           upd (PNode a) (set_data (ndata sn));;
           sn' ← load successor;
           lnil ← is_nil (leaf LEFT sn');
           do_remove_node successor (leaf lnil sn')
         else do_remove_node (PNode a) PSentinel);;
        repair_loop fuel repair) Hlv ltac:(subst t; lia) Hs Hlr)
      as (p & g & m & lvm & dm & ml & mr & x & Ep & Hx & Ed & Hlen & Hg & Er).
    cbv beta in Er.
    match type of Er with _ = ?R => match goal with |- context [?X = Ret _] =>
      replace X with R by (symmetry; exact Er) end end. clear Er.
    assert (∀ e, plug c (Node a lv e l r) = plug ((p ++ [g e]) ++ c) (Node m lvm dm ml mr)) as Ep'.
    { intros e. by rewrite plug_app, <- Ep. }
    assert (ctx_ptr ((p ++ [g d]) ++ c) = ctx_ptr ((p ++ [g dm]) ++ c)) as Eptr.
    { destruct p; simpl; [by rewrite !Hg|done]. }
    assert (1 <= lvm) as Hlvm.
    { subst t. rewrite Ep' in Haa. by apply aa_plug, aa_level_pos in Haa. }
    pose proof Hs as Hs'. unfold t in Hs'. rewrite Ep' in Hs'.
    pose proof (tree_node _ _ _ _ _ _ _ Hs') as Em.
    rewrite (bind_run _ _ _ _ _ (tree_is_nil s _ _ Hs' (λ _, Hlvm))). cbn [is_nilT].
    rewrite (load_bind _ _ _ _ Em), decide_True by done. cbn [parent]. rewrite bind_assoc_run, (load_bind _ _ _ _ Em).
    rewrite bind_assoc_run. cbn [ndata].
    destruct (runs_upd c a lv d l r lv dm (set_data dm) s Hs ltac:(done)) as (s1 & E1 & Hs1 & Hh1 & Hn1 & Hm1).
    rewrite (bind_run _ _ _ _ _ E1). rewrite Ep' in Hs1.
    rewrite bind_assoc_run, (load_bind _ _ _ _ (tree_node _ _ _ _ _ _ _ Hs1)). cbn [leaf leaf0 LEFT].
    assert (is_nil (tptr ml) s1 = Ret (is_nilT ml, s1)) as Enil.
    { apply (tree_is_nil s1 (FL m lvm dm mr :: (p ++ [g dm]) ++ c)); [done|].
      subst t. rewrite Ep' in Haa. apply aa_plug in Haa. cbn [aa] in Haa. destruct Haa as (_&_&_&Hml&_).
      destruct ml; [done|]. intros _. by apply aa_level_pos in Hml. }
    rewrite bind_assoc_run, (bind_run _ _ _ _ _ Enil).
    replace (leaf (is_nilT ml) _) with (tptr x) by (destruct Hx as [[-> ->]|[-> ->]]; [done|by destruct ml]).
    rewrite Eptr.
    assert (aa (plug c (Node a lv dm l r))) as Haa1 by (by apply (aa_plug_ext c (Node a lv d l r))).
    assert (level (plug c (Node a lv dm l r)) = level t) as Hlev.
    { by apply level_plug_ext. }
    assert (∀ z, z ∈ addrs (plug c (Node a lv dm l r)) ↔ z ∈ addrs t) as Hin.
    { intros z. unfold t. by rewrite !addrs_plug, !addrs_Node. }
    rewrite Ep' in *.
    destruct (remove_finish fuel _ m lvm dm ml mr x s1 Hs1 Haa1 Hx) as (s2 & E2 & Hs2 & Hn2 & Hh2 & Hl2 & Hm2);
      [lia|lia|by rewrite Hh1| |].
    { rewrite Hh1. apply Hlive, Hin. rewrite addrs_plug, addrs_Node. clear. set_solver. }
    exists s2. unfold f. rewrite Ed. cbn [fst snd]. rewrite upT_app in Hs2.
    split_and!; [exact E2|exact Hs2|by rewrite Hn2, Hn1|done|by rewrite <- Hh1|].
    intros z Hz. rewrite Hm2 by (intros Hz'%Hin; done). apply Hm1. rewrite <- Ep'. exact Hz.
Qed.

Lemma remove_spec `{!AllocatorLaws H} get_key fuel t a d X Y s :
  tree_inv get_key s t → inorder t = X ++ (a, d) :: Y → Z.of_nat (tree_size t) < 2 ^ 31 →
  (tree_fuel (tree_size t) <= fuel)%nat →
  ∃ s' t' f, andtree_remove fuel (PNode a) s = Ret (tt, s') ∧
    tree_inv get_key s' t' ∧ elements t' = X.*2 ++ Y.*2 ∧
    addrs t ≡ₚ f :: addrs t' ∧ freed f (t_heap s) (t_heap s') ∧
    outside t s s'.
Proof.
  intros [Hs Haa Hsort Hnodes Hh Hlive] Ein Hsz Hf.
  pose proof (aa_level_log t Haa). pose proof (aa_level_max t Haa Hsz). pose proof (aa_level t Haa).
  destruct (inorder_plug_split a d t X Y (ts_nodup _ _ Hs) Ein) as (c & lv & l & r & -> & EX & EY).
  destruct (remove_at fuel c a lv d l r s Hs Haa ltac:(done)) as (s' & E & Hs' & Hn' & Hh' & Hl' & Hm');
    [unfold tree_fuel in Hf; lia|done|done|].
  pose proof (aa_plug c _ Haa) as Haa'.
  set (t' := upT fixT c (delrootT a lv d l r).2) in *.
  assert (inorder t' = ctx_before c ++ inorder (delrootT a lv d l r).2 ++ ctx_after c) as Et'
    by (apply inorder_upT, inorder_fixT).
  assert (elements t' = X.*2 ++ Y.*2) as Eel.
  { unfold elements. rewrite Et', !fmap_app.
    change ((inorder (delrootT a lv d l r).2).*2) with (elements (delrootT a lv d l r).2).
    rewrite delrootT_elements by done. rewrite EX, EY, !fmap_app. unfold elements. by rewrite <- !app_assoc. }
  assert (elements (plug c (Node a lv d l r)) = X.*2 ++ d :: Y.*2) as Eel0
    by (unfold elements; by rewrite Ein, fmap_app).
  assert (addrs (plug c (Node a lv d l r)) ≡ₚ (delrootT a lv d l r).1 :: addrs t') as Eaddr.
  { unfold addrs at 2. rewrite Et', addrs_plug, (delrootT_addrs a lv d l r Haa').
    pose proof (addrs_plug c (delrootT a lv d l r).2) as Ec. unfold addrs at 1 in Ec. rewrite inorder_plug in Ec.
    by rewrite Ec. }
  exists s', t', (delrootT a lv d l r).1. split_and!; try done. split; try done.
  - eapply shrinks_aa, upT_shrinks; [done|by apply delrootT_shrinks].
  - rewrite Eel. rewrite Eel0 in Hsort. by eapply sorted_remove.
  - apply Permutation_length in Eaddr. unfold addrs in Eaddr. simpl in Eaddr.
    rewrite !length_fmap, !length_inorder in Eaddr. rewrite Hn', Hnodes, Eaddr. rewrite u32_small; lia.
  - intros z Hz. rewrite (proj2 Hl'). apply elem_of_difference. split.
    + apply Hlive. rewrite Eaddr. by right.
    + intros ->%elem_of_singleton. pose proof (ts_nodup _ _ Hs) as Hnd. rewrite Eaddr in Hnd.
      by apply NoDup_cons in Hnd as [].
Qed.

(** C3: [andtree_remove] takes exactly the given node's data out of the tree,
    keeps the rest in order, balanced and counted, frees exactly one of the
    tree's nodes, touches no other tree, and does so within fuel logarithmic in
    the size of the tree. *)
Theorem andtree_remove_correct `{!AllocatorLaws H} get_key fuel t a d X Y s :
  tree_inv get_key s t → inorder t = X ++ (a, d) :: Y → Z.of_nat (tree_size t) < 2 ^ 31 →
  (tree_fuel (tree_size t) <= fuel)%nat →
  ∃ s' t' f, andtree_remove fuel (PNode a) s = Ret (tt, s') ∧
    tree_inv get_key s' t' ∧ elements t' = X.*2 ++ Y.*2 ∧
    addrs t ≡ₚ f :: addrs t' ∧ freed f (t_heap s) (t_heap s') ∧
    outside t s s'.
Proof. apply remove_spec. Qed.
End remove.

Lemma andtree_remove_correct_witness : ∃ s' t',
  andtree_remove (tree_fuel 3) (PNode 4096) sample_state = Ret (tt, s') ∧
  tree_inv (λ d, d) s' t' ∧ elements t' = [5; 9].
Proof.
  destruct (andtree_remove_correct (λ d, d) (tree_fuel 3) sample 4096 7 [(4116, 5)] [(4136, 9)] sample_state)
    as (s' & t' & f & E & Ht & El & _).
  - exact sample_inv.
  - reflexivity.
  - simpl. lia.
  - apply Nat.le_refl.
  - exists s', t'. split; [exact E|]. split; [exact Ht|exact El].
Defined.
