(* ===== verification/AndTreeFind.v ===== *)
(** Lookups and traversal of the pointer trees: they only read, they find what
    is there and [NULL] what is not, [andtree_next] and [andtree_previous] are
    the neighbours in order, and [andtree_check] accepts every balanced tree. *)

From S2P Require Import Prelude Interfaces AATree AndTree AndTreeRep AndTreeInsert AndTreeRemove.
#[local] Open Scope Z_scope.

Definition opt_ptr (o : option Z) : nptr := from_option PNode PNull o.

(** The first / last node of an in-order listing. *)
Definition hd_ptr (xs : list (Z * Z)) : nptr := opt_ptr (fst <$> head xs).
Definition last_ptr (xs : list (Z * Z)) : nptr := opt_ptr (fst <$> last xs).

(** ** Carrying an invariant over a change elsewhere *)
Section carry.
Context {H : Type} `{Allocator H}.

Lemma sorted_ext (k k' : Z → Z) xs : (∀ d, d ∈ xs → k' d = k d) → sorted k xs → sorted k' xs.
Proof.
  intros He Hs. induction Hs as [|x xs Hs IH Hx]; [constructor|]. constructor.
  - apply IH. intros d Hd. apply He. by right.
  - rewrite Forall_forall in Hx |- *. intros y Hy. rewrite !He; [by apply Hx|by right|left].
Qed.

(** Keys may change where the tree has no data. *)
Lemma tree_inv_key (k k' : Z → Z) (s : anstate H) t :
  (∀ d, d ∈ elements t → k' d = k d) → tree_inv k s t → tree_inv k' s t.
Proof. intros He [H1 H2 H3 H4 H5 H6]. split; try done. by eapply sorted_ext. Qed.

Lemma cmp_ok_bound (k : Z → Z) x t lo : lo <= x < lo + 2 ^ 31 → (∀ d, d ∈ elements t → lo <= k d < lo + 2 ^ 31) → cmp_ok k x t.
Proof. intros Hx Hk. apply Forall_forall. intros d Hd. specialize (Hk d Hd). lia. Qed.

(** Memory may change where the tree has no nodes. *)
Lemma tree_inv_frame (k : Z → Z) (s s' : anstate H) t :
  tree_inv k s t → t_root s' = t_root s → t_nodes s' = t_nodes s → sent_ok (t_mem s') →
  (∀ z, z ∈ addrs t → t_mem s' !! PNode z = t_mem s !! PNode z) →
  al_inv (t_heap s') → (∀ z, z ∈ addrs t → z ∈ al_live (t_heap s')) → tree_inv k s' t.
Proof.
  intros [H1 H2 H3 H4 H5 H6] Hr Hn Hs Hm Hi Hl. split; try done; [|congruence].
  by eapply tree_state_ext.
Qed.
End carry.

Section find.
Context {H : Type} `{Allocator H} (get_key : Z → Z).
Implicit Types (s : anstate H).

Abbreviation cmp_ok := (cmp_ok get_key).

(** ** Searches by key *)
Lemma find_key_loop_ok fuel c t s k :
  (height t < fuel)%nat → levels max_level t → cmp_ok k t → tree_state s (plug c t) →
  find_key_loop get_key fuel k (tptr t) s = Ret (opt_ptr (findT get_key k t), s).
Proof.
  revert c t. induction fuel as [|fuel IH]; intros c t Hf Hl Hc Hs; [lia|]. cbn [find_key_loop].
  rewrite (bind_run _ _ _ _ _ (tree_is_nil s c t Hs (levels_pos _ _ Hl))).
  destruct t as [|a lv d l r]; [done|]. cbn [is_nilT findT tptr].
  apply cmp_ok_Node in Hc as (Hcl & Hcd & Hcr). destruct Hl as (_ & Hll & Hlr). simpl in Hf.
  pose proof (tree_node _ _ _ _ _ _ _ Hs) as Ea.
  rewrite (bind_run _ _ _ _ _ (compare_ok get_key k _ s _ Ea Hcd)). cbn [ndata].
  unfold direction. zbool; try lia; cbn [negb]; [done|rewrite (load_bind _ _ _ _ Ea)..]; cbn [leaf leaf0 leaf1].
  - apply (IH (FL a lv d r :: c)); (done || lia).
  - apply (IH (FR a lv d l :: c)); (done || lia).
Qed.

Lemma rep_data m par t a d : rep m par t → (a, d) ∈ inorder t →
  ∃ n, m !! PNode a = Some n ∧ ndata n = d.
Proof.
  revert par. induction t as [|b lv e l IHl r IHr]; intros par; simpl; [set_solver|].
  intros (Eb & Hl & Hr). rewrite elem_of_app, elem_of_cons. intros [Hin|[[= -> ->]|Hin]]; [by eapply IHl| |by eapply IHr].
  by eexists.
Qed.

Lemma find_at_least_in k t a d : find_at_leastT get_key k t = Some (a, d) → (a, d) ∈ inorder t.
Proof.
  induction t as [|b lv e l IHl r IHr]; simpl; [done|]. rewrite elem_of_app, elem_of_cons.
  repeat case_match; naive_solver.
Qed.

Lemma do_find_at_least_ok fuel c t s k :
  (height t < fuel)%nat → levels max_level t → cmp_ok k t → tree_state s (plug c t) →
  do_find_at_least get_key fuel (tptr t) k s = Ret (opt_ptr (fst <$> find_at_leastT get_key k t), s).
Proof.
  revert c t. induction fuel as [|fuel IH]; intros c t Hf Hl Hc Hs; [lia|]. cbn [do_find_at_least].
  rewrite (bind_run _ _ _ _ _ (tree_is_nil s c t Hs (levels_pos _ _ Hl))).
  destruct t as [|a lv d l r]; [done|]. cbn [is_nilT find_at_leastT tptr].
  pose proof (cmp_ok_Node get_key k a lv d l r) as [Hcc _]. destruct (Hcc Hc) as (Hcl & Hcd & Hcr). clear Hcc.
  destruct Hl as (_ & Hll & Hlr). simpl in Hf.
  pose proof (tree_node _ _ _ _ _ _ _ Hs) as Ea.
  rewrite (bind_run _ _ _ _ _ (compare_ok get_key k _ s _ Ea Hcd)). cbn [ndata].
  unfold direction. zbool; try lia; cbn [negb]; [done|rewrite (load_bind _ _ _ _ Ea)..]; cbn [leaf leaf0 leaf1].
  - rewrite (bind_run _ _ _ _ _ (IH (FL a lv d r :: c) l ltac:(lia) Hll Hcl Hs)).
    destruct (find_at_leastT get_key k l) as [[b e]|] eqn:Eb; cbn [fmap option_fmap option_map opt_ptr from_option fst];
      [rewrite decide_False by done|by rewrite decide_True].
    apply find_at_least_in in Eb.
    pose proof Hs as (_ & (_ & Hrl & _) & _)%tree_state_plug.
    destruct (rep_data _ _ _ _ _ Hrl Eb) as (n & En & <-).
    rewrite (bind_run _ _ _ _ _ (compare_ok get_key k _ s _ En ltac:(
      apply (Forall_forall _ _) with (x := ndata n) in Hcl; [exact Hcl|apply elem_of_elements_inorder; by eexists]))).
    zbool; (done || lia).
  - rewrite (bind_run _ _ _ _ _ (IH (FR a lv d l :: c) r ltac:(lia) Hlr Hcr Hs)). done.
Qed.

(** ** Searches by data, duplicate keys included *)
Definition found (data : Z) (t : aatree) (p : nptr) : Prop :=
  (p = PNull ∧ data ∉ elements t) ∨ (∃ a, p = PNode a ∧ (a, data) ∈ inorder t).

Lemma found_left data a lv d l r p : data ≠ d → data ∉ elements r → found data l p →
  found data (Node a lv d l r) p.
Proof.
  intros Hd Hr [[-> Hl]|(b & -> & Hb)]; [left|right].
  - rewrite elements_Node, elem_of_app, elem_of_cons. naive_solver.
  - exists b. split; [done|]. simpl. apply elem_of_app. by left.
Qed.

Lemma found_right data a lv d l r p : data ≠ d → data ∉ elements l → found data r p →
  found data (Node a lv d l r) p.
Proof.
  intros Hd Hr [[-> Hl]|(b & -> & Hb)]; [left|right].
  - rewrite elements_Node, elem_of_app, elem_of_cons. naive_solver.
  - exists b. split; [done|]. simpl. apply elem_of_app. right. by right.
Qed.

Lemma sorted_not_left data a lv d l r : sorted get_key (elements (Node a lv d l r)) →
  get_key d < get_key data → data ∉ elements l.
Proof.
  rewrite elements_Node. intros (_ & _ & Hl & _)%sorted_app Hk Hin.
  rewrite Forall_forall in Hl. specialize (Hl _ Hin). lia.
Qed.

Lemma sorted_not_right data a lv d l r : sorted get_key (elements (Node a lv d l r)) →
  get_key data < get_key d → data ∉ elements r.
Proof.
  rewrite elements_Node. intros (_ & _ & _ & Hr)%sorted_app Hk Hin.
  rewrite Forall_forall in Hr. specialize (Hr _ Hin). lia.
Qed.

Lemma find_dupe_ok fuel c t s data :
  (height t < fuel)%nat → levels max_level t → cmp_ok (get_key data) t →
  sorted get_key (elements t) → tree_state s (plug c t) →
  ∃ p, andtree_find_dupe_data get_key fuel (tptr t) data s = Ret (p, s) ∧ found data t p.
Proof.
  revert c t. induction fuel as [|fuel IH]; intros c t Hf Hl Hc Hso Hs; [lia|]. cbn [andtree_find_dupe_data].
  rewrite (bind_run _ _ _ _ _ (tree_is_nil s c t Hs (levels_pos _ _ Hl))).
  destruct t as [|a lv d l r].
  { exists PNull. split; [done|left]. split; [done|]. unfold elements. simpl. apply not_elem_of_nil. }
  cbn [is_nilT tptr]. pose proof (cmp_ok_Node get_key (get_key data) a lv d l r) as [Hcc _].
  destruct (Hcc Hc) as (Hcl & Hcd & Hcr). destruct Hl as (_ & Hll & Hlr). simpl in Hf.
  pose proof Hso as Hso'. rewrite elements_Node in Hso'. apply sorted_app in Hso' as (Hsl & Hsr & _).
  pose proof (tree_node _ _ _ _ _ _ _ Hs) as Ea.
  rewrite (load_bind _ _ _ _ Ea). cbn [ndata leaf leaf0 leaf1 LEFT RIGHT].
  destruct (Z.eqb_spec d data) as [->|Hd].
  { exists (PNode a). split; [done|right]. exists a. split; [done|]. simpl. apply elem_of_app. right. left. }
  rewrite (bind_run _ _ _ _ _ (compare_ok get_key _ _ s _ Ea Hcd)). cbn [ndata].
  destruct (IH (FL a lv d r :: c) l ltac:(lia) Hll Hcl Hsl Hs) as (pl & El & Fl).
  destruct (IH (FR a lv d l :: c) r ltac:(lia) Hlr Hcr Hsr Hs) as (pr & Er & Fr).
  destruct (Z.eqb_spec (get_key data - get_key d) 0) as [E0|E0].
  - rewrite (bind_run _ _ _ _ _ El). destruct Fl as [[-> Fl]|(b & -> & Fl)].
    + rewrite decide_False by (intros HF; by apply HF). rewrite (bind_run _ _ _ _ _ Er).
      destruct Fr as [[-> Fr]|(b & -> & Fr)].
      * rewrite decide_False by (intros HF; by apply HF). rewrite (load_bind _ _ _ _ Ea).
        rewrite E0. cbn [direction negb Z.leb Z.compare leaf leaf0]. exists PNull. split; [exact El|].
        apply found_left; [done|done|by left].
      * rewrite decide_True by done. exists (PNode b). split; [done|right]. exists b.
        split; [done|]. simpl. apply elem_of_app. right. by right.
    + rewrite decide_True by done. exists (PNode b). split; [done|right]. exists b.
      split; [done|]. simpl. apply elem_of_app. by left.
  - rewrite (load_bind _ _ _ _ Ea). unfold direction. zbool; cbn [negb leaf leaf0 leaf1].
    + exists pl. split; [done|]. apply found_left; [done| |done]. eapply sorted_not_right; [done|lia].
    + exists pr. split; [done|]. apply found_right; [done| |done]. eapply sorted_not_left; [done|lia].
Qed.

Lemma find_data_loop_ok fuel c t s data :
  (height t + 1 < fuel)%nat → levels max_level t → cmp_ok (get_key data) t →
  sorted get_key (elements t) → tree_state s (plug c t) →
  ∃ p, find_data_loop get_key fuel data (tptr t) s = Ret (p, s) ∧ found data t p.
Proof.
  revert c t. induction fuel as [|fuel IH]; intros c t Hf Hl Hc Hso Hs; [lia|]. cbn [find_data_loop].
  rewrite (bind_run _ _ _ _ _ (tree_is_nil s c t Hs (levels_pos _ _ Hl))).
  destruct t as [|a lv d l r].
  { exists PNull. split; [done|left]. split; [done|]. unfold elements. simpl. apply not_elem_of_nil. }
  cbn [is_nilT tptr]. pose proof (cmp_ok_Node get_key (get_key data) a lv d l r) as [Hcc _].
  destruct (Hcc Hc) as (Hcl & Hcd & Hcr). 
  pose proof Hso as Hso'. rewrite elements_Node in Hso'. apply sorted_app in Hso' as (Hsl & Hsr & _).
  pose proof (tree_node _ _ _ _ _ _ _ Hs) as Ea.
  rewrite (bind_run _ _ _ _ _ (compare_ok get_key _ _ s _ Ea Hcd)). cbn [ndata].
  destruct (Z.eqb_spec (get_key data - get_key d) 0) as [E0|E0].
  - change (PNode a) with (tptr (Node a lv d l r)). apply (find_dupe_ok fuel c); (done || lia).
  - destruct Hl as (_ & Hll & Hlr). simpl in Hf.
    rewrite (load_bind _ _ _ _ Ea). unfold direction. zbool; cbn [negb leaf leaf0 leaf1].
    + destruct (IH (FL a lv d r :: c) l ltac:(lia) Hll Hcl Hsl Hs) as (pl & El & Fl).
      exists pl. split; [done|]. apply found_left; [intros ->; lia| |done]. eapply sorted_not_right; [done|lia].
    + destruct (IH (FR a lv d l :: c) r ltac:(lia) Hlr Hcr Hsr Hs) as (pr & Er & Fr).
      exists pr. split; [done|]. apply found_right; [intros ->; lia| |done]. eapply sorted_not_left; [done|lia].
Qed.

(** ** Neighbours *)
Lemma ctx_before_left p : Forall (λ f, frame_side f = LEFT) p → ctx_before p = [].
Proof. induction 1 as [|f p Hf _ IH]; [done|]. simpl. rewrite IH. by destruct f. Qed.

Lemma ctx_after_right p : Forall (λ f, frame_side f = RIGHT) p → ctx_after p = [].
Proof. induction 1 as [|f p Hf _ IH]; [done|]. simpl. rewrite IH. by destruct f. Qed.

Lemma frame_tree_ptr s f c t : tree_state s (plug (f :: c) t) → t ≠ Nil → tptr (frame_tree f) ≠ tptr t.
Proof.
  intros (_ & _ & _ & _ & Hn)%tree_state_plug Ht. rewrite ctx_addrs_cons in Hn.
  destruct t as [|a lv d l r]; [done|]. simpl. apply tptr_not_in. intros Hin.
  apply NoDup_app in Hn as (_ & Hd & _). apply (Hd a).
  - rewrite addrs_Node. clear. set_solver.
  - right. apply elem_of_app. by left.
Qed.

Lemma tree_frame s f c t : tree_state s (plug (f :: c) t) →
  t_mem s !! PNode (frame_addr f) = Some (frame_cell (ctx_ptr c) (tptr t) f).
Proof. by intros (_ & _ & (Ef & _) & _)%tree_state_plug. Qed.

Lemma climb_step fuel dir f c t s : tree_state s (plug (f :: c) t) → levels max_level (plug (f :: c) t) →
  t ≠ Nil →
  climb (S fuel) dir (tptr t) (ctx_ptr (f :: c)) s =
  if Bool.eqb (frame_side f) dir then climb fuel dir (tptr (plug1 f t)) (ctx_ptr c) s
  else Ret (PNode (frame_addr f), s).
Proof.
  intros Hs Hl Ht. pose proof (frame_tree_ptr _ _ _ _ Hs Ht) as Hne. apply (levels_plug _ c) in Hl.
  cbn [climb ctx_ptr]. rewrite <- (tptr_plug1 f t) at 1.
  rewrite (bind_run _ _ _ _ _ (tree_is_nil s c (plug1 f t) Hs (levels_pos _ _ Hl))).
  replace (is_nilT (plug1 f t)) with false by (by destruct f).
  rewrite (load_bind _ _ _ _ (tree_frame _ _ _ _ Hs)), tptr_plug1.
  destruct f, dir; cbn [frame_side frame_cell leaf leaf0 leaf1 frame_tree LEFT RIGHT Bool.eqb parent] in *;
    first [rewrite decide_True by congruence | rewrite decide_False by congruence]; done.
Qed.

Lemma climb_right fuel c t s : tree_state s (plug c t) → levels max_level (plug c t) → t ≠ Nil →
  (length c < fuel)%nat → climb fuel RIGHT (tptr t) (ctx_ptr c) s = Ret (hd_ptr (ctx_after c), s).
Proof.
  revert c t. induction fuel as [|fuel IH]; intros c t Hs Hl Ht Hf; [lia|]. destruct c as [|f c]; [done|].
  rewrite climb_step by done. simpl in Hf. destruct f; cbn [frame_side Bool.eqb LEFT RIGHT]; [done|].
  apply (IH c); [done|done|apply plug1_Node|lia].
Qed.

Lemma climb_left fuel c t s : tree_state s (plug c t) → levels max_level (plug c t) → t ≠ Nil →
  (length c < fuel)%nat → climb fuel LEFT (tptr t) (ctx_ptr c) s = Ret (last_ptr (ctx_before c), s).
Proof.
  revert c t. induction fuel as [|fuel IH]; intros c t Hs Hl Ht Hf; [lia|]. destruct c as [|f c]; [done|].
  rewrite climb_step by done. simpl in Hf. destruct f; cbn [frame_side Bool.eqb LEFT RIGHT ctx_before frame_before].
  - rewrite app_nil_r. apply (IH c); [done|done|apply plug1_Node|lia].
  - unfold last_ptr. by rewrite app_assoc, last_snoc.
Qed.

Lemma next_ok fuel c a lv d l r s :
  tree_state s (plug c (Node a lv d l r)) → levels max_level (plug c (Node a lv d l r)) →
  (height (plug c (Node a lv d l r)) < fuel)%nat →
  andtree_next fuel (PNode a) s = Ret (hd_ptr (inorder r ++ ctx_after c), s).
Proof.
  intros Hs Hlp Hf. pose proof (levels_plug _ _ _ Hlp) as (Hlv & Hll & Hlr).
  pose proof (length_ctx c (Node a lv d l r)). pose proof (tree_node _ _ _ _ _ _ _ Hs) as Ea.
  unfold andtree_next. rewrite decide_False by done. rewrite (load_bind _ _ _ _ Ea). cbn [leaf leaf1 RIGHT].
  destruct r as [|b lvb db bl br].
  - rewrite (bind_run _ _ _ _ _ (find_min_nil fuel (FR a lv d l :: c) s Hs)).
    rewrite (load_bind _ _ _ _ Ea), (bind_run _ _ _ _ _ (is_nil_null s)). cbn [parent].
    apply (climb_right fuel c (Node a lv d l Nil)); (done || lia).
  - pose proof (height_plug_le (FR a lv d l :: c) (Node b lvb db bl br)) as Hh.
    destruct (follow_min fuel (FR a lv d l :: c) b lvb db bl br s Hlr) as (p & m & lvm & dm & mr & E & Hp & _ & _ & Ef);
      [simpl in *; lia|done|].
    cbn [tptr]. rewrite (bind_run _ _ _ _ _ (eq_trans (find_min_Node _ (FR a lv d l :: c) _ _ _ _ _ _ Hlr Hs) Ef)).
    rewrite (load_bind _ _ _ _ Ea).
    assert (plug c (Node a lv d l (Node b lvb db bl br)) = plug (p ++ FR a lv d l :: c) (Node m lvm dm Nil mr)) as Ep.
    { rewrite plug_app. by rewrite <- E. }
    rewrite Ep in Hs, Hlp. apply levels_plug in Hlp.
    rewrite (bind_run _ _ _ _ _ (tree_is_nil s _ _ Hs (levels_pos _ _ Hlp))). cbn [is_nilT].
    rewrite E, inorder_plug, ctx_before_left by done. done.
Qed.

Lemma previous_ok fuel c a lv d l r s :
  tree_state s (plug c (Node a lv d l r)) → levels max_level (plug c (Node a lv d l r)) →
  (height (plug c (Node a lv d l r)) < fuel)%nat →
  andtree_previous fuel (PNode a) s = Ret (last_ptr (ctx_before c ++ inorder l), s).
Proof.
  intros Hs Hlp Hf. pose proof (levels_plug _ _ _ Hlp) as (Hlv & Hll & Hlr).
  pose proof (length_ctx c (Node a lv d l r)). pose proof (tree_node _ _ _ _ _ _ _ Hs) as Ea.
  unfold andtree_previous. rewrite decide_False by done. rewrite (load_bind _ _ _ _ Ea). cbn [leaf leaf0 LEFT].
  destruct l as [|b lvb db bl br].
  - rewrite (bind_run _ _ _ _ _ (find_max_nil fuel (FL a lv d r :: c) s Hs)).
    rewrite (load_bind _ _ _ _ Ea), (bind_run _ _ _ _ _ (is_nil_null s)). cbn [parent inorder].
    rewrite app_nil_r. apply (climb_left fuel c (Node a lv d Nil r)); (done || lia).
  - pose proof (height_plug_le (FL a lv d r :: c) (Node b lvb db bl br)) as Hh.
    destruct (follow_max fuel (FL a lv d r :: c) b lvb db bl br s Hll) as (p & m & lvm & dm & ml & E & Hp & _ & _ & Ef);
      [simpl in *; lia|done|].
    cbn [tptr]. rewrite (bind_run _ _ _ _ _ (eq_trans (find_max_Node _ (FL a lv d r :: c) _ _ _ _ _ _ Hll Hs) Ef)).
    rewrite (load_bind _ _ _ _ Ea).
    assert (plug c (Node a lv d (Node b lvb db bl br) r) = plug (p ++ FL a lv d r :: c) (Node m lvm dm ml Nil)) as Ep.
    { rewrite plug_app. by rewrite <- E. }
    rewrite Ep in Hs, Hlp. apply levels_plug in Hlp.
    rewrite (bind_run _ _ _ _ _ (tree_is_nil s _ _ Hs (levels_pos _ _ Hlp))). cbn [is_nilT].
    rewrite E, inorder_plug, ctx_after_right by done. cbn [inorder]. rewrite app_nil_r.
    unfold last_ptr. by rewrite !app_assoc, last_snoc.
Qed.

(** ** The operations on a whole tree *)
Lemma tree_inv_bounds t s : tree_inv get_key s t → Z.of_nat (tree_size t) < 2 ^ 31 →
  levels max_level t ∧ (height t + 8 <= tree_fuel (tree_size t))%nat.
Proof.
  intros [_ Haa _ _ _ _] Hsz. pose proof (aa_level_log t Haa). pose proof (aa_level_max t Haa Hsz).
  pose proof (height_level t Haa). pose proof (aa_level t Haa). unfold tree_fuel. split; [|lia].
  eapply levels_mono; [|by apply levels_aa]. lia.
Qed.

Lemma find_key_spec fuel k t s :
  tree_inv get_key s t → cmp_ok k t → Z.of_nat (tree_size t) < 2 ^ 31 →
  (tree_fuel (tree_size t) <= fuel)%nat →
  ∃ p, andtree_find_key get_key fuel k s = Ret (p, s) ∧
    ((p = PNull ∧ ∀ d, d ∈ elements t → get_key d ≠ k) ∨
     (∃ a d, p = PNode a ∧ (a, d) ∈ inorder t ∧ get_key d = k)).
Proof.
  intros Hi Hc Hsz Hf. destruct (tree_inv_bounds _ _ Hi Hsz) as [Hl Hh].
  destruct Hi as [Hs _ Hso _ _ _]. unfold andtree_find_key. rewrite (bind_run get _ s s s) by done.
  rewrite (ts_root _ _ Hs). eexists. split; [apply (find_key_loop_ok fuel [] t); (done || lia)|].
  destruct (findT get_key k t) as [a|] eqn:E.
  - right. destruct (findT_Some _ _ _ _ Hso E) as (d & Hd & Hk). eauto.
  - left. split; [done|]. by apply findT_None.
Qed.

(** C4: [andtree_find_key] returns a node with the key when there is one and
    [NULL] only when there is none; it changes nothing. *)
Theorem andtree_find_key_correct fuel k t s :
  tree_inv get_key s t → cmp_ok k t → Z.of_nat (tree_size t) < 2 ^ 31 →
  (tree_fuel (tree_size t) <= fuel)%nat →
  ∃ p, andtree_find_key get_key fuel k s = Ret (p, s) ∧
    ((p = PNull ∧ ∀ d, d ∈ elements t → get_key d ≠ k) ∨
     (∃ a d, p = PNode a ∧ (a, d) ∈ inorder t ∧ get_key d = k)).
Proof. apply find_key_spec. Qed.

Lemma find_at_least_spec fuel k t s :
  tree_inv get_key s t → cmp_ok k t → Z.of_nat (tree_size t) < 2 ^ 31 →
  (tree_fuel (tree_size t) <= fuel)%nat →
  ∃ p, andtree_find_at_least get_key fuel k s = Ret (p, s) ∧
    ((p = PNull ∧ ∀ e, e ∈ elements t → get_key e < k) ∨
     (∃ a d, p = PNode a ∧ (a, d) ∈ inorder t ∧ k <= get_key d ∧
        ∀ e, e ∈ elements t → k <= get_key e → get_key d <= get_key e)).
Proof.
  intros Hi Hc Hsz Hf. destruct (tree_inv_bounds _ _ Hi Hsz) as [Hl Hh].
  destruct Hi as [Hs _ Hso _ _ _]. unfold andtree_find_at_least. rewrite (bind_run get _ s s s) by done.
  rewrite (ts_root _ _ Hs). eexists. split; [apply (do_find_at_least_ok fuel [] t); (done || lia)|].
  pose proof (find_at_leastT_spec get_key k t Hso) as Hsp.
  destruct (find_at_leastT get_key k t) as [[a d]|]; [right|left]; [|done].
  exists a, d. naive_solver.
Qed.

(** [andtree_find_at_least] is a lower bound search: the least key that is
    at least the one asked for, and [NULL] only when every key is smaller. *)
Theorem andtree_find_at_least_correct fuel k t s :
  tree_inv get_key s t → cmp_ok k t → Z.of_nat (tree_size t) < 2 ^ 31 →
  (tree_fuel (tree_size t) <= fuel)%nat →
  ∃ p, andtree_find_at_least get_key fuel k s = Ret (p, s) ∧
    ((p = PNull ∧ ∀ e, e ∈ elements t → get_key e < k) ∨
     (∃ a d, p = PNode a ∧ (a, d) ∈ inorder t ∧ k <= get_key d ∧
        ∀ e, e ∈ elements t → k <= get_key e → get_key d <= get_key e)).
Proof. apply find_at_least_spec. Qed.

Lemma neighbours_spec fuel a d X Y t s :
  tree_inv get_key s t → inorder t = X ++ (a, d) :: Y → Z.of_nat (tree_size t) < 2 ^ 31 →
  (tree_fuel (tree_size t) <= fuel)%nat →
  andtree_next fuel (PNode a) s = Ret (hd_ptr Y, s) ∧
  andtree_previous fuel (PNode a) s = Ret (last_ptr X, s).
Proof.
  intros Hi Ein Hsz Hf. destruct (tree_inv_bounds _ _ Hi Hsz) as [Hl Hh].
  destruct Hi as [Hs _ _ _ _ _].
  destruct (inorder_plug_split a d t X Y (ts_nodup _ _ Hs) Ein) as (c & lv & l & r & -> & -> & ->).
  split; [apply (next_ok fuel c a lv d l r)|apply (previous_ok fuel c a lv d l r)]; (done || lia).
Qed.

(** [andtree_next] and [andtree_previous] return the neighbours of a node
    in the in-order listing, [NULL] at the ends. *)
Theorem andtree_neighbours_correct fuel a d X Y t s :
  tree_inv get_key s t → inorder t = X ++ (a, d) :: Y → Z.of_nat (tree_size t) < 2 ^ 31 →
  (tree_fuel (tree_size t) <= fuel)%nat →
  andtree_next fuel (PNode a) s = Ret (hd_ptr Y, s) ∧
  andtree_previous fuel (PNode a) s = Ret (last_ptr X, s).
Proof. apply neighbours_spec. Qed.

Lemma find_data_spec fuel data t s :
  tree_inv get_key s t → cmp_ok (get_key data) t → Z.of_nat (tree_size t) < 2 ^ 31 →
  (tree_fuel (tree_size t) <= fuel)%nat →
  ∃ p, andtree_find_data get_key fuel data s = Ret (p, s) ∧ found data t p.
Proof.
  intros Hi Hc Hsz Hf. destruct (tree_inv_bounds _ _ Hi Hsz) as [Hl Hh].
  destruct Hi as [Hs _ Hso _ _ _]. unfold andtree_find_data. rewrite (bind_run get _ s s s) by done.
  rewrite (ts_root _ _ Hs). apply (find_data_loop_ok fuel [] t); (done || lia).
Qed.

Lemma remove_data_spec `{!AllocatorLaws H} fuel data t s :
  tree_inv get_key s t → cmp_ok (get_key data) t → Z.of_nat (tree_size t) < 2 ^ 31 →
  (tree_fuel (tree_size t) <= fuel)%nat →
  if bool_decide (data ∈ elements t) then
    ∃ s' t' f, andtree_remove_data get_key fuel data s = Ret (data, s') ∧ tree_inv get_key s' t' ∧
      elements t ≡ₚ data :: elements t' ∧ addrs t ≡ₚ f :: addrs t' ∧
      freed f (t_heap s) (t_heap s') ∧ outside t s s'
  else andtree_remove_data get_key fuel data s = Ret (0, s).
Proof.
  intros Hi Hc Hsz Hf. destruct (find_data_spec _ _ _ _ Hi Hc Hsz Hf) as (p & E & Hp).
  unfold andtree_remove_data. rewrite (bind_run _ _ _ _ _ E). destruct Hp as [[-> Hp]|(a & -> & Ha)].
  - by rewrite bool_decide_false, decide_True.
  - rewrite bool_decide_true by (apply elem_of_elements_inorder; by eexists). rewrite decide_False by done.
    destruct (rep_data _ _ _ _ _ (ts_rep _ _ (ti_state _ _ _ Hi)) Ha) as (n & En & <-).
    rewrite (load_bind _ _ _ _ En).
    apply list_elem_of_split in Ha as (X & Y & Ein).
    destruct (remove_spec get_key fuel t a _ X Y s Hi Ein Hsz Hf) as (s' & t' & f & E' & Hi' & El & Ea & Hl & Ho).
    exists s', t', f. rewrite (bind_run _ _ _ _ _ E'). split_and!; try done.
    unfold elements at 1. rewrite Ein, El, fmap_app, fmap_cons. simpl. by rewrite Permutation_middle.
Qed.

(** [andtree_remove_data] takes one occurrence of the data out of the tree
    and returns it, and returns [NULL] and changes nothing when it is not there. *)
Theorem andtree_remove_data_correct `{!AllocatorLaws H} fuel data t s :
  tree_inv get_key s t → cmp_ok (get_key data) t → Z.of_nat (tree_size t) < 2 ^ 31 →
  (tree_fuel (tree_size t) <= fuel)%nat →
  if bool_decide (data ∈ elements t) then
    ∃ s' t' f, andtree_remove_data get_key fuel data s = Ret (data, s') ∧ tree_inv get_key s' t' ∧
      elements t ≡ₚ data :: elements t' ∧ addrs t ≡ₚ f :: addrs t' ∧
      freed f (t_heap s) (t_heap s') ∧ outside t s s'
  else andtree_remove_data get_key fuel data s = Ret (0, s).
Proof. apply remove_data_spec. Qed.

Lemma remove_key_spec `{!AllocatorLaws H} fuel data t s :
  tree_inv get_key s t → cmp_ok (get_key data) t → Z.of_nat (tree_size t) < 2 ^ 31 →
  (tree_fuel (tree_size t) <= fuel)%nat →
  data ∈ elements t → (∀ e, e ∈ elements t → get_key e = get_key data → e = data) →
  ∃ s' t' f, andtree_remove_key get_key fuel (get_key data) s = Ret (data, s') ∧ tree_inv get_key s' t' ∧
    elements t ≡ₚ data :: elements t' ∧ addrs t ≡ₚ f :: addrs t' ∧
    freed f (t_heap s) (t_heap s') ∧ outside t s s'.
Proof.
  intros Hi Hc Hsz Hf Hd Hu. destruct (find_key_spec fuel (get_key data) t s Hi Hc Hsz Hf) as (p & E & Hp).
  unfold andtree_remove_key. rewrite (bind_run _ _ _ _ _ E). destruct Hp as [[-> Hp]|(a & d & -> & Ha & Hk)].
  { by destruct (Hp _ Hd). }
  rewrite decide_False by done.
  assert (d = data) as -> by (apply Hu; [apply elem_of_elements_inorder; by exists a|done]).
  destruct (rep_data _ _ _ _ _ (ts_rep _ _ (ti_state _ _ _ Hi)) Ha) as (n & En & Edn).
  rewrite (load_bind _ _ _ _ En). apply list_elem_of_split in Ha as (X & Y & Ein).
  destruct (remove_spec get_key fuel t a _ X Y s Hi Ein Hsz Hf) as (s' & t' & f & E' & Hi' & El & Ea & Hl & Ho).
  exists s', t', f. rewrite (bind_run _ _ _ _ _ E'), Edn. split_and!; try done.
  unfold elements at 1. rewrite Ein, El, fmap_app, fmap_cons. simpl. by rewrite Permutation_middle.
Qed.

(** ** The self check *)
Lemma check_tree_ok fuel c t s : (height t < fuel)%nat → aa t → level t <= max_level →
  tree_state s (plug c t) → check_tree fuel (tptr t) s = Ret (true, s).
Proof.
  revert c t. induction fuel as [|fuel IH]; intros c t Hf Haa Hlv Hs; [lia|]. cbn [check_tree].
  assert (∀ u, aa u → is_nilT u = false → 1 <= level u) as Hpos.
  { intros u Hu. apply (levels_pos (level u)). by apply levels_aa. }
  rewrite (bind_run _ _ _ _ _ (tree_is_nil s c t Hs (Hpos _ Haa))).
  destruct t as [|a lv d l r]; [done|]. cbn [is_nilT tptr]. cbn [height level] in Hf, Hlv.
  pose proof (tree_node _ _ _ _ _ _ _ Hs) as Ea. rewrite (load_bind _ _ _ _ Ea).
  pose proof Haa as (Hl1 & Hr1 & Hr2 & Hl & Hr). pose proof (aa_level l Hl). pose proof (aa_level r Hr).
  cbn [leaf leaf0 leaf1 LEFT RIGHT nlevel].
  pose proof (tree_cell s (FL a lv d r :: c) l Hs) as (nl & El & Hnl & _).
  pose proof (tree_cell s (FR a lv d l :: c) r Hs) as (nr & Er & Hnr & _ & Hrr).
  pose proof (tree_is_nil s (FL a lv d r :: c) l Hs (Hpos _ Hl)) as Nl.
  pose proof (tree_is_nil s (FR a lv d l :: c) r Hs (Hpos _ Hr)) as Nr.
  rewrite (bind_run _ _ _ _ _ (IH (FL a lv d r :: c) l ltac:(lia) Hl ltac:(lia) Hs)).
  rewrite (bind_run _ _ _ _ _ (IH (FR a lv d l :: c) r ltac:(lia) Hr ltac:(lia) Hs)).
  assert (∀ dir p q, check_child dir (mk_andnode p (tptr l) (tptr r) lv q) s = Ret (true, s)) as Hch.
  { intros dir p q. unfold check_child. cbn [nlevel].
    destruct dir; cbn [leaf leaf0 leaf1];
      [rewrite (bind_run _ _ _ _ _ Nr)|rewrite (bind_run _ _ _ _ _ Nl)]; (case_match; [done|]);
      [rewrite (load_bind _ _ _ _ Er), Hnr|rewrite (load_bind _ _ _ _ El), Hnl];
      rewrite u32_small by (unfold max_level in *; lia); zbool; (done || lia). }
  assert (∃ nrr, t_mem s !! tptr (right_of r) = Some nrr ∧ nlevel nrr = level (right_of r)) as (nrr & Err & Hnrr).
  { destruct r as [|b lvb db bl br].
    - destruct (tree_cell s (FR a lv d l :: c) Nil Hs) as (? & ? & ? & _). eauto.
    - destruct (tree_cell s (FR b lvb db bl :: FR a lv d l :: c) br Hs) as (? & ? & ? & _). eauto. }
  assert ((if 1 <? lv then
             lnil ← is_nil (tptr l); rnil ← is_nil (tptr r);
             v0 ← check_child LEFT (mk_andnode (ctx_ptr c) (tptr l) (tptr r) lv d);
             v1 ← check_child RIGHT (mk_andnode (ctx_ptr c) (tptr l) (tptr r) lv d);
             mret (negb (lnil && rnil) && v0 && v1)
           else mret true) s = Ret (true, s)) as Ev.
  { destruct (Z.ltb_spec 1 lv); [|done].
    rewrite (bind_run _ _ _ _ _ Nl), (bind_run _ _ _ _ _ Nr), (bind_run _ _ _ _ _ (Hch _ _ _)), (bind_run _ _ _ _ _ (Hch _ _ _)).
    destruct l; [simpl in *; lia|done]. }
  cbv beta. rewrite (bind_run _ _ _ _ _ Ev), (load_bind _ _ _ _ El), (load_bind _ _ _ _ Er), Hrr, (load_bind _ _ _ _ Err).
  rewrite Hnl, Hnrr. zbool; (done || lia).
Qed.

(** [andtree_check] accepts every tree in the invariant. *)
Theorem andtree_check_accepts fuel t s : tree_inv get_key s t → Z.of_nat (tree_size t) < 2 ^ 31 →
  (tree_fuel (tree_size t) <= fuel)%nat → andtree_check fuel s = Ret (true, s).
Proof.
  intros Hi Hsz Hf. destruct (tree_inv_bounds _ _ Hi Hsz) as [Hl Hh].
  destruct Hi as [Hs Haa _ _ _ _]. pose proof (aa_level_max t Haa Hsz).
  unfold andtree_check. rewrite (bind_run get _ s s s), (ts_root _ _ Hs) by done.
  apply (check_tree_ok fuel [] t); (done || lia).
Qed.
End find.

(** ** On the concrete tree *)
Lemma sample_cmp k : - 2 ^ 31 + 16 <= k < 2 ^ 31 → cmp_ok (λ d, d) k sample.
Proof.
  intros Hk. unfold cmp_ok. change (elements sample) with [5; 7; 9]. repeat constructor; lia.
Qed.

Lemma andtree_find_key_correct_witness :
  ∃ p, andtree_find_key (λ d, d) (tree_fuel 3) 9 sample_state = Ret (p, sample_state) ∧ p ≠ PNull.
Proof.
  destruct (andtree_find_key_correct (λ d, d) (tree_fuel 3) 9 sample sample_state) as (p & E & Hp).
  - exact sample_inv.
  - apply sample_cmp. lia.
  - simpl. lia.
  - apply Nat.le_refl.
  - exists p. split; [exact E|]. destruct Hp as [[_ Hp]|(a & d & -> & _)]; [|discriminate].
    exfalso. apply (Hp 9); [|reflexivity]. change (elements sample) with [5; 7; 9]. set_solver.
Defined.

Lemma andtree_find_at_least_correct_witness :
  ∃ p, andtree_find_at_least (λ d, d) (tree_fuel 3) 8 sample_state = Ret (p, sample_state) ∧ p ≠ PNull.
Proof.
  destruct (andtree_find_at_least_correct (λ d, d) (tree_fuel 3) 8 sample sample_state) as (p & E & Hp).
  - exact sample_inv.
  - apply sample_cmp. lia.
  - simpl. lia.
  - apply Nat.le_refl.
  - exists p. split; [exact E|]. destruct Hp as [[_ Hp]|(a & d & -> & _)]; [|discriminate].
    exfalso. assert (9 < 8); [|lia]. apply Hp. change (elements sample) with [5; 7; 9]. set_solver.
Defined.

Lemma andtree_neighbours_correct_witness :
  andtree_next (tree_fuel 3) (PNode 4096) sample_state = Ret (PNode 4136, sample_state) ∧
  andtree_previous (tree_fuel 3) (PNode 4096) sample_state = Ret (PNode 4116, sample_state).
Proof.
  apply (andtree_neighbours_correct (λ d, d) (tree_fuel 3) 4096 7 [(4116, 5)] [(4136, 9)] sample).
  - exact sample_inv.
  - reflexivity.
  - simpl. lia.
  - apply Nat.le_refl.
Defined.

Lemma andtree_remove_data_correct_witness :
  ∃ s', andtree_remove_data (λ d, d) (tree_fuel 3) 5 sample_state = Ret (5, s') ∧
    andtree_remove_data (λ d, d) (tree_fuel 3) 6 sample_state = Ret (0, sample_state).
Proof.
  pose proof (andtree_remove_data_correct (λ d, d) (tree_fuel 3) 5 sample sample_state sample_inv
    (sample_cmp 5 ltac:(lia)) ltac:(simpl; lia) ltac:(apply Nat.le_refl)) as H5.
  pose proof (andtree_remove_data_correct (λ d, d) (tree_fuel 3) 6 sample sample_state sample_inv
    (sample_cmp 6 ltac:(lia)) ltac:(simpl; lia) ltac:(apply Nat.le_refl)) as H6.
  rewrite bool_decide_true in H5 by (change (elements sample) with [5; 7; 9]; set_solver).
  rewrite bool_decide_false in H6 by (change (elements sample) with [5; 7; 9]; set_solver).
  destruct H5 as (s' & t' & f & E & _). exists s'. split; [exact E|exact H6].
Defined.

Lemma andtree_check_accepts_witness :
  andtree_check (tree_fuel 3) sample_state = Ret (true, sample_state).
Proof.
  apply (andtree_check_accepts (λ d, d) (tree_fuel 3) sample).
  - exact sample_inv.
  - simpl. lia.
  - apply Nat.le_refl.
Defined.
