(* ===== verification/C4Alloc.v ===== *)
(** The dynamic allocator [libraries/c4rt/src/alloc.c] ([include/c4alloc/
    c4alloc.h]): power-of-two blocks headed by a [c4a_node_t], a doubly linked
    free list per size ("bucket"), neighbour links for coalescing.  Memory is
    the map of block headers; the pager request that backs a new superblock is
    logged, its answer is ignored as the code ignores it. *)

From S2P Require Import Prelude.
#[local] Open Scope Z_scope.

(** ** Data *)
Definition C4A_MAX_BUCKETS : Z := 14.
Definition C4A_STATUS_FREE : Z := 1.
Definition C4A_STATUS_USED : Z := 2.

(** [struct c4a_node]; [0] is the null pointer. *)
Record c4a_node := mk_node {
  previous : Z;
  next : Z;
  phys_next : Z;
  phys_prev : Z;
  status : Z;
  bucket : Z
}.

(** [sizeof(c4a_node_t)]: four pointers and two [uint16_t]. *)
Definition sizeof_node : Z := 20.

(** [struct c4a_heap] with the headers in memory and the pager requests made
    ([(virtual address, pages)], latest first). *)
Record c4a_heap := mk_heap {
  hstart : Z;
  hpages : Z;
  buckets : list Z;
  nodes : gmap Z c4a_node;
  requests : list (Z * Z)
}.

Definition PAGE_SIZE : Z := 4096.

Definition set_previous (p : Z) (n : c4a_node) : c4a_node :=
  mk_node p (next n) (phys_next n) (phys_prev n) (status n) (bucket n).
Definition set_next (p : Z) (n : c4a_node) : c4a_node :=
  mk_node (previous n) p (phys_next n) (phys_prev n) (status n) (bucket n).
Definition set_phys_next (p : Z) (n : c4a_node) : c4a_node :=
  mk_node (previous n) (next n) p (phys_prev n) (status n) (bucket n).
Definition set_phys_prev (p : Z) (n : c4a_node) : c4a_node :=
  mk_node (previous n) (next n) (phys_next n) p (status n) (bucket n).
Definition set_status (v : Z) (n : c4a_node) : c4a_node :=
  mk_node (previous n) (next n) (phys_next n) (phys_prev n) v (bucket n).
Definition set_bucket (v : Z) (n : c4a_node) : c4a_node :=
  mk_node (previous n) (next n) (phys_next n) (phys_prev n) (status n) v.

Abbreviation T := (M c4a_heap).

Definition load (a : Z) : T c4a_node := getsome (λ h, nodes h !! a).

Definition store (a : Z) (n : c4a_node) : T unit :=
  modify (λ h, mk_heap (hstart h) (hpages h) (buckets h) (<[a := n]> (nodes h)) (requests h)).

Definition upd (a : Z) (f : c4a_node → c4a_node) : T unit := n ← load a; store a (f n).

Definition bucket_start (k : Z) : T Z := getsome (λ h, zget (buckets h) k).

Definition set_bucket_start (k a : Z) : T unit := λ h,
  match zset (buckets h) k a with
  | Some bs => Ret (tt, mk_heap (hstart h) (hpages h) bs (nodes h) (requests h))
  | None => UB
  end.

(** ** Free lists *)
Definition c4a_node_unlink (node : Z) : T unit :=
  n ← load node;
  st ← bucket_start (bucket n);
  (if node =? st then set_bucket_start (bucket n) (next n) else mret tt);;
  (if truthy (previous n) then upd (previous n) (set_next (next n)) else mret tt);;
  n1 ← load node;
  (if truthy (next n1) then upd (next n1) (set_previous (previous n1)) else mret tt);;
  upd node (set_previous 0);;
  upd node (set_next 0).

Definition c4a_bucket_insert (k node : Z) : T unit :=
  st ← bucket_start k;
  (if truthy st then upd st (set_previous node) else mret tt);;
  st1 ← bucket_start k;
  upd node (set_next st1);;
  upd node (set_previous 0);;
  set_bucket_start k node.

Definition c4a_bucket_pop (index : Z) : T Z :=
  ret ← bucket_start index;
  (if truthy ret then c4a_node_unlink ret else mret tt);;
  mret ret.

(** ** Growing *)
Definition c4a_grow : T unit :=
  let pages := Z.shiftl 1 C4A_MAX_BUCKETS / PAGE_SIZE in
  h ← get;
  let temp := u32 (hstart h + u32 (hpages h * PAGE_SIZE)) in
  let end_ := u32 (hstart h + u32 (u32 (hpages h + pages) * PAGE_SIZE)) in
  modify (λ h, mk_heap (hstart h) (u32 (hpages h + pages)) (buckets h) (nodes h) (requests h));;
  (** one turn: the step is the whole range *)
  if temp <? end_ then
    modify (λ h, mk_heap (hstart h) (hpages h) (buckets h) (nodes h) ((temp, pages) :: requests h));;
    store temp (mk_node 0 0 0 0 C4A_STATUS_FREE C4A_MAX_BUCKETS);;
    c4a_bucket_insert C4A_MAX_BUCKETS temp
  else mret tt.

(** [for (k = index; k <= C4A_MAX_BUCKETS; k++)], [n] turns left. *)
Fixpoint find_upwards_loop (n : nat) (k : Z) : T (option Z) :=
  match n with
  | O => mret None
  | S n' =>
      st ← bucket_start k;
      if truthy st then mret (Some k) else find_upwards_loop n' (k + 1)
  end.

Definition c4a_find_upwards_bucket (index : Z) : T Z :=
  r ← find_upwards_loop (Z.to_nat (C4A_MAX_BUCKETS + 1 - index)) index;
  match r with
  | Some k => mret k
  | None => c4a_grow;; mret C4A_MAX_BUCKETS
  end.

(** ** Splitting *)
Definition c4a_split_node (node : Z) : T Z :=
  n ← load node;
  let temp := u32 (node + Z.shiftl 1 (bucket n - 1)) in
  upd node (set_bucket (u16 (bucket n - 1)));;
  n1 ← load node;
  store temp (mk_node node (next n1) (phys_next n1) node (status n1) (bucket n1));;
  upd node (set_next temp);;
  upd node (set_phys_next temp);;
  t ← load temp;
  (if truthy (phys_next t) then upd (phys_next t) (set_phys_prev temp) else mret tt);;
  mret temp.

(** [for (i = upper; i > lower; i--)], [n] turns left. *)
Fixpoint spillover_loop (n : nat) (node i : Z) : T unit :=
  match n with
  | O => mret tt
  | S n' =>
      let prev := i - 1 in
      temp ← c4a_split_node node;
      c4a_bucket_insert prev temp;;
      spillover_loop n' node (i - 1)
  end.

Definition c4a_bucket_spillover (lower upper : Z) : T unit :=
  node ← c4a_bucket_pop upper;
  spillover_loop (Z.to_nat (upper - lower)) node upper;;
  c4a_bucket_insert lower node.

Definition c4a_get_node_from_bucket (index : Z) : T Z :=
  ret ← c4a_bucket_pop index;
  if ret =? 0 then
    next ← c4a_find_upwards_bucket (index + 1);
    c4a_bucket_spillover index next;;
    ret ← c4a_bucket_pop index;
    c4a_node_unlink ret;;
    mret ret
  else mret ret.

(** ** Allocation *)

(** [for (i = 0; n && (n >>= 1); i++);], at most 32 turns. *)
Fixpoint ulog2_loop (fuel : nat) (n i : Z) : Z :=
  match fuel with
  | O => i
  | S fuel' =>
      if n =? 0 then i
      else let n' := Z.shiftr n 1 in
           if n' =? 0 then i else ulog2_loop fuel' n' (i + 1)
  end.

Definition ulog2 (n : Z) : Z := ulog2_loop 32 n 0.

(** The bucket [c4a_alloc] takes a block from. *)
Definition alloc_index (size : Z) : Z :=
  let adjusted := u32 (size + sizeof_node) in
  let index := ulog2 adjusted in
  if adjusted =? Z.shiftl 1 index then index else index + 1.

Definition c4a_alloc (size : Z) : T Z :=
  let index := alloc_index size in
  if C4A_MAX_BUCKETS <? index then mret 0
  else
    node ← c4a_get_node_from_bucket index;
    upd node (set_status C4A_STATUS_USED);;
    mret (u32 (node + sizeof_node)).

(** ** Freeing *)
Definition c4a_can_coalesce (node next : Z) : T bool :=
  if (node =? 0) || (next =? 0) then mret false
  else
    a ← load node;
    b ← load next;
    mret ((status a =? C4A_STATUS_FREE) && (status b =? C4A_STATUS_FREE) && (bucket a =? bucket b)).

Definition c4a_do_coalesce (a b : Z) : T bool :=
  ok ← c4a_can_coalesce a b;
  if ok : bool then
    c4a_node_unlink a;;
    c4a_node_unlink b;;
    upd a (λ n, set_bucket (u16 (bucket n + 1)) n);;
    nb ← load b;
    upd a (set_phys_next (phys_next nb));;
    na ← load a;
    (if truthy (phys_next na) then upd (phys_next na) (set_phys_prev a) else mret tt);;
    mret true
  else mret false.

Fixpoint c4a_coalesce (fuel : nat) (node : Z) : T Z :=
  match fuel with
  | O => nofuel
  | S fuel' =>
      n ← load node;
      let temp := phys_prev n in
      c1 ← c4a_do_coalesce (phys_prev n) node;
      let node' := if c1 : bool then temp else node in
      n' ← load node';
      c2 ← c4a_do_coalesce node' (phys_next n');
      if (c1 || c2 : bool) then c4a_coalesce fuel' node' else mret node'
  end.

(** A turn that goes on doubles the block at least once. *)
Definition coalesce_fuel : nat := 16.

Definition c4a_free (ptr : Z) : T unit :=
  let node := u32 (ptr - sizeof_node) in
  n ← load node;
  if negb (status n =? C4A_STATUS_USED) then mret tt
  else
    upd node (set_status C4A_STATUS_FREE);;
    upd node (set_next 0);;
    upd node (set_previous 0);;
    node' ← c4a_coalesce coalesce_fuel node;
    n' ← load node';
    c4a_bucket_insert (bucket n') node'.

Definition c4a_heap_init (location : Z) : c4a_heap :=
  mk_heap location 0 (replicate 15 0) ∅ [].

(** ** [malloc], [calloc], [free] ([libraries/c4rt/libc/stdlib.c]) *)
Definition malloc (size : Z) : T Z := c4a_alloc size.

Definition free (ptr : Z) : T unit := if truthy ptr then c4a_free ptr else mret tt.

(** The bytes [calloc] clears are payload, which is not modelled. *)
Definition calloc (members size : Z) : T Z := malloc (u32 (members * size)).

(** ** What the heap has handed out *)
Definition is_used (n : c4a_node) : Prop := status n = C4A_STATUS_USED.
#[export] Instance is_used_dec n : Decision (is_used n).
Proof. unfold is_used. solve_decision. Defined.

Definition used_nodes (h : c4a_heap) : gset Z := dom (filter (λ p, is_used p.2) (nodes h)).
Definition live (h : c4a_heap) : gset Z := set_map (λ a, a + sizeof_node) (used_nodes h).
