(* ===== verification/C4AllocInv.v ===== *)
(** The heap invariant of [C4Alloc.v] and that every step keeps it: the blocks
    tile the superblocks, neighbour links say so, and the free list of every
    bucket holds exactly the free blocks of that size.

    [B] maps every block to its bucket and whether it is in use, [F] lists the
    free list of every bucket, [X] is the set of free blocks taken off their
    list that the code holds in its hands. *)

From S2P Require Import Prelude C4Alloc.
#[local] Open Scope Z_scope.

(** ** The two halves of a header *)
Definition links (n : c4a_node) : Z * Z := (previous n, next n).
Definition phys (n : c4a_node) : Z * Z * Z * Z := (status n, bucket n, phys_next n, phys_prev n).

Definition lget (m : gmap Z c4a_node) (a : Z) : option (Z * Z) := links <$> m !! a.
Definition pget (m : gmap Z c4a_node) (a : Z) : option (Z * Z * Z * Z) := phys <$> m !! a.

(** ** Doubly linked lists *)
Fixpoint dseg (m : gmap Z c4a_node) (p : Z) (l : list Z) (q : Z) : Prop :=
  match l with
  | [] => True
  | a :: l' => lget m a = Some (p, hd q l') ∧ dseg m a l' q
  end.

Definition last_or (p : Z) (l : list Z) : Z := default p (last l).

Lemma last_or_cons p a l : last_or p (a :: l) = last_or a l.
Proof. unfold last_or. rewrite last_cons. by destruct (last l). Qed.

Lemma last_or_snoc p l a : last_or p (l ++ [a]) = a.
Proof. unfold last_or. by rewrite last_snoc. Qed.

Lemma dseg_app m p l1 l2 q :
  dseg m p (l1 ++ l2) q ↔ dseg m p l1 (hd q l2) ∧ dseg m (last_or p l1) l2 q.
Proof.
  revert p. induction l1 as [|a l1 IH]; intros p; [simpl; tauto|].
  simpl. rewrite IH, last_or_cons. destruct l1; simpl; tauto.
Qed.

Lemma dseg_ext m m' p l q : (∀ a, a ∈ l → lget m' a = lget m a) → dseg m p l q → dseg m' p l q.
Proof.
  revert p. induction l as [|a l IH]; intros p Hm; [done|]. simpl. intros [Ha Hl]. split.
  - rewrite Hm; [done|left].
  - apply IH; [|done]. intros b Hb. apply Hm. by right.
Qed.

Section steps.
Implicit Types (h : c4a_heap) (m : gmap Z c4a_node).

Definition with_nodes (m : gmap Z c4a_node) (h : c4a_heap) : c4a_heap :=
  mk_heap (hstart h) (hpages h) (buckets h) m (requests h).

(** Nothing but lists and links changed. *)
Definition same_phys h h' : Prop :=
  hstart h' = hstart h ∧ hpages h' = hpages h ∧ requests h' = requests h ∧
  ∀ a, pget (nodes h') a = pget (nodes h) a.

Lemma hload_ok a h n : nodes h !! a = Some n → load a h = Ret (n, h).
Proof. unfold load, getsome. by intros ->. Qed.

Lemma hupd_ok a f h n : nodes h !! a = Some n →
  upd a f h = Ret (tt, with_nodes (<[a := f n]> (nodes h)) h).
Proof. intros E. unfold upd. by rewrite (bind_run _ _ _ _ _ (hload_ok _ _ _ E)). Qed.

Lemma lget_Some m a p : lget m a = Some p → ∃ n, m !! a = Some n ∧ links n = p.
Proof. unfold lget. destruct (m !! a); simpl; [|done]. intros [= <-]. eauto. Qed.

Lemma pget_Some m a p : pget m a = Some p → ∃ n, m !! a = Some n ∧ phys n = p.
Proof. unfold pget. destruct (m !! a); simpl; [|done]. intros [= <-]. eauto. Qed.

(** Updating a link field of a node that is there. *)
Lemma upd_link a f g h p : lget (nodes h) a = Some p →
  (∀ n, phys (f n) = phys n) → (∀ n, links (f n) = g (links n)) →
  ∃ m, upd a f h = Ret (tt, with_nodes m h) ∧
    (∀ b, pget m b = pget (nodes h) b) ∧ lget m a = Some (g p) ∧
    (∀ b, b ≠ a → lget m b = lget (nodes h) b).
Proof.
  intros (n & En & <-)%lget_Some Hp Hl. eexists. split_and!; [by apply hupd_ok| | |].
  - intros b. unfold pget. destruct (decide (a = b)) as [<-|Hb].
    + rewrite lookup_insert_eq, En. simpl. by rewrite Hp.
    + by rewrite lookup_insert_ne.
  - unfold lget. rewrite lookup_insert_eq. simpl. by rewrite Hl.
  - intros b Hb. unfold lget. by rewrite lookup_insert_ne.
Qed.

Lemma same_phys_trans h1 h2 h3 : same_phys h1 h2 → same_phys h2 h3 → same_phys h1 h3.
Proof.
  unfold same_phys. naive_solver congruence.
Qed.

(** An optional update, as [if ( p ) p->field = ...;] does it. *)
Lemma upd_link_opt a f g h : (a ≠ 0 → ∃ p, lget (nodes h) a = Some p) →
  (∀ n, phys (f n) = phys n) → (∀ n, links (f n) = g (links n)) →
  ∃ m, (if truthy a then upd a f else mret tt) h = Ret (tt, with_nodes m h) ∧
    (∀ b, pget m b = pget (nodes h) b) ∧
    (∀ b, lget m b = if decide (b = a ∧ a ≠ 0) then g <$> lget (nodes h) b else lget (nodes h) b).
Proof.
  intros Ha Hp Hl. unfold truthy. destruct (Z.eqb_spec a 0) as [->|Hne]; cbn [negb].
  - exists (nodes h). split_and!; [by destruct h|done|]. intros b. by rewrite decide_False by naive_solver.
  - destruct (Ha Hne) as [p Hpa]. destruct (upd_link a f g h p Hpa Hp Hl) as (m & E & Hpm & Hla & Hlo).
    exists m. split_and!; [done|done|]. intros b. destruct (decide (b = a ∧ a ≠ 0)) as [[-> _]|Hb].
    + by rewrite Hla, Hpa.
    + apply Hlo. naive_solver.
Qed.

Lemma set_bucket_ok k a h x : zget (buckets h) k = Some x →
  set_bucket_start k a h =
  Ret (tt, mk_heap (hstart h) (hpages h) (<[Z.to_nat k := a]> (buckets h)) (nodes h) (requests h)).
Proof.
  intros [Hk Hx]%zget_Some. unfold set_bucket_start. rewrite zset_lt; [done|].
  apply lookup_lt_Some in Hx. lia.
Qed.

(** The list around a removed element. *)
Lemma dseg_remove m m' l1 a l2 :
  dseg m 0 (l1 ++ a :: l2) 0 → NoDup (l1 ++ a :: l2) → 0 ∉ l1 ++ a :: l2 →
  (∀ b, b ≠ a → lget m' b =
     (if decide (b = hd 0 l2 ∧ hd 0 l2 ≠ 0) then (λ p, (last_or 0 l1, p.2)) else id) <$>
     ((if decide (b = last_or 0 l1 ∧ last_or 0 l1 ≠ 0) then (λ p, (p.1, hd 0 l2)) else id) <$> lget m b)) →
  dseg m' 0 (l1 ++ l2) 0.
Proof.
  rewrite !dseg_app. intros [H1 [Ha H2]] Hnd H0 Hm.
  apply NoDup_app in Hnd as (Hnd1 & Hd & [Ha2 Hnd2]%NoDup_cons).
  assert (∀ b, b ∈ l1 → b ≠ a ∧ b ≠ 0 ∧ b ∉ l2) as Hl1.
  { intros b Hb. split_and!; [intros ->; eapply Hd; [done|left]|intros ->; apply H0; set_solver|].
    intros Hb2. eapply Hd; [done|by right]. }
  assert (∀ b, b ∈ l2 → b ≠ a ∧ b ≠ 0 ∧ b ∉ l1) as Hl2.
  { intros b Hb. split_and!; [by intros ->|intros ->; apply H0; set_solver|].
    intros Hb1. eapply Hd; [done|by right]. }
  assert (hd 0 l2 ≠ 0 → hd 0 l2 ∈ l2) as Hhd by (destruct l2; [done|left]).
  assert (last_or 0 l1 ≠ 0 → last_or 0 l1 ∈ l1) as Hla.
  { destruct l1 as [|b l1 _] using rev_ind; [done|]. rewrite last_or_snoc. set_solver. }
  split.
  - destruct l1 as [|b l1 _] using rev_ind; [done|]. rewrite last_or_snoc in *.
    apply dseg_app in H1 as [H1 [Hb _]]. apply dseg_app. apply NoDup_app in Hnd1 as (_ & Hdb & _). split.
    + eapply dseg_ext; [|exact H1]. intros c Hc. destruct (Hl1 c) as (?&?&?); [set_solver|].
      rewrite Hm by done. rewrite (decide_False (P := c = b ∧ _)) by (intros [-> _]; eapply Hdb; [done|left]).
      rewrite decide_False by (intros [-> ?]; auto). by destruct (lget m c).
    + split; [|done]. destruct (Hl1 b) as (?&?&?); [set_solver|]. rewrite Hm, Hb by done.
      rewrite (decide_True (P := b = b ∧ _)) by done. rewrite decide_False by (intros [E ?]; rewrite E in *; auto). done.
  - destruct l2 as [|b l2]; [done|]. cbn [hd dseg] in *. destruct H2 as [Hb H2]. split.
    + destruct (Hl2 b) as (?&?&?); [left|]. rewrite Hm, Hb by done.
      rewrite (decide_False (P := b = last_or 0 l1 ∧ _)) by (intros [E ?]; rewrite E in *; auto).
      by rewrite decide_True by done.
    + eapply dseg_ext; [|exact H2]. intros c Hc. destruct (Hl2 c) as (?&?&?); [by right|].
      rewrite Hm by done. rewrite (decide_False (P := c = last_or 0 l1 ∧ _)) by (intros [-> ?]; auto).
      apply NoDup_cons in Hnd2 as [? _]. rewrite decide_False by (intros [-> ?]; auto).
      by destruct (lget m c).
Qed.

Definition with_buckets (bs : list Z) h : c4a_heap :=
  mk_heap (hstart h) (hpages h) bs (nodes h) (requests h).

Lemma links_of h a p : lget (nodes h) a = Some p → ∃ n, nodes h !! a = Some n ∧ previous n = p.1 ∧ next n = p.2.
Proof. intros (n & ? & <-)%lget_Some. by exists n. Qed.

Lemma unlink_ok h k st pn pp l1 a l2 :
  pget (nodes h) a = Some (st, k, pn, pp) → zget (buckets h) k = Some (hd 0 (l1 ++ a :: l2)) →
  dseg (nodes h) 0 (l1 ++ a :: l2) 0 → NoDup (l1 ++ a :: l2) → 0 ∉ l1 ++ a :: l2 →
  ∃ m, c4a_node_unlink a h =
         Ret (tt, with_nodes m (with_buckets (<[Z.to_nat k := hd 0 (l1 ++ l2)]> (buckets h)) h)) ∧
    (∀ b, pget m b = pget (nodes h) b) ∧ dseg m 0 (l1 ++ l2) 0 ∧ lget m a = Some (0, 0) ∧
    (∀ b, b ∉ l1 ++ a :: l2 → lget m b = lget (nodes h) b).
Proof.
  intros Hpa Hst Hd Hnd H0. pose proof Hd as [Hd1 [Hla Hd2]]%dseg_app.
  destruct (links_of _ _ _ Hla) as (n & En & Epv & Enx). cbn [fst snd] in *.
  assert (bucket n = k) as Ek by (unfold pget in Hpa; rewrite En in Hpa; by injection Hpa).
  unfold c4a_node_unlink. rewrite (bind_run _ _ _ _ _ (hload_ok _ _ _ En)), Ek.
  unfold bucket_start at 1. unfold getsome. unfold mbind at 1, M_bind at 1. rewrite Hst.
  set (h1 := with_buckets (<[Z.to_nat k := hd 0 (l1 ++ l2)]> (buckets h)) h).
  assert ((if a =? hd 0 (l1 ++ a :: l2) then set_bucket_start k (next n) else mret tt) h = Ret (tt, h1)) as E1.
  { subst h1. unfold with_buckets. destruct l1 as [|b l1]; cbn [app hd] in *.
    - rewrite Z.eqb_refl, Enx. by apply (set_bucket_ok _ _ _ _ Hst).
    - apply NoDup_cons in Hnd as [Hb _]. destruct (Z.eqb_spec a b) as [->|_]; [exfalso; apply Hb; set_solver|].
      apply zget_Some in Hst as [_ Hst]. rewrite list_insert_id by done. by destruct h. }
  rewrite (bind_run _ _ _ _ _ E1).
  assert (last_or 0 l1 ≠ 0 → last_or 0 l1 ∈ l1) as Hlast.
  { destruct l1 as [|b l1' _] using rev_ind; [done|]. rewrite last_or_snoc. set_solver. }
  assert (hd 0 l2 ≠ 0 → hd 0 l2 ∈ l2) as Hhd by (destruct l2; [done|left]).
  assert (last_or 0 l1 ≠ 0 → last_or 0 l1 ≠ a ∧ last_or 0 l1 ∉ l2) as Hlast'.
  { intros Hne. specialize (Hlast Hne). apply NoDup_app in Hnd as (_ & Hdis & _). split.
    - intros E. apply (Hdis _ Hlast). rewrite E. left.
    - intros E. apply (Hdis _ Hlast). by right. }
  assert (a ∉ l2) as Hal2 by (apply NoDup_app in Hnd as (_ & _ & [? _]%NoDup_cons); done).
  destruct (upd_link_opt (previous n) (set_next (next n)) (λ p, (p.1, hd 0 l2)) h1) as (m2 & E2 & Hp2 & Hl2).
  { rewrite Epv. intros Hne. specialize (Hlast Hne). destruct l1 as [|b l1' _] using rev_ind; [by apply not_elem_of_nil in Hlast|].
    rewrite last_or_snoc. apply dseg_app in Hd1 as [_ [Hb _]]. by eexists. }
  { done. }
  { intros n'. unfold links. simpl. by rewrite Enx. }
  rewrite (bind_run _ _ _ _ _ E2). rewrite Epv in Hl2.
  assert (lget m2 a = Some (last_or 0 l1, hd 0 l2)) as Hla2.
  { rewrite Hl2, decide_False; [done|]. intros [E Hne]. by apply Hlast' in Hne as [? _]. }
  destruct (links_of (with_nodes m2 h1) _ _ Hla2) as (n1 & En1 & Epv1 & Enx1). cbn [fst snd] in *.
  rewrite (bind_run _ _ _ _ _ (hload_ok _ _ _ En1)).
  destruct (upd_link_opt (next n1) (set_previous (previous n1)) (λ p, (last_or 0 l1, p.2)) (with_nodes m2 h1)) as (m3 & E3 & Hp3 & Hl3).
  { rewrite Enx1. cbn [nodes with_nodes]. rewrite Hl2. intros Hne. destruct l2 as [|b l2]; [done|]. cbn [hd].
    destruct Hd2 as [Hb _]. cbn [nodes with_buckets h1] in *. rewrite Hb.
    destruct (decide (b = last_or 0 l1 ∧ last_or 0 l1 ≠ 0)); eexists; reflexivity. }
  { done. }
  { intros n'. unfold links. simpl. by rewrite Epv1. }
  rewrite (bind_run _ _ _ _ _ E3). rewrite Enx1 in Hl3. cbn [nodes with_nodes] in Hl3.
  assert (lget m3 a = Some (last_or 0 l1, hd 0 l2)) as Hla3.
  { rewrite Hl3, decide_False; [done|]. intros [E Hne]. apply Hhd in Hne. by rewrite <- E in Hne. }
  destruct (upd_link a (set_previous 0) (λ p, (0, p.2)) (with_nodes m3 (with_nodes m2 h1)) _ Hla3) as (m4 & E4 & Hp4 & Hla4 & Hl4);
    [done|done|].
  rewrite (bind_run _ _ _ _ _ E4).
  destruct (upd_link a (set_next 0) (λ p, (p.1, 0)) (with_nodes m4 (with_nodes m3 (with_nodes m2 h1))) _ Hla4) as (m5 & E5 & Hp5 & Hla5 & Hl5);
    [done|done|].
  exists m5. split; [exact E5|]. cbn [nodes with_nodes with_buckets h1 fst snd] in *. split_and!.
  - intros b. by rewrite Hp5, Hp4, Hp3, Hp2.
  - eapply dseg_remove; [done..|]. intros b Hb. rewrite Hl5, Hl4, Hl3, Hl2 by done.
    repeat case_decide; by destruct (lget (nodes h) b).
  - done.
  - intros b Hb. assert (b ≠ a) by (intros ->; apply Hb; set_solver).
    rewrite Hl5, Hl4, Hl3, Hl2 by done. rewrite decide_False, decide_False; [done| |].
    + intros [-> Hne]. apply Hb. apply elem_of_app. left. auto.
    + intros [-> Hne]. apply Hb. apply elem_of_app. do 2 right. auto.
Qed.

(** [c4a_bucket_insert] pushes a node on the front of a list. *)
Lemma insert_ok h k a l p : lget (nodes h) a = Some p → zget (buckets h) k = Some (hd 0 l) →
  dseg (nodes h) 0 l 0 → NoDup (a :: l) → 0 ∉ l →
  ∃ m, c4a_bucket_insert k a h = Ret (tt, with_nodes m (with_buckets (<[Z.to_nat k := a]> (buckets h)) h)) ∧
    (∀ b, pget m b = pget (nodes h) b) ∧ dseg m 0 (a :: l) 0 ∧
    (∀ b, b ∉ a :: l → lget m b = lget (nodes h) b).
Proof.
  intros Ha Hst Hd [Hal Hnd]%NoDup_cons H0. unfold c4a_bucket_insert.
  assert (∀ h', buckets h' = buckets h → bucket_start k h' = Ret (hd 0 l, h')) as Hbs.
  { intros h' E. unfold bucket_start, getsome. by rewrite E, Hst. }
  rewrite (bind_run _ _ _ _ _ (Hbs h eq_refl)).
  destruct (upd_link_opt (hd 0 l) (set_previous a) (λ q, (a, q.2)) h) as (m1 & E1 & Hp1 & Hl1).
  { destruct l as [|b l]; [done|]. destruct Hd as [Hb _]. eauto. }
  { done. }
  { done. }
  rewrite (bind_run _ _ _ _ _ E1), (bind_run _ _ _ _ _ (Hbs (with_nodes m1 h) eq_refl)).
  assert (a ≠ hd 0 l ∨ hd 0 l = 0) as Hne.
  { destruct l; [by right|left]. intros ->. apply Hal. left. }
  assert (lget m1 a = Some p) as Ha1 by (rewrite Hl1, decide_False by naive_solver; done).
  destruct (upd_link a (set_next (hd 0 l)) (λ q, (q.1, hd 0 l)) (with_nodes m1 h) _ Ha1) as (m2 & E2 & Hp2 & Ha2 & Hl2);
    [done|done|].
  rewrite (bind_run _ _ _ _ _ E2).
  destruct (upd_link a (set_previous 0) (λ q, (0, q.2)) (with_nodes m2 (with_nodes m1 h)) _ Ha2) as (m3 & E3 & Hp3 & Ha3 & Hl3);
    [done|done|].
  rewrite (bind_run _ _ _ _ _ E3). exists m3. split; [by apply (set_bucket_ok k a (with_nodes m3 h) _ Hst)|].
  cbn [nodes with_nodes fst snd] in *. split_and!.
  - intros b. by rewrite Hp3, Hp2, Hp1.
  - split; [done|]. destruct l as [|b l]; [done|]. cbn [dseg hd] in *. destruct Hd as [Hb Hd]. apply NoDup_cons in Hnd as [Hbl Hnd].
    assert (b ≠ a) by (intros ->; apply Hal; left). assert (b ≠ 0) by (intros ->; apply H0; left). split.
    + by rewrite Hl3, Hl2, Hl1, decide_True, Hb.
    + eapply dseg_ext; [|exact Hd]. intros c Hc.
      assert (c ≠ a) by (intros ->; apply Hal; by right).
      rewrite Hl3, Hl2, Hl1, decide_False; [done| |done|done]. intros [-> _]. done.
  - intros b Hb. assert (b ≠ a) by (intros ->; apply Hb; left).
    rewrite Hl3, Hl2, Hl1, decide_False; [done| |done|done].
    intros [-> Hn]. apply Hb. right. destruct l; [done|left].
Qed.
End steps.

(** ** The invariant *)
Definition super : Z := 2 ^ 14.

(** Offset of an address in its superblock. *)
Definition offset (h : c4a_heap) (a : Z) : Z := (a - hstart h) mod super.

Definition heap_end (h : c4a_heap) : Z := hstart h + hpages h * PAGE_SIZE.

Abbreviation blockmap := (gmap Z (Z * bool)).

Definition status_of (u : bool) : Z := if u then C4A_STATUS_USED else C4A_STATUS_FREE.

(** The blocks: headers, tiling, neighbours. *)
Record blocks_ok (h : c4a_heap) (B : blockmap) : Prop := {
  b_start : 0 < hstart h;
  b_pages : 0 <= hpages h ∧ hpages h mod 4 = 0;
  b_end : heap_end h <= 2 ^ 32;
  b_node : ∀ a k u, B !! a = Some (k, u) → ∃ pn pp, pget (nodes h) a = Some (status_of u, k, pn, pp);
  b_stale : ∀ a st k pn pp, pget (nodes h) a = Some (st, k, pn, pp) → B !! a = None → st = C4A_STATUS_FREE;
  b_range : ∀ a k u, B !! a = Some (k, u) →
    5 <= k <= 14 ∧ hstart h <= a ∧ a + 2 ^ k <= heap_end h ∧ offset h a + 2 ^ k <= super;
  b_disj : ∀ a k u b k' u', B !! a = Some (k, u) → B !! b = Some (k', u') → a < b → a + 2 ^ k <= b;
  b_next : ∀ a k u st k' pn pp, B !! a = Some (k, u) → pget (nodes h) a = Some (st, k', pn, pp) →
    (offset h a + 2 ^ k = super ∧ pn = 0) ∨
    (offset h a + 2 ^ k < super ∧ pn = a + 2 ^ k ∧ is_Some (B !! pn));
  b_prev : ∀ a k u st k' pn pp, B !! a = Some (k, u) → pget (nodes h) a = Some (st, k', pn, pp) →
    (offset h a = 0 ∧ pp = 0) ∨
    (offset h a ≠ 0 ∧ ∃ kp up, B !! pp = Some (kp, up) ∧ pp + 2 ^ kp = a)
}.

(** The free lists. *)
Record lists_ok (h : c4a_heap) (B : blockmap) (F : Z → list Z) (X : gset Z) : Prop := {
  l_buckets : ∀ k, 0 <= k <= 14 → zget (buckets h) k = Some (hd 0 (F k));
  l_dseg : ∀ k, 0 <= k <= 14 → dseg (nodes h) 0 (F k) 0;
  l_nodup : ∀ k, 0 <= k <= 14 → NoDup (F k);
  l_mem : ∀ k a, 0 <= k <= 14 → a ∈ F k ↔ B !! a = Some (k, false) ∧ a ∉ X;
  l_held : ∀ a, a ∈ X → ∃ k, B !! a = Some (k, false)
}.

Record heap_ok (h : c4a_heap) (B : blockmap) (F : Z → list Z) (X : gset Z) : Prop := {
  h_blocks : blocks_ok h B;
  h_lists : lists_ok h B F X
}.

Section heap.
Implicit Types (h : c4a_heap) (B : blockmap) (X : gset Z).

Lemma blocks_same h h' B : hstart h' = hstart h → hpages h' = hpages h →
  (∀ a, pget (nodes h') a = pget (nodes h) a) → blocks_ok h B → blocks_ok h' B.
Proof.
  intros Es Ep Hp []. split; unfold heap_end, offset in *; rewrite ?Es, ?Ep; auto.
  - intros a k u. rewrite Hp. auto.
  - intros a st k pn pp. rewrite Hp. eauto.
  - intros a k u st k' pn pp. rewrite Hp. eauto.
  - intros a k u st k' pn pp. rewrite Hp. eauto.
Qed.

Lemma block_pos h B a k u : blocks_ok h B → B !! a = Some (k, u) → 0 < a.
Proof. intros Hb Ha. apply (b_range _ _ Hb) in Ha. pose proof (b_start _ _ Hb). lia. Qed.

Lemma free_member h B F X k a : heap_ok h B F X → 0 <= k <= 14 → a ∈ F k →
  B !! a = Some (k, false) ∧ a ∉ X ∧ 0 < a.
Proof.
  intros [Hb Hl] Hk Ha. apply (l_mem _ _ _ _ Hl k a Hk) in Ha as [Ha Hx].
  split_and!; [done|done|]. by eapply block_pos.
Qed.

(** ** List steps *)
Lemma unlink_listed h B F X k a : heap_ok h B F X → 0 <= k <= 14 → a ∈ F k →
  ∃ h' F', c4a_node_unlink a h = Ret (tt, h') ∧ heap_ok h' B F' ({[a]} ∪ X) ∧
    (∀ j, j ≠ k → F' j = F j) ∧ lget (nodes h') a = Some (0, 0) ∧
    (∀ x, x ∈ X → lget (nodes h') x = lget (nodes h) x) ∧ (∀ x, pget (nodes h') x = pget (nodes h) x) ∧
    hstart h' = hstart h ∧ hpages h' = hpages h.
Proof.
  intros Hok Hk Ha. pose proof Hok as [Hb Hl]. destruct (free_member _ _ _ _ _ _ Hok Hk Ha) as (HBa & Hax & Hpos).
  destruct (list_elem_of_split _ _ Ha) as (l1 & l2 & E).
  assert (∀ b, b ∈ F k → 0 < b) as Hpos'.
  { intros b Hbk. by destruct (free_member _ _ _ _ _ _ Hok Hk Hbk) as (_ & _ & ?). }
  destruct (b_node _ _ Hb _ _ _ HBa) as (pn & pp & Hpa).
  pose proof (l_nodup _ _ _ _ Hl k Hk) as Hnd. rewrite E in *.
  destruct (unlink_ok h k _ pn pp l1 a l2 Hpa) as (m & Em & Hpm & Hdm & Hla & Hlo).
  { rewrite <- E. by apply (l_buckets _ _ _ _ Hl). }
  { rewrite <- E. by apply (l_dseg _ _ _ _ Hl). }
  { done. }
  { intros H0. apply Hpos' in H0. lia. }
  eexists _, (λ j, if decide (j = k) then l1 ++ l2 else F j). split; [exact Em|].
  cbn [nodes with_nodes with_buckets hstart hpages]. split_and!; try done.
  - split; [by eapply blocks_same; [..|exact Hb]|]. split; cbn [nodes with_nodes with_buckets buckets].
    + intros j Hj. case_decide as Ejk.
      * subst. apply zget_Some. split; [lia|]. rewrite list_lookup_insert_eq; [done|].
        pose proof (l_buckets _ _ _ _ Hl k Hk) as [_ Hlen%lookup_lt_Some]%zget_Some. done.
      * pose proof (l_buckets _ _ _ _ Hl j Hj) as [_ Hj']%zget_Some. apply zget_Some. split; [lia|].
        rewrite list_lookup_insert_ne by lia. done.
    + intros j Hj. case_decide as Ejk; [done|]. eapply dseg_ext; [|by apply (l_dseg _ _ _ _ Hl)].
      intros b Hbj. apply Hlo. rewrite <- E. intros Hbk.
      apply (l_mem _ _ _ _ Hl _ _ Hj) in Hbj as [Hbj _]. apply (l_mem _ _ _ _ Hl _ _ Hk) in Hbk as [Hbk _].
      congruence.
    + intros j Hj. case_decide; [|by apply (l_nodup _ _ _ _ Hl)].
      apply NoDup_app in Hnd as (? & Hdis & [_ ?]%NoDup_cons). apply NoDup_app. split_and!; [done| |done].
      intros b Hb1 Hb2. eapply Hdis; [done|by right].
    + intros j b Hj. rewrite not_elem_of_union, not_elem_of_singleton. case_decide as Ejk.
      * subst j. pose proof (l_mem _ _ _ _ Hl k b Hk) as Hm. rewrite E in Hm.
        apply NoDup_app in Hnd as (_ & Hdis & [Ha2 _]%NoDup_cons).
        rewrite elem_of_app, elem_of_cons in Hm. rewrite elem_of_app. split.
        -- intros Hin. assert (b ≠ a) by (intros ->; destruct Hin as [Hin|Hin]; [eapply Hdis; [done|left]|done]).
           destruct Hm as [Hm _]. destruct Hm as [? ?]; naive_solver.
        -- intros (HB & Hba & Hbx). destruct Hm as [_ Hm]. naive_solver.
      * rewrite (l_mem _ _ _ _ Hl j b Hj). split; [|naive_solver]. intros [HB Hx]. split_and!; [done| |done].
        intros ->. congruence.
    + intros b [->%elem_of_singleton|Hbx]%elem_of_union; [by eexists|]. by apply (l_held _ _ _ _ Hl).
  - intros j Hj. by rewrite decide_False.
  - intros x Hx. apply Hlo. rewrite <- E. intros Hxk. apply (l_mem _ _ _ _ Hl _ _ Hk) in Hxk as [_ ?]. done.
Qed.

Lemma insert_held h B F X k a : heap_ok h B F X → a ∈ X → B !! a = Some (k, false) →
  ∃ h', c4a_bucket_insert k a h = Ret (tt, h') ∧
    heap_ok h' B (λ j, if decide (j = k) then a :: F k else F j) (X ∖ {[a]}) ∧
    (∀ x, x ∈ X → x ≠ a → lget (nodes h') x = lget (nodes h) x) ∧
    (∀ x, pget (nodes h') x = pget (nodes h) x) ∧ hstart h' = hstart h ∧ hpages h' = hpages h.
Proof.
  intros Hok Hax HBa. pose proof Hok as [Hb Hl].
  assert (0 <= k <= 14) as Hk by (apply (b_range _ _ Hb) in HBa; lia).
  assert (a ∉ F k) as Hak by (intros Hin; apply (l_mem _ _ _ _ Hl k a Hk) in Hin as [_ ?]; done).
  destruct (b_node _ _ Hb _ _ _ HBa) as (pn & pp & (n & En & _)%pget_Some).
  destruct (insert_ok h k a (F k) (links n)) as (m & Em & Hpm & Hdm & Hlo).
  { unfold lget. by rewrite En. }
  { by apply (l_buckets _ _ _ _ Hl). }
  { by apply (l_dseg _ _ _ _ Hl). }
  { constructor; [done|]. by apply (l_nodup _ _ _ _ Hl). }
  { intros H0. destruct (free_member _ _ _ _ _ _ Hok Hk H0) as (_ & _ & ?). lia. }
  eexists. split; [exact Em|]. cbn [nodes with_nodes with_buckets hstart hpages]. split_and!; try done.
  - split; [by eapply blocks_same; [..|exact Hb]|]. split; cbn [nodes with_nodes with_buckets buckets].
    + intros j Hj. case_decide as Ejk.
      * subst. apply zget_Some. split; [lia|]. rewrite list_lookup_insert_eq; [done|].
        pose proof (l_buckets _ _ _ _ Hl k Hk) as [_ Hlen%lookup_lt_Some]%zget_Some. done.
      * pose proof (l_buckets _ _ _ _ Hl j Hj) as [_ Hj']%zget_Some. apply zget_Some. split; [lia|].
        rewrite list_lookup_insert_ne by lia. done.
    + intros j Hj. case_decide as Ejk; [done|]. eapply dseg_ext; [|by apply (l_dseg _ _ _ _ Hl)].
      intros b Hbj. apply Hlo. intros [->|Hbk]%elem_of_cons.
      * apply (l_mem _ _ _ _ Hl _ _ Hj) in Hbj as [_ ?]. done.
      * apply (l_mem _ _ _ _ Hl _ _ Hj) in Hbj as [Hbj _]. apply (l_mem _ _ _ _ Hl _ _ Hk) in Hbk as [Hbk _].
        congruence.
    + intros j Hj. case_decide; [|by apply (l_nodup _ _ _ _ Hl)]. constructor; [done|].
      by apply (l_nodup _ _ _ _ Hl).
    + intros j b Hj. rewrite not_elem_of_difference, elem_of_singleton. case_decide as Ejk.
      * subst j. rewrite elem_of_cons, (l_mem _ _ _ _ Hl k b Hk). split; [naive_solver|].
        intros [HB Hx]. destruct (decide (b = a)); naive_solver.
      * rewrite (l_mem _ _ _ _ Hl j b Hj). split; [naive_solver|]. intros [HB [Hx| ->]]; [done|]. congruence.
    + intros b [Hbx _]%elem_of_difference. by apply (l_held _ _ _ _ Hl).
  - intros x Hx Hxa. apply Hlo. intros [->|Hxk]%elem_of_cons; [done|].
    apply (l_mem _ _ _ _ Hl _ _ Hk) in Hxk as [_ ?]. done.
Qed.

(** ** Header steps *)

(** Update of a header field that is not a link. *)
Lemma upd_phys a f g h p : pget (nodes h) a = Some p →
  (∀ n, phys (f n) = g (phys n)) → (∀ n, links (f n) = links n) →
  ∃ m, upd a f h = Ret (tt, with_nodes m h) ∧
    (∀ b, pget m b = if decide (b = a) then Some (g p) else pget (nodes h) b) ∧
    (∀ b, lget m b = lget (nodes h) b).
Proof.
  intros (n & En & <-)%pget_Some Hp Hl. eexists. split_and!; [by apply hupd_ok| |].
  - intros b. unfold pget. case_decide as Hb.
    + subst. rewrite lookup_insert_eq. simpl. by rewrite Hp.
    + by rewrite lookup_insert_ne.
  - intros b. unfold lget. destruct (decide (a = b)) as [<-|Hb].
    + rewrite lookup_insert_eq, En. simpl. by rewrite Hl.
    + by rewrite lookup_insert_ne.
Qed.

Lemma lists_same h h' B B' F X X' : buckets h' = buckets h →
  (∀ a k, B !! a = Some (k, false) → a ∉ X → lget (nodes h') a = lget (nodes h) a) →
  (∀ a k, B' !! a = Some (k, false) ∧ a ∉ X' ↔ B !! a = Some (k, false) ∧ a ∉ X) →
  (∀ a, a ∈ X' → ∃ k, B' !! a = Some (k, false)) →
  lists_ok h B F X → lists_ok h' B' F X'.
Proof.
  intros Eb Hlg HB HX []. split; rewrite ?Eb; auto.
  - intros k Hk. eapply dseg_ext; [|by apply l_dseg0]. intros a Ha.
    apply (l_mem0 k a Hk) in Ha as [? ?]. by eapply Hlg.
  - intros k a Hk. by rewrite HB, l_mem0.
Qed.

(** A header status change, with the block map following. *)
Lemma set_status_ok h B F X X' a k (u u' : bool) : heap_ok h B F X → B !! a = Some (k, u) →
  X' = (if u' then X ∖ {[a]} else {[a]} ∪ X) → (u = true ∨ a ∈ X) →
  ∃ m, upd a (set_status (status_of u')) h = Ret (tt, with_nodes m h) ∧
    heap_ok (with_nodes m h) (<[a := (k, u')]> B) F X' ∧ (∀ b, lget m b = lget (nodes h) b).
Proof.
  intros [Hb Hl] HBa HX' Hu. destruct (b_node _ _ Hb _ _ _ HBa) as (pn & pp & Hpa).
  destruct (upd_phys a (set_status (status_of u')) (λ p, (status_of u', p.1.1.2, p.1.2, p.2)) h _ Hpa)
    as (m & E & Hp & Hlg); [done|done|].
  exists m. split_and!; [done| |done]. split.
  - destruct Hb. split; cbn [nodes with_nodes hstart hpages]; auto.
    + intros b kb ub. rewrite Hp. destruct (decide (b = a)) as [->|Hba].
      * rewrite lookup_insert_eq. intros [= <- <-]. eauto.
      * rewrite lookup_insert_ne by done. auto.
    + intros b st kb pnb ppb. rewrite Hp. destruct (decide (b = a)) as [->|Hba].
      * by rewrite lookup_insert_eq.
      * rewrite lookup_insert_ne by done. eauto.
    + intros b kb ub. rewrite lookup_insert_Some. intros [[<- [= <- <-]]|[_ ?]]; [by apply (b_range0 _ _ _ HBa)|by eapply b_range0].
    + intros b kb ub c kc uc. rewrite !lookup_insert_Some.
      intros [[<- [= <- <-]]|[_ ?]] [[<- [= <- <-]]|[_ ?]]; [lia|by eapply b_disj0..].
    + intros b kb ub st k' pnb ppb HBb. rewrite Hp. intros Hpb.
      assert (∀ y, is_Some (B !! y) → is_Some (<[a:=(k, u')]> B !! y)) as His by (intros y Hy; by rewrite lookup_insert_is_Some' by (right; done); right).
      destruct (decide (b = a)) as [->|Hba].
      * rewrite lookup_insert_eq in HBb. injection HBb as <- <-. injection Hpb as <- <- <- <-.
        destruct (b_next0 _ _ _ _ _ _ _ HBa Hpa); naive_solver.
      * rewrite lookup_insert_ne in HBb by done. destruct (b_next0 _ _ _ _ _ _ _ HBb Hpb); naive_solver.
    + intros b kb ub st k' pnb ppb HBb. rewrite Hp. intros Hpb.
      assert (∀ y kp up, B !! y = Some (kp, up) → ∃ up', <[a:=(k, u')]> B !! y = Some (kp, up')) as His.
      { intros y kp up Hy. destruct (decide (y = a)) as [->|]; [rewrite lookup_insert_eq; naive_solver|].
        rewrite lookup_insert_ne by done. eauto. }
      destruct (decide (b = a)) as [->|Hba].
      * rewrite lookup_insert_eq in HBb. injection HBb as <- <-. injection Hpb as <- <- <- <-.
        destruct (b_prev0 _ _ _ _ _ _ _ HBa Hpa) as [?|[? (kp & up & ? & ?)]]; [by left|right]. split; [done|].
        destruct (His _ _ _ H0) as [up' ?]. eauto.
      * rewrite lookup_insert_ne in HBb by done.
        destruct (b_prev0 _ _ _ _ _ _ _ HBb Hpb) as [?|[? (kp & up & ? & ?)]]; [by left|right]. split; [done|].
        destruct (His _ _ _ H0) as [up' ?]. eauto.
  - eapply lists_same; [..|exact Hl]; cbn [nodes with_nodes buckets]; [done|auto| |].
    + intros b kb. subst X'. destruct (decide (b = a)) as [->|Hba].
      * rewrite lookup_insert_eq, HBa. destruct u', u; naive_solver set_solver.
      * rewrite lookup_insert_ne by done. destruct u'; set_solver.
    + intros b Hbx. subst X'. destruct (decide (b = a)) as [->|Hba].
      * rewrite lookup_insert_eq. destruct u'; [set_solver|eauto].
      * rewrite lookup_insert_ne by done. apply (l_held _ _ _ _ Hl). destruct u'; set_solver.
Qed.

(** ** Offsets *)
Lemma offset_add h a d : 0 <= d → offset h a + d < super → offset h (a + d) = offset h a + d.
Proof.
  unfold offset. intros Hd Hlt. replace (a + d - hstart h) with ((a - hstart h) + d) by lia.
  pose proof (Z.mod_pos_bound (a - hstart h) super ltac:(done)).
  rewrite <- Z.add_mod_idemp_l by done. apply Z.mod_small. lia.
Qed.

Lemma offset_wrap h a d : 0 <= d → offset h a + d = super → offset h (a + d) = 0.
Proof.
  unfold offset. intros Hd Heq. replace (a + d - hstart h) with ((a - hstart h) + d) by lia.
  rewrite <- Z.add_mod_idemp_l by done. rewrite Heq. done.
Qed.

Lemma offset_nonneg h a : 0 <= offset h a.
Proof. apply Z.mod_pos_bound. done. Qed.

Lemma pow2_half k : 1 <= k → 2 ^ k = 2 * 2 ^ (k - 1).
Proof. intros Hk. rewrite <- Z.pow_succ_r by lia. f_equal. lia. Qed.

Lemma pow2_pos k : 0 <= k → 0 < 2 ^ k.
Proof. intros. apply Z.pow_pos_nonneg; lia. Qed.

(** ** Splitting *)
Definition halves B (a k : Z) : blockmap :=
  <[a + 2 ^ (k - 1) := (k - 1, false)]> (<[a := (k - 1, false)]> B).

(** The headers after a split, whatever the order of the writes. *)
Lemma split_headers h B a k pn pp : blocks_ok h B → B !! a = Some (k, false) → 6 <= k →
  pget (nodes h) a = Some (C4A_STATUS_FREE, k, pn, pp) →
  let b := a + 2 ^ (k - 1) in
  ∃ m, c4a_split_node a h = Ret (b, with_nodes m h) ∧
    (∀ x, pget m x = if decide (x = a) then Some (C4A_STATUS_FREE, k - 1, b, pp)
       else if decide (x = b) then Some (C4A_STATUS_FREE, k - 1, pn, a)
       else if decide (x = pn ∧ pn ≠ 0) then (λ p : Z * Z * Z * Z, (p.1, b)) <$> pget (nodes h) x
       else pget (nodes h) x) ∧
    (∀ x, x ≠ a → x ≠ b → lget m x = lget (nodes h) x).
Proof.
  intros Hb HBa Hk Hpa b. pose proof (b_range _ _ Hb _ _ _ HBa) as (Hk' & Hs & He & _).
  pose proof (b_start _ _ Hb). pose proof (b_end _ _ Hb).
  pose proof (pow2_half k ltac:(lia)) as Hhalf. pose proof (pow2_pos (k - 1) ltac:(lia)).
  assert (a ≠ b) as Hab by (subst b; lia).
  assert (pn ≠ 0 → pn ≠ a ∧ pn ≠ b ∧ is_Some (B !! pn)) as Hpn.
  { intros Hne. destruct (b_next _ _ Hb _ _ _ _ _ _ _ HBa Hpa) as [[_ ?]|(_ & -> & ?)]; [done|].
    subst b. split_and!; [lia|lia|done]. }
  pose proof Hpa as (n & En & Hn)%pget_Some. injection Hn as Hst Hbk Hpn' Hpp.
  unfold c4a_split_node. rewrite (bind_run _ _ _ _ _ (hload_ok _ _ _ En)), Hbk.
  rewrite Z.shiftl_1_l. rewrite u32_small by lia. fold b.
  rewrite (bind_run _ _ _ _ _ (hupd_ok a _ h n En)).
  erewrite bind_run by (apply hload_ok; cbn [nodes with_nodes]; apply lookup_insert_eq).
  unfold store at 1. rewrite (bind_run (modify _) _ _ tt _) by reflexivity.
  erewrite bind_run by (apply hupd_ok; cbn [nodes with_nodes]; rewrite lookup_insert_ne by done; apply lookup_insert_eq).
  erewrite bind_run by (apply hupd_ok; cbn [nodes with_nodes]; apply lookup_insert_eq).
  erewrite bind_run by (apply hload_ok; cbn [nodes with_nodes]; rewrite !lookup_insert_ne by done; apply lookup_insert_eq).
  cbn [phys_next set_bucket set_next set_phys_next status bucket next previous phys_prev]. rewrite Hpn', Hst.
  replace (u16 (k - 1)) with (k - 1) by (symmetry; apply wrapu_small; lia).
  assert (phys (set_phys_next b (set_next b (set_bucket (k - 1) n))) = (C4A_STATUS_FREE, k - 1, b, pp)) as Ephys
    by (unfold phys; simpl; by rewrite Hst, Hpp).
  unfold truthy. destruct (Z.eqb_spec pn 0) as [->|Hne]; cbn [negb].
  - eexists. split; [reflexivity|]. cbn [nodes with_nodes]. split.
    + intros x. unfold pget. destruct (decide (x = a)) as [->|Hxa]; [by rewrite lookup_insert_eq; simpl; rewrite Ephys|].
      rewrite !(lookup_insert_ne _ a x) by done. destruct (decide (x = b)) as [->|Hxb]; [by rewrite lookup_insert_eq|].
      rewrite lookup_insert_ne, lookup_insert_ne by done. by rewrite decide_False by naive_solver.
    + intros x Hxa Hxb. unfold lget. by rewrite !lookup_insert_ne by done.
  - destruct (Hpn Hne) as (Hpa' & Hpb & [[kn un] HBn]).
    destruct (b_node _ _ Hb _ _ _ HBn) as (pn2 & pp2 & (nn & Enn & Hnn)%pget_Some).
    erewrite bind_run by (apply hupd_ok; cbn [nodes with_nodes]; rewrite !lookup_insert_ne by done; exact Enn).
    eexists. split; [reflexivity|]. cbn [nodes with_nodes]. split.
    + intros x. unfold pget. destruct (decide (x = a)) as [->|Hxa].
      { rewrite lookup_insert_ne by done. rewrite lookup_insert_eq. simpl. by rewrite Ephys. }
      destruct (decide (x = b)) as [->|Hxb].
      { rewrite lookup_insert_ne by done. rewrite !(lookup_insert_ne _ a b) by done. by rewrite lookup_insert_eq. }
      destruct (decide (x = pn)) as [->|Hxn].
      { rewrite lookup_insert_eq, decide_True, Enn by done. done. }
      rewrite !lookup_insert_ne by done. by rewrite decide_False by naive_solver.
    + intros x Hxa Hxb. unfold lget. destruct (decide (x = pn)) as [->|Hxn].
      { by rewrite lookup_insert_eq, Enn. }
      by rewrite !lookup_insert_ne by done.
Qed.

(** Splitting a held block leaves two held halves. *)
Lemma halves_lookup B a k x : a ≠ a + 2 ^ (k - 1) →
  halves B a k !! x = if decide (x = a) then Some (k - 1, false)
    else if decide (x = a + 2 ^ (k - 1)) then Some (k - 1, false) else B !! x.
Proof.
  intros Hab. unfold halves. destruct (decide (x = a)) as [->|Hxa].
  - rewrite lookup_insert_ne by done. apply lookup_insert_eq.
  - destruct (decide (x = a + 2 ^ (k - 1))) as [->|Hxb]; [apply lookup_insert_eq|].
    by rewrite !lookup_insert_ne by done.
Qed.

Ltac by_place2 x a b :=
  destruct (decide (x = a)); [subst x|destruct (decide (x = b)); [subst x|]].
Ltac by_place3 x a b c :=
  destruct (decide (x = a)); [subst x|destruct (decide (x = b)); [subst x|destruct (decide (x = c ∧ c ≠ 0))]].

Lemma split_blocks h h' B a k pn pp : blocks_ok h B → B !! a = Some (k, false) → 6 <= k →
  pget (nodes h) a = Some (C4A_STATUS_FREE, k, pn, pp) →
  let b := a + 2 ^ (k - 1) in
  hstart h' = hstart h → hpages h' = hpages h →
  (∀ x, pget (nodes h') x = if decide (x = a) then Some (C4A_STATUS_FREE, k - 1, b, pp)
     else if decide (x = b) then Some (C4A_STATUS_FREE, k - 1, pn, a)
     else if decide (x = pn ∧ pn ≠ 0) then (λ p : Z * Z * Z * Z, (p.1, b)) <$> pget (nodes h) x
     else pget (nodes h) x) →
  blocks_ok h' (halves B a k).
Proof.
  intros Hb HBa Hk Hpa b Es Ep Hm. pose proof (b_range _ _ Hb _ _ _ HBa) as (Hk' & Hs & He & Ho).
  pose proof (pow2_half k ltac:(lia)) as Hhalf. pose proof (pow2_pos (k - 1) ltac:(lia)) as Hpos.
  assert (a ≠ b) as Hab by (subst b; lia).
  pose proof (offset_nonneg h a) as Ho0.
  pose proof (offset_add h a (2 ^ (k - 1)) ltac:(lia) ltac:(lia)) as Hob. fold b in Hob.
  assert (B !! b = None) as HBb.
  { destruct (B !! b) as [[kb ub]|] eqn:E; [|done]. pose proof (b_disj _ _ Hb _ _ _ _ _ _ HBa E). subst b. lia. }
  assert (∀ x, halves B a k !! x = if decide (x = a) then Some (k - 1, false)
    else if decide (x = b) then Some (k - 1, false) else B !! x) as Hh by (intros; by apply halves_lookup).
  assert (∀ y, is_Some (B !! y) → is_Some (halves B a k !! y)) as His.
  { intros y Hy. rewrite Hh. repeat case_decide; eauto. }
  assert (∀ x, offset h' x = offset h x) as Eo by (intros; unfold offset; by rewrite Es).
  assert (heap_end h' = heap_end h) as Ee by (unfold heap_end; by rewrite Es, Ep).
  pose proof Hb as [Hst Hpg Hend Hnode Hstale Hrange Hdisj Hnext Hprev].
  split; rewrite ?Es, ?Ep, ?Ee; try done.
  - intros x kx ux. rewrite Hh, Hm. by_place3 x a b pn.
    + intros [= <- <-]. by eexists _, _.
    + intros [= <- <-]. by eexists _, _.
    + intros HBx. destruct (Hnode _ _ _ HBx) as (pnx & ppx & ->). eauto.
    + eauto.
  - intros x st kx pnx ppx. rewrite Hh, Hm. by_place3 x a b pn; [intros _ [=]|intros _ [=]|..].
    + intros Hx HBx. destruct (pget (nodes h) x) as [[[[? ?] ?] ?]|] eqn:E; [|done].
      injection Hx as <- <- <- <-. eauto.
    + eauto.
  - intros x kx ux. rewrite Hh, Eo. by_place2 x a b.
    + intros [= <- <-]. lia.
    + intros [= <- <-]. rewrite Hob. unfold b in *. lia.
    + intros HBx. by apply (Hrange _ _ _ HBx).
  - intros x kx ux y ky uy. rewrite !Hh. by_place2 x a b; by_place2 y a b.
    + lia.
    + intros [= <- <-] _ _. unfold b. lia.
    + intros [= <- <-] HBy Hlt. pose proof (Hdisj _ _ _ _ _ _ HBa HBy Hlt). lia.
    + unfold b. lia.
    + lia.
    + intros [= <- <-] HBy Hlt. unfold b in *. pose proof (Hdisj _ _ _ _ _ _ HBa HBy ltac:(lia)). lia.
    + intros HBx _ Hlt. pose proof (Hdisj _ _ _ _ _ _ HBx HBa Hlt). lia.
    + intros HBx _ Hlt. unfold b in *. assert (x < a ∨ a < x) as [Hc|Hc] by lia.
      * pose proof (Hdisj _ _ _ _ _ _ HBx HBa Hc). lia.
      * pose proof (Hdisj _ _ _ _ _ _ HBa HBx Hc). lia.
    + intros HBx HBy Hlt. by apply (Hdisj _ _ _ _ _ _ HBx HBy).
  - intros x kx ux st kx' pnx ppx. rewrite Hh, Hm, Eo. by_place3 x a b pn.
    + intros [= <- <-] [= <- <- <- <-]. right. split_and!; [lia|done|]. rewrite Hh.
      rewrite decide_False, decide_True by done. eauto.
    + intros [= <- <-] [= <- <- <- <-]. rewrite Hob. unfold b.
      destruct (Hnext _ _ _ _ _ _ _ HBa Hpa) as [[? ->]|(? & -> & Hn)]; [left; lia|right].
      split_and!; [lia|lia|by apply His].
    + intros HBx Hx. destruct (pget (nodes h) x) as [[[[? ?] ?] ?]|] eqn:E; [|done]. injection Hx as <- <- <- <-.
      destruct (Hnext _ _ _ _ _ _ _ HBx E) as [?|(? & ? & Hn)]; [by left|right; auto].
    + intros HBx Hx. destruct (Hnext _ _ _ _ _ _ _ HBx Hx) as [?|(? & ? & Hn)]; [by left|right; auto].
  - intros x kx ux st kx' pnx ppx. rewrite Hh, Hm, Eo. by_place3 x a b pn.
    + intros [= <- <-] [= <- <- <- <-]. destruct (Hprev _ _ _ _ _ _ _ HBa Hpa) as [?|[? (kp & up & HBp & Hp)]]; [by left|right].
      split; [done|]. exists kp, up. rewrite Hh. pose proof (pow2_pos kp ltac:(apply (Hrange _ _ _) in HBp; lia)).
      rewrite decide_False by lia. rewrite decide_False by (intros ->; congruence). done.
    + intros [= <- <-] [= <- <- <- <-]. right. split; [lia|]. exists (k - 1), false. rewrite Hh, decide_True; done.
    + intros HBx Hx. match goal with Hd : x = pn ∧ _ |- _ => destruct Hd as [-> Hne] end.
      destruct (pget (nodes h) pn) as [[[[? ?] ?] ?]|] eqn:E; [|done]. injection Hx as <- <- <- <-.
      right. destruct (Hnext _ _ _ _ _ _ _ HBa Hpa) as [[_ ?]|(Hlt & -> & _)]; [done|]. split.
      * rewrite offset_add by lia. lia.
      * exists (k - 1), false. rewrite Hh. rewrite decide_False, decide_True by done. split; [done|]. unfold b. lia.
    + intros HBx Hx. destruct (Hprev _ _ _ _ _ _ _ HBx Hx) as [?|[? (kp & up & HBp & Hp)]]; [by left|right].
      split; [done|]. exists kp, up. split; [|done]. rewrite Hh. rewrite decide_False.
      * rewrite decide_False; [done|]. intros ->. congruence.
      * intros ->. rewrite HBa in HBp. injection HBp as <- <-.
        destruct (Hnext _ _ _ _ _ _ _ HBa Hpa) as [[Hw _]|(Hlt & -> & _)].
        -- subst x. rewrite offset_wrap in * by lia. done.
        -- subst x. assert (0 < a + 2 ^ k) by lia. naive_solver lia.
Qed.

(** ** Merging *)
Definition joined B (a b k : Z) : blockmap := <[a := (k + 1, false)]> (delete b B).

Lemma joined_lookup B a b k x : a ≠ b →
  joined B a b k !! x = if decide (x = a) then Some (k + 1, false)
    else if decide (x = b) then None else B !! x.
Proof.
  intros Hab. unfold joined. destruct (decide (x = a)) as [->|Hxa]; [apply lookup_insert_eq|].
  rewrite lookup_insert_ne by done. destruct (decide (x = b)) as [->|Hxb]; [apply lookup_delete_eq|].
  by rewrite lookup_delete_ne by done.
Qed.

(** The statements of [c4a_do_coalesce] after the two unlinks. *)
Definition merge_headers (a b : Z) : M c4a_heap bool :=
  upd a (λ n, set_bucket (u16 (bucket n + 1)) n);;
  nb ← load b;
  upd a (set_phys_next (phys_next nb));;
  na ← load a;
  (if truthy (phys_next na) then upd (phys_next na) (set_phys_prev a) else mret tt);;
  mret true.

Lemma merge_headers_ok h B a b k pp pnb ppb : blocks_ok h B →
  B !! a = Some (k, false) → B !! b = Some (k, false) → a ≠ b →
  pget (nodes h) a = Some (C4A_STATUS_FREE, k, b, pp) →
  pget (nodes h) b = Some (C4A_STATUS_FREE, k, pnb, ppb) →
  ∃ m, merge_headers a b h = Ret (true, with_nodes m h) ∧
    (∀ x, pget m x = if decide (x = a) then Some (C4A_STATUS_FREE, k + 1, pnb, pp)
       else if decide (x = pnb ∧ pnb ≠ 0) then (λ p : Z * Z * Z * Z, (p.1, a)) <$> pget (nodes h) x
       else pget (nodes h) x) ∧
    (∀ x, lget m x = lget (nodes h) x).
Proof.
  intros Hb HBa HBb Hab Hpa Hpb. pose proof (b_range _ _ Hb _ _ _ HBa) as (Hk & _).
  pose proof (b_range _ _ Hb _ _ _ HBb) as (_ & Hbs & _). pose proof (b_start _ _ Hb) as Hst.
  assert (a < b) as Hlt.
  { destruct (b_next _ _ Hb _ _ _ _ _ _ _ HBa Hpa) as [[_ ?]|(_ & ? & _)]; [lia|].
    pose proof (pow2_pos k). lia. }
  destruct (upd_phys a (λ n, set_bucket (u16 (bucket n + 1)) n) (λ p, (p.1.1.1, u16 (p.1.1.2 + 1), p.1.2, p.2)) h _ Hpa)
    as (m1 & E1 & Hp1 & Hl1); [done|done|].
  unfold merge_headers. rewrite (bind_run _ _ _ _ _ E1).
  assert (pget m1 b = Some (C4A_STATUS_FREE, k, pnb, ppb)) as Hpb1 by (rewrite Hp1, decide_False; done).
  pose proof Hpb1 as (nb & Enb & Hnb)%pget_Some. injection Hnb as _ _ Hnb _.
  rewrite (bind_run (load b) _ _ _ _ (hload_ok b (with_nodes m1 h) _ Enb)), Hnb.
  assert (pget m1 a = Some (C4A_STATUS_FREE, k + 1, b, pp)) as Hpa1.
  { rewrite Hp1, decide_True by done. cbn [fst snd]. replace (u16 (k + 1)) with (k + 1); [done|].
    symmetry. apply wrapu_small. lia. }
  destruct (upd_phys a (set_phys_next pnb) (λ p, (p.1.1.1, p.1.1.2, pnb, p.2)) (with_nodes m1 h) _ Hpa1)
    as (m2 & E2 & Hp2 & Hl2); [done|done|].
  rewrite (bind_run _ _ _ _ _ E2). cbn [fst snd] in Hp2.
  assert (pget m2 a = Some (C4A_STATUS_FREE, k + 1, pnb, pp)) as Hpa2 by (rewrite Hp2, decide_True by done; done).
  pose proof Hpa2 as (na & Ena & Hna)%pget_Some. injection Hna as _ _ Hna _.
  rewrite (bind_run (load a) _ _ _ _ (hload_ok a (with_nodes m2 h) _ Ena)), Hna.
  unfold truthy. destruct (Z.eqb_spec pnb 0) as [->|Hne]; cbn [negb].
  - exists m2. split_and!; [done| |].
    + intros x. rewrite Hp2. destruct (decide (x = a)) as [->|Hxa]; [done|].
      rewrite decide_False by naive_solver. cbn [nodes with_nodes]. rewrite Hp1. by rewrite decide_False.
    + intros x. rewrite Hl2. cbn [nodes with_nodes]. by rewrite Hl1.
  - assert (pnb ≠ a ∧ ∃ q, pget (nodes h) pnb = Some q) as (Hpna & q & Hq).
    { destruct (b_next _ _ Hb _ _ _ _ _ _ _ HBb Hpb) as [[_ ?]|(_ & -> & [[kn un] HBn])]; [done|].
      pose proof (pow2_pos k). split; [lia|]. destruct (b_node _ _ Hb _ _ _ HBn) as (? & ? & ->). eauto. }
    assert (pget m2 pnb = Some q) as Hq2.
    { rewrite Hp2, decide_False by done. cbn [nodes with_nodes]. by rewrite Hp1, decide_False. }
    destruct (upd_phys pnb (set_phys_prev a) (λ p, (p.1, a)) (with_nodes m2 h) _ Hq2)
      as (m3 & E3 & Hp3 & Hl3); [done|done|].
    cbn [nodes with_nodes] in *. exists m3. rewrite (bind_run _ _ _ _ _ E3). split_and!; [done| |].
    + intros x. rewrite Hp3. destruct (decide (x = a)) as [->|Hxa].
      { by rewrite decide_False. }
      destruct (decide (x = pnb)) as [->|Hxp].
      { by rewrite decide_True, Hq. }
      rewrite decide_False by naive_solver. by rewrite Hp2, Hp1, !decide_False.
    + intros x. by rewrite Hl3, Hl2, Hl1.
Qed.

Lemma merge_blocks h h' B a b k pp pnb ppb : blocks_ok h B →
  B !! a = Some (k, false) → B !! b = Some (k, false) →
  pget (nodes h) a = Some (C4A_STATUS_FREE, k, b, pp) → b ≠ 0 →
  pget (nodes h) b = Some (C4A_STATUS_FREE, k, pnb, ppb) →
  hstart h' = hstart h → hpages h' = hpages h →
  (∀ x, pget (nodes h') x = if decide (x = a) then Some (C4A_STATUS_FREE, k + 1, pnb, pp)
     else if decide (x = pnb ∧ pnb ≠ 0) then (λ p : Z * Z * Z * Z, (p.1, a)) <$> pget (nodes h) x
     else pget (nodes h) x) →
  blocks_ok h' (joined B a b k).
Proof.
  intros Hb HBa HBb Hpa Hb0 Hpb Es Ep Hm.
  pose proof (b_range _ _ Hb _ _ _ HBa) as (Hk & Hs & He & Ho).
  pose proof (b_range _ _ Hb _ _ _ HBb) as (_ & Hs2 & He2 & Ho2).
  pose proof (pow2_pos k ltac:(lia)) as Hpos.
  assert (2 ^ (k + 1) = 2 * 2 ^ k) as Hdbl by (rewrite Z.pow_add_r by lia; lia).
  destruct (b_next _ _ Hb _ _ _ _ _ _ _ HBa Hpa) as [[_ ?]|(Hlt & Eb & _)]; [done|].
  pose proof (offset_add h a (2 ^ k) ltac:(lia) Hlt) as Hob. rewrite <- Eb in Hob.
  pose proof (offset_nonneg h a) as Ho0.
  assert (k + 1 <= 14) as Hk14.
  { assert (2 ^ (k + 1) <= 2 ^ 14) as Hpw by (unfold super in *; lia).
    apply Z.pow_le_mono_r_iff in Hpw; lia. }
  assert (a ≠ b) as Hab by lia.
  assert (∀ x, joined B a b k !! x = if decide (x = a) then Some (k + 1, false)
    else if decide (x = b) then None else B !! x) as Hj by (intros; by apply joined_lookup).
  assert (∀ y, y ≠ b → is_Some (B !! y) → is_Some (joined B a b k !! y)) as His.
  { intros y Hy HBy. rewrite Hj. destruct (decide (y = a)); [by eexists|]. by rewrite decide_False. }
  assert (∀ x, offset h' x = offset h x) as Eo by (intros; unfold offset; by rewrite Es).
  assert (heap_end h' = heap_end h) as Ee by (unfold heap_end; by rewrite Es, Ep).
  pose proof Hb as [Hst Hpg Hend Hnode Hstale Hrange Hdisj Hnext Hprev].
  assert (pnb ≠ 0 → pnb = b + 2 ^ k) as Hpnb.
  { intros Hne. by destruct (Hnext _ _ _ _ _ _ _ HBb Hpb) as [[_ ?]|(_ & ? & _)]. }
  split; rewrite ?Es, ?Ep, ?Ee; try done.
  - intros x kx ux. rewrite Hj, Hm. destruct (decide (x = a)) as [->|Hxa].
    + intros [= <- <-]. by eexists _, _.
    + destruct (decide (x = b)) as [->|Hxb]; [done|]. intros HBx.
      destruct (Hnode _ _ _ HBx) as (pnx & ppx & ->).
      destruct (decide (x = pnb ∧ pnb ≠ 0)); simpl; eauto.
  - intros x st kx pnx ppx. rewrite Hj, Hm. destruct (decide (x = a)) as [->|Hxa]; [intros _ [=]|].
    intros Hx Hn. assert (∃ pn' pp', pget (nodes h) x = Some (st, kx, pn', pp')) as (pn' & pp' & Hx').
    { destruct (decide (x = pnb ∧ pnb ≠ 0)); [|eauto]. destruct (pget (nodes h) x) as [[[[? ?] ?] ?]|]; [|done]. injection Hx as <- <- <- <-. eauto. }
    destruct (decide (x = b)) as [->|Hxb]; [|by eapply Hstale].
    rewrite Hpb in Hx'. by injection Hx' as <-.
  - intros x kx ux. rewrite Hj, Eo. destruct (decide (x = a)) as [->|Hxa].
    + intros [= <- <-]. lia.
    + destruct (decide (x = b)) as [->|Hxb]; [done|]. intros HBx. by apply (Hrange _ _ _ HBx).
  - intros x kx ux y ky uy. rewrite !Hj.
    destruct (decide (x = a)) as [->|Hxa]; destruct (decide (y = a)) as [->|Hya]; [lia|..].
    + destruct (decide (y = b)) as [->|Hyb]; [done|]. intros [= <- <-] HBy Hlt'.
      pose proof (Hdisj _ _ _ _ _ _ HBa HBy Hlt').
      assert (b < y) as Hby by lia. pose proof (Hdisj _ _ _ _ _ _ HBb HBy Hby). lia.
    + destruct (decide (x = b)) as [->|Hxb]; [done|]. intros HBx _ Hlt'. by apply (Hdisj _ _ _ _ _ _ HBx HBa).
    + destruct (decide (x = b)) as [->|Hxb]; [done|]. destruct (decide (y = b)) as [->|Hyb]; [done|].
      intros HBx HBy. by apply (Hdisj _ _ _ _ _ _ HBx HBy).
  - intros x kx ux st kx' pnx ppx. rewrite Hj, Hm, Eo. destruct (decide (x = a)) as [->|Hxa].
    + intros [= <- <-] [= <- <- <- <-].
      destruct (Hnext _ _ _ _ _ _ _ HBb Hpb) as [[? ->]|(? & -> & Hn)]; [left; lia|right].
      split_and!; [lia|lia|]. apply His; [lia|done].
    + destruct (decide (x = b)) as [->|Hxb]; [done|]. intros HBx Hx.
      assert (∃ pp', pget (nodes h) x = Some (st, kx', pnx, pp')) as (pp' & Hx').
      { destruct (decide (x = pnb ∧ pnb ≠ 0)); [|eauto]. destruct (pget (nodes h) x) as [[[[? ?] ?] ?]|]; [|done]. injection Hx as <- <- <- <-. eauto. }
      destruct (Hnext _ _ _ _ _ _ _ HBx Hx') as [?|(? & Epn & Hn)]; [by left|right]. split_and!; [done|done|].
      apply His; [|done]. intros ->. (* only [a] is followed by [b] *)
      assert (x < a ∨ a < x) as [Hc|Hc] by lia.
      * pose proof (Hdisj _ _ _ _ _ _ HBx HBa Hc). lia.
      * pose proof (Hdisj _ _ _ _ _ _ HBa HBx Hc). pose proof (pow2_pos kx ltac:(apply Hrange in HBx; lia)). lia.
  - intros x kx ux st kx' pnx ppx. rewrite Hj, Hm, Eo. destruct (decide (x = a)) as [->|Hxa].
    + intros [= <- <-] [= <- <- <- <-].
      destruct (Hprev _ _ _ _ _ _ _ HBa Hpa) as [?|[? (kp & up & HBp & Hp)]]; [by left|right].
      split; [done|]. exists kp, up. split; [|done]. rewrite Hj. pose proof (pow2_pos kp ltac:(apply Hrange in HBp; lia)).
      rewrite !decide_False by lia. done.
    + destruct (decide (x = b)) as [->|Hxb]; [done|]. intros HBx Hx. destruct (decide (x = pnb ∧ pnb ≠ 0)) as [[-> Hne]|Hn].
      * destruct (pget (nodes h) pnb) as [[[[? ?] ?] ?]|]; [|done]. injection Hx as <- <- <- <-.
        right. destruct (Hnext _ _ _ _ _ _ _ HBb Hpb) as [[_ ?]|(? & -> & _)]; [done|]. split.
        -- rewrite offset_add by lia. lia.
        -- exists (k + 1), false. rewrite Hj, decide_True by done. split; [done|lia].
      * destruct (Hprev _ _ _ _ _ _ _ HBx Hx) as [?|[? (kp & up & HBp & Hp)]]; [by left|right].
        split; [done|]. exists kp, up. split; [|done]. rewrite Hj.
        rewrite (decide_False (P := ppx = b)).
        -- rewrite decide_False; [done|]. intros ->. rewrite HBa in HBp. injection HBp as <- <-. lia.
        -- intros ->. rewrite HBb in HBp. injection HBp as <- <-. apply Hn.
           destruct (Hnext _ _ _ _ _ _ _ HBb Hpb) as [[Hw _]|(_ & -> & _)]; [|lia].
           subst x. by rewrite offset_wrap in * by lia.
Qed.
End heap.
