(* ===== verification/C4AllocOps.v ===== *)
(** Allocation and freeing on a heap in the invariant of [C4AllocInv.v]: both
    return, both keep it, an allocation hands out a block that was not live and
    is large enough, a free takes back exactly that block; the heap implements
    the [Allocator] interface. *)

From S2P Require Import Prelude Interfaces C4Alloc C4AllocInv.
#[local] Open Scope Z_scope.

Section ops.
Implicit Types (h : c4a_heap) (B : blockmap) (X : gset Z).

Lemma heap_ok_ext h h' B F X : hstart h' = hstart h → hpages h' = hpages h → buckets h' = buckets h →
  (∀ a, pget (nodes h') a = pget (nodes h) a) → (∀ a, lget (nodes h') a = lget (nodes h) a) →
  heap_ok h B F X → heap_ok h' B F X.
Proof.
  intros Es Ep Eb Hp Hl [Hb Hls]. split; [by eapply blocks_same|].
  eapply lists_same; [done| |done| |done]; [auto|]. apply Hls.
Qed.

(** Unlinking a node that is on no list changes nothing. *)
Lemma unlink_held h B F X a : heap_ok h B F X → a ∈ X → lget (nodes h) a = Some (0, 0) →
  ∃ h', c4a_node_unlink a h = Ret (tt, h') ∧ heap_ok h' B F X ∧
    (∀ x, lget (nodes h') x = lget (nodes h) x) ∧ (∀ x, pget (nodes h') x = pget (nodes h) x) ∧
    hstart h' = hstart h ∧ hpages h' = hpages h.
Proof.
  intros Hok Hax Hla. pose proof Hok as [Hb Hl].
  destruct (l_held _ _ _ _ Hl a Hax) as [k HBa]. pose proof (block_pos _ _ _ _ _ Hb HBa) as Hpos.
  assert (0 <= k <= 14) as Hk by (apply (b_range _ _ Hb) in HBa; lia).
  destruct (b_node _ _ Hb _ _ _ HBa) as (pn & pp & Hpa).
  destruct (links_of _ _ _ Hla) as (n & En & Epv & Enx). cbn [fst snd] in *.
  assert (bucket n = k) as Ek by (unfold pget in Hpa; rewrite En in Hpa; by injection Hpa).
  unfold c4a_node_unlink. rewrite (bind_run _ _ _ _ _ (hload_ok _ _ _ En)), Ek.
  unfold bucket_start at 1, getsome. unfold mbind at 1, M_bind at 1. rewrite (l_buckets _ _ _ _ Hl k Hk).
  replace (a =? hd 0 (F k)) with false.
  2: { symmetry. apply Z.eqb_neq. intros E. destruct (F k) as [|b l] eqn:EF; simpl in E; [lia|subst b].
       assert (a ∈ F k) as Hin by (rewrite EF; left). apply (l_mem _ _ _ _ Hl k a Hk) in Hin as [_ ?]. done. }
  rewrite (bind_run (mret tt) _ _ tt h) by done. rewrite Epv, Enx. cbn [truthy Z.eqb negb].
  rewrite (bind_run (mret tt) _ _ tt h) by done. rewrite (bind_run _ _ _ _ _ (hload_ok _ _ _ En)), Enx, Epv.
  cbn [truthy Z.eqb negb]. rewrite (bind_run (mret tt) _ _ tt h) by done.
  destruct (upd_link a (set_previous 0) (λ p, (0, p.2)) h _ Hla) as (m1 & E1 & Hp1 & Hla1 & Hl1); [done|done|].
  rewrite (bind_run _ _ _ _ _ E1).
  destruct (upd_link a (set_next 0) (λ p, (p.1, 0)) (with_nodes m1 h) _ Hla1) as (m2 & E2 & Hp2 & Hla2 & Hl2); [done|done|].
  cbn [nodes with_nodes fst snd] in *.
  assert (∀ x, lget m2 x = lget (nodes h) x) as Hlg.
  { intros x. destruct (decide (x = a)) as [->|Hx]; [by rewrite Hla2|by rewrite Hl2, Hl1]. }
  assert (∀ x, pget m2 x = pget (nodes h) x) as Hpg by (intros x; by rewrite Hp2, Hp1).
  eexists. split; [exact E2|]. split_and!; try done. apply (heap_ok_ext h); done.
Qed.

(** ** Coalescing *)
Definition adjacent h B (a b : Z) : Prop :=
  ∃ ka ua kb ub st k' pp, B !! a = Some (ka, ua) ∧ B !! b = Some (kb, ub) ∧ b ≠ 0 ∧
    pget (nodes h) a = Some (st, k', b, pp).

Lemma adjacent_lt h B a b : blocks_ok h B → adjacent h B a b → a < b.
Proof.
  intros Hb (ka & ua & kb & ub & st & k' & pp & HBa & HBb & Hb0 & Hpa).
  destruct (b_next _ _ Hb _ _ _ _ _ _ _ HBa Hpa) as [[_ ?]|(_ & ? & _)]; [done|].
  pose proof (pow2_pos ka ltac:(apply (b_range _ _ Hb) in HBa; lia)). lia.
Qed.

Lemma can_coalesce_ok h B a b : blocks_ok h B → a = 0 ∨ b = 0 ∨ adjacent h B a b →
  ∃ r, c4a_can_coalesce a b h = Ret (r, h) ∧
    (r = true → a ≠ 0 ∧ b ≠ 0 ∧ ∃ k, B !! a = Some (k, false) ∧ B !! b = Some (k, false)).
Proof.
  intros Hb Hab. unfold c4a_can_coalesce. destruct ((a =? 0) || (b =? 0)) eqn:E0; [by exists false|].
  destruct Hab as [->|[->|Hab]]; [done|by rewrite orb_comm in E0|].
  destruct Hab as (ka & ua & kb & ub & _ & _ & _ & HBa & HBb & _ & _).
  destruct (b_node _ _ Hb _ _ _ HBa) as (? & ? & (na & Ena & Hna)%pget_Some).
  destruct (b_node _ _ Hb _ _ _ HBb) as (? & ? & (nb & Enb & Hnb)%pget_Some).
  injection Hna as Hsa Hka _ _. injection Hnb as Hsb Hkb _ _.
  rewrite (bind_run _ _ _ _ _ (hload_ok _ _ _ Ena)), (bind_run _ _ _ _ _ (hload_ok _ _ _ Enb)).
  eexists. split; [done|]. rewrite Hsa, Hsb, Hka, Hkb. intros Hr.
  destruct ua, ub; simpl in Hr; try done. assert (ka = kb) as <- by lia. split_and!; [lia|lia|eauto].
Qed.

Lemma merge_ok h B F a b k : heap_ok h B F ({[a]} ∪ {[b]}) → adjacent h B a b →
  B !! a = Some (k, false) → B !! b = Some (k, false) →
  ∃ h', merge_headers a b h = Ret (true, h') ∧ heap_ok h' (joined B a b k) F {[a]} ∧
    (∀ x, lget (nodes h') x = lget (nodes h) x) ∧ hstart h' = hstart h ∧ hpages h' = hpages h.
Proof.
  intros [Hb Hl] Hadj HBa HBb. pose proof (adjacent_lt _ _ _ _ Hb Hadj).
  destruct Hadj as (? & ? & ? & ? & st & k' & pp & _ & _ & Hb0 & Hpa).
  destruct (b_node _ _ Hb _ _ _ HBa) as (pn & pp' & Hpa'). rewrite Hpa in Hpa'. injection Hpa' as -> -> <- <-.
  destruct (b_node _ _ Hb _ _ _ HBb) as (pnb & ppb & Hpb).
  destruct (merge_headers_ok h B a b k pp pnb ppb) as (m & E & Hm & Hlg); [done|done|done|lia|done|done|].
  eexists. split; [exact E|]. cbn [nodes with_nodes hstart hpages]. split_and!; try done. split.
  - by apply (merge_blocks h _ B a b k pp pnb ppb).
  - eapply (lists_same h); [done|auto| | |exact Hl].
    + intros y ky. rewrite joined_lookup by lia. rewrite not_elem_of_union, !not_elem_of_singleton.
      destruct (decide (y = a)) as [->|Hya]; [naive_solver|]. destruct (decide (y = b)); naive_solver.
    + intros y ->%elem_of_singleton. exists (k + 1). rewrite joined_lookup by lia. by rewrite decide_True.
Qed.

Lemma do_coalesce_ok h B F x a b : heap_ok h B F {[x]} → lget (nodes h) x = Some (0, 0) →
  x = a ∨ x = b → a = 0 ∨ b = 0 ∨ adjacent h B a b →
  ∃ r h', c4a_do_coalesce a b h = Ret (r, h') ∧ hstart h' = hstart h ∧ hpages h' = hpages h ∧
    if r : bool then ∃ k F', B !! a = Some (k, false) ∧ B !! b = Some (k, false) ∧
      heap_ok h' (joined B a b k) F' {[a]} ∧ lget (nodes h') a = Some (0, 0)
    else h' = h.
Proof.
  intros Hok Hlx Hx Hab. pose proof Hok as [Hb Hl].
  destruct (can_coalesce_ok h B a b Hb Hab) as (r & Er & Hr). unfold c4a_do_coalesce.
  rewrite (bind_run _ _ _ _ _ Er). destruct r; [|by exists false, h].
  destruct (Hr eq_refl) as (Ha0 & Hb0 & k & HBa & HBb). destruct Hab as [?|[?|Hadj]]; [done|done|].
  pose proof (adjacent_lt _ _ _ _ Hb Hadj) as Hlt.
  assert (0 <= k <= 14) as Hk by (apply (b_range _ _ Hb) in HBa; lia).
  assert (∃ h2 F2, (c4a_node_unlink a;; c4a_node_unlink b) h = Ret (tt, h2) ∧
    heap_ok h2 B F2 ({[a]} ∪ {[b]}) ∧ lget (nodes h2) a = Some (0, 0) ∧
    (∀ y, pget (nodes h2) y = pget (nodes h) y) ∧ hstart h2 = hstart h ∧ hpages h2 = hpages h)
    as (h2 & F2 & E2 & Hok2 & Hla2 & Hp2 & Hs2 & Hg2).
  { destruct Hx as [-> | ->].
    - destruct (unlink_held h B F {[a]} a Hok ltac:(set_solver) Hlx) as (h1 & E1 & Hok1 & Hlg1 & Hpg1 & Hs1 & Hg1).
      assert (b ∈ F k) as Hbin by (apply (l_mem _ _ _ _ Hl k b Hk); split; [done|set_solver by lia]).
      destruct (unlink_listed h1 B F {[a]} k b Hok1 Hk Hbin) as (h2 & F2 & E2 & Hok2 & _ & _ & Hk2 & Hpg2 & Hs2 & Hg2).
      exists h2, F2. rewrite (bind_run _ _ _ _ _ E1). split_and!; [done| | | |congruence|congruence].
      + by rewrite (comm_L (∪)) in Hok2.
      + by rewrite Hk2, Hlg1 by set_solver.
      + intros y. by rewrite Hpg2, Hpg1.
    - assert (a ∈ F k) as Hain by (apply (l_mem _ _ _ _ Hl k a Hk); split; [done|set_solver by lia]).
      destruct (unlink_listed h B F {[b]} k a Hok Hk Hain) as (h1 & F1 & E1 & Hok1 & _ & Hla1 & Hk1 & Hpg1 & Hs1 & Hg1).
      destruct (unlink_held h1 B F1 _ b Hok1 ltac:(set_solver) ltac:(by rewrite Hk1 by set_solver))
        as (h2 & E2 & Hok2 & Hlg2 & Hpg2 & Hs2 & Hg2).
      exists h2, F1. rewrite (bind_run _ _ _ _ _ E1). split_and!; [done|done|by rewrite Hlg2| |congruence|congruence].
      intros y. by rewrite Hpg2, Hpg1. }
  assert (adjacent h2 B a b) as Hadj2.
  { destruct Hadj as (ka & ua & kb & ub & st & k' & pp & ? & ? & ? & ?).
    exists ka, ua, kb, ub, st, k', pp. by rewrite Hp2. }
  destruct (merge_ok h2 B F2 a b k Hok2 Hadj2 HBa HBb) as (h3 & E3 & Hok3 & Hlg3 & Hs3 & Hg3).
  exists true, h3. split_and!; [|congruence|congruence|].
  - unfold mbind, M_bind in E2 |- *. destruct (c4a_node_unlink a h) as [[[] h1]| |]; [|done..].
    rewrite E2. exact E3.
  - exists k, F2. split_and!; [done|done|done|by rewrite Hlg3].
Qed.

(** The blocks in use are the same. *)
Definition same_used B B' : Prop := ∀ x k, B' !! x = Some (k, true) ↔ B !! x = Some (k, true).

Lemma same_used_refl B : same_used B B.
Proof. done. Qed.

Lemma same_used_trans B1 B2 B3 : same_used B1 B2 → same_used B2 B3 → same_used B1 B3.
Proof. unfold same_used. intros H1 H2 x k. by rewrite H2, H1. Qed.

Lemma same_used_joined B a b k : a ≠ b → B !! a = Some (k, false) → B !! b = Some (k, false) →
  same_used B (joined B a b k).
Proof.
  intros Hab HBa HBb x kx. rewrite joined_lookup by done.
  destruct (decide (x = a)) as [->|Hxa]; [naive_solver|]. destruct (decide (x = b)) as [->|Hxb]; naive_solver.
Qed.

Lemma prev_adjacent h B a k u st k' pn pp : blocks_ok h B → B !! a = Some (k, u) →
  pget (nodes h) a = Some (st, k', pn, pp) → pp = 0 ∨ a = 0 ∨ adjacent h B pp a.
Proof.
  intros Hb HBa Hpa. pose proof (block_pos _ _ _ _ _ Hb HBa) as Hpos.
  destruct (b_prev _ _ Hb _ _ _ _ _ _ _ HBa Hpa) as [[_ ?]|(Ho & kp & up & HBp & E)]; [by left|right; right].
  destruct (b_node _ _ Hb _ _ _ HBp) as (pnp & ppp & Hpp).
  pose proof (b_range _ _ Hb _ _ _ HBp) as (Hkp & _).
  exists kp, up, k, u, (status_of up), kp, ppp. split_and!; [done|done|lia|].
  destruct (b_next _ _ Hb _ _ _ _ _ _ _ HBp Hpp) as [[Hw _]|(_ & -> & _)]; [|by rewrite <- E].
  pose proof (pow2_pos kp). exfalso. apply Ho. rewrite <- E. apply offset_wrap; lia.
Qed.

Lemma next_adjacent h B a k u st k' pn pp : blocks_ok h B → B !! a = Some (k, u) →
  pget (nodes h) a = Some (st, k', pn, pp) → a = 0 ∨ pn = 0 ∨ adjacent h B a pn.
Proof.
  intros Hb HBa Hpa. right. destruct (b_next _ _ Hb _ _ _ _ _ _ _ HBa Hpa) as [[_ ?]|(_ & E & [[kn un] HBn])]; [by left|right].
  exists k, u, kn, un, st, k', pp. split_and!; [done|done| |done].
  pose proof (block_pos _ _ _ _ _ Hb HBn). lia.
Qed.

Lemma coalesce_ok fuel h B F a k :
  heap_ok h B F {[a]} → lget (nodes h) a = Some (0, 0) → B !! a = Some (k, false) →
  14 - k < Z.of_nat fuel →
  ∃ h' B' F' a' k', c4a_coalesce fuel a h = Ret (a', h') ∧ heap_ok h' B' F' {[a']} ∧
    B' !! a' = Some (k', false) ∧ same_used B B' ∧ hstart h' = hstart h ∧ hpages h' = hpages h.
Proof.
  revert h B F a k. induction fuel as [|fuel IH]; intros h B F a k Hok Hla HBa Hf.
  { pose proof (b_range _ _ (h_blocks _ _ _ _ Hok) _ _ _ HBa). lia. }
  cbn [c4a_coalesce]. pose proof (h_blocks _ _ _ _ Hok) as Hb.
  destruct (b_node _ _ Hb _ _ _ HBa) as (pn & pp & Hpa). pose proof Hpa as (n & En & Hn)%pget_Some.
  injection Hn as _ _ Hpn Hpp. rewrite (bind_run _ _ _ _ _ (hload_ok _ _ _ En)), Hpp.
  destruct (do_coalesce_ok h B F a pp a Hok Hla (or_intror eq_refl) (prev_adjacent _ _ _ _ _ _ _ _ _ Hb HBa Hpa))
    as (c1 & h1 & E1 & Hs1 & Hg1 & Hc1). rewrite (bind_run _ _ _ _ _ E1).
  assert (∃ B1 F1 k1, heap_ok h1 B1 F1 {[if c1 then pp else a]} ∧
    lget (nodes h1) (if c1 then pp else a) = Some (0, 0) ∧
    B1 !! (if c1 then pp else a) = Some (k1, false) ∧ same_used B B1 ∧ (if c1 then k < k1 else k <= k1))
    as (B1 & F1 & k1 & Hok1 & Hla1 & HBa1 & Hu1 & Hk1).
  { destruct c1.
    - destruct Hc1 as (k0 & F1 & HBp & HBa' & Hok1 & Hla1). rewrite HBa in HBa'. injection HBa' as <-.
      assert (pp ≠ a) as Hne.
      { intros ->. destruct (b_prev _ _ Hb _ _ _ _ _ _ _ HBa Hpa) as [[_ ->]|(_ & kp & up & HBp' & ?)].
        - pose proof (block_pos _ _ _ _ _ Hb HBa). lia.
        - pose proof (pow2_pos kp ltac:(apply (b_range _ _ Hb) in HBp'; lia)). lia. }
      exists (joined B pp a k), F1, (k + 1). split_and!; [done|done| |by apply same_used_joined|lia].
      rewrite joined_lookup by done. by rewrite decide_True.
    - subst h1. exists B, F, k. split_and!; (done || lia). }
  set (a1 := if c1 then pp else a) in *. pose proof (h_blocks _ _ _ _ Hok1) as Hb1.
  destruct (b_node _ _ Hb1 _ _ _ HBa1) as (pn1 & pp1 & Hpa1). pose proof Hpa1 as (n1 & En1 & Hn1)%pget_Some.
  injection Hn1 as _ _ Hpn1 _. rewrite (bind_run _ _ _ _ _ (hload_ok _ _ _ En1)), Hpn1.
  destruct (do_coalesce_ok h1 B1 F1 a1 a1 pn1 Hok1 Hla1 (or_introl eq_refl) (next_adjacent _ _ _ _ _ _ _ _ _ Hb1 HBa1 Hpa1))
    as (c2 & h2 & E2 & Hs2 & Hg2 & Hc2). rewrite (bind_run _ _ _ _ _ E2).
  assert (∃ B2 F2 k2, heap_ok h2 B2 F2 {[a1]} ∧ lget (nodes h2) a1 = Some (0, 0) ∧
    B2 !! a1 = Some (k2, false) ∧ same_used B1 B2 ∧ (if c2 then k1 < k2 else k1 <= k2))
    as (B2 & F2 & k2 & Hok2 & Hla2 & HBa2 & Hu2 & Hk2).
  { destruct c2.
    - destruct Hc2 as (k0 & F2 & HBa' & HBn & Hok2 & Hla2). rewrite HBa1 in HBa'. injection HBa' as <-.
      assert (a1 ≠ pn1) as Hne.
      { destruct (b_next _ _ Hb1 _ _ _ _ _ _ _ HBa1 Hpa1) as [[_ ->]|(_ & -> & _)].
        - pose proof (block_pos _ _ _ _ _ Hb1 HBn). lia.
        - pose proof (pow2_pos k1 ltac:(apply (b_range _ _ Hb1) in HBa1; lia)). lia. }
      exists (joined B1 a1 pn1 k1), F2, (k1 + 1). split_and!; [done|done| |by apply same_used_joined|lia].
      rewrite joined_lookup by done. by rewrite decide_True.
    - subst h2. exists B1, F1, k1. split_and!; (done || lia). }
  destruct (c1 || c2) eqn:Ec.
  - destruct (IH h2 B2 F2 a1 k2 Hok2 Hla2 HBa2) as (h' & B' & F' & a' & k' & E & Hok' & HBa' & Hu' & Hs' & Hg').
    { destruct c1, c2; simpl in Ec; try done; lia. }
    exists h', B', F', a', k'. split_and!; [done|done|done| |congruence|congruence].
    eapply same_used_trans; [exact Hu1|]. by eapply same_used_trans.
  - exists h2, B2, F2, a1, k2. split_and!; [done|done|done| |congruence|congruence].
    by eapply same_used_trans.
Qed.

(** ** What is live *)
Lemma used_spec h B x : blocks_ok h B → x ∈ used_nodes h ↔ ∃ k, B !! x = Some (k, true).
Proof.
  intros Hb. unfold used_nodes. rewrite elem_of_dom. split.
  - intros [n [En Hu]%map_lookup_filter_Some]. unfold is_used in Hu. simpl in Hu.
    destruct (B !! x) as [[k u]|] eqn:EB.
    + destruct (b_node _ _ Hb _ _ _ EB) as (pn & pp & Hp). unfold pget in Hp. rewrite En in Hp.
      injection Hp as Hst _ _ _. destruct u; [eauto|]. rewrite Hu in Hst. done.
    + assert (pget (nodes h) x = Some (phys n)) as Hp by (unfold pget; by rewrite En).
      pose proof (b_stale _ _ Hb _ _ _ _ _ Hp EB) as Hst. rewrite Hu in Hst. done.
  - intros [k HB]. destruct (b_node _ _ Hb _ _ _ HB) as (pn & pp & (n & En & Hn)%pget_Some).
    exists n. apply map_lookup_filter_Some. split; [done|]. by injection Hn.
Qed.

Lemma live_spec h B x : blocks_ok h B → x ∈ live h ↔ ∃ k, B !! (x - sizeof_node) = Some (k, true).
Proof.
  intros Hb. unfold live. rewrite elem_of_map. split.
  - intros (y & -> & Hy). replace (y + sizeof_node - sizeof_node) with y by lia. by apply (used_spec h).
  - intros Hx. exists (x - sizeof_node). split; [lia|]. by apply (used_spec h B).
Qed.

(** ** [c4a_free] *)
Lemma c4a_free_ok h B F ptr : heap_ok h B F ∅ → ptr ∈ live h →
  ∃ h' B' F', c4a_free ptr h = Ret (tt, h') ∧ heap_ok h' B' F' ∅ ∧
    live h' = live h ∖ {[ptr]} ∧ hstart h' = hstart h ∧ hpages h' = hpages h.
Proof.
  intros Hok Hlive. pose proof (h_blocks _ _ _ _ Hok) as Hb.
  pose proof Hlive as [k HB]%(live_spec h B); [|done]. set (a := ptr - sizeof_node) in *.
  pose proof (b_range _ _ Hb _ _ _ HB) as (Hk & Has & Hae & _). pose proof (b_start _ _ Hb). pose proof (b_end _ _ Hb).
  pose proof (pow2_pos k ltac:(lia)).
  unfold c4a_free. replace (u32 (ptr - sizeof_node)) with a by (symmetry; apply u32_small; lia).
  destruct (b_node _ _ Hb _ _ _ HB) as (pn & pp & Hpa). pose proof Hpa as (n & En & Hn)%pget_Some.
  injection Hn as Hst _ _ _. rewrite (bind_run _ _ _ _ _ (hload_ok _ _ _ En)), Hst. cbn [status_of Z.eqb negb C4A_STATUS_USED Pos.eqb].
  destruct (set_status_ok h B F ∅ {[a]} a k true false Hok HB) as (m1 & E1 & Hok1 & Hl1); [set_solver|by left|].
  cbn [status_of] in E1. rewrite (bind_run _ _ _ _ _ E1).
  assert (lget m1 a = Some (links n)) as Hla by (rewrite Hl1; unfold lget; by rewrite En).
  destruct (upd_link a (set_next 0) (λ p, (p.1, 0)) (with_nodes m1 h) _ Hla) as (m2 & E2 & Hp2 & Hla2 & Hl2); [done|done|].
  rewrite (bind_run _ _ _ _ _ E2).
  destruct (upd_link a (set_previous 0) (λ p, (0, p.2)) (with_nodes m2 (with_nodes m1 h)) _ Hla2) as (m3 & E3 & Hp3 & Hla3 & Hl3); [done|done|].
  rewrite (bind_run _ _ _ _ _ E3). cbn [nodes with_nodes fst snd] in *.
  set (h3 := with_nodes m3 (with_nodes m2 (with_nodes m1 h))) in *.
  assert (heap_ok h3 (<[a := (k, false)]> B) F {[a]}) as Hok3.
  { destruct Hok1 as [Hb1 Hls1]. split.
    - apply (blocks_same (with_nodes m1 h)); [done|done| |done]. intros y. simpl. by rewrite Hp3, Hp2.
    - apply (lists_same (with_nodes m1 h) h3 (<[a := (k, false)]> B) (<[a := (k, false)]> B) F {[a]} {[a]});
        [done| |done| |done].
      + intros y ky _ Hy. simpl. rewrite Hl3, Hl2; [done|set_solver..].
      + apply (l_held _ _ _ _ Hls1). }
  destruct (coalesce_ok coalesce_fuel h3 _ F a k Hok3 Hla3 ltac:(by rewrite lookup_insert_eq) ltac:(unfold coalesce_fuel; lia))
    as (h4 & B4 & F4 & a4 & k4 & E4 & Hok4 & HB4 & Hu4 & Hs4 & Hg4).
  rewrite (bind_run _ _ _ _ _ E4).
  destruct (b_node _ _ (h_blocks _ _ _ _ Hok4) _ _ _ HB4) as (pn4 & pp4 & (n4 & En4 & Hn4)%pget_Some).
  injection Hn4 as _ Hk4 _ _. rewrite (bind_run _ _ _ _ _ (hload_ok _ _ _ En4)), Hk4.
  destruct (insert_held h4 B4 F4 {[a4]} k4 a4 Hok4 ltac:(set_solver) HB4) as (h5 & E5 & Hok5 & _ & _ & Hs5 & Hg5).
  eexists h5, B4, _. split; [exact E5|]. split; [|split_and!].
  - replace (∅ : gset Z) with (({[a4]} : gset Z) ∖ {[a4]}) by set_solver. exact Hok5.
  - apply set_eq. intros x. rewrite elem_of_difference, elem_of_singleton.
    rewrite (live_spec h5 B4), (live_spec h B); [|done|apply Hok5]. split.
    + intros [kx Hx%Hu4]. destruct (decide (x = ptr)) as [->|Hne].
      * fold a in Hx. by rewrite lookup_insert_eq in Hx.
      * rewrite lookup_insert_ne in Hx by lia. eauto.
    + intros [[kx Hx] Hne]. exists kx. apply Hu4. rewrite lookup_insert_ne by lia. done.
  - by rewrite Hs5, Hs4.
  - by rewrite Hg5, Hg4.
Qed.

(** ** The size computation *)
Lemma ulog2_loop_ok fuel n i : 0 < n < 2 ^ Z.of_nat fuel → ulog2_loop fuel n i = i + Z.log2 n.
Proof.
  revert n i. induction fuel as [|fuel IH]; intros n i Hn; [simpl in Hn; lia|]. cbn [ulog2_loop].
  destruct (Z.eqb_spec n 0); [lia|]. rewrite Z.shiftr_div_pow2 by lia. change (2 ^ 1) with 2.
  destruct (Z.eqb_spec (n / 2) 0) as [E|E].
  - assert (n = 1) as -> by (apply Z.div_small_iff in E; lia). simpl. lia.
  - assert (0 < n / 2) as Hpos by (pose proof (Z.div_pos n 2 ltac:(lia) ltac:(lia)); lia).
    rewrite IH; [|split; [done|apply Z.div_lt_upper_bound; [lia|]; rewrite Nat2Z.inj_succ, Z.pow_succ_r in Hn by lia; lia]].
    replace (n / 2) with (Z.shiftr n 1) by (by rewrite Z.shiftr_div_pow2).
    rewrite Z.log2_shiftr by lia. assert (1 <= Z.log2 n); [|lia].
    apply Z.log2_le_pow2; [lia|]. simpl. apply Z.lt_succ_r. 
    assert (n ≠ 1) by (intros ->; done). lia.
Qed.

Lemma alloc_index_ok size : 0 <= size → size + sizeof_node < 2 ^ 32 →
  5 <= alloc_index size ∧ size + sizeof_node <= 2 ^ alloc_index size ∧
  2 ^ (alloc_index size - 1) < size + sizeof_node.
Proof.
  unfold alloc_index, sizeof_node. intros H0 H1. rewrite u32_small by lia.
  unfold ulog2. rewrite (ulog2_loop_ok 32) by (simpl; lia). set (n := size + 20) in *.
  rewrite Z.shiftl_1_l, Z.add_0_l. destruct (Z.log2_spec n ltac:(lia)) as [Hlo Hhi].
  assert (4 <= Z.log2 n) as H4 by (apply Z.log2_le_pow2; simpl; lia).
  rewrite Z.pow_succ_r in Hhi by lia.
  pose proof (pow2_half (Z.log2 n) ltac:(lia)). pose proof (pow2_pos (Z.log2 n - 1) ltac:(lia)).
  destruct (Z.eqb_spec n (2 ^ Z.log2 n)) as [E|E].
  - split_and!; [|lia|lia]. assert (Z.log2 n ≠ 4); [|lia]. intros E4. rewrite E4 in E. simpl in E. lia.
  - rewrite Z.pow_add_r by lia. replace (Z.log2 n + 1 - 1) with (Z.log2 n) by lia. lia.
Qed.

(** ** Growing *)
Lemma offset_end h : hpages h mod 4 = 0 → offset h (heap_end h) = 0.
Proof.
  intros Hm. unfold offset, heap_end, super, PAGE_SIZE. apply Z.div_exact in Hm; [|done].
  rewrite Hm. replace (hstart h + 4 * (hpages h / 4) * 4096 - hstart h) with (hpages h / 4 * 2 ^ 14) by lia.
  by apply Z.mod_mul.
Qed.

Lemma grow_ok h B F : heap_ok h B F ∅ → heap_end h + super < 2 ^ 32 →
  ∃ h' B' F', c4a_grow h = Ret (tt, h') ∧ heap_ok h' B' F' ∅ ∧ F' 14 ≠ [] ∧ same_used B B' ∧
    hstart h' = hstart h ∧ hpages h' = hpages h + 4.
Proof.
  intros [Hb Hl] Hroom. pose proof Hb as [Hst [Hp0 Hpm] Hend Hnode Hstale Hrange Hdisj Hnext Hprev].
  pose proof (offset_end h Hpm) as Hoff. unfold super in Hroom.
  unfold c4a_grow. rewrite (bind_run get _ h h h) by done.
  change (Z.shiftl 1 C4A_MAX_BUCKETS / PAGE_SIZE) with 4.
  set (e := heap_end h) in *. assert (hpages h * PAGE_SIZE < 2 ^ 32) by (unfold e, heap_end in *; lia).
  replace (u32 (hstart h + u32 (hpages h * PAGE_SIZE))) with e.
  2: { unfold e, heap_end, PAGE_SIZE in *. rewrite (u32_small (hpages h * 4096)) by lia. by rewrite u32_small by lia. }
  assert (u32 (hpages h + 4) = hpages h + 4) as Epg by (unfold PAGE_SIZE in *; apply u32_small; lia).
  rewrite Epg.
  replace (u32 (hstart h + u32 ((hpages h + 4) * PAGE_SIZE))) with (e + 2 ^ 14).
  2: { unfold e, heap_end, PAGE_SIZE in *. rewrite (u32_small ((hpages h + 4) * 4096)) by lia. rewrite u32_small by lia. lia. }
  replace (e <? e + 2 ^ 14) with true by lia.
  do 3 first [rewrite (bind_run (modify _) _ _ tt _) by reflexivity | rewrite (bind_run (store _ _) _ _ tt _) by reflexivity].
  set (h1 := mk_heap (hstart h) (hpages h + 4) (buckets h)
    (<[e := mk_node 0 0 0 0 C4A_STATUS_FREE C4A_MAX_BUCKETS]> (nodes h)) ((e, 4) :: requests h)).
  cbn [hstart hpages buckets nodes requests]. rewrite Epg. fold h1. unfold C4A_MAX_BUCKETS at 1.
  assert (B !! e = None) as HBe.
  { destruct (B !! e) as [[k u]|] eqn:E; [|done]. pose proof (Hrange _ _ _ E) as (Hk & _ & He & _).
    pose proof (pow2_pos k). lia. }
  assert (∀ x, pget (nodes h1) x = if decide (x = e) then Some (C4A_STATUS_FREE, 14, 0, 0) else pget (nodes h) x) as Hp1.
  { intros x. unfold pget. simpl. destruct (decide (x = e)) as [->|Hx]; [by rewrite lookup_insert_eq|by rewrite lookup_insert_ne]. }
  assert (∀ x k u, B !! x = Some (k, u) → x ≠ e) as Hne by (intros x k u Hx ->; congruence).
  assert (heap_end h1 = e + 2 ^ 14) as He1 by (unfold e, heap_end, h1, PAGE_SIZE; simpl; lia).
  assert (heap_ok h1 (<[e := (14, false)]> B) F {[e]}) as Hok1.
  { split.
    - split; rewrite ?He1; cbn [hstart hpages h1].
      + done.
      + split; [lia|]. rewrite <- Z.add_mod_idemp_l, Hpm by done. done.
      + lia.
      + intros x k u. rewrite Hp1. rewrite lookup_insert_Some. intros [[<- [= <- <-]]|[Hxe Hx]].
        * rewrite decide_True by done. by eexists _, _.
        * rewrite decide_False by done. by apply Hnode in Hx.
      + intros x st k pn pp. rewrite Hp1. rewrite lookup_insert_None. intros Hx [HBx Hxe].
        rewrite decide_False in Hx by done. by eapply Hstale.
      + intros x k u. rewrite lookup_insert_Some. change (offset h1 x) with (offset h x).
        intros [[<- [= <- <-]]|[Hxe Hx]].
        * rewrite Hoff. unfold super. unfold e, heap_end, PAGE_SIZE in *. lia.
        * pose proof (Hrange _ _ _ Hx). lia.
      + intros x k u y ky uy. rewrite !lookup_insert_Some.
        intros [[<- [= <- <-]]|[Hxe Hx]] [[<- [= <- <-]]|[Hye Hy]]; [lia| | |by eapply Hdisj].
        * pose proof (Hrange _ _ _ Hy) as (Hk & _ & ? & _). pose proof (pow2_pos ky). lia.
        * pose proof (Hrange _ _ _ Hx). lia.
      + intros x k u st k' pn pp. rewrite Hp1, lookup_insert_Some. change (offset h1 x) with (offset h x).
        intros [[<- [= <- <-]]|[Hxe Hx]].
        * rewrite decide_True by done. intros [= <- <- <- <-]. left. rewrite Hoff. done.
        * rewrite decide_False by done. intros Hpx. destruct (Hnext _ _ _ _ _ _ _ Hx Hpx) as [?|(? & ? & Hs)]; [by left|right].
          split_and!; [done|done|]. apply lookup_insert_is_Some'. by right.
      + intros x k u st k' pn pp. rewrite Hp1, lookup_insert_Some. change (offset h1 x) with (offset h x).
        intros [[<- [= <- <-]]|[Hxe Hx]].
        * rewrite decide_True by done. intros [= <- <- <- <-]. left. done.
        * rewrite decide_False by done. intros Hpx.
          destruct (Hprev _ _ _ _ _ _ _ Hx Hpx) as [?|(? & kp & up & HBp & ?)]; [by left|right].
          split; [done|]. exists kp, up. split; [|done]. rewrite lookup_insert_ne; [done|]. intros <-. congruence.
    - apply (lists_same h h1 B _ F ∅ {[e]}); [done| | | |done].
      + intros x k Hx _. unfold lget. simpl. rewrite lookup_insert_ne; [done|]. intros <-. congruence.
      + intros x k. rewrite not_elem_of_singleton. destruct (decide (x = e)) as [->|Hx]; [naive_solver|].
        rewrite lookup_insert_ne by done. set_solver.
      + intros x ->%elem_of_singleton. rewrite lookup_insert_eq. eauto. }
  destruct (insert_held h1 _ F {[e]} 14 e Hok1 ltac:(set_solver) ltac:(by rewrite lookup_insert_eq))
    as (h2 & E2 & Hok2 & _ & _ & Hs2 & Hg2).
  eexists h2, _, _. split; [exact E2|]. split; [|split_and!].
  - replace (∅ : gset Z) with (({[e]} : gset Z) ∖ {[e]}) by set_solver. exact Hok2.
  - simpl. done.
  - intros x k. rewrite lookup_insert_Some. split; [naive_solver|]. intros Hx. right. split; [|done].
    intros <-. congruence.
  - by rewrite Hs2.
  - by rewrite Hg2.
Qed.

(** ** Looking for a block *)
Definition room h : Prop := heap_end h + super < 2 ^ 32.

Lemma bucket_start_ok h B F X k : heap_ok h B F X → 0 <= k <= 14 → bucket_start k h = Ret (hd 0 (F k), h).
Proof. intros [_ Hl] Hk. unfold bucket_start, getsome. by rewrite (l_buckets _ _ _ _ Hl k Hk). Qed.

Lemma hd_truthy h B F X k : heap_ok h B F X → 0 <= k <= 14 → truthy (hd 0 (F k)) = false ↔ F k = [].
Proof.
  intros Hok Hk. unfold truthy. destruct (F k) as [|a l] eqn:E; simpl; [done|].
  destruct (free_member h B F X k a Hok Hk) as (_ & _ & ?); [rewrite E; left|].
  split; [|done]. destruct (Z.eqb_spec a 0); (lia || done).
Qed.

Lemma find_upwards_loop_ok h B F X n k : heap_ok h B F X → 0 <= k → k + Z.of_nat n = 15 →
  ∃ r, find_upwards_loop n k h = Ret (r, h) ∧
    match r with Some j => k <= j <= 14 ∧ F j ≠ [] | None => True end.
Proof.
  intros Hok. revert k. induction n as [|n IH]; intros k Hk Hn; [by exists None|]. cbn [find_upwards_loop].
  rewrite (bind_run _ _ _ _ _ (bucket_start_ok h B F X k Hok ltac:(lia))).
  destruct (truthy (hd 0 (F k))) eqn:Et.
  - exists (Some k). split; [done|]. split; [lia|]. intros E. rewrite E in Et. done.
  - destruct (IH (k + 1)) as (r & E & Hr); [lia|lia|]. exists r. split; [done|].
    destruct r; [|done]. destruct Hr. split; [lia|done].
Qed.

Lemma find_upwards_ok h B F index : heap_ok h B F ∅ → room h → 1 <= index <= 15 →
  ∃ r h' B' F', c4a_find_upwards_bucket index h = Ret (r, h') ∧ heap_ok h' B' F' ∅ ∧ F' r ≠ [] ∧
    index - 1 <= r <= 14 ∧ same_used B B' ∧ heap_end h' <= heap_end h + super.
Proof.
  intros Hok Hroom Hi. unfold c4a_find_upwards_bucket, C4A_MAX_BUCKETS.
  destruct (find_upwards_loop_ok h B F ∅ (Z.to_nat (14 + 1 - index)) index Hok) as (r & E & Hr); [lia|lia|].
  rewrite (bind_run _ _ _ _ _ E). destruct r as [j|].
  - exists j, h, B, F. destruct Hr. unfold super. split_and!; (done || lia).
  - destruct (grow_ok h B F Hok Hroom) as (h' & B' & F' & E' & Hok' & HF & Hu & Hs & Hpg).
    rewrite (bind_run _ _ _ _ _ E'). exists 14, h', B', F'. split_and!; try (done || lia). unfold heap_end, super, PAGE_SIZE. lia.
Qed.

(** ** Splitting down *)
Lemma pop_ok h B F k : heap_ok h B F ∅ → 0 <= k <= 14 → F k ≠ [] →
  ∃ a h' F', c4a_bucket_pop k h = Ret (a, h') ∧ hd 0 (F k) = a ∧ heap_ok h' B F' {[a]} ∧
    B !! a = Some (k, false) ∧ 0 < a ∧ lget (nodes h') a = Some (0, 0) ∧ heap_end h' = heap_end h.
Proof.
  intros Hok Hk HF. unfold c4a_bucket_pop. rewrite (bind_run _ _ _ _ _ (bucket_start_ok h B F ∅ k Hok Hk)).
  destruct (truthy (hd 0 (F k))) eqn:Et; [|by apply (hd_truthy h B F ∅) in Et].
  destruct (F k) as [|a l] eqn:E; [done|]. cbn [hd] in *.
  assert (a ∈ F k) as Ha by (rewrite E; left).
  destruct (free_member h B F ∅ k a Hok Hk Ha) as (HB & _ & Hpos).
  destruct (unlink_listed h B F ∅ k a Hok Hk Ha) as (h' & F' & E' & Hok' & _ & Hl & _ & _ & Hs & Hpg).
  assert (heap_end h' = heap_end h) by (unfold heap_end; congruence).
  rewrite (bind_run _ _ _ _ _ E'). exists a, h', F'. rewrite right_id_L in Hok' by apply _. split_and!; done.
Qed.

Lemma pop_empty h B F k : heap_ok h B F ∅ → 0 <= k <= 14 → F k = [] → c4a_bucket_pop k h = Ret (0, h).
Proof.
  intros Hok Hk HF. unfold c4a_bucket_pop.
  by rewrite (bind_run _ _ _ _ _ (bucket_start_ok h B F ∅ k Hok Hk)), HF.
Qed.

Lemma hsplit_ok h B F X a k : heap_ok h B F X → a ∈ X → B !! a = Some (k, false) → 6 <= k →
  let b := a + 2 ^ (k - 1) in
  ∃ h', c4a_split_node a h = Ret (b, h') ∧ heap_ok h' (halves B a k) F ({[b]} ∪ X) ∧
    same_used B (halves B a k) ∧ heap_end h' = heap_end h.
Proof.
  intros [Hb Hl] Hax HBa Hk b. destruct (b_node _ _ Hb _ _ _ HBa) as (pn & pp & Hpa).
  destruct (split_headers h B a k pn pp Hb HBa Hk Hpa) as (m & E & Hm & Hlg). fold b in E, Hm, Hlg.
  pose proof (pow2_pos (k - 1) ltac:(lia)). pose proof (pow2_half k ltac:(lia)).
  assert (B !! b = None) as HBb.
  { destruct (B !! b) as [[kb ub]|] eqn:EB; [|done].
    pose proof (b_disj _ _ Hb _ _ _ _ _ _ HBa EB). subst b. lia. }
  assert (∀ x, halves B a k !! x = if decide (x = a) then Some (k - 1, false)
    else if decide (x = b) then Some (k - 1, false) else B !! x) as Hh by (intros; apply halves_lookup; lia).
  eexists. split; [exact E|]. split_and!; [|intros x kx; rewrite Hh|done].
  - split; [by apply (split_blocks h _ B a k pn pp)|].
    apply (lists_same h _ B _ F X _); [done| | | |done]; cbn [nodes with_nodes].
    + intros x kx HBx Hx. apply Hlg; [by intros ->|]. intros ->. congruence.
    + intros x kx. rewrite Hh, not_elem_of_union, not_elem_of_singleton.
      destruct (decide (x = a)) as [->|Hxa]; [naive_solver|]. destruct (decide (x = b)) as [->|Hxb]; [naive_solver|].
      naive_solver.
    + intros x Hx. rewrite Hh. destruct (decide (x = a)); [eauto|]. destruct (decide (x = b)); [eauto|].
      apply (l_held _ _ _ _ Hl). set_solver.
  - destruct (decide (x = a)) as [->|Hxa]; [naive_solver|]. destruct (decide (x = b)) as [->|Hxb]; naive_solver.
Qed.

Lemma spillover_loop_ok n h B F a i : heap_ok h B F {[a]} → B !! a = Some (i, false) → 5 <= i - Z.of_nat n →
  ∃ h' B' F', spillover_loop n a i h = Ret (tt, h') ∧ heap_ok h' B' F' {[a]} ∧
    B' !! a = Some (i - Z.of_nat n, false) ∧ same_used B B' ∧ heap_end h' = heap_end h.
Proof.
  revert h B F i. induction n as [|n IH]; intros h B F i Hok HBa Hi.
  { exists h, B, F. replace (i - Z.of_nat 0) with i by lia. done. }
  cbn [spillover_loop].
  destruct (hsplit_ok h B F {[a]} a i Hok ltac:(set_solver) HBa ltac:(lia)) as (h1 & E1 & Hok1 & Hu1 & Hs1).
  rewrite (bind_run _ _ _ _ _ E1). set (b := a + 2 ^ (i - 1)) in *.
  pose proof (pow2_pos (i - 1) ltac:(lia)).
  assert (halves B a i !! b = Some (i - 1, false)) as HBb.
  { rewrite halves_lookup by (subst b; lia). rewrite decide_False, decide_True by (subst b; lia). done. }
  assert (halves B a i !! a = Some (i - 1, false)) as HBa1.
  { rewrite halves_lookup by (subst b; lia). by rewrite decide_True. }
  destruct (insert_held h1 _ F _ (i - 1) b Hok1 ltac:(set_solver) HBb) as (h2 & E2 & Hok2 & _ & _ & Hs2 & Hg2).
  rewrite (bind_run _ _ _ _ _ E2).
  replace (({[b]} ∪ {[a]}) ∖ {[b]}) with ({[a]} : gset Z) in Hok2 by (assert (a ≠ b) by (subst b; lia); set_solver).
  destruct (IH h2 _ _ (i - 1) Hok2 HBa1 ltac:(lia)) as (h' & B' & F' & E & Hok' & HB' & Hu & Hs).
  exists h', B', F'. split_and!; [done|done| | |unfold heap_end in *; congruence].
  - rewrite HB'. do 2 f_equal. lia.
  - by eapply same_used_trans.
Qed.

Lemma get_node_ok h B F index : heap_ok h B F ∅ → room h → 5 <= index <= 14 →
  ∃ a h' B' F', c4a_get_node_from_bucket index h = Ret (a, h') ∧ heap_ok h' B' F' {[a]} ∧ 0 < a ∧
    B' !! a = Some (index, false) ∧ same_used B B' ∧ heap_end h' <= heap_end h + super.
Proof.
  intros Hok Hroom Hi. unfold c4a_get_node_from_bucket.
  assert (F index = [] ∨ F index ≠ []) as [HF|HF] by (destruct (F index); auto).
  - rewrite (bind_run _ _ _ _ _ (pop_empty h B F index Hok ltac:(lia) HF)). cbn [Z.eqb].
    destruct (find_upwards_ok h B F (index + 1) Hok Hroom ltac:(lia)) as (up & h1 & B1 & F1 & E1 & Hok1 & HF1 & Hup & Hu1 & Hs1).
    rewrite (bind_run _ _ _ _ _ E1). unfold c4a_bucket_spillover. rewrite !bind_assoc_run.
    destruct (pop_ok h1 B1 F1 up Hok1 ltac:(lia) HF1) as (a & h2 & F2 & E2 & _ & Hok2 & HB2 & Ha0 & _ & Hs2).
    rewrite (bind_run _ _ _ _ _ E2), bind_assoc_run.
    destruct (spillover_loop_ok (Z.to_nat (up - index)) h2 B1 F2 a up Hok2 HB2 ltac:(lia)) as (h3 & B3 & F3 & E3 & Hok3 & HB3 & Hu3 & Hs3).
    rewrite (bind_run _ _ _ _ _ E3). replace (up - Z.of_nat (Z.to_nat (up - index))) with index in HB3 by lia.
    destruct (insert_held h3 B3 F3 {[a]} index a Hok3 ltac:(set_solver) HB3) as (h4 & E4 & Hok4 & _ & _ & Hs4 & Hg4).
    rewrite (bind_run _ _ _ _ _ E4). replace (({[a]} : gset Z) ∖ {[a]}) with (∅ : gset Z) in Hok4 by set_solver.
    destruct (pop_ok h4 _ _ index Hok4 ltac:(lia)) as (a' & h5 & F5 & E5 & Ea & Hok5 & HB5 & _ & Hl5 & Hs5);
      [by rewrite decide_True|]. rewrite decide_True in Ea by done. simpl in Ea. subst a'.
    rewrite (bind_run _ _ _ _ _ E5).
    destruct (unlink_held h5 _ _ {[a]} a Hok5 ltac:(set_solver) Hl5) as (h6 & E6 & Hok6 & _ & _ & Hs6 & Hg6).
    rewrite (bind_run _ _ _ _ _ E6). exists a, h6, B3, F5. split_and!; try done; [|unfold heap_end in *; rewrite Hs6, Hg6, Hs5, Hs4, Hg4, Hs3, Hs2; lia].
    by eapply same_used_trans.
  - destruct (pop_ok h B F index Hok ltac:(lia) HF) as (a & h1 & F1 & E1 & _ & Hok1 & HB & Ha0 & _ & Hs1).
    rewrite (bind_run _ _ _ _ _ E1). replace (a =? 0) with false by lia.
    exists a, h1, B, F1. split_and!; try done. unfold super. lia.
Qed.

(** ** [c4a_alloc] *)
Definition heap_inv h : Prop := ∃ B F, heap_ok h B F ∅.

(** The first byte after the block a pointer was handed out for. *)
Definition block_end h (p : Z) : Z :=
  match nodes h !! (p - sizeof_node) with
  | Some n => p - sizeof_node + 2 ^ bucket n
  | None => p
  end.

Lemma block_end_ok h B p k u : blocks_ok h B → B !! (p - sizeof_node) = Some (k, u) →
  block_end h p = p - sizeof_node + 2 ^ k.
Proof.
  intros Hb HB. destruct (b_node _ _ Hb _ _ _ HB) as (? & ? & (n & En & Hn)%pget_Some).
  unfold block_end. rewrite En. by injection Hn as _ -> _ _.
Qed.

Lemma live_disjoint h p q : heap_inv h → p ∈ live h → q ∈ live h → p ≠ q →
  block_end h p <= q - sizeof_node ∨ block_end h q <= p - sizeof_node.
Proof.
  intros (B & F & [Hb _]) [kp HBp]%(live_spec h B) [kq HBq]%(live_spec h B) Hne; [|done..].
  rewrite (block_end_ok h B p kp true), (block_end_ok h B q kq true) by done.
  assert (p - sizeof_node < q - sizeof_node ∨ q - sizeof_node < p - sizeof_node) as [Hlt|Hlt] by lia.
  - left. by apply (b_disj _ _ Hb _ _ _ _ _ _ HBp HBq).
  - right. by apply (b_disj _ _ Hb _ _ _ _ _ _ HBq HBp).
Qed.

Lemma c4a_alloc_ok h size : heap_inv h → room h → 0 <= size → size + sizeof_node < 2 ^ 32 →
  (2 ^ C4A_MAX_BUCKETS < size + sizeof_node ∧ c4a_alloc size h = Ret (0, h)) ∨
  (∃ p h', c4a_alloc size h = Ret (p, h') ∧ heap_inv h' ∧ 0 < p ∧ p ∉ live h ∧
     live h' = {[p]} ∪ live h ∧ p + size <= block_end h' p ∧ heap_end h' <= heap_end h + super).
Proof.
  intros (B & F & Hok) Hroom H0 H1. destruct (alloc_index_ok size H0 H1) as (Hi & Hsz & Hlo).
  unfold c4a_alloc. unfold C4A_MAX_BUCKETS. destruct (Z.ltb_spec 14 (alloc_index size)) as [Hbig|Hfit].
  - left. split; [|done]. eapply Z.le_lt_trans; [|exact Hlo]. apply Z.pow_le_mono_r; lia.
  - right. destruct (get_node_ok h B F (alloc_index size) Hok Hroom ltac:(lia)) as (a & h1 & B1 & F1 & E1 & Hok1 & Ha0 & HB1 & Hu1 & Hs1).
    rewrite (bind_run _ _ _ _ _ E1).
    destruct (set_status_ok h1 B1 F1 {[a]} ∅ a _ false true Hok1 HB1) as (m & E2 & Hok2 & _); [set_solver|right; set_solver|].
    cbn [status_of] in E2. rewrite (bind_run _ _ _ _ _ E2).
    pose proof (h_blocks _ _ _ _ Hok2) as Hb2. pose proof (b_end _ _ Hb2) as He. pose proof (b_start _ _ Hb2) as Hst.
    assert (HB2 : <[a:=(alloc_index size, true)]> B1 !! a = Some (alloc_index size, true)) by apply lookup_insert_eq.
    pose proof (b_range _ _ Hb2 _ _ _ HB2) as (_ & Has & Hae & _).
    assert (2 ^ 5 <= 2 ^ alloc_index size) by (apply Z.pow_le_mono_r; lia).
    exists (a + sizeof_node), (with_nodes m h1). unfold sizeof_node in *. split_and!.
    + do 2 f_equal. rewrite u32_small by lia. done.
    + by eexists _, _.
    + lia.
    + intros [k HB]%(live_spec h B); [|apply Hok]. unfold sizeof_node in HB. replace (a + 20 - 20) with a in HB by lia.
      apply Hu1 in HB. congruence.
    + apply set_eq. intros x. rewrite elem_of_union, elem_of_singleton.
      rewrite (live_spec _ _ x Hb2), (live_spec h B) by apply Hok. unfold sizeof_node. split.
      * intros [k Hx]. destruct (decide (x - 20 = a)) as [Ex|Hx']; [left; lia|right].
        rewrite lookup_insert_ne in Hx by done. exists k. by apply Hu1.
      * intros [->|[k Hx]]; [replace (a + 20 - 20) with a by lia; eauto|].
        destruct (decide (x - 20 = a)) as [<-|Hx']; [eauto|].
        exists k. rewrite lookup_insert_ne by done. by apply Hu1.
    + rewrite (block_end_ok _ _ (a + 20) (alloc_index size) true Hb2); unfold sizeof_node.
      * lia.
      * by replace (a + 20 - 20) with a by lia.
    + done.
Qed.
End ops.

(** ** The interface *)
#[global] Instance c4a_allocator : Allocator c4a_heap :=
  {| al_alloc := malloc; al_free := free; al_live := live; al_inv := heap_inv; al_room := room |}.

#[global] Instance c4a_laws : AllocatorLaws c4a_heap.
Proof.
  split; simpl.
  - intros n h Hi Hroom Hn. unfold malloc.
    destruct (c4a_alloc_ok h n Hi Hroom) as [[_ E]|(p & h' & E & Hi' & Hp & Hf & Hl & _)];
      [lia|unfold sizeof_node; lia|exists 0, h; naive_solver|].
    exists p, h'. split_and!; [done|done|]. right. split_and!; [lia|done|done].
  - intros a h (B & F & Hok) Ha.
    destruct (c4a_free_ok h B F a Hok Ha) as (h' & B' & F' & E & Hok' & Hl & _).
    exists h'. split_and!; [|by exists B', F'|done]. unfold free, truthy.
    apply (live_spec h B) in Ha as [k HB]; [|apply Hok].
    apply (block_pos _ _ _ _ _ (h_blocks _ _ _ _ Hok)) in HB. unfold sizeof_node in HB.
    destruct (Z.eqb_spec a 0); [lia|]. done.
Qed.

(** A new heap. *)
Lemma heap_init_ok location : 0 < location <= 2 ^ 32 → heap_inv (c4a_heap_init location).
Proof.
  intros Hl. exists ∅, (λ _, []). split.
  - split; unfold heap_end, PAGE_SIZE; simpl; try done; try lia; intros *; rewrite lookup_empty; done.
  - split; cbn [buckets nodes c4a_heap_init].
    + intros k Hk. apply zget_Some. split; [lia|]. apply lookup_replicate. split; [done|lia].
    + done.
    + intros. constructor.
    + intros k a Hk. rewrite lookup_empty. set_solver.
    + set_solver.
Qed.

(** A heap with [n] superblocks of address space left serves [n] small
    allocations, whatever is freed between them. *)
Lemma c4a_plenty n : ∀ h, heap_inv h → heap_end h + Z.of_nat n * super < 2 ^ 32 → plenty n h.
Proof.
  induction n as [|n IH]; intros h Hi Hroom; [done|]. assert (room h) as Hr by (unfold room, super in *; lia). split_and!; [done| |].
  - intros k Hk. destruct (c4a_alloc_ok h k Hi Hr ltac:(lia) ltac:(unfold sizeof_node; lia)) as [[Hb _]|(p & h' & E & Hi' & Hp & _ & _ & _ & He)].
    + exfalso. unfold C4A_MAX_BUCKETS, sizeof_node in Hb. lia.
    + exists p, h'. split_and!; [done|lia|]. apply IH; [done|]. unfold super in *. lia.
  - intros a h' Ha E. simpl in E, Ha. pose proof Hi as (B & F & Hok). destruct (c4a_free_ok h B F a Hok Ha) as (h1 & B' & F' & E1 & Hok' & _ & Hs & Hp).
    assert (a ≠ 0). { apply (live_spec h B) in Ha as [k HB]; [|apply Hok].
      apply (block_pos _ _ _ _ _ (h_blocks _ _ _ _ Hok)) in HB. unfold sizeof_node in HB. lia. }
    unfold free, truthy in E. rewrite (proj2 (Z.eqb_neq a 0) ltac:(done)) in E. cbn [negb] in E.
    rewrite E1 in E. injection E as <-. apply IH; [by exists B', F'|]. unfold heap_end, super in *. rewrite Hs, Hp. lia.
Qed.

(** C5: an allocation from a heap in the invariant returns: [NULL] exactly for
    requests larger than a superblock can hold, and otherwise a block that was
    not live, is large enough, overlaps no live block, and is live from now on. *)
Theorem c4a_alloc_correct h size : heap_inv h → room h → 0 <= size → size + sizeof_node < 2 ^ 32 →
  if 2 ^ C4A_MAX_BUCKETS <? size + sizeof_node then c4a_alloc size h = Ret (0, h)
  else ∃ p h', c4a_alloc size h = Ret (p, h') ∧ heap_inv h' ∧ 0 < p ∧ p ∉ live h ∧
    live h' = {[p]} ∪ live h ∧ p + size <= block_end h' p ∧
    ∀ q, q ∈ live h → block_end h' p <= q - sizeof_node ∨ block_end h' q <= p - sizeof_node.
Proof.
  intros Hi Hroom H0 H1. destruct (Z.ltb_spec (2 ^ C4A_MAX_BUCKETS) (size + sizeof_node)) as [Hbig|Hfit];
    destruct (c4a_alloc_ok h size Hi Hroom H0 H1) as [[Hc E]|(p & h' & E & Hi' & Hp & Hf & Hl & He & _)]; [done| |lia|].
  - exfalso. destruct (alloc_index_ok size H0 H1) as (Hi5 & Hsz & _).
    assert (14 < alloc_index size) as Hlt.
    { apply (Z.pow_lt_mono_r_iff 2); [lia|lia|]. unfold C4A_MAX_BUCKETS in Hbig. lia. }
    unfold c4a_alloc, C4A_MAX_BUCKETS in E. destruct (Z.ltb_spec 14 (alloc_index size)); [|lia].
    injection E as <- _. lia.
  - exists p, h'. split_and!; try done. intros q Hq. apply live_disjoint; [done|rewrite Hl; set_solver..|].
    intros ->. done.
Qed.

(** C6: freeing a live block takes exactly that block back and keeps the
    invariant; a pointer whose block is not in use (a double free) is refused
    and changes nothing. *)
Theorem c4a_free_correct h ptr : heap_inv h → ptr ∈ live h →
  (∃ h', free ptr h = Ret (tt, h') ∧ heap_inv h' ∧ live h' = live h ∖ {[ptr]}) ∧
  (∀ q n, sizeof_node <= q < 2 ^ 32 → nodes h !! (q - sizeof_node) = Some n → q ∉ live h →
     free q h = Ret (tt, h)).
Proof.
  intros Hi Hp. split; [exact (@al_free_ok c4a_heap c4a_allocator c4a_laws ptr h Hi Hp)|]. intros q n Hq En Hnl. unfold free, truthy, sizeof_node in *.
  destruct (Z.eqb_spec q 0); [lia|]. cbn [negb]. unfold c4a_free, sizeof_node.
  rewrite u32_small by lia. rewrite (bind_run _ _ _ _ _ (hload_ok _ _ _ En)).
  destruct (Z.eqb_spec (status n) C4A_STATUS_USED) as [Hu|Hu]; [|done]. exfalso. apply Hnl. unfold live, sizeof_node.
  apply elem_of_map. exists (q - 20). split; [lia|]. apply elem_of_dom. exists n. by apply map_lookup_filter_Some.
Qed.

(** A request within 20 bytes of 2^32 wraps around and is answered with a
    block of at most 32 bytes. *)
Theorem c4a_alloc_wraps size : 2 ^ 32 - sizeof_node <= size < 2 ^ 32 → 2 ^ alloc_index size <= 32.
Proof.
  intros Hs. unfold alloc_index. set (adj := u32 (size + sizeof_node)).
  assert (0 <= adj < 20) as Ha.
  { subst adj. unfold sizeof_node, wrapu in *. replace (size + 20) with (size + 20 - 2 ^ 32 + 1 * 2 ^ 32) by lia.
    rewrite Z.mod_add by lia. rewrite Z.mod_small; lia. }
  clearbody adj. assert (∃ n : nat, (n < 20)%nat ∧ adj = Z.of_nat n) as (n & Hn & ->) by (exists (Z.to_nat adj); lia).
  do 20 (destruct n as [|n]; [by vm_compute|]). lia.
Qed.

Lemma c4a_alloc_wraps_witness : 2 ^ alloc_index (2 ^ 32 - 1) <= 32.
Proof. apply c4a_alloc_wraps. unfold sizeof_node. lia. Defined.

Lemma c4a_alloc_correct_witness :
  c4a_alloc 20000 (c4a_heap_init 65536) = Ret (0, c4a_heap_init 65536) ∧
  ∃ p h', c4a_alloc 100 (c4a_heap_init 65536) = Ret (p, h') ∧ 0 < p.
Proof.
  assert (heap_inv (c4a_heap_init 65536)) as Hi by (apply heap_init_ok; lia).
  assert (room (c4a_heap_init 65536)) as Hr by (vm_compute; reflexivity).
  split.
  - exact (c4a_alloc_correct (c4a_heap_init 65536) 20000 Hi Hr ltac:(lia) ltac:(unfold sizeof_node; lia)).
  - destruct (c4a_alloc_correct (c4a_heap_init 65536) 100 Hi Hr ltac:(lia) ltac:(unfold sizeof_node; lia))
      as (p & h' & E & _ & Hp & _). exists p, h'. split; [exact E|exact Hp].
Defined.

(** A heap with one block handed out. *)
Definition one_block : c4a_heap :=
  match c4a_alloc 100 (c4a_heap_init 65536) with Ret (_, h) => h | _ => c4a_heap_init 65536 end.

Lemma one_block_ok : heap_inv one_block ∧ 65556 ∈ live one_block.
Proof.
  destruct (c4a_alloc_ok (c4a_heap_init 65536) 100) as [[HF _]|(p & h' & E & Hi & _ & _ & Hl & _)];
    [apply heap_init_ok; lia|vm_compute; reflexivity|lia|unfold sizeof_node; lia|by vm_compute in HF|].
  assert (match c4a_alloc 100 (c4a_heap_init 65536) with Ret (q, _) => q | _ => 0 end = 65556) as Hq
    by (vm_compute; reflexivity).
  unfold one_block. rewrite E in Hq |- *. subst p. split; [exact Hi|]. rewrite Hl.
  apply elem_of_union_l, elem_of_singleton. reflexivity.
Qed.

Lemma c4a_free_correct_witness : ∃ h', free 65556 one_block = Ret (tt, h') ∧ heap_inv h'.
Proof.
  destruct (c4a_free_correct one_block 65556 (proj1 one_block_ok) (proj2 one_block_ok)) as [(h' & E & Hi & _) _].
  exists h'. split; [exact E|exact Hi].
Defined.
