(* ===== verification/Addrman.v ===== *)
(** The address space manager ([libraries/c4rt/src/addrman.c],
    [include/c4rt/addrman.h]): a region of pages cut into blocks, each
    described by a [c4rt_vnode_t], indexed by two trees over the same nodes.
    [layout] is ordered by page offset and holds every block; [free_nodes] is
    ordered by size and holds the free ones.  Both trees, the vnodes and the
    allocator behind [calloc] share one memory.  [AddrmanInv.v] shows what the
    operations do. *)

From S2P Require Import Prelude Interfaces AndTree.
#[local] Open Scope Z_scope.

(** [struct c4rt_vnode]. *)
Record c4rt_vnode := mk_vnode { vsize : Z; voffset : Z; vis_free : bool }.

#[export] Instance c4rt_vnode_eq_dec : EqDecision c4rt_vnode.
Proof. solve_decision. Defined.

(** A [c4rt_andtree_t]: its root and its node count. *)
Record andtree := mk_andtree { at_root : nptr; at_nodes : Z }.

(** [struct c4rt_vaddr_region] with the memory it lives in. *)
Record c4rt_vaddr_region (H : Type) := mk_region {
  layout : andtree;
  free_nodes : andtree;
  base : Z;
  r_heap : H;
  r_mem : gmap nptr c4rt_andnode;
  vnodes : gmap Z c4rt_vnode
}.
Arguments mk_region {H}.
Arguments layout {H}.
Arguments free_nodes {H}.
Arguments base {H}.
Arguments r_heap {H}.
Arguments r_mem {H}.
Arguments vnodes {H}.

(** [PAGE_SIZE] and [sizeof(c4rt_vnode_t)], [sizeof(c4rt_vaddr_region_t)]. *)
Definition PAGE_SIZE : Z := 0x1000.
Definition sizeof_vnode : Z := 12.
Definition sizeof_region : Z := 28.

Section addrman.
Context {H : Type} `{Allocator H}.
Abbreviation R := (M (c4rt_vaddr_region H)).

(** What a tree operation sees of the region. *)
Definition tree_view (t : andtree) (r : c4rt_vaddr_region H) : anstate H :=
  mk_anstate (at_root t) (at_nodes t) (r_heap r) (r_mem r).

Definition layout_view (r : c4rt_vaddr_region H) : anstate H := tree_view (layout r) r.
Definition free_view (r : c4rt_vaddr_region H) : anstate H := tree_view (free_nodes r) r.

Definition set_layout_view (s : anstate H) (r : c4rt_vaddr_region H) : c4rt_vaddr_region H :=
  mk_region (mk_andtree (t_root s) (t_nodes s)) (free_nodes r) (base r) (t_heap s) (t_mem s) (vnodes r).
Definition set_free_view (s : anstate H) (r : c4rt_vaddr_region H) : c4rt_vaddr_region H :=
  mk_region (layout r) (mk_andtree (t_root s) (t_nodes s)) (base r) (t_heap s) (t_mem s) (vnodes r).

Definition on_layout {A} (m : M (anstate H) A) : R A := zoom layout_view set_layout_view m.
Definition on_free {A} (m : M (anstate H) A) : R A := zoom free_view set_free_view m.

Definition on_rheap {A} (m : M H A) : R A :=
  zoom r_heap (λ h r, mk_region (layout r) (free_nodes r) (base r) h (r_mem r) (vnodes r)) m.

Definition set_vnodes (f : gmap Z c4rt_vnode → gmap Z c4rt_vnode) : R unit :=
  modify (λ r, mk_region (layout r) (free_nodes r) (base r) (r_heap r) (r_mem r) (f (vnodes r))).

Definition load_vnode (a : Z) : R c4rt_vnode := getsome (λ r, vnodes r !! a).

Definition upd_vnode (a : Z) (f : c4rt_vnode → c4rt_vnode) : R unit :=
  v ← load_vnode a; set_vnodes (insert a (f v)).

(** The tree keys, as [int]; the trees only ask for keys of their own data. *)
Definition vnode_get_offset (vs : gmap Z c4rt_vnode) (a : Z) : Z := i32 (from_option voffset 0 (vs !! a)).
Definition vnode_get_size (vs : gmap Z c4rt_vnode) (a : Z) : Z := i32 (from_option vsize 0 (vs !! a)).

(** Operations on the two trees, with the keys the vnodes have now. *)
Definition layout_op {A} (op : (Z → Z) → M (anstate H) A) : R A :=
  r ← get; on_layout (op (vnode_get_offset (vnodes r))).
Definition free_op {A} (op : (Z → Z) → M (anstate H) A) : R A :=
  r ← get; on_free (op (vnode_get_size (vnodes r))).

(** A failed [calloc] is a null dereference. *)
Definition make_vnode (size offset : Z) : R Z :=
  ret ← on_rheap (al_alloc sizeof_vnode);
  if ret =? 0 then ub
  else set_vnodes (insert ret (mk_vnode size offset true));; mret ret.

Context (fuel : nat).

Definition set_vfree (b : bool) (v : c4rt_vnode) : c4rt_vnode := mk_vnode (vsize v) (voffset v) b.
Definition set_vsize (n : Z) (v : c4rt_vnode) : c4rt_vnode := mk_vnode n (voffset v) (vis_free v).

Definition split_vnode (node size : Z) : R Z :=
  free_op (λ k, andtree_remove_data k fuel node);;
  upd_vnode node (set_vfree false);;
  v ← load_vnode node;
  (if size =? vsize v then mret tt
   else
     layout_op (λ k, andtree_remove_data k fuel node);;
     vn ← make_vnode (u32 (vsize v - size)) (u32 (voffset v + size));
     upd_vnode node (set_vsize size);;
     free_op (λ k, andtree_insert k fuel vn);;
     layout_op (λ k, andtree_insert k fuel node);;
     layout_op (λ k, andtree_insert k fuel vn);;
     mret tt);;
  mret node.

(** [0] is [NULL]. *)
Definition try_merge (a b : Z) : R Z :=
  if (a =? 0) || (b =? 0) then mret 0
  else
    va ← load_vnode a;
    vb ← load_vnode b;
    if negb (vis_free va) || negb (vis_free vb) then mret 0
    else
      let lower := if voffset va <? voffset vb then a else b in
      let upper := if voffset va <? voffset vb then b else a in
      layout_op (λ k, andtree_remove_data k fuel upper);;
      free_op (λ k, andtree_remove_data k fuel lower);;
      free_op (λ k, andtree_remove_data k fuel upper);;
      vu ← load_vnode upper;
      upd_vnode lower (λ v, set_vsize (u32 (vsize v + vsize vu)) v);;
      free_op (λ k, andtree_insert k fuel lower);;
      mret lower.

(** [node? node->data : NULL] *)
Definition data_of (p : nptr) : R Z :=
  if decide (p = PNull) then mret 0 else n ← on_layout (load p); mret (ndata n).

Fixpoint merge_loop (n : nat) (temp : Z) : R unit :=
  match n with
  | O => nofuel
  | S n' =>
      if temp =? 0 then mret tt
      else
        laynode ← layout_op (λ k, andtree_find_data k fuel temp);
        prevnode ← on_layout (andtree_previous fuel laynode);
        nextnode ← on_layout (andtree_next fuel laynode);
        prev ← data_of prevnode;
        next ← data_of nextnode;
        foo ← try_merge prev temp;
        temp' ← (if truthy foo then mret foo else try_merge temp next);
        merge_loop n' temp'
  end.

Definition free_vnode (node : Z) : R unit :=
  upd_vnode node (set_vfree true);;
  free_op (λ k, andtree_insert k fuel node);;
  merge_loop fuel node.

Definition alloc_vnode (size : Z) : R Z :=
  temp ← free_op (λ k, andtree_find_at_least k fuel (i32 size));
  if decide (temp = PNull) then mret 0
  else
    n ← on_free (load temp);
    let node := ndata n in
    v ← load_vnode node;
    if size <=? vsize v then split_vnode node size else mret 0.

(** The region is built in a memory that holds the static sentinel; the old
    contents of the record are what [calloc] zeroes. *)
Definition c4rt_vaddr_region_create (b pages : Z) : R Z :=
  ret ← on_rheap (al_alloc sizeof_region);
  root ← make_vnode pages 0;
  if ret =? 0 then ub
  else
    modify (λ r, mk_region (layout r) (free_nodes r) b (r_heap r) (r_mem r) (vnodes r));;
    on_layout andtree_init;;
    on_free andtree_init;;
    layout_op (λ k, andtree_insert k fuel root);;
    free_op (λ k, andtree_insert k fuel root);;
    mret ret.

Definition size_to_pages (size : Z) : Z := u32 (size / PAGE_SIZE + Z.b2z (negb (size mod PAGE_SIZE =? 0))).

Definition c4rt_vaddr_alloc (size : Z) : R Z :=
  let pages := size_to_pages size in
  node ← alloc_vnode pages;
  if node =? 0 then mret 0
  else v ← load_vnode node; r ← get; mret (u32 (base r + u32 (voffset v * PAGE_SIZE))).

Definition c4rt_vaddr_free (ptr : Z) : R unit :=
  r ← get;
  let offset := u32 (ptr - base r) / PAGE_SIZE in
  node ← layout_op (λ k, andtree_find_key k fuel (i32 offset));
  if decide (node = PNull) then mret tt
  else n ← on_layout (load node); free_vnode (ndata n).

Definition c4rt_vaddr_size (ptr : Z) : R Z :=
  r ← get;
  let offset := u32 (ptr - base r) / PAGE_SIZE in
  node ← layout_op (λ k, andtree_find_key k fuel (i32 offset));
  if decide (node = PNull) then mret 0
  else n ← on_layout (load node); r' ← get; mret (u32 (vnode_get_size (vnodes r') (ndata n) * PAGE_SIZE)).
End addrman.
