(* ===== verification/AddrmanInv.v ===== *)
(** What the address space manager's tree operations do to a region: the two
    trees and the vnodes live side by side in one memory, so an operation on one
    must leave the other alone.  [two_inv] says they do; the step lemmas show
    that every operation of [Addrman.v] keeps it.  On top of it [region_inv] ties
    the trees to the list of blocks the region is cut into. *)

From S2P Require Import Prelude Interfaces AATree AndTree AndTreeRep AndTreeInsert AndTreeRemove AndTreeFind Addrman.
#[local] Open Scope Z_scope.

(** Enough fuel for both trees of a region of at most 2^20 pages. *)
Definition region_fuel : nat := 276.
Definition MAX_PAGES : Z := 2 ^ 20.

Lemma region_fuel_enough n : Z.of_nat n <= MAX_PAGES + 1 → (tree_fuel n <= region_fuel)%nat.
Proof.
  intros Hn. unfold tree_fuel, region_fuel, MAX_PAGES in *.
  assert (Z.log2 (Z.of_nat n + 1) <= 21).
  { transitivity (Z.log2 (2 ^ 21)); [apply Z.log2_le_mono; lia|].
    rewrite Z.log2_pow2; lia. }
  pose proof (Z.log2_nonneg (Z.of_nat n + 1)). lia.
Qed.

Section steps.
Context {H : Type} `{AllocatorLaws H}.
Implicit Types r : c4rt_vaddr_region H.

(** A tree [t] under operation, another tree [u] in the same memory, and the
    vnodes [V]: none overlaps another. *)
Record beside (k : Z → Z) (s : anstate H) (t : aatree) (k' : Z → Z) (o : andtree) (u : aatree) (V : list Z) : Prop := {
  bs_tree : tree_inv k s t;
  bs_other : tree_inv k' (mk_anstate (at_root o) (at_nodes o) (t_heap s) (t_mem s)) u;
  bs_disj : ∀ a, a ∈ addrs t → a ∉ addrs u;
  bs_vnodes : ∀ v, v ∈ V → v ≠ 0 ∧ v ∈ al_live (t_heap s) ∧ v ∉ addrs t ∧ v ∉ addrs u
}.

(** Keys that compare without overflow. *)
Definition keys_ok (k : Z → Z) (xs : list Z) : Prop := ∀ x, x ∈ xs → 0 <= k x < 2 ^ 31.

Lemma keys_cmp k x t : 0 <= k x < 2 ^ 31 → keys_ok k (elements t) → cmp_ok k (k x) t.
Proof. intros Hx Hk. by apply (cmp_ok_bound k _ t 0). Qed.

Lemma layout_op_ok {A} (op : (Z → Z) → M (anstate H) A) r v s' :
  op (vnode_get_offset (vnodes r)) (layout_view r) = Ret (v, s') → layout_op op r = Ret (v, set_layout_view s' r).
Proof. unfold layout_op, on_layout, zoom, mbind, M_bind, get. by intros ->. Qed.

Lemma free_op_ok {A} (op : (Z → Z) → M (anstate H) A) r v s' :
  op (vnode_get_size (vnodes r)) (free_view r) = Ret (v, s') → free_op op r = Ret (v, set_free_view s' r).
Proof. unfold free_op, on_free, zoom, mbind, M_bind, get. by intros ->. Qed.

Lemma size_elements t : tree_size t = length (elements t).
Proof. unfold elements. by rewrite length_fmap, length_inorder. Qed.

(** *** One tree changes, the other does not *)

Lemma insert_beside fuel x k s t k' o u V n :
  beside k s t k' o u V → 0 <= k x < 2 ^ 31 → keys_ok k (elements t) →
  Z.of_nat (length (elements t)) <= MAX_PAGES → (region_fuel <= fuel)%nat → plenty (S n) (t_heap s) →
  ∃ p s' t', andtree_insert k fuel x s = Ret (p, s') ∧ beside k s' t' k' o u V ∧
    elements t' ≡ₚ x :: elements t ∧ plenty n (t_heap s').
Proof.
  intros [Ht Hu Hd Hv] Hx Hk Hsz Hfu Hp. rewrite <- size_elements in Hsz. unfold MAX_PAGES in Hsz.
  destruct (insert_spec k fuel x t s Ht) as (a & s' & E & Ha & [Eal Hlive] & Hi & El & Hm).
  - by apply keys_cmp.
  - lia.
  - by eapply plenty_room.
  - eapply plenty_succeeds; [done|]. by unfold sizeof_andnode.
  - etrans; [apply region_fuel_enough; unfold MAX_PAGES; lia|done].
  - eexists _, _, _. split; [done|]. split; [|split; [rewrite El; apply insert_list_perm|]].
    + assert (∀ z, z ∈ addrs u → z ∉ a :: addrs t) as Hd'.
      { intros z Hz [->|Hz']%elem_of_cons; [by apply Ha, (ti_live _ _ _ Hu)|by apply (Hd z)]. }
      split; [done| | |].
      * eapply (tree_inv_frame _ _ _ _ Hu); try done; cbn [t_heap t_mem].
        -- apply (ts_sent _ _ (ti_state _ _ _ Hi)).
        -- intros z Hz. by apply Hm, Hd'.
        -- apply Hi.
        -- intros z Hz%(ti_live _ _ _ Hu). rewrite Hlive. apply elem_of_union. by right.
      * intros z. rewrite addrs_insT. intros Hz Hz'. by apply (Hd' z).
      * intros v (Hv0 & Hvl & Hvt & Hvu)%Hv. rewrite Hlive, addrs_insT. split_and!; [done| | |done].
        -- apply elem_of_union. by right.
        -- intros [->|?]%elem_of_cons; done.
    + eapply plenty_allocated; [done| |by split]. by unfold sizeof_andnode.
Qed.

Lemma remove_beside fuel x k s t k' o u V n :
  beside k s t k' o u V → keys_ok k (elements t) → x ∈ elements t →
  Z.of_nat (length (elements t)) <= MAX_PAGES → (region_fuel <= fuel)%nat → plenty (S n) (t_heap s) →
  ∃ p s' t', andtree_remove_data k fuel x s = Ret (p, s') ∧ beside k s' t' k' o u V ∧
    elements t ≡ₚ x :: elements t' ∧ plenty n (t_heap s').
Proof.
  intros [Ht Hu Hd Hv] Hk Hx Hsz Hfu Hp. rewrite <- size_elements in Hsz.
  pose proof (remove_data_spec k fuel x t s Ht) as Hr. rewrite bool_decide_true in Hr by done.
  destruct Hr as (s' & t' & f & E & Hi & El & Ea & [Ef Hlive] & Ho).
  - apply keys_cmp; [by apply Hk|done].
  - unfold MAX_PAGES in Hsz. lia.
  - etrans; [apply region_fuel_enough; lia|done].
  - assert (∀ z, z ∈ f :: addrs t' → z ∈ addrs t) as Hin by (intros z Hz; by rewrite Ea).
    eexists _, _, _. split; [done|]. split; [|split; [done|]].
    + split; [done| | |].
      * eapply (tree_inv_frame _ _ _ _ Hu); try done; cbn [t_heap t_mem].
        -- apply (ts_sent _ _ (ti_state _ _ _ Hi)).
        -- intros z Hz. apply Ho. intros Hz'. by apply (Hd z).
        -- apply Hi.
        -- intros z Hz. rewrite Hlive. apply elem_of_difference. split; [by apply (ti_live _ _ _ Hu)|].
           intros ->%elem_of_singleton. apply (Hd f); [|done]. apply Hin. left.
      * intros z Hz. apply Hd, Hin. by right.
      * intros v (Hv0 & Hvl & Hvt & Hvu)%Hv. rewrite Hlive. split_and!; [done| | |done].
        -- apply elem_of_difference. split; [done|]. intros ->%elem_of_singleton. apply Hvt, Hin. left.
        -- intros ?. apply Hvt, Hin. by right.
    + eapply plenty_freed; [done| |by split]. apply (ti_live _ _ _ Ht), Hin. left.
Qed.

(** *** The region's own trees *)
Definition two_inv r (tl tf : aatree) (V : list Z) : Prop :=
  beside (vnode_get_offset (vnodes r)) (layout_view r) tl (vnode_get_size (vnodes r)) (free_nodes r) tf V.

Lemma two_inv_free r tl tf V : two_inv r tl tf V ↔
  beside (vnode_get_size (vnodes r)) (free_view r) tf (vnode_get_offset (vnodes r)) (layout r) tl V.
Proof.
  split; intros [Ht Hu Hd Hv]; split; try done; try (intros a Ha Ha'; by apply (Hd a));
    intros v Hv'; destruct (Hv v Hv'); naive_solver.
Qed.

Definition same_rest r r' : Prop := vnodes r' = vnodes r ∧ base r' = base r.

Lemma layout_insert_ok fuel x r tl tf V n :
  two_inv r tl tf V → keys_ok (vnode_get_offset (vnodes r)) (x :: elements tl) →
  Z.of_nat (length (elements tl)) <= MAX_PAGES → (region_fuel <= fuel)%nat → plenty (S n) (r_heap r) →
  ∃ p r' tl', layout_op (λ k, andtree_insert k fuel x) r = Ret (p, r') ∧
    two_inv r' tl' tf V ∧ elements tl' ≡ₚ x :: elements tl ∧ same_rest r r' ∧ plenty n (r_heap r').
Proof.
  intros Ht Hk Hsz Hfu Hp.
  destruct (insert_beside fuel x _ _ _ _ _ _ _ n Ht) as (p & s' & t' & E & Ht' & El & Hp');
    [apply Hk; left|intros y Hy; apply Hk; by right|done..|].
  eexists p, _, t'. split; [by apply layout_op_ok|]. by destruct s'.
Qed.

Lemma free_insert_ok fuel x r tl tf V n :
  two_inv r tl tf V → keys_ok (vnode_get_size (vnodes r)) (x :: elements tf) →
  Z.of_nat (length (elements tf)) <= MAX_PAGES → (region_fuel <= fuel)%nat → plenty (S n) (r_heap r) →
  ∃ p r' tf', free_op (λ k, andtree_insert k fuel x) r = Ret (p, r') ∧
    two_inv r' tl tf' V ∧ elements tf' ≡ₚ x :: elements tf ∧ same_rest r r' ∧ plenty n (r_heap r').
Proof.
  intros Ht%two_inv_free Hk Hsz Hfu Hp.
  destruct (insert_beside fuel x _ _ _ _ _ _ _ n Ht) as (p & s' & t' & E & Ht' & El & Hp');
    [apply Hk; left|intros y Hy; apply Hk; by right|done..|].
  eexists p, _, t'. split; [by apply free_op_ok|]. destruct s'. split; [by apply two_inv_free|done].
Qed.

Lemma layout_remove_ok fuel x r tl tf V n :
  two_inv r tl tf V → keys_ok (vnode_get_offset (vnodes r)) (elements tl) → x ∈ elements tl →
  Z.of_nat (length (elements tl)) <= MAX_PAGES → (region_fuel <= fuel)%nat → plenty (S n) (r_heap r) →
  ∃ p r' tl', layout_op (λ k, andtree_remove_data k fuel x) r = Ret (p, r') ∧
    two_inv r' tl' tf V ∧ elements tl ≡ₚ x :: elements tl' ∧ same_rest r r' ∧ plenty n (r_heap r').
Proof.
  intros Ht Hk Hx Hsz Hfu Hp.
  destruct (remove_beside fuel x _ _ _ _ _ _ _ n Ht Hk Hx Hsz Hfu Hp) as (p & s' & t' & E & Ht' & El & Hp').
  eexists p, _, t'. split; [by apply layout_op_ok|]. by destruct s'.
Qed.

Lemma free_remove_ok fuel x r tl tf V n :
  two_inv r tl tf V → keys_ok (vnode_get_size (vnodes r)) (elements tf) → x ∈ elements tf →
  Z.of_nat (length (elements tf)) <= MAX_PAGES → (region_fuel <= fuel)%nat → plenty (S n) (r_heap r) →
  ∃ p r' tf', free_op (λ k, andtree_remove_data k fuel x) r = Ret (p, r') ∧
    two_inv r' tl tf' V ∧ elements tf ≡ₚ x :: elements tf' ∧ same_rest r r' ∧ plenty n (r_heap r').
Proof.
  intros Ht%two_inv_free Hk Hx Hsz Hfu Hp.
  destruct (remove_beside fuel x _ _ _ _ _ _ _ n Ht Hk Hx Hsz Hfu Hp) as (p & s' & t' & E & Ht' & El & Hp').
  eexists p, _, t'. split; [by apply free_op_ok|]. destruct s'. split; [by apply two_inv_free|done].
Qed.

(** *** The vnodes *)
Definition with_vnodes (vs : gmap Z c4rt_vnode) r : c4rt_vaddr_region H :=
  mk_region (layout r) (free_nodes r) (base r) (r_heap r) (r_mem r) vs.

Lemma two_inv_vnodes r tl tf V vs : two_inv r tl tf V →
  (∀ x, x ∈ elements tl → vnode_get_offset vs x = vnode_get_offset (vnodes r) x) →
  (∀ x, x ∈ elements tf → vnode_get_size vs x = vnode_get_size (vnodes r) x) →
  two_inv (with_vnodes vs r) tl tf V.
Proof.
  intros [Ht Hu Hd Hv] Hl Hf. split; try done.
  - by eapply tree_inv_key.
  - by eapply tree_inv_key.
Qed.

Lemma load_vnode_ok v r b : vnodes r !! v = Some b → load_vnode v r = Ret (b, r).
Proof. unfold load_vnode, getsome. by intros ->. Qed.

Lemma upd_vnode_ok v f r b : vnodes r !! v = Some b →
  upd_vnode v f r = Ret (tt, with_vnodes (<[v := f b]> (vnodes r)) r).
Proof. intros E. unfold upd_vnode. rewrite (bind_run _ _ _ _ _ (load_vnode_ok v r b E)). done. Qed.

Lemma make_vnode_ok size offset r tl tf V n : two_inv r tl tf V → plenty (S n) (r_heap r) →
  ∃ v r', make_vnode size offset r = Ret (v, r') ∧ v ∉ al_live (r_heap r) ∧ v ≠ 0 ∧
    vnodes r' = <[v := mk_vnode size offset true]> (vnodes r) ∧ base r' = base r ∧ plenty n (r_heap r') ∧
    ((∀ x, x ∈ elements tl ++ elements tf → x ∈ V) → two_inv r' tl tf (v :: V)).
Proof.
  intros [Ht Hu Hd Hv] Hp. pose proof (ti_heap _ _ _ Ht) as Hi. cbn in Hi.
  destruct (alloc_plenty n sizeof_vnode (r_heap r) Hi Hp) as (v & h' & [E Hl] & Hne & Hni & Hi' & Hp'); [by unfold sizeof_vnode|].
  exists v. eexists. split.
  { unfold make_vnode, on_rheap, zoom. unfold mbind at 1, M_bind at 1. rewrite E. rewrite (proj2 (Z.eqb_neq v 0) Hne). reflexivity. }
  split_and!; [done..|]. intros HV. cbn.
  assert (v ∉ V) as HvV by (intros Hin; by destruct (Hv v Hin) as (_ & ? & _)).
  assert (∀ x, x ∈ V → <[v:=mk_vnode size offset true]> (vnodes r) !! x = vnodes r !! x) as Hvs.
  { intros x Hx. apply lookup_insert_ne. intros <-. done. }
  split.
  - apply (tree_inv_key (vnode_get_offset (vnodes r))).
    { intros d Hd'. unfold vnode_get_offset. cbn. rewrite Hvs; [done|]. apply HV, elem_of_app. by left. }
    eapply (tree_inv_frame _ _ _ _ Ht); try done.
    + apply (ts_sent _ _ (ti_state _ _ _ Ht)).
    + intros z Hz%(ti_live _ _ _ Ht). cbn in Hz |- *. rewrite Hl. apply elem_of_union. by right.
  - apply (tree_inv_key (vnode_get_size (vnodes r))).
    { intros d Hd'. unfold vnode_get_size. cbn. rewrite Hvs; [done|]. apply HV, elem_of_app. by right. }
    eapply (tree_inv_frame _ _ _ _ Hu); try done.
    + apply (ts_sent _ _ (ti_state _ _ _ Ht)).
    + intros z Hz%(ti_live _ _ _ Hu). cbn in Hz |- *. rewrite Hl. apply elem_of_union. by right.
  - done.
  - intros x [->|Hx]%elem_of_cons.
    + split_and!; [done| | |].
      * cbn. rewrite Hl. apply elem_of_union. left. by apply elem_of_singleton.
      * by intros ?%(ti_live _ _ _ Ht).
      * by intros ?%(ti_live _ _ _ Hu).
    + destruct (Hv x Hx) as (? & Hxl & ? & ?). split_and!; try done. cbn in Hxl |- *. rewrite Hl. apply elem_of_union. by right.
Qed.
End steps.
