(* ===== verification/AddrmanOps.v ===== *)
(** The address space manager against its specification: a region is a list of
    blocks that tile its pages; allocation carves the best fitting free block,
    freeing gives a block back and joins it with its free neighbours. *)

From stdpp Require Import sorting.
From S2P Require Import Prelude Interfaces AATree AndTree AndTreeRep AndTreeInsert AndTreeRemove AndTreeFind.
From S2P Require Import Addrman AddrmanInv.
#[local] Open Scope Z_scope.

(** ** The specification *)

(** The blocks cover the pages from [o] to [P], without gaps or overlaps. *)
Fixpoint tiles (o P : Z) (bs : list c4rt_vnode) : Prop :=
  match bs with
  | [] => o = P
  | b :: bs' => voffset b = o ∧ 0 < vsize b ∧ tiles (o + vsize b) P bs'
  end.

(** No two neighbours are both free. *)
Fixpoint no_adjacent (bs : list c4rt_vnode) : Prop :=
  match bs with
  | b :: (c :: _) as bs' => ¬ (vis_free b = true ∧ vis_free c = true) ∧ no_adjacent bs'
  | _ => True
  end.

(** What the [n] pages taken from a free block leave. *)
Definition carve (b : c4rt_vnode) (n : Z) : list c4rt_vnode :=
  if n =? vsize b then [mk_vnode n (voffset b) false]
  else [mk_vnode n (voffset b) false; mk_vnode (vsize b - n) (voffset b + n) true].

Definition join (b c : c4rt_vnode) : c4rt_vnode := mk_vnode (vsize b + vsize c) (voffset b) true.

(** A free block joined with the blocks after it, and with those before. *)
Definition join_right (b : c4rt_vnode) (ys : list c4rt_vnode) : list c4rt_vnode :=
  match ys with
  | c :: ys' => if vis_free c then join b c :: ys' else b :: ys
  | [] => [b]
  end.

Definition give_back (xs : list c4rt_vnode) (b : c4rt_vnode) (ys : list c4rt_vnode) : list c4rt_vnode :=
  let b := mk_vnode (vsize b) (voffset b) true in
  match last xs with
  | Some a => if vis_free a then removelast xs ++ join_right (join a b) ys else xs ++ join_right b ys
  | None => join_right b ys
  end.

(** ** Lists of blocks *)
Lemma tiles_app o P xs ys : tiles o P (xs ++ ys) ↔ ∃ m, tiles o m xs ∧ tiles m P ys.
Proof.
  revert o. induction xs as [|b xs IH]; intros o; simpl; [naive_solver|]. rewrite IH. naive_solver.
Qed.

Lemma tiles_le o P bs : tiles o P bs → o + Z.of_nat (length bs) <= P.
Proof. revert o. induction bs as [|b bs IH]; simpl; intros o; [lia|]. intros (_ & Hs & Ht%IH). lia. Qed.

Lemma tiles_in o P bs b : tiles o P bs → b ∈ bs → o <= voffset b ∧ 0 < vsize b ∧ voffset b + vsize b <= P.
Proof.
  revert o. induction bs as [|c bs IH]; intros o; [by intros _ ?%not_elem_of_nil|].
  intros (Ho & Hs & Ht) [->|Hb]%elem_of_cons.
  - pose proof (tiles_le _ _ _ Ht). lia.
  - destruct (IH _ Ht Hb). lia.
Qed.

Lemma no_adjacent_app xs ys : no_adjacent (xs ++ ys) → no_adjacent xs ∧ no_adjacent ys.
Proof.
  induction xs as [|b xs IH]; [done|]. destruct xs as [|c xs]; simpl.
  - destruct ys; naive_solver.
  - intros [Hbc Hn]. destruct (IH Hn). naive_solver.
Qed.

Lemma no_adjacent_cons_inv b bs : no_adjacent (b :: bs) → no_adjacent bs.
Proof. destruct bs; [done|]. by intros [_ ?]. Qed.

(** Ends that do not both hold a free block may be put next to each other. *)
Definition apart (o p : option c4rt_vnode) : Prop := ¬ (from_option vis_free false o = true ∧ from_option vis_free false p = true).

Lemma no_adjacent_join xs ys : no_adjacent xs → no_adjacent ys → apart (last xs) (head ys) → no_adjacent (xs ++ ys).
Proof.
  induction xs as [|b xs IH]; [done|]. intros Hx Hy Ha. destruct xs as [|c xs]; simpl.
  - destruct ys; [done|]. split; [apply Ha|done].
  - destruct Hx as [Hbc Hx]. split; [done|]. by apply IH.
Qed.

Lemma no_adjacent_apart xs ys : no_adjacent (xs ++ ys) → apart (last xs) (head ys).
Proof.
  induction xs as [|b xs IH]; simpl; [unfold apart; naive_solver|]. destruct xs as [|c xs]; simpl.
  - destruct ys; [unfold apart; simpl; naive_solver|]. by intros [? _].
  - intros [_ Hn]. by apply IH.
Qed.

(** ** The invariant *)
Abbreviation blocks := (list (Z * c4rt_vnode)).

(** The addresses of the free vnodes. *)
Definition frees (Q : blocks) : list Z := (filter (λ p, vis_free p.2 = true) Q).*1.

Lemma frees_app Q Q' : frees (Q ++ Q') = frees Q ++ frees Q'.
Proof. unfold frees. by rewrite filter_app, fmap_app. Qed.

Lemma frees_cons v b Q : frees ((v, b) :: Q) = if vis_free b then v :: frees Q else frees Q.
Proof. unfold frees. rewrite filter_cons. cbn [snd]. destruct (vis_free b); [by rewrite decide_True|by rewrite decide_False]. Qed.

Lemma frees_in v Q : v ∈ frees Q ↔ ∃ b, (v, b) ∈ Q ∧ vis_free b = true.
Proof.
  unfold frees. rewrite list_elem_of_fmap. split.
  - intros ([w b] & -> & [Hf Hq]%list_elem_of_filter). by exists b.
  - intros (b & Hq & Hf). exists (v, b). split; [done|]. by apply list_elem_of_filter.
Qed.

Section ops.
Context {H : Type} `{AllocatorLaws H}.
Implicit Types r : c4rt_vaddr_region H.

(** Everything but what the free tree holds. *)
Record region_core r (P : Z) (Q : blocks) (tl tf : aatree) : Prop := {
  ri_two : two_inv r tl tf (Q.*1);
  ri_layout : elements tl ≡ₚ Q.*1;
  ri_vnodes : ∀ v b, (v, b) ∈ Q → vnodes r !! v = Some b;
  ri_nodup : NoDup (Q.*1);
  ri_tiles : tiles 0 P (Q.*2);
  ri_pages : P <= MAX_PAGES
}.

Record region_inv r (P : Z) (Q : blocks) (tl tf : aatree) : Prop := {
  ri_core :> region_core r P Q tl tf;
  ri_free : elements tf ≡ₚ frees Q
}.

Lemma region_bounds r P Q tl tf v b : region_inv r P Q tl tf → (v, b) ∈ Q →
  0 <= voffset b ∧ 0 < vsize b ∧ voffset b + vsize b <= P ∧ P <= 2 ^ 20.
Proof.
  intros Hr Hv. destruct (tiles_in 0 P (Q.*2) b (ri_tiles _ _ _ _ _ Hr)).
  - apply list_elem_of_fmap. by exists (v, b).
  - pose proof (ri_pages _ _ _ _ _ Hr). unfold MAX_PAGES in *. lia.
Qed.

Lemma region_keys r P Q tl tf v b : region_inv r P Q tl tf → (v, b) ∈ Q →
  vnode_get_offset (vnodes r) v = voffset b ∧ vnode_get_size (vnodes r) v = vsize b.
Proof.
  intros Hr Hv. pose proof (region_bounds _ _ _ _ _ _ _ Hr Hv).
  unfold vnode_get_offset, vnode_get_size. rewrite (ri_vnodes _ _ _ _ _ Hr _ _ Hv). simpl. rewrite !i32_small by lia. done.
Qed.

Lemma region_length r P Q tl tf : region_inv r P Q tl tf → Z.of_nat (length Q) <= MAX_PAGES.
Proof.
  intros Hr. pose proof (tiles_le _ _ _ (ri_tiles _ _ _ _ _ Hr)) as Hl. rewrite length_fmap in Hl.
  pose proof (ri_pages _ _ _ _ _ Hr). lia.
Qed.

Lemma frees_length Q : (length (frees Q) <= length Q)%nat.
Proof. unfold frees. rewrite length_fmap. apply length_filter. Qed.

Lemma region_sizes r P Q tl tf : region_inv r P Q tl tf →
  Z.of_nat (length (elements tl)) <= MAX_PAGES ∧ Z.of_nat (length (elements tf)) <= MAX_PAGES.
Proof.
  intros Hr. pose proof (region_length _ _ _ _ _ Hr). pose proof (frees_length Q).
  rewrite (ri_layout _ _ _ _ _ Hr), (ri_free _ _ _ _ _ Hr), length_fmap. lia.
Qed.

Lemma layout_in r P Q tl tf v : region_inv r P Q tl tf → v ∈ elements tl ↔ ∃ b, (v, b) ∈ Q.
Proof.
  intros Hr. rewrite (ri_layout _ _ _ _ _ Hr), list_elem_of_fmap. split.
  - intros ([w b] & -> & Hq). by exists b.
  - intros [b Hq]. by exists (v, b).
Qed.

Lemma free_in r P Q tl tf v : region_inv r P Q tl tf → v ∈ elements tf ↔ ∃ b, (v, b) ∈ Q ∧ vis_free b = true.
Proof. intros Hr. rewrite (ri_free _ _ _ _ _ Hr). apply frees_in. Qed.

Lemma region_keys_ok r P Q tl tf : region_inv r P Q tl tf →
  keys_ok (vnode_get_offset (vnodes r)) (elements tl) ∧ keys_ok (vnode_get_size (vnodes r)) (elements tf).
Proof.
  intros Hr. split; intros v.
  - intros [b Hb]%(layout_in _ _ _ _ _ _ Hr). destruct (region_keys _ _ _ _ _ _ _ Hr Hb) as [-> _].
    pose proof (region_bounds _ _ _ _ _ _ _ Hr Hb). lia.
  - intros (b & Hb & _)%(free_in _ _ _ _ _ _ Hr). destruct (region_keys _ _ _ _ _ _ _ Hr Hb) as [_ ->].
    pose proof (region_bounds _ _ _ _ _ _ _ Hr Hb). lia.
Qed.

(** Offsets grow strictly along the list: the layout tree lists the blocks in
    address order. *)
Lemma tiles_sorted (k : Z → Z) o P Q : (∀ v b, (v, b) ∈ Q → k v = voffset b) → tiles o P (Q.*2) →
  StronglySorted (λ x y, k x < k y) (Q.*1).
Proof.
  revert o. induction Q as [|[v b] Q IH]; intros o Hk Ht; [constructor|]. destruct Ht as (Ho & Hs & Ht). simpl in *.
  constructor.
  - eapply IH; [|done]. intros w c Hw. apply Hk. by right.
  - apply Forall_forall. intros w ([w' c] & -> & Hw)%list_elem_of_fmap. simpl.
    rewrite (Hk v b) by left. rewrite (Hk w' c) by (by right).
    destruct (tiles_in _ _ _ c Ht); [apply list_elem_of_fmap; by exists (w', c)|lia].
Qed.

Lemma StronglySorted_weaken {A} (R S : A → A → Prop) l : (∀ x y, R x y → S x y) → StronglySorted R l → StronglySorted S l.
Proof. intros HRS. induction 1; constructor; [done|]. eapply Forall_impl; [done|]. auto. Qed.

Lemma ssorted_in {A} (R : A → A → Prop) l x y : StronglySorted R l → x ∈ l → y ∈ l → x = y ∨ R x y ∨ R y x.
Proof.
  induction 1 as [|a l Hs IH Ha]; [by intros ?%not_elem_of_nil|]. rewrite Forall_forall in Ha.
  intros [->|Hx]%elem_of_cons [->|Hy]%elem_of_cons; auto.
Qed.

Lemma layout_order r P Q tl tf : region_inv r P Q tl tf → elements tl = Q.*1.
Proof.
  intros Hr.
  assert (StronglySorted (λ x y, vnode_get_offset (vnodes r) x < vnode_get_offset (vnodes r) y) (Q.*1)) as Hs.
  { eapply tiles_sorted; [|apply Hr]. intros v b Hv. by destruct (region_keys _ _ _ _ _ _ _ Hr Hv). }
  apply (StronglySorted_unique_strong (λ x y, vnode_get_offset (vnodes r) x <= vnode_get_offset (vnodes r) y)).
  - intros x y Hx Hy Hle Hge. rewrite (ri_layout _ _ _ _ _ Hr) in Hx.
    destruct (ssorted_in _ _ x y Hs Hx Hy) as [?|?]; [done|lia].
  - apply (ti_sorted _ _ _ (bs_tree _ _ _ _ _ _ _ (ri_two _ _ _ _ _ Hr))).
  - eapply StronglySorted_weaken; [|done]. simpl. lia.
  - apply Hr.
Qed.

(** The vnode at an offset is unique. *)
Lemma offset_unique r P Q tl tf v b w c : region_inv r P Q tl tf → (v, b) ∈ Q → (w, c) ∈ Q →
  voffset b = voffset c → v = w ∧ b = c.
Proof.
  intros Hr Hv Hw Ho.
  assert (StronglySorted (λ x y, vnode_get_offset (vnodes r) x < vnode_get_offset (vnodes r) y) (Q.*1)) as Hs.
  { eapply tiles_sorted; [|apply Hr]. intros v' b' Hv'. by destruct (region_keys _ _ _ _ _ _ _ Hr Hv'). }
  destruct (region_keys _ _ _ _ _ _ _ Hr Hv) as [Ev _]. destruct (region_keys _ _ _ _ _ _ _ Hr Hw) as [Ew _].
  assert (v = w) as ->.
  { destruct (ssorted_in _ _ v w Hs) as [?|?]; [apply list_elem_of_fmap; by eexists (_, _)..|done|lia]. }
  split; [done|]. apply (ri_vnodes _ _ _ _ _ Hr) in Hv, Hw. congruence.
Qed.

(** *** Vnodes that are known and small *)
Definition fits (b : c4rt_vnode) : Prop := 0 <= voffset b < 2 ^ 31 ∧ 0 <= vsize b < 2 ^ 31.
Definition known (vs : gmap Z c4rt_vnode) (L : list Z) : Prop := ∀ x, x ∈ L → ∃ b, vs !! x = Some b ∧ fits b.

Lemma known_keys vs L : known vs L → keys_ok (vnode_get_offset vs) L ∧ keys_ok (vnode_get_size vs) L.
Proof.
  intros Hk. split; intros x (b & Eb & Ho & Hs)%Hk; unfold vnode_get_offset, vnode_get_size; rewrite Eb; simpl;
    rewrite i32_small; lia.
Qed.

Lemma known_insert vs L v b : known vs L → fits b → known (<[v := b]> vs) (v :: L).
Proof.
  intros Hk Hb x Hx. destruct (decide (x = v)) as [->|Hne].
  - exists b. by rewrite lookup_insert_eq.
  - rewrite lookup_insert_ne by done. apply Hk. apply elem_of_cons in Hx as [?|?]; done.
Qed.

Lemma known_mono vs L L' : (∀ x, x ∈ L' → x ∈ L) → known vs L → known vs L'.
Proof. intros HL Hk x Hx. auto. Qed.

Lemma region_known r P Q tl tf : region_inv r P Q tl tf → known (vnodes r) (Q.*1).
Proof.
  intros Hr v ([w b] & -> & Hb)%list_elem_of_fmap. exists b. split; [by apply (ri_vnodes _ _ _ _ _ Hr)|].
  pose proof (region_bounds _ _ _ _ _ _ _ Hr Hb). unfold fits. lia.
Qed.

Lemma two_inv_mono r tl tf V V' : (∀ x, x ∈ V' → x ∈ V) → two_inv r tl tf V → two_inv r tl tf V'.
Proof. intros HV [Ht Hu Hd Hv]. split; try done. auto. Qed.

Lemma nodup_mid (X Y : blocks) v b : NoDup ((X ++ (v, b) :: Y).*1) → ∀ w c, (w, c) ∈ X ++ Y → w ≠ v.
Proof.
  rewrite fmap_app. intros Hn w c Hw ->. simpl in Hn. apply NoDup_app in Hn as (_ & Hd & [Hv _]%NoDup_cons).
  apply elem_of_app in Hw as [Hw|Hw].
  - apply (Hd v); [apply list_elem_of_fmap; by exists (v, c)|left].
  - apply Hv, list_elem_of_fmap. by exists (v, c).
Qed.

Lemma frees_mid X v b Y : frees (X ++ (v, b) :: Y) ≡ₚ (if vis_free b then [v] else []) ++ frees (X ++ Y).
Proof. rewrite !frees_app, frees_cons. destruct (vis_free b); simpl; [|done]. by rewrite Permutation_middle. Qed.

Lemma frees_not_in (X Y : blocks) v b : NoDup ((X ++ (v, b) :: Y).*1) → v ∉ frees (X ++ Y).
Proof. intros Hn (c & Hc & _)%frees_in. by apply (nodup_mid X Y v b Hn v c). Qed.

Lemma same_keys_upd (vs : gmap Z c4rt_vnode) v b b' : vs !! v = Some b → voffset b' = voffset b → vsize b' = vsize b →
  (∀ x, vnode_get_offset (<[v := b']> vs) x = vnode_get_offset vs x) ∧
  (∀ x, vnode_get_size (<[v := b']> vs) x = vnode_get_size vs x).
Proof.
  intros E Eo Es. split; intros x; unfold vnode_get_offset, vnode_get_size;
    (destruct (decide (x = v)) as [->|Hne]; [rewrite lookup_insert_eq, E; simpl; congruence|by rewrite lookup_insert_ne]).
Qed.

(** *** Taking a block whole, or marking it *)
Lemma region_mark r P X v b Y tl tf b' : region_core r P (X ++ (v, b) :: Y) tl tf →
  voffset b' = voffset b → vsize b' = vsize b →
  region_core (with_vnodes (<[v := b']> (vnodes r)) r) P (X ++ (v, b') :: Y) tl tf.
Proof.
  intros [Ht Hl Hv Hn Hti HP] Eo Es.
  assert (vnodes r !! v = Some b) as Eb by (apply Hv, elem_of_app; right; left).
  assert ((X ++ (v, b') :: Y).*1 = (X ++ (v, b) :: Y).*1) as E1 by by rewrite !fmap_app.
  destruct (same_keys_upd _ _ _ _ Eb Eo Es) as [Ho Hs].
  split; rewrite ?E1; try done.
  - by apply two_inv_vnodes.
  - intros w c [Hw|[[= -> ->]|Hw]%elem_of_cons]%elem_of_app; cbn [vnodes with_vnodes].
    + rewrite lookup_insert_ne; [apply Hv, elem_of_app; by left|]. intros <-.
      apply (nodup_mid X Y v b Hn v c); [|done]. apply elem_of_app. by left.
    + by rewrite lookup_insert_eq.
    + rewrite lookup_insert_ne; [apply Hv, elem_of_app; right; by right|]. intros <-.
      apply (nodup_mid X Y v b Hn v c); [|done]. apply elem_of_app. by right.
  - rewrite fmap_app in Hti |- *. apply tiles_app in Hti as (m & Hx & Hy). apply tiles_app. exists m. split; [done|].
    simpl in Hy |- *. by rewrite Eo, Es.
Qed.

(** The free tree may change on its own. *)
Lemma region_core_free r r' P Q tl tf tf' : region_core r P Q tl tf → two_inv r' tl tf' (Q.*1) → same_rest r r' →
  region_core r' P Q tl tf'.
Proof. intros [Ht Hl Hv Hn Hti HP] Ht' [Ev _]. split; try done. by rewrite Ev. Qed.

(** Take a free block out of the free tree and mark it used. *)
Lemma take_block fuel r P X v b Y tl tf n : region_inv r P (X ++ (v, b) :: Y) tl tf → vis_free b = true →
  (region_fuel <= fuel)%nat → plenty (S n) (r_heap r) →
  let b' := mk_vnode (vsize b) (voffset b) false in
  ∃ p r1 tf', free_op (λ k, andtree_remove_data k fuel v) r = Ret (p, r1) ∧
    upd_vnode v (set_vfree false) r1 = Ret (tt, with_vnodes (<[v := b']> (vnodes r1)) r1) ∧
    region_inv (with_vnodes (<[v := b']> (vnodes r1)) r1) P (X ++ (v, b') :: Y) tl tf' ∧
    base r1 = base r ∧ plenty n (r_heap r1).
Proof.
  intros Hr Hb Hfu Hp b'. destruct (region_keys_ok _ _ _ _ _ Hr) as [_ Hk]. destruct (region_sizes _ _ _ _ _ Hr) as [_ Hsz].
  assert ((v, b) ∈ X ++ (v, b) :: Y) as HQ by (apply elem_of_app; right; left).
  assert (v ∈ elements tf) as Hin by (apply (free_in _ _ _ _ _ _ Hr); by exists b).
  destruct (free_remove_ok fuel v r tl tf _ n (ri_two _ _ _ _ _ Hr) Hk Hin Hsz Hfu Hp)
    as (p & r1 & tf1 & E1 & Ht1 & Ef1 & Hs1 & Hp1).
  exists p, r1, tf1. split; [done|]. split.
  { apply (upd_vnode_ok v (set_vfree false) r1 b). rewrite (proj1 Hs1). by apply (ri_vnodes _ _ _ _ _ Hr). }
  split; [split|].
  - apply (region_mark r1 P X v b); [|done..]. eapply region_core_free; [apply Hr|done..].
  - rewrite frees_mid. cbn. apply (Permutation_cons_inv (a := v)). rewrite <- Ef1, (ri_free _ _ _ _ _ Hr), frees_mid, Hb. done.
  - by destruct Hs1.
Qed.

(** The first part of [split_vnode]: a block handed out whole. *)
Lemma split_whole fuel r P X v b Y tl tf n : region_inv r P (X ++ (v, b) :: Y) tl tf → vis_free b = true →
  (region_fuel <= fuel)%nat → plenty (S n) (r_heap r) →
  ∃ r' tf', split_vnode fuel v (vsize b) r = Ret (v, r') ∧
    region_inv r' P (X ++ (v, mk_vnode (vsize b) (voffset b) false) :: Y) tl tf' ∧ base r' = base r ∧ plenty n (r_heap r').
Proof.
  intros Hr Hb Hfu Hp.
  destruct (take_block fuel r P X v b Y tl tf n Hr Hb Hfu Hp) as (p & r1 & tf1 & E1 & E2 & Hr2 & Eb & Hp2).
  eexists _, tf1. split; [|by split].
  unfold split_vnode. rewrite (bind_run _ _ _ _ _ E1), (bind_run _ _ _ _ _ E2).
  erewrite bind_run; [|apply load_vnode_ok; cbn [vnodes with_vnodes]; apply lookup_insert_eq].
  cbn [vsize]. by rewrite Z.eqb_refl.
Qed.

(** The second part: what is left of the block becomes a free block of its own. *)
Definition index_both (fuel : nat) (node vn : Z) : M (c4rt_vaddr_region H) unit :=
  free_op (λ k, andtree_insert k fuel vn);;
  layout_op (λ k, andtree_insert k fuel node);;
  layout_op (λ k, andtree_insert k fuel vn);;
  mret tt.

Definition split_rest (fuel : nat) (node size : Z) (v : c4rt_vnode) : M (c4rt_vaddr_region H) unit :=
  layout_op (λ k, andtree_remove_data k fuel node);;
  vn ← make_vnode (u32 (vsize v - size)) (u32 (voffset v + size));
  upd_vnode node (set_vsize size);;
  index_both fuel node vn.

Lemma index_both_ok fuel r tl tf V v vn n : two_inv r tl tf (vn :: V) → known (vnodes r) (v :: vn :: V) →
  (∀ x, x ∈ elements tl → x ∈ V) → (∀ x, x ∈ elements tf → x ∈ V) →
  Z.of_nat (length (elements tl)) + 1 <= MAX_PAGES → Z.of_nat (length (elements tf)) <= MAX_PAGES →
  (region_fuel <= fuel)%nat → plenty (3 + n) (r_heap r) →
  ∃ r' tl' tf', index_both fuel v vn r = Ret (tt, r') ∧ two_inv r' tl' tf' (vn :: V) ∧
    elements tl' ≡ₚ vn :: v :: elements tl ∧ elements tf' ≡ₚ vn :: elements tf ∧ same_rest r r' ∧ plenty n (r_heap r').
Proof.
  intros Ht Hkn Hl Hf Hsl Hsf Hfu Hp. destruct (known_keys _ _ Hkn) as [Hko Hks]. unfold index_both.
  destruct (free_insert_ok fuel vn r tl tf _ (2 + n) Ht) as (p4 & r4 & tf4 & E4 & Ht4 & Ef4 & [Ev4 Eb4] & Hp4);
    [|done..|].
  { intros x [->|Hx%Hf]%elem_of_cons; apply Hks; [right; left|by do 2 right]. }
  rewrite (bind_run _ _ _ _ _ E4).
  destruct (layout_insert_ok fuel v r4 tl tf4 _ (1 + n) Ht4) as (p5 & r5 & tl5 & E5 & Ht5 & El5 & [Ev5 Eb5] & Hp5);
    [|lia|done..|].
  { rewrite Ev4. intros x [->|Hx%Hl]%elem_of_cons; apply Hko; [left|by do 2 right]. }
  rewrite (bind_run _ _ _ _ _ E5).
  destruct (layout_insert_ok fuel vn r5 tl5 tf4 _ n Ht5) as (p6 & r6 & tl6 & E6 & Ht6 & El6 & [Ev6 Eb6] & Hp6);
    [| |done..|].
  { rewrite Ev5, Ev4. intros x [->|Hx]%elem_of_cons; apply Hko; [right; left|]. rewrite El5 in Hx.
    apply elem_of_cons in Hx as [->|Hx%Hl]; [left|by do 2 right]. }
  { rewrite El5. simpl. lia. }
  rewrite (bind_run _ _ _ _ _ E6). exists r6, tl6, tf4. split_and!; [done|done|by rewrite El6, El5|done| |done].
  split; congruence.
Qed.

(** The list of blocks after a split, from the list before. *)
Lemma region_split r r' P X v b Y tl tf tl1 tl' tf' vn size :
  let bn := mk_vnode (vsize b - size) (voffset b + size) true in
  region_inv r P (X ++ (v, b) :: Y) tl tf → vis_free b = false → 0 < size < vsize b →
  vn ∉ (X ++ (v, b) :: Y).*1 → elements tl ≡ₚ v :: elements tl1 →
  two_inv r' tl' tf' (vn :: (X ++ (v, b) :: Y).*1) →
  elements tl' ≡ₚ vn :: v :: elements tl1 → elements tf' ≡ₚ vn :: elements tf →
  vnodes r' = <[v := set_vsize size b]> (<[vn := bn]> (vnodes r)) →
  region_inv r' P (X ++ (v, set_vsize size b) :: (vn, bn) :: Y) tl' tf'.
Proof.
  intros bn Hr Hb Hsize Hvn El Ht' El' Ef' Ev.
  pose proof (ri_nodup _ _ _ _ _ Hr) as Hn. pose proof (ri_vnodes _ _ _ _ _ Hr) as Hv.
  set (Q' := X ++ (v, set_vsize size b) :: (vn, bn) :: Y).
  assert (Q'.*1 ≡ₚ vn :: (X ++ (v, b) :: Y).*1) as HQ'.
  { unfold Q'. rewrite !fmap_app, !fmap_cons. cbn [fst]. rewrite <- !Permutation_middle. constructor 3. }
  assert (vn ≠ v) as Hne by (intros ->; apply Hvn, list_elem_of_fmap; exists (v, b); split; [done|apply elem_of_app; right; left]).
  split; [split|].
  - eapply two_inv_mono; [|done]. intros x. by rewrite HQ'.
  - by rewrite El', HQ', <- (ri_layout _ _ _ _ _ Hr), El.
  - assert (∀ w c, (w, c) ∈ X ++ Y → vnodes r' !! w = Some c) as Hrest.
    { intros w' c' Hw'. assert ((w', c') ∈ X ++ (v, b) :: Y) as Hin.
      { apply elem_of_app in Hw' as [?|?]; apply elem_of_app; [by left|right; by right]. }
      rewrite Ev, !lookup_insert_ne; [by apply Hv| |].
      - intros <-. apply Hvn, list_elem_of_fmap. by exists (vn, c').
      - intros <-. by apply (nodup_mid X Y v b Hn v c'). }
    intros w c [Hw|[[= -> ->]|[[= -> ->]|Hw]%elem_of_cons]%elem_of_cons]%elem_of_app.
    + apply Hrest, elem_of_app. by left.
    + by rewrite Ev, lookup_insert_eq.
    + by rewrite Ev, lookup_insert_ne, lookup_insert_eq by done.
    + apply Hrest, elem_of_app. by right.
  - rewrite HQ'. by constructor.
  - pose proof (ri_tiles _ _ _ _ _ Hr) as Hti. unfold Q'. rewrite fmap_app in Hti |- *.
    apply tiles_app in Hti as (m & Hx & Ho & Hs & Hy). apply tiles_app. exists m. split; [done|].
    cbn in Ho, Hs, Hy |- *. split_and!; try done; try lia. by replace (m + size + (vsize b - size)) with (m + vsize b) by lia.
  - apply Hr.
  - rewrite Ef', (ri_free _ _ _ _ _ Hr). unfold Q'. rewrite !frees_app, !frees_cons, Hb. cbn. rewrite Hb.
    by rewrite Permutation_middle.
Qed.

Lemma split_rest_ok fuel r P X v b Y tl tf n size : region_inv r P (X ++ (v, b) :: Y) tl tf → vis_free b = false →
  0 < size < vsize b → (region_fuel <= fuel)%nat → plenty (5 + n) (r_heap r) →
  ∃ vn r' tl' tf', split_rest fuel v size b r = Ret (tt, r') ∧
    region_inv r' P (X ++ (v, set_vsize size b) :: (vn, mk_vnode (vsize b - size) (voffset b + size) true) :: Y)
      tl' tf' ∧ base r' = base r ∧ plenty n (r_heap r').
Proof.
  intros Hr Hb Hsize Hfu Hp. pose proof (region_known _ _ _ _ _ Hr) as Hkn.
  assert ((v, b) ∈ X ++ (v, b) :: Y) as HQ by (apply elem_of_app; right; left).
  pose proof (region_bounds _ _ _ _ _ _ _ Hr HQ) as Hbd. pose proof (region_sizes _ _ _ _ _ Hr) as [Hsl Hsf].
  assert (∀ x, x ∈ elements tl ↔ x ∈ (X ++ (v, b) :: Y).*1) as Hml by (intros x; by rewrite (ri_layout _ _ _ _ _ Hr)).
  assert (∀ x, x ∈ elements tf → x ∈ (X ++ (v, b) :: Y).*1) as Hmf.
  { intros x (c & Hc & _)%(free_in _ _ _ _ _ _ Hr). apply list_elem_of_fmap. by exists (x, c). }
  assert (v ∉ elements tf) as Hvf.
  { rewrite (ri_free _ _ _ _ _ Hr), frees_mid, Hb. apply (frees_not_in X Y v b), Hr. }
  unfold split_rest.
  destruct (layout_remove_ok fuel v r tl tf _ (4 + n) (ri_two _ _ _ _ _ Hr)) as (p1 & r1 & tl1 & E1 & Ht1 & El1 & [Ev1 Eb1] & Hp1);
    [by apply (region_keys_ok _ _ _ _ _ Hr)|apply Hml, list_elem_of_fmap; by exists (v, b)|done..|].
  rewrite (bind_run _ _ _ _ _ E1), !u32_small by lia.
  assert (∀ x, x ∈ elements tl1 → x ∈ (X ++ (v, b) :: Y).*1) as Hml1 by (intros x Hx; apply Hml; rewrite El1; by right).
  destruct (make_vnode_ok (vsize b - size) (voffset b + size) r1 tl1 tf _ (3 + n) Ht1 Hp1)
    as (vn & r2 & E2 & Hni & Hne & Ev2 & Eb2 & Hp2 & Ht2).
  rewrite (bind_run _ _ _ _ _ E2).
  specialize (Ht2 ltac:(intros x [?%Hml1|?%Hmf]%elem_of_app; done)).
  assert (vn ∉ (X ++ (v, b) :: Y).*1) as HvnV.
  { intros Hin. by destruct (bs_vnodes _ _ _ _ _ _ _ Ht1 _ Hin) as (_ & ? & _). }
  assert (vnodes r2 !! v = Some b) as Ebv.
  { rewrite Ev2, lookup_insert_ne, Ev1; [by apply (ri_vnodes _ _ _ _ _ Hr)|].
    intros ->. apply HvnV, list_elem_of_fmap. by exists (v, b). }
  rewrite (bind_run _ _ _ _ _ (upd_vnode_ok v (set_vsize size) r2 b Ebv)).
  destruct (index_both_ok fuel (with_vnodes (<[v := set_vsize size b]> (vnodes r2)) r2) tl1 tf ((X ++ (v, b) :: Y).*1) v vn n)
    as (r3 & tl3 & tf3 & E3 & Ht3 & El3 & Ef3 & [Ev3 Eb3] & Hp3); [| |done|done| |done..|].
  { apply two_inv_vnodes; [done| |].
    - intros x _. unfold vnode_get_offset. destruct (decide (x = v)) as [->|?]; [by rewrite lookup_insert_eq, Ebv|by rewrite lookup_insert_ne].
    - intros x Hx. unfold vnode_get_size. rewrite lookup_insert_ne; [done|]. by intros ->. }
  { cbn [vnodes with_vnodes]. apply known_insert; [|unfold fits; cbn; lia].
    rewrite Ev2, Ev1. apply known_insert; [done|unfold fits; cbn; lia]. }
  { assert (length (elements tl) = S (length (elements tl1))) by (by rewrite El1). lia. }
  rewrite E3. cbn [vnodes with_vnodes base] in Ev3, Eb3.
  exists vn, r3, tl3, tf3. split; [done|]. split; [|split; [congruence|done]].
  eapply region_split; try done. by rewrite Ev3, Ev2, Ev1.
Qed.

Lemma split_vnode_ok fuel r P X v b Y tl tf n size : region_inv r P (X ++ (v, b) :: Y) tl tf → vis_free b = true →
  0 < size <= vsize b → (region_fuel <= fuel)%nat → plenty (6 + n) (r_heap r) →
  ∃ r' Q tl' tf', split_vnode fuel v size r = Ret (v, r') ∧ region_inv r' P Q tl' tf' ∧
    Q.*2 = X.*2 ++ carve b size ++ Y.*2 ∧ (v, mk_vnode size (voffset b) false) ∈ Q ∧
    base r' = base r ∧ plenty n (r_heap r').
Proof.
  intros Hr Hb Hsize Hfu Hp.
  destruct (take_block fuel r P X v b Y tl tf (5 + n) Hr Hb Hfu Hp) as (p & r1 & tf1 & E1 & E2 & Hr2 & Eb & Hp2).
  unfold split_vnode. rewrite (bind_run _ _ _ _ _ E1), (bind_run _ _ _ _ _ E2).
  erewrite bind_run; [|apply load_vnode_ok; cbn [vnodes with_vnodes]; apply lookup_insert_eq]. cbn [vsize voffset].
  unfold carve. destruct (Z.eqb_spec size (vsize b)) as [->|Hne].
  - eexists _, _, tl, tf1. split; [reflexivity|]. split; [exact Hr2|]. split; [by rewrite fmap_app|].
    split; [apply elem_of_app; right; left|]. split; [done|]. eapply plenty_le; [|..|exact Hp2]; [|lia].
    apply (ti_heap _ _ _ (bs_tree _ _ _ _ _ _ _ (ri_two _ _ _ _ _ Hr2))).
  - destruct (split_rest_ok fuel _ P X v _ Y tl tf1 n size Hr2) as (vn & r' & tl' & tf' & E3 & Hr3 & Eb3 & Hp3);
      [done|simpl; lia|done|done|].
    eexists r', _, tl', tf'. split; [|split; [exact Hr3|]].
    { unfold split_rest in E3. cbn [vsize voffset] in E3. erewrite bind_run; [done|]. exact E3. }
    rewrite fmap_app. split_and!; [done|apply elem_of_app; right; left|by rewrite Eb3|done].
Qed.

(** ** Allocation *)

(** The region [r] of [P] pages is cut into the blocks [bs]. *)
Definition region_is r (P : Z) (bs : list c4rt_vnode) : Prop :=
  ∃ Q tl tf, region_inv r P Q tl tf ∧ Q.*2 = bs ∧ no_adjacent bs.

Lemma no_adjacent_carve X b Y n : no_adjacent (X ++ b :: Y) → vis_free b = true → no_adjacent (X ++ carve b n ++ Y).
Proof.
  intros Hn Hb. pose proof (no_adjacent_app _ _ Hn) as [HX HbY]. pose proof (no_adjacent_cons_inv _ _ HbY) as HY.
  pose proof (no_adjacent_apart [b] Y HbY) as Ha. unfold carve. case_match; simpl.
  - apply no_adjacent_join; [done| |unfold apart; simpl; naive_solver]. destruct Y; [done|]. split; [simpl; naive_solver|done].
  - apply no_adjacent_join; [done| |unfold apart; simpl; naive_solver]. split; [simpl; naive_solver|].
    destruct Y; [done|]. split; [|done]. unfold apart in Ha. simpl in *. naive_solver.
Qed.

Lemma two_load_free r tl tf V a d : two_inv r tl tf V → (a, d) ∈ inorder tf →
  ∃ n, on_free (load (PNode a)) r = Ret (n, r) ∧ ndata n = d.
Proof.
  intros [_ Hu _ _] Ha. destruct (rep_data _ _ _ _ _ (ts_rep _ _ (ti_state _ _ _ Hu)) Ha) as (n & En & Ed).
  exists n. split; [|done]. unfold on_free, zoom. rewrite (load_ok _ (free_view r) n En). by destruct r as [? []].
Qed.

Lemma two_load_layout r tl tf V a d : two_inv r tl tf V → (a, d) ∈ inorder tl →
  ∃ n, on_layout (load (PNode a)) r = Ret (n, r) ∧ ndata n = d.
Proof.
  intros [Ht _ _ _] Ha. destruct (rep_data _ _ _ _ _ (ts_rep _ _ (ti_state _ _ _ Ht)) Ha) as (n & En & Ed).
  exists n. split; [|done]. unfold on_layout, zoom. rewrite (load_ok _ (layout_view r) n En). by destruct r as [[]].
Qed.

Lemma set_layout_id r : set_layout_view (layout_view r) r = r.
Proof. by destruct r as [[] ? ? ? ? ?]. Qed.
Lemma set_free_id r : set_free_view (free_view r) r = r.
Proof. by destruct r as [? [] ? ? ? ?]. Qed.

(** The least free block that is large enough. *)
Lemma best_fit_ok fuel r P Q tl tf size : region_inv r P Q tl tf → 0 <= size < 2 ^ 31 → (region_fuel <= fuel)%nat →
  ∃ p, free_op (λ k, andtree_find_at_least k fuel (i32 size)) r = Ret (p, r) ∧
    ((p = PNull ∧ ∀ v c, (v, c) ∈ Q → vis_free c = true → vsize c < size) ∨
     (∃ a v b X Y, p = PNode a ∧ (a, v) ∈ inorder tf ∧ Q = X ++ (v, b) :: Y ∧ vis_free b = true ∧ size <= vsize b ∧
        ∀ w c, (w, c) ∈ Q → vis_free c = true → size <= vsize c → vsize b <= vsize c)).
Proof.
  intros Hr Hsize Hfu. rewrite i32_small by lia. destruct (region_sizes _ _ _ _ _ Hr) as [_ Hsz].
  rewrite <- size_elements in Hsz. pose proof (bs_other _ _ _ _ _ _ _ (ri_two _ _ _ _ _ Hr)) as Htf.
  destruct (find_at_least_spec (vnode_get_size (vnodes r)) fuel size tf (free_view r) Htf) as (p & E & Hp).
  - apply (cmp_ok_bound _ _ _ 0); [lia|]. apply (region_keys_ok _ _ _ _ _ Hr).
  - unfold MAX_PAGES in Hsz. lia.
  - etrans; [apply region_fuel_enough; lia|done].
  - exists p. split; [erewrite free_op_ok by exact E; by rewrite set_free_id|].
    destruct Hp as [[-> Hp]|(a & v & -> & Ha & Hle & Hmin)]; [left|right].
    + split; [done|]. intros v c Hc Hfc. destruct (region_keys _ _ _ _ _ _ _ Hr Hc) as [_ <-]. apply Hp.
      apply (free_in _ _ _ _ _ _ Hr). by exists c.
    + assert (v ∈ elements tf) as (b & Hb & Hfb)%(free_in _ _ _ _ _ _ Hr) by (apply elem_of_elements_inorder; by exists a).
      destruct (region_keys _ _ _ _ _ _ _ Hr Hb) as [_ Ev]. pose proof Hb as (X & Y & EQ)%list_elem_of_split.
      exists a, v, b, X, Y. rewrite Ev in Hle, Hmin. split_and!; try done.
      intros w c Hc Hfc Hlc. destruct (region_keys _ _ _ _ _ _ _ Hr Hc) as [_ <-]. apply Hmin.
      * apply (free_in _ _ _ _ _ _ Hr). by exists c.
      * by destruct (region_keys _ _ _ _ _ _ _ Hr Hc) as [_ ->].
Qed.

Lemma pages_bound size : 0 < size < 2 ^ 32 → 0 < size_to_pages size <= 2 ^ 20 ∧
  (size_to_pages size - 1) * 4096 < size <= size_to_pages size * 4096.
Proof.
  intros Hs. unfold size_to_pages, PAGE_SIZE. change 0x1000 with 4096.
  pose proof (Z.div_mod size 4096 ltac:(lia)). pose proof (Z.mod_pos_bound size 4096 ltac:(lia)).
  destruct (Z.eqb_spec (size mod 4096) 0); simpl; rewrite u32_small; lia.
Qed.

Lemma vaddr_alloc_spec fuel r P bs size m :
  region_is r P bs → 0 < size < 2 ^ 32 → (region_fuel <= fuel)%nat → plenty (6 + m) (r_heap r) →
  let n := size_to_pages size in
  ∃ a r', c4rt_vaddr_alloc fuel size r = Ret (a, r') ∧
    ((a = 0 ∧ r' = r ∧ ∀ c, c ∈ bs → vis_free c = true → vsize c < n) ∨
     (∃ X b Y, bs = X ++ b :: Y ∧ vis_free b = true ∧ n <= vsize b ∧
        (∀ c, c ∈ bs → vis_free c = true → n <= vsize c → vsize b <= vsize c) ∧
        a = u32 (base r + voffset b * 4096) ∧ region_is r' P (X ++ carve b n ++ Y) ∧
        base r' = base r ∧ plenty m (r_heap r'))).
Proof.
  intros (Q & tl & tf & Hr & <- & Hna) Hs Hfu Hp n. destruct (pages_bound size Hs) as [Hn _]. fold n in Hn.
  unfold c4rt_vaddr_alloc, alloc_vnode. fold n.
  destruct (best_fit_ok fuel r P Q tl tf n Hr ltac:(lia) Hfu) as (p & E & [[-> Hno]|(a & v & b & X & Y & -> & Ha & -> & Hb & Hle & Hmin)]).
  - exists 0, r. split; [|left; split_and!; [done..|]].
    + unfold mbind, M_bind. rewrite E. by rewrite decide_True.
    + intros c ([w c'] & -> & Hc)%list_elem_of_fmap. by apply (Hno w).
  - assert ((v, b) ∈ X ++ (v, b) :: Y) as HQ by (apply elem_of_app; right; left).
    destruct (two_load_free _ _ _ _ _ _ (ri_two _ _ _ _ _ Hr) Ha) as (nd & El & Ed).
    destruct (split_vnode_ok fuel r P X v b Y tl tf m n Hr Hb ltac:(lia) Hfu Hp)
      as (r' & Q' & tl' & tf' & E' & Hr' & EQ' & Hv' & Eb & Hp').
    pose proof (region_bounds _ _ _ _ _ _ _ Hr HQ).
    destruct (bs_vnodes _ _ _ _ _ _ _ (ri_two _ _ _ _ _ Hr) v) as [Hv0 _]; [apply list_elem_of_fmap; by exists (v, b)|].
    exists (u32 (base r + voffset b * 4096)), r'. split; [|right].
    + rewrite (bind_run _ _ r v r').
      2:{ rewrite (bind_run _ _ _ _ _ E), decide_False by done. rewrite (bind_run _ _ _ _ _ El), Ed.
          rewrite (bind_run _ _ _ _ _ (load_vnode_ok v r b (ri_vnodes _ _ _ _ _ Hr _ _ HQ))).
          rewrite (proj2 (Z.leb_le _ _) Hle). exact E'. }
      rewrite (proj2 (Z.eqb_neq v 0) Hv0).
      rewrite (bind_run _ _ _ _ _ (load_vnode_ok v r' _ (ri_vnodes _ _ _ _ _ Hr' _ _ Hv'))).
      unfold mbind, M_bind, get, mret, M_ret, PAGE_SIZE. cbn [voffset]. change 0x1000 with 4096.
      rewrite Eb, (u32_small (voffset b * 4096)) by lia. done.
    + exists (X.*2), b, (Y.*2). rewrite fmap_app in *. split_and!; try done.
      * change (b :: Y.*2) with (((v, b) :: Y).*2). rewrite <- fmap_app.
        intros c ([w c'] & -> & Hc)%list_elem_of_fmap. by apply (Hmin w).
      * exists Q', tl', tf'. split_and!; [done..|]. by apply no_adjacent_carve.
Qed.

(** ** Freeing *)
Lemma region_join r r' P X u bu w bw Y tl tf tl' tf' tf2 :
  region_inv r P (X ++ (u, bu) :: (w, bw) :: Y) tl tf → vis_free bu = true → vis_free bw = true →
  two_inv r' tl' tf' ((X ++ (u, bu) :: (w, bw) :: Y).*1) → elements tl ≡ₚ w :: elements tl' →
  elements tf ≡ₚ u :: w :: elements tf2 → elements tf' ≡ₚ u :: elements tf2 →
  vnodes r' = <[u := join bu bw]> (vnodes r) →
  region_inv r' P (X ++ (u, join bu bw) :: Y) tl' tf'.
Proof.
  intros Hr Hbu Hbw Ht' El Ef Ef' Ev. pose proof (ri_nodup _ _ _ _ _ Hr) as Hn.
  assert ((X ++ (u, bu) :: (w, bw) :: Y).*1 ≡ₚ w :: (X ++ (u, join bu bw) :: Y).*1) as HQ.
  { rewrite !fmap_app, !fmap_cons. cbn [fst]. rewrite <- !Permutation_middle. constructor 3. }
  split; [split|].
  - eapply two_inv_mono; [|done]. intros x Hx. rewrite HQ. by right.
  - apply (Permutation_cons_inv (a := w)). by rewrite <- HQ, <- El, (ri_layout _ _ _ _ _ Hr).
  - intros v c Hv. rewrite Ev.
    assert (∀ v c, (v, c) ∈ X ++ Y → <[u:=join bu bw]> (vnodes r) !! v = Some c) as Hrest.
    { intros v' c' Hv'. rewrite lookup_insert_ne.
      - apply (ri_vnodes _ _ _ _ _ Hr). apply elem_of_app in Hv' as [?|?]; apply elem_of_app; [by left|right; by do 2 right].
      - intros <-. apply (nodup_mid X ((w, bw) :: Y) u bu Hn u c'); [|done].
        apply elem_of_app in Hv' as [?|?]; apply elem_of_app; [by left|right; by right]. }
    apply elem_of_app in Hv as [Hv|[[= -> ->]|Hv]%elem_of_cons].
    + apply Hrest, elem_of_app. by left.
    + by rewrite lookup_insert_eq.
    + apply Hrest, elem_of_app. by right.
  - rewrite HQ in Hn. by apply NoDup_cons in Hn as [].
  - pose proof (ri_tiles _ _ _ _ _ Hr) as Hti. rewrite fmap_app in Hti |- *.
    apply tiles_app in Hti as (m & Hx & Hy). apply tiles_app. exists m. split; [done|].
    cbn in Hy |- *. destruct Hy as (? & ? & ? & ? & Hy). split_and!; [done|lia|].
    by replace (m + (vsize bu + vsize bw)) with (m + vsize bu + vsize bw) by lia.
  - apply Hr.
  - rewrite Ef'. pose proof (ri_free _ _ _ _ _ Hr) as Hf. rewrite Ef in Hf.
    rewrite !frees_app, !frees_cons, Hbu, Hbw in Hf. rewrite frees_app, frees_cons. cbn.
    rewrite <- Permutation_middle in Hf |- *. constructor. apply (Permutation_cons_inv (a := u)) in Hf.
    rewrite <- Permutation_middle in Hf. by apply (Permutation_cons_inv (a := w)) in Hf.
Qed.

Lemma frees_NoDup Q : NoDup (Q.*1) → NoDup (frees Q).
Proof.
  induction Q as [|[v b] Q IH]; [done|]. intros [Hv Hn]%NoDup_cons. rewrite frees_cons. specialize (IH Hn).
  destruct (vis_free b); [|done]. apply NoDup_cons. split; [|done]. intros (c & Hc & _)%frees_in. apply Hv, list_elem_of_fmap.
  by exists (v, c).
Qed.

(** Two neighbouring free blocks leave the trees. *)
Lemma unindex_ok fuel r P X u bu w bw Y tl tf n :
  let Q := X ++ (u, bu) :: (w, bw) :: Y in
  region_inv r P Q tl tf → vis_free bu = true → vis_free bw = true →
  (region_fuel <= fuel)%nat → plenty (3 + n) (r_heap r) →
  ∃ r' tl' tf',
    (∀ B (m : M (c4rt_vaddr_region H) B),
      (layout_op (λ k, andtree_remove_data k fuel w);;
       free_op (λ k, andtree_remove_data k fuel u);;
       free_op (λ k, andtree_remove_data k fuel w);; m) r = m r') ∧
    two_inv r' tl' tf' (Q.*1) ∧ elements tl ≡ₚ w :: elements tl' ∧ elements tf ≡ₚ u :: w :: elements tf' ∧
    u ∉ elements tf' ∧ same_rest r r' ∧ plenty n (r_heap r').
Proof.
  intros Q Hr Hbu Hbw Hfu Hp.
  assert ((u, bu) ∈ Q ∧ (w, bw) ∈ Q) as [HQu HQw] by (unfold Q; split; apply elem_of_app; right; [left|right; left]).
  destruct (region_sizes _ _ _ _ _ Hr) as [Hsl Hsf]. destruct (region_keys_ok _ _ _ _ _ Hr) as [Hko Hks].
  assert (u ∈ elements tf ∧ w ∈ elements tf) as [Hfu' Hfw] by (split; apply (free_in _ _ _ _ _ _ Hr); eauto).
  assert (u ≠ w) as Huw.
  { intros ->. apply (nodup_mid X ((w, bw) :: Y) w bu (ri_nodup _ _ _ _ _ Hr) w bw); [|done]. apply elem_of_app. right. left. }
  pose proof (frees_NoDup Q (ri_nodup _ _ _ _ _ Hr)) as Hndf. rewrite <- (ri_free _ _ _ _ _ Hr) in Hndf.
  destruct (layout_remove_ok fuel w r tl tf _ (2 + n) (ri_two _ _ _ _ _ Hr)) as (p1 & r1 & tl1 & E1 & Ht1 & El1 & [Ev1 Eb1] & Hp1);
    [done|apply (layout_in _ _ _ _ _ _ Hr); by exists bw|done..|].
  destruct (free_remove_ok fuel u r1 tl1 tf _ (1 + n) Ht1) as (p2 & r2 & tf2 & E2 & Ht2 & Ef2 & [Ev2 Eb2] & Hp2);
    [by rewrite Ev1|done..|].
  assert (w ∈ elements tf2) as Hw2 by (rewrite Ef2 in Hfw; by apply elem_of_cons in Hfw as [->|?]).
  assert (length (elements tf) = S (length (elements tf2))) as Hlen2 by by rewrite Ef2.
  destruct (free_remove_ok fuel w r2 tl1 tf2 _ n Ht2) as (p3 & r3 & tf3 & E3 & Ht3 & Ef3 & [Ev3 Eb3] & Hp3);
    [rewrite Ev2, Ev1; intros x Hx; apply Hks; rewrite Ef2; by right|done|lia|done..|].
  exists r3, tl1, tf3.
  split_and!; [intros; by rewrite (bind_run _ _ _ _ _ E1), (bind_run _ _ _ _ _ E2), (bind_run _ _ _ _ _ E3)|done|done|by rewrite Ef2, Ef3| |split; congruence|done].
  intros Hu3. rewrite Ef2, Ef3 in Hndf. apply NoDup_cons in Hndf as [Hx _]. apply Hx. by right.
Qed.

Lemma neighbours_touch r P X u bu w bw Y tl tf : region_inv r P (X ++ (u, bu) :: (w, bw) :: Y) tl tf →
  voffset bw = voffset bu + vsize bu ∧ 0 <= voffset bu ∧ 0 < vsize bu ∧ 0 < vsize bw ∧
  voffset bu + vsize bu + vsize bw <= 2 ^ 20.
Proof.
  intros Hr. pose proof (region_bounds r P _ tl tf u bu Hr ltac:(apply elem_of_app; right; left)).
  pose proof (ri_tiles _ _ _ _ _ Hr) as Hti. rewrite fmap_app in Hti.
  apply tiles_app in Hti as (m & _ & Hy). cbn in Hy. destruct Hy as (<- & _ & ? & ? & Hy). apply tiles_le in Hy. lia.
Qed.

Lemma region_nonnull r P Q tl tf v b : region_inv r P Q tl tf → (v, b) ∈ Q → v ≠ 0.
Proof.
  intros Hr Hv. destruct (bs_vnodes _ _ _ _ _ _ _ (ri_two _ _ _ _ _ Hr) v) as [? _]; [|done].
  apply list_elem_of_fmap. by exists (v, b).
Qed.

Lemma try_merge_ok fuel r P X u bu w bw Y tl tf n :
  region_inv r P (X ++ (u, bu) :: (w, bw) :: Y) tl tf → vis_free bu = true → vis_free bw = true →
  (region_fuel <= fuel)%nat → plenty (4 + n) (r_heap r) →
  ∃ r' tl' tf', try_merge fuel u w r = Ret (u, r') ∧ region_inv r' P (X ++ (u, join bu bw) :: Y) tl' tf' ∧
    base r' = base r ∧ plenty n (r_heap r').
Proof.
  intros Hr Hbu Hbw Hfu Hp. destruct (neighbours_touch _ _ _ _ _ _ _ _ _ _ Hr) as (Ho & ? & ? & ? & ?).
  set (Q := X ++ (u, bu) :: (w, bw) :: Y) in *.
  assert ((u, bu) ∈ Q ∧ (w, bw) ∈ Q) as [HQu HQw] by (unfold Q; split; apply elem_of_app; right; [left|right; left]).
  pose proof (ri_vnodes _ _ _ _ _ Hr _ _ HQu) as Evu. pose proof (ri_vnodes _ _ _ _ _ Hr _ _ HQw) as Evw.
  destruct (region_sizes _ _ _ _ _ Hr) as [_ Hsf].
  unfold try_merge. rewrite (proj2 (Z.eqb_neq u 0) (region_nonnull _ _ _ _ _ _ _ Hr HQu)).
  rewrite (proj2 (Z.eqb_neq w 0) (region_nonnull _ _ _ _ _ _ _ Hr HQw)). cbn [orb].
  rewrite (bind_run _ _ _ _ _ (load_vnode_ok u r bu Evu)), (bind_run _ _ _ _ _ (load_vnode_ok w r bw Evw)).
  rewrite Hbu, Hbw. cbn [negb orb]. rewrite (proj2 (Z.ltb_lt (voffset bu) (voffset bw)) ltac:(lia)).
  destruct (unindex_ok fuel r P X u bu w bw Y tl tf (1 + n)) as (r1 & tl1 & tf1 & E1 & Ht1 & El1 & Ef1 & Hu1 & [Ev1 Eb1] & Hp1);
    [exact Hr|done..|]. rewrite E1. fold Q in Ht1.
  rewrite (bind_run _ _ _ _ _ (load_vnode_ok w r1 bw ltac:(by rewrite Ev1))).
  rewrite (bind_run _ _ _ _ _ (upd_vnode_ok u _ r1 bu ltac:(by rewrite Ev1))), u32_small by lia.
  replace (set_vsize (vsize bu + vsize bw) bu) with (join bu bw) by (unfold set_vsize, join; by rewrite Hbu).
  assert (∀ x, x ∈ elements tf1 → x ∈ elements tf) as Hin1 by (intros x Hx; rewrite Ef1; by do 2 right).
  assert (length (elements tf) = S (S (length (elements tf1)))) as Hlen by by rewrite Ef1.
  destruct (free_insert_ok fuel u (with_vnodes (<[u := join bu bw]> (vnodes r1)) r1) tl1 tf1 (Q.*1) n)
    as (p4 & r4 & tf4 & E4 & Ht4 & Ef4 & [Ev4 Eb4] & Hp4); [| |lia|done..|].
  { apply two_inv_vnodes; [done| |].
    - intros x _. unfold vnode_get_offset. destruct (decide (x = u)) as [->|?]; [|by rewrite lookup_insert_ne].
      by rewrite lookup_insert_eq, Ev1, Evu.
    - intros x Hx. unfold vnode_get_size. rewrite lookup_insert_ne; [done|]. by intros ->. }
  { apply known_keys. cbn [vnodes with_vnodes]. rewrite Ev1.
    eapply known_mono; [|eapply known_insert; [exact (region_known _ _ _ _ _ Hr)|unfold fits; cbn; lia]].
    intros x [->|Hx%Hin1]%elem_of_cons; [left|right]. destruct (proj1 (free_in _ _ _ _ _ x Hr) Hx) as (c & Hc & _).
    apply list_elem_of_fmap. by exists (x, c). }
  rewrite (bind_run _ _ _ _ _ E4). cbn [vnodes with_vnodes base] in Ev4, Eb4.
  exists r4, tl1, tf4. split; [done|]. split; [|split; [congruence|done]].
  eapply (region_join r r4 P X u bu w bw Y tl tf tl1 tf4 tf1); try done. by rewrite Ev4, Ev1.
Qed.

(** Neighbours that are not both free, or not there, stay as they are. *)
Lemma try_merge_no fuel r a b va vb : vnodes r !! a = Some va → vnodes r !! b = Some vb →
  ¬ (vis_free va = true ∧ vis_free vb = true) → try_merge fuel a b r = Ret (0, r).
Proof.
  intros Ea Eb Hn. unfold try_merge. destruct (_ || _); [done|].
  rewrite (bind_run _ _ _ _ _ (load_vnode_ok a r va Ea)), (bind_run _ _ _ _ _ (load_vnode_ok b r vb Eb)).
  destruct (vis_free va), (vis_free vb); try done. naive_solver.
Qed.

Lemma try_merge_null fuel r a b : a = 0 ∨ b = 0 → try_merge fuel a b r = Ret (0, r).
Proof. intros [-> | ->]; unfold try_merge; simpl; [done|]. by rewrite orb_true_r. Qed.

(** *** The merging loop *)
Definition addr_of (o : option (Z * c4rt_vnode)) : Z := from_option fst 0 o.

Lemma data_of_ok r tl tf V (o : option (Z * Z)) (q : option (Z * c4rt_vnode)) : two_inv r tl tf V →
  (∀ p, o = Some p → p ∈ inorder tl) → snd <$> o = fst <$> q → data_of (opt_ptr (fst <$> o)) r = Ret (addr_of q, r).
Proof.
  intros Ht Hin Eq. unfold data_of. destruct o as [[a d]|]; simpl in *.
  - destruct (two_load_layout r tl tf V a d Ht (Hin _ eq_refl)) as (n & E & Ed).
    rewrite (bind_run _ _ _ _ _ E). destruct q as [[]|]; [|done]. simpl in *. injection Eq as <-. by rewrite Ed.
  - by destruct q.
Qed.

(** What one turn of the loop finds around a block. *)
Lemma surroundings fuel r P X v b Y tl tf : region_inv r P (X ++ (v, b) :: Y) tl tf → (region_fuel <= fuel)%nat →
  ∃ lay prev next, layout_op (λ k, andtree_find_data k fuel v) r = Ret (lay, r) ∧
    on_layout (andtree_previous fuel lay) r = Ret (prev, r) ∧ on_layout (andtree_next fuel lay) r = Ret (next, r) ∧
    data_of prev r = Ret (addr_of (last X), r) ∧ data_of next r = Ret (addr_of (head Y), r).
Proof.
  intros Hr Hfu. pose proof (layout_order _ _ _ _ _ Hr) as Eo. destruct (region_sizes _ _ _ _ _ Hr) as [Hsz _].
  rewrite <- size_elements in Hsz. pose proof (bs_tree _ _ _ _ _ _ _ (ri_two _ _ _ _ _ Hr)) as Htl.
  destruct (region_keys_ok _ _ _ _ _ Hr) as [Hko _].
  assert (v ∈ elements tl) as Hv.
  { apply (layout_in _ _ _ _ _ _ Hr). exists b. apply elem_of_app. right. left. }
  assert (tree_fuel (tree_size tl) <= fuel)%nat as Hf by (etrans; [apply region_fuel_enough; lia|done]).
  assert (Z.of_nat (tree_size tl) < 2 ^ 31) as Hsz' by (unfold MAX_PAGES in Hsz; lia).
  destruct (find_data_spec (vnode_get_offset (vnodes r)) fuel v tl (layout_view r) Htl) as (p & E & Hp); [|done..|].
  { apply keys_cmp; [by apply Hko|done]. }
  destruct Hp as [[-> Hp]|(a & -> & Ha)]; [done|].
  apply list_elem_of_split in Ha as (X' & Y' & Ein).
  destruct (neighbours_spec (vnode_get_offset (vnodes r)) fuel a v X' Y' tl (layout_view r) Htl Ein Hsz' Hf) as [En Ep].
  assert (X'.*2 = X.*1 ∧ Y'.*2 = Y.*1) as [EX EY].
  { unfold elements in Eo. rewrite Ein, !fmap_app in Eo. simpl in Eo.
    pose proof (ri_nodup _ _ _ _ _ Hr) as Hn. rewrite fmap_app in Hn. simpl in Hn.
    assert (v ∉ X.*1 ∧ v ∉ X'.*2) as [HX HX'].
    { split; [apply NoDup_app in Hn as (_ & Hd & _); intros Hx; apply (Hd _ Hx); left|].
      rewrite <- Eo in Hn. apply NoDup_app in Hn as (_ & Hd & _). intros Hx. apply (Hd _ Hx). left. }
    by apply (app_cons_unique v). }
  exists (PNode a), (last_ptr X'), (hd_ptr Y').
  split; [erewrite layout_op_ok by exact E; by rewrite set_layout_id|].
  split; [unfold on_layout, zoom; rewrite Ep; by rewrite set_layout_id|].
  split; [unfold on_layout, zoom; rewrite En; by rewrite set_layout_id|].
  split; (eapply data_of_ok; [apply Hr| |]).
  - intros q Eq. rewrite Ein. apply elem_of_app. left. apply last_Some in Eq as [l' ->]. apply elem_of_app. right. left.
  - by rewrite <- !fmap_last, EX.
  - intros q Eq. rewrite Ein. destruct Y'; [done|]. injection Eq as ->. apply elem_of_app. right. right. left.
  - destruct Y', Y; simpl in *; congruence.
Qed.

Lemma merge_turn fuel n r P X v b Y tl tf foo r1 v' r2 : region_inv r P (X ++ (v, b) :: Y) tl tf → (region_fuel <= fuel)%nat →
  try_merge fuel (addr_of (last X)) v r = Ret (foo, r1) →
  (if truthy foo then mret foo else try_merge fuel v (addr_of (head Y))) r1 = Ret (v', r2) →
  merge_loop fuel (S n) v r = merge_loop fuel n v' r2.
Proof.
  intros Hr Hfu E1 E2. cbn [merge_loop].
  rewrite (proj2 (Z.eqb_neq v 0)) by (eapply region_nonnull; [exact Hr|]; apply elem_of_app; right; left).
  destruct (surroundings fuel r P X v b Y tl tf Hr Hfu) as (lay & prev & next & Ea & Eb & Ec & Ed & Ee).
  by rewrite (bind_run _ _ _ _ _ Ea), (bind_run _ _ _ _ _ Eb), (bind_run _ _ _ _ _ Ec), (bind_run _ _ _ _ _ Ed), (bind_run _ _ _ _ _ Ee),
    (bind_run _ _ _ _ _ E1), (bind_run _ _ _ _ _ E2).
Qed.

(** The neighbour on the left is used, or there is none. *)
Definition used_or_none (o : option c4rt_vnode) : Prop := from_option vis_free false o = false.

Lemma merge_left_no fuel r P X v b Y tl tf : region_inv r P (X ++ (v, b) :: Y) tl tf → used_or_none (snd <$> last X) →
  try_merge fuel (addr_of (last X)) v r = Ret (0, r).
Proof.
  intros Hr Hu. destruct (last X) as [[u bu]|] eqn:EX; [|by apply try_merge_null; left].
  apply last_Some in EX as [X0 ->]. simpl in *. eapply try_merge_no.
  - apply (ri_vnodes _ _ _ _ _ Hr). rewrite <- app_assoc. apply elem_of_app. right. left.
  - apply (ri_vnodes _ _ _ _ _ Hr). apply elem_of_app. right. left.
  - unfold used_or_none in Hu. simpl in Hu. rewrite Hu. naive_solver.
Qed.

Lemma merge_right_no fuel r P X v b Y tl tf : region_inv r P (X ++ (v, b) :: Y) tl tf → used_or_none (snd <$> head Y) →
  try_merge fuel v (addr_of (head Y)) r = Ret (0, r).
Proof.
  intros Hr Hu. destruct Y as [|[w bw] Y]; [by apply try_merge_null; right|]. simpl in *. eapply try_merge_no.
  - apply (ri_vnodes _ _ _ _ _ Hr). apply elem_of_app. right. left.
  - apply (ri_vnodes _ _ _ _ _ Hr). apply elem_of_app. right. right. left.
  - unfold used_or_none in Hu. simpl in Hu. rewrite Hu. naive_solver.
Qed.

Lemma merge_done fuel n r P X v b Y tl tf : region_inv r P (X ++ (v, b) :: Y) tl tf → (region_fuel <= fuel)%nat →
  used_or_none (snd <$> last X) → used_or_none (snd <$> head Y) → merge_loop fuel (2 + n) v r = Ret (tt, r).
Proof.
  intros Hr Hfu HX HY. change (2 + n)%nat with (S (1 + n)).
  rewrite (merge_turn fuel (1 + n) r P X v b Y tl tf 0 r 0 r Hr Hfu); [done| |].
  - by eapply merge_left_no.
  - cbn. by eapply merge_right_no.
Qed.

Lemma merge_right fuel n m r P X v b Y tl tf : region_inv r P (X ++ (v, b) :: Y) tl tf → vis_free b = true →
  (region_fuel <= fuel)%nat → plenty (4 + m) (r_heap r) → used_or_none (snd <$> last X) → no_adjacent (Y.*2) →
  ∃ r' Q tl' tf', merge_loop fuel (3 + n) v r = Ret (tt, r') ∧ region_inv r' P Q tl' tf' ∧
    Q.*2 = X.*2 ++ join_right b (Y.*2) ∧ base r' = base r ∧ plenty m (r_heap r').
Proof.
  intros Hr Hb Hfu Hp HX HY.
  assert (plenty m (r_heap r)) as Hp'.
  { eapply plenty_le; [|..|exact Hp]; [|lia]. apply (ti_heap _ _ _ (bs_tree _ _ _ _ _ _ _ (ri_two _ _ _ _ _ Hr))). }
  destruct (from_option vis_free false (snd <$> head Y)) eqn:EY.
  - destruct Y as [|[w bw] Y]; [done|]. simpl in EY, HY.
    destruct (try_merge_ok fuel r P X v b w bw Y tl tf m Hr Hb EY Hfu Hp) as (r1 & tl1 & tf1 & E1 & Hr1 & Eb1 & Hp1).
    exists r1. eexists _, tl1, tf1. split; [|split; [exact Hr1|]].
    + change (3 + n)%nat with (S (2 + n)). rewrite (merge_turn fuel (2 + n) r P X v b ((w, bw) :: Y) tl tf 0 r v r1 Hr Hfu).
      * eapply merge_done; [exact Hr1|done..|]. unfold used_or_none. destruct Y as [|[y by'] Y]; [done|].
        destruct HY as [HY _]. simpl in *. rewrite EY in HY. destruct (vis_free by'); [naive_solver|done].
      * by eapply merge_left_no.
      * exact E1.
    + rewrite fmap_app. simpl. by rewrite EY.
  - exists r. eexists _, tl, tf. split; [|split; [exact Hr|]].
    + change (3 + n)%nat with (2 + (1 + n))%nat. by eapply merge_done.
    + rewrite fmap_app. split_and!; [|done..]. destruct Y as [|[w bw] Y]; [done|]. simpl in EY |- *. by rewrite EY.
Qed.

Lemma merge_both fuel n m r P X v b Y tl tf : region_inv r P (X ++ (v, mk_vnode (vsize b) (voffset b) true) :: Y) tl tf →
  (region_fuel <= fuel)%nat → plenty (8 + m) (r_heap r) → no_adjacent (X.*2) → no_adjacent (Y.*2) →
  ∃ r' Q tl' tf', merge_loop fuel (4 + n) v r = Ret (tt, r') ∧ region_inv r' P Q tl' tf' ∧
    Q.*2 = give_back (X.*2) b (Y.*2) ∧ base r' = base r ∧ plenty m (r_heap r').
Proof.
  intros Hr Hfu Hp HX HY. unfold give_back. rewrite fmap_last.
  destruct (from_option vis_free false (snd <$> last X)) eqn:EX.
  - destruct (last X) as [[u bu]|] eqn:ElX; [|done]. simpl in EX |- *. rewrite EX.
    apply last_Some in ElX as [X0 ->]. rewrite <- app_assoc in Hr. simpl in Hr.
    destruct (try_merge_ok fuel r P X0 u bu v _ Y tl tf (4 + m) Hr EX eq_refl Hfu Hp) as (r1 & tl1 & tf1 & E1 & Hr1 & Eb1 & Hp1).
    assert (used_or_none (snd <$> last X0)) as HX0.
    { rewrite fmap_app in HX. pose proof (no_adjacent_apart _ _ HX) as Ha. unfold apart, used_or_none in *.
      rewrite <- fmap_last. simpl in Ha. rewrite EX in Ha. destruct (from_option vis_free false (last X0.*2)); [naive_solver|done]. }
    destruct (merge_right fuel n m r1 P X0 u _ Y tl1 tf1 Hr1 eq_refl Hfu Hp1 HX0 HY) as (r2 & Q & tl2 & tf2 & E2 & Hr2 & EQ & Eb2 & Hp2).
    exists r2, Q, tl2, tf2. split; [|split; [done|]].
    + change (4 + n)%nat with (S (3 + n)). rewrite <- E2. eapply (merge_turn fuel (3 + n) r P (X0 ++ [(u, bu)]) v); [rewrite <- app_assoc; exact Hr|done| |].
      * rewrite last_snoc. exact E1.
      * assert (truthy u = true) as ->; [|done]. unfold truthy. rewrite (proj2 (Z.eqb_neq u 0)); [done|].
        eapply region_nonnull; [exact Hr|]. apply elem_of_app. right. left.
    + rewrite fmap_app. simpl. rewrite removelast_last. split_and!; [done|congruence|done].
  - destruct (merge_right fuel (S n) m r P X v _ Y tl tf Hr eq_refl Hfu) as (r2 & Q & tl2 & tf2 & E2 & Hr2 & EQ & Eb2 & Hp2).
    + eapply plenty_le; [|..|exact Hp]; [|lia]. apply (ti_heap _ _ _ (bs_tree _ _ _ _ _ _ _ (ri_two _ _ _ _ _ Hr))).
    + done.
    + done.
    + exists r2, Q, tl2, tf2. split_and!; try done. rewrite EQ. destruct (last X) as [[u bu]|] eqn:ElX; simpl in EX |- *; [by rewrite EX|].
      apply last_None in ElX as ->. done.
Qed.

(** *** Freeing an address *)
Lemma no_adjacent_join_right b Y : no_adjacent Y → no_adjacent (join_right b Y).
Proof.
  destruct Y as [|c Y]; [done|]. intros HY. simpl. destruct (vis_free c) eqn:Ec.
  - destruct Y as [|d Y]; [done|]. destruct HY as [Ha HY]. split; [|done]. simpl. rewrite Ec in Ha. naive_solver.
  - simpl. split; [rewrite Ec; naive_solver|done].
Qed.

Lemma no_adjacent_give_back X b Y : no_adjacent (X ++ b :: Y) → no_adjacent (give_back X b Y).
Proof.
  intros Hn. pose proof (no_adjacent_app _ _ Hn) as [HX HbY]. pose proof (no_adjacent_cons_inv _ _ HbY) as HY.
  unfold give_back. destruct (last X) as [u|] eqn:EX.
  - apply last_Some in EX as [X0 ->]. rewrite removelast_last.
    pose proof (no_adjacent_app _ _ HX) as [HX0 _]. pose proof (no_adjacent_apart _ _ HX) as Ha. simpl in Ha.
    destruct (vis_free u) eqn:Eu.
    + apply no_adjacent_join; [done|by apply no_adjacent_join_right|]. unfold apart in *. simpl in Ha. rewrite Eu in Ha. naive_solver.
    + apply no_adjacent_join; [done|by apply no_adjacent_join_right|]. unfold apart. rewrite last_snoc. simpl. rewrite Eu. naive_solver.
  - by apply no_adjacent_join_right.
Qed.

Lemma find_block_ok fuel r P Q tl tf off : region_inv r P Q tl tf → 0 <= off < 2 ^ 31 → (region_fuel <= fuel)%nat →
  ∃ p, layout_op (λ k, andtree_find_key k fuel (i32 off)) r = Ret (p, r) ∧
    ((p = PNull ∧ ∀ v b, (v, b) ∈ Q → voffset b ≠ off) ∨
     (∃ a n v b, p = PNode a ∧ on_layout (load p) r = Ret (n, r) ∧ ndata n = v ∧ (v, b) ∈ Q ∧ voffset b = off)).
Proof.
  intros Hr Hoff Hfu. rewrite i32_small by lia. destruct (region_sizes _ _ _ _ _ Hr) as [Hsz _].
  rewrite <- size_elements in Hsz. pose proof (bs_tree _ _ _ _ _ _ _ (ri_two _ _ _ _ _ Hr)) as Htl.
  destruct (find_key_spec (vnode_get_offset (vnodes r)) fuel off tl (layout_view r) Htl) as (p & E & Hp).
  - apply (cmp_ok_bound _ _ _ 0); [lia|]. apply (region_keys_ok _ _ _ _ _ Hr).
  - unfold MAX_PAGES in Hsz. lia.
  - etrans; [apply region_fuel_enough; lia|done].
  - exists p. split; [erewrite layout_op_ok by exact E; by rewrite set_layout_id|].
    destruct Hp as [[-> Hp]|(a & v & -> & Ha & Hk)]; [left|right].
    + split; [done|]. intros v b Hb. destruct (region_keys _ _ _ _ _ _ _ Hr Hb) as [<- _]. apply Hp.
      apply (layout_in _ _ _ _ _ _ Hr). by exists b.
    + destruct (two_load_layout _ _ _ _ _ _ (ri_two _ _ _ _ _ Hr) Ha) as (n & El & Ed).
      assert (v ∈ elements tl) as [b Hb]%(layout_in _ _ _ _ _ _ Hr) by (apply elem_of_elements_inorder; by exists a).
      destruct (region_keys _ _ _ _ _ _ _ Hr Hb) as [Ev _]. exists a, n, v, b. split_and!; try done. congruence.
Qed.

Lemma free_vnode_ok fuel r P X v b Y tl tf m : region_inv r P (X ++ (v, b) :: Y) tl tf → vis_free b = false →
  no_adjacent ((X ++ (v, b) :: Y).*2) → (region_fuel <= fuel)%nat → plenty (9 + m) (r_heap r) →
  ∃ r', free_vnode fuel v r = Ret (tt, r') ∧ region_is r' P (give_back (X.*2) b (Y.*2)) ∧
    base r' = base r ∧ plenty m (r_heap r').
Proof.
  intros Hr Hb Hna Hfu Hp. set (b' := mk_vnode (vsize b) (voffset b) true).
  assert ((v, b) ∈ X ++ (v, b) :: Y) as HQ by (apply elem_of_app; right; left).
  destruct (region_sizes _ _ _ _ _ Hr) as [_ Hsf]. pose proof (region_known _ _ _ _ _ Hr) as Hkn.
  pose proof (region_bounds _ _ _ _ _ _ _ Hr HQ) as Hbd.
  pose proof (ri_vnodes _ _ _ _ _ Hr _ _ HQ) as Ev.
  pose proof (region_mark r P X v b Y tl tf b' Hr eq_refl eq_refl) as Hc.
  set (r1 := with_vnodes (<[v := b']> (vnodes r)) r) in *.
  destruct (free_insert_ok fuel v r1 tl tf _ (8 + m) (ri_two _ _ _ _ _ Hc)) as (p & r2 & tf2 & E2 & Ht2 & Ef2 & Hs2 & Hp2);
    [|done..|].
  { apply known_keys. eapply known_mono; [|eapply known_insert; [exact Hkn|unfold fits; cbn; lia]].
    intros x [->|Hx]%elem_of_cons; [left|right]. destruct (proj1 (free_in _ _ _ _ _ x Hr) Hx) as (c & Hc' & _).
    apply list_elem_of_fmap. by exists (x, c). }
  assert (region_inv r2 P (X ++ (v, b') :: Y) tl tf2) as Hr2.
  { split; [by eapply region_core_free|]. rewrite Ef2, (ri_free _ _ _ _ _ Hr), !frees_mid, Hb. done. }
  rewrite fmap_app in Hna. simpl in Hna. pose proof (no_adjacent_app _ _ Hna) as [HX HY%no_adjacent_cons_inv].
  destruct fuel as [|[|[|[|fuel]]]]; [unfold region_fuel in Hfu; lia..|].
  destruct (merge_both _ fuel m r2 P X v b Y tl tf2 Hr2 Hfu Hp2 HX HY) as (r3 & Q & tl3 & tf3 & E3 & Hr3 & EQ & Eb3 & Hp3).
  exists r3. split; [|split_and!; [|by rewrite Eb3, (proj2 Hs2)|done]].
  - unfold free_vnode. rewrite (bind_run _ _ _ _ _ (upd_vnode_ok v (set_vfree true) r b Ev)).
    rewrite (bind_run _ _ _ _ _ E2). exact E3.
  - exists Q, tl3, tf3. split_and!; [done..|]. by apply no_adjacent_give_back.
Qed.

Lemma offset_back r off : 0 <= off < 2 ^ 20 → u32 (u32 (base r + off * 4096) - base r) / 4096 = off.
Proof.
  intros Ho. unfold wrapu. rewrite Zminus_mod_idemp_l. replace (base r + off * 4096 - base r) with (off * 4096) by lia.
  rewrite Z.mod_small by lia. by rewrite Z.div_mul.
Qed.

Lemma vaddr_free_spec fuel r P X b Y m :
  region_is r P (X ++ b :: Y) → vis_free b = false → (region_fuel <= fuel)%nat → plenty (9 + m) (r_heap r) →
  ∃ r', c4rt_vaddr_free fuel (u32 (base r + voffset b * 4096)) r = Ret (tt, r') ∧
    region_is r' P (give_back X b Y) ∧ base r' = base r ∧ plenty m (r_heap r').
Proof.
  intros (Q & tl & tf & Hr & EQ & Hna) Hb Hfu Hp.
  apply fmap_app_inv in EQ as (QX & Q' & -> & EQ' & ->). destruct Q' as [|[v b'] QY]; [done|]. injection EQ' as <- ->.
  assert ((v, b) ∈ QX ++ (v, b) :: QY) as HQ by (apply elem_of_app; right; left).
  pose proof (region_bounds _ _ _ _ _ _ _ Hr HQ) as Hbd.
  unfold c4rt_vaddr_free, PAGE_SIZE. change 0x1000 with 4096. rewrite (bind_run get _ r r r) by done.
  rewrite offset_back by lia.
  destruct (find_block_ok fuel r P _ tl tf (voffset b) Hr ltac:(lia) Hfu) as (p & E & [[-> Hno]|(a & n & w & c & -> & El & Ed & Hw & Eo)]).
  { by destruct (Hno v b HQ). }
  destruct (offset_unique _ _ _ _ _ _ _ _ _ Hr Hw HQ Eo) as [-> ->].
  rewrite (bind_run _ _ _ _ _ E), decide_False by done. rewrite (bind_run _ _ _ _ _ El), Ed.
  apply (free_vnode_ok fuel r P QX v b QY tl tf m); try done. by rewrite fmap_app.
Qed.

(** ** Creating a region *)
Lemma tree_inv_nil (k : Z → Z) (s : anstate H) : t_root s = PSentinel → t_nodes s = 0 → sent_ok (t_mem s) →
  al_inv (t_heap s) → tree_inv k s Nil.
Proof.
  intros Hr Hn Hs Hh. split; try done.
  - split; [done|done|done|constructor].
  - constructor.
  - by intros a ?%not_elem_of_nil.
Qed.

Lemma region_create_spec fuel r b pages m :
  sent_ok (r_mem r) → al_inv (r_heap r) → plenty (4 + m) (r_heap r) → 0 < pages <= MAX_PAGES → (region_fuel <= fuel)%nat →
  ∃ a r', c4rt_vaddr_region_create fuel b pages r = Ret (a, r') ∧ a ≠ 0 ∧ base r' = b ∧
    region_is r' pages [mk_vnode pages 0 true] ∧ plenty m (r_heap r').
Proof.
  intros Hs Hi Hp Hpg Hfu. unfold c4rt_vaddr_region_create.
  destruct (alloc_plenty (3 + m) sizeof_region (r_heap r) Hi Hp) as (a & h1 & [E1 L1] & Ha & _ & Hi1 & Hp1); [by unfold sizeof_region|].
  destruct (alloc_plenty (2 + m) sizeof_vnode h1 Hi1 Hp1) as (v & h2 & [E2 L2] & Hv & Hvf & Hi2 & Hp2); [by unfold sizeof_vnode|].
  set (bv := mk_vnode pages 0 true).
  set (r1 := mk_region (layout r) (free_nodes r) (base r) h1 (r_mem r) (vnodes r)).
  set (r2 := mk_region (layout r) (free_nodes r) (base r) h2 (r_mem r) (<[v := bv]> (vnodes r))).
  rewrite (bind_run _ _ r a r1) by (unfold on_rheap, zoom; by rewrite E1).
  rewrite (bind_run _ _ r1 v r2).
  2:{ unfold make_vnode, on_rheap, zoom. unfold mbind at 1, M_bind at 1. cbn [r1 r_heap]. rewrite E2.
      by rewrite (proj2 (Z.eqb_neq v 0) Hv). }
  rewrite (proj2 (Z.eqb_neq a 0) Ha).
  set (r3 := mk_region (mk_andtree PSentinel 0) (mk_andtree PSentinel 0) b h2 (r_mem r) (<[v := bv]> (vnodes r))).
  erewrite (bind_run (modify _)) by reflexivity. erewrite (bind_run (on_layout _)) by reflexivity.
  erewrite (bind_run (on_free _)) by reflexivity. fold r3.
  assert (two_inv r3 Nil Nil [v]) as Ht3.
  { split; [by apply tree_inv_nil|by apply tree_inv_nil|by intros ? ?%not_elem_of_nil|].
    intros x ->%list_elem_of_singleton. cbn. rewrite L2. split_and!; [done| |apply not_elem_of_nil..].
    apply elem_of_union. left. by apply elem_of_singleton. }
  assert (known (vnodes r3) [v]) as Hkn.
  { intros x ->%list_elem_of_singleton. exists bv. cbn. rewrite lookup_insert_eq. split; [done|]. unfold fits, MAX_PAGES in *. cbn. lia. }
  destruct (known_keys _ _ Hkn) as [Hko Hks].
  destruct (layout_insert_ok fuel v r3 Nil Nil _ (1 + m) Ht3 Hko) as (p4 & r4 & tl & E4 & Ht4 & El & [Ev4 Eb4] & Hp4);
    [by unfold MAX_PAGES|done..|].
  rewrite (bind_run _ _ _ _ _ E4).
  destruct (free_insert_ok fuel v r4 tl Nil _ m Ht4) as (p5 & r5 & tf & E5 & Ht5 & Ef & [Ev5 Eb5] & Hp5);
    [by rewrite Ev4|by unfold MAX_PAGES|done..|].
  rewrite (bind_run _ _ _ _ _ E5).
  exists a, r5. split_and!; [done|done|by rewrite Eb5, Eb4| |done].
  exists [(v, bv)], tl, tf. split_and!; [|done|done]. split; [split|]; try done.
  - intros w c [= -> ->]%list_elem_of_singleton. rewrite Ev5, Ev4. cbn. by rewrite lookup_insert_eq.
  - apply NoDup_singleton.
  - simpl. lia.
  - lia.
Qed.

(** ** The addresses handed out *)

(** The data of a tree in memory, in order. *)
Fixpoint walk (n : nat) (m : gmap nptr c4rt_andnode) (p : nptr) : list Z :=
  match n, p with
  | S n', PNode _ => match m !! p with
                     | Some c => walk n' m (leaf0 c) ++ ndata c :: walk n' m (leaf1 c)
                     | None => []
                     end
  | _, _ => []
  end.

Lemma walk_ok n m par t : rep m par t → (height t <= n)%nat → walk n m (tptr t) = elements t.
Proof.
  revert n par. induction t as [|a lv d l IHl rt IHr]; intros n par Hr Hh; [by destruct n|].
  destruct n as [|n]; [simpl in Hh; lia|]. destruct Hr as (E & Hl & Hrr). simpl in Hh.
  rewrite elements_Node. cbn [walk tptr]. rewrite E. cbn [leaf0 leaf1 ndata].
  by erewrite IHl, IHr by (first [eassumption | lia]).
Qed.

Definition used (bs : list c4rt_vnode) : list c4rt_vnode := filter (λ b, vis_free b = false) bs.
Definition block_addr r (b : c4rt_vnode) : Z := u32 (base r + voffset b * 4096).
Definition block_list r : list c4rt_vnode := omap (vnodes r !!.) (walk region_fuel (r_mem r) (at_root (layout r))).
Definition live_addrs r : gset Z := list_to_set (block_addr r <$> used (block_list r)).

Lemma block_list_ok r P bs : region_is r P bs → block_list r = bs.
Proof.
  intros (Q & tl & tf & Hr & <- & _). unfold block_list.
  pose proof (bs_tree _ _ _ _ _ _ _ (ri_two _ _ _ _ _ Hr)) as Htl. destruct (region_sizes _ _ _ _ _ Hr) as [Hsz _].
  rewrite <- size_elements in Hsz. pose proof (region_fuel_enough (tree_size tl) ltac:(lia)).
  destruct (tree_inv_bounds _ _ _ Htl) as [_ Hh]; [unfold MAX_PAGES in Hsz; lia|].
  replace (at_root (layout r)) with (tptr tl) by (symmetry; apply (ts_root _ _ (ti_state _ _ _ Htl))).
  erewrite walk_ok; [|apply (ts_rep _ _ (ti_state _ _ _ Htl))|lia].
  rewrite (layout_order _ _ _ _ _ Hr). pose proof (ri_vnodes _ _ _ _ _ Hr) as Hv. clear -Hv.
  induction Q as [|[v b] Q IH]; [done|]. simpl. rewrite (Hv v b) by left. f_equal. apply IH. intros w c Hw. apply Hv. by right.
Qed.

Lemma used_app xs ys : used (xs ++ ys) = used xs ++ used ys.
Proof. apply filter_app. Qed.

Lemma used_join_right b Y : vis_free b = true → used (join_right b Y) = used Y.
Proof.
  intros Hb. unfold used. destruct Y as [|c Y]; cbn [join_right]; [by rewrite filter_cons, decide_False by (by rewrite Hb)|].
  destruct (vis_free c) eqn:Ec; rewrite !filter_cons.
  - rewrite decide_False by done. by rewrite decide_False by (by rewrite Ec).
  - rewrite decide_False by (by rewrite Hb). done.
Qed.

Lemma used_give_back X b Y : used (give_back X b Y) = used X ++ used Y.
Proof.
  unfold give_back. destruct (last X) as [u|] eqn:EX.
  - apply last_Some in EX as [X0 ->]. rewrite removelast_last. destruct (vis_free u) eqn:Eu.
    + assert (used [u] = []) as Hu by (unfold used; by rewrite filter_cons, decide_False by (by rewrite Eu)).
      by rewrite !used_app, used_join_right, Hu, app_nil_r by done.
    + by rewrite !used_app, used_join_right by done.
  - apply last_None in EX as ->. by rewrite used_join_right.
Qed.

Lemma used_carve b n : used (carve b n) = [mk_vnode n (voffset b) false].
Proof. unfold carve, used. by case_match. Qed.
End ops.
