(* ===== verification/AddrmanSpec.v ===== *)
(** What the address space manager promises: the theorems about allocating,
    freeing and creating regions, and the region interface the memory objects
    and the connection manager are written against. *)

From S2P Require Import Prelude Interfaces AATree AndTree AndTreeRep AndTreeInsert AndTreeFind Addrman AddrmanInv AddrmanOps.
#[local] Open Scope Z_scope.

Section claims.
Context {H : Type} `{AllocatorLaws H}.
Implicit Types r : c4rt_vaddr_region H.

(** C7: [c4rt_vaddr_alloc] is best fit: it takes the pages from the front of
    the smallest free block that is large enough, leaves the rest as a free
    block, keeps the blocks a tiling of the region, and answers [NULL] only when
    no free block is large enough.  Both trees stay balanced and consistent and
    the fuel of a region is enough. *)
Theorem vaddr_alloc_correct fuel r P bs size m :
  region_is r P bs → 0 < size < 2 ^ 32 → (region_fuel <= fuel)%nat → plenty (6 + m) (r_heap r) →
  let n := size_to_pages size in
  ∃ a r', c4rt_vaddr_alloc fuel size r = Ret (a, r') ∧
    ((a = 0 ∧ r' = r ∧ ∀ c, c ∈ bs → vis_free c = true → vsize c < n) ∨
     (∃ X b Y, bs = X ++ b :: Y ∧ vis_free b = true ∧ n <= vsize b ∧
        (∀ c, c ∈ bs → vis_free c = true → n <= vsize c → vsize b <= vsize c) ∧
        a = u32 (base r + voffset b * 4096) ∧ region_is r' P (X ++ carve b n ++ Y) ∧
        base r' = base r ∧ plenty m (r_heap r'))).
Proof. apply vaddr_alloc_spec. Qed.

(** C8: [c4rt_vaddr_free] gives an allocated block back and joins it with its
    free neighbours on both sides, so that no two free blocks are ever next to
    each other; its loop ends. *)
Theorem vaddr_free_correct fuel r P X b Y m :
  region_is r P (X ++ b :: Y) → vis_free b = false → (region_fuel <= fuel)%nat → plenty (9 + m) (r_heap r) →
  ∃ r', c4rt_vaddr_free fuel (u32 (base r + voffset b * 4096)) r = Ret (tt, r') ∧
    region_is r' P (give_back X b Y) ∧ base r' = base r ∧ plenty m (r_heap r').
Proof. apply vaddr_free_spec. Qed.

(** [c4rt_vaddr_region_create] makes a region that is one free block. *)
Theorem vaddr_create_correct fuel r b pages m :
  sent_ok (r_mem r) → al_inv (r_heap r) → plenty (4 + m) (r_heap r) → 0 < pages <= MAX_PAGES → (region_fuel <= fuel)%nat →
  ∃ a r', c4rt_vaddr_region_create fuel b pages r = Ret (a, r') ∧ a ≠ 0 ∧ base r' = b ∧
    region_is r' pages [mk_vnode pages 0 true] ∧ plenty m (r_heap r').
Proof. apply region_create_spec. Qed.

(** ** The region interface *)
Definition region_ok r : Prop := ∃ P bs, region_is r P bs ∧ 0 < base r ∧ base r + P * 4096 <= 2 ^ 32.

#[global] Instance region_allocator : Allocator (c4rt_vaddr_region H) := {|
  al_alloc := λ n, c4rt_vaddr_alloc region_fuel n;
  al_free := λ a, c4rt_vaddr_free region_fuel a;
  al_live := live_addrs;
  al_inv := region_ok;
  al_room := λ r, plenty 9 (r_heap r)
|}.

Lemma region_is_in r P bs b : region_is r P bs → b ∈ bs → 0 <= voffset b ∧ 0 < vsize b ∧ voffset b + vsize b <= P.
Proof. intros (Q & tl & tf & Hr & <- & _) Hb. destruct (tiles_in _ _ _ b (ri_tiles _ _ _ _ _ Hr) Hb). lia. Qed.

Lemma block_addr_eq r P bs b : region_is r P bs → 0 < base r → base r + P * 4096 <= 2 ^ 32 → b ∈ bs →
  block_addr r b = base r + voffset b * 4096 ∧ 0 < block_addr r b.
Proof.
  intros Hr Hb0 HbP Hb. pose proof (region_is_in _ _ _ _ Hr Hb). unfold block_addr. rewrite u32_small by lia. lia.
Qed.

Lemma block_addr_inj r P bs b c : region_is r P bs → 0 < base r → base r + P * 4096 <= 2 ^ 32 → b ∈ bs → c ∈ bs →
  block_addr r b = block_addr r c → b = c.
Proof.
  intros Hr Hb0 HbP Hb Hc. destruct (block_addr_eq _ _ _ _ Hr Hb0 HbP Hb) as [-> _].
  destruct (block_addr_eq _ _ _ _ Hr Hb0 HbP Hc) as [-> _]. intros E. destruct Hr as (Q & tl & tf & Hr & <- & _).
  apply list_elem_of_fmap in Hb as ([v b'] & -> & Hb). apply list_elem_of_fmap in Hc as ([w c'] & -> & Hc). simpl in *.
  destruct (offset_unique _ _ _ _ _ _ _ _ _ Hr Hb Hc ltac:(lia)) as [_ ->]. done.
Qed.

Lemma live_in r P bs a : region_is r P bs → a ∈ live_addrs r ↔ ∃ b, b ∈ bs ∧ vis_free b = false ∧ a = block_addr r b.
Proof.
  intros Hr. unfold live_addrs. rewrite (block_list_ok _ _ _ Hr), elem_of_list_to_set, list_elem_of_fmap. unfold used.
  split.
  - intros (b & -> & [Hf Hb]%list_elem_of_filter). eauto.
  - intros (b & Hb & Hf & ->). exists b. split; [done|]. by apply list_elem_of_filter.
Qed.

Lemma tiles_NoDup o P bs : tiles o P bs → NoDup bs.
Proof.
  revert o. induction bs as [|b bs IH]; intros o; [constructor|]. intros (Ho & Hs & Ht). constructor; [|by eapply IH].
  intros Hb. destruct (tiles_in _ _ _ _ Ht Hb). lia.
Qed.

Lemma live_after r r' P bs' a : region_is r' P bs' → base r' = base r →
  a ∈ live_addrs r' ↔ ∃ b, b ∈ used bs' ∧ a = block_addr r b.
Proof.
  intros Hr' Eb. rewrite (live_in _ _ _ _ Hr'). unfold used, block_addr. rewrite Eb. split.
  - intros (b & Hb & Hf & ->). exists b. split; [by apply list_elem_of_filter|done].
  - intros (b & [Hf Hb]%list_elem_of_filter & ->). eauto.
Qed.

Lemma region_alloc_law n r : region_ok r → plenty 9 (r_heap r) → 0 < n < 2 ^ 31 →
  ∃ a r', c4rt_vaddr_alloc region_fuel n r = Ret (a, r') ∧ region_ok r' ∧
    ((a = 0 ∧ live_addrs r' = live_addrs r) ∨
     (a ≠ 0 ∧ a ∉ live_addrs r ∧ live_addrs r' = {[a]} ∪ live_addrs r)).
Proof.
  intros (P & bs & Hr & Hb0 & HbP) Hroom Hn.
  destruct (vaddr_alloc_spec region_fuel r P bs n 3 Hr ltac:(lia) (le_n _) Hroom)
    as (a & r' & E & [(-> & -> & _)|(X & b & Y & -> & Hfb & Hle & _ & -> & Hr' & Eb & _)]).
  { exists 0, r. split; [done|]. split; [by exists P, bs|]. by left. }
  assert (b ∈ X ++ b :: Y) as Hb by (apply elem_of_app; right; left).
  destruct (block_addr_eq _ _ _ _ Hr Hb0 HbP Hb) as [_ Hpos].
  exists (block_addr r b), r'. split; [done|]. split; [exists P; eexists; rewrite Eb; by split_and!|]. right.
  split; [lia|]. split.
  + intros (c & Hc & Hfc & Ec)%(live_in _ _ _ _ Hr). pose proof (block_addr_inj _ _ _ _ _ Hr Hb0 HbP Hb Hc Ec) as ->. congruence.
  + apply set_eq. intros a. rewrite (live_after r r' P _ a Hr' Eb).
    rewrite elem_of_union, elem_of_singleton, (live_after r r P _ a Hr eq_refl), !used_app, used_carve.
    assert (used (b :: Y) = used Y) as -> by (unfold used; by rewrite filter_cons, decide_False by (by rewrite Hfb)).
    split.
    * intros (c & [Hc|[->%list_elem_of_singleton|Hc]%elem_of_app]%elem_of_app & ->); [right|by left|right];
        exists c; (split; [apply elem_of_app; auto|done]).
    * intros [->|(c & [Hc|Hc]%elem_of_app & ->)].
      -- eexists. split; [apply elem_of_app; right; left|done].
      -- exists c. split; [apply elem_of_app; by left|done].
      -- exists c. split; [apply elem_of_app; right; right; done|done].
Qed.

Lemma region_free_law a r : region_ok r → plenty 9 (r_heap r) → a ∈ live_addrs r →
  ∃ r', c4rt_vaddr_free region_fuel a r = Ret (tt, r') ∧ region_ok r' ∧ live_addrs r' = live_addrs r ∖ {[a]}.
Proof.
  intros (P & bs & Hr & Hb0 & HbP) Hroom Ha. apply (live_in _ _ _ _ Hr) in Ha as (b & Hb & Hub & ->).
  pose proof Hb as (X & Y & ->)%list_elem_of_split.
  destruct (vaddr_free_spec region_fuel r P X b Y 0 Hr Hub (le_n _) Hroom) as (r' & E & Hr' & Eb & _).
  exists r'. split; [done|]. split; [exists P; eexists; rewrite Eb; by split_and!|].
  apply set_eq. intros a. rewrite (live_after r r' P _ a Hr' Eb).
  rewrite elem_of_difference, elem_of_singleton, (live_after r r P _ a Hr eq_refl), used_give_back, used_app.
  assert (used (b :: Y) = b :: used Y) as -> by (unfold used; by rewrite filter_cons, decide_True by done).
  assert (NoDup (X ++ b :: Y)) as Hnd.
  { destruct Hr as (Q & tl & tf & Hr & EQ & _). rewrite <- EQ. apply (tiles_NoDup 0 P), (ri_tiles _ _ _ _ _ Hr). }
  apply NoDup_app in Hnd as (_ & HdX & [HdY _]%NoDup_cons).
  split.
  + intros (c & Hc & ->). assert (c ∈ X ++ b :: Y ∧ c ≠ b) as [Hin Hne].
    { apply elem_of_app in Hc as [[_ Hc]%list_elem_of_filter|[_ Hc]%list_elem_of_filter].
      - split; [apply elem_of_app; by left|]. intros ->. apply (HdX _ Hc). left.
      - split; [apply elem_of_app; right; by right|]. by intros ->. }
    split; [|intros E'; by apply Hne, (block_addr_inj _ _ _ _ _ Hr Hb0 HbP Hin Hb)].
    exists c. split; [|done]. apply elem_of_app in Hc as [Hc|Hc]; apply elem_of_app; [by left|right; by right].
  + intros [(c & Hc & ->) Hne]. exists c. split; [|done].
    apply elem_of_app in Hc as [Hc|[->|Hc]%elem_of_cons]; [apply elem_of_app; by left|done|apply elem_of_app; by right].
Qed.

#[global] Instance region_laws : RegionLaws (c4rt_vaddr_region H).
Proof.
  split; cbn [al_alloc al_free al_live al_inv al_room region_allocator]; intros ? ?.
  - apply region_alloc_law.
  - apply region_free_law.
Qed.
End claims.

(** ** Concrete regions *)
Definition blank_region : c4rt_vaddr_region Bump.bump :=
  mk_region (mk_andtree PNull 0) (mk_andtree PNull 0) 0 Bump.start {[PSentinel := sentinel]} ∅.

Lemma blank_region_ok : sent_ok (r_mem blank_region) ∧ al_inv (r_heap blank_region) ∧ ∀ n, plenty n (r_heap blank_region).
Proof.
  split; [by exists PNull|]. split; [apply Bump.start_inv|]. intros n. apply Bump.bump_plenty, Bump.start_inv.
Qed.

Lemma vaddr_create_correct_witness : ∃ a r',
  c4rt_vaddr_region_create region_fuel 0xd0000000 1024 blank_region = Ret (a, r') ∧ region_is r' 1024 [mk_vnode 1024 0 true].
Proof.
  destruct blank_region_ok as (Hs & Hi & Hp).
  destruct (vaddr_create_correct region_fuel blank_region 0xd0000000 1024 0 Hs Hi (Hp _)) as (a & r' & E & _ & _ & Hr & _).
  - unfold MAX_PAGES. lia.
  - apply le_n.
  - exists a, r'. split; [exact E|exact Hr].
Defined.

Lemma vaddr_alloc_correct_witness : ∃ r a r', base r = 0xd0000000 ∧
  region_is r 1024 [mk_vnode 1024 0 true] ∧ c4rt_vaddr_alloc region_fuel 5000 r = Ret (a, r') ∧
  (a = 0 ∨ region_is r' 1024 [mk_vnode 2 0 false; mk_vnode 1022 2 true]).
Proof.
  destruct blank_region_ok as (Hs & Hi & Hp).
  destruct (region_create_spec region_fuel blank_region 0xd0000000 1024 6 Hs Hi (Hp _)) as (z & r & _ & _ & Eb & Hr & Hp').
  - unfold MAX_PAGES. lia.
  - apply le_n.
  - destruct (vaddr_alloc_correct region_fuel r 1024 _ 5000 0 Hr ltac:(lia) (le_n _) Hp') as (a & r' & E & Ha).
    exists r, a, r'. split; [exact Eb|]. split; [exact Hr|]. split; [exact E|].
    destruct Ha as [(Ha & _)|(X & b & Y & EX & _ & _ & _ & _ & Hr' & _)]; [left; exact Ha|right].
    destruct X as [|x X]; [|by destruct X]. injection EX as <- <-. exact Hr'.
Defined.

Lemma vaddr_free_correct_witness : ∃ r r', region_is r 1024 [mk_vnode 2 0 false; mk_vnode 1022 2 true] ∧
  c4rt_vaddr_free region_fuel (u32 (base r + 0 * 4096)) r = Ret (tt, r') ∧ region_is r' 1024 [mk_vnode 1024 0 true].
Proof.
  destruct blank_region_ok as (Hs & Hi & Hp).
  destruct (region_create_spec region_fuel blank_region 0xd0000000 1024 15 Hs Hi (Hp _)) as (z & r0 & _ & _ & Eb & Hr0 & Hp0).
  - unfold MAX_PAGES. lia.
  - apply le_n.
  - destruct (vaddr_alloc_spec region_fuel r0 1024 _ 5000 9 Hr0 ltac:(lia) (le_n _) Hp0) as (a & r & _ & Ha).
    assert (region_is r 1024 [mk_vnode 2 0 false; mk_vnode 1022 2 true] ∧ plenty 9 (r_heap r)) as [Hr Hp9].
    { destruct Ha as [(_ & _ & Hno)|(X & b & Y & EX & _ & _ & _ & _ & Hr' & _ & Hp')].
      - exfalso. specialize (Hno (mk_vnode 1024 0 true) (list_elem_of_here _ _) eq_refl). vm_compute in Hno. discriminate.
      - destruct X as [|x X]; [|by destruct X]. injection EX as <- <-. split; [exact Hr'|exact Hp']. }
    destruct (vaddr_free_correct region_fuel r 1024 [] (mk_vnode 2 0 false) [mk_vnode 1022 2 true] 0 Hr eq_refl (le_n _) Hp9)
      as (r' & E & Hr' & _).
    exists r, r'. split; [exact Hr|]. split; [exact E|exact Hr'].
Defined.
