(* ===== verification/CString.v ===== *)
(** C strings: [libraries/c4rt/libc/string.c] and [getenv] of
    [libraries/c4rt/libc/init.c], on byte memory.  [char] is signed on the
    target; a read or write of an unmapped address is undefined behaviour.
    Scans that stop at a terminator take fuel; the theorems show that the length
    of the string plus one is enough. *)

From S2P Require Import Prelude.
#[local] Open Scope Z_scope.

(** ** Memory *)
Abbreviation mem := (gmap Z Z).

Definition rd (p : Z) : M mem Z := getsome (λ m, m !! p).

(** [p[...] = v] for a [char] or [uint8_t]. *)
Definition wr (p v : Z) : M mem unit := λ m,
  match m !! p with Some _ => Ret (tt, <[p := u8 v]> m) | None => UB end.

(** The [char] at [p]. *)
Definition rdc (p : Z) : M mem Z := b ← rd p; mret (i8 b).

(** ** [string.c] *)
Fixpoint memcpy_loop (n : nat) (d s : Z) : M mem unit :=
  match n with
  | O => mret tt
  | S n' => b ← rd s; wr d b;; memcpy_loop n' (d + 1) (s + 1)
  end.
Definition memcpy (dest src n : Z) : M mem Z := memcpy_loop (Z.to_nat n) dest src;; mret dest.

Fixpoint memset_loop (n : nat) (d c : Z) : M mem unit :=
  match n with
  | O => mret tt
  | S n' => wr d c;; memset_loop n' (d + 1) c
  end.
Definition memset (s c n : Z) : M mem Z := memset_loop (Z.to_nat n) s c;; mret s.

Fixpoint strlen_loop (fuel : nat) (s i : Z) : M mem Z :=
  match fuel with
  | O => nofuel
  | S fuel' => c ← rdc (s + i); if truthy c then strlen_loop fuel' s (i + 1) else mret i
  end.
Definition strlen (fuel : nat) (s : Z) : M mem Z := strlen_loop fuel s 0.

Fixpoint strcpy_loop (fuel : nat) (dest src i : Z) : M mem unit :=
  match fuel with
  | O => nofuel
  | S fuel' =>
      c ← rdc (src + i);
      if truthy c then wr (dest + i) c;; strcpy_loop fuel' dest src (i + 1)
      else wr (dest + i) 0
  end.
Definition strcpy (fuel : nat) (dest src : Z) : M mem Z := strcpy_loop fuel dest src 0;; mret dest.

(** [for ( ; i < n && src[i]; i++ ) dest[i] = src[i];], [k] turns left; the
    index it stops at. *)
Fixpoint copy_upto (k : nat) (dest src i : Z) : M mem Z :=
  match k with
  | O => mret i
  | S k' =>
      c ← rdc (src + i);
      if truthy c then wr (dest + i) c;; copy_upto k' dest src (i + 1) else mret i
  end.

Definition strncpy (dest src n : Z) : M mem Z :=
  i ← copy_upto (Z.to_nat n) dest src 0;
  memset_loop (Z.to_nat (n - i)) (dest + i) 0;;
  mret dest.

Definition strlcpy (fuel : nat) (dest src n : Z) : M mem Z :=
  (if n =? 0 then mret tt
   else i ← copy_upto (Z.to_nat (n - 1)) dest src 0; wr (dest + i) 0);;
  strlen fuel src.

Fixpoint strcmp (fuel : nat) (s1 s2 : Z) : M mem Z :=
  match fuel with
  | O => nofuel
  | S fuel' =>
      a ← rdc s1;
      if truthy a then
        b ← rdc s2;
        if truthy b then
          if a =? b then strcmp fuel' (s1 + 1) (s2 + 1)
          else if a <? b then mret (-1) else mret 1
        else mret (a - b)
      else b ← rdc s2; mret (a - b)
  end.

(** [n] turns left; after the last one both current characters are compared. *)
Fixpoint strncmp_loop (n : nat) (s1 s2 : Z) : M mem Z :=
  let last := a ← rdc s1; b ← rdc s2; mret (a - b) in
  match n with
  | O => last
  | S n' =>
      a ← rdc s1;
      if truthy a then
        b ← rdc s2;
        if truthy b then
          if a =? b then strncmp_loop n' (s1 + 1) (s2 + 1)
          else if a <? b then mret (-1) else mret 1
        else last
      else last
  end.
Definition strncmp (s1 s2 n : Z) : M mem Z := strncmp_loop (Z.to_nat n) s1 s2.

(** [0] is [NULL]. *)
Fixpoint strchr (fuel : nat) (s c : Z) : M mem Z :=
  match fuel with
  | O => nofuel
  | S fuel' =>
      a ← rdc s;
      if truthy a then if a =? c then mret s else strchr fuel' (s + 1) c
      else mret 0
  end.

Fixpoint strcspn_loop (fuel : nat) (s reject ret : Z) : M mem Z :=
  match fuel with
  | O => nofuel
  | S fuel' =>
      c ← rdc (s + ret);
      if truthy c then
        p ← strchr fuel' reject c;
        if truthy p then mret ret else strcspn_loop fuel' s reject (ret + 1)
      else mret ret
  end.
Definition strcspn (fuel : nat) (s reject : Z) : M mem Z := strcspn_loop fuel s reject 0.

(** ** [getenv]

    The environment array is the list of its pointers up to the terminating
    [NULL]; [eq] is the address of the literal ["="]. *)
Fixpoint getenv_loop (fuel : nat) (eq name : Z) (env : list Z) : M mem Z :=
  match env with
  | [] => mret 0
  | e :: env' =>
      len ← strcspn fuel e eq;
      nlen ← strlen fuel name;
      if negb (nlen =? len) then mret 0
      else
        d ← strncmp name e len;
        if d =? 0 then p ← strchr fuel e 61; mret (p + 1)
        else getenv_loop fuel eq name env'
  end.

Definition getenv (fuel : nat) (eq name : Z) (global_env : option (list Z)) : M mem Z :=
  match global_env with
  | None => mret 0
  | Some env => getenv_loop fuel eq name env
  end.

(** ** Strings in memory *)

(** The characters [cs], none of them NUL, sit at [p] followed by a NUL. *)
Fixpoint cstr (m : mem) (p : Z) (cs : list Z) : Prop :=
  match cs with
  | [] => m !! p = Some 0
  | c :: cs' => (∃ b, m !! p = Some b ∧ i8 b = c) ∧ c ≠ 0 ∧ cstr m (p + 1) cs'
  end.

Section strings.
Implicit Types m : mem.

Lemma rdc_ok m p b : m !! p = Some b → rdc p m = Ret (i8 b, m).
Proof. intros E. unfold rdc, rd, getsome. rewrite (bind_run _ _ m b m); [done|]. by rewrite E. Qed.

Lemma rdc_nil m p : cstr m p [] → rdc p m = Ret (0, m).
Proof. intros E. by apply (rdc_ok m p 0). Qed.

Lemma rdc_cons m p c cs : cstr m p (c :: cs) → rdc p m = Ret (c, m).
Proof. intros [(b & E & <-) _]. by apply rdc_ok. Qed.

Lemma strlen_loop_ok fuel m p i cs : (length cs < fuel)%nat → cstr m (p + i) cs →
  strlen_loop fuel p i m = Ret (i + Z.of_nat (length cs), m).
Proof.
  revert i cs. induction fuel as [|fuel IH]; intros i cs Hf Hs; [lia|]. cbn [strlen_loop].
  destruct cs as [|c cs].
  - rewrite (bind_run _ _ _ _ _ (rdc_nil _ _ Hs)). simpl. by rewrite Z.add_0_r.
  - rewrite (bind_run _ _ _ _ _ (rdc_cons _ _ _ _ Hs)). destruct Hs as (_ & Hc & Hs). rewrite truthy_ne by done.
    rewrite (IH (i + 1) cs); [|simpl in *; lia|by rewrite Z.add_assoc]. do 2 f_equal. simpl length. lia.
Qed.

Lemma strlen_ok fuel m p cs : (length cs < fuel)%nat → cstr m p cs →
  strlen fuel p m = Ret (Z.of_nat (length cs), m).
Proof. intros Hf Hs. unfold strlen. rewrite (strlen_loop_ok fuel m p 0 cs); [done|done|by rewrite Z.add_0_r]. Qed.

(** Lexicographic comparison of signed characters, as [strcmp] sees it. *)
Fixpoint cmp_chars (xs ys : list Z) : Z :=
  match xs, ys with
  | x :: xs', y :: ys' => if x =? y then cmp_chars xs' ys' else if x <? y then -1 else 1
  | x :: _, [] => x
  | [], y :: _ => - y
  | [], [] => 0
  end.

Lemma strcmp_ok fuel m p q xs ys : (length xs < fuel)%nat → cstr m p xs → cstr m q ys →
  strcmp fuel p q m = Ret (cmp_chars xs ys, m).
Proof.
  revert p q xs ys. induction fuel as [|fuel IH]; intros p q xs ys Hf Hx Hy; [lia|]. cbn [strcmp].
  destruct xs as [|x xs].
  - rewrite (bind_run _ _ _ _ _ (rdc_nil _ _ Hx)). cbn [truthy Z.eqb negb]. destruct ys as [|y ys].
    + by rewrite (bind_run _ _ _ _ _ (rdc_nil _ _ Hy)).
    + rewrite (bind_run _ _ _ _ _ (rdc_cons _ _ _ _ Hy)). done.
  - rewrite (bind_run _ _ _ _ _ (rdc_cons _ _ _ _ Hx)). destruct Hx as (_ & Hx0 & Hx). rewrite truthy_ne by done.
    destruct ys as [|y ys].
    + rewrite (bind_run _ _ _ _ _ (rdc_nil _ _ Hy)). cbn [truthy Z.eqb negb cmp_chars]. by rewrite Z.sub_0_r.
    + rewrite (bind_run _ _ _ _ _ (rdc_cons _ _ _ _ Hy)). destruct Hy as (_ & Hy0 & Hy). rewrite truthy_ne by done.
      cbn [cmp_chars]. destruct (x =? y); [|by destruct (x <? y)]. apply IH; [simpl in Hf; lia|done|done].
Qed.

Lemma cmp_chars_zero xs ys : Forall (λ c, c ≠ 0) xs → Forall (λ c, c ≠ 0) ys → cmp_chars xs ys = 0 ↔ xs = ys.
Proof.
  intros Hx. revert ys. induction Hx as [|x xs Hx0 _ IH]; intros ys Hy; destruct Hy as [|y ys Hy0 Hy]; simpl; [done| |done|].
  - split; [lia|done].
  - destruct (Z.eqb_spec x y) as [->|Hne].
    + rewrite IH by done. naive_solver.
    + split; [|naive_solver]. destruct (x <? y); lia.
Qed.

Lemma cstr_nonzero m p cs : cstr m p cs → Forall (λ c, c ≠ 0) cs.
Proof. revert p. induction cs as [|c cs IH]; intros p; [constructor|]. intros (_ & ? & ?). constructor; eauto. Qed.

(** [strlen] is the length, and [strcmp] is zero exactly on equal strings
    and otherwise has the sign of the first difference; neither writes. *)
Theorem strcmp_correct fuel m p q xs ys : cstr m p xs → cstr m q ys →
  (length xs < fuel)%nat → (length ys < fuel)%nat →
  strlen fuel p m = Ret (Z.of_nat (length xs), m) ∧
  strcmp fuel p q m = Ret (cmp_chars xs ys, m) ∧ (cmp_chars xs ys = 0 ↔ xs = ys).
Proof.
  intros Hx Hy Hfx Hfy. split_and!; [by apply strlen_ok|by apply strcmp_ok|].
  apply cmp_chars_zero; by eapply cstr_nonzero.
Qed.

(** ** Copying *)
Lemma i8_u8 c : - 128 <= c < 128 → i8 (u8 c) = c.
Proof.
  intros Hc. unfold wraps, wrapu. rewrite Zmod_mod. change (2 ^ 8) with 256. change (2 ^ (8 - 1)) with 128.
  cbv zeta. assert (0 <= c ∨ c < 0) as [H0|H0] by lia.
  - rewrite Z.mod_small by lia. zbool; lia.
  - replace (c mod 256) with (c + 256) by (apply (Z.mod_unique_pos _ _ (-1)); lia). zbool; lia.
Qed.

Lemma cstr_range m p cs : cstr m p cs → Forall (λ c, - 128 <= c < 128) cs.
Proof.
  revert p. induction cs as [|c cs IH]; intros p; [constructor|]. intros ((b & _ & <-) & _ & Hs).
  constructor; [|by eapply IH]. pose proof (wraps_range 8 b ltac:(lia)). lia.
Qed.

Lemma cstr_ext m m' p cs : (∀ a, p <= a <= p + Z.of_nat (length cs) → m' !! a = m !! a) →
  cstr m p cs → cstr m' p cs.
Proof.
  revert p. induction cs as [|c cs IH]; intros p Hm; cbn [cstr].
  - intros <-. apply Hm. simpl. lia.
  - intros ((b & E & Hb) & Hc & Hs). simpl in Hm. split_and!; [|done|].
    + exists b. split; [|done]. rewrite <- E. apply Hm. lia.
    + apply IH; [|done]. intros a Ha. apply Hm. lia.
Qed.

Lemma wr_ok m p v b : m !! p = Some b → wr p v m = Ret (tt, <[p := u8 v]> m).
Proof. intros E. unfold wr. by rewrite E. Qed.

Definition mapped m (p n : Z) : Prop := ∀ a, p <= a < p + n → is_Some (m !! a).

Lemma copy_upto_ok k m dest src i xs :
  cstr m (src + i) xs → mapped m (dest + i) (Z.of_nat k) →
  (∀ a, src + i <= a <= src + i + Z.of_nat (length xs) → ¬ (dest + i <= a < dest + i + Z.of_nat k)) →
  ∃ m', copy_upto k dest src i m = Ret (i + Z.of_nat (length (take k xs)), m') ∧
    (∀ j c, take k xs !! j = Some c → m' !! (dest + i + Z.of_nat j) = Some (u8 c)) ∧
    (∀ a, ¬ (dest + i <= a < dest + i + Z.of_nat (length (take k xs))) → m' !! a = m !! a) ∧
    (∀ a, is_Some (m !! a) → is_Some (m' !! a)).
Proof.
  revert m i xs. induction k as [|k IH]; intros m i xs Hs Hw Hd.
  { exists m. split_and!; try done. simpl. by rewrite Z.add_0_r. }
  cbn [copy_upto]. destruct xs as [|x xs].
  - rewrite (bind_run _ _ _ _ _ (rdc_nil _ _ Hs)). exists m. split_and!; try done. simpl. by rewrite Z.add_0_r.
  - rewrite (bind_run _ _ _ _ _ (rdc_cons _ _ _ _ Hs)). destruct Hs as (_ & Hx0 & Hs). rewrite truthy_ne by done.
    destruct (Hw (dest + i)) as [b Eb]; [lia|]. rewrite (bind_run _ _ _ _ _ (wr_ok m (dest + i) x b Eb)).
    destruct (IH (<[dest + i := u8 x]> m) (i + 1) xs) as (m' & E & Hj & Hfr & Hmp).
    + rewrite Z.add_assoc. eapply cstr_ext; [|exact Hs]. intros a Ha. rewrite lookup_insert_ne; [done|].
      intros <-. apply (Hd (dest + i)); simpl; lia.
    + intros a Ha. apply lookup_insert_is_Some'. right. apply Hw. lia.
    + intros a Ha. specialize (Hd a). simpl in Hd. lia.
    + exists m'. simpl take. split_and!.
      * rewrite E. do 2 f_equal. simpl length. lia.
      * intros j c Hc. destruct j as [|j]; simpl in Hc.
        -- injection Hc as <-. rewrite Hfr by lia. rewrite Z.add_0_r. apply lookup_insert_eq.
        -- rewrite <- (Hj j c Hc). f_equal. lia.
      * intros a Ha. simpl length in Ha. rewrite Hfr by lia. rewrite lookup_insert_ne; [done|]. lia.
      * intros a Ha. apply Hmp. apply lookup_insert_is_Some'. by right.
Qed.

Lemma cstr_of_lookup m p cs : Forall (λ c, c ≠ 0) cs → Forall (λ c, - 128 <= c < 128) cs →
  (∀ j c, cs !! j = Some c → m !! (p + Z.of_nat j) = Some (u8 c)) →
  m !! (p + Z.of_nat (length cs)) = Some 0 → cstr m p cs.
Proof.
  revert p. induction cs as [|c cs IH]; intros p Hnz Hr Hj H0; cbn [cstr].
  - by rewrite Z.add_0_r in H0.
  - apply Forall_cons in Hnz as [Hc Hnz]. apply Forall_cons in Hr as [Hcr Hr]. split_and!; [|done|].
    + exists (u8 c). split; [|by apply i8_u8]. specialize (Hj 0%nat c eq_refl). by rewrite Z.add_0_r in Hj.
    + apply IH; [done|done| |].
      * intros j c' Hc'. rewrite <- (Hj (S j) c' Hc'). f_equal. lia.
      * rewrite <- H0. f_equal. simpl length. lia.
Qed.

Lemma strlcpy_ok fuel m dest src n xs : cstr m src xs → 0 < n → mapped m dest n →
  (∀ a, src <= a <= src + Z.of_nat (length xs) → ¬ (dest <= a < dest + n)) → (length xs < fuel)%nat →
  ∃ m', strlcpy fuel dest src n m = Ret (Z.of_nat (length xs), m') ∧
    cstr m' dest (take (Z.to_nat (n - 1)) xs) ∧ (∀ a, ¬ (dest <= a < dest + n) → m' !! a = m !! a) ∧
    (∀ a, is_Some (m !! a) → is_Some (m' !! a)) ∧
    ∀ j c, take (Z.to_nat (n - 1)) xs !! j = Some c → m' !! (dest + Z.of_nat j) = Some (u8 c).
Proof.
  intros Hs Hn Hw Hd Hf. unfold strlcpy. destruct (Z.eqb_spec n 0); [lia|].
  destruct (copy_upto_ok (Z.to_nat (n - 1)) m dest src 0 xs) as (m1 & E1 & Hj & Hfr & Hmp); rewrite ?Z.add_0_r in *.
  { done. }
  { intros a Ha. apply Hw. lia. }
  { intros a Ha. specialize (Hd a). lia. }
  set (t := take (Z.to_nat (n - 1)) xs) in *. rewrite Z.add_0_l in E1.
  assert (Z.of_nat (length t) <= n - 1) as Hlt by (subst t; rewrite length_take; lia).
  destruct (Hmp (dest + Z.of_nat (length t))) as [b Eb]; [apply Hw; lia|].
  set (m2 := <[dest + Z.of_nat (length t) := 0]> m1).
  assert (∀ a, ¬ (dest <= a < dest + n) → m2 !! a = m !! a) as Hout.
  { intros a Ha. unfold m2. rewrite lookup_insert_ne by lia. apply Hfr. lia. }
  assert (∀ j c, t !! j = Some c → m2 !! (dest + Z.of_nat j) = Some (u8 c)) as Hin.
  { intros j c Hc. pose proof (lookup_lt_Some _ _ _ Hc). unfold m2. rewrite lookup_insert_ne by lia. by apply Hj. }
  exists m2. split_and!; [| |done|intros a Ha; apply lookup_insert_is_Some'; right; auto|exact Hin].
  - rewrite (bind_run (i ← copy_upto (Z.to_nat (n - 1)) dest src 0; wr (dest + i) 0) _ m tt m2).
    + apply strlen_ok; [done|]. eapply cstr_ext; [|exact Hs]. intros a Ha. apply Hout. by apply Hd.
    + rewrite (bind_run _ _ _ _ _ E1). by rewrite (wr_ok _ _ _ _ Eb).
  - assert (Forall (λ c, c ≠ 0) t ∧ Forall (λ c, - 128 <= c < 128) t) as [Hnz Hr].
    { split; apply Forall_take; [by eapply cstr_nonzero|by eapply cstr_range]. }
    apply cstr_of_lookup; [done|done|done|apply lookup_insert_eq].
Qed.

(** [strlcpy] into a buffer of [n > 0] bytes apart from the source leaves
    the first [n - 1] characters of the source there, terminated, touches
    nothing outside the buffer and returns the length of the source. *)
Theorem strlcpy_correct fuel m dest src n xs : cstr m src xs → 0 < n → mapped m dest n →
  (∀ a, src <= a <= src + Z.of_nat (length xs) → ¬ (dest <= a < dest + n)) → (length xs < fuel)%nat →
  ∃ m', strlcpy fuel dest src n m = Ret (Z.of_nat (length xs), m') ∧
    cstr m' dest (take (Z.to_nat (n - 1)) xs) ∧ (∀ a, ¬ (dest <= a < dest + n) → m' !! a = m !! a).
Proof.
  intros. destruct (strlcpy_ok fuel m dest src n xs) as (m' & ? & ? & ? & _); [done..|]. by exists m'.
Qed.

(** ** Searching *)
Lemma strchr_ok fuel m p c cs : (length cs < fuel)%nat → cstr m p cs →
  ∃ r, strchr fuel p c m = Ret (r, m) ∧ (r ≠ 0 → c ∈ cs) ∧ (c ∈ cs → 0 < p → r ≠ 0).
Proof.
  revert p cs. induction fuel as [|fuel IH]; intros p cs Hf Hs; [lia|]. cbn [strchr]. destruct cs as [|x cs].
  - rewrite (bind_run _ _ _ _ _ (rdc_nil _ _ Hs)). exists 0. split_and!; [done|done|]. intros Hc. by apply not_elem_of_nil in Hc.
  - rewrite (bind_run _ _ _ _ _ (rdc_cons _ _ _ _ Hs)). destruct Hs as (_ & Hx0 & Hs). rewrite truthy_ne by done.
    destruct (Z.eqb_spec x c) as [->|Hne].
    + exists p. split_and!; [done|intros; left|lia].
    + destruct (IH (p + 1) cs ltac:(simpl in Hf; lia) Hs) as (r & E & H1 & H2). exists r. split_and!; [done| |].
      * intros Hr. right. auto.
      * intros [->|Hc]%elem_of_cons Hp; [done|]. apply H2; [done|lia].
Qed.

Lemma strcspn_loop_ok fuel m e eq ks v i : cstr m eq [61] → 0 < eq → (length ks + 3 <= fuel)%nat →
  61 ∉ ks → cstr m (e + i) (ks ++ 61 :: v) →
  strcspn_loop fuel e eq i m = Ret (i + Z.of_nat (length ks), m).
Proof.
  intros Heq Hpos. revert ks i. induction fuel as [|fuel IH]; intros ks i Hf Hk Hs; [lia|]. cbn [strcspn_loop].
  destruct ks as [|x ks]; cbn [app] in *.
  - rewrite (bind_run _ _ _ _ _ (rdc_cons _ _ _ _ Hs)). cbn [truthy Z.eqb negb].
    destruct (strchr_ok fuel m eq 61 [61] ltac:(simpl in *; lia) Heq) as (r & E & _ & Hr).
    rewrite (bind_run _ _ _ _ _ E). rewrite truthy_ne by (apply Hr; [left|done]). by rewrite Z.add_0_r.
  - rewrite (bind_run _ _ _ _ _ (rdc_cons _ _ _ _ Hs)). destruct Hs as (_ & Hx0 & Hs). rewrite truthy_ne by done.
    destruct (strchr_ok fuel m eq x [61] ltac:(simpl in *; lia) Heq) as (r & E & Hr & _).
    rewrite (bind_run _ _ _ _ _ E). assert (r = 0) as ->.
    { destruct (Z.eq_dec r 0) as [|Hne]; [done|]. apply Hr in Hne. apply list_elem_of_singleton in Hne as ->.
      exfalso. apply Hk. left. }
    cbn [truthy Z.eqb negb]. rewrite (IH ks (i + 1)); [|simpl in Hf; lia|set_solver|by rewrite Z.add_assoc].
    do 2 f_equal. simpl length. lia.
Qed.

(** The character after the compared prefix decides. *)
Lemma strncmp_loop_ne m p q xs ks v : length xs = length ks → cstr m p xs → cstr m q (ks ++ 61 :: v) →
  ∃ d, strncmp_loop (length ks) p q m = Ret (d, m) ∧ d ≠ 0.
Proof.
  revert p q xs. induction ks as [|k ks IH]; intros p q xs Hlen Hx Hy; (destruct xs as [|x xs]; [|try done]); try done.
  - cbn [length strncmp_loop app] in *. rewrite (bind_run _ _ _ _ _ (rdc_nil _ _ Hx)), (bind_run _ _ _ _ _ (rdc_cons _ _ _ _ Hy)).
    by exists (0 - 61).
  - cbn [length strncmp_loop app] in *. rewrite (bind_run _ _ _ _ _ (rdc_cons _ _ _ _ Hx)). rewrite truthy_ne by apply Hx.
    rewrite (bind_run _ _ _ _ _ (rdc_cons _ _ _ _ Hy)). rewrite truthy_ne by apply Hy.
    destruct (x =? k).
    + apply (IH _ _ xs); [congruence|apply Hx|apply Hy].
    + destruct (x <? k); by eexists.
Qed.

(** [getenv] never finds anything: whatever the name, on an environment of
    well-formed ["NAME=value"] strings it returns [NULL], because [strncmp]
    goes on to compare the character after the [n] it was asked for. *)
Theorem getenv_always_null fuel m eq name xs env : cstr m eq [61] → 0 < eq → cstr m name xs →
  Forall (λ e, ∃ ks v, 61 ∉ ks ∧ cstr m e (ks ++ 61 :: v) ∧ (length ks + 3 <= fuel)%nat) env →
  (length xs < fuel)%nat → getenv fuel eq name (Some env) m = Ret (0, m).
Proof.
  intros Heq Hpos Hname Henv Hf. unfold getenv. induction Henv as [|e env (ks & v & Hk & He & Hfk) _ IH]; [done|].
  cbn [getenv_loop]. unfold strcspn.
  rewrite (bind_run _ _ _ _ _ (strcspn_loop_ok fuel m e eq ks v 0 Heq Hpos Hfk Hk ltac:(by rewrite Z.add_0_r))).
  rewrite (bind_run _ _ _ _ _ (strlen_ok fuel m name xs Hf Hname)). rewrite Z.add_0_l.
  destruct (Z.eqb_spec (Z.of_nat (length xs)) (Z.of_nat (length ks))) as [El|El]; cbn [negb]; [|done].
  destruct (strncmp_loop_ne m name e xs ks v ltac:(lia) Hname He) as (d & E & Hd).
  unfold strncmp. rewrite Nat2Z.id, (bind_run _ _ _ _ _ E).
  destruct (Z.eqb_spec d 0); [done|]. exact IH.
Qed.
End strings.

(** ** A concrete memory *)
Definition put_str (p : Z) (cs : list Z) (m : mem) : mem :=
  (fix go p cs := match cs with [] => <[p := 0]> m | c :: cs' => <[p := u8 c]> (go (p + 1) cs') end) p cs.

(** ["="] at 16, ["AB"] at 32, ["AB=x"] at 48, eight spare bytes at 64. *)
Definition sample_mem : mem :=
  put_str 16 [61] (put_str 32 [65; 66] (put_str 48 [65; 66; 61; 120] (put_str 64 [1;1;1;1;1;1;1] ∅))).

Ltac cstr_tac := cbn [cstr]; repeat split; try (by vm_compute); try (eexists; split; [by vm_compute|by vm_compute]).

Lemma strcmp_correct_witness :
  strcmp 8 32 48 sample_mem = Ret (-61, sample_mem) ∧ strlen 8 32 sample_mem = Ret (2, sample_mem).
Proof.
  destruct (strcmp_correct 8 sample_mem 32 48 [65; 66] [65; 66; 61; 120]) as (E1 & E2 & _).
  - cstr_tac.
  - cstr_tac.
  - simpl. lia.
  - simpl. lia.
  - split; [exact E2|exact E1].
Defined.

Lemma strlcpy_correct_witness : ∃ m', strlcpy 8 64 48 4 sample_mem = Ret (4, m') ∧ cstr m' 64 [65; 66; 61].
Proof.
  destruct (strlcpy_correct 8 sample_mem 64 48 4 [65; 66; 61; 120]) as (m' & E & Hc & _).
  - cstr_tac.
  - lia.
  - intros a Ha. assert (a = 64 ∨ a = 65 ∨ a = 66 ∨ a = 67) as [-> | [-> | [-> | ->]]] by lia; by vm_compute; eexists.
  - simpl. lia.
  - simpl. lia.
  - exists m'. split; [exact E|exact Hc].
Defined.

Lemma getenv_always_null_witness : getenv 8 16 32 (Some [48]) sample_mem = Ret (0, sample_mem).
Proof.
  apply (getenv_always_null 8 sample_mem 16 32 [65; 66]).
  - cstr_tac.
  - lia.
  - cstr_tac.
  - constructor; [|constructor]. exists [65; 66], [120]. split; [set_solver by lia|]. split; [cstr_tac|simpl; lia].
  - simpl. lia.
Defined.
