(* ===== verification/Words.v ===== *)
(** Words, byte sequences and string arrays in byte memory: what programs that
    lay out memory for each other (the loader and the start-up code, the image
    parser, the shell) share.  The target is little-endian; a word is stored a
    byte at a time and no alignment is asked for. *)

From S2P Require Import Prelude CString.
#[local] Open Scope Z_scope.

(** ** Loads and stores *)
Definition rd16 (p : Z) : M mem Z := a ← rd p; b ← rd (p + 1); mret (a + 256 * b).
Definition rd32 (p : Z) : M mem Z := a ← rd16 p; b ← rd16 (p + 2); mret (a + 65536 * b).
Definition wr32 (p v : Z) : M mem unit :=
  wr p v;; wr (p + 1) (v / 256);; wr (p + 2) (v / 65536);; wr (p + 3) (v / 16777216).

(** ** Byte sequences *)

(** Bytes from an address on. *)
Fixpoint put_bytes (p : Z) (bs : list Z) (m : mem) : mem :=
  match bs with [] => m | b :: bs' => <[p := b]> (put_bytes (p + 1) bs' m) end.

Fixpoint drop_bytes (p : Z) (n : nat) (m : mem) : mem :=
  match n with O => m | S n' => delete p (drop_bytes (p + 1) n' m) end.

(** The [n] bytes at [p]; an unmapped one reads as zero. *)
Definition take_bytes (p : Z) (n : nat) (m : mem) : list Z := map (λ k, default 0 (m !! (p + Z.of_nat k))) (seq 0 n).

Definition bytes_at (m : mem) (p : Z) (bs : list Z) : Prop := ∀ j b, bs !! j = Some b → m !! (p + Z.of_nat j) = Some b.
Definition word_at (m : mem) (p v : Z) : Prop := bytes_at m p (le32 v).

(** Words one after the other. *)
Fixpoint words_at (m : mem) (p : Z) (ws : list Z) : Prop :=
  match ws with [] => True | w :: ws' => word_at m p w ∧ words_at m (p + 4) ws' end.

Definition addr32 (a : Z) : Prop := 0 <= a < 2 ^ 32.

(** A null-terminated array of strings. *)
Definition strlist (m : mem) (p : Z) (strs : list (list Z)) : Prop := ∃ ptrs,
  words_at m p (ptrs ++ [0]) ∧ Forall (λ q, 0 < q < 2 ^ 32) ptrs ∧ Forall2 (cstr m) ptrs strs.

Section bytes.
Implicit Types m : mem.

Lemma put_bytes_lookup bs : ∀ p m a,
  put_bytes p bs m !! a = if decide (p <= a < p + Z.of_nat (length bs)) then bs !! Z.to_nat (a - p) else m !! a.
Proof.
  induction bs as [|b bs IH]; intros p m a; cbn [put_bytes length].
  - destruct (decide _); [lia|done].
  - destruct (Z.eq_dec a p) as [->|Hne].
    + rewrite lookup_insert_eq, decide_True by lia. by rewrite Z.sub_diag.
    + rewrite lookup_insert_ne, IH by done. destruct (decide (p + 1 <= a < _)).
      * rewrite decide_True by lia. by replace (Z.to_nat (a - p)) with (S (Z.to_nat (a - (p + 1)))) by lia.
      * by rewrite decide_False by lia.
Qed.

Lemma put_bytes_mapped p bs m : CString.mapped (put_bytes p bs m) p (Z.of_nat (length bs)).
Proof.
  intros a Ha. rewrite put_bytes_lookup, decide_True by lia. apply lookup_lt_is_Some. lia.
Qed.

Lemma drop_bytes_lookup n : ∀ p m a,
  drop_bytes p n m !! a = if decide (p <= a < p + Z.of_nat n) then None else m !! a.
Proof.
  induction n as [|n IH]; intros p m a; cbn [drop_bytes].
  - destruct (decide _); [lia|done].
  - destruct (Z.eq_dec a p) as [->|Hne].
    + by rewrite lookup_delete_eq, decide_True by lia.
    + rewrite lookup_delete_ne, IH by done. destruct (decide (p + 1 <= a < _)); [by rewrite decide_True by lia|].
      by rewrite decide_False by lia.
Qed.

Lemma length_take_bytes p n m : length (take_bytes p n m) = n.
Proof. unfold take_bytes. by rewrite length_map, length_seq. Qed.

Lemma take_bytes_lookup p n m k : (k < n)%nat → take_bytes p n m !! k = Some (default 0 (m !! (p + Z.of_nat k))).
Proof. intros. unfold take_bytes. rewrite list_lookup_fmap, lookup_seq_lt by done. done. Qed.

Lemma bytes_at_app m p xs ys : bytes_at m p (xs ++ ys) ↔ bytes_at m p xs ∧ bytes_at m (p + Z.of_nat (length xs)) ys.
Proof.
  split.
  - intros Hb. split; intros j b Hj.
    + apply Hb. by apply lookup_app_l_Some.
    + rewrite <-Z.add_assoc, <-Nat2Z.inj_add. apply Hb. rewrite lookup_app_r by lia. by rewrite Nat.add_comm, Nat.add_sub.
  - intros [Hx Hy] j b Hj. apply lookup_app_Some in Hj as [Hj|[Hl Hj]]; [by apply Hx|].
    replace (p + Z.of_nat j) with (p + Z.of_nat (length xs) + Z.of_nat (j - length xs)) by lia. by apply Hy.
Qed.

Lemma bytes_at_ext m m' p bs : (∀ a, p <= a < p + Z.of_nat (length bs) → m' !! a = m !! a) → bytes_at m p bs → bytes_at m' p bs.
Proof. intros He Hb j b Hj. rewrite He; [by apply Hb|]. apply lookup_lt_Some in Hj. lia. Qed.

Lemma bytes_at_mapped m p bs : bytes_at m p bs → CString.mapped m p (Z.of_nat (length bs)).
Proof.
  intros Hb a Ha. destruct (lookup_lt_is_Some_2 bs (Z.to_nat (a - p))) as [b Eb]; [lia|]. exists b.
  rewrite <-(Hb _ _ Eb). f_equal. lia.
Qed.

(** ** Words *)
Lemma le32_word v : addr32 v → v mod 256 + 256 * ((v / 256) mod 256) + 65536 * ((v / 65536) mod 256 + 256 * ((v / 16777216) mod 256)) = v.
Proof.
  unfold addr32. intros Hv. change (2 ^ 32) with 4294967296 in Hv.
  replace 65536 with (256 * 256) by done. replace 16777216 with (256 * (256 * 256)) by done. rewrite <-!Z.div_div by lia.
  pose proof (Z.div_mod v 256 ltac:(lia)). pose proof (Z.div_mod (v / 256) 256 ltac:(lia)).
  pose proof (Z.div_mod (v / 256 / 256) 256 ltac:(lia)).
  assert (v / 256 / 256 / 256 < 256) by (rewrite !Z.div_div by lia; apply Z.div_lt_upper_bound; lia).
  assert (0 <= v / 256 / 256 / 256) by (rewrite !Z.div_div by lia; apply Z.div_pos; lia).
  rewrite (Z.mod_small (v / 256 / 256 / 256)) by lia. lia.
Qed.

Lemma rd_ok m p b : m !! p = Some b → rd p m = Ret (b, m).
Proof. intros E. unfold rd, getsome. by rewrite E. Qed.

Lemma rd16_ok m p a b : bytes_at m p [a; b] → rd16 p m = Ret (a + 256 * b, m).
Proof.
  intros Hb. unfold rd16.
  rewrite (bind_run _ _ _ _ _ (rd_ok m p a ltac:(rewrite <-(Z.add_0_r p); by apply (Hb 0%nat)))).
  by rewrite (bind_run _ _ _ _ _ (rd_ok m (p + 1) b (Hb 1%nat b eq_refl))).
Qed.

Lemma rd32_ok m p v : word_at m p v → addr32 v → rd32 p m = Ret (v, m).
Proof.
  intros Hw Hv. unfold word_at, le32 in Hw. unfold rd32.
  apply (bytes_at_app m p [_; _] [_; _]) in Hw as [H1 H2].
  rewrite (bind_run _ _ _ _ _ (rd16_ok _ _ _ _ H1)), (bind_run _ _ _ _ _ (rd16_ok _ _ _ _ H2)).
  unfold mret, M_ret. by rewrite le32_word.
Qed.

Lemma word_at_ext m m' p v : (∀ a, p <= a < p + 4 → m' !! a = m !! a) → word_at m p v → word_at m' p v.
Proof. intros He. apply bytes_at_ext. intros a Ha. apply He. cbn [le32 length] in Ha. lia. Qed.

Lemma words_at_ext m m' ws : ∀ p, (∀ a, p <= a < p + 4 * Z.of_nat (length ws) → m' !! a = m !! a) →
  words_at m p ws → words_at m' p ws.
Proof.
  induction ws as [|w ws IH]; intros p He; [done|]. simpl length in He. intros [Hw Hws]. split.
  - eapply word_at_ext; [|exact Hw]. intros. apply He. lia.
  - apply IH; [|done]. intros. apply He. lia.
Qed.

Lemma words_at_app m xs : ∀ p ys, words_at m p (xs ++ ys) ↔ words_at m p xs ∧ words_at m (p + 4 * Z.of_nat (length xs)) ys.
Proof.
  induction xs as [|x xs IH]; intros p ys; cbn [app words_at length].
  - rewrite Z.add_0_r. naive_solver.
  - rewrite IH. replace (p + 4 + 4 * Z.of_nat (length xs)) with (p + 4 * Z.of_nat (S (length xs))) by lia. tauto.
Qed.

Lemma words_at_lookup m ws p i w : words_at m p ws → ws !! i = Some w → word_at m (p + 4 * Z.of_nat i) w.
Proof.
  revert p i. induction ws as [|w' ws IH]; intros p i Hws Hi; [done|]. destruct Hws as [Hw Hws]. destruct i as [|i].
  - injection Hi as <-. by rewrite Z.add_0_r.
  - replace (p + 4 * Z.of_nat (S i)) with (p + 4 + 4 * Z.of_nat i) by lia. by apply IH.
Qed.

(** What a store leaves alone. *)
Definition only (m m' : mem) (p n : Z) : Prop :=
  (∀ a, ¬ (p <= a < p + n) → m' !! a = m !! a) ∧ ∀ a, is_Some (m !! a) → is_Some (m' !! a).

Lemma only_trans m m1 m2 p n q k r l : only m m1 p n → only m1 m2 q k →
  r <= p → r <= q → p + n <= r + l → q + k <= r + l → only m m2 r l.
Proof. intros [H1 D1] [H2 D2] ????. split; [|auto]. intros a Ha. rewrite H2, H1 by lia. done. Qed.

Lemma only_refl m p n : only m m p n.
Proof. by split. Qed.

Lemma only_widen m m' p n q k : only m m' p n → q <= p → p + n <= q + k → only m m' q k.
Proof. intros [H D] ??. split; [|done]. intros a Ha. apply H. lia. Qed.

Lemma only_mapped m m' p n q k : only m m' p n → CString.mapped m q k → CString.mapped m' q k.
Proof. intros [_ D] Hm a Ha. by apply D, Hm. Qed.

(** The [n] bytes at [p] are outside [lo, hi). *)
Definition apart (p n lo hi : Z) : Prop := ∀ a, p <= a < p + n → ¬ (lo <= a < hi).

Lemma only_cstr m m' p n q cs : only m m' p n → apart q (Z.of_nat (length cs) + 1) p (p + n) → cstr m q cs → cstr m' q cs.
Proof. intros [H _] Hd. apply cstr_ext. intros a Ha. apply H, Hd. lia. Qed.

Lemma only_words m m' p n q ws : only m m' p n → apart q (4 * Z.of_nat (length ws)) p (p + n) → words_at m q ws → words_at m' q ws.
Proof. intros [H _] Hd. apply words_at_ext. intros a Ha. apply H, Hd. lia. Qed.

Lemma apart_narrow p n lo hi lo' hi' : apart p n lo hi → lo <= lo' → hi' <= hi → apart p n lo' hi'.
Proof. intros Ha ?? a Hp. specialize (Ha a Hp). lia. Qed.

Lemma wr32_ok m p v : CString.mapped m p 4 → ∃ m', wr32 p v m = Ret (tt, m') ∧ word_at m' p v ∧ only m m' p 4.
Proof.
  intros Hm. destruct (Hm p) as [b0 E0]; [lia|]. destruct (Hm (p + 1)) as [b1 E1]; [lia|].
  destruct (Hm (p + 2)) as [b2 E2]; [lia|]. destruct (Hm (p + 3)) as [b3 E3]; [lia|].
  unfold wr32. rewrite (bind_run _ _ _ _ _ (wr_ok m p v b0 E0)).
  erewrite bind_run; [|eapply wr_ok; rewrite lookup_insert_ne by lia; exact E1].
  erewrite bind_run; [|eapply wr_ok; rewrite !lookup_insert_ne by lia; exact E2].
  erewrite wr_ok; [|rewrite !lookup_insert_ne by lia; exact E3].
  eexists. split; [reflexivity|]. split.
  - intros j b Hj. unfold le32 in Hj. unfold wrapu. change (2 ^ 8) with 256.
    do 4 (destruct j as [|j]; [injection Hj as <-; rewrite ?Z.add_0_r; cbn [Z.of_nat Pos.of_succ_nat Pos.succ];
      rewrite ?lookup_insert_ne by lia; apply lookup_insert_eq|]). done.
  - split; [intros a Ha; by rewrite !lookup_insert_ne by lia|]. intros a Ha. by do 4 (apply lookup_insert_is_Some'; right).
Qed.

(** ** Strings *)
Lemma cstr_app m p xs ys : cstr m p (xs ++ ys) → cstr m (p + Z.of_nat (length xs)) ys.
Proof.
  revert p. induction xs as [|x xs IH]; intros p; simpl app; [by rewrite Z.add_0_r|].
  intros (_ & _ & Hs). simpl length. replace (p + Z.of_nat (S (length xs))) with (p + 1 + Z.of_nat (length xs)) by lia. by apply IH.
Qed.

(** [strcspn] stops at the first rejected character or at the end. *)
Lemma strcspn_stops fuel m s rej rs pre tl : cstr m rej rs → 0 < rej → (∀ c, head tl = Some c → c ∈ rs) →
  Forall (λ x, x ∉ rs) pre → (length pre + length rs + 1 < fuel)%nat → cstr m s (pre ++ tl) →
  strcspn fuel s rej m = Ret (Z.of_nat (length pre), m).
Proof.
  intros Hr Hrej Hc Hpre Hf Hs. unfold strcspn.
  assert (∀ pre k, Forall (λ x, x ∉ rs) pre → (length pre + length rs + 1 < fuel)%nat → cstr m (s + k) (pre ++ tl) →
    strcspn_loop fuel s rej k m = Ret (k + Z.of_nat (length pre), m)) as Hl; [|by rewrite (Hl pre 0); rewrite ?Z.add_0_r].
  clear pre Hpre Hf Hs. induction fuel as [|fuel IH]; intros pre k Hpre Hf Hs; [lia|]. cbn [strcspn_loop]. destruct pre as [|x pre].
  - simpl in Hs. rewrite Z.add_0_r. destruct tl as [|c tl]; [by rewrite (bind_run _ _ _ _ _ (rdc_nil _ _ Hs))|].
    rewrite (bind_run _ _ _ _ _ (rdc_cons _ _ _ _ Hs)). destruct Hs as (_ & Hc0 & _). rewrite truthy_ne by done.
    destruct (strchr_ok fuel m rej c rs) as (r & E & _ & Hne); [simpl in Hf; lia|done|].
    by rewrite (bind_run _ _ _ _ _ E), truthy_ne by auto.
  - simpl in Hs. rewrite (bind_run _ _ _ _ _ (rdc_cons _ _ _ _ Hs)). destruct Hs as (_ & Hx0 & Hs). rewrite truthy_ne by done.
    apply Forall_cons in Hpre as [Hx Hpre].
    destruct (strchr_ok fuel m rej x rs) as (r & E & Hin & _); [simpl in Hf; lia|done|].
    rewrite (bind_run _ _ _ _ _ E). destruct (decide (r = 0)) as [->|Hr0]; [|by destruct (Hx (Hin Hr0))].
    cbn [truthy Z.eqb negb]. rewrite (IH pre (k + 1)); [do 2 f_equal; simpl length; lia|done|simpl in Hf; lia|by rewrite Z.add_assoc].
Qed.

Lemma strcpy_loop_ok fuel : ∀ m dest src i xs, (length xs < fuel)%nat → cstr m (src + i) xs →
  CString.mapped m (dest + i) (Z.of_nat (length xs) + 1) →
  (∀ a, src + i <= a <= src + i + Z.of_nat (length xs) → ¬ (dest + i <= a <= dest + i + Z.of_nat (length xs))) →
  ∃ m', strcpy_loop fuel dest src i m = Ret (tt, m') ∧ cstr m' (dest + i) xs ∧ only m m' (dest + i) (Z.of_nat (length xs) + 1).
Proof.
  induction fuel as [|fuel IH]; intros m dest src i xs Hf Hs Hm Hd; [lia|]. cbn [strcpy_loop].
  destruct (Hm (dest + i)) as [b Eb]; [lia|]. destruct xs as [|x xs].
  - rewrite (bind_run _ _ _ _ _ (rdc_nil _ _ Hs)). cbn [truthy Z.eqb negb]. rewrite (wr_ok _ _ _ _ Eb).
    eexists. split; [reflexivity|]. split; [apply lookup_insert_eq|].
    split; [intros a Ha; simpl in Ha; by rewrite lookup_insert_ne by lia|]. intros a Ha. apply lookup_insert_is_Some'. by right.
  - rewrite (bind_run _ _ _ _ _ (rdc_cons _ _ _ _ Hs)). pose proof (cstr_range _ _ _ Hs) as Hr.
    destruct Hs as (_ & Hx & Hs). rewrite truthy_ne by done. rewrite (bind_run _ _ _ _ _ (wr_ok _ _ x _ Eb)).
    assert (only m (<[dest + i := u8 x]> m) (dest + i) 1) as Ho1.
    { split; [intros a Ha; by rewrite lookup_insert_ne by lia|]. intros a Ha. apply lookup_insert_is_Some'. by right. }
    simpl length in *. destruct (IH (<[dest + i := u8 x]> m) dest src (i + 1) xs) as (m' & E & Hc & Ho).
    + lia.
    + rewrite Z.add_assoc. eapply cstr_ext; [|exact Hs]. intros a Ha. specialize (Hd a). rewrite lookup_insert_ne by lia. done.
    + eapply only_mapped; [exact Ho1|]. intros a Ha. apply Hm. lia.
    + intros a Ha. specialize (Hd a). lia.
    + exists m'. split; [exact E|]. split.
      * split_and!; [|done|by rewrite <-Z.add_assoc]. exists (u8 x). split.
        -- rewrite (proj1 Ho) by lia. apply lookup_insert_eq.
        -- apply i8_u8. apply Forall_cons in Hr as [Hr _]. lia.
      * eapply only_trans; [exact Ho1|exact Ho|lia..].
Qed.

Lemma strcpy_ok fuel m dest src xs : (length xs < fuel)%nat → cstr m src xs →
  CString.mapped m dest (Z.of_nat (length xs) + 1) →
  (∀ a, src <= a <= src + Z.of_nat (length xs) → ¬ (dest <= a <= dest + Z.of_nat (length xs))) →
  ∃ m', strcpy fuel dest src m = Ret (dest, m') ∧ cstr m' dest xs ∧ only m m' dest (Z.of_nat (length xs) + 1).
Proof.
  intros Hf Hs Hm Hd. destruct (strcpy_loop_ok fuel m dest src 0 xs) as (m' & E & Hc & Ho); rewrite ?Z.add_0_r; try done.
  rewrite Z.add_0_r in Hc, Ho. exists m'. split; [|done]. unfold strcpy. by rewrite (bind_run _ _ _ _ _ E).
Qed.

(** ** Checking memory by evaluation *)
Fixpoint bytes_atb (m : mem) (p : Z) (bs : list Z) : bool :=
  match bs with [] => true | b :: r => bool_decide (m !! p = Some b) && bytes_atb m (p + 1) r end.

Lemma bytes_atb_ok m bs : ∀ p, bytes_atb m p bs = true → bytes_at m p bs.
Proof.
  induction bs as [|b bs IH]; intros p Hb j x Hj; [done|]. cbn [bytes_atb] in Hb.
  apply andb_true_iff in Hb as [Hb1%bool_decide_eq_true Hb2]. destruct j as [|j].
  - injection Hj as <-. by rewrite Z.add_0_r.
  - replace (p + Z.of_nat (S j)) with (p + 1 + Z.of_nat j) by lia. by apply (IH _ Hb2).
Qed.

Fixpoint read_cstr (fuel : nat) (p : Z) (m : mem) : option (list Z) :=
  match fuel with
  | O => None
  | S f => b ← m !! p; if b =? 0 then Some [] else cs ← read_cstr f (p + 1) m; Some (i8 b :: cs)
  end.

Lemma read_cstr_ok fuel : ∀ p m cs, read_cstr fuel p m = Some cs →
  Forall (λ c, c ≠ 0) cs → cstr m p cs.
Proof.
  induction fuel as [|fuel IH]; intros p m cs E Hz; [done|]. cbn [read_cstr] in E.
  destruct (m !! p) as [b|] eqn:Eb; [|done]. simpl in E. destruct (Z.eqb_spec b 0) as [->|Hb]; [by injection E as <-|].
  destruct (read_cstr fuel (p + 1) m) as [cs'|] eqn:E'; [|done]. injection E as <-. apply Forall_cons in Hz as [Hc Hz].
  split_and!; [by exists b|done|]. by apply IH.
Qed.
End bytes.
