(* ===== verification/Text.v ===== *)
(** Formatted text output ([libraries/c4rt/src/debug.c]): numbers in a base,
    strings, and [c4_debug_printf].  A string is the list of its characters; the
    terminator is put behind it where the code looks for it.  The state is the
    text printed so far. *)

From S2P Require Import Prelude.
#[local] Open Scope Z_scope.

(** The character at an index of a C string, its terminator included; beyond it
    the access is not the string's. *)
Definition char_at (str : list Z) (i : Z) : option Z := zget (str ++ [0]) i.

(** ["0123456789abcdef"], ["0123456789"], ["01"]. *)
Definition hexadecimal : list Z := [48; 49; 50; 51; 52; 53; 54; 55; 56; 57; 97; 98; 99; 100; 101; 102].
Definition decimal : list Z := [48; 49; 50; 51; 52; 53; 54; 55; 56; 57].
Definition binary : list Z := [48; 49].

(** An argument of [c4_debug_printf]. *)
Inductive arg : Type := AStr (str : list Z) | ANum (n : Z).

Abbreviation W := (M (list Z)).

Definition c4_debug_putchar (c : Z) : W unit := modify (λ out, out ++ [i8 c]).

Fixpoint puts_loop (fuel : nat) (str : list Z) (i : Z) : W unit :=
  match fuel with
  | O => nofuel
  | S n => c ← getsome (λ _, char_at str i);
           if c =? 0 then mret tt else c4_debug_putchar c;; puts_loop n str (u32 (i + 1))
  end.
Definition c4_debug_puts (fuel : nat) (str : list Z) : W unit := puts_loop fuel str 0.

(** The digits, least significant first, in the local array [stack]. *)
Fixpoint digits_loop (fuel : nat) (base_str : list Z) (n i : Z) (stack : list Z) : W (list Z * Z) :=
  match fuel with
  | O => nofuel
  | S f =>
      if n =? 0 then mret (stack, i)
      else
        let base := Z.of_nat (length base_str) in
        c ← getsome (λ _, char_at base_str (n mod base));
        stack ← getsome (λ _, zset stack i c);
        digits_loop f base_str (n / base) (u32 (i + 1)) stack
  end.

Fixpoint print_loop (n : nat) (stack : list Z) : W unit :=
  match n with
  | O => mret tt
  | S i => c ← getsome (λ _, zget stack (Z.of_nat i)); c4_debug_putchar c;; print_loop i stack
  end.

Definition c4_debug_print_num (fuel : nat) (n : Z) (base_str : list Z) : W unit :=
  if (n =? 0) || (Z.of_nat (length base_str) =? 0) then c4_debug_putchar 48
  else
    r ← digits_loop fuel base_str n 0 (replicate 33 0);
    print_loop (Z.to_nat r.2) r.1.

(** The next argument, taken as a string or as a number. *)
Definition arg_str (args : list arg) : W (list Z * list arg) :=
  match args with AStr str :: rest => mret (str, rest) | _ => ub end.
Definition arg_num (args : list arg) : W (Z * list arg) :=
  match args with ANum n :: rest => mret (u32 n, rest) | _ => ub end.

(** The directive [c]: what is left of the arguments. *)
Definition directive (fuel : nat) (c : Z) (args : list arg) : W (list arg) :=
  if c =? 115 then a ← arg_str args; c4_debug_puts fuel a.1;; mret a.2
  else if c =? 117 then a ← arg_num args; c4_debug_print_num fuel a.1 decimal;; mret a.2
  else if c =? 120 then a ← arg_num args; c4_debug_print_num fuel a.1 hexadecimal;; mret a.2
  else if c =? 98 then a ← arg_num args; c4_debug_print_num fuel a.1 binary;; mret a.2
  else if c =? 112 then
    a ← arg_num args; c4_debug_puts fuel [48; 120];; c4_debug_print_num fuel a.1 hexadecimal;; mret a.2
  else mret args.

Fixpoint printf_loop (turns fuel : nat) (format : list Z) (i : Z) (args : list arg) : W unit :=
  match turns with
  | O => nofuel
  | S n =>
      c ← getsome (λ _, char_at format i);
      if c =? 0 then mret tt
      else if c =? 37 then
        d ← getsome (λ _, char_at format (u32 (i + 1)));
        args ← directive fuel d args;
        printf_loop n fuel format (u32 (u32 (i + 1) + 1)) args
      else
        c4_debug_putchar c;;
        printf_loop n fuel format (u32 (i + 1)) args
  end.

Definition c4_debug_printf (turns fuel : nat) (format : list Z) (args : list arg) : W unit :=
  printf_loop turns fuel format 0 args.

(** ** Reference: a number's digits *)
Section digits.
Context (base_str : list Z).
Definition radix : Z := Z.of_nat (length base_str).

(** The digits of [n], most significant first, for [n] below [2^k]. *)
Fixpoint digits (k : nat) (n : Z) : list Z :=
  match k with
  | O => []
  | S k' => if n =? 0 then [] else digits k' (n / radix) ++ [default 0 (zget base_str (n mod radix))]
  end.

Definition num_text (n : Z) : list Z := if n =? 0 then [48] else digits 32 n.

(** Reading a number back. *)
Definition digit_value (c : Z) : Z := default 0 (Z.of_nat ∘ fst <$> list_find (c =.) base_str).
Definition read_num (s : list Z) : Z := fold_left (λ acc c, acc * radix + digit_value c) s 0.

(** At least two digits, all different, all characters. *)
Definition base_ok : Prop := (2 <= length base_str)%nat ∧ NoDup base_str ∧ Forall (λ c, 0 < c < 128) base_str.
Context (Hb : base_ok).

Lemma radix_ge : 2 <= radix.
Proof. unfold radix. destruct Hb. lia. Qed.

Lemma digit_lookup n : 0 <= n → ∃ c, zget base_str (n mod radix) = Some c ∧ 0 < c < 128 ∧ digit_value c = n mod radix.
Proof.
  intros Hn. pose proof radix_ge. pose proof (Z.mod_pos_bound n radix ltac:(lia)) as Hm.
  destruct (zget_lt base_str (n mod radix) Hm) as (c & E & Hc). exists c. destruct Hb as (_ & Hnd & Hall).
  split_and!; [done|apply (proj1 (Forall_lookup _ _) Hall _ _ Hc)..|].
  unfold digit_value. assert (list_find (c =.) base_str = Some (Z.to_nat (n mod radix), c)) as ->; [|simpl; lia].
  apply list_find_Some. split_and!; [done|done|]. intros j y Hj Hlt <-. pose proof (NoDup_lookup _ _ _ _ Hnd Hj Hc). lia.
Qed.

Lemma read_num_snoc s c : read_num (s ++ [c]) = read_num s * radix + digit_value c.
Proof. unfold read_num. by rewrite fold_left_app. Qed.

Lemma div_shrinks n k : 0 <= n < 2 ^ Z.of_nat (S k) → 0 <= n / radix < 2 ^ Z.of_nat k.
Proof.
  intros Hn. pose proof radix_ge. split; [by apply Z.div_pos; lia|]. apply Z.div_lt_upper_bound; [lia|].
  rewrite Nat2Z.inj_succ, Z.pow_succ_r in Hn by lia. nia.
Qed.

Lemma read_digits k : ∀ n, 0 <= n < 2 ^ Z.of_nat k → read_num (digits k n) = n.
Proof.
  induction k as [|k IH]; intros n Hn; cbn [digits]; [simpl in Hn; unfold read_num; simpl; lia|].
  destruct (Z.eqb_spec n 0) as [->|Hne]; [done|]. destruct (digit_lookup n ltac:(lia)) as (c & E & _ & Hv).
  rewrite E. cbn [from_option id]. rewrite read_num_snoc, Hv, IH by by apply div_shrinks.
  pose proof radix_ge. rewrite (Z.div_mod n radix) at 3 by lia. lia.
Qed.

Lemma digits_chars k : ∀ n, 0 <= n → Forall (λ c, 0 < c < 128) (digits k n).
Proof.
  induction k as [|k IH]; intros n Hn; cbn [digits]; [done|]. destruct (n =? 0); [done|]. pose proof radix_ge.
  destruct (digit_lookup n Hn) as (c & -> & Hc & _). apply Forall_app. split; [apply IH, Z.div_pos; lia|by constructor].
Qed.

Lemma length_digits k : ∀ n, (length (digits k n) <= k)%nat.
Proof.
  induction k as [|k IH]; intros n; cbn [digits]; [done|]. destruct (n =? 0); [simpl; lia|]. rewrite length_app. simpl.
  specialize (IH (n / radix)). lia.
Qed.

(** No leading zero. *)
Lemma digits_head k : ∀ n, 0 < n < 2 ^ Z.of_nat k → ∃ c s, digits k n = c :: s ∧ digit_value c ≠ 0.
Proof.
  induction k as [|k IH]; intros n Hn; [simpl in Hn; lia|]. cbn [digits]. rewrite (proj2 (Z.eqb_neq n 0)) by lia.
  destruct (digit_lookup n ltac:(lia)) as (c & -> & _ & Hv). cbn [from_option id]. pose proof radix_ge.
  destruct (Z.eq_dec (n / radix) 0) as [E|Hne].
  - exists c, []. rewrite E. split; [by destruct k|]. rewrite Hv. pose proof (Z.div_mod n radix). lia.
  - pose proof (div_shrinks n k ltac:(lia)). destruct (IH (n / radix)) as (c' & s & -> & Hc'); [lia|].
    by exists c', (s ++ [c]).
Qed.

(** ** The code against it *)
Lemma char_at_in str i c : zget str i = Some c → char_at str i = Some c.
Proof. unfold char_at. rewrite !zget_Some. intros [Hi Hc]. split; [done|]. by apply lookup_app_l_Some. Qed.

Lemma digits_loop_ok k : ∀ fuel n i stack out,
  (k < fuel)%nat → 0 <= n < 2 ^ Z.of_nat k → 0 <= i → i + Z.of_nat k <= Z.of_nat (length stack) → i + Z.of_nat k < 2 ^ 32 →
  ∃ stack', digits_loop fuel base_str n i stack out = Ret ((stack', i + Z.of_nat (length (digits k n))), out) ∧
    length stack' = length stack ∧
    take (Z.to_nat i + length (digits k n)) stack' = take (Z.to_nat i) stack ++ reverse (digits k n).
Proof.
  induction k as [|k IH]; intros fuel n i stack out Hf Hn Hi Hl H32; (destruct fuel as [|fuel]; [lia|]); cbn [digits_loop digits].
  { simpl in Hn. rewrite (proj2 (Z.eqb_eq n 0)) by lia. exists stack. simpl. rewrite Nat.add_0_r, app_nil_r.
    split_and!; [|done..]. unfold mret, M_ret. do 3 f_equal. lia. }
  destruct (Z.eqb_spec n 0) as [->|Hne].
  { exists stack. simpl. rewrite Nat.add_0_r, app_nil_r. split_and!; [|done..]. unfold mret, M_ret. do 3 f_equal. lia. }
  destruct (digit_lookup n ltac:(lia)) as (c & E & Hc & _). cbv zeta. fold radix.
  rewrite (bind_run _ _ _ c out) by (unfold getsome; by rewrite (char_at_in _ _ _ E)).
  rewrite (bind_run _ _ _ (<[Z.to_nat i := c]> stack) out) by (unfold getsome; by rewrite zset_lt by lia).
  rewrite u32_small by lia. rewrite E. cbn [from_option id].
  destruct (IH fuel (n / radix) (i + 1) (<[Z.to_nat i:=c]> stack) out) as (st & -> & Hlen & Ht);
    rewrite ?length_insert; [lia|by apply div_shrinks|lia..|].
  rewrite length_insert in Hlen. exists st. rewrite length_app, reverse_app. simpl. split_and!; [|done|].
  - do 3 f_equal. lia.
  - replace (Z.to_nat (i + 1)) with (S (Z.to_nat i)) in Ht by lia.
    replace (Z.to_nat i + (length (digits k (n / radix)) + 1))%nat with (S (Z.to_nat i) + length (digits k (n / radix)))%nat by lia.
    rewrite Ht, (take_S_r _ _ c), take_insert_ge by (rewrite ?list_lookup_insert_eq; done || lia). by rewrite <-(assoc_L (++)).
Qed.

Lemma i8_char c : 0 < c < 128 → i8 c = c.
Proof. intros. apply wraps_small; lia. Qed.

Lemma print_loop_ok n : ∀ stack out, (n <= length stack)%nat → Forall (λ c, 0 < c < 128) (take n stack) →
  print_loop n stack out = Ret (tt, out ++ reverse (take n stack)).
Proof.
  induction n as [|n IH]; intros stack out Hn Hc; cbn [print_loop]; [by rewrite app_nil_r|].
  destruct (lookup_lt_is_Some_2 stack n ltac:(lia)) as [c Ec].
  rewrite (take_S_r _ _ _ Ec) in Hc |- *. apply Forall_app in Hc as [Hc Hc1]. apply Forall_cons in Hc1 as [Hc1 _].
  rewrite (bind_run _ _ _ c out) by (unfold getsome; by rewrite (proj2 (zget_Some _ _ c)) by (rewrite Nat2Z.id; split; [lia|done])).
  rewrite (bind_run _ _ _ tt (out ++ [c])) by (unfold c4_debug_putchar, modify; by rewrite i8_char).
  rewrite IH by (done || lia). rewrite reverse_app, reverse_singleton. by rewrite <-(assoc_L (++)).
Qed.

Lemma num_text_chars n : 0 <= n → Forall (λ c, 0 < c < 128) (num_text n).
Proof. intros. unfold num_text. destruct (n =? 0); [by repeat constructor|by apply digits_chars]. Qed.

Lemma print_num_ok fuel n out : 0 <= n < 2 ^ 32 → (33 <= fuel)%nat →
  c4_debug_print_num fuel n base_str out = Ret (tt, out ++ num_text n).
Proof.
  intros Hn Hf. unfold c4_debug_print_num, num_text. pose proof radix_ge as Hr. unfold radix in Hr.
  rewrite (proj2 (Z.eqb_neq (Z.of_nat (length base_str)) 0)), orb_false_r by lia.
  destruct (Z.eqb_spec n 0) as [->|Hne]; [done|].
  destruct (digits_loop_ok 32 fuel n 0 (replicate 33 0) out) as (st & E & Hlen & Ht); rewrite ?length_replicate; try done; try lia.
  rewrite (bind_run _ _ _ _ _ E). cbn [fst snd]. rewrite length_replicate in Hlen. pose proof (length_digits 32 n).
  change (Z.to_nat 0) with 0%nat in Ht. rewrite take_0, Nat.add_0_l, app_nil_l in Ht.
  replace (Z.to_nat (0 + Z.of_nat (length (digits 32 n)))) with (length (digits 32 n)) by lia.
  rewrite print_loop_ok; rewrite ?Ht, ?reverse_involutive; [reflexivity|lia|].
  apply Forall_reverse, digits_chars. lia.
Qed.
End digits.

Lemma bases_ok : base_ok decimal ∧ base_ok hexadecimal ∧ base_ok binary.
Proof.
  unfold base_ok. split_and!; try (simpl; lia); try (by apply (bool_decide_unpack _); vm_compute);
    repeat constructor; lia.
Qed.

Section claims.

(** [c4_debug_print_num] prints the number in the base: reading the text
    back gives the number, it has no leading zero, and the 33 characters of its
    local array are enough for every base of at least two digits. *)
Theorem print_num_correct base_str fuel n out : base_ok base_str → 0 <= n < 2 ^ 32 → (33 <= fuel)%nat →
  ∃ s, c4_debug_print_num fuel n base_str out = Ret (tt, out ++ s) ∧ (length s <= 32)%nat ∧
    (0 < n → read_num base_str s = n ∧ ∃ c s', s = c :: s' ∧ digit_value base_str c ≠ 0) ∧ (n = 0 → s = [48]).
Proof.
  intros Hb Hn Hf. exists (num_text base_str n). split_and!; [by apply print_num_ok| | |].
  - unfold num_text. destruct (n =? 0); [simpl; lia|apply length_digits].
  - intros. unfold num_text. rewrite (proj2 (Z.eqb_neq n 0)) by lia.
    split; [apply read_digits|apply digits_head]; try done; change (Z.of_nat 32) with 32; lia.
  - by intros ->.
Qed.
End claims.

(** ** [c4_debug_printf] *)

(** What a format is made of. *)
Inductive piece : Type :=
| Lit (c : Z) | Str (str : list Z) | Num (n : Z) | Hex (n : Z) | Bin (n : Z) | Ptr (n : Z).

Definition piece_format (p : piece) : list Z :=
  match p with
  | Lit c => [c] | Str _ => [37; 115] | Num _ => [37; 117] | Hex _ => [37; 120] | Bin _ => [37; 98] | Ptr _ => [37; 112]
  end.
Definition piece_args (p : piece) : list arg :=
  match p with Lit _ => [] | Str str => [AStr str] | Num n | Hex n | Bin n | Ptr n => [ANum n] end.
Definition piece_text (p : piece) : list Z :=
  match p with
  | Lit c => [c] | Str str => str | Num n => num_text decimal n | Hex n => num_text hexadecimal n
  | Bin n => num_text binary n | Ptr n => [48; 120] ++ num_text hexadecimal n
  end.

Definition is_char (c : Z) : Prop := 0 < c < 128.

Definition piece_ok (fuel : nat) (p : piece) : Prop :=
  match p with
  | Lit c => is_char c ∧ c ≠ 37
  | Str str => Forall is_char str ∧ (length str < fuel)%nat
  | Num n | Hex n | Bin n | Ptr n => 0 <= n < 2 ^ 32
  end.

(** ** The formats *)
Lemma char_at_here pre c post : char_at (pre ++ c :: post) (Z.of_nat (length pre)) = Some c.
Proof.
  apply char_at_in, zget_Some. rewrite Nat2Z.id. split; [lia|]. by rewrite lookup_app_r, Nat.sub_diag by lia.
Qed.

Lemma char_at_end str : char_at str (Z.of_nat (length str)) = Some 0.
Proof.
  unfold char_at. apply zget_Some. rewrite Nat2Z.id. split; [lia|]. by rewrite lookup_app_r, Nat.sub_diag by lia.
Qed.

Lemma putchar_ok c out : is_char c → c4_debug_putchar c out = Ret (tt, out ++ [c]).
Proof. intros. unfold c4_debug_putchar, modify. by rewrite i8_char. Qed.

Lemma puts_loop_ok post : ∀ pre fuel out, Forall is_char post → (length post < fuel)%nat →
  Z.of_nat (length (pre ++ post)) < 2 ^ 32 →
  puts_loop fuel (pre ++ post) (Z.of_nat (length pre)) out = Ret (tt, out ++ post).
Proof.
  induction post as [|c post IH]; intros pre fuel out Hc Hf Hl; (destruct fuel as [|fuel]; [simpl in Hf; lia|]); cbn [puts_loop].
  - rewrite !app_nil_r, (bind_run _ _ _ 0 out) by (unfold getsome; by rewrite char_at_end). done.
  - apply Forall_cons in Hc as [Hc Hpost]. rewrite (bind_run _ _ _ c out) by (unfold getsome; by rewrite char_at_here).
    unfold is_char in Hc. rewrite (proj2 (Z.eqb_neq c 0)) by lia. rewrite (bind_run _ _ _ _ _ (putchar_ok _ _ Hc)).
    rewrite length_app in Hl. simpl in Hl, Hf. rewrite u32_small by lia.
    specialize (IH (pre ++ [c]) fuel (out ++ [c]) Hpost ltac:(lia)). rewrite !length_app, <-!(assoc_L (++)) in IH. simpl in IH.
    replace (Z.of_nat (length pre) + 1) with (Z.of_nat (length pre + 1)) by lia. apply IH. lia.
Qed.

Lemma puts_ok fuel str out : Forall is_char str → (length str < fuel)%nat → Z.of_nat (length str) < 2 ^ 32 →
  c4_debug_puts fuel str out = Ret (tt, out ++ str).
Proof. intros. by apply (puts_loop_ok str []). Qed.

Lemma num_ok fuel n base_str args out : (33 <= fuel)%nat → base_ok base_str → 0 <= n < 2 ^ 32 →
  (a ← arg_num (ANum n :: args); c4_debug_print_num fuel a.1 base_str;; mret a.2) out = Ret (args, out ++ num_text base_str n).
Proof.
  intros Hf Hb Hn. rewrite (bind_run _ _ _ (n, args) out) by (cbn; by rewrite u32_small by lia). cbn [fst snd].
  by rewrite (bind_run _ _ _ _ _ (print_num_ok base_str Hb fuel n out Hn Hf)).
Qed.

(** One piece, printed by its directive. *)
Lemma directive_ok fuel p args out d : (33 <= fuel)%nat → Z.of_nat fuel < 2 ^ 32 → piece_ok fuel p →
  piece_format p = [37; d] → directive fuel d (piece_args p ++ args) out = Ret (args, out ++ piece_text p).
Proof.
  intros Hf H32 Hp. destruct bases_ok as (Hd & Hx & Hb).
  destruct p as [c|str|n|n|n|n]; cbn [piece_format piece_ok piece_args piece_text app] in *; intros Ed; [discriminate|injection Ed as <-..];
    unfold directive; cbn [Z.eqb Pos.eqb]; try by apply num_ok.
  - destruct Hp as [Hs Hl]. rewrite (bind_run (arg_str _) _ _ (str, args) out) by done. cbn [fst snd].
    by rewrite (bind_run _ _ _ _ _ (puts_ok fuel str out Hs Hl ltac:(lia))).
  - rewrite (bind_run _ _ _ (n, args) out) by (cbn; by rewrite u32_small by lia). cbn [fst snd].
    rewrite (bind_run _ _ _ _ _ (puts_ok fuel [48; 120] out ltac:(repeat constructor; lia) ltac:(simpl; lia) ltac:(simpl; lia))).
    rewrite (bind_run _ _ _ _ _ (print_num_ok _ Hx fuel n _ Hp Hf)). by rewrite <-(assoc_L (++)).
Qed.

Lemma piece_shape p : (∃ d, piece_format p = [37; d]) ∨ ∃ c, p = Lit c.
Proof. destruct p; [by right; eexists|left; by eexists..]. Qed.

Lemma printf_loop_ok fuel args' ps : ∀ pre turns out, (33 <= fuel)%nat → Z.of_nat fuel < 2 ^ 32 →
  Forall (piece_ok fuel) ps → (length (ps ≫= piece_format) < turns)%nat → Z.of_nat (length (pre ++ (ps ≫= piece_format))) < 2 ^ 32 →
  printf_loop turns fuel (pre ++ (ps ≫= piece_format)) (Z.of_nat (length pre)) ((ps ≫= piece_args) ++ args') out =
    Ret (tt, out ++ (ps ≫= piece_text)).
Proof.
  induction ps as [|p ps IH]; intros pre turns out Hf H32 Hok Ht Hl; (destruct turns as [|turns]; [simpl in Ht; lia|]); cbn [printf_loop].
  { cbn [mbind list_bind]. rewrite !app_nil_r, (bind_run _ _ _ 0 out) by (unfold getsome; by rewrite char_at_end). done. }
  apply Forall_cons in Hok as [Hp Hps]. rewrite !bind_cons in *. rewrite !length_app in Hl, Ht.
  destruct (piece_shape p) as [[d Ed]|[c ->]].
  - rewrite Ed in *. simpl in Hl, Ht. rewrite (bind_run _ _ _ 37 out)
      by (unfold getsome; cbn [app]; rewrite (char_at_here pre 37 (d :: (ps ≫= piece_format))); done).
    cbn [Z.eqb Pos.eqb]. rewrite (bind_run _ _ _ d out).
    2:{ unfold getsome. rewrite u32_small by lia. cbn [app].
        replace (pre ++ 37 :: d :: (ps ≫= piece_format)) with ((pre ++ [37]) ++ d :: (ps ≫= piece_format)) by by rewrite <-(assoc_L (++)).
        replace (Z.of_nat (length pre) + 1) with (Z.of_nat (length (pre ++ [37]))) by (rewrite length_app; simpl; lia).
        by rewrite char_at_here. }
    rewrite <-(assoc_L (++)), (bind_run _ _ _ _ _ (directive_ok fuel p _ out d Hf H32 Hp Ed)).
    specialize (IH (pre ++ [37; d]) turns (out ++ piece_text p) Hf H32 Hps ltac:(lia)).
    rewrite !length_app, <-!(assoc_L (++)) in IH. simpl in IH. rewrite !u32_small by (rewrite ?u32_small; lia).
    replace (Z.of_nat (length pre) + 1 + 1) with (Z.of_nat (length pre + 2)) by lia. apply IH. lia.
  - cbn [piece_format piece_args piece_text app] in *. destruct Hp as [Hc Hne].
    rewrite (bind_run _ _ _ c out) by (unfold getsome; by rewrite char_at_here). unfold is_char in Hc.
    rewrite (proj2 (Z.eqb_neq c 0)), (proj2 (Z.eqb_neq c 37)) by lia. rewrite (bind_run _ _ _ _ _ (putchar_ok _ _ Hc)).
    simpl in Hl, Ht. specialize (IH (pre ++ [c]) turns (out ++ [c]) Hf H32 Hps ltac:(lia)).
    rewrite !length_app, <-!(assoc_L (++)) in IH. simpl in IH. rewrite u32_small by lia.
    replace (Z.of_nat (length pre) + 1) with (Z.of_nat (length pre + 1)) by lia. apply IH. lia.
Qed.

(** [c4_debug_printf] prints literal characters as they are and each
    directive as its argument, in order, and looks at no character past the
    format's terminator. *)
Theorem printf_correct turns fuel ps out : (33 <= fuel)%nat → Z.of_nat fuel < 2 ^ 32 → Forall (piece_ok fuel) ps →
  (length (ps ≫= piece_format) < turns)%nat → Z.of_nat (length (ps ≫= piece_format)) < 2 ^ 32 →
  c4_debug_printf turns fuel (ps ≫= piece_format) (ps ≫= piece_args) out = Ret (tt, out ++ (ps ≫= piece_text)).
Proof.
  intros Hf H32 Hok Ht Hl. unfold c4_debug_printf. rewrite <-(app_nil_r (ps ≫= piece_args)).
  by apply (printf_loop_ok fuel [] ps [] turns out).
Qed.

(** A format that ends in [%] is read past its terminator. *)
Lemma printf_trailing_percent turns fuel args out : c4_debug_printf (S (S turns)) fuel [37] args out = UB.
Proof. reflexivity. Qed.

Lemma print_num_correct_witness : ∃ s, c4_debug_print_num 33 0xbeef hexadecimal [] = Ret (tt, s) ∧ read_num hexadecimal s = 0xbeef.
Proof.
  destruct (print_num_correct hexadecimal 33 0xbeef [] (proj1 (proj2 bases_ok)) ltac:(lia) (le_n _)) as (s & E & _ & Hr & _).
  exists s. split; [exact E|]. apply Hr. lia.
Defined.

(** ["id %u: %s\n"] *)
Lemma printf_correct_witness :
  c4_debug_printf 100 40 [105; 100; 32; 37; 117; 58; 32; 37; 115; 10] [ANum 42; AStr [111; 107]] [] =
  Ret (tt, [105; 100; 32; 52; 50; 58; 32; 111; 107; 10]).
Proof.
  apply (printf_correct 100 40 [Lit 105; Lit 100; Lit 32; Num 42; Lit 58; Lit 32; Str [111; 107]; Lit 10] []);
    unfold piece_ok, is_char; cbn; repeat constructor; lia.
Defined.
