(* ===== verification/Prng.v ===== *)
(** The pseudo random generator of the runtime, a 64-bit Galois linear feedback
    shift register: [libraries/c4rt/src/galois_lfsr.c].  The static [state] is
    threaded explicitly. *)

From S2P Require Import Prelude.
#[local] Open Scope Z_scope.

Definition C4RT_PRNG_DEFAULT_SEED : Z := 0xabadc0debabe.

Definition tapbit (bit : Z) : Z := u64 (Z.shiftl 1 (bit - 1)).

Definition taps : Z := Z.lor (Z.lor (Z.lor (tapbit 64) (tapbit 63)) (tapbit 61)) (tapbit 60).

Definition lfsr_next (state : Z) : Z :=
  let bit := Z.land state 1 in
  let state := Z.shiftr state 1 in
  if truthy bit then Z.lxor state taps else state.

Definition lfsr_output (state : Z) : bool := truthy (Z.land state 1).

Definition c4rt_prng_seed (new_seed : Z) : M Z unit := modify (λ _, new_seed).
Definition c4rt_prng_get_seed : M Z Z := get.

Definition c4rt_prng_bool : M Z bool :=
  state ← get;
  let ret := lfsr_output state in
  modify lfsr_next;;
  mret ret.

Fixpoint u8_loop (n : nat) (ret : Z) : M Z Z :=
  match n with
  | O => mret ret
  | S n' =>
      let ret := u8 (Z.shiftl ret 1) in
      b ← c4rt_prng_bool;
      u8_loop n' (Z.lor ret (Z.b2z b))
  end.

Definition c4rt_prng_u8 : M Z Z := u8_loop 8 0.

(** [(f() << w) | f()]: C leaves the order of the two calls open, [left_first]
    is the compiler's choice. *)
Definition two (left_first : bool) (f : M Z Z) (w : Z) : M Z Z :=
  if left_first then hi ← f; lo ← f; mret (Z.lor (Z.shiftl hi w) lo)
  else lo ← f; hi ← f; mret (Z.lor (Z.shiftl hi w) lo).

Definition c4rt_prng_u16 (lf : bool) : M Z Z := two lf c4rt_prng_u8 8.
Definition c4rt_prng_u32 (lf : bool) : M Z Z := two lf (c4rt_prng_u16 lf) 16.
Definition c4rt_prng_u64 (lf : bool) : M Z Z := two lf (c4rt_prng_u32 lf) 32.

(** ** The step is a permutation *)

(** The step undone: the tap at bit 63 tells whether a one was shifted out. *)
Definition lfsr_prev (state : Z) : Z :=
  if Z.testbit state 63 then Z.lor (Z.shiftl (Z.lxor state taps) 1) 1 else Z.shiftl state 1.

Definition word64 (s : Z) : Prop := 0 <= s < 2 ^ 64.

Lemma word64_bits s : word64 s ↔ 0 <= s ∧ ∀ i, 64 <= i → Z.testbit s i = false.
Proof.
  unfold word64. split.
  - intros Hs. split; [lia|]. intros i Hi. apply Z.bits_above_log2; [lia|].
    destruct (Z.eq_dec s 0) as [->|Hne]; [simpl; lia|]. apply Z.log2_lt_pow2; [lia|].
    eapply Z.lt_le_trans; [apply Hs|]. apply Z.pow_le_mono_r; lia.
  - intros [H0 Hb]. split; [done|]. destruct (Z.eq_dec s 0) as [->|Hne]; [lia|].
    apply Z.log2_lt_pow2; [lia|]. destruct (Z_lt_le_dec (Z.log2 s) 64) as [|Hge]; [done|].
    specialize (Hb _ Hge). rewrite Z.bit_log2 in Hb by lia. done.
Qed.

Lemma land1_truthy s : truthy (Z.land s 1) = Z.testbit s 0.
Proof.
  change 1 with (Z.ones 1). rewrite Z.land_ones by lia. change (2 ^ 1) with 2.
  rewrite Z.bit0_odd. unfold truthy. rewrite Zmod_odd. by destruct (Z.odd s).
Qed.

Lemma lfsr_next_eq s : lfsr_next s = if Z.testbit s 0 then Z.lxor (Z.shiftr s 1) taps else Z.shiftr s 1.
Proof. unfold lfsr_next. by rewrite land1_truthy. Qed.

Lemma taps_bits i : 64 <= i → Z.testbit taps i = false.
Proof. intros Hi. apply (proj1 (word64_bits taps)); [vm_compute; intuition discriminate|done]. Qed.

Lemma lfsr_next_word s : word64 s → word64 (lfsr_next s).
Proof.
  intros Hs. rewrite lfsr_next_eq. pose proof (proj1 (word64_bits s) Hs) as [H0 Hb].
  apply word64_bits. case_match.
  - split; [apply Z.lxor_nonneg; split; intros _; [vm_compute; discriminate|apply Z.shiftr_nonneg; lia]|].
    intros i Hi. rewrite Z.lxor_spec, Z.shiftr_spec, Hb, taps_bits by lia. done.
  - split; [apply Z.shiftr_nonneg; lia|]. intros i Hi. rewrite Z.shiftr_spec, Hb by lia. done.
Qed.

Lemma lfsr_next_top s : word64 s → Z.testbit (lfsr_next s) 63 = Z.testbit s 0.
Proof.
  intros Hs. rewrite lfsr_next_eq. pose proof (proj1 (word64_bits s) Hs) as [H0 Hb].
  destruct (Z.testbit s 0) eqn:E.
  - rewrite Z.lxor_spec, Z.shiftr_spec, Hb by lia. reflexivity.
  - rewrite Z.shiftr_spec, Hb by lia. done.
Qed.

Lemma shift_back s : 0 <= s → Z.lor (Z.shiftl (Z.shiftr s 1) 1) (Z.b2z (Z.testbit s 0)) = s.
Proof.
  intros H0. apply Z.bits_inj'. intros i Hi. rewrite Z.lor_spec, Z.shiftl_spec by lia.
  destruct (Z.eq_dec i 0) as [->|Hne].
  - rewrite Z.testbit_neg_r by lia. by destruct (Z.testbit s 0).
  - rewrite Z.shiftr_spec by lia. replace (i - 1 + 1) with i by lia.
    replace (Z.testbit (Z.b2z (Z.testbit s 0)) i) with false; [by rewrite orb_false_r|].
    destruct (Z.testbit s 0); simpl; [|by rewrite Z.bits_0]. symmetry. by rewrite (Z.bits_above_log2 1 i) by (simpl; lia).
Qed.

Lemma lfsr_prev_next s : word64 s → lfsr_prev (lfsr_next s) = s.
Proof.
  intros Hs. unfold lfsr_prev. rewrite (lfsr_next_top s Hs), lfsr_next_eq.
  pose proof (shift_back s ltac:(destruct Hs; lia)) as E. destruct (Z.testbit s 0); simpl in E.
  - rewrite Z.lxor_assoc, Z.lxor_nilpotent, Z.lxor_0_r. exact E.
  - by rewrite Z.lor_0_r in E.
Qed.

Fixpoint iter_next (n : nat) (s : Z) : Z := match n with O => s | S n' => iter_next n' (lfsr_next s) end.

(** The register step loses nothing: on 64-bit states it is undone by
    [lfsr_prev], so different states stay different, and from a nonzero seed
    the register never reaches the stuck state zero, however long it runs. *)
Theorem lfsr_never_stuck n s : word64 s → s ≠ 0 →
  word64 (iter_next n s) ∧ iter_next n s ≠ 0 ∧
  ∀ s', word64 s' → lfsr_next s = lfsr_next s' → s = s'.
Proof.
  revert s. induction n as [|n IH]; intros s Hs H0.
  - split_and!; [done|done|]. intros s' Hs' E. rewrite <- (lfsr_prev_next s), <- (lfsr_prev_next s') by done. by rewrite E.
  - destruct (IH (lfsr_next s)) as (H1 & H2 & _).
    + by apply lfsr_next_word.
    + intros E. apply H0. rewrite <- (lfsr_prev_next s Hs), E. done.
    + split_and!; [done|done|]. intros s' Hs' E. rewrite <- (lfsr_prev_next s), <- (lfsr_prev_next s') by done. by rewrite E.
Qed.

Lemma lfsr_never_stuck_witness : iter_next 1000 C4RT_PRNG_DEFAULT_SEED ≠ 0.
Proof.
  apply (lfsr_never_stuck 1000 C4RT_PRNG_DEFAULT_SEED).
  - vm_compute. intuition discriminate.
  - discriminate.
Defined.

(** ** The words drawn are the output bits *)
Fixpoint bits (n : nat) (s : Z) : list bool :=
  match n with O => [] | S n' => lfsr_output s :: bits n' (lfsr_next s) end.

(** Most significant bit first. *)
Definition value (bs : list bool) : Z := foldl (λ acc b, 2 * acc + Z.b2z b) 0 bs.

Lemma foldl_value bs acc : foldl (λ acc b, 2 * acc + Z.b2z b) acc bs = acc * 2 ^ Z.of_nat (length bs) + value bs.
Proof.
  unfold value. revert acc. induction bs as [|b bs IH]; intros acc; [simpl; lia|].
  cbn [foldl length]. rewrite (IH (2 * acc + Z.b2z b)), (IH (2 * 0 + Z.b2z b)), Nat2Z.inj_succ, Z.pow_succ_r by lia. lia.
Qed.

Lemma value_range bs : 0 <= value bs < 2 ^ Z.of_nat (length bs).
Proof.
  induction bs as [|b bs IH]; [done|]. unfold value. cbn [foldl]. rewrite foldl_value. cbn [length].
  rewrite Nat2Z.inj_succ, Z.pow_succ_r by lia. destruct b; simpl Z.b2z; lia.
Qed.

Lemma value_app xs ys : value (xs ++ ys) = value xs * 2 ^ Z.of_nat (length ys) + value ys.
Proof. unfold value at 1. rewrite foldl_app. by rewrite foldl_value. Qed.

Lemma length_bits n s : length (bits n s) = n.
Proof. revert s. induction n; intros; simpl; auto. Qed.

Lemma bits_app n k s : bits (n + k) s = bits n s ++ bits k (iter_next n s).
Proof. revert s. induction n as [|n IH]; intros s; simpl; [done|]. by rewrite IH. Qed.

Lemma iter_next_add n k s : iter_next (n + k) s = iter_next k (iter_next n s).
Proof. revert s. induction n; intros; simpl; auto. Qed.

Lemma lor_disjoint a b w : 0 <= w → 0 <= b < 2 ^ w → Z.lor (Z.shiftl a w) b = a * 2 ^ w + b.
Proof.
  intros Hw Hb. rewrite <- Z.add_lor_land. rewrite Z.shiftl_mul_pow2 by done.
  assert (Z.land (a * 2 ^ w) b = 0) as ->; [|lia].
  rewrite <- Z.shiftl_mul_pow2 by done. apply Z.bits_inj'. intros i Hi. rewrite Z.land_spec, Z.bits_0, Z.shiftl_spec by lia.
  destruct (Z_lt_le_dec i w) as [Hlt|Hge]; [by rewrite Z.testbit_neg_r by lia|].
  assert (Z.testbit b i = false) as ->; [|apply andb_false_r].
  destruct (Z.eq_dec b 0) as [->|Hne]; [apply Z.bits_0|]. apply Z.bits_above_log2; [lia|].
  apply Z.log2_lt_pow2; [lia|]. eapply Z.lt_le_trans; [apply Hb|]. apply Z.pow_le_mono_r; lia.
Qed.

(** A draw that consumes [n] steps and yields those bits. *)
Definition draws (f : M Z Z) (n : nat) : Prop := ∀ s, f s = Ret (value (bits n s), iter_next n s).

Lemma u8_loop_ok n s acc : 0 <= acc → acc * 2 ^ Z.of_nat n < 2 ^ 8 →
  (∀ k, (k < n)%nat → acc * 2 ^ Z.of_nat (S k) + 2 ^ Z.of_nat (S k) <= 2 ^ 8) →
  u8_loop n acc s = Ret (foldl (λ acc b, 2 * acc + Z.b2z b) acc (bits n s), iter_next n s).
Proof.
  revert s acc. induction n as [|n IH]; intros s acc H0 H1 H2; [done|]. cbn [u8_loop bits iter_next foldl].
  specialize (H2 0%nat) as H20. simpl in H20.
  assert (u8 (Z.shiftl acc 1) = 2 * acc) as E by (rewrite Z.shiftl_mul_pow2 by lia; rewrite wrapu_small; lia).
  rewrite E. unfold c4rt_prng_bool. unfold mbind at 1 2 3, M_bind at 1 2 3, get, modify, mret, M_ret.
  replace (Z.lor (2 * acc) (Z.b2z (lfsr_output s))) with (2 * acc + Z.b2z (lfsr_output s)).
  2: { replace (2 * acc) with (Z.shiftl acc 1) by (rewrite Z.shiftl_mul_pow2 by lia; lia).
       rewrite lor_disjoint by (destruct (lfsr_output s); simpl; lia).
       rewrite Z.shiftl_mul_pow2 by lia. lia. }
  assert (0 <= Z.b2z (lfsr_output s) <= 1) by (destruct (lfsr_output s); simpl; lia).
  apply IH; [lia| |].
  - specialize (H2 n ltac:(lia)). rewrite Nat2Z.inj_succ, Z.pow_succ_r in H2 by lia. nia.
  - intros k Hk. specialize (H2 (S k) ltac:(lia)). rewrite (Nat2Z.inj_succ (S k)), (Z.pow_succ_r 2 (Z.of_nat (S k))) in H2 by lia. nia.
Qed.

Lemma u8_draws : draws c4rt_prng_u8 8.
Proof.
  intros s. unfold c4rt_prng_u8. rewrite u8_loop_ok; [done|lia|lia|].
  intros k Hk. rewrite Z.mul_0_l, Z.add_0_l. apply Z.pow_le_mono_r; lia.
Qed.

Lemma two_draws f n w : draws f n → w = Z.of_nat n → draws (two true f w) (n + n).
Proof.
  intros Hf -> s. unfold two. unfold mbind, M_bind. rewrite !Hf. unfold mret, M_ret.
  rewrite bits_app, value_app, iter_next_add. do 2 f_equal.
  rewrite lor_disjoint; [by rewrite length_bits|lia|].
  pose proof (value_range (bits n (iter_next n s))). by rewrite length_bits in *.
Qed.

(** Drawing a word consumes exactly as many register steps as it has bits
    and returns the output bits, most significant first (for a compiler that
    evaluates the left operand first). *)
Theorem prng_words s :
  c4rt_prng_u8 s = Ret (value (bits 8 s), iter_next 8 s) ∧
  c4rt_prng_u16 true s = Ret (value (bits 16 s), iter_next 16 s) ∧
  c4rt_prng_u32 true s = Ret (value (bits 32 s), iter_next 32 s) ∧
  c4rt_prng_u64 true s = Ret (value (bits 64 s), iter_next 64 s).
Proof.
  pose proof u8_draws as H8. pose proof (two_draws _ 8 8 H8 eq_refl) as H16.
  pose proof (two_draws _ 16 16 H16 eq_refl) as H32. pose proof (two_draws _ 32 32 H32 eq_refl) as H64.
  split_and!; [apply H8|apply H16|apply H32|apply H64].
Qed.
