(* ===== verification/Kernel.v ===== *)
(** The kernel as user programs see it, and the runtime's wrappers around it:
    [libraries/c4rt/src/message.c], [thread.c], [capability.c], [io.c], the
    system calls of [mem.c], and the request stubs of [include/c4rt/interface/
    pager.h] and [block.h].

    The kernel is not part of this repository: it is a parameter, a function
    from the whole history of system calls (latest first) to the answer of the
    latest one, the value in [eax] and what it left in the message buffer.  So
    every statement below holds for every kernel, other threads included.  What
    a program does to the world is the history it leaves behind.  Debug output
    is not recorded. *)

From S2P Require Import Prelude.
#[local] Open Scope Z_scope.

(** [message_t]: the fields the programs use.  A word the initializer does not
    name is zero. *)
Record message := mk_msg { mtype : Z; mdata : list Z }.

Definition mget (m : message) (i : nat) : Z := u32 (default 0 (mdata m !! i)).
Definition no_msg : message := mk_msg 0 [].

#[export] Instance message_eq_dec : EqDecision message.
Proof. solve_decision. Defined.

Inductive syscall : Type :=
| SYSCALL_SYNC_CREATE | SYSCALL_SYNC_SEND | SYSCALL_SYNC_RECIEVE
| SYSCALL_ASYNC_CREATE | SYSCALL_ASYNC_SEND | SYSCALL_ASYNC_RECIEVE
| SYSCALL_THREAD_EXIT | SYSCALL_THREAD_SLEEP | SYSCALL_INFO | SYSCALL_THREAD_CREATE
| SYSCALL_THREAD_CONTINUE | SYSCALL_THREAD_SET_ADDRSPACE | SYSCALL_THREAD_SET_CAPSPACE
| SYSCALL_THREAD_SET_PAGER
| SYSCALL_CSPACE_CREATE | SYSCALL_CSPACE_CAP_MOVE | SYSCALL_CSPACE_CAP_COPY
| SYSCALL_CSPACE_CAP_REMOVE | SYSCALL_CSPACE_CAP_RESTRICT | SYSCALL_CSPACE_CAP_GRANT
| SYSCALL_ADDRSPACE_CREATE | SYSCALL_ADDRSPACE_MAP | SYSCALL_ADDRSPACE_UNMAP
| SYSCALL_PHYS_FRAME_CREATE | SYSCALL_PHYS_FRAME_SPLIT
| SYSCALL_INTERRUPT_SUBSCRIBE | SYSCALL_INTERRUPT_UNSUBSCRIBE
| SYSCALL_IOPORT.

#[export] Instance syscall_eq_dec : EqDecision syscall.
Proof. solve_decision. Defined.

(** One call: number, the four argument registers, the buffer passed. *)
Record kcall := mk_call { cnum : syscall; carg : list Z; cbuf : message }.

#[export] Instance kcall_eq_dec : EqDecision kcall.
Proof. solve_decision. Defined.

(** The kernel and the constants its headers define. *)
Class KernelEnv := {
  kernel : list kcall → Z * message;
  CAP_ACCESS : Z; CAP_MODIFY : Z; CAP_MULTI_USE : Z; CAP_SHARE : Z;
  PAGE_READ : Z; PAGE_WRITE : Z;
  MESSAGE_TYPE_GRANT_OBJECT : Z; MESSAGE_TYPE_END_RESERVED : Z;
  MESSAGE_ASYNC_BLOCK : Z;
  IO_PORT_IN_BYTE : Z; IO_PORT_IN_WORD : Z; IO_PORT_IN_DWORD : Z;
  IO_PORT_OUT_BYTE : Z; IO_PORT_OUT_WORD : Z; IO_PORT_OUT_DWORD : Z;
  SYSCALL_INFO_GET_ID : Z
}.

(** Capability addresses every process starts with ([c4rt.h]). *)
Definition C4_CURRENT_CSPACE : Z := 0.
Definition C4_SERV_PORT : Z := 1.
Definition C4_CURRENT_ADDRSPACE : Z := 2.
Definition C4_BOOT_INFO : Z := 3.
Definition C4_PAGER : Z := 4.
Definition C4_NAMESERVER : Z := 5.

Abbreviation K := (M (list kcall)).

Section kernel.
Context `{KernelEnv}.

Definition caps (l : list Z) : Z := foldr Z.lor 0 l.

(** [DO_SYSCALL]: the answer is what the kernel says to the new history. *)
Definition do_syscall (n : syscall) (a b c d : Z) (buf : message) : K (Z * message) := λ h,
  let h' := mk_call n [a; b; c; d] buf :: h in
  Ret (((i32 (kernel h').1, (kernel h').2), h')).

Definition sys (n : syscall) (a b c d : Z) : K Z := r ← do_syscall n a b c d no_msg; mret r.1.

(** ** Messages *)
Definition c4_msg_create_sync : K Z := sys SYSCALL_SYNC_CREATE 0 0 0 0.
Definition c4_msg_create_async : K Z := sys SYSCALL_ASYNC_CREATE 0 0 0 0.

(** A send passes the buffer, a receive fills it. *)
Definition c4_msg_send (buffer : message) (to : Z) : K Z :=
  r ← do_syscall SYSCALL_SYNC_SEND 0 (u32 to) 0 0 buffer; mret r.1.
Definition c4_msg_recieve (from : Z) : K (Z * message) := do_syscall SYSCALL_SYNC_RECIEVE 0 (u32 from) 0 0 no_msg.
Definition c4_msg_send_async (buffer : message) (to : Z) : K Z :=
  r ← do_syscall SYSCALL_ASYNC_SEND 0 (u32 to) 0 0 buffer; mret r.1.
Definition c4_msg_recieve_async (from flags : Z) : K (Z * message) :=
  do_syscall SYSCALL_ASYNC_RECIEVE 0 (u32 from) (u32 flags) 0 no_msg.

(** ** Capabilities *)
Definition c4_cspace_create : K Z := sys SYSCALL_CSPACE_CREATE 0 0 0 0.
Definition c4_cspace_move (src_space src_object dest_space dest_object : Z) : K Z :=
  sys SYSCALL_CSPACE_CAP_MOVE src_space src_object dest_space dest_object.
Definition c4_cspace_copy (src_space src_object dest_space dest_object : Z) : K Z :=
  sys SYSCALL_CSPACE_CAP_COPY src_space src_object dest_space dest_object.
Definition c4_cspace_remove (cspace object : Z) : K Z := sys SYSCALL_CSPACE_CAP_REMOVE cspace (u32 object) 0 0.
Definition c4_cspace_restrict (cspace object perms : Z) : K Z := sys SYSCALL_CSPACE_CAP_RESTRICT cspace object perms 0.
Definition c4_cspace_grant (object queue perms : Z) : K Z :=
  sys SYSCALL_CSPACE_CAP_GRANT (u32 object) (u32 queue) perms 0.

(** ** A temporary endpoint shared with a server *)
Definition c4_send_temp_endpoint (server : Z) : K Z :=
  temppoint ← c4_msg_create_sync;
  if temppoint <? 0 then mret temppoint
  else
    c4_cspace_grant temppoint server (caps [CAP_ACCESS; CAP_MODIFY; CAP_MULTI_USE; CAP_SHARE]);;
    mret temppoint.

(** ** Threads *)
Definition c4_exit : K unit := sys SYSCALL_THREAD_EXIT 0 0 0 0;; mret tt.
Definition c4_sleep (useconds : Z) : K unit := sys SYSCALL_THREAD_SLEEP useconds 0 0 0;; mret tt.
(** [libc/unistd.c]: whole seconds wrap around in their microseconds. *)
Definition usleep (useconds : Z) : K Z := c4_sleep useconds;; mret 0.
Definition sleep (seconds : Z) : K Z := c4_sleep (u32 (seconds * 1000000));; mret 0.
Definition c4_info (action : Z) : K Z := sys SYSCALL_INFO action 0 0 0.
Definition c4_create_thread (entry stack flags : Z) : K Z := sys SYSCALL_THREAD_CREATE entry stack flags 0.
Definition c4_continue_thread (thread : Z) : K Z := sys SYSCALL_THREAD_CONTINUE thread 0 0 0.
Definition c4_set_addrspace (thread space : Z) : K Z := sys SYSCALL_THREAD_SET_ADDRSPACE thread space 0 0.
Definition c4_set_capspace (thread space : Z) : K Z := sys SYSCALL_THREAD_SET_CAPSPACE thread space 0 0.
Definition c4_set_pager (thread pager : Z) : K Z := sys SYSCALL_THREAD_SET_PAGER thread pager 0 0.
Definition c4_get_pager : K Z := mret (-1).
Definition c4_get_id : K Z := c4_info SYSCALL_INFO_GET_ID.

(** ** Interrupts and ports *)
Definition c4_interrupt_subscribe (num endpoint : Z) : K Z := sys SYSCALL_INTERRUPT_SUBSCRIBE num (u32 endpoint) 0 0.
Definition c4_interrupt_unsubscribe (endpoint : Z) : K Z := sys SYSCALL_INTERRUPT_SUBSCRIBE (u32 endpoint) 0 0 0.

Definition c4_in_byte (port : Z) : K Z := r ← sys SYSCALL_IOPORT IO_PORT_IN_BYTE (u32 port) 0 0; mret (u8 r).
Definition c4_in_word (port : Z) : K Z := r ← sys SYSCALL_IOPORT IO_PORT_IN_WORD (u32 port) 0 0; mret (u16 r).
Definition c4_in_dword (port : Z) : K Z := r ← sys SYSCALL_IOPORT IO_PORT_IN_DWORD (u32 port) 0 0; mret (u32 r).
Definition c4_out_byte (port value : Z) : K unit := sys SYSCALL_IOPORT IO_PORT_OUT_BYTE (u32 port) (u8 value) 0;; mret tt.
Definition c4_out_word (port value : Z) : K unit := sys SYSCALL_IOPORT IO_PORT_OUT_WORD (u32 port) (u16 value) 0;; mret tt.
Definition c4_out_dword (port value : Z) : K unit := sys SYSCALL_IOPORT IO_PORT_OUT_DWORD (u32 port) (u32 value) 0;; mret tt.

(** ** Address spaces ([mem.c]) *)
Definition c4_addrspace_create : K Z := sys SYSCALL_ADDRSPACE_CREATE 0 0 0 0.
Definition c4_addrspace_map (addrspace frame address permissions : Z) : K Z :=
  sys SYSCALL_ADDRSPACE_MAP addrspace (u32 frame) (u32 address) permissions.
Definition c4_addrspace_unmap (addrspace address : Z) : K Z := sys SYSCALL_ADDRSPACE_UNMAP addrspace (u32 address) 0 0.
Definition c4_phys_frame_create (physical size context : Z) : K Z := sys SYSCALL_PHYS_FRAME_CREATE physical size context 0.
Definition c4_phys_frame_split (frame offset : Z) : K Z := sys SYSCALL_PHYS_FRAME_SPLIT (u32 frame) offset 0 0.

Definition c4_request_physical (virt physical size permissions : Z) : K Z :=
  frame ← c4_phys_frame_create physical size 0;
  if frame <? 0 then mret 0
  else
    k ← c4_addrspace_map C4_CURRENT_ADDRSPACE frame virt permissions;
    if k <? 0 then mret 0 else mret (u32 frame).

(** ** Pager requests ([interface/pager.h]) *)
Definition PAGER_MSG_REQUEST_PAGES : Z := 0xbeef10af.
Definition PAGER_MSG_AVAILABLE_MEM : Z := 0xbeef10b0.

Definition pager_request_pages (pager permissions n_pages : Z) : K Z :=
  temppoint ← c4_send_temp_endpoint pager;
  c4_msg_send (mk_msg PAGER_MSG_REQUEST_PAGES [permissions; n_pages]) temppoint;;
  r ← c4_msg_recieve temppoint;
  c4_cspace_remove C4_CURRENT_CSPACE temppoint;;
  mret (i32 (mget r.2 5)).

Definition pager_request_pages_map (pager virt permissions n_pages : Z) : K Z :=
  temppoint ← c4_send_temp_endpoint pager;
  c4_msg_send (mk_msg PAGER_MSG_REQUEST_PAGES [permissions; n_pages]) temppoint;;
  r ← c4_msg_recieve temppoint;
  c4_cspace_remove C4_CURRENT_CSPACE temppoint;;
  c4_addrspace_map C4_CURRENT_ADDRSPACE (mget r.2 5) virt permissions;;
  mret (i32 (mget r.2 5)).

Definition pager_available_mem (pager : Z) : K Z :=
  c4_msg_send (mk_msg PAGER_MSG_AVAILABLE_MEM []) pager;;
  r ← c4_msg_recieve pager;
  mret (u32 (mget r.2 0)).

Definition PAGE_SIZE : Z := 4096.

Definition pager_size_to_pages (size : Z) : Z :=
  u32 (size / PAGE_SIZE + Z.b2z (0 <? size mod PAGE_SIZE)).

(** ** Block device requests ([interface/block.h]) *)
Definition BLOCK_MSG_READ : Z := MESSAGE_TYPE_END_RESERVED + 2.
Definition BLOCK_MSG_WRITE : Z := MESSAGE_TYPE_END_RESERVED + 3.
Definition BLOCK_MSG_ERROR : Z := MESSAGE_TYPE_END_RESERVED + 5.
Definition BLOCK_MSG_COMPLETED : Z := MESSAGE_TYPE_END_RESERVED + 6.

(** [true] is [BLOCK_MSG_HAD_ERROR]; [page_obj] is the buffer's page object. *)
Definition block_access (id : Z) (msg : message) (page_obj : Z) : K bool :=
  temppoint ← c4_send_temp_endpoint id;
  c4_msg_send msg temppoint;;
  c4_cspace_grant page_obj temppoint (caps [CAP_MODIFY; CAP_ACCESS; CAP_SHARE]);;
  r ← c4_msg_recieve temppoint;
  let error := negb (mtype r.2 =? BLOCK_MSG_COMPLETED) in
  c4_cspace_remove C4_CURRENT_CSPACE temppoint;;
  mret error.

Definition block_read (id page_obj drive location size : Z) : K bool :=
  block_access id (mk_msg BLOCK_MSG_READ [drive; location; size]) page_obj.

Definition block_write (id page_obj drive location size : Z) : K bool :=
  block_access id (mk_msg BLOCK_MSG_WRITE [drive; location; size]) page_obj.

(** ** What a computation does to the world

    [does m h v cs]: run after the history [h], [m] returns [v] and has made
    the calls [cs], latest first.  Every computation over the kernel is total:
    the rules below follow the code. *)
Definition does {A} (m : K A) (h : list kcall) (v : A) (cs : list kcall) : Prop :=
  m h = Ret (v, cs ++ h).

Lemma does_ret {A} (v : A) h : does (mret v) h v [].
Proof. done. Qed.

Lemma does_bind {A B} (m : K A) (f : A → K B) h v cs w ds :
  does m h v cs → does (f v) (cs ++ h) w ds → does (m ≫= f) h w (ds ++ cs).
Proof. unfold does, mbind, M_bind. intros -> ->. by rewrite (assoc_L (++)). Qed.

Lemma does_call n a b c d buf h :
  let e := mk_call n [a; b; c; d] buf in
  does (do_syscall n a b c d buf) h (i32 (kernel (e :: h)).1, (kernel (e :: h)).2) [e].
Proof. done. Qed.

(** How often a capability is removed from the process's own space. *)
Definition is_remove (cap : Z) (c : kcall) : bool :=
  bool_decide (cnum c = SYSCALL_CSPACE_CAP_REMOVE) && bool_decide (carg c = [C4_CURRENT_CSPACE; u32 cap; 0; 0]).

Definition removes (cap : Z) (cs : list kcall) : nat := length (List.filter (is_remove cap) cs).

Lemma removes_app cap cs ds : removes cap (cs ++ ds) = (removes cap cs + removes cap ds)%nat.
Proof. unfold removes. rewrite List.filter_app, length_app. done. Qed.

(** The endpoint the next [c4_msg_create_sync] answers. *)
Definition fresh_endpoint (h : list kcall) : Z :=
  i32 (kernel (mk_call SYSCALL_SYNC_CREATE [0; 0; 0; 0] no_msg :: h)).1.

Lemma removes_self l buf cap cs :
  l = [C4_CURRENT_CSPACE; u32 cap; 0; 0] →
  removes cap (mk_call SYSCALL_CSPACE_CAP_REMOVE l buf :: cs) = S (removes cap cs).
Proof.
  intros ->. unfold removes, is_remove. cbn [List.filter cnum carg].
  rewrite !bool_decide_eq_true_2 by done. done.
Qed.

Lemma removes_other c cap cs :
  cnum c ≠ SYSCALL_CSPACE_CAP_REMOVE → removes cap (c :: cs) = removes cap cs.
Proof.
  intros Hc. unfold removes, is_remove. cbn [List.filter].
  rewrite bool_decide_eq_false_2 by done. done.
Qed.

(** Whatever the kernel answers, the endpoint made is removed once, and
    nothing else is. *)
Definition releases {A} (m : K A) (h : list kcall) : Prop :=
  ∃ v cs, does m h v cs ∧
    removes (fresh_endpoint h) cs = 1%nat ∧
    length (List.filter (λ c, bool_decide (cnum c = SYSCALL_CSPACE_CAP_REMOVE)) cs) = 1%nat.
End kernel.

(** Step through straight-line kernel code, splitting on what it tests. *)
Ltac run_kernel :=
  repeat (unfold does, c4_send_temp_endpoint, c4_msg_create_sync, c4_msg_create_async, c4_cspace_grant, c4_msg_send,
    c4_msg_recieve, c4_msg_recieve_async, c4_msg_send_async, c4_cspace_remove, c4_addrspace_map, c4_addrspace_unmap,
    sys, do_syscall, mbind, M_bind, mret, M_ret; cbn [fst snd]).

(** The calls in front of the history [h] in [l]. *)
Ltac history_before l h :=
  lazymatch l with
  | h => constr:(@nil kcall)
  | ?c :: ?t => let r := history_before t h in constr:(c :: r)
  end.

Ltac give_history h :=
  lazymatch goal with
  | |- context [Ret (?v, ?l) = Ret _] => let cs := history_before l h in exists v, cs
  end.

Ltac count_removes :=
  repeat first [rewrite removes_self by done | rewrite removes_other by done]; done.

Section claims.
Context `{KernelEnv}.

(** Whatever the kernel answers, the stubs that talk to a pager or a
    block device on a temporary endpoint remove that endpoint from the
    process's capability space exactly once, and remove nothing else: no path
    leaks it, not even the failed ones. *)
Theorem stubs_release_endpoint pager virt perms n id msg obj h :
  releases (pager_request_pages pager perms n) h ∧
  releases (pager_request_pages_map pager virt perms n) h ∧
  releases (block_access id msg obj) h.
Proof.
  unfold releases, pager_request_pages, pager_request_pages_map, block_access.
  split_and!; run_kernel; fold (fresh_endpoint h);
    (destruct (fresh_endpoint h <? 0)); give_history h; split_and!; first [done | count_removes].
Qed.

(** [c4_interrupt_unsubscribe] asks the kernel to subscribe: the call it
    makes is the one [c4_interrupt_subscribe] makes for interrupt [endpoint]
    and endpoint 0, and no unsubscribe call is ever issued. *)
Theorem unsubscribe_subscribes endpoint h :
  c4_interrupt_unsubscribe endpoint h = c4_interrupt_subscribe (u32 endpoint) 0 h ∧
  ∃ v, does (c4_interrupt_unsubscribe endpoint) h v [mk_call SYSCALL_INTERRUPT_SUBSCRIBE [u32 endpoint; 0; 0; 0] no_msg].
Proof. split; [done|]. by eexists. Qed.
End claims.

(** ** Kernels to evaluate programs on, scripted on the calls made so far *)
Definition scripted (f : list kcall → Z * message) : KernelEnv := {|
  kernel := f;
  CAP_ACCESS := 1; CAP_MODIFY := 2; CAP_MULTI_USE := 4; CAP_SHARE := 8;
  PAGE_READ := 1; PAGE_WRITE := 2;
  MESSAGE_TYPE_GRANT_OBJECT := 10; MESSAGE_TYPE_END_RESERVED := 256;
  MESSAGE_ASYNC_BLOCK := 1;
  IO_PORT_IN_BYTE := 0; IO_PORT_IN_WORD := 1; IO_PORT_IN_DWORD := 2;
  IO_PORT_OUT_BYTE := 3; IO_PORT_OUT_WORD := 4; IO_PORT_OUT_DWORD := 5;
  SYSCALL_INFO_GET_ID := 0
|}.

(** Every call is answered with the same value and message. *)
Definition steady (v : Z) (m : message) : KernelEnv := scripted (λ _, (v, m)).
