(* ===== verification/Mem.v ===== *)
(** Memory objects ([libraries/c4rt/src/mem.c], [include/c4rt/mem.h]): a page
    capability with the address it is mapped at.  The general-purpose region
    ([get_genregion]) is used through the region interface; the kernel and the
    pager are parameters. *)

From S2P Require Import Prelude Interfaces Kernel.
#[local] Open Scope Z_scope.

(** [c4_mem_object_t]. *)
Record c4_mem_object := mk_memobj { vaddr : Z; page_obj : Z; permissions : Z; mapped : bool }.

(** The process: what it asked the kernel so far, and the general-purpose
    region when it was initialized. *)
Record process (R : Type) := mk_process { p_hist : list kcall; p_region : option R }.
Arguments mk_process {R}.
Arguments p_hist {R}.
Arguments p_region {R}.

Section mem.
Context `{KernelEnv} {R : Type} `{Allocator R}.
Abbreviation P := (M (process R)).

Definition on_kernel {A} (m : K A) : P A := zoom p_hist (λ h s, mk_process h (p_region s)) m.

(** Only called when there is a region. *)
Definition on_region {A} (m : M R A) : P A := λ s,
  match p_region s with
  | None => UB
  | Some r => match m r with
              | Ret (a, r') => Ret (a, mk_process (p_hist s) (Some r'))
              | UB => UB
              | NoFuel => NoFuel
              end
  end.

(** [get_genregion() != NULL] *)
Definition get_genregion : P bool := gets (λ s, bool_decide (is_Some (p_region s))).

Definition c4_page_to_cap_perms (page_perms : Z) : Z :=
  let ret := Z.lor CAP_MULTI_USE CAP_SHARE in
  let ret := if truthy (Z.land page_perms PAGE_READ) then Z.lor ret CAP_ACCESS else ret in
  if truthy (Z.land page_perms PAGE_WRITE) then Z.lor ret CAP_MODIFY else ret.

Definition c4_memobj_make (obj va perms : Z) : c4_mem_object := mk_memobj va obj perms false.

(** The object is passed by reference: the result carries it. *)
Definition c4_memobj_map (obj : c4_mem_object) (addrspace : Z) : K (bool * c4_mem_object) :=
  if mapped obj then mret (true, obj)
  else
    ret ← c4_addrspace_map addrspace (page_obj obj) (vaddr obj) (permissions obj);
    let m := 0 <=? ret in
    mret (m, mk_memobj (vaddr obj) (page_obj obj) (permissions obj) m).

Definition c4_memobj_unmap (obj : c4_mem_object) (addrspace : Z) : K (bool * c4_mem_object) :=
  if negb (mapped obj) then mret (false, obj)
  else
    c4_addrspace_unmap addrspace (vaddr obj);;
    mret (false, mk_memobj (vaddr obj) (page_obj obj) (permissions obj) false).

Definition c4_memobj_region_map (obj : Z) (memobj : c4_mem_object) (size perms : Z) : P (bool * c4_mem_object) :=
  g ← get_genregion;
  if negb g then mret (false, memobj)
  else
    ptr ← on_region (al_alloc size);
    if ptr =? 0 then mret (false, memobj)
    else on_kernel (c4_memobj_map (c4_memobj_make obj ptr perms) C4_CURRENT_ADDRSPACE).

Definition c4_memobj_region_unmap (memobj : c4_mem_object) : P (bool * c4_mem_object) :=
  g ← get_genregion;
  if negb g then mret (false, memobj)
  else
    r ← on_kernel (c4_memobj_unmap memobj C4_CURRENT_ADDRSPACE);
    on_region (al_free (vaddr r.2));;
    mret (true, r.2).

Definition c4_memobj_alloc (memobj : c4_mem_object) (size perms : Z) : P (bool * c4_mem_object) :=
  let n_pages := pager_size_to_pages size in
  page ← on_kernel (pager_request_pages C4_PAGER perms n_pages);
  c4_memobj_region_map (u32 page) memobj size perms.

Definition c4_memobj_destroy (obj : c4_mem_object) : K unit :=
  c4_cspace_remove C4_CURRENT_CSPACE (page_obj obj);; mret tt.

Definition c4_memobj_free (memobj : c4_mem_object) : P c4_mem_object :=
  r ← c4_memobj_region_unmap memobj;
  on_kernel (c4_memobj_destroy r.2);;
  mret r.2.

Definition SHARE_MAGIC : Z := 0xdeadbeef.

(** [C4_ERROR_NONE] is 0. *)
Definition c4_memobj_share (memobj : c4_mem_object) (endpoint : Z) : K Z :=
  c4_msg_send (mk_msg SHARE_MAGIC [permissions memobj]) endpoint;;
  let perms := c4_page_to_cap_perms (permissions memobj) in
  temp ← c4_cspace_grant (page_obj memobj) endpoint perms;
  if temp <? 0 then mret temp
  else
    temp ← c4_cspace_grant (page_obj memobj) endpoint (caps [CAP_ACCESS; CAP_MODIFY; CAP_MULTI_USE; CAP_SHARE]);
    if temp <? 0 then mret temp else mret 0.

Definition c4_memobj_recieve (va endpoint : Z) : K c4_mem_object :=
  r ← c4_msg_recieve endpoint;
  r' ← c4_msg_recieve endpoint;
  mret (mk_memobj va (mget r'.2 5) (mget r.2 0) false).
End mem.

(** ** Stepping through process code *)
Section steps.
Context `{KernelEnv} {R : Type} `{Allocator R}.

Lemma on_kernel_does {A} (m : K A) h (r : option R) v cs :
  does m h v cs → on_kernel m (mk_process h r) = Ret (v, mk_process (cs ++ h) r).
Proof. unfold does, on_kernel, zoom. simpl. by intros ->. Qed.

Lemma on_region_ok {A} (m : M R A) h r v r' :
  m r = Ret (v, r') → on_region m (mk_process h (Some r)) = Ret (v, mk_process h (Some r')).
Proof. unfold on_region. simpl. by intros ->. Qed.

Lemma request_pages_total pager perms n h : ∃ v cs, does (pager_request_pages pager perms n) h v cs.
Proof.
  unfold pager_request_pages. run_kernel. fold (fresh_endpoint h).
  destruct (fresh_endpoint h <? 0); give_history h; done.
Qed.

Definition map_call (o : c4_mem_object) : kcall :=
  mk_call SYSCALL_ADDRSPACE_MAP [C4_CURRENT_ADDRSPACE; u32 (page_obj o); u32 (vaddr o); permissions o] no_msg.
Definition unmap_call (o : c4_mem_object) : kcall :=
  mk_call SYSCALL_ADDRSPACE_UNMAP [C4_CURRENT_ADDRSPACE; u32 (vaddr o); 0; 0] no_msg.
Definition remove_call (o : c4_mem_object) : kcall :=
  mk_call SYSCALL_CSPACE_CAP_REMOVE [C4_CURRENT_CSPACE; u32 (page_obj o); 0; 0] no_msg.

Lemma map_does o h : mapped o = false →
  let b := 0 <=? i32 (kernel (map_call o :: h)).1 in
  does (c4_memobj_map o C4_CURRENT_ADDRSPACE) h (b, mk_memobj (vaddr o) (page_obj o) (permissions o) b) [map_call o].
Proof. intros Hm. unfold c4_memobj_map. rewrite Hm. done. Qed.

Lemma memobj_free_ok `{!RegionLaws R} o h r : mapped o = true → al_inv r → al_room r → vaddr o ∈ al_live r →
  ∃ o' r', c4_memobj_free o (mk_process h (Some r)) = Ret (o', mk_process (remove_call o :: unmap_call o :: h) (Some r')) ∧
    mapped o' = false ∧ al_inv r' ∧ al_live r' = al_live r ∖ {[vaddr o]}.
Proof.
  intros Hm Hi Hro Hl. destruct (va_free_ok _ _ Hi Hro Hl) as (r' & E & Hi' & Hl').
  eexists (mk_memobj (vaddr o) (page_obj o) (permissions o) false), r'. split; [|done].
  unfold c4_memobj_free, c4_memobj_region_unmap, c4_memobj_unmap. rewrite Hm.
  unfold mbind, M_bind, get_genregion, gets. simpl. unfold on_region. simpl. rewrite E. done.
Qed.
End steps.

Section claims.
Context `{KernelEnv} {R : Type} `{RegionLaws R}.

(** C27: [c4_memobj_alloc] always returns.  When it succeeds the object is
    mapped at an address the region had not handed out, over the page object
    the pager answered, and [c4_memobj_free] then unmaps that address, removes
    that page object and gives the region back what it had, as long as the
    region has room to do so.  When it fails,
    either the region refused and nothing was handed out, or the kernel refused
    the mapping and the address stays allocated. *)
Theorem memobj_alloc_free o size perms h r :
  al_inv r → al_room r → 0 < size < 2 ^ 31 →
  ∃ b o' h' r', c4_memobj_alloc o size perms (mk_process h (Some r)) = Ret ((b, o'), mk_process h' (Some r')) ∧ al_inv r' ∧
    if b : bool then
      mapped o' = true ∧ permissions o' = perms ∧ vaddr o' ∉ al_live r ∧ al_live r' = {[vaddr o']} ∪ al_live r ∧
      head h' = Some (map_call o') ∧
      (al_room r' → ∃ o'' r'', c4_memobj_free o' (mk_process h' (Some r')) =
          Ret (o'', mk_process (remove_call o' :: unmap_call o' :: h') (Some r'')) ∧
        al_inv r'' ∧ al_live r'' = al_live r)
    else (o' = o ∧ al_live r' = al_live r) ∨
         (mapped o' = false ∧ vaddr o' ∉ al_live r ∧ al_live r' = {[vaddr o']} ∪ al_live r).
Proof.
  intros Hi Hroom Hsz. unfold c4_memobj_alloc.
  destruct (request_pages_total C4_PAGER perms (pager_size_to_pages size) h) as (page & cs & Ep).
  rewrite (bind_run _ _ _ _ _ (on_kernel_does _ _ _ _ _ Ep)). unfold c4_memobj_region_map.
  rewrite (bind_run get_genregion _ _ true (mk_process (cs ++ h) (Some r))) by done. cbn [negb].
  destruct (va_alloc_ok _ _ Hi Hroom Hsz) as (a & r' & E & Hi' & Ha).
  rewrite (bind_run _ _ _ _ _ (on_region_ok _ _ _ _ _ E)).
  destruct Ha as [[-> Hl]|(Ha & Hna & Hl)].
  { rewrite Z.eqb_refl. exists false, o, (cs ++ h), r'. naive_solver. }
  rewrite (proj2 (Z.eqb_neq a 0) Ha).
  set (o1 := c4_memobj_make (u32 page) a perms).
  rewrite (on_kernel_does _ _ (Some r') _ _ (map_does o1 (cs ++ h) eq_refl)). cbn zeta.
  destruct (0 <=? _).
  - eexists true, _, _, r'. split; [reflexivity|]. split; [done|]. split_and!; try done.
    intros Hroom'. edestruct (memobj_free_ok (mk_memobj a (u32 page) perms true) ([map_call o1] ++ cs ++ h) r' eq_refl Hi' Hroom')
      as (o'' & r'' & Ef & _ & Hi'' & Hl''); [simpl; rewrite Hl; clear; set_solver|].
    exists o'', r''. split_and!; [exact Ef|done|]. rewrite Hl'', Hl. simpl. clear -Hna. set_solver.
  - eexists false, _, _, r'. split; [reflexivity|]. split; [done|]. right. done.
Qed.

(** Messages a sequence of calls puts on an endpoint, a grant included, and
    messages it takes from one. *)
Definition puts_on (ep : Z) (c : kcall) : bool :=
  match cnum c with
  | SYSCALL_SYNC_SEND | SYSCALL_CSPACE_CAP_GRANT => bool_decide (carg c !! 1%nat = Some (u32 ep))
  | _ => false
  end.
Definition takes_from (ep : Z) (c : kcall) : bool :=
  match cnum c with
  | SYSCALL_SYNC_RECIEVE => bool_decide (carg c !! 1%nat = Some (u32 ep))
  | _ => false
  end.
Definition count (f : kcall → bool) (cs : list kcall) : nat := length (List.filter f cs).

(** Sharing and receiving a memory object do not match.  Whenever
    [c4_memobj_share] reports success it has put three messages on the
    endpoint, the object being granted twice; [c4_memobj_recieve] takes two. *)
Theorem share_recieve_mismatch o ep h va h2 :
  (∃ v cs, does (c4_memobj_share o ep) h v cs ∧ (v = 0 → count (puts_on ep) cs = 3%nat)) ∧
  (∃ v cs, does (c4_memobj_recieve va ep) h2 v cs ∧ count (takes_from ep) cs = 2%nat).
Proof.
  unfold c4_memobj_share, c4_memobj_recieve. split; run_kernel.
  - repeat match goal with |- context [?a <? 0] => destruct (Z.ltb_spec a 0) end; give_history h;
      (split; [done|intros Hv]); try lia; unfold count, puts_on; cbn; rewrite !bool_decide_true by done; done.
  - give_history h2. split; [done|]. unfold count, takes_from. cbn. by rewrite !bool_decide_true.
Qed.
End claims.

Lemma memobj_alloc_free_witness :
  let _ := steady 7 (mk_msg 0 [0; 0; 0; 0; 0; 9]) in
  ∃ o' h' r', c4_memobj_alloc (mk_memobj 0 0 0 false) 5000 3 (mk_process [] (Some Bump.start))
      = Ret ((true, o'), mk_process h' (Some r')) ∧
    page_obj o' = 9 ∧ vaddr o' ∉ al_live Bump.start.
Proof.
  intros env.
  destruct (memobj_alloc_free (mk_memobj 0 0 0 false) 5000 3 [] Bump.start Bump.start_inv I ltac:(lia))
    as (b & o' & h' & r' & E & _ & Hb).
  assert (b = true ∧ page_obj o' = 9) as [-> Ho] by (vm_compute in E; injection E as <- <- <- <-; done).
  exists o', h', r'. split_and!; [exact E|exact Ho|apply Hb].
Defined.
