(* ===== verification/Nameserver.v ===== *)
(** The name server ([programs/nameserver/src/main.c]) and the stubs its
    clients use ([include/nameserver/nameserver.h]): names are hashes, bound to
    endpoints in a table of 512 entries that is filled from the front. *)

From S2P Require Import Prelude Kernel.
#[local] Open Scope Z_scope.

(** ** Client stubs *)
Definition NAME_BIND : Z := 0x1024.
Definition NAME_UNBIND : Z := 0x1025.
Definition NAME_LOOKUP : Z := 0x1026.
Definition NAME_LOOKUP_FAILED : Z := 0x1028.

(** A name is the list of its [char]s, the terminator left out. *)
Definition nameserver_hash (str : list Z) : Z :=
  foldl (λ hash c, u32 (u32 (Z.shiftl hash 7) + hash + c)) 757 str.

Section stubs.
Context `{KernelEnv}.

Definition nameserver_bind (server : Z) (name : list Z) (endpoint : Z) : K unit :=
  temp ← c4_send_temp_endpoint server;
  c4_get_id;;
  c4_msg_send (mk_msg NAME_BIND [nameserver_hash name]) temp;;
  c4_cspace_grant endpoint temp (caps [CAP_MODIFY; CAP_MULTI_USE; CAP_SHARE]);;
  c4_cspace_remove C4_CURRENT_CSPACE temp;;
  mret tt.

Definition nameserver_lookup_hash (server hash : Z) : K Z :=
  c4_get_id;;
  responseq ← c4_send_temp_endpoint server;
  c4_msg_send (mk_msg NAME_LOOKUP [hash]) responseq;;
  r ← c4_msg_recieve responseq;
  c4_cspace_remove C4_CURRENT_CSPACE responseq;;
  if mtype r.2 =? MESSAGE_TYPE_GRANT_OBJECT then c4_get_id;; mret (mget r.2 5) else mret 0.

Definition nameserver_lookup (server : Z) (name : list Z) : K Z :=
  c4_get_id;;
  responseq ← c4_send_temp_endpoint server;
  c4_msg_send (mk_msg NAME_LOOKUP [nameserver_hash name]) responseq;;
  r ← c4_msg_recieve responseq;
  c4_cspace_remove C4_CURRENT_CSPACE responseq;;
  if mtype r.2 =? MESSAGE_TYPE_GRANT_OBJECT then c4_get_id;; mret (mget r.2 5) else mret 0.
End stubs.

(** ** The table *)

(** [name_entry_t]: [hash] is unsigned, [endpoint] signed. *)
Record name_entry := mk_entry { ehash : Z; eendpoint : Z }.

Definition MAX_NAME_ENTRIES : nat := 512.

Abbreviation names_t := (list name_entry).

(** The index [bind_name] stops at: the name's own entry, the first unused
    one, or the end of the table. *)
Fixpoint bind_index (names : names_t) (name : Z) (i : nat) : nat :=
  match names with
  | [] => i
  | e :: rest =>
      if ehash e =? 0 then i
      else if name =? ehash e then i
      else bind_index rest name (S i)
  end.

(** Writing past the table is undefined. *)
Definition bind_name (endpoint name : Z) : M names_t unit := λ names,
  let i := bind_index names name 0 in
  match zset names (Z.of_nat i) (mk_entry name (i32 endpoint)) with
  | Some names' => Ret (tt, names')
  | None => UB
  end.

Fixpoint lookup_name (names : names_t) (name : Z) : Z :=
  match names with
  | [] => 0
  | e :: rest =>
      if ehash e =? 0 then 0
      else if name =? ehash e then u32 (eendpoint e)
      else lookup_name rest name
  end.

(** ** The server *)
Record server := mk_server { names : names_t; s_hist : list kcall }.

Section server.
Context `{KernelEnv}.
Abbreviation S := (M server).

Definition sk {A} (m : K A) : S A := zoom s_hist (λ h s, mk_server (names s) h) m.
Definition sn {A} (m : M names_t A) : S A := zoom names (λ n s, mk_server n (s_hist s)) m.

Definition handle_bind (endpoint hash : Z) : S unit := sn (bind_name endpoint hash).

Definition handle_lookup (responseq hash : Z) (forward : bool) : S unit :=
  s ← get;
  let obj := i32 (lookup_name (names s) hash) in
  let perms := caps [CAP_MODIFY; CAP_SHARE; CAP_MULTI_USE] in
  let not_found := sk (c4_msg_send (mk_msg NAME_LOOKUP_FAILED []) responseq);; mret tt in
  (if 0 <? obj then sk (c4_cspace_grant obj responseq perms);; mret tt
   else if forward then
     o ← sk (nameserver_lookup_hash C4_NAMESERVER hash);
     let obj := i32 o in
     if 0 <? obj then
       sk (c4_cspace_grant obj responseq perms);;
       sk (c4_cspace_remove C4_CURRENT_CSPACE obj);;
       mret tt
     else not_found
   else not_found);;
  sk (c4_cspace_remove C4_CURRENT_CSPACE responseq);;
  mret tt.

(** The body of the main loop. *)
Definition serve_one (forward : bool) : S unit :=
  sk c4_get_id;;
  m0 ← sk (c4_msg_recieve C4_SERV_PORT);
  let temp := i32 (mget m0.2 5) in
  m1 ← sk (c4_msg_recieve temp);
  let msg := m1.2 in
  (if mtype msg =? NAME_LOOKUP then handle_lookup (u32 temp) (mget msg 0) forward
   else if mtype msg =? NAME_BIND then
     let id := i32 (mget msg 0) in
     m2 ← sk (c4_msg_recieve temp);
     let obj := i32 (mget m2.2 5) in
     handle_bind (u32 obj) (u32 id)
   else mret tt);;
  sk (c4_cspace_remove C4_CURRENT_CSPACE temp);;
  mret tt.

(** ["--no-forward"]; an argument is the list of its characters. *)
Definition NO_FORWARD : list Z := [45; 45; 110; 111; 45; 102; 111; 114; 119; 97; 114; 100].

Definition forward_lookups (argv : list (list Z)) : bool :=
  foldl (λ f arg, if bool_decide (arg = NO_FORWARD) then false else f) true argv.

(** The first [n] turns of [while (true)]. *)
Definition main (argv : list (list Z)) (n : nat) : S unit :=
  for_loop n 0 (λ _, serve_one (forward_lookups argv)).
End server.

(** ** The table is a map *)

(** Used entries first, each name once; the rest of the table is unused. *)
Record table_ok (t : names_t) (used : names_t) : Prop := {
  tok_len : length t = MAX_NAME_ENTRIES;
  tok_split : ∃ pad, t = used ++ pad ∧ Forall (λ e, ehash e = 0) pad;
  tok_used : Forall (λ e, ehash e ≠ 0) used;
  tok_nodup : NoDup (ehash <$> used)
}.

(** What the table means: name to endpoint. *)
Definition bindings (used : names_t) : gmap Z Z := list_to_map ((λ e, (ehash e, u32 (eendpoint e))) <$> used).

Lemma lookup_used used pad name : Forall (λ e, ehash e ≠ 0) used → Forall (λ e, ehash e = 0) pad →
  lookup_name (used ++ pad) name = default 0 (bindings used !! name).
Proof.
  intros Hu Hp. unfold bindings. induction Hu as [|e used He Hu IH]; simpl.
  - destruct Hp as [|e pad Hp]; simpl; [|rewrite Hp, Z.eqb_refl]; by rewrite lookup_empty.
  - rewrite (proj2 (Z.eqb_neq _ _) He). destruct (Z.eqb_spec name (ehash e)) as [->|Hne].
    + by rewrite lookup_insert_eq.
    + by rewrite lookup_insert_ne.
Qed.

Lemma bind_index_spec used pad name i : name ≠ 0 → Forall (λ e, ehash e ≠ 0) used → Forall (λ e, ehash e = 0) pad →
  NoDup (ehash <$> used) →
  (name ∉ ehash <$> used ∧ bind_index (used ++ pad) name i = (i + length used)%nat) ∨
  (∃ X e Y, used = X ++ e :: Y ∧ ehash e = name ∧ bind_index (used ++ pad) name i = (i + length X)%nat).
Proof.
  intros Hn Hu Hp. revert i. induction Hu as [|e used He Hu IH]; intros i Hd; simpl.
  - left. split; [apply not_elem_of_nil|]. destruct Hp as [|e pad He]; simpl; [|rewrite He; simpl]; lia.
  - rewrite (proj2 (Z.eqb_neq _ _) He). apply NoDup_cons in Hd as [Hne Hd].
    destruct (Z.eqb_spec name (ehash e)) as [->|Hn2].
    + right. exists [], e, used. split_and!; [done..|simpl; lia].
    + destruct (IH (Datatypes.S i) Hd) as [[Hni E]|(X & e' & Y & -> & En & E)].
      * left. split; [by apply not_elem_of_cons|]. rewrite E. lia.
      * right. exists (e :: X), e', Y. split_and!; [done..|]. rewrite E. simpl. lia.
Qed.

Lemma bindings_app X Y : bindings (X ++ Y) = bindings X ∪ bindings Y.
Proof. unfold bindings. by rewrite fmap_app, list_to_map_app. Qed.

Lemma bindings_None X name : name ∉ ehash <$> X → bindings X !! name = None.
Proof.
  intros Hn. apply not_elem_of_list_to_map_1. rewrite <- list_fmap_compose. done.
Qed.

Lemma bind_spec t used name ep : table_ok t used → 0 < name < 2 ^ 32 →
  (name ∈ ehash <$> used ∨ (length used < MAX_NAME_ENTRIES)%nat) →
  ∃ t' used', bind_name ep name t = Ret (tt, t') ∧ table_ok t' used' ∧
    bindings used' = <[name := u32 (i32 ep)]> (bindings used).
Proof.
  intros [Hlen (pad & -> & Hp) Hu Hd] Hn Hroom. rewrite length_app in Hlen.
  unfold bind_name.
  destruct (bind_index_spec used pad name 0 ltac:(lia) Hu Hp Hd) as [[Hni E]|(X & e & Y & -> & En & E)]; rewrite E.
  - destruct Hroom as [?|Hroom]; [done|]. destruct pad as [|p pad]; [simpl in Hlen; lia|].
    rewrite zset_lt by (rewrite length_app; simpl; lia). simpl.
    rewrite Nat2Z.id, insert_app_r_alt, Nat.sub_diag by lia. simpl. apply Forall_cons in Hp as [_ Hp].
    exists (used ++ mk_entry name (i32 ep) :: pad), (used ++ [mk_entry name (i32 ep)]). split; [done|]. split.
    + split.
      * rewrite length_app in *. simpl in *. lia.
      * exists pad. by rewrite <- app_assoc.
      * apply Forall_app. split; [done|]. constructor; [simpl; lia|constructor].
      * rewrite fmap_app. apply NoDup_app. split; [done|]. split; [|apply NoDup_singleton].
        intros x Hx ->%list_elem_of_singleton. done.
    + rewrite bindings_app. unfold bindings at 2. simpl. rewrite insert_empty.
      rewrite insert_union_singleton_r by (by apply bindings_None). done.
  - rewrite zset_lt by (rewrite !length_app; simpl; lia). simpl. rewrite Nat2Z.id, <- app_assoc.
    rewrite insert_app_r_alt, Nat.sub_diag by lia. simpl.
    exists (X ++ mk_entry name (i32 ep) :: Y ++ pad), (X ++ mk_entry name (i32 ep) :: Y). split; [done|]. subst name.
    apply Forall_app in Hu as [HX [He HY]%Forall_cons]. rewrite fmap_app in Hd. simpl in Hd.
    split.
    + split.
      * rewrite length_app in *. simpl in *. rewrite length_app in *. simpl in *. lia.
      * exists pad. by rewrite <- app_assoc.
      * apply Forall_app. split; [done|]. by constructor.
      * by rewrite fmap_app.
    + apply NoDup_app in Hd as (_ & Hd & _). unfold bindings. rewrite !fmap_app, !list_to_map_app. simpl.
      rewrite insert_union_r by (apply bindings_None; intros Hx; apply (Hd _ Hx); left). by rewrite insert_insert_eq.
Qed.

Lemma size_bindings used : NoDup (ehash <$> used) → size (bindings used) = length used.
Proof.
  induction used as [|e used IH]; [done|].
  intros [Hn Hd]%NoDup_cons. change (bindings (e :: used)) with (<[ehash e := u32 (eendpoint e)]> (bindings used)).
  rewrite map_size_insert_None by (by apply bindings_None). rewrite IH by done. done.
Qed.

(** Bind a sequence of names, in order. *)
Fixpoint bind_all (ops : list (Z * Z)) : M names_t unit :=
  match ops with
  | [] => mret tt
  | (name, ep) :: rest => _ ← bind_name ep name; bind_all rest
  end.

Definition bound (ops : list (Z * Z)) (m : gmap Z Z) : gmap Z Z :=
  foldl (λ m '(name, ep), <[name := u32 (i32 ep)]> m) m ops.

Lemma subset_bound ops m : dom m ⊆ dom (bound ops m).
Proof.
  revert m. induction ops as [|[n e] ops IH]; intros m; [done|]. simpl.
  etrans; [|apply IH]. rewrite dom_insert. clear. set_solver.
Qed.

Lemma bind_all_spec ops t used : table_ok t used → Forall (λ '(name, _), 0 < name < 2 ^ 32) ops →
  (size (bound ops (bindings used)) <= MAX_NAME_ENTRIES)%nat →
  ∃ t' used', bind_all ops t = Ret (tt, t') ∧ table_ok t' used' ∧ bindings used' = bound ops (bindings used).
Proof.
  revert t used. induction ops as [|[n e] ops IH]; intros t used Ht Ho Hs; [by exists t, used|].
  apply Forall_cons in Ho as [Hn Ho]. cbn [bind_all].
  destruct (bind_spec t used n e Ht Hn) as (t1 & used1 & E1 & Ht1 & Eb).
  { destruct (decide (n ∈ ehash <$> used)) as [?|Hni]; [by left|right].
    pose proof (subset_bound ops (<[n := u32 (i32 e)]> (bindings used))) as Hsub%subseteq_size.
    rewrite !size_dom, map_size_insert_None, size_bindings in Hsub by
      (first [by apply bindings_None | apply (tok_nodup _ _ Ht)]).
    cbn [bound foldl] in Hs. unfold bound in Hsub. lia. }
  unfold mbind, M_bind. rewrite E1. cbn [bound foldl] in Hs |- *. fold (bound ops) in Hs |- *.
  rewrite <- Eb in Hs |- *. by apply IH.
Qed.

Definition empty_table : names_t := replicate MAX_NAME_ENTRIES (mk_entry 0 0).

Lemma empty_table_ok : table_ok empty_table [].
Proof.
  split; [apply length_replicate| |constructor|constructor].
  exists empty_table. split; [done|]. by apply Forall_replicate.
Qed.

(** C24: any sequence of bindings of at most 512 different names is accepted,
    and afterwards the name server finds every name at the endpoint it was last
    bound to, and answers 0 for every other name: the table implements a finite
    map. *)
Theorem nameserver_refines_map ops :
  Forall (λ '(name, _), 0 < name < 2 ^ 32) ops →
  (size (bound ops ∅) <= MAX_NAME_ENTRIES)%nat →
  ∃ t, bind_all ops empty_table = Ret (tt, t) ∧
    ∀ name, lookup_name t name = default 0 (bound ops ∅ !! name).
Proof.
  intros Ho Hs. destruct (bind_all_spec ops _ _ empty_table_ok Ho Hs) as (t & used & E & Ht & Eb).
  exists t. split; [done|]. intros name. destruct Ht as [_ (pad & -> & Hp) Hu _].
  rewrite lookup_used by done. by rewrite Eb.
Qed.

Lemma nameserver_refines_map_witness : ∃ t,
  bind_all [(10, 5); (11, 6); (10, 7)] empty_table = Ret (tt, t) ∧ lookup_name t 10 = 7 ∧ lookup_name t 12 = 0.
Proof.
  destruct (nameserver_refines_map [(10, 5); (11, 6); (10, 7)]) as (t & E & Hl).
  - repeat constructor; lia.
  - vm_compute. lia.
  - exists t. rewrite !Hl. split; [exact E|]. split; reflexivity.
Defined.

(** The table has no room check: binding a 513th name writes past its end. *)
Theorem bind_overflows t used name ep :
  table_ok t used → length used = MAX_NAME_ENTRIES → 0 < name → name ∉ ehash <$> used →
  bind_name ep name t = UB.
Proof.
  intros [Hlen (pad & -> & Hp) Hu Hd] Hl Hn Hni. rewrite length_app in Hlen. unfold bind_name.
  destruct (bind_index_spec used pad name 0 ltac:(lia) Hu Hp Hd) as [[_ E]|(X & e & Y & -> & En & E)].
  - rewrite E. unfold zset. rewrite length_app. zbool; simpl; try done; lia.
  - exfalso. apply Hni. rewrite fmap_app, <- En. simpl. apply elem_of_app. right. left.
Qed.

Definition full_table : names_t := (λ i, mk_entry (Z.of_nat i + 1) 3) <$> seq 0 MAX_NAME_ENTRIES.

Lemma bind_overflows_witness : bind_name 9 1000 full_table = UB.
Proof.
  apply (bind_overflows full_table full_table 1000 9).
  - split; [reflexivity| | |].
    + exists []. split; [by rewrite app_nil_r|constructor].
    + apply Forall_fmap, Forall_true. simpl. lia.
    + apply (bool_decide_unpack _). vm_compute. exact I.
  - reflexivity.
  - lia.
  - apply (bool_decide_unpack _). vm_compute. exact I.
Defined.

Section claims.
Context `{KernelEnv}.

(** The messages of the next turn: the grant on the server port and the
    request on the endpoint granted. *)
Definition id_call : kcall := mk_call SYSCALL_INFO [SYSCALL_INFO_GET_ID; 0; 0; 0] no_msg.
Definition recv_call (ep : Z) : kcall := mk_call SYSCALL_SYNC_RECIEVE [0; u32 ep; 0; 0] no_msg.
Definition next_temp (h : list kcall) : Z := i32 (mget (kernel (recv_call C4_SERV_PORT :: id_call :: h)).2 5).
Definition next_request (h : list kcall) : message :=
  (kernel (recv_call (next_temp h) :: recv_call C4_SERV_PORT :: id_call :: h)).2.

(** A lookup leaves the table alone, always finishes, and removes the
    requester's endpoint from the server's capability space twice: once in
    [handle_lookup] and again in the main loop, when the address may already
    name another object. *)
Theorem lookup_removes_twice forward t h :
  mtype (next_request h) = NAME_LOOKUP →
  ∃ cs, serve_one forward (mk_server t h) = Ret (tt, mk_server t (cs ++ h)) ∧
    (2 <= removes (next_temp h) cs)%nat.
Proof.
  intros Ht. unfold serve_one, handle_lookup, nameserver_lookup_hash, sk, zoom, get, c4_get_id, c4_info. run_kernel. cbn [names s_hist].
  fold id_call. fold (recv_call C4_SERV_PORT). fold (next_temp h). fold (recv_call (next_temp h)). fold (next_request h).
  rewrite Ht, Z.eqb_refl.
  assert (∀ c c' l, removes (next_temp h) (mk_call SYSCALL_CSPACE_CAP_REMOVE [C4_CURRENT_CSPACE; u32 (next_temp h); 0; 0] c
     :: mk_call SYSCALL_CSPACE_CAP_REMOVE [C4_CURRENT_CSPACE; u32 (u32 (next_temp h)); 0; 0] c' :: l) =
     S (S (removes (next_temp h) l))) as Hrm by (intros; by rewrite !removes_self by (by autorewrite with c4w)).
  repeat match goal with |- context [if ?b then _ else _] => destruct b; cbn [names s_hist] end;
    (lazymatch goal with |- context [Ret (_, mk_server _ ?l) = _] => let cs := history_before l h in exists cs end);
    (split; [done|]); rewrite Hrm; lia.
Qed.
End claims.

(** A kernel that answers the first receive with a grant and the second with a
    lookup. *)
Definition looker : KernelEnv := scripted (λ h,
  match h with
  | [_; _] => (0, mk_msg 10 [0; 0; 0; 0; 0; 9])
  | [_; _; _] => (0, mk_msg NAME_LOOKUP [77])
  | _ => (7, no_msg)
  end).

Lemma lookup_removes_twice_witness : ∃ cs,
  @serve_one looker false (mk_server empty_table []) = Ret (tt, mk_server empty_table (cs ++ [])) ∧ (2 <= removes 9 cs)%nat.
Proof. apply (@lookup_removes_twice looker false empty_table []). reflexivity. Defined.
