(* ===== verification/Connman.v ===== *)
(** The connection manager ([libraries/c4rt/src/connman.c],
    [include/c4rt/connman.h]): clients connect to a server over a temporary
    endpoint, get a random client number, and hand over two asynchronous
    endpoints and a shared page.  The server keeps its clients in a tree ordered
    by client number. *)

From S2P Require Import Prelude Interfaces Kernel Mem RingBuffer AndTree Prng.
#[local] Open Scope Z_scope.

Definition C4RT_CONNMAN_CONNECT : Z := 0xdabd00d.
Definition C4RT_CONNMAN_DISCONNECT : Z := C4RT_CONNMAN_CONNECT + 1.
Definition C4RT_CONNMAN_CLIENT_ID : Z := C4RT_CONNMAN_CONNECT + 2.
Definition C4RT_CONNMAN_NEW_MESSAGE : Z := C4RT_CONNMAN_CONNECT + 3.

(** [c4rt_conn_t]; [prog_data] and [ringbuf] are pointers. *)
Record c4rt_conn := mk_conn {
  server_port : Z; async_to : Z; async_from : Z; client_id : Z; prog_data : Z;
  bufobj : c4_mem_object; ringbuf : Z
}.

Definition blank_conn : c4rt_conn := mk_conn 0 0 0 0 0 (mk_memobj 0 0 0 false) 0.
Definition sizeof_conn : Z := 40.

Definition set_client_id (v : Z) (c : c4rt_conn) : c4rt_conn :=
  mk_conn (server_port c) (async_to c) (async_from c) v (prog_data c) (bufobj c) (ringbuf c).
Definition set_async_from (v : Z) (c : c4rt_conn) : c4rt_conn :=
  mk_conn (server_port c) (async_to c) v (client_id c) (prog_data c) (bufobj c) (ringbuf c).
Definition set_async_to (v : Z) (c : c4rt_conn) : c4rt_conn :=
  mk_conn (server_port c) v (async_from c) (client_id c) (prog_data c) (bufobj c) (ringbuf c).
Definition set_buf (o : c4_mem_object) (c : c4rt_conn) : c4rt_conn :=
  mk_conn (server_port c) (async_to c) (async_from c) (client_id c) (prog_data c) o (vaddr o).

(** ** The client *)

(** A client process and the page it shares, as the ring buffer that lives
    there. *)
Record client (R : Type) := mk_client { c_proc : process R; c_ring : c4_ringbuf }.
Arguments mk_client {R}.
Arguments c_proc {R}.
Arguments c_ring {R}.

Section client.
Context `{KernelEnv} {R : Type} `{Allocator R}.
Abbreviation C := (M (client R)).

Definition on_proc {A} (m : M (process R) A) : C A := zoom c_proc (λ p s, mk_client p (c_ring s)) m.
Definition on_ring {A} (m : M c4_ringbuf A) : C A := zoom c_ring (λ b s, mk_client (c_proc s) b) m.
Definition ck {A} (m : K A) : C A := on_proc (on_kernel m).

Definition all_caps : Z := caps [CAP_ACCESS; CAP_MODIFY; CAP_MULTI_USE; CAP_SHARE].

(** The buffer is written to at once: a page that could not be mapped faults. *)
Definition c4rt_connman_connect (conn : c4rt_conn) (server : Z) : C (bool * c4rt_conn) :=
  to ← ck c4_msg_create_async;
  from ← ck c4_msg_create_async;
  b ← on_proc (c4_memobj_alloc (bufobj conn) PAGE_SIZE (Z.lor PAGE_READ PAGE_WRITE));
  (if b.1 : bool then on_ring (c4_ringbuf_init PAGE_SIZE) else ub);;
  temppoint ← ck (c4_send_temp_endpoint server);
  ck (c4_msg_send (mk_msg C4RT_CONNMAN_CONNECT []) temppoint);;
  r ← ck (c4_msg_recieve temppoint);
  ck (c4_cspace_grant to temppoint all_caps);;
  ck (c4_cspace_grant from temppoint all_caps);;
  ck (c4_cspace_grant (page_obj b.2) temppoint all_caps);;
  ck (c4_cspace_remove C4_CURRENT_CSPACE temppoint);;
  mret (true, mk_conn server (u32 to) (u32 from) (mget r.2 0) (prog_data conn) b.2 (vaddr b.2)).

Definition c4rt_connman_disconnect (conn : c4rt_conn) : C c4rt_conn :=
  ck (c4_msg_send (mk_msg C4RT_CONNMAN_DISCONNECT []) (server_port conn));;
  ck (c4_cspace_remove C4_CURRENT_CSPACE (async_to conn));;
  ck (c4_cspace_remove C4_CURRENT_CSPACE (async_from conn));;
  o ← on_proc (c4_memobj_free (bufobj conn));
  mret (mk_conn (server_port conn) (async_to conn) (async_from conn) (client_id conn) (prog_data conn) o (ringbuf conn)).
End client.

Section messages.
Context `{KernelEnv}.

Definition c4rt_connman_send (conn : c4rt_conn) (msg : message) : K bool :=
  c4_msg_send_async msg (async_to conn);;
  c4_msg_send (mk_msg C4RT_CONNMAN_NEW_MESSAGE [client_id conn]) (server_port conn);;
  mret true.

(** The kernel's answer as a [bool]: every value but 0 is true. *)
Definition c4rt_connman_recv (conn : c4rt_conn) (block : bool) : K (bool * message) :=
  r ← c4_msg_recieve_async (async_from conn) (if block then MESSAGE_ASYNC_BLOCK else 0);
  mret (truthy r.1, r.2).

Definition c4rt_connman_call (conn : c4rt_conn) (msg : message) : K (bool * message) :=
  check ← c4rt_connman_send conn msg;
  if Z.b2z check <? 0 then mret (true, msg)
  else c4rt_connman_recv conn true.

Definition c4rt_connman_server_respond (conn : c4rt_conn) (msg : message) : K unit :=
  c4_msg_send_async msg (async_to conn);; mret tt.
End messages.

(** ** The server *)

(** [c4rt_conn_server_t] with the process it runs in: the tree and its nodes,
    the clients' records by address, the random generator's state. *)
Record cserver (R H : Type) := mk_cserver {
  cv_proc : process R;
  cv_tree : anstate H;
  cv_conns : gmap Z c4rt_conn;
  cv_port : Z;
  cv_prng : Z
}.
Arguments mk_cserver {R H}.
Arguments cv_proc {R H}.
Arguments cv_tree {R H}.
Arguments cv_conns {R H}.
Arguments cv_port {R H}.
Arguments cv_prng {R H}.

Section server.
Context `{KernelEnv} {R : Type} `{Allocator R} {HT : Type} `{Allocator HT}.
Context (lf : bool) (fuel : nat).
Abbreviation V := (M (cserver R HT)).

Definition vp {A} (m : M (process R) A) : V A :=
  zoom cv_proc (λ p s, mk_cserver p (cv_tree s) (cv_conns s) (cv_port s) (cv_prng s)) m.
Definition vk {A} (m : K A) : V A := vp (on_kernel m).
Definition vt {A} (m : M (anstate HT) A) : V A :=
  zoom cv_tree (λ t s, mk_cserver (cv_proc s) t (cv_conns s) (cv_port s) (cv_prng s)) m.
Definition vr {A} (m : M Z A) : V A :=
  zoom cv_prng (λ r s, mk_cserver (cv_proc s) (cv_tree s) (cv_conns s) (cv_port s) r) m.
Definition set_conns (f : gmap Z c4rt_conn → gmap Z c4rt_conn) : V unit :=
  modify (λ s, mk_cserver (cv_proc s) (cv_tree s) (f (cv_conns s)) (cv_port s) (cv_prng s)).
Definition load_conn (a : Z) : V c4rt_conn := getsome (λ s, cv_conns s !! a).
Definition upd_conn (a : Z) (f : c4rt_conn → c4rt_conn) : V unit := c ← load_conn a; set_conns (insert a (f c)).

Definition connman_get_client_id (cs : gmap Z c4rt_conn) (a : Z) : Z := i32 (from_option client_id 0 (cs !! a)).

Definition tree_op {A} (op : (Z → Z) → M (anstate HT) A) : V A :=
  s ← get; vt (op (connman_get_client_id (cv_conns s))).

Definition c4rt_connman_server_init (port : Z) : V unit :=
  vt andtree_init;;
  modify (λ s, mk_cserver (cv_proc s) (cv_tree s) (cv_conns s) port (cv_prng s)).

(** The labels of the C function, as the code that runs from there. *)
Definition error_preconn (temp : Z) : V Z := vk (c4_cspace_remove C4_CURRENT_CSPACE temp);; mret 0.

Definition error_out (temp new_client : Z) : V Z :=
  c ← load_conn new_client;
  tree_op (λ k, andtree_remove_key k fuel (i32 (client_id c)));;
  vt (on_heap (al_free new_client));;
  set_conns (delete new_client);;
  error_preconn temp.

(** Receive an object on the temporary endpoint, [k] goes on with its address. *)
Definition recv_object (temp new_client : Z) (k : Z → V Z) : V Z :=
  m ← vk (c4_msg_recieve temp);
  if negb (mtype m.2 =? MESSAGE_TYPE_GRANT_OBJECT) then error_out temp new_client
  else k (mget m.2 5).

(** [0] is [NULL]; a failed [calloc] is a null dereference. *)
Definition handle_connect (temp : Z) : V Z :=
  m ← vk (c4_msg_recieve temp);
  if negb (mtype m.2 =? C4RT_CONNMAN_CONNECT) then error_preconn temp
  else
    new_client ← vt (on_heap (al_alloc sizeof_conn));
    if new_client =? 0 then ub
    else
      set_conns (insert new_client blank_conn);;
      id ← vr (c4rt_prng_u32 lf);
      upd_conn new_client (set_client_id id);;
      tree_op (λ k, andtree_insert k fuel new_client);;
      vk (c4_msg_send (mk_msg C4RT_CONNMAN_CLIENT_ID (id :: tail (mdata m.2))) temp);;
      recv_object temp new_client (λ o,
        upd_conn new_client (set_async_from o);;
        recv_object temp new_client (λ o,
          upd_conn new_client (set_async_to o);;
          recv_object temp new_client (λ obj,
            c ← load_conn new_client;
            b ← vp (c4_memobj_region_map obj (bufobj c) PAGE_SIZE (Z.lor PAGE_READ PAGE_WRITE));
            upd_conn new_client (set_buf b.2);;
            mret new_client))).

Definition handle_new_message (buf : message) (client : Z) : V (Z * message) :=
  node ← tree_op (λ k, andtree_find_key k fuel (i32 client));
  if decide (node = PNull) then mret (0, buf)
  else
    n ← vt (load node);
    let conn := ndata n in
    c ← load_conn conn;
    r ← vk (c4_msg_recieve_async (async_from c) 0);
    if r.1 =? 0 then mret (0, r.2) else mret (conn, r.2).

(** One turn of the listening loop: the connection, [0] to go on. *)
Definition listen_step (buf : message) : V (Z * message) :=
  s ← get;
  m ← vk (c4_msg_recieve (cv_port s));
  let temp := mget m.2 5 in
  if mtype m.2 =? MESSAGE_TYPE_GRANT_OBJECT then handle_connect temp;; mret (0, buf)
  else if mtype m.2 =? C4RT_CONNMAN_DISCONNECT then mret (0, buf)
  else if mtype m.2 =? C4RT_CONNMAN_NEW_MESSAGE then handle_new_message buf (mget m.2 0)
  else mret (0, buf).

(** [turns] bounds the messages looked at. *)
Fixpoint c4rt_connman_server_listen (turns : nat) (buf : message) : V (Z * message) :=
  match turns with
  | O => nofuel
  | S n => r ← listen_step buf;
           if r.1 =? 0 then c4rt_connman_server_listen n r.2 else mret r
  end.
End server.
