(* ===== verification/ConnmanSpec.v ===== *)
(** What the connection manager promises: the server's tree is a registry from
    client numbers to connections, a handshake adds exactly one entry or none,
    messages are given to the connection they name, and both ends of a new
    connection agree. *)

From S2P Require Import Prelude Interfaces Kernel Mem RingBuffer AATree AndTree AndTreeRep AndTreeInsert AndTreeRemove AndTreeFind Prng Connman.
#[local] Open Scope Z_scope.

Lemma i32_inj x y : 0 <= x < 2 ^ 32 → 0 <= y < 2 ^ 32 → i32 x = i32 y → x = y.
Proof. intros Hx Hy. unfold wraps. rewrite !Z.mod_small by lia. cbv zeta. zbool; lia. Qed.

(** ** What arrives on an endpoint *)
Definition recv_call (ep : Z) : kcall := mk_call SYSCALL_SYNC_RECIEVE [0; u32 ep; 0; 0] no_msg.
Definition forget_call (ep : Z) : kcall := mk_call SYSCALL_CSPACE_CAP_REMOVE [C4_CURRENT_CSPACE; u32 ep; 0; 0] no_msg.
Definition takes (ep : Z) (cs : list kcall) : nat := length (filter (λ c, c = recv_call ep) cs).

Section registry.
Context `{KernelEnv} {R : Type} `{RegionLaws R} {HT : Type} `{AllocatorLaws HT}.
Context (lf : bool) (fuel : nat).
Implicit Types (s : cserver R HT) (t : aatree) (reg : gmap Z Z).

(** From the history [h0] on, the messages received on [ep] are [msgs], in
    order. *)
Definition delivers (ep : Z) (msgs : list message) (h0 : list kcall) : Prop :=
  ∀ cs, (kernel (recv_call ep :: cs ++ h0)).2 = default no_msg (msgs !! takes ep cs).

(** What a complete handshake hands over: the endpoint to receive from, the one
    to send to and the page. *)
Definition handshake (msgs : list message) : option (Z * Z * Z) :=
  let m i := default no_msg (msgs !! i) in
  let granted i := mtype (m i) =? MESSAGE_TYPE_GRANT_OBJECT in
  if (mtype (m 0%nat) =? C4RT_CONNMAN_CONNECT) && (granted 1%nat && (granted 2%nat && granted 3%nat))
  then Some (mget (m 1%nat) 5, mget (m 2%nat) 5, mget (m 3%nat) 5) else None.

Definition cv_hist s : list kcall := p_hist (cv_proc s).
Definition cv_heap s : HT := t_heap (cv_tree s).

(** The registry is what the tree holds. *)
Record registered s reg t : Prop := {
  rg_tree : tree_inv (connman_get_client_id (cv_conns s)) (cv_tree s) t;
  rg_nodup : NoDup (elements t);
  rg_reg : ∀ id a, reg !! id = Some a ↔ a ∈ elements t ∧ client_id <$> cv_conns s !! a = Some id;
  rg_ids : ∀ id a, reg !! id = Some a → 0 <= id < 2 ^ 32;
  rg_rec : ∀ a, a ∈ elements t → is_Some (cv_conns s !! a) ∧ a ∈ al_live (cv_heap s) ∧ a ∉ addrs t ∧ a ≠ 0
}.

(** Numbers whose differences fit an [int]: the tree subtracts them. *)
Definition close_ids (id : Z) reg : Prop := ∀ id', is_Some (reg !! id') → - 2 ^ 31 <= i32 id - i32 id' < 2 ^ 31.

Lemma registered_key s reg t a : registered s reg t → a ∈ elements t →
  ∃ id, reg !! id = Some a ∧ connman_get_client_id (cv_conns s) a = i32 id.
Proof.
  intros Hr Ha. destruct (rg_rec _ _ _ Hr a Ha) as ((c & Ec) & _). exists (client_id c).
  split; [apply (rg_reg _ _ _ Hr); by rewrite Ec|]. unfold connman_get_client_id. by rewrite Ec.
Qed.

Lemma registered_cmp s reg t id : registered s reg t → close_ids id reg → cmp_ok (connman_get_client_id (cv_conns s)) (i32 id) t.
Proof.
  intros Hr Hc. apply Forall_forall. intros a Ha. destruct (registered_key s reg t a Hr Ha) as (id' & E & ->). apply Hc. by eexists.
Qed.

(** The state with another process or another tree. *)
Definition with_chist (h : list kcall) s : cserver R HT :=
  mk_cserver (mk_process h (p_region (cv_proc s))) (cv_tree s) (cv_conns s) (cv_port s) (cv_prng s).
Definition with_tree (a : anstate HT) s : cserver R HT := mk_cserver (cv_proc s) a (cv_conns s) (cv_port s) (cv_prng s).
Definition with_conns (cs : gmap Z c4rt_conn) s : cserver R HT := mk_cserver (cv_proc s) (cv_tree s) cs (cv_port s) (cv_prng s).

Lemma vk_ok {A} (m : K A) v h' s : m (cv_hist s) = Ret (v, h') → vk m s = Ret (v, with_chist h' s).
Proof. intros E. unfold vk, vp, on_kernel, zoom, cv_hist in *. by rewrite E. Qed.

Lemma vt_ok {A} (m : M (anstate HT) A) v a s : m (cv_tree s) = Ret (v, a) → vt m s = Ret (v, with_tree a s).
Proof. intros E. unfold vt, zoom. by rewrite E. Qed.

Lemma tree_op_ok {A} (op : (Z → Z) → M (anstate HT) A) v a s :
  op (connman_get_client_id (cv_conns s)) (cv_tree s) = Ret (v, a) → tree_op op s = Ret (v, with_tree a s).
Proof. intros E. unfold tree_op. rewrite (bind_run get _ s s s) by done. by apply vt_ok. Qed.

Lemma upd_conn_ok a c f s : cv_conns s !! a = Some c → upd_conn a f s = Ret (tt, with_conns (<[a := f c]> (cv_conns s)) s).
Proof. intros E. unfold upd_conn. rewrite (bind_run (load_conn a) _ s c s); [done|]. unfold load_conn, getsome. by rewrite E. Qed.

(** ** Messages *)

(** The connection of a client number. *)
Lemma client_node_ok s reg t id : registered s reg t → close_ids id reg → 0 <= id < 2 ^ 32 →
  Z.of_nat (tree_size t) < 2 ^ 31 → (tree_fuel (tree_size t) <= fuel)%nat → ∃ p,
  tree_op (λ k, andtree_find_key k fuel (i32 id)) s = Ret (p, s) ∧
  match reg !! id with
  | None => p = PNull
  | Some a => ∃ n, p ≠ PNull ∧ t_mem (cv_tree s) !! p = Some n ∧ ndata n = a
  end.
Proof.
  intros Hr Hc Hid Hsz Hf.
  destruct (find_key_spec _ fuel (i32 id) t (cv_tree s) (rg_tree _ _ _ Hr) (registered_cmp _ _ _ _ Hr Hc) Hsz Hf) as (p & E & Hp).
  exists p. split. { rewrite (tree_op_ok (λ k, andtree_find_key k fuel (i32 id)) _ _ s E). by destruct s. }
  destruct Hp as [(-> & Hn)|(z & a & -> & Hin & Hk)].
  - destruct (reg !! id) as [a|] eqn:Ea; [|done]. apply (rg_reg _ _ _ Hr) in Ea as Ea'. destruct Ea' as (Ha & Ec).
    destruct (Hn a Ha). unfold connman_get_client_id. destruct (cv_conns s !! a); [|done]. injection Ec as Ec. simpl. by rewrite Ec.
  - assert (a ∈ elements t) as Ha by (apply elem_of_elements_inorder; by exists z).
    destruct (registered_key s reg t a Hr Ha) as (id' & Ea & Ek). rewrite Ek in Hk.
    apply i32_inj in Hk; [|by eapply (rg_ids _ _ _ Hr)|done]. subst id'. rewrite Ea.
    destruct (rep_data _ _ _ _ _ (ts_rep _ _ (ti_state _ _ _ (rg_tree _ _ _ Hr))) Hin) as (n & En & Ed). by exists n.
Qed.

Definition async_recv_call (ep flags : Z) : kcall := mk_call SYSCALL_ASYNC_RECIEVE [0; u32 ep; u32 flags; 0] no_msg.

(** What the notice of a message from client [id] leads to. *)
Definition message_result (h : list kcall) (conns : gmap Z c4rt_conn) (buf : message) (o : option Z) : Z * message * list kcall :=
  match o with
  | None => (0, buf, h)
  | Some a =>
      let h' := async_recv_call (from_option async_from 0 (conns !! a)) 0 :: h in
      (if i32 (kernel h').1 =? 0 then 0 else a, (kernel h').2, h')
  end.

Lemma handle_new_message_ok buf s reg t id : registered s reg t → close_ids id reg → 0 <= id < 2 ^ 32 →
  Z.of_nat (tree_size t) < 2 ^ 31 → (tree_fuel (tree_size t) <= fuel)%nat →
  let r := message_result (cv_hist s) (cv_conns s) buf (reg !! id) in
  handle_new_message fuel buf id s = Ret (r.1, with_chist r.2 s).
Proof.
  intros Hr Hc Hid Hsz Hf r. destruct (client_node_ok s reg t id Hr Hc Hid Hsz Hf) as (p & E & Hp).
  unfold handle_new_message. rewrite (bind_run _ _ _ _ _ E). subst r. destruct (reg !! id) as [a|] eqn:Ea; cbn [message_result].
  - destruct Hp as (n & Hne & En & Ed). rewrite decide_False by done.
    rewrite (bind_run (vt (load p)) _ s n s).
    2:{ rewrite (vt_ok (load p) n (cv_tree s) s); [by destruct s|]. unfold load, getsome. by rewrite En. }
    rewrite Ed. apply (rg_reg _ _ _ Hr) in Ea as (Ha & Ec). destruct (cv_conns s !! a) as [c|] eqn:Ecs; [|done].
    rewrite (bind_run (load_conn a) _ s c s) by (unfold load_conn, getsome; by rewrite Ecs). cbn [from_option].
    set (h' := async_recv_call (async_from c) 0 :: cv_hist s).
    rewrite (bind_run _ _ s _ _ (vk_ok (c4_msg_recieve_async (async_from c) 0) (i32 (kernel h').1, (kernel h').2) h' s eq_refl)).
    cbn [fst snd]. by destruct (i32 (kernel h').1 =? 0).
  - subst p. rewrite decide_True by done. destruct s as [[]]. done.
Qed.

(** ** Adding and taking back an entry *)
Lemma registered_ext s s' reg t : registered s reg t →
  (∀ b, b ∈ elements t → client_id <$> cv_conns s' !! b = client_id <$> cv_conns s !! b) →
  t_root (cv_tree s') = t_root (cv_tree s) → t_nodes (cv_tree s') = t_nodes (cv_tree s) → t_mem (cv_tree s') = t_mem (cv_tree s) →
  al_inv (cv_heap s') → al_live (cv_heap s) ⊆ al_live (cv_heap s') → registered s' reg t.
Proof.
  intros [Ht Hnd Hreg Hids Hrec] Hc Hroot Hn Hm Hi Hl. split; [|done| |done|].
  - apply (tree_inv_key (connman_get_client_id (cv_conns s))).
    { intros d Hd. unfold connman_get_client_id. specialize (Hc d Hd).
      destruct (cv_conns s' !! d), (cv_conns s !! d); simplify_eq/=; [by rewrite Hc|done]. }
    apply (tree_inv_frame _ (cv_tree s)); try done; rewrite ?Hm; try done.
    + apply (ts_sent _ _ (ti_state _ _ _ Ht)).
    + intros z Hz. apply Hl. by apply (ti_live _ _ _ Ht).
  - intros id a. rewrite (Hreg id a). split; intros [Ha E]; (split; [done|]); [by rewrite Hc|by rewrite <-Hc].
  - intros a Ha. destruct (Hrec a Ha) as (Hs & Hal & Hna & Ha0). split_and!; [|by apply Hl|done|done].
    specialize (Hc a Ha). destruct (cv_conns s' !! a); [done|]. destruct Hs as [c Ec]. by rewrite Ec in Hc.
Qed.

Lemma close_insert id a reg : close_ids id reg → close_ids id (<[id := a]> reg).
Proof. intros Hc id' Hs. destruct (decide (id' = id)) as [->|Hne]; [lia|]. rewrite lookup_insert_ne in Hs by done. by apply Hc. Qed.

Lemma register_ok a c s reg t : let id := client_id c in registered s reg t → cv_conns s !! a = Some c →
  a ∉ elements t → a ∉ addrs t → a ≠ 0 → a ∈ al_live (cv_heap s) → reg !! id = None → 0 <= id < 2 ^ 32 → close_ids id reg →
  Z.of_nat (tree_size t) + 1 < 2 ^ 31 → (tree_fuel (tree_size t) <= fuel)%nat → plenty 1 (cv_heap s) → ∃ p s' t',
  tree_op (λ k, andtree_insert k fuel a) s = Ret (p, s') ∧ registered s' (<[id := a]> reg) t' ∧
  tree_size t' = S (tree_size t) ∧ s' = with_tree (cv_tree s') s ∧ al_live (cv_heap s) ⊆ al_live (cv_heap s').
Proof.
  intros id Hr Ec Hne Hna Ha0 Hl Hfresh Hid Hcl Hsz Hf Hp. pose proof Hr as [Ht Hnd Hreg Hids Hrec].
  set (key := connman_get_client_id (cv_conns s)) in *.
  assert (key a = i32 id) as Ek by (unfold key, connman_get_client_id; by rewrite Ec).
  destruct (insert_spec key fuel a t (cv_tree s) Ht) as (z & tr & E & Hz & Hal & Hinv & Eel & _); [|done|exact (plenty_room 0 _ Hp)| |done|].
  { rewrite Ek. by apply (registered_cmp s reg). }
  { apply (plenty_succeeds 0 _ _ Hp). unfold sizeof_andnode. lia. }
  assert (elements (insT key z a t) ≡ₚ a :: elements t) as Hperm by (rewrite Eel; apply insert_list_perm).
  exists (PNode z), (with_tree tr s), (insT key z a t). split; [by apply tree_op_ok|].
  split; [|split; [exact (size_insT key z a t (ti_sorted _ _ _ Ht))|split; [done|unfold cv_heap; cbn; rewrite (proj2 Hal); clear; set_solver]]]. split.
  - exact Hinv.
  - rewrite Hperm. by constructor.
  - intros id' b. rewrite Hperm, elem_of_cons. cbn [cv_conns with_tree]. destruct (decide (id' = id)) as [->|Hd].
    + rewrite lookup_insert_eq. split.
      * intros [= <-]. split; [by left|by rewrite Ec].
      * intros [[->|Hb] Eb]; [done|]. assert (reg !! id = Some b) by (by apply Hreg). congruence.
    + rewrite lookup_insert_ne, Hreg by done. split; intros [Hb Eb]; (split; [|done]); [by right|].
      destruct Hb as [->|Hb]; [|done]. rewrite Ec in Eb. injection Eb as Eb. by destruct Hd.
  - intros id' b. destruct (decide (id' = id)) as [->|Hd]; [done|]. rewrite lookup_insert_ne by done. apply Hids.
  - intros b. rewrite Hperm, elem_of_cons, addrs_insT, elem_of_cons. unfold cv_heap. cbn [cv_conns with_tree cv_tree]. rewrite (proj2 Hal).
    intros [->|Hb].
    + split_and!; [by eexists|clear -Hl; set_solver| |done]. intros [->|?]; done.
    + destruct (Hrec b Hb) as (Hs & Hbl & Hbn & Hb0). split_and!; [done|clear -Hbl; set_solver| |done]. intros [->|?]; done.
Qed.

Lemma error_out_ok temp a c s reg t : let id := client_id c in registered s (<[id := a]> reg) t → cv_conns s !! a = Some c →
  reg !! id = None → close_ids id reg →
  Z.of_nat (tree_size t) < 2 ^ 31 → (tree_fuel (tree_size t) <= fuel)%nat → ∃ s' t',
  error_out fuel temp a s = Ret (0, s') ∧ registered s' reg t' ∧ cv_hist s' = forget_call temp :: cv_hist s ∧
  cv_conns s' = delete a (cv_conns s) ∧ a ∉ al_live (cv_heap s') ∧ cv_proc s' = mk_process (cv_hist s') (p_region (cv_proc s)).
Proof.
  intros id Hr Ec Hfresh Hcl Hsz Hf. pose proof Hr as [Ht Hnd Hreg Hids Hrec].
  assert (a ∈ elements t) as Ha by (apply (Hreg id a); by rewrite lookup_insert_eq).
  set (key := connman_get_client_id (cv_conns s)) in *.
  assert (key a = i32 id) as Ek by (unfold key, connman_get_client_id; by rewrite Ec).
  assert (∀ b, b ∈ elements t → b ≠ a → ∃ id', reg !! id' = Some b ∧ id' ≠ id ∧ client_id <$> cv_conns s !! b = Some id') as Hothers.
  { intros b Hb Hne. destruct (registered_key _ _ _ b Hr Hb) as (id' & E & _). destruct (decide (id' = id)) as [->|Hd].
    - rewrite lookup_insert_eq in E. by injection E as ->.
    - pose proof E as [_ Hcb]%Hreg. rewrite lookup_insert_ne in E by done. by exists id'. }
  destruct (remove_key_spec key fuel a t (cv_tree s) Ht) as (tr & t' & f & E & Hinv & Hperm & Haddr & [Efr Hfl] & _); [|done..| |].
  { rewrite Ek. apply (registered_cmp s (<[id := a]> reg)); [done|]. by apply close_insert. }
  { intros b Hb Hk. destruct (decide (b = a)) as [->|Hne]; [done|]. destruct (registered_key _ _ _ b Hr Hb) as (id' & Eb & Ekb).
    unfold key in Hk. rewrite Ekb in Hk. fold key in Hk. rewrite Ek in Hk. apply i32_inj in Hk; [|by eapply Hids|by apply (Hids id a), lookup_insert_eq].
    subst id'. rewrite lookup_insert_eq in Eb. by injection Eb as ->. }
  rewrite Hperm in Hnd. apply NoDup_cons in Hnd as [Hnin Hnd'].
  destruct (Hrec a Ha) as (_ & Hal & Hana & _).
  assert (f ∈ addrs t) as Hfin by (rewrite Haddr; by left).
  assert (a ∈ al_live (t_heap tr)) as Hal' by (rewrite Hfl; clear -Hal Hana Hfin; set_solver).
  destruct (al_free_ok a (t_heap tr) (ti_heap _ _ _ Hinv) Hal') as (h' & Eh & Hhi & Hhl).
  set (tr' := mk_anstate (t_root tr) (t_nodes tr) h' (t_mem tr)).
  set (s1 := with_tree tr s). set (s2 := with_tree tr' s1). set (s3 := with_conns (delete a (cv_conns s)) s2).
  set (s4 := with_chist (forget_call temp :: cv_hist s) s3).
  exists s4, t'. split.
  { unfold error_out. rewrite (bind_run (load_conn a) _ s c s) by (unfold load_conn, getsome; by rewrite Ec).
    fold id. rewrite <-Ek. rewrite (bind_run _ _ s a s1) by (by apply (tree_op_ok (λ k, andtree_remove_key k fuel (key a)))).
    rewrite (bind_run _ _ s1 tt s2). 2:{ apply vt_ok. unfold on_heap, zoom. cbn. by rewrite Eh. }
    rewrite (bind_run (set_conns (delete a)) _ s2 tt s3 eq_refl).
    unfold error_preconn. by rewrite (bind_run _ _ s3 _ s4 (vk_ok (c4_cspace_remove C4_CURRENT_CSPACE temp) _ _ s3 eq_refl)). }
  split; [|split; [done|split; [done|split; [unfold cv_heap; cbn; rewrite Hhl; clear; set_solver|done]]]].
  split; [|done| | |].
  - apply (tree_inv_key key).
    { intros d Hd. unfold key, connman_get_client_id. cbn. rewrite lookup_delete_ne; [done|]. intros <-. done. }
    apply (tree_inv_frame _ tr); try done.
    + apply (ts_sent _ _ (ti_state _ _ _ Hinv)).
    + intros z Hz. cbn. rewrite Hhl. apply elem_of_difference. split; [by apply (ti_live _ _ _ Hinv)|].
      rewrite elem_of_singleton. intros ->. apply Hana. rewrite Haddr. by right.
  - intros id' b. cbn [cv_conns s4 s3 with_chist with_conns]. split.
    + intros Eb. assert (id' ≠ id) as Hd by congruence.
      assert (<[id := a]> reg !! id' = Some b) as Eb' by (by rewrite lookup_insert_ne).
      apply Hreg in Eb' as [Hb Eb']. rewrite Hperm in Hb. apply elem_of_cons in Hb as [->|Hb].
      * rewrite Ec in Eb'. by injection Eb' as Eb'.
      * split; [done|]. rewrite lookup_delete_ne; [done|]. by intros <-.
    + intros [Hb Eb]. assert (b ≠ a) as Hne by (by intros ->). rewrite lookup_delete_ne in Eb by done.
      destruct (Hothers b) as (id'' & E1 & _ & E2); [rewrite Hperm; by right|done|]. rewrite Eb in E2. by injection E2 as ->.
  - intros id' b Eb. apply (Hids id' b). rewrite lookup_insert_ne; [done|]. intros <-. congruence.
  - intros b Hb. assert (b ≠ a) as Hne by (by intros ->). destruct (Hrec b) as (Hs & Hbl & Hbn & Hb0); [rewrite Hperm; by right|].
    cbn [cv_conns s4 s3 with_chist with_conns]. rewrite lookup_delete_ne by done. split_and!; [done| | |done].
    + unfold cv_heap. cbn. rewrite Hhl, Hfl. clear -Hbl Hbn Hne Hfin. set_solver.
    + intros Hz. apply Hbn. rewrite Haddr. by right.
Qed.

(** ** The handshake *)

(** A client record [a] with number [id] that is in the tree already. *)
Record pending (a id : Z) reg t s : Prop := {
  pd_reg : registered s (<[id := a]> reg) t;
  pd_conn : ∃ c, cv_conns s !! a = Some c ∧ client_id c = id
}.

Lemma pending_chist a id reg t h s : pending a id reg t s → pending a id reg t (with_chist h s).
Proof.
  intros [Hr Hc]. split; [|done]. apply (registered_ext s); try done. apply (ti_heap _ _ _ (rg_tree _ _ _ Hr)).
Qed.

Lemma pending_upd a id reg t c c' s : pending a id reg t s → cv_conns s !! a = Some c → client_id c' = client_id c →
  pending a id reg t (with_conns (<[a := c']> (cv_conns s)) s).
Proof.
  intros [Hr (c0 & Ec0 & Hid)] Ec Hc'. rewrite Ec in Ec0. injection Ec0 as <-. split.
  - apply (registered_ext s); try done; [|apply (ti_heap _ _ _ (rg_tree _ _ _ Hr))].
    intros b _. cbn. destruct (decide (b = a)) as [->|Hne]; [|by rewrite lookup_insert_ne].
    rewrite lookup_insert_eq, Ec. simpl. by rewrite Hc'.
  - exists c'. cbn. rewrite lookup_insert_eq. split; [done|]. by rewrite Hc'.
Qed.

Lemma takes_recv ep cs : takes ep (recv_call ep :: cs) = S (takes ep cs).
Proof. unfold takes. by rewrite filter_cons_True. Qed.

Lemma takes_other ep c cs : cnum c ≠ SYSCALL_SYNC_RECIEVE → takes ep (c :: cs) = takes ep cs.
Proof. intros Hc. unfold takes. rewrite filter_cons_False; [done|]. intros ->. by apply Hc. Qed.

Lemma takes_app ep cs ds : takes ep (cs ++ ds) = (takes ep cs + takes ep ds)%nat.
Proof. unfold takes. by rewrite filter_app, length_app. Qed.

Lemma recv_object_run temp a (k : Z → M (cserver R HT) Z) s : let h := recv_call temp :: cv_hist s in
  recv_object fuel temp a k s =
  (if negb (mtype (kernel h).2 =? MESSAGE_TYPE_GRANT_OBJECT) then error_out fuel temp a else k (mget (kernel h).2 5)) (with_chist h s).
Proof. intros h. unfold recv_object. by rewrite (bind_run _ _ s _ _ (vk_ok (c4_msg_recieve temp) (i32 (kernel h).1, (kernel h).2) h s eq_refl)). Qed.

(** What a failed handshake leaves. *)
Definition refused (temp a : Z) reg s s' : Prop := ∃ t', registered s' reg t' ∧ head (cv_hist s') = Some (forget_call temp) ∧
  ∀ b, b ≠ a → cv_conns s' !! b = cv_conns s !! b.

Lemma refused_ok temp a id reg t s : pending a id reg t s → reg !! id = None → close_ids id reg →
  Z.of_nat (tree_size t) < 2 ^ 31 → (tree_fuel (tree_size t) <= fuel)%nat → ∃ s',
  error_out fuel temp a s = Ret (0, s') ∧ refused temp a reg s s'.
Proof.
  intros [Hr (c & Ec & <-)] Hf Hc Hsz Hfu.
  destruct (error_out_ok temp a c s reg t Hr Ec Hf Hc Hsz Hfu) as (s' & t' & E & Hr' & Hh & Hcs & _).
  exists s'. split; [done|]. exists t'. split_and!; [done|by rewrite Hh|]. intros b Hb. rewrite Hcs. by rewrite lookup_delete_ne.
Qed.

(** Mapping the page handed over. *)
Lemma region_map_ok obj o perms h (r : R) : al_inv r → al_room r → ∃ b o' h' r',
  c4_memobj_region_map obj o PAGE_SIZE perms (mk_process h (Some r)) = Ret ((b, o'), mk_process h' (Some r')) ∧
  (∃ cs, h' = cs ++ h) ∧ (mapped o = false → mapped o' = true → page_obj o' = obj ∧ head h' = Some (map_call o')).
Proof.
  intros Hi Hro. unfold c4_memobj_region_map. rewrite (bind_run get_genregion _ _ true (mk_process h (Some r))) by done. cbn [negb].
  destruct (va_alloc_ok PAGE_SIZE r Hi Hro ltac:(unfold PAGE_SIZE; lia)) as (a & r' & E & _ & Ha).
  rewrite (bind_run _ _ _ _ _ (on_region_ok _ _ _ _ _ E)). destruct (Z.eqb_spec a 0) as [->|Hne].
  - exists false, o, h, r'. split; [done|]. split; [by exists []|]. intros -> ?. done.
  - set (o1 := c4_memobj_make obj a perms). rewrite (on_kernel_does _ _ (Some r') _ _ (map_does o1 h eq_refl)). cbn zeta.
    eexists _, _, _, r'. split; [reflexivity|]. split; [by exists [map_call o1]|]. done.
Qed.

(** A connection with nothing but its number; the endpoints and the page come
    in three messages. *)
Definition fresh_conn (id : Z) : c4rt_conn := set_client_id id blank_conn.

(** Up to the answer that carries the number. *)
Lemma connect_begins temp id seed' reg t s : registered s reg t → plenty 2 (cv_heap s) →
  Z.of_nat (tree_size t) + 1 < 2 ^ 31 → (tree_fuel (tree_size t) <= fuel)%nat →
  c4rt_prng_u32 lf (cv_prng s) = Ret (id, seed') → 0 <= id < 2 ^ 32 → reg !! id = None → close_ids id reg →
  let h1 := recv_call temp :: cv_hist s in mtype (kernel h1).2 = C4RT_CONNMAN_CONNECT → ∃ a s' t' x,
  handle_connect lf fuel temp s = recv_object fuel temp a (λ o,
    upd_conn a (set_async_from o);;
    recv_object fuel temp a (λ o,
      upd_conn a (set_async_to o);;
      recv_object fuel temp a (λ obj,
        c ← load_conn a;
        b ← vp (c4_memobj_region_map obj (bufobj c) PAGE_SIZE (Z.lor PAGE_READ PAGE_WRITE));
        upd_conn a (set_buf b.2);;
        mret a))) s' ∧
  pending a id reg t' s' ∧ a ≠ 0 ∧ a ∉ al_live (cv_heap s) ∧ tree_size t' = S (tree_size t) ∧
  cv_conns s' = <[a := fresh_conn id]> (cv_conns s) ∧ cv_proc s' = mk_process (x :: h1) (p_region (cv_proc s)) ∧
  x = mk_call SYSCALL_SYNC_SEND [0; u32 temp; 0; 0] (mk_msg C4RT_CONNMAN_CLIENT_ID (id :: tail (mdata (kernel h1).2))).
Proof.
  intros Hr Hp Hsz Hf Hprng Hid Hfresh Hcl h1 Hty. unfold handle_connect.
  rewrite (bind_run _ _ s _ _ (vk_ok (c4_msg_recieve temp) (i32 (kernel h1).1, (kernel h1).2) h1 s eq_refl)). cbn [fst snd].
  rewrite Hty, Z.eqb_refl. cbn [negb]. set (s1 := with_chist h1 s).
  pose proof Hr as [Ht Hnd Hreg Hids Hrec].
  destruct (alloc_plenty 1 sizeof_conn (cv_heap s) (ti_heap _ _ _ Ht) Hp ltac:(unfold sizeof_conn; lia)) as (a & hp & [Ea Hal] & Ha0 & Hna & Hhi & Hp1).
  set (tr1 := mk_anstate (t_root (cv_tree s)) (t_nodes (cv_tree s)) hp (t_mem (cv_tree s))). set (s2 := with_tree tr1 s1).
  rewrite (bind_run _ _ s1 a s2). 2:{ apply vt_ok. unfold on_heap, zoom. change (t_heap (cv_tree s1)) with (cv_heap s). by rewrite Ea. }
  rewrite (proj2 (Z.eqb_neq _ _) Ha0). set (s3 := with_conns (<[a := blank_conn]> (cv_conns s)) s2).
  rewrite (bind_run (set_conns (insert a blank_conn)) _ s2 tt s3 eq_refl).
  set (s4 := mk_cserver (cv_proc s3) (cv_tree s3) (cv_conns s3) (cv_port s3) seed').
  rewrite (bind_run (vr (c4rt_prng_u32 lf)) _ s3 id s4). 2:{ unfold vr, zoom. change (cv_prng s3) with (cv_prng s). by rewrite Hprng. }
  set (s5 := with_conns (<[a := fresh_conn id]> (cv_conns s)) s4).
  rewrite (bind_run _ _ s4 tt s5).
  2:{ rewrite (upd_conn_ok a blank_conn (set_client_id id) s4) by (cbn; apply lookup_insert_eq). cbn. by rewrite insert_insert_eq. }
  assert (a ∉ elements t) as Hne by (intros Ha; by destruct (Hrec a Ha) as (_ & ? & _)).
  assert (registered s5 reg t) as Hr5.
  { apply (registered_ext s); try done.
    - intros b Hb. cbn. rewrite lookup_insert_ne; [done|]. by intros <-.
    - unfold cv_heap at 2. cbn. rewrite Hal. clear. set_solver. }
  assert (cv_conns s5 !! a = Some (fresh_conn id)) as Ec5 by (cbn; apply lookup_insert_eq).
  destruct (register_ok a (fresh_conn id) s5 reg t Hr5 Ec5 Hne) as (p & s6 & t' & E6 & Hr6 & Hsz' & Es6 & _); try done.
  { intros Hin. apply Hna. by apply (ti_live _ _ _ Ht). }
  { unfold cv_heap. cbn. rewrite Hal. clear. set_solver. }
  assert (cv_conns s6 = cv_conns s5 ∧ cv_proc s6 = cv_proc s5) as [Ec6 Ep6] by (by rewrite Es6).
  rewrite (bind_run _ _ _ _ _ E6). set (msg := mk_msg C4RT_CONNMAN_CLIENT_ID (id :: tail (mdata (kernel h1).2))).
  set (x := mk_call SYSCALL_SYNC_SEND [0; u32 temp; 0; 0] msg). set (s7 := with_chist (x :: cv_hist s6) s6).
  rewrite (bind_run _ _ s6 (i32 (kernel (x :: cv_hist s6)).1) s7) by (by apply (vk_ok (c4_msg_send msg temp))).
  exists a, s7, t', x. split; [done|]. split.
  { apply pending_chist. split; [done|]. exists (fresh_conn id). by rewrite Ec6. }
  split_and!; try done. unfold s7, with_chist, cv_hist. cbn. by rewrite Ep6.
Qed.

Lemma handle_connect_ok temp msgs id seed' reg t (r : R) s : registered s reg t →
  p_region (cv_proc s) = Some r → al_inv r → al_room r → plenty 2 (cv_heap s) →
  Z.of_nat (tree_size t) + 1 < 2 ^ 31 → (tree_fuel (tree_size t) <= fuel)%nat → (tree_fuel (S (tree_size t)) <= fuel)%nat →
  c4rt_prng_u32 lf (cv_prng s) = Ret (id, seed') → 0 <= id < 2 ^ 32 → reg !! id = None → close_ids id reg →
  delivers temp msgs (cv_hist s) → ∃ a s' t',
  handle_connect lf fuel temp s = Ret (a, s') ∧
  match handshake msgs with
  | Some (from, to, page) => a ≠ 0 ∧ registered s' (<[id := a]> reg) t' ∧ ∃ o,
      cv_conns s' !! a = Some (mk_conn 0 to from id 0 o (vaddr o)) ∧
      (mapped o = true → page_obj o = page ∧ head (cv_hist s') = Some (map_call o)) ∧
      ∃ rest, mk_call SYSCALL_SYNC_SEND [0; u32 temp; 0; 0] (mk_msg C4RT_CONNMAN_CLIENT_ID (id :: rest)) ∈ cv_hist s'
  | None => a = 0 ∧ registered s' reg t' ∧ head (cv_hist s') = Some (forget_call temp)
  end ∧ ∀ b, b ∈ al_live (cv_heap s) → cv_conns s' !! b = cv_conns s !! b.
Proof.
  intros Hr Hrg Hri Hrr Hp Hsz Hf Hf' Hprng Hid Hfresh Hcl Hdel.
  pose proof (Hdel []) as Hm0. unfold handshake. cbv zeta. set (m := λ i, default no_msg (msgs !! i)).
  change (default no_msg (msgs !! takes temp [])) with (m 0%nat) in Hm0. change ([] ++ cv_hist s) with (cv_hist s) in Hm0.
  fold (m 0%nat) (m 1%nat) (m 2%nat) (m 3%nat). set (h1 := recv_call temp :: cv_hist s) in *.
  destruct (Z.eqb_spec (mtype (m 0%nat)) C4RT_CONNMAN_CONNECT) as [Hty|Hty]; cbn [andb].
  2:{ exists 0. set (s1 := with_chist h1 s). set (s2 := with_chist (forget_call temp :: h1) s1). exists s2, t.
      unfold handle_connect. rewrite (bind_run _ _ s _ _ (vk_ok (c4_msg_recieve temp) (i32 (kernel h1).1, (kernel h1).2) h1 s eq_refl)).
      cbn [fst snd]. rewrite Hm0, (proj2 (Z.eqb_neq _ _) Hty). cbn [negb]. fold s1. unfold error_preconn.
      rewrite (bind_run _ _ s1 _ s2 (vk_ok (c4_cspace_remove C4_CURRENT_CSPACE temp) _ _ s1 eq_refl)).
      split; [done|]. split; [|done]. split_and!; [done| |done]. apply (registered_ext s); try done.
      apply (ti_heap _ _ _ (rg_tree _ _ _ Hr)). }
  destruct (connect_begins temp id seed' reg t s Hr Hp Hsz Hf Hprng Hid Hfresh Hcl) as
    (a & s1 & t1 & x & E & Hpd & Ha0 & Hna & Hsz1 & Ecs & Epr & Hxe); [exact (eq_trans (f_equal mtype Hm0) Hty)|]. rewrite E.
  fold h1 in Hxe. assert (cnum x = SYSCALL_SYNC_SEND) as Hx by (by rewrite Hxe). fold h1 in Epr.
  assert (cv_hist s1 = x :: h1) as Eh1 by (unfold cv_hist; by rewrite Epr).
  assert (∀ s2, pending a id reg t1 s2 → (∀ b, b ≠ a → cv_conns s2 !! b = cv_conns s !! b) → ∃ a' s' t',
    error_out fuel temp a s2 = Ret (a', s') ∧ (a' = 0 ∧ registered s' reg t' ∧ head (cv_hist s') = Some (forget_call temp)) ∧
    ∀ b, b ∈ al_live (cv_heap s) → cv_conns s' !! b = cv_conns s !! b) as Hrefuse.
  { intros s2 Hpd2 Hb2. destruct (refused_ok temp a id reg t1 s2 Hpd2 Hfresh Hcl) as (s' & E2 & t' & Hr' & Hh' & Hc'); [lia|by rewrite Hsz1|].
    exists 0, s', t'. split_and!; [done..|]. intros b Hb. assert (b ≠ a) by (by intros ->). rewrite Hc', Hb2; done. }
  assert (∀ b, b ≠ a → cv_conns s1 !! b = cv_conns s !! b) as Hb1 by (intros b Hb; rewrite Ecs; by rewrite lookup_insert_ne).
  assert (∀ cs, (kernel (recv_call temp :: cs ++ x :: h1)).2 = m (S (takes temp cs))) as Hnext.
  { intros cs. specialize (Hdel (cs ++ [x; recv_call temp])). rewrite <-(assoc_L (++)) in Hdel. etransitivity; [exact Hdel|].
    assert (takes temp [x; recv_call temp] = 1%nat) as Et by (rewrite takes_other, takes_recv by (by rewrite Hx); done).
    unfold m. do 2 f_equal. by rewrite takes_app, Et, Nat.add_1_r. }
  (* the endpoint to receive from *)
  rewrite recv_object_run. rewrite Eh1. pose proof (Hnext []) as Hm1. cbn [app takes] in Hm1. rewrite Hm1.
  change (m (S (takes temp []))) with (m 1%nat). set (h3 := recv_call temp :: x :: h1).
  destruct (mtype (m 1%nat) =? MESSAGE_TYPE_GRANT_OBJECT); cbn [negb andb].
  2:{ apply Hrefuse; [by apply pending_chist|done]. }
  set (s2 := with_chist h3 s1). set (from := mget (m 1%nat) 5).
  assert (cv_conns s2 !! a = Some (fresh_conn id)) as Ec2 by (cbn; rewrite Ecs; apply lookup_insert_eq).
  rewrite (bind_run _ _ _ _ _ (upd_conn_ok a _ (set_async_from from) s2 Ec2)). set (c3 := set_async_from from (fresh_conn id)).
  set (s3 := with_conns _ s2). assert (pending a id reg t1 s3) as Hpd3.
  { apply (pending_upd _ _ _ _ (fresh_conn id)); [by apply pending_chist|done|done]. }
  (* the endpoint to send to *)
  rewrite recv_object_run. change (cv_hist s3) with h3. pose proof (Hnext [recv_call temp]) as Hm2. cbn [app] in Hm2. fold h3 in Hm2.
  rewrite Hm2, takes_recv. change (m (S (S (takes temp [])))) with (m 2%nat). set (h4 := recv_call temp :: h3).
  destruct (mtype (m 2%nat) =? MESSAGE_TYPE_GRANT_OBJECT); cbn [negb andb].
  2:{ apply Hrefuse; [by apply pending_chist|]. intros b Hb. cbn. rewrite lookup_insert_ne by done. by apply Hb1. }
  set (s4 := with_chist h4 s3). set (to := mget (m 2%nat) 5).
  assert (cv_conns s4 !! a = Some c3) as Ec4 by (cbn; apply lookup_insert_eq).
  rewrite (bind_run _ _ _ _ _ (upd_conn_ok a _ (set_async_to to) s4 Ec4)). set (c5 := set_async_to to c3).
  set (s5 := with_conns _ s4). assert (pending a id reg t1 s5) as Hpd5.
  { apply (pending_upd _ _ _ _ c3); [by apply pending_chist|done|done]. }
  (* the page *)
  rewrite recv_object_run. change (cv_hist s5) with h4. pose proof (Hnext [recv_call temp; recv_call temp]) as Hm3. cbn [app] in Hm3.
  fold h3 h4 in Hm3. rewrite Hm3, !takes_recv. change (m (S (S (S (takes temp []))))) with (m 3%nat). set (h5 := recv_call temp :: h4).
  destruct (mtype (m 3%nat) =? MESSAGE_TYPE_GRANT_OBJECT); cbn [negb].
  2:{ apply Hrefuse; [by apply pending_chist|]. intros b Hb. cbn. rewrite !lookup_insert_ne by done. by apply Hb1. }
  set (s6 := with_chist h5 s5). set (page := mget (m 3%nat) 5).
  assert (cv_conns s6 !! a = Some c5) as Ec6 by (cbn; apply lookup_insert_eq).
  rewrite (bind_run (load_conn a) _ s6 c5 s6) by (unfold load_conn, getsome; by rewrite Ec6).
  destruct (region_map_ok page (bufobj c5) (Z.lor PAGE_READ PAGE_WRITE) h5 r Hri Hrr) as (b & o & h' & r' & Em & [cs Hcs] & Ho).
  set (s7 := mk_cserver (mk_process h' (Some r')) (cv_tree s6) (cv_conns s6) (cv_port s6) (cv_prng s6)).
  rewrite (bind_run _ _ s6 (b, o) s7).
  2:{ unfold vp, zoom. assert (cv_proc s6 = mk_process h5 (Some r)) as -> by (cbn; by rewrite Epr, Hrg). by rewrite Em. }
  cbn [snd]. assert (cv_conns s7 !! a = Some c5) as Ec7 by done.
  rewrite (bind_run _ _ _ _ _ (upd_conn_ok a _ (set_buf o) s7 Ec7)). set (s8 := with_conns _ s7).
  exists a, s8, t1. split; [done|]. split.
  - split; [done|]. split.
    + assert (pending a id reg t1 (with_conns (<[a := set_buf o c5]> (cv_conns s6)) s6)) as [Hr8 _].
      { apply (pending_upd _ _ _ _ c5); [by apply pending_chist|done|done]. }
      apply (registered_ext _ s8) in Hr8; try done. apply (ti_heap _ _ _ (rg_tree _ _ _ Hr8)).
    + exists o. split; [cbn; by rewrite lookup_insert_eq|]. split; [by apply Ho|]. exists (tail (mdata (kernel h1).2)).
      rewrite <-Hxe. change (cv_hist s8) with h'. rewrite Hcs. apply elem_of_app. right. unfold h5, h4, h3. do 3 right. left.
  - intros y Hy. assert (y ≠ a) by (by intros ->). cbn. rewrite !lookup_insert_ne by done. by apply Hb1.
Qed.
End registry.

(** ** The theorems *)
Section claims.
Context `{KernelEnv} {R : Type} `{RegionLaws R} {HT : Type} `{AllocatorLaws HT}.
Context (lf : bool) (fuel : nat).
Implicit Types (s : cserver R HT) (t : aatree) (reg : gmap Z Z).

(** The server has memory for one more client and fuel for its tree. *)
Record ready s t : Prop := {
  rd_region : ∃ r, p_region (cv_proc s) = Some r ∧ al_inv r ∧ al_room r;
  rd_heap : plenty 2 (cv_heap s);
  rd_size : Z.of_nat (tree_size t) + 1 < 2 ^ 31;
  rd_fuel : (tree_fuel (tree_size t) <= fuel)%nat ∧ (tree_fuel (S (tree_size t)) <= fuel)%nat
}.

(** The number the next client gets: new, and close to the ones given. *)
Definition next_number (id : Z) reg s : Prop := (∃ z, c4rt_prng_u32 lf (cv_prng s) = Ret (id, z)) ∧ 0 <= id < 2 ^ 32 ∧ reg !! id = None ∧ close_ids id reg.

(** C25: one turn of the server's loop keeps the registry of clients exact.  A
    connection request whose handshake is complete adds one entry, under the next
    number, with the endpoints the other way round and the page that came; an
    incomplete one leaves the registry as it was and gives the temporary
    endpoint back; a message is received from the connection its number names,
    and from no other; everything else changes nothing. *)
Theorem listen_step_correct buf msgs id reg t s : registered s reg t → ready s t →
  let h := recv_call (cv_port s) :: cv_hist s in let m := (kernel h).2 in
  (mtype m = MESSAGE_TYPE_GRANT_OBJECT → next_number id reg s ∧ delivers (mget m 5) msgs h) →
  (mtype m = C4RT_CONNMAN_NEW_MESSAGE → close_ids (mget m 0) reg) → ∃ r s' t',
  listen_step lf fuel buf s = Ret (r, s') ∧
  if mtype m =? MESSAGE_TYPE_GRANT_OBJECT then
    r = (0, buf) ∧
    match handshake msgs with
    | Some (from, to, page) => ∃ a o, a ≠ 0 ∧ registered s' (<[id := a]> reg) t' ∧
        cv_conns s' !! a = Some (mk_conn 0 to from id 0 o (vaddr o)) ∧ (mapped o = true → page_obj o = page)
    | None => registered s' reg t' ∧ head (cv_hist s') = Some (forget_call (mget m 5))
    end
  else
    registered s' reg t' ∧ cv_conns s' = cv_conns s ∧
    (r, cv_hist s') = (if mtype m =? C4RT_CONNMAN_DISCONNECT then ((0, buf), h)
       else if mtype m =? C4RT_CONNMAN_NEW_MESSAGE then message_result h (cv_conns s) buf (reg !! mget m 0)
       else ((0, buf), h)).
Proof.
  intros Hr [(r & Hrg & Hri & Hrr) Hp Hsz [Hf Hf']] h m Hg Hn. unfold listen_step. rewrite (bind_run get _ s s s) by done.
  rewrite (bind_run _ _ s _ _ (vk_ok (c4_msg_recieve (cv_port s)) (i32 (kernel h).1, m) h s eq_refl)). cbn [fst snd]. fold m.
  set (s1 := with_chist h s).
  assert (registered s1 reg t) as Hr1 by (apply (registered_ext s); try done; apply (ti_heap _ _ _ (rg_tree _ _ _ Hr))).
  destruct (Z.eqb_spec (mtype m) MESSAGE_TYPE_GRANT_OBJECT) as [Et|Et].
  - destruct (Hg Et) as (((z & Hprng) & Hid & Hfresh & Hcl) & Hdel).
    destruct (handle_connect_ok lf fuel (mget m 5) msgs id z reg t r s1) as (a & s' & t' & E & Hres & _); try done.
    exists (0, buf), s', t'. rewrite (bind_run _ _ _ _ _ E). split; [done|]. split; [done|].
    destruct (handshake msgs) as [[[from to] page]|].
    + destruct Hres as (Ha & Hr' & o & Ec & Ho & _). exists a, o. split_and!; [done..|]. intros Hmp. by apply Ho.
    + by destruct Hres as (_ & Hr' & Hh).
  - destruct (mtype m =? C4RT_CONNMAN_DISCONNECT); [by exists (0, buf), s1, t|].
    destruct (Z.eqb_spec (mtype m) C4RT_CONNMAN_NEW_MESSAGE) as [Em|Em]; [|by exists (0, buf), s1, t].
    pose proof (handle_new_message_ok fuel buf s1 reg t (mget m 0) Hr1 (Hn Em) (u32_range _) ltac:(lia) Hf) as E. cbv zeta in E.
    change (cv_hist s1) with h in E. change (cv_conns s1) with (cv_conns s) in E. set (res := message_result _ _ _ _) in *.
    exists res.1, (with_chist res.2 s1), t. split; [done|]. split_and!; [|done|by destruct res as [[]]].
    apply (registered_ext s1); try done. apply (ti_heap _ _ _ (rg_tree _ _ _ Hr1)).
Qed.
End claims.

(** ** Both ends of a connection *)

(** What a call puts on the endpoint [ep], as the other side receives it: a
    message as it is, a capability under the number [ρ] gives it there. *)
Definition arrives (grant : Z) (ρ : Z → Z) (ep : Z) (c : kcall) : option message :=
  if bool_decide (carg c !! 1%nat = Some (u32 ep)) then
    match cnum c with
    | SYSCALL_SYNC_SEND => Some (cbuf c)
    | SYSCALL_CSPACE_CAP_GRANT => Some (mk_msg grant [0; 0; 0; 0; 0; ρ (default 0 (head (carg c)))])
    | _ => None
    end
  else None.

Lemma bind_ret_inv {S A B} (m : M S A) (f : A → M S B) s b s' : (m ≫= f) s = Ret (b, s') → ∃ a t, m s = Ret (a, t) ∧ f a t = Ret (b, s').
Proof. unfold mbind, M_bind. destruct (m s) as [[a t]| |]; [by exists a, t|done|done]. Qed.

Definition create_call : kcall := mk_call SYSCALL_SYNC_CREATE [0; 0; 0; 0] no_msg.

Section client_calls.
Context `{KernelEnv} {R : Type} `{Allocator R}.

(** The call [c] is made and its answer used. *)
Lemma ck_call {A} (m : K A) v c (cl : client R) : m (p_hist (c_proc cl)) = Ret (v, c :: p_hist (c_proc cl)) →
  ck m cl = Ret (v, mk_client (mk_process (c :: p_hist (c_proc cl)) (p_region (c_proc cl))) (c_ring cl)).
Proof. intros E. unfold ck, on_proc, on_kernel, zoom. by rewrite E. Qed.

(** What a connect puts on the last endpoint it made. *)
Lemma connect_calls grant ρ conn server (cl cl' : client R) c hs h2 : c4rt_connman_connect conn server cl = Ret ((true, c), cl') →
  p_hist (c_proc cl') = hs ++ create_call :: h2 → create_call ∉ hs →
  let ep := i32 (kernel (create_call :: h2)).1 in 0 <= ep → u32 server ≠ u32 ep →
  omap (arrives grant ρ ep) (rev hs) = [mk_msg C4RT_CONNMAN_CONNECT []; mk_msg grant [0; 0; 0; 0; 0; ρ (async_to c)];
    mk_msg grant [0; 0; 0; 0; 0; ρ (async_from c)]; mk_msg grant [0; 0; 0; 0; 0; ρ (u32 (page_obj (bufobj c)))]] ∧
  ∃ h3, client_id c = mget (kernel (recv_call ep :: h3)).2 0.
Proof.
  intros E Hh Hno ep Hep Hne. unfold c4rt_connman_connect in E.
  apply bind_ret_inv in E as (to & cl1 & _ & E). apply bind_ret_inv in E as (from & cl2 & _ & E).
  apply bind_ret_inv in E as ([ok o] & cl3 & _ & E). apply bind_ret_inv in E as (u & cl4 & _ & E).
  set (h := p_hist (c_proc cl4)) in *. set (e := i32 (kernel (create_call :: h)).1).
  set (at_ h := mk_client (mk_process h (p_region (c_proc cl4))) (c_ring cl4)).
  set (hs0 := if e <? 0 then create_call :: h else mk_call SYSCALL_CSPACE_CAP_GRANT [u32 e; u32 server; all_caps; 0] no_msg :: create_call :: h).
  rewrite (bind_run _ _ cl4 e (at_ hs0)) in E.
  2:{ unfold ck, on_proc, on_kernel, zoom, c4_send_temp_endpoint, c4_msg_create_sync, sys, do_syscall. cbn. munfold. cbn. fold h create_call e.
      unfold hs0. by destruct (e <? 0). }
  pose proof (λ A (m : K A) v k h, ck_call m v k (at_ h)) as Hck. cbn [c_proc c_ring p_hist p_region at_] in Hck.
  do 6 (erewrite bind_run in E; [|apply Hck; reflexivity]). injection E as <- <-. cbn [c_proc p_hist] in Hh.
  destruct (e <? 0) eqn:He.
  - destruct (app_cons_unique create_call hs h2 [_; _; _; _; _; _] h (eq_sym Hh)) as [_ ->]; [|done|].
    { rewrite !not_elem_of_cons. split_and!; try discriminate. apply not_elem_of_nil. }
    change (i32 (kernel (create_call :: h)).1) with e in ep. apply Z.ltb_lt in He. unfold ep in Hep. lia.
  - destruct (app_cons_unique create_call hs h2 [_; _; _; _; _; _; _] h (eq_sym Hh)) as [-> ->]; [|done|].
    { rewrite !not_elem_of_cons. split_and!; try discriminate. apply not_elem_of_nil. }
    change ep with e in Hne |- *. split; [|by eexists].
    cbn [rev app omap list_omap]. unfold arrives. cbn [carg cnum cbuf lookup list_lookup head default from_option].
    rewrite (bool_decide_eq_false_2 (Some (u32 server) = _)) by (by intros [= ?]).
    rewrite !(bool_decide_eq_true_2 (Some (u32 e) = _)) by done. reflexivity.
Qed.
End client_calls.

Section meeting.
Context (Kc Ks : KernelEnv) {R : Type} `{RegionLaws R} {HT : Type} `{AllocatorLaws HT} {R2 : Type} `{Allocator R2}.
Context (lf : bool) (fuel : nat).

(** C26: both ends of a new connection agree.  When what the client's connect put
    on its endpoint is what the server's handshake receives there, and the
    server's answer is what the client received, then the connect, if it
    returns, has met a complete handshake: the server has an entry under the
    client's number that receives where the client sends, sends where the client
    receives, and shares the client's page. *)
Theorem connection_agrees conn server (cl cl' : client R2) c hs h2 ρ temp id reg t (s : cserver R HT) :
  @c4rt_connman_connect Kc R2 _ conn server cl = Ret ((true, c), cl') →
  p_hist (c_proc cl') = hs ++ create_call :: h2 → create_call ∉ hs →
  let ep := i32 (@kernel Kc (create_call :: h2)).1 in 0 <= ep → u32 server ≠ u32 ep →
  registered s reg t → ready fuel s t → next_number lf id reg s →
  delivers temp (omap (arrives MESSAGE_TYPE_GRANT_OBJECT ρ ep) (rev hs)) (cv_hist s) →
  (∀ h, ∃ rest, (@kernel Kc (recv_call ep :: h)).2 = mk_msg C4RT_CONNMAN_CLIENT_ID (id :: rest)) →
  ∃ a s' t' e rest, handle_connect lf fuel temp s = Ret (a, s') ∧ a ≠ 0 ∧
  mk_call SYSCALL_SYNC_SEND [0; u32 temp; 0; 0] (mk_msg C4RT_CONNMAN_CLIENT_ID (id :: rest)) ∈ cv_hist s' ∧
  registered s' (<[client_id c := a]> reg) t' ∧ cv_conns s' !! a = Some e ∧ client_id e = client_id c ∧
  async_from e = u32 (ρ (async_to c)) ∧ async_to e = u32 (ρ (async_from c)) ∧ ringbuf e = vaddr (bufobj e) ∧
  (mapped (bufobj e) = true → page_obj (bufobj e) = u32 (ρ (u32 (page_obj (bufobj c))))).
Proof.
  intros E Hh Hno ep Hep Hne Hr [(r & Hrg & Hri & Hrr) Hp Hsz [Hf Hf']] ((z & Hprng) & Hid & Hfresh & Hcl) Hdel Hans.
  destruct (@connect_calls Kc R2 _ MESSAGE_TYPE_GRANT_OBJECT ρ conn server cl cl' c hs h2 E Hh Hno Hep Hne) as (Emsgs & h3 & Ecid).
  fold ep in Emsgs, Ecid. rewrite Emsgs in Hdel. destruct (Hans h3) as (rest0 & Eans). rewrite Eans in Ecid.
  assert (client_id c = id) as Hcid by (rewrite Ecid; by apply u32_small).
  destruct (handle_connect_ok lf fuel temp _ id z reg t r s Hr Hrg Hri Hrr Hp Hsz Hf Hf' Hprng Hid Hfresh Hcl Hdel)
    as (a & s' & t' & Eh & Hres & _).
  unfold handshake in Hres. cbn [lookup list_lookup default from_option Datatypes.id mtype] in Hres. rewrite !Z.eqb_refl in Hres. cbn [andb] in Hres.
  destruct Hres as (Ha & Hr' & o & Ec & Ho & rest & Hin).
  exists a, s', t', (mk_conn 0 (mget (mk_msg MESSAGE_TYPE_GRANT_OBJECT [0; 0; 0; 0; 0; ρ (async_from c)]) 5)
    (mget (mk_msg MESSAGE_TYPE_GRANT_OBJECT [0; 0; 0; 0; 0; ρ (async_to c)]) 5) id 0 o (vaddr o)), rest.
  rewrite Hcid. split_and!; try done. cbn [bufobj]. intros Hmp. by destruct (Ho Hmp) as [-> _].
Qed.
End meeting.

(** Client numbers are drawn from all 32 bits, but the tree subtracts them in an
    [int]: numbers further apart than that compare the wrong way round.  With
    these five clients the second is registered and cannot be found. *)
Definition far_numbers : list Z := [2294967296; 3294967296; 1000000000; 2000000000; 500000000].
Definition register_all (ids : list Z) : outcome (nptr * anstate Bump.bump) :=
  foldl (λ r id, match r with Ret (_, s) => andtree_insert i32 (tree_fuel 8) id s | r => r end) (Ret (PNull, empty_tree)) ids.

Theorem registered_client_lost : match register_all far_numbers with
  | Ret (_, s) => andtree_find_key i32 (tree_fuel 8) (i32 3294967296) s = Ret (PNull, s) ∧
      andtree_find_key i32 (tree_fuel 8) (i32 2000000000) s ≠ Ret (PNull, s)
  | _ => False
  end.
Proof. vm_compute. split; [reflexivity|discriminate]. Qed.

(** ** A client and a server *)

(** A kernel that delivers [msgs] on endpoint 9, and its grant on endpoint 1. *)
Definition doorman (msgs : list message) : KernelEnv := scripted (λ h,
  match h with
  | c :: rest =>
      if decide (c = recv_call 9) then (0, default no_msg (msgs !! takes 9 rest))
      else (0, mk_msg 10 [0; 0; 0; 0; 0; 9])
  | [] => (0, no_msg)
  end).

Lemma doorman_delivers msgs h0 : takes 9 h0 = 0%nat → @delivers (doorman msgs) 9 msgs h0.
Proof. intros H0 cs. cbn. by rewrite takes_app, H0, Nat.add_0_r. Qed.

Definition first_number : Z := match c4rt_prng_u32 true C4RT_PRNG_DEFAULT_SEED with Ret (id, _) => id | _ => 0 end.
Definition new_server : cserver Bump.bump Bump.bump :=
  mk_cserver (mk_process [] (Some Bump.start)) empty_tree ∅ 1 C4RT_PRNG_DEFAULT_SEED.

Lemma new_server_registered : registered new_server ∅ Nil.
Proof.
  split; [apply empty_tree_inv|constructor| |done|]; cbn.
  - intros id a. rewrite lookup_empty. split; [done|]. intros [Ha _]. by apply not_elem_of_nil in Ha.
  - intros a Ha. by apply not_elem_of_nil in Ha.
Qed.

Lemma new_server_ready : ready (tree_fuel 1) new_server Nil.
Proof.
  split; [|apply (Bump.bump_plenty 2), Bump.start_inv|simpl; lia|split; apply Nat.leb_le; vm_compute; reflexivity].
  exists Bump.start. split; [done|]. split; [apply Bump.start_inv|done].
Qed.

Lemma new_server_number : next_number true first_number ∅ new_server.
Proof.
  split_and!; [|vm_compute; done|vm_compute; done|done|].
  - eexists. vm_compute. reflexivity.
  - intros id' [? E]. by rewrite lookup_empty in E.
Qed.

Definition greeting : list message :=
  [mk_msg C4RT_CONNMAN_CONNECT []; mk_msg 10 [0; 0; 0; 0; 0; 21]; mk_msg 10 [0; 0; 0; 0; 0; 22]; mk_msg 10 [0; 0; 0; 0; 0; 23]].

Lemma listen_step_correct_witness : let _ := doorman greeting in ∃ s' t' a o,
  listen_step true (tree_fuel 1) no_msg new_server = Ret ((0, no_msg), s') ∧ registered s' {[first_number := a]} t' ∧
  cv_conns s' !! a = Some (mk_conn 0 22 21 first_number 0 o (vaddr o)).
Proof.
  intros env. destruct (listen_step_correct true (tree_fuel 1) no_msg greeting first_number ∅ Nil new_server
    new_server_registered new_server_ready) as (r & s' & t' & E & Hres).
  - intros _. split; [apply new_server_number|]. by apply doorman_delivers.
  - intros Hm. vm_compute in Hm. discriminate.
  - change (mtype _ =? MESSAGE_TYPE_GRANT_OBJECT) with true in Hres. destruct Hres as [-> Hres].
    change (handshake greeting) with (Some (21, 22, 23)) in Hres. destruct Hres as (a & o & _ & Hr & Ec & _).
    exists s', t', a, o. split_and!; [exact E|exact Hr|exact Ec].
Defined.

Definition caller : KernelEnv := scripted (λ h,
  (match h with c :: _ => if decide (cnum c = SYSCALL_ASYNC_CREATE) then 30 + Z.of_nat (length h) else 7 | [] => 0 end,
   mk_msg C4RT_CONNMAN_CLIENT_ID [first_number; 0; 0; 0; 0; 55])).
Definition new_client : client Bump.bump := mk_client (mk_process [] (Some Bump.start)) (mk_ringbuf 0 0 16 (replicate 16 0)).
Definition connected : option (c4rt_conn * list kcall) :=
  match @c4rt_connman_connect caller _ _ blank_conn 3 new_client with
  | Ret (r, s) => Some (r.2, p_hist (c_proc s))
  | _ => None
  end.
Definition connected_conn : c4rt_conn := match connected with Some r => r.1 | None => blank_conn end.
Definition connected_hist : list kcall := match connected with Some r => r.2 | None => [] end.
Definition abroad (x : Z) : Z := x + 100.
Definition crossing : list message := omap (arrives 10 abroad 7) (rev (take 7 connected_hist)).

Lemma connection_agrees_witness : let _ := doorman crossing in ∃ a s' e,
  handle_connect true (tree_fuel 1) 9 new_server = Ret (a, s') ∧ cv_conns s' !! a = Some e ∧
  async_from e = async_to connected_conn + 100 ∧ async_to e = async_from connected_conn + 100.
Proof.
  intros env.
  destruct (connection_agrees caller env true (tree_fuel 1) blank_conn 3 new_client
    (match @c4rt_connman_connect caller _ _ blank_conn 3 new_client with Ret (_, s) => s | _ => new_client end) connected_conn
    (take 7 connected_hist) (drop 8 connected_hist) abroad 9 first_number ∅ Nil new_server)
    as (a & s' & t' & e & rest & E & _ & _ & _ & Ec & _ & Hf & Ht & _).
  - vm_compute. reflexivity.
  - vm_compute. reflexivity.
  - apply (bool_decide_eq_true_1 (create_call ∉ take 7 connected_hist)). vm_compute. reflexivity.
  - vm_compute. discriminate.
  - vm_compute. discriminate.
  - apply new_server_registered.
  - apply new_server_ready.
  - apply new_server_number.
  - by apply doorman_delivers.
  - intros h. eexists. reflexivity.
  - exists a, s', e. split_and!; [exact E|exact Ec|rewrite Hf; vm_compute; reflexivity|rewrite Ht; vm_compute; reflexivity].
Defined.
