(* ===== verification/Ata.v ===== *)
(** The disk driver ([programs/ata/src/main.c], [include/ata/ata.h]): it drives
    the two channels of an IDE controller by port input and output and serves
    block requests.

    The controller is behind the kernel's port calls, so it is part of the
    parameter the wrappers of [Kernel.v] run on: what the driver tells it is the
    history of calls, what it answers are the values of those calls.  Loops that
    wait for the controller take fuel. *)

From S2P Require Import Prelude Kernel Nameserver.
#[local] Open Scope Z_scope.

(** ** Constants ([ata.h]) *)
Definition ATA_STATUS_ERROR : Z := 0x01.
Definition ATA_STATUS_DRQ : Z := 0x08.
Definition ATA_STATUS_DF : Z := 0x20.
Definition ATA_STATUS_BUSY : Z := 0x80.

Definition ATA_CMD_READ_PIO : Z := 0x20.
Definition ATA_CMD_WRITE_PIO : Z := 0x30.
Definition ATA_CMD_CACHE_FLUSH : Z := 0xe7.
Definition ATA_CMD_PACKET : Z := 0xa0.
Definition ATA_CMD_IDENT : Z := 0xec.

Definition ATA_IDENT_DEVICE_TYPE : Z := 0x00.
Definition ATA_IDENT_MODEL : Z := 0x36.
Definition ATA_IDENT_CAPABILITIES : Z := 0x62.
Definition ATA_IDENT_MAX_LBA : Z := 0x80.
Definition ATA_IDENT_COMMAND_SETS : Z := 0xa4.

Definition ATA_PRIMARY_PORT : Z := 0x1f0.
Definition ATA_SECONDARY_PORT : Z := 0x170.
Definition ATA_CONTROL : Z := 0x204.

Definition ATA_PRIMARY : Z := 0.
Definition ATA_SECONDARY : Z := 1.
Definition ATA_MASTER : Z := 0.
Definition ATA_SLAVE : Z := 1.

Definition ATA_REG_DATA : Z := 0.
Definition ATA_REG_ERROR : Z := 1.
Definition ATA_REG_SEC_COUNT0 : Z := 2.
Definition ATA_REG_LBA0 : Z := 3.
Definition ATA_REG_LBA1 : Z := 4.
Definition ATA_REG_LBA2 : Z := 5.
Definition ATA_REG_HD_DEV_SELECT : Z := 6.
Definition ATA_REG_COMMAND : Z := 7.
Definition ATA_REG_STATUS : Z := 7.
Definition ATA_REG_CONTROL : Z := 6.
Definition ATA_REG_ALT_STATUS : Z := 6.
Definition ATA_CONTROL_DISABLE_INTR : Z := Z.shiftl 1 1.

(** ** State *)

(** [ide_channel_t]; [busmaster] and [no_int] are never used. *)
Record ide_channel_t := mk_channel { ch_base : Z; ch_control : Z }.

(** [ide_device_t]; [type] and [ctrl] are never used. *)
Record ide_device_t := mk_device {
  dev_exists : bool; dev_channel : Z; dev_drive : Z; dev_sign : Z; dev_capabilities : Z;
  dev_commands : Z; dev_size : Z; dev_model : list Z
}.

Definition blank_device : ide_device_t := mk_device false 0 0 0 0 0 0 (replicate 41 0).

(** [ide_drives], [interrupt_queue], the history of system calls, and the
    16-bit words of the page objects clients grant, by capability address: the
    one of the request being served is mapped at [0xc0000000]. *)
Record ata := mk_ata {
  a_hist : list kcall;
  channels : list ide_channel_t;
  devices : list ide_device_t;
  interrupt_queue : Z;
  a_pages : gmap Z (list Z)
}.

Definition initial_ata (h : list kcall) (pages : gmap Z (list Z)) : ata :=
  mk_ata h (replicate 2 (mk_channel 0 0)) (replicate 4 blank_device) (-1) pages.

Section ata.
Context `{KernelEnv} (fuel : nat).
Abbreviation A := (M ata).

Definition ak {X} (m : K X) : A X :=
  zoom a_hist (λ h s, mk_ata h (channels s) (devices s) (interrupt_queue s) (a_pages s)) m.

Definition set_queue (q : Z) : A unit := modify (λ s, mk_ata (a_hist s) (channels s) (devices s) q (a_pages s)).
(** The words of a page object, and stores into them: a page that is not
    mapped faults. *)
Definition load_page (obj : Z) : A (list Z) := getsome (λ s, a_pages s !! obj).
Definition set_page (obj : Z) (p : list Z) : A unit :=
  modify (λ s, mk_ata (a_hist s) (channels s) (devices s) (interrupt_queue s) (<[obj := p]> (a_pages s))).

(** A channel or device is passed around as a pointer into [ide_drives]: its
    index, checked when the pointer is used. *)
Definition ide_channel (channel : Z) : A ide_channel_t := getsome (λ s, zget (channels s) channel).
Definition ide_device (device : Z) : A ide_device_t := getsome (λ s, zget (devices s) device).
Definition device_number (channel select : Z) : Z := u32 (channel * 2 + select).

Definition set_channel (i : Z) (c : ide_channel_t) : A unit :=
  l ← getsome (λ s, zset (channels s) i c);
  modify (λ s, mk_ata (a_hist s) l (devices s) (interrupt_queue s) (a_pages s)).
Definition set_device (i : Z) (d : ide_device_t) : A unit :=
  l ← getsome (λ s, zset (devices s) i d);
  modify (λ s, mk_ata (a_hist s) (channels s) l (interrupt_queue s) (a_pages s)).

(** ** Registers *)
Definition ide_reg_read (channel reg : Z) : A Z := c ← ide_channel channel; ak (c4_in_byte (ch_base c + u8 reg)).
Definition ide_reg_write (channel reg data : Z) : A unit :=
  c ← ide_channel channel; ak (c4_out_byte (ch_base c + u8 reg) (u8 data)).

(** The dwords read, in order; the buffer is always filled whole. *)
Fixpoint dwords_loop (n : nat) (channel port : Z) : A (list Z) :=
  match n with
  | O => mret []
  | S n' => c ← ide_channel channel;
            w ← ak (c4_in_dword (ch_base c + port));
            ws ← dwords_loop n' channel port;
            mret (w :: ws)
  end.

Definition dword_bytes (w : Z) : list Z :=
  [w mod 256; (w / 256) mod 256; (w / 65536) mod 256; (w / 16777216) mod 256].

(** The buffer, as bytes. *)
Definition ide_read_buffer (channel port size : Z) : A (list Z) :=
  ws ← dwords_loop (Z.to_nat (size / 4)) channel port;
  mret (concat (dword_bytes <$> ws)).

(** ** Waiting *)
Definition status_ready (status : Z) : bool :=
  negb (truthy (Z.land status ATA_STATUS_BUSY)) || truthy (Z.land status ATA_STATUS_DRQ).
Definition status_failed (status : Z) : bool :=
  truthy (Z.land status ATA_STATUS_ERROR) || truthy (Z.land status ATA_STATUS_DF).

Definition ide_channel_ready (channel : Z) : A bool := s ← ide_reg_read channel ATA_REG_STATUS; mret (status_ready s).
Definition ide_channel_has_error (channel : Z) : A bool :=
  s ← ide_reg_read channel ATA_REG_STATUS; mret (status_failed s).

Fixpoint init_poll_loop (n : nat) (channel : Z) : A bool :=
  match n with
  | O => nofuel
  | S n' =>
      status ← ide_reg_read channel ATA_REG_STATUS;
      if truthy (Z.land status ATA_STATUS_ERROR) then mret true
      else if negb (truthy (Z.land status ATA_STATUS_BUSY)) && truthy (Z.land status ATA_STATUS_DRQ) then mret false
      else init_poll_loop n' channel
  end.
Definition ide_init_poll (channel : Z) : A bool := init_poll_loop fuel channel.

Fixpoint poll_loop (n : nat) (channel : Z) : A unit :=
  match n with
  | O => nofuel
  | S n' =>
      ready ← ide_channel_ready channel;
      if ready : bool then mret tt
      else
        error ← ide_channel_has_error channel;
        if error : bool then ide_reg_read channel ATA_REG_ERROR;; mret tt
        else poll_loop n' channel
  end.

Definition ide_channel_poll (channel : Z) : A unit :=
  for_loop 4 0 (λ _, ide_reg_read channel ATA_REG_ALT_STATUS;; mret tt);;
  poll_loop fuel channel;;
  s ← get;
  ak (c4_msg_recieve_async (interrupt_queue s) 0);;
  mret tt.

Fixpoint ready_loop (n : nat) (channel : Z) : A unit :=
  match n with
  | O => nofuel
  | S n' => ready ← ide_channel_ready channel; if ready : bool then mret tt else ready_loop n' channel
  end.

(** ** Transfers *)
Definition ide_define_access (channel location count : Z) : A unit :=
  ide_reg_write channel ATA_REG_SEC_COUNT0 count;;
  ide_reg_write channel ATA_REG_LBA0 (Z.land location 0xff);;
  ide_reg_write channel ATA_REG_LBA1 (Z.land (Z.shiftr location 8) 0xff);;
  ide_reg_write channel ATA_REG_LBA2 (Z.land (Z.shiftr location 16) 0xff).

Definition ide_start_access (device : Z) (location count command : Z) : A unit :=
  d ← ide_device device;
  let channel := dev_channel d in
  ready_loop fuel channel;;
  d ← ide_device device;
  ide_reg_write channel ATA_REG_HD_DEV_SELECT
    (Z.lor (Z.lor 0xe0 (Z.shiftl (dev_drive d) 4)) (Z.land (Z.shiftr location 24) 0xf));;
  ide_define_access channel location count;;
  ide_reg_write channel ATA_REG_COMMAND command;;
  ide_channel_poll channel.

(** The buffer is a list of 16-bit words; a store past its end faults. *)
Fixpoint read_words (n : nat) (channel index : Z) (buffer : list Z) : A (list Z) :=
  match n with
  | O => mret buffer
  | S n' =>
      c ← ide_channel channel;
      w ← ak (c4_in_word (ch_base c));
      buffer ← getsome (λ _, zset buffer (u32 index) w);
      read_words n' channel (index + 1) buffer
  end.

Fixpoint read_sectors (n : nat) (channel sector : Z) (buffer : list Z) : A (list Z) :=
  match n with
  | O => mret buffer
  | S n' =>
      buffer ← read_words 256 channel (sector * 256) buffer;
      ide_channel_poll channel;;
      read_sectors n' channel (sector + 1) buffer
  end.

Definition ide_pio_read (device : Z) (buffer : list Z) (location count : Z) : A (list Z) :=
  d ← ide_device device;
  ide_start_access device location count ATA_CMD_READ_PIO;;
  read_sectors (Z.to_nat count) (dev_channel d) 0 buffer.

Fixpoint write_words (n : nat) (channel index : Z) (buffer : list Z) : A unit :=
  match n with
  | O => mret tt
  | S n' =>
      c ← ide_channel channel;
      w ← getsome (λ _, zget buffer (u32 index));
      ak (c4_out_word (ch_base c) w);;
      write_words n' channel (index + 1) buffer
  end.

Fixpoint write_sectors (n : nat) (channel sector : Z) (buffer : list Z) : A unit :=
  match n with
  | O => mret tt
  | S n' =>
      write_words 256 channel (sector * 256) buffer;;
      ide_channel_poll channel;;
      write_sectors n' channel (sector + 1) buffer
  end.

Definition ide_pio_write (device : Z) (buffer : list Z) (location count : Z) : A unit :=
  d ← ide_device device;
  ide_start_access device location count ATA_CMD_WRITE_PIO;;
  write_sectors (Z.to_nat count) (dev_channel d) 0 buffer;;
  ide_reg_write (dev_channel d) ATA_REG_COMMAND ATA_CMD_CACHE_FLUSH.

(** ** Finding the drives *)
Definition ide_select_drive (channel select : Z) : A unit :=
  ide_reg_write channel ATA_REG_HD_DEV_SELECT (Z.lor ATA_CMD_PACKET (Z.shiftl select 4)).
Definition ide_identify (channel : Z) : A unit := ide_reg_write channel ATA_REG_COMMAND ATA_CMD_IDENT.

Definition byte_at (buffer : list Z) (i : Z) : Z := default 0 (zget buffer i).
Definition word16_at (buffer : list Z) (i : Z) : Z := byte_at buffer i + 256 * byte_at buffer (i + 1).
Definition word32_at (buffer : list Z) (i : Z) : Z := word16_at buffer i + 65536 * word16_at buffer (i + 2).

(** The loop of [ide_copy_model], [n] turns from [i]: what is left of the 40
    characters, then the terminator. *)
Fixpoint model_loop (n : nat) (i : Z) (buffer : list Z) : list Z :=
  match n with
  | O => [0]
  | S n' =>
      byte_at buffer (ATA_IDENT_MODEL + i + 1) :: byte_at buffer (ATA_IDENT_MODEL + i) :: model_loop n' (i + 2) buffer
  end.
Definition ide_copy_model (buffer : list Z) : list Z := model_loop 20 0 buffer.

Definition ide_init_drive (chan_num select : Z) : A unit :=
  let device := device_number chan_num select in
  let channel := chan_num in
  d ← ide_device device;
  set_device device (mk_device false (dev_channel d) (dev_drive d) (dev_sign d) (dev_capabilities d)
    (dev_commands d) (dev_size d) (dev_model d));;
  ide_select_drive channel select;;
  ide_channel_poll channel;;
  ide_identify channel;;
  ide_channel_poll channel;;
  status ← ide_reg_read channel ATA_REG_STATUS;
  if status =? 0 then mret tt
  else
    failed ← ide_init_poll channel;
    if failed : bool then mret tt
    else
      temp ← ide_read_buffer channel ATA_REG_DATA 512;
      set_device device (mk_device true (u8 chan_num) (u8 select)
        (word16_at temp ATA_IDENT_DEVICE_TYPE) (word16_at temp ATA_IDENT_CAPABILITIES)
        (word32_at temp ATA_IDENT_COMMAND_SETS) (word32_at temp ATA_IDENT_MAX_LBA) (ide_copy_model temp)).

Definition interrupt_subscribe (intr : Z) : A unit :=
  s ← get;
  (if interrupt_queue s <? 0 then q ← ak c4_msg_create_async; set_queue q else mret tt);;
  s ← get;
  ak (c4_interrupt_subscribe intr (interrupt_queue s));; mret tt.

Definition interrupt_wait : A Z :=
  s ← get;
  r ← ak (c4_msg_recieve_async (interrupt_queue s) MESSAGE_ASYNC_BLOCK);
  mret (mget r.2 0).

Definition ide_init : A unit :=
  interrupt_subscribe (0x20 + 9);;
  interrupt_subscribe (0x20 + 11);;
  interrupt_subscribe (0x20 + 14);;
  interrupt_subscribe (0x20 + 15);;
  set_channel ATA_PRIMARY (mk_channel ATA_PRIMARY_PORT (ATA_PRIMARY_PORT + ATA_CONTROL));;
  set_channel ATA_SECONDARY (mk_channel ATA_SECONDARY_PORT (ATA_SECONDARY_PORT + ATA_CONTROL));;
  ide_reg_read ATA_PRIMARY ATA_REG_STATUS;;
  ide_reg_read ATA_SECONDARY ATA_REG_STATUS;;
  ide_reg_write ATA_PRIMARY ATA_REG_CONTROL ATA_CONTROL_DISABLE_INTR;;
  ide_reg_write ATA_SECONDARY ATA_REG_CONTROL ATA_CONTROL_DISABLE_INTR;;
  ide_init_drive ATA_PRIMARY ATA_MASTER;;
  ide_init_drive ATA_PRIMARY ATA_SLAVE;;
  ide_init_drive ATA_SECONDARY ATA_MASTER;;
  ide_init_drive ATA_SECONDARY ATA_SLAVE;;
  d ← ide_device 0;
  if dev_exists d then
    buf ← ide_pio_read 0 (replicate 512 0) 0 (1024 / 512);
    ide_pio_write 0 buf 1054 (1024 / 512)
  else mret tt.

(** ** Serving requests *)
Definition DISK_PAGE : Z := 0xc0000000.

Definition ata_handle_access (endpoint : Z) (request : message) : A unit :=
  let device := mget request 0 in
  let location := mget request 1 in
  let sectors := mget request 2 in
  r ← ak (c4_msg_recieve endpoint);
  let bufobj := mget r.2 5 in
  d ← ide_device device;
  msg ← (if negb (dev_exists d) then mret (mk_msg BLOCK_MSG_ERROR [])
         else
           ak (c4_addrspace_map C4_CURRENT_ADDRSPACE bufobj DISK_PAGE (Z.lor PAGE_READ PAGE_WRITE));;
           page ← load_page bufobj;
           (if mtype request =? BLOCK_MSG_READ then
              page ← ide_pio_read device page location sectors; set_page bufobj page
            else ide_pio_write device page location sectors);;
           mret (mk_msg BLOCK_MSG_COMPLETED []));
  ak (c4_addrspace_unmap C4_CURRENT_ADDRSPACE DISK_PAGE);;
  ak (c4_msg_send msg endpoint);;
  ak (c4_cspace_remove C4_CURRENT_CSPACE endpoint);;
  ak (c4_cspace_remove C4_CURRENT_CSPACE bufobj);;
  mret tt.

(** One turn of the service loop. *)
Definition ata_serve_one : A unit :=
  r ← ak (c4_msg_recieve C4_SERV_PORT);
  if negb (mtype r.2 =? MESSAGE_TYPE_GRANT_OBJECT) then mret tt
  else
    let obj := mget r.2 5 in
    r ← ak (c4_msg_recieve obj);
    (if (mtype r.2 =? BLOCK_MSG_READ) || (mtype r.2 =? BLOCK_MSG_WRITE) then ata_handle_access obj r.2 else mret tt);;
    ak (c4_cspace_remove C4_CURRENT_CSPACE obj);; mret tt.

(** ["/dev/ata"]. *)
Definition ata_name : list Z := [47; 100; 101; 118; 47; 97; 116; 97].

(** [main] up to its first [turns] requests. *)
Definition main (turns : nat) : A unit :=
  ak (nameserver_bind C4_NAMESERVER ata_name C4_SERV_PORT);;
  ak c4_get_id;;
  ide_init;;
  for_loop turns 0 (λ _, ata_serve_one).
End ata.
