(* ===== verification/AtaDrive.v ===== *)
(** The disk driver against the drive: a drive is a state machine over the
    port accesses of its channel, and [Ata.v]'s transfers move exactly the
    sectors asked for.

    The drive is hardware.  What is assumed of it is the documented behaviour
    of an ATA drive under programmed input and output: it latches the registers
    written to it, a command starts a transfer at the block the registers name,
    each access to the data register moves one word, and after a command and
    after each sector it is busy for a while.  While it is busy its status says
    so, writes to its registers do nothing, and an access to the data register
    spoils the transfer: only a driver that waits gets the data. *)

From S2P Require Import Prelude Kernel Ata.
#[local] Open Scope Z_scope.

(** ** The drive as the driver's port accesses leave it *)

(** The latched registers, the transfer under way (is it a write, and how many
    words have moved), the disks (drive number, word number), and for how many
    more calls the drive is busy. *)
Record drive := mk_drive {
  dr_head : Z; dr_count : Z; dr_lba0 : Z; dr_lba1 : Z; dr_lba2 : Z;
  dr_phase : option (bool * Z);
  dr_disk : Z → Z → Z;
  dr_busy : nat
}.

Definition dr_sel (d : drive) : Z := Z.land (Z.shiftr (dr_head d) 4) 1.
Definition dr_lba (d : drive) : Z :=
  dr_lba0 d + 256 * dr_lba1 d + 65536 * dr_lba2 d + 16777216 * Z.land (dr_head d) 0xf.

(** A sector count of 0 asks for 256. *)
Definition dr_words (d : drive) : Z := 256 * (if dr_count d =? 0 then 256 else dr_count d).

Definition store_word (f : Z → Z → Z) (sel i w : Z) : Z → Z → Z :=
  λ s j, if (s =? sel) && (j =? i) then w else f s j.

Definition set_phase (p : option (bool * Z)) (d : drive) : drive :=
  mk_drive (dr_head d) (dr_count d) (dr_lba0 d) (dr_lba1 d) (dr_lba2 d) p (dr_disk d) (dr_busy d).
Definition set_busy (n : nat) (d : drive) : drive :=
  mk_drive (dr_head d) (dr_count d) (dr_lba0 d) (dr_lba1 d) (dr_lba2 d) (dr_phase d) (dr_disk d) n.
Definition set_disk (f : Z → Z → Z) (d : drive) : drive :=
  mk_drive (dr_head d) (dr_count d) (dr_lba0 d) (dr_lba1 d) (dr_lba2 d) (dr_phase d) f (dr_busy d).

(** The drive asks for data: it is in a transfer and not busy. *)
Definition drq (d : drive) : bool := bool_decide (dr_busy d = 0%nat) && bool_decide (is_Some (dr_phase d)).

(** Where a transfer is after [n] words: the last one ends it. *)
Definition next_phase (d : drive) (w : bool) (n : Z) : option (bool * Z) := if n <? dr_words d then Some (w, n) else None.

Section drive.
Context `{KernelEnv}.

(** How long the drive is busy with what it begins, by the calls made before;
    it is free for data again after that. *)
Context (delay : list kcall → nat).

(** A byte written to a register, by its number. *)
Definition reg_write_step (wait : nat) (reg v : Z) (d : drive) : drive :=
  let '(mk_drive hd c l0 l1 l2 p f b) := d in
  if reg =? ATA_REG_SEC_COUNT0 then mk_drive hd v l0 l1 l2 p f b
  else if reg =? ATA_REG_LBA0 then mk_drive hd c v l1 l2 p f b
  else if reg =? ATA_REG_LBA1 then mk_drive hd c l0 v l2 p f b
  else if reg =? ATA_REG_LBA2 then mk_drive hd c l0 l1 v p f b
  else if reg =? ATA_REG_HD_DEV_SELECT then mk_drive v c l0 l1 l2 p f b
  else if reg =? ATA_REG_COMMAND then
    mk_drive hd c l0 l1 l2
      (if v =? ATA_CMD_READ_PIO then Some (false, 0)
       else if v =? ATA_CMD_WRITE_PIO then Some (true, 0) else None) f wait
  else d.

(** The [n]-th word has moved; after a whole sector the drive is busy. *)
Definition word_moved (wait : nat) (w : bool) (n : Z) (d : drive) : drive :=
  set_busy (if n mod 256 =? 0 then wait else dr_busy d) (set_phase (next_phase d w n) d).

Definition data_read_step (wait : nat) (d : drive) : drive :=
  match dr_phase d with Some (false, n) => word_moved wait false (n + 1) d | _ => d end.

Definition data_write_step (wait : nat) (w : Z) (d : drive) : drive :=
  match dr_phase d with
  | Some (true, n) => set_disk (store_word (dr_disk d) (dr_sel d) (256 * dr_lba d + n) w) (word_moved wait true (n + 1) d)
  | _ => d
  end.

(** A call, at which time passes. *)
Definition tick (d : drive) : drive := set_busy (pred (dr_busy d)) d.

Definition drive_step (base : Z) (wait : nat) (c : kcall) (d : drive) : drive :=
  if decide (cnum c = SYSCALL_IOPORT) then
    match carg c with
    | [act; port; v; _] =>
        if act =? IO_PORT_OUT_BYTE then
          if bool_decide (dr_busy d = 0%nat) && bool_decide (dr_phase d = None) then reg_write_step wait (port - base) v d else tick d
        else if (act =? IO_PORT_IN_WORD) && (port =? base) then
          if bool_decide (dr_busy d = 0%nat) then data_read_step wait d else tick (set_phase None d)
        else if (act =? IO_PORT_OUT_WORD) && (port =? base) then
          if bool_decide (dr_busy d = 0%nat) then data_write_step wait v d else tick (set_phase None d)
        else tick d
    | _ => tick d
    end
  else tick d.

(** The drive after a history, latest call first. *)
Fixpoint drive_of (base : Z) (d0 : drive) (h : list kcall) : drive :=
  match h with [] => d0 | c :: h' => drive_step base (delay h') c (drive_of base d0 h') end.

Definition in_word_call (port : Z) : kcall := mk_call SYSCALL_IOPORT [IO_PORT_IN_WORD; u32 port; 0; 0] no_msg.
Definition out_word_call (port w : Z) : kcall := mk_call SYSCALL_IOPORT [IO_PORT_OUT_WORD; u32 port; u16 w; 0] no_msg.
Definition in_byte_call (port : Z) : kcall := mk_call SYSCALL_IOPORT [IO_PORT_IN_BYTE; u32 port; 0; 0] no_msg.
Definition out_byte_call (port v : Z) : kcall := mk_call SYSCALL_IOPORT [IO_PORT_OUT_BYTE; u32 port; u8 v; 0] no_msg.

(** The status the driver reads after [h]. *)
Definition status_after (base : Z) (h : list kcall) : Z := u8 (i32 (kernel (in_byte_call (base + ATA_REG_STATUS) :: h)).1).

(** What is assumed of the kernel's port calls and of the drive behind them:
    the kernel's port actions are different; the status says whether the drive
    is busy and whether it asks for data, never both, and the drive never
    reports an error; a drive that asks for data in a read transfer hands out
    the words of its disk; and it is never busy for longer than [patience]. *)
Record controller (base : Z) (d0 : drive) (patience : nat) : Prop := {
  ports_differ : NoDup [IO_PORT_IN_BYTE; IO_PORT_IN_WORD; IO_PORT_OUT_BYTE; IO_PORT_OUT_WORD];
  base_ok : 0 <= base < 2 ^ 31;
  status_busy : ∀ h, truthy (Z.land (status_after base h) ATA_STATUS_BUSY) = negb (bool_decide (dr_busy (drive_of base d0 h) = 0%nat));
  status_drq : ∀ h, truthy (Z.land (status_after base h) ATA_STATUS_DRQ) = drq (drive_of base d0 h);
  status_fine : ∀ h, status_failed (status_after base h) = false;
  data_word : ∀ h n, let d := drive_of base d0 h in
    drq d = true → dr_phase d = Some (false, n) →
    (kernel (in_word_call base :: h)).1 = u16 (dr_disk d (dr_sel d) (256 * dr_lba d + n));
  is_patient : (dr_busy d0 < patience)%nat ∧ ∀ h, (delay h < patience)%nat
}.

Lemma busy_bound base d0 patience : controller base d0 patience → ∀ h, (dr_busy (drive_of base d0 h) < patience)%nat.
Proof.
  intros [_ _ _ _ _ _ [H0 Hd]] h. induction h as [|c h IH]; [done|]. cbn [drive_of]. specialize (Hd h).
  set (d := drive_of base d0 h) in *. unfold drive_step, tick, data_read_step, data_write_step, word_moved.
  repeat case_match; cbn [dr_busy set_busy set_phase set_disk]; try lia.
  unfold reg_write_step. destruct d. cbn [dr_busy] in *. repeat case_match; cbn [dr_busy]; lia.
Qed.
End drive.

(** ** Computations that only make calls *)
Section runs.
Context `{KernelEnv}.

Definition with_calls (cs : list kcall) (s : ata) : ata :=
  mk_ata (cs ++ a_hist s) (channels s) (devices s) (interrupt_queue s) (a_pages s).

(** [acts m s v cs]: from [s], [m] returns [v], makes the calls [cs], latest
    first, and changes nothing else. *)
Definition acts {X} (m : M ata X) (s : ata) (v : X) (cs : list kcall) : Prop := m s = Ret (v, with_calls cs s).

Lemma with_calls_app cs ds s : with_calls ds (with_calls cs s) = with_calls (ds ++ cs) s.
Proof. unfold with_calls. simpl. by rewrite (assoc_L (++)). Qed.

Lemma acts_ret {X} (v : X) s : acts (mret v) s v [].
Proof. by destruct s. Qed.

Lemma acts_bind {X Y} (m : M ata X) (f : X → M ata Y) s v cs w ds :
  acts m s v cs → acts (f v) (with_calls cs s) w ds → acts (m ≫= f) s w (ds ++ cs).
Proof. unfold acts, mbind, M_bind. intros -> ->. by rewrite with_calls_app. Qed.

Lemma acts_calls {X} (m : M ata X) s v cs ds : acts m s v cs → cs = ds → acts m s v ds.
Proof. by intros ? <-. Qed.

Lemma acts_look {X Y} (g : ata → option X) (f : X → M ata Y) s x v cs :
  g s = Some x → acts (f x) s v cs → acts (getsome g ≫= f) s v cs.
Proof. unfold acts, mbind, M_bind, getsome. by intros -> ->. Qed.

Lemma acts_get {Y} (f : ata → M ata Y) s v cs : acts (f s) s v cs → acts (get ≫= f) s v cs.
Proof. done. Qed.

Lemma acts_kernel {X} (m : K X) s v cs : does m (a_hist s) v cs → acts (ak m) s v cs.
Proof. unfold does, acts, ak, zoom. by intros ->. Qed.

Lemma read_reg_acts channel reg s c : zget (channels s) channel = Some c →
  let e := in_byte_call (ch_base c + u8 reg) in
  acts (ide_reg_read channel reg) s (u8 (i32 (kernel (e :: a_hist s)).1)) [e].
Proof. intros Hc e. eapply acts_look; [exact Hc|]. by apply acts_kernel. Qed.

Lemma write_reg_acts channel reg v s c : zget (channels s) channel = Some c →
  acts (ide_reg_write channel reg v) s tt [out_byte_call (ch_base c + u8 reg) (u8 v)].
Proof. intros Hc. eapply acts_look; [exact Hc|]. by apply acts_kernel. Qed.
End runs.

(** Comparisons known to fail. *)
Ltac neqb :=
  repeat match goal with
  | Hn : ?a ≠ ?b |- context [?a =? ?b] => rewrite (proj2 (Z.eqb_neq a b) Hn)
  end; cbn [andb].

(** ** Transfers on a channel with a drive behind it *)
Section transfer.
Context `{KernelEnv} (delay : list kcall → nat) (base : Z) (d0 : drive) (patience : nat) (HC : controller delay base d0 patience).
Context (fuel : nat) (Hfuel : (patience <= fuel)%nat).
Abbreviation drive_at := (drive_of delay base d0).

(** Not busy any more. *)
Definition ready (d : drive) : drive := set_busy 0 d.

Lemma ready_id d : dr_busy d = 0%nat → ready d = d.
Proof. destruct d. simpl. by intros ->. Qed.

(** Calls during which only time passes. *)
Definition quiet (cs : list kcall) : Prop := ∀ h, drive_at (cs ++ h) = set_busy (dr_busy (drive_at h) - length cs) (drive_at h).

Lemma quiet_nil : quiet [].
Proof. intros h. simpl. rewrite Nat.sub_0_r. by destruct (drive_at h). Qed.

Lemma quiet_app cs ds : quiet cs → quiet ds → quiet (cs ++ ds).
Proof.
  intros Hc Hd h. rewrite <-(assoc_L (++)), Hc, Hd, length_app. unfold set_busy. cbn. f_equal. lia.
Qed.

(** A drive that has become ready stays so. *)
Lemma quiet_ready cs h d : quiet cs → drive_at h = ready d → drive_at (cs ++ h) = ready d.
Proof. intros Hq E. by rewrite Hq, E. Qed.

Lemma quiet_core cs h : quiet cs → ready (drive_at (cs ++ h)) = ready (drive_at h).
Proof. intros Hq. by rewrite Hq. Qed.

Lemma actions_ne : IO_PORT_IN_BYTE ≠ IO_PORT_OUT_BYTE ∧ IO_PORT_IN_BYTE ≠ IO_PORT_IN_WORD ∧ IO_PORT_IN_BYTE ≠ IO_PORT_OUT_WORD ∧
  IO_PORT_IN_WORD ≠ IO_PORT_OUT_BYTE ∧ IO_PORT_OUT_WORD ≠ IO_PORT_OUT_BYTE ∧ IO_PORT_OUT_WORD ≠ IO_PORT_IN_WORD.
Proof. pose proof (ports_differ _ _ _ _ HC) as Hn. rewrite !NoDup_cons, !not_elem_of_cons in Hn. naive_solver. Qed.

Lemma quiet_read port : quiet [in_byte_call port].
Proof.
  intros h. destruct actions_ne as (?&?&?&_). unfold in_byte_call. cbn [app drive_of].
  unfold drive_step. cbn [cnum carg]. rewrite decide_True by done. neqb. unfold tick. f_equal. simpl. lia.
Qed.

Lemma quiet_other c cs : cnum c ≠ SYSCALL_IOPORT → quiet cs → quiet (c :: cs).
Proof.
  intros Hc Hq h. cbn [app drive_of]. unfold drive_step at 1. rewrite decide_False by done. rewrite Hq. unfold tick, set_busy. cbn.
  f_equal. lia.
Qed.

(** A register write gets through when the drive is free. *)
Definition free_drive (d : drive) : Prop := dr_busy d = 0%nat ∧ dr_phase d = None.

Lemma out_byte_step reg v h : 0 <= reg < 8 → free_drive (drive_at h) →
  drive_at (out_byte_call (base + u8 reg) v :: h) = reg_write_step (delay h) reg (u8 v) (drive_at h).
Proof.
  intros Hr [Hb Hp]. pose proof (base_ok _ _ _ _ HC). rewrite (wrapu_small 8) by lia.
  unfold out_byte_call. cbn [drive_of]. unfold drive_step at 1. cbn [cnum carg].
  rewrite decide_True by done. rewrite Z.eqb_refl, Hb, Hp, !bool_decide_true, u32_small by (done || lia). cbn [andb]. f_equal. lia.
Qed.

Context (channel : Z) (cc : ide_channel_t) (Hb : ch_base cc = base).
Implicit Types s : ata.

(** [m] runs to the end, leaving the drive alone. *)
Definition idles {X} (m : M ata X) (s : ata) : Prop := ∃ v cs, acts m s v cs ∧ quiet cs.

Lemma idles_bind {X Y} (m : M ata X) (f : X → M ata Y) s :
  idles m s → (∀ v cs, quiet cs → idles (f v) (with_calls cs s)) → idles (m ≫= f) s.
Proof.
  intros (v & cs & Hm & Hq) Hf. destruct (Hf v cs Hq) as (w & ds & Hw & Hq').
  exists w, (ds ++ cs). split; [by eapply acts_bind|by apply quiet_app].
Qed.

Lemma idles_step {X Y} (m : M ata X) (f : X → M ata Y) s v cs :
  acts m s v cs → quiet cs → idles (f v) (with_calls cs s) → idles (m ≫= f) s.
Proof.
  intros Hm Hq (w & ds & Hw & Hq'). exists w, (ds ++ cs). split; [by eapply acts_bind|by apply quiet_app].
Qed.

Lemma idles_ret {X} (v : X) s : idles (mret v) s.
Proof. exists v, []. split; [apply acts_ret|apply quiet_nil]. Qed.

Lemma idles_read reg s : zget (channels s) channel = Some cc → idles (ide_reg_read channel reg) s.
Proof. intros Hc. eexists _, _. split; [by eapply read_reg_acts|apply quiet_read]. Qed.

Lemma read_status s : zget (channels s) channel = Some cc →
  acts (ide_reg_read channel ATA_REG_STATUS) s (status_after base (a_hist s)) [in_byte_call (base + ATA_REG_STATUS)].
Proof. intros Hc. unfold status_after. rewrite <-Hb. by apply read_reg_acts. Qed.

(** The ready test is exact: a busy drive asks for no data. *)
Lemma ready_acts s : zget (channels s) channel = Some cc →
  acts (ide_channel_ready channel) s (bool_decide (dr_busy (drive_at (a_hist s)) = 0%nat)) [in_byte_call (base + ATA_REG_STATUS)].
Proof.
  intros Hc. eapply acts_bind with (ds := []); [by apply read_status|].
  assert (status_ready (status_after base (a_hist s)) = bool_decide (dr_busy (drive_at (a_hist s)) = 0%nat)) as <-; [|apply acts_ret].
  unfold status_ready. rewrite (status_busy _ _ _ _ HC), (status_drq _ _ _ _ HC), negb_involutive. unfold drq.
  destruct (bool_decide (dr_busy _ = 0%nat)); [done|]. by cbn.
Qed.

(** [m] runs to the end and leaves the drive ready, and otherwise alone. *)
Definition settles (m : M ata unit) (s : ata) : Prop := ∃ cs, acts m s tt cs ∧ quiet cs ∧ drive_at (cs ++ a_hist s) = ready (drive_at (a_hist s)).

Lemma settles_ready s : dr_busy (drive_at (a_hist s)) = 0%nat → settles (mret tt) s.
Proof. intros E. exists []. split_and!; [apply acts_ret|apply quiet_nil|]. by rewrite (ready_id _ E). Qed.

Lemma settles_step {X} (m : M ata X) (f : X → M ata unit) s v cs :
  acts m s v cs → quiet cs → settles (f v) (with_calls cs s) → settles (m ≫= f) s.
Proof.
  intros Hm Hq (ds & Hw & Hq' & E). exists (ds ++ cs). split_and!; [by eapply acts_bind|by apply quiet_app|].
  rewrite <-(assoc_L (++)). etransitivity; [exact E|]. by apply (quiet_core cs).
Qed.

Lemma settles_bind {X} (m : M ata X) (f : X → M ata unit) s :
  idles m s → (∀ v cs, quiet cs → settles (f v) (with_calls cs s)) → settles (m ≫= f) s.
Proof. intros (v & cs & Hm & Hq) Hf. eapply settles_step; [exact Hm|done|by apply Hf]. Qed.

Lemma busy_next s c : let s1 := with_calls [c] s in quiet [c] → dr_busy (drive_at (a_hist s1)) = pred (dr_busy (drive_at (a_hist s))).
Proof. intros s1 Hq. unfold s1. cbn [a_hist with_calls]. rewrite Hq. simpl. lia. Qed.

Lemma poll_loop_settles n : ∀ s, zget (channels s) channel = Some cc → (dr_busy (drive_at (a_hist s)) < n)%nat →
  settles (poll_loop n channel) s.
Proof.
  induction n as [|n IH]; intros s Hc Hn; [lia|]. cbn [poll_loop].
  eapply settles_step; [by apply ready_acts|apply quiet_read|]. pose proof (busy_next s _ (quiet_read (base + ATA_REG_STATUS))) as E1.
  case_bool_decide as Hb0; [apply settles_ready; by rewrite E1, Hb0|].
  unfold ide_channel_has_error. eapply settles_step.
  { eapply acts_bind; [by apply read_status|apply acts_ret]. }
  { apply quiet_read. }
  rewrite (status_fine _ _ _ _ HC). apply IH; [done|].
  pose proof (busy_next (with_calls [in_byte_call (base + ATA_REG_STATUS)] s) _ (quiet_read (base + ATA_REG_STATUS))) as E2.
  cbn [app] in *. rewrite E2, E1. lia.
Qed.

Lemma ready_loop_settles n : ∀ s, zget (channels s) channel = Some cc → (dr_busy (drive_at (a_hist s)) < n)%nat →
  settles (ready_loop n channel) s.
Proof.
  induction n as [|n IH]; intros s Hc Hn; [lia|]. cbn [ready_loop].
  eapply settles_step; [by apply ready_acts|apply quiet_read|]. pose proof (busy_next s _ (quiet_read (base + ATA_REG_STATUS))) as E1.
  case_bool_decide as Hb0; [apply settles_ready; by rewrite E1, Hb0|]. apply IH; [done|]. rewrite E1. lia.
Qed.

Lemma for_idles n : ∀ i (body : Z → M ata unit) s, zget (channels s) channel = Some cc →
  (∀ i s, zget (channels s) channel = Some cc → idles (body i) s) → idles (for_loop n i body) s.
Proof.
  induction n as [|n IH]; intros i body s Hc Hbody; cbn [for_loop]; [apply idles_ret|].
  apply idles_bind; [by apply Hbody|]. intros v cs _. by apply IH.
Qed.

Lemma poll_settles s : zget (channels s) channel = Some cc → settles (ide_channel_poll fuel channel) s.
Proof.
  intros Hc. unfold ide_channel_poll. apply settles_bind.
  { apply for_idles; [done|]. intros i s' Hc'. apply idles_bind; [by apply idles_read|intros; apply idles_ret]. }
  intros _ cs _. destruct (poll_loop_settles fuel (with_calls cs s) Hc) as (ds & Hpoll & Hq & E).
  { pose proof (busy_bound delay _ _ _ HC (a_hist (with_calls cs s))). lia. }
  set (s1 := with_calls ds (with_calls cs s)).
  assert (∃ es, acts (s ← get; ak (c4_msg_recieve_async (interrupt_queue s) 0);; mret tt) s1 tt es ∧ quiet es) as (es & Hrec & Hq').
  { eexists. split.
    - apply acts_get. eapply acts_bind; [apply acts_kernel; unfold c4_msg_recieve_async; apply does_call|apply acts_ret].
    - by apply quiet_other, quiet_nil. }
  exists (es ++ ds). split_and!; [by eapply acts_bind|by apply quiet_app|]. rewrite <-(assoc_L (++)). by apply quiet_ready.
Qed.

(** The drive told to start a transfer. *)
Definition head_of (sel location : Z) : Z :=
  Z.lor (Z.lor 0xe0 (Z.shiftl sel 4)) (Z.land (Z.shiftr location 24) 0xf).
Definition started (sel location count : Z) (w : bool) (disk : Z → Z → Z) : drive :=
  mk_drive (u8 (head_of sel location)) (u8 count) (Z.land location 0xff) (Z.land (Z.shiftr location 8) 0xff)
    (Z.land (Z.shiftr location 16) 0xff) (Some (w, 0)) disk 0.

Lemma land_u8 z : u8 (Z.land z 0xff) = Z.land z 0xff.
Proof. change 0xff with (Z.ones 8). rewrite Z.land_ones by lia. apply Zmod_mod. Qed.

Lemma head_land sel location : (sel = 0 ∨ sel = 1) →
  Z.land (u8 (head_of sel location)) 0xf = Z.land (Z.shiftr location 24) 0xf ∧
  Z.land (Z.shiftr (u8 (head_of sel location)) 4) 1 = sel.
Proof.
  intros Hs. assert (u8 (head_of sel location) = Z.lor (if decide (sel = 0) then 0xe0 else 0xf0) (Z.land (Z.shiftr location 24) 0xf)) as ->.
  { unfold wrapu, head_of. rewrite <-Z.land_ones by lia. rewrite Z.land_lor_distr_l, <-Z.land_assoc.
    destruct Hs as [-> | ->]; done. }
  rewrite Z.land_lor_distr_l, Z.shiftr_lor, Z.land_lor_distr_l, <-Z.land_assoc, Z.shiftr_land.
  rewrite <-(Z.land_assoc _ _ 1). destruct Hs as [-> | ->]; simpl; rewrite ?Z.land_0_r, ?Z.lor_0_r; done.
Qed.

Lemma started_lba sel location count w disk : (sel = 0 ∨ sel = 1) → 0 <= location < 2 ^ 28 →
  dr_lba (started sel location count w disk) = location ∧ dr_sel (started sel location count w disk) = sel.
Proof.
  intros Hs Hl. destruct (head_land sel location Hs) as [Hh Hsel].
  split; [|exact Hsel]. unfold dr_lba, started. cbn [dr_head dr_lba0 dr_lba1 dr_lba2]. rewrite Hh.
  change 0xff with (Z.ones 8). change 0xf with (Z.ones 4). rewrite !Z.land_ones, !Z.shiftr_div_pow2 by lia. Z.to_euclidean_division_equations. lia.
Qed.

(** A latched register leaves a free drive free. *)
Lemma latch_step reg v h : 0 <= reg < 7 → free_drive (drive_at h) →
  drive_at (out_byte_call (base + u8 reg) v :: h) = reg_write_step 0 reg (u8 v) (drive_at h) ∧
  free_drive (reg_write_step 0 reg (u8 v) (drive_at h)).
Proof.
  intros Hr Hf. rewrite (out_byte_step reg v h) by (done || lia). destruct (drive_at h) as [hd ct l0 l1 l2 p f b], Hf as [Eb Ep].
  cbn [dr_busy dr_phase] in Eb, Ep. subst b p. unfold reg_write_step. rewrite (proj2 (Z.eqb_neq reg ATA_REG_COMMAND)) by (unfold ATA_REG_COMMAND; lia).
  by repeat case_match.
Qed.

Lemma out_regs (d : drive) sel location count cmd w h :
  (cmd = ATA_CMD_READ_PIO ∧ w = false ∨ cmd = ATA_CMD_WRITE_PIO ∧ w = true) → drive_at h = d → free_drive d →
  ready (drive_at
    ([out_byte_call (base + u8 ATA_REG_COMMAND) (u8 cmd); out_byte_call (base + u8 ATA_REG_LBA2) (u8 (Z.land (Z.shiftr location 16) 0xff));
      out_byte_call (base + u8 ATA_REG_LBA1) (u8 (Z.land (Z.shiftr location 8) 0xff));
      out_byte_call (base + u8 ATA_REG_LBA0) (u8 (Z.land location 0xff));
      out_byte_call (base + u8 ATA_REG_SEC_COUNT0) (u8 count);
      out_byte_call (base + u8 ATA_REG_HD_DEV_SELECT) (u8 (head_of sel location))] ++ h))
  = started sel location count w (dr_disk d).
Proof.
  intros Hw Hd Hf. cbn [app]. rewrite <-Hd in *.
  destruct (latch_step ATA_REG_HD_DEV_SELECT (u8 (head_of sel location)) h) as [E1 F1]; [done|done|]. rewrite <-E1 in F1.
  destruct (latch_step ATA_REG_SEC_COUNT0 (u8 count) _ ltac:(done) F1) as [E2 F2]. rewrite <-E2 in F2.
  destruct (latch_step ATA_REG_LBA0 (u8 (Z.land location 0xff)) _ ltac:(done) F2) as [E3 F3]. rewrite <-E3 in F3.
  destruct (latch_step ATA_REG_LBA1 (u8 (Z.land (Z.shiftr location 8) 0xff)) _ ltac:(done) F3) as [E4 F4]. rewrite <-E4 in F4.
  destruct (latch_step ATA_REG_LBA2 (u8 (Z.land (Z.shiftr location 16) 0xff)) _ ltac:(done) F4) as [E5 F5]. rewrite <-E5 in F5.
  rewrite out_byte_step by done. rewrite E5, E4, E3, E2, E1, !wrapu_wrapu, !land_u8. destruct (drive_at h). unfold started.
  destruct Hw as [[-> ->]|[-> ->]]; reflexivity.
Qed.

Lemma define_acts location count s : zget (channels s) channel = Some cc →
  acts (ide_define_access channel location count) s tt
    [out_byte_call (base + u8 ATA_REG_LBA2) (u8 (Z.land (Z.shiftr location 16) 0xff));
     out_byte_call (base + u8 ATA_REG_LBA1) (u8 (Z.land (Z.shiftr location 8) 0xff));
     out_byte_call (base + u8 ATA_REG_LBA0) (u8 (Z.land location 0xff));
     out_byte_call (base + u8 ATA_REG_SEC_COUNT0) (u8 count)].
Proof.
  intros Hc. rewrite <-Hb. unfold ide_define_access.
  apply (acts_bind _ _ _ _ _ _ [_; _; _] (write_reg_acts _ _ _ _ _ Hc)).
  apply (acts_bind _ _ _ _ _ _ [_; _] (write_reg_acts _ _ _ (with_calls _ s) _ Hc)).
  apply (acts_bind _ _ _ _ _ _ [_] (write_reg_acts _ _ _ (with_calls _ (with_calls _ s)) _ Hc)). by apply write_reg_acts.
Qed.

(** No transfer is unfinished. *)
Definition at_rest (h : list kcall) : Prop := dr_phase (drive_at h) = None.

Lemma start_access_acts device dv location count cmd w s :
  zget (channels s) channel = Some cc → zget (devices s) device = Some dv → dev_channel dv = channel →
  (cmd = ATA_CMD_READ_PIO ∧ w = false ∨ cmd = ATA_CMD_WRITE_PIO ∧ w = true) → at_rest (a_hist s) →
  ∃ cs, acts (ide_start_access fuel device location count cmd) s tt cs ∧
    drive_at (cs ++ a_hist s) = started (dev_drive dv) location count w (dr_disk (drive_at (a_hist s))).
Proof.
  intros Hc Hd Hch Hw Hrest. unfold ide_start_access.
  destruct (ready_loop_settles fuel s Hc) as (cs & Hready & _ & E1).
  { pose proof (busy_bound delay _ _ _ HC (a_hist s)). lia. }
  set (regs := [out_byte_call (base + u8 ATA_REG_COMMAND) (u8 cmd); out_byte_call (base + u8 ATA_REG_LBA2) (u8 (Z.land (Z.shiftr location 16) 0xff));
      out_byte_call (base + u8 ATA_REG_LBA1) (u8 (Z.land (Z.shiftr location 8) 0xff));
      out_byte_call (base + u8 ATA_REG_LBA0) (u8 (Z.land location 0xff));
      out_byte_call (base + u8 ATA_REG_SEC_COUNT0) (u8 count);
      out_byte_call (base + u8 ATA_REG_HD_DEV_SELECT) (u8 (head_of (dev_drive dv) location))]).
  destruct (poll_settles (with_calls (regs ++ cs) s)) as (ds & Hpoll & _ & E2); [done|].
  exists (ds ++ regs ++ cs). split.
  - eapply acts_look; [exact Hd|]. cbv zeta. rewrite Hch. eapply acts_calls.
    + eapply acts_bind; [exact Hready|]. eapply acts_look; [exact Hd|].
      eapply acts_bind; [by apply write_reg_acts|]. eapply acts_bind; [by apply define_acts|].
      eapply acts_bind; [by apply write_reg_acts|]. rewrite !with_calls_app, Hb. exact Hpoll.
    + rewrite <-!(assoc_L (++)), Hb. reflexivity.
  - rewrite <-(assoc_L (++)). etransitivity; [exact E2|]. cbn [a_hist with_calls]. rewrite <-(assoc_L (++)).
    etransitivity; [by apply (out_regs (ready (drive_at (a_hist s))))|]. done.
Qed.

(** *** Reading *)

(** Words [i .. i+n) of the transfer the registers of [d] name. *)
Definition words_at (d : drive) (i n : Z) : list Z :=
  (λ k, u16 (dr_disk d (dr_sel d) (256 * dr_lba d + k))) <$> seqZ i n.

Lemma words_at_S d i n : 0 < n →
  words_at d i n = u16 (dr_disk d (dr_sel d) (256 * dr_lba d + i)) :: words_at d (i + 1) (n - 1).
Proof. intros. unfold words_at. by rewrite seqZ_cons. Qed.

Lemma u16_i32_u16 z : u16 (i32 (u16 z)) = u16 z.
Proof.
  pose proof (wrapu_range 16 z ltac:(lia)). rewrite i32_small by lia. apply wrapu_small. lia.
Qed.

(** Drive [d] after [i] words of its transfer, with [f] on the disks. *)
Definition moving (d : drive) (w : bool) (i : Z) (f : Z → Z → Z) : drive := set_busy 0 (set_disk f (set_phase (next_phase d w i) d)).

(** A ready drive with words left asks for data. *)
Lemma moving_now h d w i f : ready (drive_at h) = moving d w i f → dr_busy (drive_at h) = 0%nat → i < dr_words d →
  drive_at h = moving d w i f ∧ dr_phase (drive_at h) = Some (w, i) ∧ drq (drive_at h) = true.
Proof.
  intros E Hb0 Hi. rewrite (ready_id _ Hb0) in E. rewrite E. split; [done|].
  assert (dr_phase (moving d w i f) = Some (w, i)) as Ep by (unfold moving, next_phase; cbn; by rewrite (proj2 (Z.ltb_lt _ _) Hi)).
  split; [done|]. unfold drq. by rewrite Ep.
Qed.

(** Inside a sector the drive does not become busy. *)
Lemma word_moved_busy wait w i d : (i + 1) mod 256 ≠ 0 → dr_busy d = 0%nat → dr_busy (word_moved wait w (i + 1) d) = 0%nat.
Proof. intros Hm Hb0. unfold word_moved. cbn. by rewrite (proj2 (Z.eqb_neq _ _) Hm). Qed.

Lemma next_in_sector i n : 0 <= i → i mod 256 + Z.of_nat (S n) <= 256 → (0 < n)%nat →
  (i + 1) mod 256 ≠ 0 ∧ (i + 1) mod 256 + Z.of_nat n <= 256.
Proof. intros. Z.to_euclidean_division_equations. lia. Qed.

Lemma in_word_step h d i f : ready (drive_at h) = moving d false i f → dr_busy (drive_at h) = 0%nat → i < dr_words d →
  let d' := drive_at (in_word_call base :: h) in
  ready d' = moving d false (i + 1) f ∧ ((i + 1) mod 256 ≠ 0 → dr_busy d' = 0%nat).
Proof.
  intros E Hb0 Hi. destruct (moving_now h d false i f E Hb0 Hi) as (Ed & Ep & _).
  destruct actions_ne as (?&?&?&?&_). pose proof (base_ok _ _ _ _ HC).
  unfold in_word_call. cbn [drive_of]. unfold drive_step. cbn [cnum carg].
  rewrite decide_True by done. neqb. rewrite u32_small, !Z.eqb_refl by lia. cbn [andb].
  rewrite bool_decide_true by done. unfold data_read_step. rewrite Ep. split; [by rewrite Ed|].
  intros Hm. by apply word_moved_busy.
Qed.

Lemma in_word_acts s d i f : zget (channels s) channel = Some cc → ready (drive_at (a_hist s)) = moving d false i f →
  dr_busy (drive_at (a_hist s)) = 0%nat → i < dr_words d →
  acts (c ← ide_channel channel; ak (c4_in_word (ch_base c))) s (u16 (f (dr_sel d) (256 * dr_lba d + i))) [in_word_call base].
Proof.
  intros Hc E Hb0 Hi. destruct (moving_now _ d false i f E Hb0 Hi) as (Ed & Ep & Eq). eapply acts_look; [exact Hc|]. rewrite Hb.
  pose proof (data_word _ _ _ _ HC (a_hist s) i Eq Ep) as Ew. rewrite Ed in Ew. change (dr_sel (moving _ _ _ _)) with (dr_sel d) in Ew.
  change (dr_lba (moving _ _ _ _)) with (dr_lba d) in Ew. change (dr_disk (moving _ _ _ _)) with f in Ew.
  rewrite <-u16_i32_u16, <-Ew. by apply acts_kernel.
Qed.

Lemma read_words_acts d n : ∀ i buf s, zget (channels s) channel = Some cc →
  ready (drive_at (a_hist s)) = moving d false i (dr_disk d) → ((0 < n)%nat → dr_busy (drive_at (a_hist s)) = 0%nat) →
  0 <= i → i mod 256 + Z.of_nat n <= 256 → i + Z.of_nat n <= dr_words d → i + Z.of_nat n <= Z.of_nat (length buf) →
  i + Z.of_nat n <= 2 ^ 32 →
  ∃ cs, acts (read_words n channel i buf) s (list_inserts (Z.to_nat i) (words_at d i (Z.of_nat n)) buf) cs ∧
    ready (drive_at (cs ++ a_hist s)) = moving d false (i + Z.of_nat n) (dr_disk d).
Proof.
  induction n as [|n IH]; intros i buf s Hc E Hb0 Hi Hsec Hw Hl H32.
  - exists []. split; [apply acts_ret|]. cbn [app]. by rewrite Z.add_0_r.
  - specialize (Hb0 ltac:(lia)). set (s1 := with_calls [in_word_call base] s). set (w := u16 (dr_disk d (dr_sel d) (256 * dr_lba d + i))).
    destruct (in_word_step _ d i _ E Hb0 ltac:(lia)) as [E1 Hb1]. pose proof (next_in_sector i n Hi Hsec) as Hns.
    destruct (IH (i + 1) (<[Z.to_nat i := w]> buf) s1) as (cs & Hrun & Hd); [done|done|intros Hn; by apply Hb1, Hns|lia| |lia|rewrite length_insert; lia|lia|].
    { destruct n as [|n]; [Z.to_euclidean_division_equations; lia|]. by apply Hns; lia. }
    exists (cs ++ [in_word_call base]). split.
    + eapply acts_calls; [|reflexivity].
      pose proof (in_word_acts s d i _ Hc E Hb0 ltac:(lia)) as Hin. cbn [read_words].
      unfold acts, mbind, M_bind in Hin |- *. destruct (ide_channel channel s) as [[c s'] | |]; [|done|done].
      destruct (ak (c4_in_word (ch_base c)) s') as [[w' s2] | |]; [|done|done]. injection Hin as -> ->.
      fold w s1. unfold getsome. rewrite u32_small, zset_lt by lia.
      unfold acts in Hrun. rewrite Hrun, <-with_calls_app. fold s1. do 2 f_equal.
      rewrite (words_at_S d i) by lia. cbn [list_inserts]. fold w.
      rewrite list_insert_inserts_lt by lia. f_equal; [lia|]. unfold words_at. do 2 f_equal; lia.
    + rewrite <-(assoc_L (++)). etransitivity; [exact Hd|]. f_equal. lia.
Qed.

Lemma run_words_app d i m n : 0 <= m → 0 <= n → words_at d i (m + n) = words_at d i m ++ words_at d (i + m) n.
Proof. intros. unfold words_at. by rewrite seqZ_app, fmap_app. Qed.

Lemma length_words_at d i n : length (words_at d i n) = Z.to_nat n.
Proof. unfold words_at. by rewrite length_fmap, length_seqZ. Qed.

(** A sector and the wait after it: the drive is ready for the next. *)
Lemma after_sector cs s d w i f : zget (channels s) channel = Some cc → ready (drive_at (cs ++ a_hist s)) = moving d w i f →
  ∃ ds, acts (ide_channel_poll fuel channel) (with_calls cs s) tt ds ∧ drive_at (ds ++ cs ++ a_hist s) = moving d w i f.
Proof.
  intros Hc E. destruct (poll_settles (with_calls cs s) Hc) as (ds & Hpoll & _ & E').
  exists ds. split; [exact Hpoll|]. etransitivity; [exact E'|exact E].
Qed.

Lemma read_sectors_acts d n : ∀ sector buf s, zget (channels s) channel = Some cc →
  let i := sector * 256 in let m := 256 * Z.of_nat n in
  drive_at (a_hist s) = moving d false i (dr_disk d) → 0 <= sector → i + m <= dr_words d → i + m <= Z.of_nat (length buf) → i + m <= 2 ^ 32 →
  ∃ cs, acts (read_sectors fuel n channel sector buf) s (list_inserts (Z.to_nat i) (words_at d i m) buf) cs ∧
    drive_at (cs ++ a_hist s) = moving d false (i + m) (dr_disk d).
Proof.
  induction n as [|n IH]; intros sector buf s Hc i m E Hs Hw Hl H32.
  - exists []. split; [apply acts_ret|]. cbn [app]. rewrite E. f_equal. lia.
  - (* one sector, the poll after it, the rest *)
    assert (i mod 256 = 0) as Hi0 by (unfold i; apply Z_mod_mult).
    destruct (read_words_acts d 256 i buf s Hc) as (cs & Hrun & Hd); [by rewrite E|by rewrite E|lia..|].
    destruct (after_sector cs s d _ _ _ Hc Hd) as (ds & Hpoll & Hd1).
    set (s1 := with_calls (ds ++ cs) s).
    destruct (IH (sector + 1) (list_inserts (Z.to_nat i) (words_at d i (Z.of_nat 256)) buf) s1) as (es & Hrest & Hd2);
      [done| |lia|lia|rewrite length_inserts; lia|lia|].
    { unfold s1. cbn [a_hist with_calls]. rewrite <-(assoc_L (++)), Hd1. f_equal. lia. }
    exists (es ++ ds ++ cs). split.
    + replace (list_inserts (Z.to_nat i) (words_at d i m) buf) with
        (list_inserts (Z.to_nat ((sector + 1) * 256)) (words_at d ((sector + 1) * 256) (256 * Z.of_nat n))
          (list_inserts (Z.to_nat i) (words_at d i (Z.of_nat 256)) buf)).
      2:{ replace m with (Z.of_nat 256 + 256 * Z.of_nat n) by lia. rewrite run_words_app by lia.
          rewrite list_inserts_app_l, length_words_at. f_equal; [lia|]. unfold words_at. do 2 f_equal; lia. }
      cbn [read_sectors]. rewrite (assoc_L (++)). eapply acts_bind; [exact Hrun|].
      eapply acts_bind; [exact Hpoll|]. rewrite with_calls_app. exact Hrest.
    + rewrite <-(assoc_L (++)). etransitivity; [exact Hd2|]. f_equal. lia.
Qed.

(** *** Writing *)
Fixpoint store_words (f : Z → Z → Z) (sel j : Z) (ws : list Z) : Z → Z → Z :=
  match ws with [] => f | w :: ws' => store_words (store_word f sel j w) sel (j + 1) ws' end.

Lemma store_words_app f sel ws : ∀ j vs, store_words f sel j (ws ++ vs) = store_words (store_words f sel j ws) sel (j + Z.of_nat (length ws)) vs.
Proof. revert f. induction ws as [|w ws IH]; intros f j vs; cbn [app store_words length]; [f_equal; lia|]. rewrite IH. f_equal. lia. Qed.

(** What a store leaves on the disk. *)
Lemma store_words_lookup sel ws : ∀ f j q k, store_words f sel j ws q k =
  if (q =? sel) && (j <=? k) && (k <? j + Z.of_nat (length ws)) then default 0 (zget ws (k - j)) else f q k.
Proof.
  induction ws as [|w ws IH]; intros f j q k; cbn [store_words length].
  { destruct (q =? sel); cbn [andb]; [|done]. zbool; simpl; try done; lia. }
  rewrite IH. unfold store_word. destruct (q =? sel) eqn:Es; cbn [andb]; [|done]. unfold zget. zbool; cbn [andb]; try done; try lia.
  - by replace (Z.to_nat (k - j)) with 0%nat by lia.
  - by replace (Z.to_nat (k - j)) with (S (Z.to_nat (k - (j + 1)))) by lia.
Qed.

Lemma out_word_step h d i f w : ready (drive_at h) = moving d true i f → dr_busy (drive_at h) = 0%nat → i < dr_words d → 0 <= w < 2 ^ 16 →
  let d' := drive_at (out_word_call base w :: h) in
  ready d' = moving d true (i + 1) (store_word f (dr_sel d) (256 * dr_lba d + i) w) ∧ ((i + 1) mod 256 ≠ 0 → dr_busy d' = 0%nat).
Proof.
  intros E Hb0 Hi Hw. destruct (moving_now h d true i f E Hb0 Hi) as (Ed & Ep & _).
  destruct actions_ne as (?&?&?&?&?&?). pose proof (base_ok _ _ _ _ HC).
  unfold out_word_call. cbn [drive_of]. unfold drive_step. cbn [cnum carg].
  rewrite decide_True by done. neqb. rewrite u32_small, !Z.eqb_refl by lia. cbn [andb].
  rewrite bool_decide_true, (wrapu_small 16 w) by done. unfold data_write_step. rewrite Ep. split; [by rewrite Ed|].
  intros Hm. by apply word_moved_busy.
Qed.

Definition is_word (w : Z) : Prop := 0 <= w < 2 ^ 16.

(** [n] words of the buffer from word [i]. *)
Definition part (buf : list Z) (i : Z) (n : nat) : list Z := take n (drop (Z.to_nat i) buf).

Lemma part_S buf i n w : 0 <= i → zget buf i = Some w → part buf i (S n) = w :: part buf (i + 1) n.
Proof.
  intros Hi [_ Hw]%zget_Some. unfold part. rewrite (drop_S _ w) by done. cbn [take].
  replace (Z.to_nat (i + 1)) with (S (Z.to_nat i)) by lia. done.
Qed.

Lemma write_words_acts d n : ∀ i buf f s, zget (channels s) channel = Some cc → Forall is_word buf →
  ready (drive_at (a_hist s)) = moving d true i f → ((0 < n)%nat → dr_busy (drive_at (a_hist s)) = 0%nat) →
  0 <= i → i mod 256 + Z.of_nat n <= 256 → i + Z.of_nat n <= dr_words d → i + Z.of_nat n <= Z.of_nat (length buf) →
  i + Z.of_nat n <= 2 ^ 32 →
  ∃ cs, acts (write_words n channel i buf) s tt cs ∧
    ready (drive_at (cs ++ a_hist s)) =
      moving d true (i + Z.of_nat n) (store_words f (dr_sel d) (256 * dr_lba d + i) (part buf i n)).
Proof.
  induction n as [|n IH]; intros i buf f s Hc Hbuf E Hb0 Hi Hsec Hw Hl H32.
  - exists []. split; [apply acts_ret|]. cbn [app]. by rewrite Z.add_0_r.
  - specialize (Hb0 ltac:(lia)). destruct (zget_lt buf i) as (w & Ew & Hlook); [lia|]. pose proof (proj1 (Forall_lookup _ _) Hbuf _ _ Hlook) as Hww.
    set (s1 := with_calls [out_word_call base w] s).
    destruct (out_word_step _ d i f w E Hb0 ltac:(lia) Hww) as [E1 Hb1]. pose proof (next_in_sector i n Hi Hsec) as Hns.
    destruct (IH (i + 1) buf (store_word f (dr_sel d) (256 * dr_lba d + i) w) s1) as (cs & Hrun & Hd);
      [done|done|done|intros Hn; by apply Hb1, Hns|lia| |lia..|].
    { destruct n as [|n]; [Z.to_euclidean_division_equations; lia|]. by apply Hns; lia. }
    exists (cs ++ [out_word_call base w]). split.
    + cbn [write_words]. eapply acts_look; [exact Hc|]. eapply acts_look; [by rewrite u32_small by lia|].
      eapply acts_bind; [|exact Hrun]. rewrite Hb. by apply acts_kernel.
    + rewrite <-(assoc_L (++)). etransitivity; [exact Hd|]. rewrite (part_S _ _ _ _ Hi Ew). cbn [store_words].
      f_equal; [lia|]. f_equal. lia.
Qed.

Lemma part_app buf i m n : 0 <= i → part buf i (m + n) = part buf i m ++ part buf (i + Z.of_nat m) n.
Proof.
  intros. unfold part. rewrite <-take_take_drop, drop_drop. do 3 f_equal. lia.
Qed.

Lemma length_part buf i n : 0 <= i → i + Z.of_nat n <= Z.of_nat (length buf) → length (part buf i n) = n.
Proof. intros. unfold part. rewrite length_take, length_drop. lia. Qed.

Lemma write_sectors_acts d n : ∀ sector buf f s, zget (channels s) channel = Some cc → Forall is_word buf →
  let i := sector * 256 in
  drive_at (a_hist s) = moving d true i f → 0 <= sector → i + 256 * Z.of_nat n <= dr_words d →
  i + 256 * Z.of_nat n <= Z.of_nat (length buf) → i + 256 * Z.of_nat n <= 2 ^ 32 →
  ∃ cs, acts (write_sectors fuel n channel sector buf) s tt cs ∧
    drive_at (cs ++ a_hist s) =
      moving d true (i + 256 * Z.of_nat n) (store_words f (dr_sel d) (256 * dr_lba d + i) (part buf i (256 * n))).
Proof.
  induction n as [|n IH]; intros sector buf f s Hc Hbuf i E Hs Hw Hl H32.
  - exists []. split; [apply acts_ret|]. cbn [app]. rewrite E. f_equal. lia.
  - assert (i mod 256 = 0) as Hi0 by (unfold i; apply Z_mod_mult).
    destruct (write_words_acts d 256 i buf f s Hc Hbuf) as (cs & Hrun & Hd); [by rewrite E|by rewrite E|lia..|].
    destruct (after_sector cs s d _ _ _ Hc Hd) as (ds & Hpoll & Hd1).
    set (s1 := with_calls (ds ++ cs) s). set (f1 := store_words f _ _ _) in *.
    destruct (IH (sector + 1) buf f1 s1) as (es & Hrest & Hd2); [done|done| |lia..|].
    { unfold s1. cbn [a_hist with_calls]. rewrite <-(assoc_L (++)), Hd1. f_equal. lia. }
    exists (es ++ ds ++ cs). split.
    + cbn [write_sectors]. rewrite (assoc_L (++)). eapply acts_bind; [exact Hrun|].
      eapply acts_bind; [exact Hpoll|]. rewrite with_calls_app. exact Hrest.
    + rewrite <-(assoc_L (++)). etransitivity; [exact Hd2|].
      replace (256 * S n)%nat with (256 + 256 * n)%nat by lia.
      rewrite part_app, store_words_app, length_part by lia. fold f1. f_equal; [lia|].
      replace ((sector + 1) * 256) with (i + Z.of_nat 256) by lia. f_equal. lia.
Qed.

(** *** Whole transfers *)
Lemma started_words sel location count w disk : 0 < count <= 256 → dr_words (started sel location count w disk) = 256 * count.
Proof.
  intros. unfold dr_words, started. cbn [dr_count]. destruct (Z.eq_dec count 256) as [-> |]; [done|].
  rewrite wrapu_small by lia. by rewrite (proj2 (Z.eqb_neq _ _)) by lia.
Qed.

(** The sectors [location .. location + count) of drive [sel], as words. *)
Definition sector_words (disk : Z → Z → Z) (sel location count : Z) : list Z :=
  (λ k, u16 (disk sel (256 * location + k))) <$> seqZ 0 (256 * count).

Definition disk_after (h : list kcall) : Z → Z → Z := dr_disk (drive_at h).

Context (device : Z) (dv : ide_device_t) (Hsel : dev_drive dv = 0 ∨ dev_drive dv = 1) (Hch : dev_channel dv = channel).

Lemma started_moving sel location count w disk : 0 < count <= 256 →
  started sel location count w disk = moving (started sel location count w disk) w 0 disk.
Proof. intros Hn. unfold moving, next_phase. rewrite started_words, (proj2 (Z.ltb_lt _ _)) by lia. done. Qed.

(** The last word ends the transfer. *)
Lemma moving_over d w i f : dr_words d <= i → dr_phase (moving d w i f) = None.
Proof. intros Hi. unfold moving, next_phase. cbn. by rewrite (proj2 (Z.ltb_ge _ _) Hi). Qed.

Lemma pio_read_spec location count buf s :
  zget (channels s) channel = Some cc → zget (devices s) device = Some dv → at_rest (a_hist s) →
  0 <= location < 2 ^ 28 → 0 < count <= 256 → 256 * count <= Z.of_nat (length buf) →
  ∃ cs, acts (ide_pio_read fuel device buf location count) s
      (sector_words (disk_after (a_hist s)) (dev_drive dv) location count ++ drop (Z.to_nat (256 * count)) buf) cs ∧
    disk_after (cs ++ a_hist s) = disk_after (a_hist s) ∧ at_rest (cs ++ a_hist s).
Proof.
  intros Hc Hd Hr Hl Hn Hbuf.
  destruct (start_access_acts device dv location count ATA_CMD_READ_PIO false s Hc Hd Hch ltac:(by left) Hr) as (cs & Hstart & Hd1).
  destruct (started_lba (dev_drive dv) location count false (disk_after (a_hist s)) Hsel Hl) as [Hlba Hs].
  pose proof (started_moving (dev_drive dv) location count false (disk_after (a_hist s)) Hn) as Em.
  pose proof (started_words (dev_drive dv) location count false (disk_after (a_hist s)) Hn) as Hw.
  fold (disk_after (a_hist s)) in Hd1. set (d := started _ _ _ _ _) in *. clearbody d. rewrite Em in Hd1.
  assert (dr_disk d = disk_after (a_hist s)) as Hdk by (rewrite Em; done).
  destruct (read_sectors_acts d (Z.to_nat count) 0 buf (with_calls cs s) Hc) as (ds & Hread & Hd2);
    cbn [a_hist with_calls]; [by rewrite Hd1, Hdk|lia..|].
  exists (ds ++ cs). split.
  - eapply acts_look; [exact Hd|]. eapply acts_bind; [exact Hstart|]. rewrite Hch.
    unfold words_at in Hread. rewrite Hlba, Hs, Hdk in Hread.
    rewrite Z2Nat.id in Hread by lia. fold (sector_words (disk_after (a_hist s)) (dev_drive dv) location count) in Hread.
    rewrite <-(take_drop (Z.to_nat (256 * count)) buf), list_inserts_0_r, take_drop in Hread; [exact Hread|].
    unfold sector_words. rewrite length_fmap, length_seqZ, length_take. lia.
  - unfold disk_after, at_rest. rewrite <-(assoc_L (++)). cbn [a_hist with_calls] in Hd2. rewrite Hd2. split; [exact Hdk|].
    apply moving_over. lia.
Qed.

(** The flush gets through: the drive is ready and the transfer is over. *)
Lemma flush_step h : free_drive (drive_at h) → let h' := out_byte_call (base + u8 ATA_REG_COMMAND) (u8 ATA_CMD_CACHE_FLUSH) :: h in
  disk_after h' = disk_after h ∧ at_rest h'.
Proof.
  intros Hf. unfold disk_after, at_rest. rewrite out_byte_step by (done || unfold ATA_REG_COMMAND; lia). by destruct (drive_at h).
Qed.

Lemma pio_write_spec location count buf s :
  zget (channels s) channel = Some cc → zget (devices s) device = Some dv → at_rest (a_hist s) → Forall is_word buf →
  0 <= location < 2 ^ 28 → 0 < count <= 256 → 256 * count <= Z.of_nat (length buf) →
  ∃ cs, acts (ide_pio_write fuel device buf location count) s tt cs ∧ at_rest (cs ++ a_hist s) ∧
    ∀ q k, disk_after (cs ++ a_hist s) q k =
      if (q =? dev_drive dv) && (256 * location <=? k) && (k <? 256 * (location + count))
      then default 0 (zget buf (k - 256 * location)) else disk_after (a_hist s) q k.
Proof.
  intros Hc Hd Hr Hw Hl Hn Hbuf.
  destruct (start_access_acts device dv location count ATA_CMD_WRITE_PIO true s Hc Hd Hch ltac:(by right) Hr) as (cs & Hstart & Hd1).
  destruct (started_lba (dev_drive dv) location count true (disk_after (a_hist s)) Hsel Hl) as [Hlba Hs].
  pose proof (started_moving (dev_drive dv) location count true (disk_after (a_hist s)) Hn) as Em.
  pose proof (started_words (dev_drive dv) location count true (disk_after (a_hist s)) Hn) as Hdw.
  fold (disk_after (a_hist s)) in Hd1. set (d := started _ _ _ _ _) in *. clearbody d. rewrite Em in Hd1.
  destruct (write_sectors_acts d (Z.to_nat count) 0 buf (disk_after (a_hist s)) (with_calls cs s) Hc Hw) as (ds & Hwrite & Hd2);
    cbn [a_hist with_calls]; [done|lia..|]. cbn [a_hist with_calls] in Hd2.
  set (h1 := ds ++ cs ++ a_hist s) in *.
  assert (free_drive (drive_at h1)) as Hf1 by (rewrite Hd2; split; [done|apply moving_over; lia]).
  destruct (flush_step h1 Hf1) as [Hdk Hr'].
  exists ([out_byte_call (base + u8 ATA_REG_COMMAND) (u8 ATA_CMD_CACHE_FLUSH)] ++ ds ++ cs). split_and!.
  - eapply acts_look; [exact Hd|]. rewrite (assoc_L (++)). eapply acts_bind; [exact Hstart|]. rewrite Hch.
    eapply acts_bind; [exact Hwrite|]. rewrite <-Hb. by apply write_reg_acts.
  - cbn [app]. by rewrite <-(assoc_L (++)).
  - intros q k. cbn [app]. rewrite <-(assoc_L (++)). fold h1. rewrite Hdk. unfold disk_after at 1. rewrite Hd2. cbn [dr_disk moving set_busy set_disk].
    rewrite Hlba, Hs, store_words_lookup, length_part by lia.
    replace (256 * location + 0 * 256) with (256 * location) by lia.
    replace (256 * location + Z.of_nat (256 * Z.to_nat count)) with (256 * (location + count)) by lia.
    destruct (q =? dev_drive dv); cbn [andb]; [|done]. zbool; cbn [andb]; try done.
    unfold part, zget. rewrite (proj2 (Z.ltb_ge _ _)) by lia. rewrite lookup_take_lt by lia. by rewrite drop_0.
Qed.
End transfer.
