(* ===== verification/AtaSpec.v ===== *)
(** What the disk driver promises: transfers that move exactly the sectors
    asked for, a write that a later read gives back, and the service of a
    request from the granted page to the answer. *)

From S2P Require Import Prelude Kernel Ata AtaDrive.
#[local] Open Scope Z_scope.

Section claims.
Context `{KernelEnv}.

(** The device at an index is drive 0 or 1 of the channel at [base]. *)
Definition attached (s : ata) (device : Z) (dv : ide_device_t) (base : Z) : Prop :=
  zget (devices s) device = Some dv ∧ (dev_drive dv = 0 ∨ dev_drive dv = 1) ∧
  ∃ cc, zget (channels s) (dev_channel dv) = Some cc ∧ ch_base cc = base.

(** A transfer the registers can express and the buffer can hold. *)
Definition transfer_ok (location count : Z) (buf : list Z) : Prop :=
  0 <= location < 2 ^ 28 ∧ 0 < count <= 256 ∧ 256 * count <= Z.of_nat (length buf).

(** C23: on a drive that is busy for a while after every command and every
    sector, and loses what is moved while it is busy: a read returns the sectors
    asked for in the front of the buffer, and what a write put on the disk a
    later read of the same sectors gives back.  A write changes no other sector
    and a read changes none.  Both return, however long the drive takes up to
    the fuel, and leave no transfer unfinished.  (A transfer is of 1 to 256
    sectors below 2^28, the buffer holds them, and the drive reports no error.) *)
Theorem pio_roundtrip delay base d0 patience fuel device dv location count buf s :
  controller delay base d0 patience → (patience <= fuel)%nat → attached s device dv base → at_rest delay base d0 (a_hist s) →
  transfer_ok location count buf → Forall is_word buf →
  ∃ cs, acts (ide_pio_write fuel device buf location count) s tt cs ∧ at_rest delay base d0 (cs ++ a_hist s) ∧
    (∀ q l n, 0 <= l → q ≠ dev_drive dv ∨ l + n <= location ∨ location + count <= l →
      sector_words (disk_after delay base d0 (cs ++ a_hist s)) q l n = sector_words (disk_after delay base d0 (a_hist s)) q l n) ∧
    ∀ buf', transfer_ok location count buf' → ∃ ds,
      acts (ide_pio_read fuel device buf' location count) (with_calls cs s)
        (take (Z.to_nat (256 * count)) buf ++ drop (Z.to_nat (256 * count)) buf') ds ∧
      disk_after delay base d0 (ds ++ cs ++ a_hist s) = disk_after delay base d0 (cs ++ a_hist s) ∧
      at_rest delay base d0 (ds ++ cs ++ a_hist s).
Proof.
  intros HC Hf (Hd & Hsel & cc & Hc & Hb) Hr (Hl & Hn & Hbuf) Hw.
  destruct (pio_write_spec delay base d0 patience HC fuel Hf _ cc Hb device dv Hsel eq_refl location count buf s Hc Hd Hr Hw Hl Hn Hbuf)
    as (cs & Hwrite & Hr1 & Hdisk).
  exists cs. split_and!; [exact Hwrite|exact Hr1| |].
  - intros q l n Hl0 Hout. unfold sector_words. apply list_fmap_ext. intros i x Hx%lookup_seqZ. rewrite Hdisk.
    destruct (Z.eqb_spec q (dev_drive dv)); cbn [andb]; [|done]. zbool; cbn [andb]; try done. lia.
  - intros buf' (_ & _ & Hbuf').
    destruct (pio_read_spec delay base d0 patience HC fuel Hf _ cc Hb device dv Hsel eq_refl location count buf' (with_calls cs s)
      Hc Hd Hr1 Hl Hn Hbuf') as (ds & Hread & Hsame & Hr2).
    exists ds. split; [|by split]. cbn [with_calls a_hist] in Hread. replace (take (Z.to_nat (256 * count)) buf) with
      (sector_words (disk_after delay base d0 (cs ++ a_hist s)) (dev_drive dv) location count); [exact Hread|].
    apply list_eq. intros i. unfold sector_words. rewrite list_lookup_fmap.
    destruct (decide (i < Z.to_nat (256 * count))%nat) as [Hi|Hi].
    + rewrite lookup_seqZ_lt, lookup_take_lt by lia. cbn [fmap option_fmap option_map]. rewrite Hdisk, Z.eqb_refl.
      cbn [andb]. rewrite (proj2 (Z.leb_le _ _)), (proj2 (Z.ltb_lt _ _)) by lia. cbn [andb].
      destruct (zget_lt buf (Z.of_nat i)) as (w & Ew & Hlook); [lia|].
      replace (256 * location + (0 + Z.of_nat i) - 256 * location) with (Z.of_nat i) by lia. rewrite Ew. cbn [default].
      rewrite Nat2Z.id in Hlook. rewrite Hlook. f_equal. apply wrapu_small. by apply (proj1 (Forall_lookup _ _) Hw _ _ Hlook).
    + rewrite lookup_seqZ_ge by lia. rewrite lookup_take_ge by lia. done.
Qed.

(** *** Serving a request *)
Definition unmap_page : kcall := mk_call SYSCALL_ADDRSPACE_UNMAP [C4_CURRENT_ADDRSPACE; u32 DISK_PAGE; 0; 0] no_msg.
Definition answer_call (ep : Z) (m : message) : kcall := mk_call SYSCALL_SYNC_SEND [0; u32 ep; 0; 0] m.
Definition drop_cap (cap : Z) : kcall := mk_call SYSCALL_CSPACE_CAP_REMOVE [C4_CURRENT_CSPACE; u32 cap; 0; 0] no_msg.
Definition request_call (ep : Z) : kcall := mk_call SYSCALL_SYNC_RECIEVE [0; u32 ep; 0; 0] no_msg.

(** What the handler does last: unmap the page, answer, drop both capabilities. *)
Definition epilogue (ep obj : Z) (m : message) : list kcall := [drop_cap obj; drop_cap ep; answer_call ep m; unmap_page].

(** The page object the client grants next. *)
Definition granted (ep : Z) (h : list kcall) : Z := mget (kernel (request_call ep :: h)).2 5.

Lemma epilogue_acts ep obj m s :
  acts (ak (c4_addrspace_unmap C4_CURRENT_ADDRSPACE DISK_PAGE);; ak (c4_msg_send m ep);;
        ak (c4_cspace_remove C4_CURRENT_CSPACE ep);; ak (c4_cspace_remove C4_CURRENT_CSPACE obj);; mret tt) s tt
    (epilogue ep obj m).
Proof.
  eapply acts_calls.
  - do 4 (eapply acts_bind; [apply acts_kernel; first [apply does_call | eapply does_bind; [apply does_call|apply does_ret]]|]).
    apply acts_ret.
  - reflexivity.
Qed.

(** The handler answers [m], has made the calls [cs] before that, and leaves
    the granted pages as [pages]. *)
Definition serves (fuel : nat) (ep : Z) (request : message) (s : ata) (obj : Z) (m : message) (pages : gmap Z (list Z))
    (cs : list kcall) : Prop :=
  ata_handle_access fuel ep request s =
    Ret (tt, mk_ata (epilogue ep obj m ++ cs ++ a_hist s) (channels s) (devices s) (interrupt_queue s) pages).

Lemma serves_missing fuel ep request dv s :
  zget (devices s) (mget request 0) = Some dv → dev_exists dv = false →
  serves fuel ep request s (granted ep (a_hist s)) (mk_msg BLOCK_MSG_ERROR []) (a_pages s) [request_call ep].
Proof.
  intros Hd He. unfold serves, ata_handle_access.
  assert (acts (ak (c4_msg_recieve ep)) s (i32 (kernel (request_call ep :: a_hist s)).1, (kernel (request_call ep :: a_hist s)).2)
    [request_call ep]) as Hr by apply acts_kernel, does_call.
  rewrite (bind_run _ _ _ _ _ Hr). cbn [snd]. cbv zeta. unfold ide_device.
  rewrite (bind_run _ _ _ dv (with_calls [request_call ep] s)) by (unfold getsome; simpl; by rewrite Hd). rewrite He. cbn [negb].
  rewrite (bind_run _ _ _ _ _ eq_refl). apply (epilogue_acts ep _ _ (with_calls [request_call ep] s)).
Qed.

Definition map_page (obj : Z) : kcall :=
  mk_call SYSCALL_ADDRSPACE_MAP [C4_CURRENT_ADDRSPACE; u32 obj; u32 DISK_PAGE; Z.lor PAGE_READ PAGE_WRITE] no_msg.

(** The handler of a request for an existing device, around its transfer. *)
Lemma handle_exists fuel ep request dv page s s1 :
  let obj := granted ep (a_hist s) in
  zget (devices s) (mget request 0) = Some dv → dev_exists dv = true → a_pages s !! obj = Some page →
  (if mtype request =? BLOCK_MSG_READ then
     page ← ide_pio_read fuel (mget request 0) page (mget request 1) (mget request 2); set_page obj page
   else ide_pio_write fuel (mget request 0) page (mget request 1) (mget request 2))
    (with_calls [map_page obj; request_call ep] s) = Ret (tt, s1) →
  ata_handle_access fuel ep request s = Ret (tt, with_calls (epilogue ep obj (mk_msg BLOCK_MSG_COMPLETED [])) s1).
Proof.
  intros obj Hd He Hp Hrun. unfold ata_handle_access.
  assert (acts (ak (c4_msg_recieve ep)) s (i32 (kernel (request_call ep :: a_hist s)).1, (kernel (request_call ep :: a_hist s)).2)
    [request_call ep]) as Hr by apply acts_kernel, does_call.
  rewrite (bind_run _ _ _ _ _ Hr). cbn [snd]. cbv zeta. fold (granted ep (a_hist s)). fold obj. unfold ide_device.
  rewrite (bind_run _ _ _ dv (with_calls [request_call ep] s)) by (unfold getsome; simpl; by rewrite Hd). rewrite He. cbn [negb].
  set (sr := with_calls [request_call ep] s).
  assert (acts (ak (c4_addrspace_map C4_CURRENT_ADDRSPACE obj DISK_PAGE (Z.lor PAGE_READ PAGE_WRITE))) sr
    (i32 (kernel (map_page obj :: a_hist sr)).1) [map_page obj]) as Hm.
  { apply acts_kernel. change [map_page obj] with ([] ++ [map_page obj]). eapply does_bind; [apply does_call|apply does_ret]. }
  rewrite bind_assoc_run, (bind_run _ _ _ _ _ Hm). cbv beta. unfold sr. rewrite with_calls_app. cbn [app].
  rewrite bind_assoc_run, (bind_run (load_page obj) _ _ page (with_calls [map_page obj; request_call ep] s))
    by (unfold load_page, getsome; simpl; by rewrite Hp).
  rewrite bind_assoc_run, (bind_run _ _ _ _ _ Hrun), (bind_run _ _ _ _ _ eq_refl). apply epilogue_acts.
Qed.

(** Calls that are not port accesses only let time pass. *)
Lemma after_others delay base d0 cs h : Forall (λ c, cnum c ≠ SYSCALL_IOPORT) cs →
  disk_after delay base d0 (cs ++ h) = disk_after delay base d0 h ∧ (at_rest delay base d0 h → at_rest delay base d0 (cs ++ h)).
Proof.
  unfold disk_after, at_rest. induction 1 as [|c cs Hc _ [IH1 IH2]]; [done|]. cbn [app drive_of].
  unfold drive_step. rewrite decide_False by done. done.
Qed.

Lemma epilogue_others ep obj m : Forall (λ c, cnum c ≠ SYSCALL_IOPORT) (epilogue ep obj m).
Proof. repeat constructor; discriminate. Qed.

End claims.

(** ** A drive to run the driver on: its words are their own numbers, and it is
    busy for three calls after every command and sector, and to begin with. *)
Definition blank_drive : drive := mk_drive 0 0 0 0 0 None (λ _ k, k) 3.
Definition three (h : list kcall) : nat := 3.

Definition drive_answer (h : list kcall) : Z * message :=
  let e := steady 0 no_msg in
  match h with
  | [] => (0, no_msg)
  | c :: h' =>
      let d := drive_of three ATA_PRIMARY_PORT blank_drive h' in
      if decide (c = in_word_call ATA_PRIMARY_PORT) then
        match dr_phase d with
        | Some (false, n) => (u16 (dr_disk d (dr_sel d) (256 * dr_lba d + n)), no_msg)
        | _ => (0, no_msg)
        end
      else if decide (cnum c = SYSCALL_IOPORT) then
        (if bool_decide (dr_busy d = 0%nat) then if drq d then 0x58 else 0x50 else 0x80, no_msg)
      else (0, mk_msg 0 [0; 0; 0; 0; 0; 9])
  end.

#[local] Instance drive_env : KernelEnv := scripted drive_answer.

Lemma drive_controls : controller three ATA_PRIMARY_PORT blank_drive 4.
Proof.
  assert (∀ h, status_after ATA_PRIMARY_PORT h =
    let d := drive_of three ATA_PRIMARY_PORT blank_drive h in
    if bool_decide (dr_busy d = 0%nat) then if drq d then 0x58 else 0x50 else 0x80) as Est.
  { intros h. unfold status_after, kernel. cbn [drive_env scripted]. unfold drive_answer.
    rewrite decide_False by (vm_compute; discriminate). rewrite decide_True by done. cbn [fst]. cbv zeta.
    change (drive_of three ATA_PRIMARY_PORT blank_drive h) with (@drive_of (steady 0 no_msg) three ATA_PRIMARY_PORT blank_drive h).
    by repeat case_match. }
  split.
  - by apply (bool_decide_unpack _); vm_compute.
  - done.
  - intros h. rewrite Est. cbv zeta. by repeat case_match.
  - intros h. rewrite Est. cbv zeta. unfold drq. by repeat case_match.
  - intros h. rewrite Est. cbv zeta. by repeat case_match.
  - intros h n d _ Hp. unfold kernel. cbn [drive_env scripted]. unfold drive_answer.
    rewrite decide_True by done. unfold d in *. fold drive_env in *.
    change (drive_of three ATA_PRIMARY_PORT blank_drive h) with (@drive_of (steady 0 no_msg) three ATA_PRIMARY_PORT blank_drive h) in *.
    by rewrite Hp.
  - split; [simpl; lia|]. intros h. unfold three. lia.
Qed.

Definition one_drive : ata :=
  mk_ata [] [mk_channel ATA_PRIMARY_PORT 0x3f4; mk_channel ATA_SECONDARY_PORT 0x374]
    [mk_device true 0 1 0 0 0 0 []; blank_device; blank_device; blank_device] 3 {[9 := replicate 512 7]}.
Definition one_device : ide_device_t := mk_device true 0 1 0 0 0 0 [].

Lemma one_attached : attached one_drive 0 one_device ATA_PRIMARY_PORT.
Proof. split_and!; [done|by right|]. by eexists. Qed.

Lemma sevens : Forall is_word (replicate 512 7).
Proof. apply Forall_replicate. unfold is_word. lia. Qed.

Lemma sectors_ok w location : 0 <= location < 2 ^ 28 → transfer_ok location 2 (replicate 512 w).
Proof. intros. unfold transfer_ok. rewrite length_replicate. lia. Qed.

Lemma pio_roundtrip_witness : ∃ cs,
  acts (ide_pio_write 4 0 (replicate 512 7) 1054 2) one_drive tt cs ∧
  ∃ ds, acts (ide_pio_read 4 0 (replicate 512 0) 1054 2) (with_calls cs one_drive) (replicate 512 7) ds.
Proof.
  destruct (pio_roundtrip three ATA_PRIMARY_PORT blank_drive 4 4 0 one_device 1054 2 (replicate 512 7) one_drive
    drive_controls (le_n 4) one_attached eq_refl (sectors_ok 7 1054 ltac:(lia)) sevens) as (cs & Hw & _ & _ & Hr).
  exists cs. split; [exact Hw|]. destruct (Hr (replicate 512 0) (sectors_ok 0 1054 ltac:(lia))) as (ds & Hds & _).
  exists ds. change (Z.to_nat (256 * 2)) with 512%nat in Hds.
  rewrite firstn_all2, skipn_all2, app_nil_r in Hds by (rewrite length_replicate; apply le_n). exact Hds.
Defined.

