(* ===== verification/Ext2.v ===== *)
(** The ext2 file system ([programs/ext2fs/src/main.c],
    [include/ext2fs/ext2fs.h]).

    Every function works through one global page, [block_buffer]: a block read
    overwrites it and the pointers the C functions return all point into it.  The
    model keeps that page in its state and represents such a pointer by its
    offset in the page, so the aliasing is the code's own.  The disk is used
    through the block device interface of [interface/block.h]. *)

From S2P Require Import Prelude.
#[local] Open Scope Z_scope.

(** ** The block device interface

    [bd_read location size page]: whether the request failed, and the page
    afterwards; [bd_write location size page]: whether it failed.  Locations
    and sizes are in sectors of 512 bytes. *)
Class BlockDevice (D : Type) := {
  bd_read : Z → Z → list Z → M D (bool * list Z);
  bd_write : Z → Z → list Z → M D bool;
  bd_sector : D → Z → list Z;
  bd_size : D → Z;
  bd_inv : D → Prop
}.

(** Sectors [l .. l+n) of the disk, in order. *)
Definition sectors {D} `{BlockDevice D} (d : D) (l : Z) (n : nat) : list Z :=
  concat ((λ i, bd_sector d (l + Z.of_nat i)) <$> seq 0 n).

Class BlockDeviceLaws (D : Type) `{BlockDevice D} := {
  bd_sector_len : ∀ d i, bd_inv d → length (bd_sector d i) = 512%nat;
  (** A request inside the disk and the page succeeds; a read fills the front
      of the page and changes nothing. *)
  bd_read_ok : ∀ d l n page, bd_inv d → 0 <= l → 0 < n → l + n <= bd_size d → n * 512 <= Z.of_nat (length page) →
    bd_read l n page d = Ret ((false, sectors d l (Z.to_nat n) ++ drop (Z.to_nat (n * 512)) page), d);
  bd_write_ok : ∀ d l n page, bd_inv d → 0 <= l → 0 < n → l + n <= bd_size d → n * 512 <= Z.of_nat (length page) →
    ∃ d', bd_write l n page d = Ret (false, d') ∧ bd_inv d' ∧ bd_size d' = bd_size d ∧
      sectors d' l (Z.to_nat n) = take (Z.to_nat (n * 512)) page ∧
      ∀ i, i < l ∨ l + n <= i → bd_sector d' i = bd_sector d i
}.

(** ** On-disk structures *)

(** The superblock fields the program reads. *)
Record ext2_superblock := mk_super {
  total_inodes : Z; total_blocks : Z; sb_block_size : Z; blocks_per_group : Z; inodes_per_group : Z;
  signature : Z; sb_inode_size : Z
}.

(** [ext2fs_t] without the connection server. *)
Record ext2fs := mk_ext2fs { superblock : ext2_superblock; block_device_start : Z; block_device : Z }.

Definition EXT2_SIGNATURE : Z := 0xef53.
Definition EXT2_INODE_TYPE_DIRECTORY : Z := 4.

(** [sizeof(ext2_inode_t)] and [sizeof(ext2_block_group_desc_t)]; an inode is
    kept as its bytes. *)
Definition sizeof_inode : nat := 120.
Definition sizeof_desc : Z := 32.
Definition PAGE_SIZE : Z := 4096.

Definition fld16 (raw : list Z) (o : Z) : Z := default 0 (ld16 raw o).
Definition fld32 (raw : list Z) (o : Z) : Z := default 0 (ld32 raw o).
Definition i_modes (raw : list Z) : Z := fld16 raw 0.
Definition i_lower_size (raw : list Z) : Z := fld32 raw 4.
Definition i_direct_ptr (raw : list Z) (i : Z) : Z := fld32 raw (40 + 4 * i).
Definition i_single_indirect_ptr (raw : list Z) : Z := fld32 raw 88.
Definition set_direct_ptr (raw : list Z) (i v : Z) : list Z := default raw (stn raw (40 + 4 * i) (le32 v)).
Definition set_single_indirect_ptr (raw : list Z) (v : Z) : list Z := default raw (stn raw 88 (le32 v)).

(** ** Geometry *)
Section geometry.
Context (fs : ext2fs).
Definition is_valid_ext2fs : bool := signature (superblock fs) =? EXT2_SIGNATURE.
Definition ext2_block_size : Z := u32 (Z.shiftl 1 (sb_block_size (superblock fs) + 10)).
Definition ext2_inode_size : Z := sb_inode_size (superblock fs).
Definition ext2_block_to_sector (block : Z) : Z := u32 (u32 (block * ext2_block_size) / 512 + block_device_start fs).
Definition ext2_block_size_to_sectors : Z := ext2_block_size / 512.
Definition ext2_total_block_descs : Z := total_blocks (superblock fs) / blocks_per_group (superblock fs).
Definition ext2_inodes_per_group : Z := inodes_per_group (superblock fs).
Definition ext2_inodes_per_block : Z := ext2_block_size / ext2_inode_size.
Definition ext2_max_inode : Z := total_inodes (superblock fs).
Definition ext2_max_block : Z := total_blocks (superblock fs).
Definition ext2_block_group (inode : Z) : Z := u32 (inode - 1) / ext2_inodes_per_group.
Definition ext2_group_index (inode : Z) : Z := u32 (inode - 1) mod ext2_inodes_per_group.
Definition ext2_pointers_per_block : Z := ext2_block_size / 4.
End geometry.

Definition ext2_inode_type (raw : list Z) : Z := Z.shiftr (Z.land (i_modes raw) 0xf000) 12.
Definition ext2_is_directory (raw : list Z) : bool := ext2_inode_type raw =? EXT2_INODE_TYPE_DIRECTORY.

Fixpoint iexp_loop (n : nat) (i result : Z) : Z :=
  match n with O => result | S n' => iexp_loop n' i (u32 (result * i)) end.
Definition iexp (i n : Z) : Z := iexp_loop (Z.to_nat n) i 1.

(** ** The program's state: the disk and the page in [block_buffer] *)
Record e2state (D : Type) := mk_e2 { e_disk : D; e_buf : list Z }.
Arguments mk_e2 {D}.
Arguments e_disk {D}.
Arguments e_buf {D}.

Section ext2.
Context {D : Type} `{BlockDevice D}.
Abbreviation E := (M (e2state D)).

Definition on_disk {A} (m : M D A) : E A := zoom e_disk (λ d s, mk_e2 d (e_buf s)) m.
Definition set_buf (b : list Z) : E unit := modify (λ s, mk_e2 (e_disk s) b).

(** Accesses through pointers into the page. *)
Definition buf8 (o : Z) : E Z := getsome (λ s, ld8 (e_buf s) o).
Definition buf16 (o : Z) : E Z := getsome (λ s, ld16 (e_buf s) o).
Definition buf32 (o : Z) : E Z := getsome (λ s, ld32 (e_buf s) o).
Definition bufn (o : Z) (n : nat) : E (list Z) := getsome (λ s, ldn (e_buf s) o n).
Definition buf_store (o : Z) (xs : list Z) : E unit :=
  b ← getsome (λ s, stn (e_buf s) o xs); set_buf b.

(** [true]: the buffer is returned, [false]: [NULL]. *)
Definition do_block_read (sector size : Z) : E bool :=
  s ← get;
  r ← on_disk (bd_read sector size (e_buf s));
  set_buf r.2;;
  mret (negb r.1).

Definition ext2_get_superblock : E bool := do_block_read 2050 2.

Definition ext2_read_block (fs : ext2fs) (block : Z) : E bool :=
  if ext2_max_block fs <? block then mret false
  else do_block_read (ext2_block_to_sector fs block) (ext2_block_size_to_sectors fs).

Definition ext2_write_block (fs : ext2fs) (block : Z) : E bool :=
  if ext2_max_block fs <? block then mret false
  else
    s ← get;
    err ← on_disk (bd_write (ext2_block_to_sector fs block) (ext2_block_size_to_sectors fs) (e_buf s));
    mret (negb err).

Definition desc_start (fs : ext2fs) : Z := if ext2_block_size fs =? 1024 then 2 else 1.
Definition ext2_get_block_descs (fs : ext2fs) : E bool := ext2_read_block fs (desc_start fs).
Definition ext2_write_block_descs (fs : ext2fs) : E bool := ext2_write_block fs (desc_start fs).

(** The offset of a descriptor in the page.  When the table cannot be read the
    result is [NULL + index], which every caller reads through. *)
Definition ext2_get_block_desc (fs : ext2fs) (index : Z) : E (option Z) :=
  if ext2_total_block_descs fs <=? index then mret None
  else
    ok ← ext2_get_block_descs fs;
    if ok : bool then mret (Some (sizeof_desc * index))
    else if index =? 0 then mret None else ub.

(** The first clear bit of a 32-bit word. *)
Fixpoint clear_bit (n : nat) (k map : Z) : option Z :=
  match n with
  | O => None
  | S n' => if Z.land (Z.shiftr map k) 1 =? 0 then Some k else clear_bit n' (k + 1) map
  end.

(** The search both allocators share: [per_group] objects whose bitmap starts
    at block [bitmap], counted by the 16-bit field at [counter] of the
    descriptor.  [last] is the bitmap block in the page, when there is one. *)
Fixpoint alloc_scan (turns : nat) (fs : ext2fs) (desc_index per_group bitmap counter i : Z) (last : option Z) : E Z :=
  match turns with
  | O => nofuel
  | S n =>
      if per_group <=? i then mret 0
      else
        let index := i / ext2_block_size fs in
        (if decide (last = Some index) then mret tt
         else ok ← ext2_read_block fs (u32 (bitmap + index)); if ok : bool then mret tt else ub);;
        let word := 4 * u32 (i - index * ext2_block_size fs) in
        map ← buf32 word;
        match clear_bit 32 0 map with
        | Some k =>
            buf_store word (le32 (Z.lor map (Z.shiftl 1 k)));;
            ext2_write_block fs (u32 (bitmap + index));;
            desc ← ext2_get_block_desc fs desc_index;
            match desc with
            | None => ub
            | Some o =>
                c ← buf16 (o + counter);
                buf_store (o + counter) (le16 (u16 (c - 1)));;
                ext2_write_block_descs fs;;
                mret (u32 (desc_index * per_group + (i + k)))
            end
        | None => alloc_scan n fs desc_index per_group bitmap counter (u32 (i + 32)) (Some index)
        end
  end.

Definition scan_turns (per_group : Z) : nat := Z.to_nat (per_group / 32 + 2).

Definition ext2_alloc_block (fs : ext2fs) (desc_index : Z) : E Z :=
  desc ← ext2_get_block_desc fs desc_index;
  match desc with
  | None => mret 0
  | Some o =>
      block_map ← buf32 o;
      let per_group := blocks_per_group (superblock fs) in
      alloc_scan (scan_turns per_group) fs desc_index per_group block_map 12 0 None
  end.

Definition ext2_alloc_inode (fs : ext2fs) (desc_index : Z) : E Z :=
  desc ← ext2_get_block_desc fs desc_index;
  match desc with
  | None => mret 0
  | Some o =>
      inode_map ← buf32 (o + 4);
      let per_group := inodes_per_group (superblock fs) in
      alloc_scan (scan_turns per_group) fs desc_index per_group inode_map 14 0 None
  end.

(** The inode's offset in the page and its bytes, copied to the caller's
    buffer; [None] is [NULL]. *)
Definition ext2_get_inode (fs : ext2fs) (inode : Z) : E (option (Z * list Z)) :=
  ok ← ext2_get_block_descs fs;
  if negb ok then mret None
  else if ext2_max_inode fs <? inode then mret None
  else
    let group := ext2_block_group fs inode in
    table ← buf32 (sizeof_desc * group + 8);
    let group_index := ext2_group_index fs inode in
    let offset := group_index / ext2_inodes_per_block fs in
    let index := group_index mod ext2_inodes_per_block fs in
    ok ← ext2_read_block fs (u32 (table + offset));
    if negb ok then mret None
    else
      let ptr := index * ext2_inode_size fs in
      raw ← bufn ptr sizeof_inode;
      mret (Some (ptr, raw)).

Definition ext2_inode_table_block (fs : ext2fs) (inode : Z) : E Z :=
  ok ← ext2_get_block_descs fs;
  if negb ok then ub
  else
    table ← buf32 (sizeof_desc * ext2_block_group fs inode + 8);
    mret (u32 (table + ext2_group_index fs inode / ext2_inodes_per_block fs)).

Definition ext2_inode_update (fs : ext2fs) (inode : Z) (raw : list Z) : E Z :=
  table_block ← ext2_inode_table_block fs inode;
  r ← ext2_get_inode fs inode;
  match r with
  | None => mret 0
  | Some (ptr, _) =>
      buf_store ptr raw;;
      ext2_write_block fs table_block;;
      mret inode
  end.

Definition ext2_inode_init (fs : ext2fs) (inode modes : Z) : E Z :=
  if inode =? 0 then mret 0
  else ext2_inode_update fs inode (le16 (u16 modes) ++ replicate 118 0).

Definition ext2_alloc_inode_type (fs : ext2fs) (desc type : Z) : E Z :=
  temp ← ext2_alloc_inode fs desc;
  if temp =? 0 then mret temp
  else
    ext2_inode_init fs temp (u16 (Z.lor (Z.shiftl type 12) 0x1ff));;
    mret temp.

(** The inode is read into a local buffer; when that fails the buffer is
    uninitialized. *)
Definition ext2_inode_alloc_block (fs : ext2fs) (inode block : Z) : E Z :=
  r ← ext2_get_inode fs inode;
  match r with
  | None => ub
  | Some (_, raw) =>
      let group := ext2_block_group fs inode in
      if block <? 12 then
        if truthy (i_direct_ptr raw block) then mret (i_direct_ptr raw block)
        else
          n_block ← ext2_alloc_block fs group;
          if n_block =? 0 then mret 0
          else
            ext2_inode_update fs inode (set_direct_ptr raw block n_block);;
            mret n_block
      else if block <? u32 (ext2_pointers_per_block fs + 12) then
        raw' ← (if i_single_indirect_ptr raw =? 0 then
                  n_block ← ext2_alloc_block fs group;
                  if n_block =? 0 then mret None
                  else
                    let raw' := set_single_indirect_ptr raw n_block in
                    ext2_inode_update fs inode raw';;
                    mret (Some raw')
                else mret (Some raw));
        match raw' with
        | None => mret 0
        | Some raw' =>
            let index := block - 12 in
            ok ← ext2_read_block fs (i_single_indirect_ptr raw');
            if negb ok then ub
            else
              e ← buf32 (4 * index);
              if truthy e then mret e
              else
                n_block ← ext2_alloc_block fs group;
                if n_block =? 0 then mret 0
                else
                  buf_store (4 * index) (le32 n_block);;
                  ext2_write_block fs (i_single_indirect_ptr raw');;
                  mret n_block
        end
      else mret 0
  end.

(** [true]: the buffer holds the block, [false]: [NULL]. *)
Definition ext2_inode_read_block (fs : ext2fs) (raw : list Z) (block : Z) : E bool :=
  let do_zero_read := s ← get;
    (if ext2_block_size fs <=? Z.of_nat (length (e_buf s)) then
       set_buf (replicate (Z.to_nat (ext2_block_size fs)) 0 ++ drop (Z.to_nat (ext2_block_size fs)) (e_buf s))
     else ub);;
    mret false in
  let do_block_read r_block := if truthy r_block then ext2_read_block fs r_block else do_zero_read in
  if block <? 12 then do_block_read (i_direct_ptr raw block)
  else
    let ptr_per_blk := ext2_pointers_per_block fs in
    if block <? u32 (ptr_per_blk + 12) then
      if i_single_indirect_ptr raw =? 0 then do_zero_read
      else
        ok ← ext2_read_block fs (i_single_indirect_ptr raw);
        if negb ok then ub
        else e ← buf32 (4 * (block - 12)); do_block_read e
    else do_zero_read.

(** Mounting: the part of [main] that reads and checks the superblock.  [None]
    is the exit on an error. *)
Definition parse_superblock : E ext2_superblock :=
  ti ← buf32 0; tb ← buf32 4; bs ← buf32 24; bpg ← buf32 32; ipg ← buf32 40; sg ← buf16 56; isz ← buf16 88;
  mret (mk_super ti tb bs bpg ipg sg isz).

Definition ext2_mount (disk : Z) : E (option ext2fs) :=
  ok ← ext2_get_superblock;
  if negb ok then mret None
  else
    sb ← parse_superblock;
    let fs := mk_ext2fs sb 2048 disk in
    if is_valid_ext2fs fs then mret (Some fs) else mret None.
End ext2.
