(* ===== verification/Ext2Inode.v ===== *)
(** Inodes of the ext2 file system: reading one back after updating it, on any
    block device that keeps its interface's promises, and a RAM disk that does. *)

From S2P Require Import Prelude Ext2.
#[local] Open Scope Z_scope.

(** ** Bytes *)
Lemma ldn_ok b o n : 0 <= o → o + Z.of_nat n <= Z.of_nat (length b) → ldn b o n = Some (take n (drop (Z.to_nat o) b)).
Proof. intros. unfold ldn. zbool; simpl; try lia. done. Qed.

Lemma stn_ok b o xs : 0 <= o → o + Z.of_nat (length xs) <= Z.of_nat (length b) →
  stn b o xs = Some (take (Z.to_nat o) b ++ xs ++ drop (Z.to_nat o + length xs) b).
Proof. intros. unfold stn. zbool; simpl; try lia. done. Qed.

Lemma ld16_ok b o : 0 <= o → o + 2 <= Z.of_nat (length b) → is_Some (ld16 b o).
Proof.
  intros Ho Hl. unfold ld16. destruct (zget_lt b o ltac:(lia)) as (x & -> & _).
  destruct (zget_lt b (o + 1) ltac:(lia)) as (y & -> & _). simpl. eauto.
Qed.

Lemma ld32_ok b o : 0 <= o → o + 4 <= Z.of_nat (length b) → is_Some (ld32 b o).
Proof.
  intros Ho Hl. unfold ld32. destruct (ld16_ok b o ltac:(lia) ltac:(lia)) as [x ->].
  destruct (ld16_ok b (o + 2) ltac:(lia) ltac:(lia)) as [y ->]. simpl. eauto.
Qed.

Lemma zget_app_l (b c : list Z) o : o < Z.of_nat (length b) → zget (b ++ c) o = zget b o.
Proof. intros Ho. unfold zget. zbool; [done|]. apply lookup_app_l. lia. Qed.

Lemma ld32_app_l b c o : o + 4 <= Z.of_nat (length b) → ld32 (b ++ c) o = ld32 b o.
Proof. intros Ho. unfold ld32, ld16. rewrite !zget_app_l by lia. done. Qed.

(** Bytes stored somewhere else do not show. *)
Lemma slice_store_other (b xs : list Z) (i j n : nat) : (i + length xs <= length b)%nat →
  (j + n <= i ∨ i + length xs <= j)%nat →
  take n (drop j (take i b ++ xs ++ drop (i + length xs) b)) = take n (drop j b).
Proof.
  intros Hb [Hj|Hj].
  - rewrite drop_app_le by (rewrite length_take; lia). rewrite take_app_le by (rewrite length_drop, length_take; lia).
    rewrite skipn_firstn_comm, take_take. f_equal. lia.
  - rewrite drop_app_ge by (rewrite length_take; lia). rewrite length_take.
    rewrite drop_app_ge by lia. rewrite drop_drop. f_equal. f_equal. lia.
Qed.

Lemma slice_store_same (b xs : list Z) (i : nat) : (i + length xs <= length b)%nat →
  take (length xs) (drop i (take i b ++ xs ++ drop (i + length xs) b)) = xs.
Proof.
  intros Hb. rewrite drop_app_ge by (rewrite length_take; lia). rewrite length_take.
  replace (i - i `min` length b)%nat with 0%nat by lia. rewrite drop_0, take_app_le, take_ge; lia || done.
Qed.

Section inodes.
Context {D : Type} `{BlockDeviceLaws D}.
Context (fs : ext2fs).

(** A file system the program's arithmetic works for: blocks of at most a
    page, all of the disk within reach of 32-bit offsets, inodes at least as
    large as the structure. *)
Record geometry_ok (d : D) : Prop := {
  g_bs : 0 <= sb_block_size (superblock fs) <= 2;
  g_blocks : 0 < total_blocks (superblock fs);
  g_reach : total_blocks (superblock fs) * ext2_block_size fs + block_device_start fs < 2 ^ 32;
  g_start : 0 <= block_device_start fs;
  g_disk : (total_blocks (superblock fs) + 1) * (ext2_block_size fs / 512) + block_device_start fs <= bd_size d;
  g_isize : Z.of_nat sizeof_inode <= ext2_inode_size fs <= ext2_block_size fs;
  g_ipg : 0 < inodes_per_group (superblock fs);
  g_inodes : total_inodes (superblock fs) < 2 ^ 32;
  g_start_block : desc_start fs <= total_blocks (superblock fs)
}.

Record e2_ok (s : e2state D) : Prop := {
  e2_disk : bd_inv (e_disk s);
  e2_buf : length (e_buf s) = 4096%nat;
  e2_geom : geometry_ok (e_disk s)
}.

(** The sectors a block takes, and its bytes. *)
Definition spb : nat := Z.to_nat (ext2_block_size fs / 512).
Definition block_bytes (d : D) (b : Z) : list Z := sectors d (ext2_block_to_sector fs b) spb.

Lemma block_size_cases d : geometry_ok d →
  (ext2_block_size fs = 1024 ∧ spb = 2%nat) ∨ (ext2_block_size fs = 2048 ∧ spb = 4%nat) ∨ (ext2_block_size fs = 4096 ∧ spb = 8%nat).
Proof.
  intros [Hbs _ _ _ _ _ _ _ _]. unfold spb, ext2_block_size.
  assert (sb_block_size (superblock fs) = 0 ∨ sb_block_size (superblock fs) = 1 ∨ sb_block_size (superblock fs) = 2) as
    [-> | [-> | ->]] by lia; vm_compute; auto.
Qed.

Lemma sectors_length d l n : bd_inv d → length (sectors d l n) = (512 * n)%nat.
Proof.
  intros Hd. unfold sectors.
  assert (∀ k, length (concat ((λ i, bd_sector d (l + Z.of_nat i)) <$> seq k n)) = (512 * n)%nat) as Hk; [|apply Hk].
  induction n as [|n IH]; intros k; [done|]. cbn [seq]. rewrite fmap_cons. cbn [concat].
  rewrite length_app, bd_sector_len, IH by done. lia.
Qed.

Lemma block_bytes_length d b : bd_inv d → geometry_ok d → Z.of_nat (length (block_bytes d b)) = ext2_block_size fs.
Proof.
  intros Hd Hg. unfold block_bytes. rewrite sectors_length by done.
  destruct (block_size_cases d Hg) as [[-> ->]|[[-> ->]|[-> ->]]]; lia.
Qed.

Lemma block_sector d b : geometry_ok d → 0 <= b <= total_blocks (superblock fs) →
  ext2_block_to_sector fs b = b * Z.of_nat spb + block_device_start fs.
Proof.
  intros Hg Hb. unfold ext2_block_to_sector.
  pose proof (g_reach d Hg) as Hr. pose proof (g_start d Hg) as Hs. pose proof (block_size_cases d Hg) as Hc.
  assert (b * ext2_block_size fs <= total_blocks (superblock fs) * ext2_block_size fs) by (destruct Hc as [[-> _]|[[-> _]|[-> _]]]; lia).
  assert (0 <= b * ext2_block_size fs) by (destruct Hc as [[-> _]|[[-> _]|[-> _]]]; lia).
  rewrite (u32_small (b * _)) by lia. rewrite u32_small.
  - destruct Hc as [[-> ->]|[[-> ->]|[-> ->]]]; [replace (b * 1024) with (b * 2 * 512) by lia|
      replace (b * 2048) with (b * 4 * 512) by lia|replace (b * 4096) with (b * 8 * 512) by lia];
      rewrite Z.div_mul by lia; lia.
  - pose proof (Z.div_le_upper_bound (b * ext2_block_size fs) 512 (b * ext2_block_size fs) ltac:(lia) ltac:(lia)).
    pose proof (Z.div_pos (b * ext2_block_size fs) 512 ltac:(lia) ltac:(lia)). lia.
Qed.

Lemma read_block_ok s b : e2_ok s → 0 <= b <= total_blocks (superblock fs) →
  ∃ rest, ext2_read_block fs b s = Ret (true, mk_e2 (e_disk s) (block_bytes (e_disk s) b ++ rest)) ∧
    e2_ok (mk_e2 (e_disk s) (block_bytes (e_disk s) b ++ rest)).
Proof.
  intros [Hd Hb Hg] Hbl. destruct s as [d buf]. cbn [e_disk e_buf] in *. exists (drop (Z.to_nat (Z.of_nat spb * 512)) buf).
  pose proof (block_size_cases d Hg) as Hc. pose proof (block_bytes_length d b Hd Hg) as Hl.
  assert (ext2_block_size_to_sectors fs = Z.of_nat spb) as Es.
  { unfold ext2_block_size_to_sectors. destruct Hc as [[-> ->]|[[-> ->]|[-> ->]]]; done. }
  split.
  - unfold ext2_read_block, do_block_read, on_disk, zoom, get, set_buf, modify, mbind, M_bind, mret, M_ret.
    replace (ext2_max_block fs <? b) with false by (unfold ext2_max_block; lia). cbn [e_buf e_disk].
    rewrite bd_read_ok.
    + rewrite Es. cbn [fst snd negb]. rewrite Nat2Z.id. done.
    + done.
    + rewrite (block_sector d) by (done || lia). pose proof (g_start d Hg). lia.
    + rewrite Es. destruct Hc as [[_ ->]|[[_ ->]|[_ ->]]]; lia.
    + rewrite (block_sector d), Es by (done || lia). pose proof (g_disk d Hg) as Hdk.
      replace (ext2_block_size fs / 512) with (Z.of_nat spb) in Hdk by (by rewrite <- Es). nia.
    + rewrite Es, Hb. destruct Hc as [[_ ->]|[[_ ->]|[_ ->]]]; lia.
  - split; cbn [e_disk e_buf]; [done| |done]. rewrite length_app, length_drop.
    destruct Hc as [[Hc ->]|[[Hc ->]|[Hc ->]]]; rewrite Hc in Hl; lia.
Qed.

Lemma write_block_ok s b blk rest : e2_ok s → e_buf s = blk ++ rest → Z.of_nat (length blk) = ext2_block_size fs →
  0 <= b <= total_blocks (superblock fs) →
  ∃ d', ext2_write_block fs b s = Ret (true, mk_e2 d' (e_buf s)) ∧ e2_ok (mk_e2 d' (e_buf s)) ∧
    block_bytes d' b = blk ∧
    ∀ c, 0 <= c <= total_blocks (superblock fs) → c ≠ b → block_bytes d' c = block_bytes (e_disk s) c.
Proof.
  intros [Hd Hb Hg] Eb Hbl Hbr. destruct s as [d buf]. cbn [e_disk e_buf] in *.
  pose proof (block_size_cases d Hg) as Hc.
  assert (ext2_block_size_to_sectors fs = Z.of_nat spb) as Es.
  { unfold ext2_block_size_to_sectors. destruct Hc as [[-> ->]|[[-> ->]|[-> ->]]]; done. }
  destruct (bd_write_ok d (ext2_block_to_sector fs b) (Z.of_nat spb) buf) as (d' & E & Hd' & Hsz & Hw & Ho).
  - done.
  - rewrite (block_sector d) by (done || lia). pose proof (g_start d Hg). lia.
  - destruct Hc as [[_ ->]|[[_ ->]|[_ ->]]]; lia.
  - rewrite (block_sector d) by (done || lia). pose proof (g_disk d Hg) as Hdk.
    replace (ext2_block_size fs / 512) with (Z.of_nat spb) in Hdk by (by rewrite <- Es). nia.
  - rewrite Hb. destruct Hc as [[_ ->]|[[_ ->]|[_ ->]]]; lia.
  - exists d'. split_and!.
    + unfold ext2_write_block, on_disk, zoom, get, mbind, M_bind, mret, M_ret.
      replace (ext2_max_block fs <? b) with false by (unfold ext2_max_block; lia). cbn [e_buf e_disk]. rewrite Es, E. done.
    + split; cbn [e_disk e_buf]; [done|done|]. destruct Hg. split; try done. by rewrite Hsz.
    + unfold block_bytes. rewrite Nat2Z.id in Hw. rewrite Hw, Eb.
      rewrite take_app_le by (destruct Hc as [[Hc ->]|[[Hc ->]|[Hc ->]]]; rewrite Hc in Hbl; lia).
      apply take_ge. destruct Hc as [[Hc ->]|[[Hc ->]|[Hc ->]]]; rewrite Hc in Hbl; lia.
    + intros c Hcr Hne. unfold block_bytes, sectors. f_equal. apply list_fmap_ext. intros i x Hi. apply Ho.
      apply lookup_seq in Hi as [-> Hi]. rewrite !(block_sector d) by (done || lia).
      assert (c < b ∨ b < c) as [?|?] by lia; [left|right]; nia.
Qed.

(** ** Where an inode lives *)
Definition inode_block (d : D) (n : Z) : Z :=
  u32 (fld32 (block_bytes d (desc_start fs)) (sizeof_desc * ext2_block_group fs n + 8) +
       ext2_group_index fs n / ext2_inodes_per_block fs).
Definition inode_ptr (n : Z) : Z := (ext2_group_index fs n mod ext2_inodes_per_block fs) * ext2_inode_size fs.

(** The bytes of inode [n] on disk. *)
Definition inode_at (d : D) (n : Z) : list Z :=
  take sizeof_inode (drop (Z.to_nat (inode_ptr n)) (block_bytes d (inode_block d n))).

Record inode_ok (d : D) (n : Z) : Prop := {
  in_range : 1 <= n <= total_inodes (superblock fs);
  in_desc : sizeof_desc * ext2_block_group fs n + 12 <= ext2_block_size fs;
  in_block : inode_block d n <= total_blocks (superblock fs);
  in_apart : inode_block d n ≠ desc_start fs
}.

Lemma inode_ptr_bounds d n : geometry_ok d →
  0 <= inode_ptr n ∧ inode_ptr n + Z.of_nat sizeof_inode <= ext2_block_size fs ∧
  ∀ m, ext2_group_index fs n mod ext2_inodes_per_block fs ≠ ext2_group_index fs m mod ext2_inodes_per_block fs →
    inode_ptr n + Z.of_nat sizeof_inode <= inode_ptr m ∨ inode_ptr m + Z.of_nat sizeof_inode <= inode_ptr n.
Proof.
  intros Hg. pose proof (g_isize d Hg) as Hi. pose proof (block_size_cases d Hg) as Hc.
  assert (0 < ext2_block_size fs) as Hpos by (destruct Hc as [[-> _]|[[-> _]|[-> _]]]; lia).
  unfold inode_ptr, ext2_inodes_per_block. set (I := ext2_inode_size fs) in *. set (B := ext2_block_size fs) in *.
  assert (0 < B / I) as Hq by (apply Z.div_str_pos; unfold sizeof_inode in Hi; lia).
  pose proof (Z.mul_div_le B I ltac:(unfold sizeof_inode in Hi; lia)) as Hle.
  pose proof (Z.mod_pos_bound (ext2_group_index fs n) (B / I) Hq) as Hm.
  split_and!; [unfold sizeof_inode in *; nia|unfold sizeof_inode in *; nia|].
  intros m Hne. pose proof (Z.mod_pos_bound (ext2_group_index fs m) (B / I) Hq).
  unfold sizeof_inode in *. assert (∀ x y, x < y → x * I + I <= y * I) as Hs by (intros; nia).
  destruct (Z_lt_le_dec (ext2_group_index fs n mod (B / I)) (ext2_group_index fs m mod (B / I))) as [Hlt|Hge].
  - left. specialize (Hs _ _ Hlt). lia.
  - right. assert (ext2_group_index fs m mod (B / I) < ext2_group_index fs n mod (B / I)) as Hlt by lia. specialize (Hs _ _ Hlt). lia.
Qed.

Lemma group_nonneg n : 0 < inodes_per_group (superblock fs) → 0 <= ext2_block_group fs n.
Proof. intros Hp. unfold ext2_block_group, ext2_inodes_per_group. apply Z.div_pos; [|done]. pose proof (u32_range (n - 1)). lia. Qed.

Lemma desc_start_pos : 0 <= desc_start fs.
Proof. unfold desc_start. case_match; lia. Qed.

(** Reading the descriptor table and the inode table's number in it. *)
Lemma read_table_ok s n : e2_ok s → inode_ok (e_disk s) n → ∃ rest,
  let s' := mk_e2 (e_disk s) (block_bytes (e_disk s) (desc_start fs) ++ rest) in
  ext2_get_block_descs fs s = Ret (true, s') ∧ e2_ok s' ∧
  buf32 (sizeof_desc * ext2_block_group fs n + 8) s' =
    Ret (fld32 (block_bytes (e_disk s) (desc_start fs)) (sizeof_desc * ext2_block_group fs n + 8), s').
Proof.
  intros Hs Hn. pose proof (e2_geom s Hs) as Hg. pose proof desc_start_pos. pose proof (g_start_block _ Hg).
  destruct (read_block_ok s (desc_start fs) Hs ltac:(lia)) as (rest & E & Hs'). exists rest. cbn zeta.
  split_and!; [done|done|]. pose proof (group_nonneg n (g_ipg _ Hg)). pose proof (in_desc _ _ Hn) as Hd.
  pose proof (block_bytes_length _ (desc_start fs) (e2_disk s Hs) Hg) as Hl. unfold sizeof_desc in *.
  unfold buf32, getsome. cbn [e_buf]. rewrite ld32_app_l by lia.
  destruct (ld32_ok (block_bytes (e_disk s) (desc_start fs)) (32 * ext2_block_group fs n + 8)) as [v Ev]; [lia|lia|].
  unfold fld32. by rewrite Ev.
Qed.

Lemma get_inode_spec s n : e2_ok s → inode_ok (e_disk s) n → ∃ rest,
  let s' := mk_e2 (e_disk s) (block_bytes (e_disk s) (inode_block (e_disk s) n) ++ rest) in
  ext2_get_inode fs n s = Ret (Some (inode_ptr n, inode_at (e_disk s) n), s') ∧ e2_ok s'.
Proof.
  intros Hs Hn. destruct (read_table_ok s n Hs Hn) as (rest & E1 & Hs1 & E2). cbn zeta in *.
  set (s1 := mk_e2 (e_disk s) (block_bytes (e_disk s) (desc_start fs) ++ rest)) in *.
  pose proof (in_block _ _ Hn) as Hb. pose proof (e2_geom s Hs) as Hg.
  assert (0 <= inode_block (e_disk s) n <= total_blocks (superblock fs)) as Hbr.
  { unfold inode_block in *. pose proof (u32_range (fld32 (block_bytes (e_disk s) (desc_start fs)) (sizeof_desc * ext2_block_group fs n + 8) +
      ext2_group_index fs n / ext2_inodes_per_block fs)). lia. }
  destruct (read_block_ok s1 (inode_block (e_disk s) n) Hs1 Hbr) as (rest' & E3 & Hs3). cbn [s1 e_disk] in E3, Hs3.
  exists rest'. cbn zeta. split; [|done].
  unfold ext2_get_inode, mbind, M_bind. rewrite E1. cbn [negb].
  replace (ext2_max_inode fs <? n) with false by (pose proof (in_range _ _ Hn); unfold ext2_max_inode; lia).
  rewrite E2. fold (inode_block (e_disk s) n). rewrite E3. cbn [negb]. fold (inode_ptr n).
  destruct (inode_ptr_bounds _ n Hg) as (Hp0 & Hp1 & _).
  pose proof (block_bytes_length _ (inode_block (e_disk s) n) (e2_disk s Hs) Hg) as Hl.
  unfold bufn, getsome. cbn [e_buf]. rewrite ldn_ok by (rewrite ?length_app; unfold sizeof_inode in *; lia).
  unfold inode_at, mret, M_ret. rewrite drop_app_le by lia.
  rewrite take_app_le by (rewrite length_drop; unfold sizeof_inode in *; lia). done.
Qed.

Lemma inode_update_spec s n raw : e2_ok s → inode_ok (e_disk s) n → length raw = sizeof_inode →
  ∃ s', ext2_inode_update fs n raw s = Ret (n, s') ∧ e2_ok s' ∧
    block_bytes (e_disk s') (inode_block (e_disk s) n) =
      (let b := block_bytes (e_disk s) (inode_block (e_disk s) n) in
       take (Z.to_nat (inode_ptr n)) b ++ raw ++ drop (Z.to_nat (inode_ptr n) + length raw) b) ∧
    ∀ c, 0 <= c <= total_blocks (superblock fs) → c ≠ inode_block (e_disk s) n →
      block_bytes (e_disk s') c = block_bytes (e_disk s) c.
Proof.
  intros Hs Hn Hraw. destruct (read_table_ok s n Hs Hn) as (rest & E1 & Hs1 & E2). cbn zeta in *.
  set (s1 := mk_e2 (e_disk s) (block_bytes (e_disk s) (desc_start fs) ++ rest)) in *.
  destruct (get_inode_spec s1 n Hs1 Hn) as (rest' & E3 & Hs3). cbn zeta in *. cbn [s1 e_disk] in E3, Hs3.
  set (tb := inode_block (e_disk s) n) in *. set (b := block_bytes (e_disk s) tb) in *.
  pose proof (e2_geom s Hs) as Hg. destruct (inode_ptr_bounds _ n Hg) as (Hp0 & Hp1 & _).
  pose proof (block_bytes_length _ tb (e2_disk s Hs) Hg) as Hl. fold b in Hl.
  set (b' := take (Z.to_nat (inode_ptr n)) b ++ raw ++ drop (Z.to_nat (inode_ptr n) + length raw) b).
  assert (length b' = length b) as Hl'.
  { unfold b'. rewrite !length_app, length_take, length_drop, Hraw. unfold sizeof_inode in *. lia. }
  assert (buf_store (inode_ptr n) raw (mk_e2 (e_disk s) (b ++ rest')) = Ret (tt, mk_e2 (e_disk s) (b' ++ rest'))) as E4.
  { unfold buf_store, set_buf, modify, mbind, M_bind, getsome. cbn [e_buf]. rewrite stn_ok by (rewrite ?length_app, ?Hraw; lia).
    cbn [e_disk]. unfold b'. rewrite take_app_le, drop_app_le by (rewrite ?Hraw; unfold sizeof_inode in *; lia). by rewrite <- !app_assoc. }
  assert (e2_ok (mk_e2 (e_disk s) (b' ++ rest'))) as Hs4.
  { destruct Hs3 as [? Hb3 ?]. split; try done. cbn [e_buf] in *. rewrite length_app in *. lia. }
  assert (0 <= tb <= total_blocks (superblock fs)) as Htb.
  { pose proof (in_block _ _ Hn). unfold tb, inode_block in *.
    pose proof (u32_range (fld32 (block_bytes (e_disk s) (desc_start fs)) (sizeof_desc * ext2_block_group fs n + 8) +
      ext2_group_index fs n / ext2_inodes_per_block fs)). lia. }
  destruct (write_block_ok _ tb b' rest' Hs4 eq_refl ltac:(lia) Htb) as (d' & E5 & Hs5 & Hw & Ho). cbn [e_buf e_disk] in *.
  exists (mk_e2 d' (b' ++ rest')). cbn [e_disk]. split_and!; [|done|done|done].
  unfold ext2_inode_update, ext2_inode_table_block, mbind, M_bind. rewrite E1. cbn [negb]. rewrite E2. unfold mret at 1, M_ret at 1.
  rewrite E3, E4. fold (inode_block (e_disk s) n). fold tb. rewrite E5. done.
Qed.
End inodes.

Section claims.
Context {D : Type} `{BlockDeviceLaws D}.

(** C9: [ext2_inode_update] followed by [ext2_get_inode] gives back exactly
    the bytes written, the update changes no other inode of the file system,
    and both succeed, for every file system whose inode tables do not overlap
    the descriptor table. *)
Theorem inode_update_roundtrip fs (s : e2state D) n raw :
  e2_ok fs s → inode_ok fs (e_disk s) n → length raw = sizeof_inode →
  ∃ s' s'', ext2_inode_update fs n raw s = Ret (n, s') ∧ e2_ok fs s' ∧
    ext2_get_inode fs n s' = Ret (Some (inode_ptr fs n, raw), s'') ∧
    ∀ m, inode_ok fs (e_disk s) m →
      (inode_block fs (e_disk s) m, ext2_group_index fs m mod ext2_inodes_per_block fs) ≠
      (inode_block fs (e_disk s) n, ext2_group_index fs n mod ext2_inodes_per_block fs) →
      inode_at fs (e_disk s') m = inode_at fs (e_disk s) m.
Proof.
  intros Hs Hn Hraw. destruct (inode_update_spec fs s n raw Hs Hn Hraw) as (s' & E & Hs' & Hb & Ho). cbn zeta in Hb.
  pose proof (e2_geom _ _ Hs) as Hg. pose proof (g_start_block _ _ Hg). pose proof (desc_start_pos fs).
  assert (block_bytes fs (e_disk s') (desc_start fs) = block_bytes fs (e_disk s) (desc_start fs)) as Hdesc.
  { apply Ho; [lia|]. pose proof (in_apart _ _ _ Hn). done. }
  assert (∀ m, inode_block fs (e_disk s') m = inode_block fs (e_disk s) m) as Hib by (intros m; unfold inode_block; by rewrite Hdesc).
  assert (inode_ok fs (e_disk s') n) as Hn' by (destruct Hn; split; rewrite ?Hib; done).
  destruct (get_inode_spec fs s' n Hs' Hn') as (rest & E' & _).
  destruct (inode_ptr_bounds fs _ n Hg) as (Hp0 & Hp1 & Hp2).
  pose proof (block_bytes_length fs _ (inode_block fs (e_disk s) n) (e2_disk _ _ Hs) Hg) as Hl.
  exists s'. eexists. split; [done|]. split; [done|]. split.
  - rewrite E'. unfold inode_at. rewrite Hib, Hb, <- Hraw, slice_store_same by (rewrite Hraw; unfold sizeof_inode in *; lia). done.
  - intros m Hm Hne. unfold inode_at. rewrite Hib.
    destruct (decide (inode_block fs (e_disk s) m = inode_block fs (e_disk s) n)) as [Em|Em].
    + rewrite Em, Hb. apply slice_store_other; rewrite Hraw; [unfold sizeof_inode in *; lia|].
      destruct (Hp2 m) as [?|?]; [intros Ei; apply Hne; by rewrite Em, Ei|right|left];
        destruct (inode_ptr_bounds fs _ m Hg); unfold sizeof_inode in *; lia.
    + rewrite Ho; [done| |done]. pose proof (in_block _ _ _ Hm). unfold inode_block in *.
      pose proof (u32_range (fld32 (block_bytes fs (e_disk s) (desc_start fs)) (sizeof_desc * ext2_block_group fs m + 8) +
        ext2_group_index fs m / ext2_inodes_per_block fs)). lia.
Qed.
End claims.

(** ** A RAM disk *)
Module Ramdisk.
Record ramdisk := mk_ram { contents : gmap Z (list Z); capacity : Z }.

Definition zero_sector : list Z := replicate 512 0.
Definition sector (d : ramdisk) (i : Z) : list Z := default zero_sector (contents d !! i).

Fixpoint store (n : nat) (l : Z) (page : list Z) (m : gmap Z (list Z)) : gmap Z (list Z) :=
  match n with
  | O => m
  | S n' => store n' (l + 1) (drop 512 page) (<[l := take 512 page]> m)
  end.

Definition fits (d : ramdisk) (l n : Z) (page : list Z) : bool :=
  (0 <=? l) && (0 <? n) && (l + n <=? capacity d) && (n * 512 <=? Z.of_nat (length page)).

Definition load (d : ramdisk) (l : Z) (n : nat) : list Z := concat ((λ i, sector d (l + Z.of_nat i)) <$> seq 0 n).

Definition read (l n : Z) (page : list Z) : M ramdisk (bool * list Z) := λ d,
  if fits d l n page then Ret ((false, load d l (Z.to_nat n) ++ drop (Z.to_nat (n * 512)) page), d)
  else Ret ((true, page), d).

Definition write (l n : Z) (page : list Z) : M ramdisk bool := λ d,
  if fits d l n page then Ret (false, mk_ram (store (Z.to_nat n) l page (contents d)) (capacity d)) else Ret (true, d).

#[global] Instance ramdisk_device : BlockDevice ramdisk := {|
  bd_read := read; bd_write := write; bd_sector := sector; bd_size := capacity;
  bd_inv := λ d, ∀ i b, contents d !! i = Some b → length b = 512%nat
|}.

Lemma store_other n l page m i : i < l ∨ l + Z.of_nat n <= i → store n l page m !! i = m !! i.
Proof.
  revert l page m. induction n as [|n IH]; intros l page m Hi; [done|]. cbn [store].
  rewrite IH by lia. apply lookup_insert_ne. lia.
Qed.

Lemma store_len n l page m : (n * 512 <= length page)%nat → (∀ i b, m !! i = Some b → length b = 512%nat) →
  ∀ i b, store n l page m !! i = Some b → length b = 512%nat.
Proof.
  revert l page m. induction n as [|n IH]; intros l page m Hp Hm; [done|]. cbn [store]. apply IH.
  - rewrite length_drop. lia.
  - intros i b [[<- <-]|[_ Hb]]%lookup_insert_Some; [rewrite length_take; lia|by eapply Hm].
Qed.

Lemma load_store n l page m cap : (n * 512 <= length page)%nat →
  load (mk_ram (store n l page m) cap) l n = take (n * 512) page.
Proof.
  unfold load. revert l page m. induction n as [|n IH]; intros l page m Hp; [done|].
  specialize (IH (l + 1) (drop 512 page) (<[l := take 512 page]> m) ltac:(rewrite length_drop; lia)).
  replace (S n * 512)%nat with (512 + n * 512)%nat by lia. rewrite <- take_take_drop, <- IH.
  cbn [seq]. rewrite fmap_cons. cbn [concat store]. f_equal.
  - unfold sector. cbn [contents]. rewrite Z.add_0_r, store_other by lia. by rewrite lookup_insert_eq.
  - f_equal. rewrite <- (fmap_S_seq 0 n), <- list_fmap_compose. apply list_fmap_ext. intros i x _. simpl. f_equal. lia.
Qed.

#[global] Instance ramdisk_laws : BlockDeviceLaws ramdisk.
Proof.
  split; simpl.
  - intros d i Hd. unfold sector. destruct (contents d !! i) eqn:E; [by eapply Hd|apply length_replicate].
  - intros d l n page Hd Hl Hn Hs Hp. unfold read, fits. zbool; simpl; try lia. done.
  - intros d l n page Hd Hl Hn Hs Hp. unfold write, fits. zbool; simpl; try lia.
    eexists. split; [done|]. cbn [contents capacity]. split_and!.
    + apply store_len; [lia|done].
    + done.
    + replace (Z.to_nat (n * 512)) with (Z.to_nat n * 512)%nat by lia. apply load_store. lia.
    + intros i Hi. unfold sector. cbn [contents]. rewrite store_other by lia. done.
Qed.
End Ramdisk.

(** ** A small file system: 64 blocks of 1024 bytes in one group, block and
    inode bitmaps in blocks 3 and 4, eight inodes of 128 bytes in block 5. *)
Definition small_fs : ext2fs := mk_ext2fs (mk_super 8 64 0 64 8 EXT2_SIGNATURE 128) 0 7.

Definition pad (n : nat) (b : list Z) : list Z := b ++ replicate (n - length b) 0.

Definition put_block (b : Z) (bytes : list Z) (m : gmap Z (list Z)) : gmap Z (list Z) :=
  Ramdisk.store 2 (2 * b) (pad 1024 bytes) m.

(** The first 32 blocks are in use; inode 2 has an indirect block, number 7,
    that is still empty. *)
Definition small_disk : Ramdisk.ramdisk :=
  Ramdisk.mk_ram
    (put_block 2 (le32 3 ++ le32 4 ++ le32 5 ++ le16 32 ++ le16 6)
      (put_block 3 (le32 0xffffffff)
        (put_block 4 [3]
          (put_block 5 (replicate 128 0 ++ le16 0x41ff ++ replicate 86 0 ++ le32 7) ∅))))
    256.

Definition small_state : e2state Ramdisk.ramdisk := mk_e2 small_disk (replicate 4096 0).

Lemma put_block_inv b bytes m : (∀ i x, m !! i = Some x → length x = 512%nat) →
  ∀ i x, put_block b bytes m !! i = Some x → length x = 512%nat.
Proof. intros Hm. apply Ramdisk.store_len; [|done]. unfold pad. rewrite length_app, length_replicate. lia. Qed.

Lemma small_ok : e2_ok small_fs small_state.
Proof.
  split; [|apply length_replicate|].
  - simpl. do 4 apply put_block_inv. intros i x. by rewrite lookup_empty.
  - split; vm_compute; intuition discriminate.
Qed.

Lemma small_inode : inode_ok small_fs small_disk 3.
Proof. split; vm_compute; intuition discriminate. Qed.

Lemma inode_update_roundtrip_witness : ∃ s' s'',
  ext2_inode_update small_fs 3 (replicate 120 9) small_state = Ret (3, s') ∧
  ext2_get_inode small_fs 3 s' = Ret (Some (256, replicate 120 9), s'').
Proof.
  destruct (inode_update_roundtrip small_fs small_state 3 (replicate 120 9)) as (s' & s'' & E & _ & E' & _).
  - exact small_ok.
  - exact small_inode.
  - apply length_replicate.
  - exists s', s''. split; [exact E|exact E'].
Defined.

(** ** Where block allocation goes wrong *)

(** Allocating an indirect data block destroys the indirect block.  The
    block is read into the shared page, the allocation of the data block reads
    the bitmap and the descriptor table into the same page, and what is then
    written back over the indirect block is the descriptor table with one word
    changed: here the next data block of the file becomes block 4, the inode
    bitmap. *)
Theorem indirect_alloc_clobbers : ∃ s',
  ld32 (block_bytes small_fs small_disk 7) 4 = Some 0 ∧
  ext2_inode_alloc_block small_fs 2 12 small_state = Ret (32, s') ∧
  ld32 (block_bytes small_fs (e_disk s') 7) 0 = Some 32 ∧
  ld32 (block_bytes small_fs (e_disk s') 7) 4 = Some 4.
Proof. eexists. split_and!; [vm_compute; reflexivity|vm_compute; reflexivity|vm_compute; reflexivity|vm_compute; reflexivity]. Qed.

(** The bitmap search steps through words as if they were bits.  With the
    first 32 blocks in use, the block answered is number 32, but the bit set in
    the bitmap is bit 0 of byte 128, the bit of block 1024: block 32 stays
    marked as free. *)
Theorem alloc_marks_wrong_block : ∃ s',
  ext2_alloc_block small_fs 0 small_state = Ret (32, s') ∧
  zget (block_bytes small_fs (e_disk s') 3) (32 / 8) = Some 0 ∧
  zget (block_bytes small_fs (e_disk s') 3) (1024 / 8) = Some 1.
Proof. eexists. split_and!; [vm_compute; reflexivity|vm_compute; reflexivity|vm_compute; reflexivity]. Qed.
