(* ===== verification/Filesystem.v ===== *)
(** The file system protocol and its client stubs
    ([libraries/c4rt/include/c4rt/interface/filesystem.h]).  Data travels
    through the ring buffer of the connection, which the server shares: while a
    request is answered it may change, as the parameter [peer] says. *)

From S2P Require Import Prelude Interfaces Kernel Mem RingBuffer Connman.
#[local] Open Scope Z_scope.

Section protocol.
Context `{KernelEnv}.
Definition FS_MSG_FIND_NAME : Z := MESSAGE_TYPE_END_RESERVED + 6.
Definition FS_MSG_GET_ROOT_DIR : Z := MESSAGE_TYPE_END_RESERVED + 7.
Definition FS_MSG_GET_NODE_INFO : Z := MESSAGE_TYPE_END_RESERVED + 8.
Definition FS_MSG_LIST_DIR : Z := MESSAGE_TYPE_END_RESERVED + 9.
Definition FS_MSG_CREATE_DIR : Z := MESSAGE_TYPE_END_RESERVED + 10.
Definition FS_MSG_SET_NODE : Z := MESSAGE_TYPE_END_RESERVED + 11.
Definition FS_MSG_CREATE_NODE : Z := MESSAGE_TYPE_END_RESERVED + 12.
Definition FS_MSG_READ_BLOCK : Z := MESSAGE_TYPE_END_RESERVED + 13.
Definition FS_MSG_WRITE_BLOCK : Z := MESSAGE_TYPE_END_RESERVED + 14.
Definition FS_MSG_COMPLETED : Z := MESSAGE_TYPE_END_RESERVED + 16.
Definition FS_MSG_ERROR : Z := MESSAGE_TYPE_END_RESERVED + 17.
End protocol.

Definition FS_ERROR_NOT_DIRECTORY : Z := 1.
Definition FS_ERROR_NOT_IMPLEMENTED : Z := 3.
Definition FS_ERROR_NOT_FOUND : Z := 4.
Definition FS_ERROR_QUEUE_FULL : Z := 6.
Definition FS_ERROR_BAD_REQUEST : Z := 7.

Definition FILE_TYPE_UNKNOWN : Z := 0.
Definition FILE_TYPE_FILE : Z := 1.
Definition FILE_TYPE_DIRECTORY : Z := 2.
Definition FILE_TYPE_SYMLINK : Z := 3.

Definition FS_MAX_NAME_LEN : Z := 256.

(** [fs_node_t]; [fs_dirent_t] is kept as its 268 bytes: name, name length,
    inode, type. *)
Record fs_node := mk_fsnode { n_inode : Z; n_type : Z; n_size : Z }.
Definition sizeof_dirent : Z := 268.

(** [fs_connection_t]. *)
Record fs_connection := mk_fsconn { fc_server : c4rt_conn; fc_node : fs_node; fc_index : Z }.

Section client.
Context `{KernelEnv} {R : Type} `{Allocator R}.
Context (peer : list kcall → c4_ringbuf → c4_ringbuf).
Abbreviation C := (M (client R)).

(** [c4rt_connman_call] from a client: the reply, and what the server did to
    the ring buffer meanwhile. *)
Definition call (conn : fs_connection) (msg : message) : C message :=
  r ← ck (c4rt_connman_call (fc_server conn) msg);
  modify (λ s, mk_client (c_proc s) (peer (p_hist (c_proc s)) (c_ring s)));;
  mret r.2.

(** [-msg.data[0]] as an [int]. *)
Definition neg_error (m : message) : Z := i32 (- mget m 0).

Definition fs_get_node_info (conn : fs_connection) (inode : Z) (node : fs_node) : C (Z * fs_node) :=
  m ← call conn (mk_msg FS_MSG_GET_NODE_INFO [inode]);
  if mtype m =? FS_MSG_ERROR then mret (neg_error m, node)
  else mret (0, mk_fsnode inode (mget m 1) (mget m 0)).

(** [dirent->inode] of a directory entry's bytes. *)
Definition dirent_inode (ent : list Z) : Z :=
  let b i := default 0 (zget ent (260 + i)) in b 0 + 256 * b 1 + 65536 * b 2 + 16777216 * b 3.

Definition fs_dirent_to_node (conn : fs_connection) (dirent : list Z) (node : fs_node) : C (Z * fs_node) :=
  fs_get_node_info conn (dirent_inode dirent) node.

Definition fs_connect (serv_endpoint : Z) (conn : fs_connection) : C (Z * fs_connection) :=
  r ← c4rt_connman_connect (fc_server conn) serv_endpoint;
  mret (0, mk_fsconn r.2 (fc_node conn) (fc_index conn)).

Definition fs_disconnect (conn : fs_connection) : C fs_connection :=
  c ← c4rt_connman_disconnect (fc_server conn);
  mret (mk_fsconn c (fc_node conn) (fc_index conn)).

Definition fs_find_name (conn : fs_connection) (node : fs_node) (name : list Z) (namelen : Z) : C (Z * fs_node) :=
  on_ring (c4_ringbuf_write name namelen);;
  m ← call conn (mk_msg FS_MSG_FIND_NAME [namelen]);
  if mtype m =? FS_MSG_ERROR then mret (neg_error m, node)
  else mret (1, mk_fsnode (mget m 0) (mget m 1) (mget m 2)).

Definition fs_get_root_dir (conn : fs_connection) : C (Z * fs_node) :=
  m ← call conn (mk_msg FS_MSG_GET_ROOT_DIR []);
  mret (1, mk_fsnode (mget m 0) (mget m 1) (mget m 2)).

Definition fs_set_node (conn : fs_connection) (node : fs_node) : C (Z * fs_connection) :=
  let conn := mk_fsconn (fc_server conn) node (fc_index conn) in
  m ← call conn (mk_msg FS_MSG_SET_NODE [n_inode node]);
  mret (if mtype m =? FS_MSG_ERROR then neg_error m else 1, conn).

Definition fs_list_dir (conn : fs_connection) : C Z :=
  m ← call conn (mk_msg FS_MSG_LIST_DIR []);
  mret (i32 (mget m 0)).

Definition fs_create_dir (conn : fs_connection) (name : list Z) (namelen : Z) : C Z :=
  on_ring (c4_ringbuf_write name namelen);;
  m ← call conn (mk_msg FS_MSG_CREATE_DIR [namelen]);
  if mtype m =? FS_MSG_ERROR then mret (neg_error m) else mret 0.

Definition fs_create_node (conn : fs_connection) (name : list Z) (namelen : Z) : C Z :=
  on_ring (c4_ringbuf_write name namelen);;
  m ← call conn (mk_msg FS_MSG_CREATE_NODE [namelen]);
  if mtype m =? FS_MSG_ERROR then mret (neg_error m) else mret 0.

(** The entry's bytes, when one was read. *)
Definition fs_next_dirent (conn : fs_connection) : C (Z * list Z) :=
  s ← get;
  n ← (if negb (c4_ringbuf_can_read (c_ring s) sizeof_dirent) then fs_list_dir conn else mret 1);
  if n <=? 0 then mret (n, [])
  else r ← on_ring (c4_ringbuf_read sizeof_dirent); mret (1, r.1).

Definition fs_read_block (conn : fs_connection) (maxlen : Z) : C (Z * list Z * fs_connection) :=
  s ← get;
  e ← (if c4_ringbuf_empty (c_ring s) then
         m ← call conn (mk_msg FS_MSG_READ_BLOCK [0]);
         mret (if mtype m =? FS_MSG_ERROR then Some (neg_error m) else None)
       else mret None);
  match e with
  | Some err => mret (err, [], conn)
  | None =>
      r ← on_ring (c4_ringbuf_read maxlen);
      mret (r.2, r.1, mk_fsconn (fc_server conn) (fc_node conn) (u32 (fc_index conn + r.2)))
  end.

(** [buffer + conn->index] must stay inside the caller's buffer. *)
Definition tail_from (buffer : list Z) (i : Z) : C (list Z) := mret (drop (Z.to_nat i) buffer).

Definition write_request (conn : fs_connection) : C (option Z) :=
  m ← call conn (mk_msg FS_MSG_WRITE_BLOCK [0]);
  mret (if mtype m =? FS_MSG_ERROR then Some (neg_error m) else None).

Fixpoint send_loop (turns : nat) (conn : fs_connection) (buffer : list Z) (len n : Z) : C (option Z * Z * fs_connection) :=
  match turns with
  | O => nofuel
  | S t =>
      if (0 <? len) && (0 <? n) then
        rest ← tail_from buffer (fc_index conn);
        n ← on_ring (c4_ringbuf_write rest len);
        let conn := mk_fsconn (fc_server conn) (fc_node conn) (u32 (fc_index conn + n)) in
        e ← write_request conn;
        match e with
        | Some err => mret (Some err, n, conn)
        | None => send_loop t conn buffer (u32 (len - n)) n
        end
      else mret (None, n, conn)
  end.

Fixpoint flush_loop (turns : nat) (conn : fs_connection) : C (option Z) :=
  match turns with
  | O => nofuel
  | S t =>
      s ← get;
      if c4_ringbuf_empty (c_ring s) then mret None
      else
        e ← write_request conn;
        match e with Some err => mret (Some err) | None => flush_loop t conn end
  end.

Definition fs_write_block (turns : nat) (conn : fs_connection) (buffer : list Z) (len : Z) : C (Z * fs_connection) :=
  if len =? 0 then mret (0, conn)
  else
    r ← send_loop turns conn buffer len 1;
    match r with
    | (Some err, _, conn) => mret (err, conn)
    | (None, n, conn) =>
        e ← flush_loop turns conn;
        match e with Some err => mret (err, conn) | None => mret (n, conn) end
    end.
End client.

(** ** Writing twice on one connection *)
Section claims.
Context `{KernelEnv} {R : Type} `{Allocator R}.

(** [fs_write_block] uses the connection's running position as the offset
    into the caller's buffer.  Once as many bytes as the buffer holds have gone
    through the connection, in earlier calls, the next write reads past the end
    of the caller's buffer. *)
Theorem write_block_overreads peer turns conn buffer len (s : client R) :
  0 < len → Z.of_nat (length buffer) <= fc_index conn →
  fs_write_block peer (S turns) conn buffer len s = UB.
Proof.
  intros Hl Hi. unfold fs_write_block. rewrite (proj2 (Z.eqb_neq len 0)) by lia.
  cbn [send_loop]. rewrite (proj2 (Z.ltb_lt 0 len)) by done. cbn [andb].
  unfold tail_from, on_ring, zoom, mbind, M_bind, mret, M_ret. cbn. rewrite drop_ge by lia.
  unfold c4_ringbuf_write. destruct (Z.to_nat len) as [|n] eqn:E; [lia|]. done.
Qed.
End claims.

Lemma write_block_overreads_witness :
  let _ := steady 0 no_msg in
  fs_write_block (λ _ b, b) 5 (mk_fsconn blank_conn (mk_fsnode 2 1 0) 3) [1; 2; 3] 3
    (mk_client (mk_process [] (Some Bump.start)) (mk_ringbuf 0 0 16 (replicate 16 0))) = UB.
Proof. intros env. apply write_block_overreads; [lia|simpl; lia]. Defined.
