(* ===== verification/Ext2Server.v ===== *)
(** The request handlers of the ext2 server ([programs/ext2fs/src/server.c]).
    A handler works for one connection: its ring buffer, its [prog_data] (the
    [client_state_t] allocated by the first [FS_MSG_SET_NODE], if the heap has
    room), the file system and the replies it sends. *)

From S2P Require Import Prelude Interfaces Kernel Mem RingBuffer Connman Filesystem Ext2 Ext2Inode.
#[local] Open Scope Z_scope.

(** [client_state_t]. *)
Record client_state := mk_cli { fsnode : fs_node; e2node : list Z; cindex : Z }.

Record server_state (D : Type) := mk_srv {
  sv_e2 : e2state D;
  sv_ring : c4_ringbuf;
  sv_cli : option client_state;
  sv_hist : list kcall
}.
Arguments mk_srv {D}.
Arguments sv_e2 {D}.
Arguments sv_ring {D}.
Arguments sv_cli {D}.
Arguments sv_hist {D}.

(** [ext2_dirent_t] at an offset of the page. *)
Record dirent_view := mk_dirent { d_inode : Z; d_size : Z; d_name_length : Z; d_type : Z }.

Definition EXT2_DIRENT_TYPE_FILE : Z := 1.
Definition EXT2_DIRENT_TYPE_DIR : Z := 2.
Definition EXT2_DIRENT_TYPE_SYMLINK : Z := 7.

Definition translate_type (ext_type : Z) : Z :=
  if ext_type =? EXT2_DIRENT_TYPE_FILE then FILE_TYPE_FILE
  else if ext_type =? EXT2_DIRENT_TYPE_DIR then FILE_TYPE_DIRECTORY
  else if ext_type =? EXT2_DIRENT_TYPE_SYMLINK then FILE_TYPE_SYMLINK
  else FILE_TYPE_UNKNOWN.

(** Whether the server's heap has room for the [client_state_t] of the
    connection: the outcome of the one [calloc] a connection can cause. *)
Class ClientHeap := client_calloc : bool.
Definition roomy : ClientHeap := true.

Section handlers.
Context `{KernelEnv} `{ClientHeap} {D : Type} `{BlockDevice D}.
Context (fs : ext2fs) (conn : c4rt_conn).
Abbreviation V := (M (server_state D)).

Definition on_e2 {A} (m : M (e2state D) A) : V A :=
  zoom sv_e2 (λ e s, mk_srv e (sv_ring s) (sv_cli s) (sv_hist s)) m.
Definition on_sring {A} (m : M c4_ringbuf A) : V A :=
  zoom sv_ring (λ b s, mk_srv (sv_e2 s) b (sv_cli s) (sv_hist s)) m.
Definition sk {A} (m : K A) : V A :=
  zoom sv_hist (λ h s, mk_srv (sv_e2 s) (sv_ring s) (sv_cli s) h) m.
Definition set_cli (c : client_state) : V unit :=
  modify (λ s, mk_srv (sv_e2 s) (sv_ring s) (Some c) (sv_hist s)).

Definition respond (m : message) : V unit := sk (c4rt_connman_server_respond conn m).
Definition send_error (error : Z) : V unit := respond (mk_msg FS_MSG_ERROR [error]).

Definition load_dirent (o : Z) : V dirent_view :=
  i ← on_e2 (buf32 o); sz ← on_e2 (buf16 (o + 4)); nl ← on_e2 (buf8 (o + 6)); ty ← on_e2 (buf8 (o + 7));
  mret (mk_dirent i sz nl ty).

(** The name part of the [fs_dirent_t] filled in: the characters copied and
    their terminator. *)
Fixpoint copy_name_loop (n : nat) (o : Z) (out : list Z) : V (list Z) :=
  match n with
  | O => mret (out ++ [0])
  | S n' => c ← on_e2 (buf8 (o + 8 + Z.of_nat (length out))); copy_name_loop n' o (out ++ [c])
  end.
Definition copy_name (o name_length : Z) : V (list Z) :=
  copy_name_loop (Z.to_nat (Z.min name_length (FS_MAX_NAME_LEN - 1))) o [].

(** [client_state_t] comes from [calloc], all zero; that it may fail is not
    checked, and the null pointer is written through. *)
Definition blank_client : client_state := mk_cli (mk_fsnode 0 0 0) (replicate sizeof_inode 0) 0.
Definition handle_set_node (request : message) : V unit :=
  s ← get;
  cli ← (match sv_cli s with
         | Some cli => mret cli
         | None => if client_calloc then mret blank_client else ub
         end);
  let node := mk_fsnode (mget request 0) FILE_TYPE_UNKNOWN 0 in
  r ← on_e2 (ext2_get_inode fs (mget request 0));
  set_cli (mk_cli node (from_option snd (e2node cli) r) 0);;
  respond (mk_msg FS_MSG_COMPLETED []).

(** Compare with the entry's name byte by byte. *)
Fixpoint match_loop (name : list Z) (o : Z) : V bool :=
  match name with
  | [] => mret true
  | c :: rest => d ← on_e2 (buf8 o); if c =? d then match_loop rest (o + 1) else mret false
  end.
Definition name_matches (o : Z) (name : list Z) : V bool :=
  nl ← on_e2 (buf8 (o + 6));
  if negb (nl =? Z.of_nat (length name)) then mret false else match_loop name (o + 8).

(** The scan of one directory block; [Some] is the reply to send. *)
Fixpoint scan_block (fuel : nat) (name : list Z) (i : Z) : V (option message) :=
  match fuel with
  | O => nofuel
  | S n =>
      if i <? ext2_block_size fs then
        m ← name_matches i name;
        if m : bool then
          d ← load_dirent i;
          mret (Some (mk_msg FS_MSG_COMPLETED [d_inode d; translate_type (d_type d); 0]))
        else
          sz ← on_e2 (buf16 (i + 4));
          scan_block n name (u32 (i + sz))
      else mret None
  end.

Fixpoint scan_dir (fuel : nat) (cli : client_state) (name : list Z) (block : Z) : V unit :=
  match fuel with
  | O => nofuel
  | S n =>
      if u32 (block * ext2_block_size fs) <? i_lower_size (e2node cli) then
        ok ← on_e2 (ext2_inode_read_block fs (e2node cli) block);
        if negb ok then ub
        else
          r ← scan_block n name 0;
          match r with
          | Some m => respond m
          | None => scan_dir n cli name (block + 1)
          end
      else send_error FS_ERROR_NOT_FOUND
  end.

(** Without [prog_data] an error is sent and then the null pointer read.  When
    fewer bytes come out of the ring buffer than it said were there, the rest of
    the local array is uninitialized. *)
Definition handle_find_name (fuel : nat) (request : message) : V unit :=
  let namelen := mget request 0 in
  s ← get;
  match sv_cli s with
  | None => send_error FS_ERROR_BAD_REQUEST;; ub
  | Some cli =>
      if negb (ext2_is_directory (e2node cli)) then send_error FS_ERROR_NOT_DIRECTORY
      else if negb (c4_ringbuf_can_read (sv_ring s) namelen) || (FS_MAX_NAME_LEN <=? namelen)
      then send_error FS_ERROR_BAD_REQUEST
      else
        r ← on_sring (c4_ringbuf_read namelen);
        if r.2 <? namelen then ub else scan_dir fuel cli r.1 0
  end.

(** A failed read leaves the local inode uninitialized. *)
Definition handle_get_rootdir (request : message) : V unit :=
  r ← on_e2 (ext2_get_inode fs 2);
  match r with
  | None => ub
  | Some (_, raw) => respond (mk_msg FS_MSG_COMPLETED [2; FILE_TYPE_DIRECTORY; i_lower_size raw])
  end.

Definition handle_get_node_info (request : message) : V unit :=
  r ← on_e2 (ext2_get_inode fs (mget request 0));
  match r with
  | None => send_error FS_ERROR_NOT_FOUND
  | Some (_, raw) =>
      respond (mk_msg FS_MSG_COMPLETED [i_lower_size raw; translate_type (ext2_inode_type raw)])
  end.

(** The bytes of the [fs_dirent_t] sent; its name array keeps [junk] after the
    terminator. *)
Definition dirent_bytes (junk : list Z) (name : list Z) (d : dirent_view) : list Z :=
  (name ++ drop (length name) junk) ++ le32 (d_name_length d) ++ le32 (d_inode d) ++ le32 (translate_type (d_type d)).

Fixpoint list_loop (fuel : nat) (junk : list Z) (i sent : Z) : V Z :=
  match fuel with
  | O => nofuel
  | S n =>
      if i <? ext2_block_size fs then
        d ← load_dirent i;
        name ← copy_name i (d_name_length d);
        s ← get;
        sent' ← (if c4_ringbuf_can_write (sv_ring s) sizeof_dirent then
                   on_sring (c4_ringbuf_write (dirent_bytes junk name d) sizeof_dirent);;
                   mret (sent + 1)
                 else mret sent);
        list_loop n junk (u32 (i + d_size d)) sent'
      else mret sent
  end.

Definition handle_list_dir (fuel : nat) (junk : list Z) (request : message) : V unit :=
  s ← get;
  match sv_cli s with
  | None => send_error FS_ERROR_BAD_REQUEST
  | Some cli =>
      if i_lower_size (e2node cli) <=? u32 (cindex cli * ext2_block_size fs)
      then respond (mk_msg FS_MSG_COMPLETED [0])
      else
        ok ← on_e2 (ext2_inode_read_block fs (e2node cli) (cindex cli));
        if negb ok then ub
        else
          sent ← list_loop fuel junk 0 0;
          set_cli (mk_cli (fsnode cli) (e2node cli) (u32 (cindex cli + 1)));;
          respond (mk_msg FS_MSG_COMPLETED [sent])
  end.

(** [foo] is null when the block could not be read or is not allocated; the
    write then reads from address [offset]. *)
Definition handle_read_block (request : message) : V unit :=
  s ← get;
  match sv_cli s with
  | None => send_error FS_ERROR_BAD_REQUEST
  | Some cli =>
      let size := i_lower_size (e2node cli) in
      let index := cindex cli in
      if size <=? index then respond (mk_msg FS_MSG_COMPLETED [0])
      else
        let blocksize := ext2_block_size fs in
        let diff := size - index in
        let writesize := if blocksize <? diff then blocksize else diff in
        let offset := index mod blocksize in
        if negb (c4_ringbuf_can_write (sv_ring s) writesize) then send_error FS_ERROR_QUEUE_FULL
        else
          ok ← on_e2 (ext2_inode_read_block fs (e2node cli) (index / blocksize));
          if negb ok then ub
          else
            s' ← get;
            wrote ← on_sring (c4_ringbuf_write (drop (Z.to_nat offset) (e_buf (sv_e2 s'))) writesize);
            set_cli (mk_cli (fsnode cli) (e2node cli) (u32 (index + wrote)));;
            respond (mk_msg FS_MSG_COMPLETED [wrote])
  end.

(** The client's bytes go into the page through [foo + offset]. *)
Definition handle_write_block (request : message) : V unit :=
  s ← get;
  match sv_cli s with
  | None => send_error FS_ERROR_BAD_REQUEST
  | Some cli =>
      let blocksize := ext2_block_size fs in
      let index := cindex cli in
      let offset := index mod blocksize in
      let writesize := blocksize - offset in
      if c4_ringbuf_empty (sv_ring s) then respond (mk_msg FS_MSG_COMPLETED [0])
      else
        fs_block ← on_e2 (ext2_inode_alloc_block fs (n_inode (fsnode cli)) (index / blocksize));
        ok ← on_e2 (ext2_read_block fs fs_block);
        if negb ok then ub
        else
          r ← on_sring (c4_ringbuf_read writesize);
          on_e2 (buf_store offset r.1);;
          on_e2 (ext2_write_block fs fs_block);;
          set_cli (mk_cli (fsnode cli) (e2node cli) (u32 (index + r.2)));;
          respond (mk_msg FS_MSG_COMPLETED [r.2])
  end.

Definition handle_unimplemented (request : message) : V unit := send_error FS_ERROR_NOT_IMPLEMENTED.

(** The dispatch of [ext2_server]. *)
Definition ext2_serve (fuel : nat) (junk : list Z) (request : message) : V unit :=
  let t := mtype request in
  if t =? FS_MSG_SET_NODE then handle_set_node request
  else if t =? FS_MSG_FIND_NAME then handle_find_name fuel request
  else if t =? FS_MSG_GET_ROOT_DIR then handle_get_rootdir request
  else if t =? FS_MSG_GET_NODE_INFO then handle_get_node_info request
  else if t =? FS_MSG_LIST_DIR then handle_list_dir fuel junk request
  else if t =? FS_MSG_READ_BLOCK then handle_read_block request
  else if t =? FS_MSG_WRITE_BLOCK then handle_write_block request
  else handle_unimplemented request.
End handlers.

(** There is, or can be, a client state. *)
Definition has_room `{ClientHeap} {D} (s : server_state D) : Prop := sv_cli s = None → client_calloc = true.

(** ** Directory lookup *)

(** An entry with its name, as it lies in the page. *)
Record entry_at (page : list Z) (o : Z) (d : dirent_view) (nm : list Z) : Prop := {
  ea_inode : ld32 page o = Some (d_inode d);
  ea_size : ld16 page (o + 4) = Some (d_size d);
  ea_len : ld8 page (o + 6) = Some (d_name_length d);
  ea_type : ld8 page (o + 7) = Some (d_type d);
  ea_name : d_name_length d = Z.of_nat (length nm) ∧ ∀ i c, nm !! i = Some c → ld8 page (o + 8 + Z.of_nat i) = Some c
}.

(** Entries one after the other from [o] to the end of the block. *)
Fixpoint chain (bs : Z) (page : list Z) (o : Z) (es : list (dirent_view * list Z)) : Prop :=
  match es with
  | [] => bs <= o < 2 ^ 32
  | (d, nm) :: es' => 0 <= o < bs ∧ 0 < d_size d ∧ entry_at page o d nm ∧ chain bs page (o + d_size d) es'
  end.

(** The reply to a lookup: the first entry of that name. *)
Fixpoint lookup_entry `{KernelEnv} (name : list Z) (es : list (dirent_view * list Z)) : option message :=
  match es with
  | [] => None
  | (d, nm) :: es' =>
      if bool_decide (nm = name) then Some (mk_msg FS_MSG_COMPLETED [d_inode d; translate_type (d_type d); 0])
      else lookup_entry name es'
  end.

Section lookup.
Context `{KernelEnv} {D : Type} `{BlockDevice D}.
Context (fs : ext2fs).
Implicit Types s : server_state D.

Definition page_of s : list Z := e_buf (sv_e2 s).

Lemma srv_e2_id s : mk_srv (sv_e2 s) (sv_ring s) (sv_cli s) (sv_hist s) = s.
Proof. by destruct s. Qed.

Lemma buf8_ok s o v : ld8 (page_of s) o = Some v → on_e2 (buf8 o) s = Ret (v, s).
Proof. intros E. unfold on_e2, zoom, buf8, getsome. fold (page_of s). by rewrite E, srv_e2_id. Qed.
Lemma buf16_ok s o v : ld16 (page_of s) o = Some v → on_e2 (buf16 o) s = Ret (v, s).
Proof. intros E. unfold on_e2, zoom, buf16, getsome. fold (page_of s). by rewrite E, srv_e2_id. Qed.
Lemma buf32_ok s o v : ld32 (page_of s) o = Some v → on_e2 (buf32 o) s = Ret (v, s).
Proof. intros E. unfold on_e2, zoom, buf32, getsome. fold (page_of s). by rewrite E, srv_e2_id. Qed.

Lemma match_loop_ok s name nm o : length name = length nm →
  (∀ i c, nm !! i = Some c → ld8 (page_of s) (o + Z.of_nat i) = Some c) →
  match_loop name o s = Ret (bool_decide (nm = name), s).
Proof.
  revert nm o. induction name as [|c name IH]; intros [|c' nm] o Hl Hm; try done.
  cbn [match_loop]. pose proof (Hm 0%nat c' eq_refl) as Hc. rewrite Z.add_0_r in Hc. rewrite (bind_run _ _ _ _ _ (buf8_ok s o c' Hc)).
  destruct (Z.eqb_spec c c') as [->|Hne].
  - rewrite (IH nm); [|by injection Hl|].
    + f_equal. f_equal. apply bool_decide_ext. naive_solver.
    + intros i x Hx. replace (o + 1 + Z.of_nat i) with (o + Z.of_nat (S i)) by lia. by apply Hm.
  - rewrite bool_decide_false by naive_solver. done.
Qed.

Lemma name_matches_ok s o d nm name : entry_at (page_of s) o d nm →
  name_matches o name s = Ret (bool_decide (nm = name), s).
Proof.
  intros [_ _ Hl _ [En Hn]]. unfold name_matches. rewrite (bind_run _ _ _ _ _ (buf8_ok s _ _ Hl)), En.
  destruct (Z.eqb_spec (Z.of_nat (length nm)) (Z.of_nat (length name))) as [E|Hne]; cbn [negb].
  - apply match_loop_ok; [lia|done].
  - rewrite bool_decide_false by (intros ->; lia). done.
Qed.

Lemma load_dirent_ok s o d nm : entry_at (page_of s) o d nm → load_dirent o s = Ret (d, s).
Proof.
  intros [H1 H2 H3 H4 _]. unfold load_dirent.
  rewrite (bind_run _ _ _ _ _ (buf32_ok s _ _ H1)), (bind_run _ _ _ _ _ (buf16_ok s _ _ H2)),
    (bind_run _ _ _ _ _ (buf8_ok s _ _ H3)), (bind_run _ _ _ _ _ (buf8_ok s _ _ H4)). by destruct d.
Qed.

Lemma scan_block_spec fuel name i es s : chain (ext2_block_size fs) (page_of s) i es → (length es < fuel)%nat →
  ext2_block_size fs <= 2 ^ 16 → (∀ d nm, (d, nm) ∈ es → d_size d < 2 ^ 16) →
  scan_block fs fuel name i s = Ret (lookup_entry name es, s).
Proof.
  revert i fuel. induction es as [|[d nm] es IH]; intros i [|fuel] Hc Hf Hb Hsz; try (simpl in Hf; lia); cbn [scan_block].
  - simpl in Hc. replace (i <? ext2_block_size fs) with false by lia. done.
  - destruct Hc as (Hi & Hs & He & Hc). replace (i <? ext2_block_size fs) with true by lia.
    rewrite (bind_run _ _ _ _ _ (name_matches_ok s i d nm name He)). cbn [lookup_entry].
    destruct (bool_decide (nm = name)) eqn:En.
    + by rewrite (bind_run _ _ _ _ _ (load_dirent_ok s i d nm He)).
    + rewrite (bind_run _ _ _ _ _ (buf16_ok s _ _ (ea_size _ _ _ _ He))).
      pose proof (Hsz d nm (list_elem_of_here _ _)). rewrite u32_small by lia.
      apply IH; [done|simpl in Hf; lia|done|]. intros d' nm' Hd. apply (Hsz d' nm'). by right.
Qed.
End lookup.

Section claims.
Context `{KernelEnv} {D : Type} `{BlockDevice D}.
Implicit Types s : server_state D.

(** The directory scan behind [FS_MSG_FIND_NAME] is a correct lookup: on a
    block of well-formed entries it stops after at most one turn per entry, and
    its answer is the inode and type of the first entry with exactly that name,
    or nothing when no entry has it. *)
Theorem scan_block_correct fs fuel name i es s :
  chain (ext2_block_size fs) (page_of s) i es → (length es < fuel)%nat →
  ext2_block_size fs <= 2 ^ 16 → (∀ d nm, (d, nm) ∈ es → d_size d < 2 ^ 16) →
  scan_block fs fuel name i s = Ret (lookup_entry name es, s).
Proof. apply scan_block_spec. Qed.

(** C39: a directory entry of size 0 hangs the server: the scan never gets past
    it, whatever fuel it is given. *)
Theorem zero_entry_hangs fs fuel name i d nm s :
  entry_at (page_of s) i d nm → d_size d = 0 → nm ≠ name → 0 <= i < ext2_block_size fs → ext2_block_size fs <= 2 ^ 16 →
  scan_block fs fuel name i s = NoFuel.
Proof.
  intros He Hz Hne Hi Hb. induction fuel as [|fuel IH]; [done|]. cbn [scan_block].
  replace (i <? ext2_block_size fs) with true by lia.
  rewrite (bind_run _ _ _ _ _ (name_matches_ok s i d nm name He)), bool_decide_false by done.
  rewrite (bind_run _ _ _ _ _ (buf16_ok s _ _ (ea_size _ _ _ _ He))), Hz, u32_small by lia. by rewrite Z.add_0_r.
Qed.

(** A client's first request to select a node when the heap is full: the null
    pointer [calloc] gave is written through. *)
Theorem client_calloc_unchecked fs conn request s : let _ : ClientHeap := false in
  sv_cli s = None → handle_set_node fs conn request s = UB.
Proof. intros room E. unfold handle_set_node. rewrite (bind_run get _ s s s) by done. by rewrite E. Qed.

(** Two requests a client can send at any time make the server read
    through a null pointer: a lookup before any node was set, and a read in a
    hole of a file. *)
Theorem requests_crash fs conn fuel request s cli :
  (sv_cli s = None → handle_find_name fs conn fuel request s = UB) ∧
  (sv_cli s = Some cli → cindex cli < i_lower_size (e2node cli) →
   c4_ringbuf_can_write (sv_ring s)
     (if ext2_block_size fs <? i_lower_size (e2node cli) - cindex cli then ext2_block_size fs
      else i_lower_size (e2node cli) - cindex cli) = true →
   cindex cli / ext2_block_size fs < 12 → i_direct_ptr (e2node cli) (cindex cli / ext2_block_size fs) = 0 →
   ext2_block_size fs <= Z.of_nat (length (page_of s)) →
   handle_read_block fs conn request s = UB).
Proof.
  split.
  - intros E. unfold handle_find_name, mbind, M_bind, get. by rewrite E.
  - intros E Hi Hw Hb Hp Hl. unfold handle_read_block. rewrite (bind_run get _ s s s) by done. rewrite E.
    replace (i_lower_size (e2node cli) <=? cindex cli) with false by lia. cbv zeta. rewrite Hw. cbn [negb].
    unfold ext2_inode_read_block. replace (cindex cli / ext2_block_size fs <? 12) with true by lia. rewrite Hp. cbn [truthy negb Z.eqb].
    unfold on_e2, zoom, mbind, M_bind, get, set_buf, modify, mret, M_ret. fold (page_of s).
    by replace (ext2_block_size fs <=? Z.of_nat (length (page_of s))) with true by lia.
Qed.
End claims.

(** ** A directory block: [.] and [ab] *)
Definition sample_page : list Z :=
  pad 4096 (le32 2 ++ le16 12 ++ [1; 2] ++ [46; 0; 0; 0] ++ le32 11 ++ le16 1012 ++ [2; 1] ++ [97; 98]).

Definition sample_entries : list (dirent_view * list Z) :=
  [(mk_dirent 2 12 1 2, [46]); (mk_dirent 11 1012 2 1, [97; 98])].

Definition sample_srv (page : list Z) (cli : option client_state) : server_state Ramdisk.ramdisk :=
  mk_srv (mk_e2 small_disk page) (mk_ringbuf 0 0 4084 (replicate 4084 0)) cli [].

Lemma sample_chain : chain (ext2_block_size small_fs) (page_of (sample_srv sample_page None)) 0 sample_entries.
Proof.
  cbn [chain sample_entries d_size]. split_and!; try (vm_compute; congruence); try (vm_compute; split; congruence).
  - split; try (vm_compute; reflexivity). split; [reflexivity|]. intros [|i] c; [|done]. intros [= <-]. vm_compute. reflexivity.
  - split; try (vm_compute; reflexivity). split; [reflexivity|]. intros [|[|i]] c; [| |done]; intros [= <-]; vm_compute; reflexivity.
Qed.

Lemma scan_block_correct_witness :
  let _ := steady 0 no_msg in
  scan_block small_fs 3 [97; 98] 0 (sample_srv sample_page None) =
    Ret (Some (mk_msg FS_MSG_COMPLETED [11; FILE_TYPE_FILE; 0]), sample_srv sample_page None).
Proof.
  intros env. refine (eq_trans (scan_block_correct small_fs 3 [97; 98] 0 sample_entries (sample_srv sample_page None) sample_chain _ _ _) _).
  - simpl. lia.
  - vm_compute. congruence.
  - intros d nm [[= -> ->]|[[= -> ->]|[]%not_elem_of_nil]%elem_of_cons]%elem_of_cons; simpl; lia.
  - reflexivity.
Defined.

Lemma zero_entry_hangs_witness :
  let _ := steady 0 no_msg in
  scan_block small_fs 1000 [97] 0 (sample_srv (replicate 4096 0) None) = NoFuel.
Proof.
  intros env. apply (zero_entry_hangs small_fs 1000 [97] 0 (mk_dirent 0 0 0 0) []).
  - split; try (vm_compute; reflexivity). split; [reflexivity|]. intros i c. by rewrite lookup_nil.
  - reflexivity.
  - discriminate.
  - vm_compute. split; congruence.
  - vm_compute. congruence.
Defined.

(** A file of 5000 bytes without any block. *)
Definition hole_cli : client_state := mk_cli (mk_fsnode 3 0 0) (default [] (stn (replicate 120 0) 4 (le32 5000))) 0.

Lemma requests_crash_witness :
  let _ := steady 0 no_msg in
  handle_find_name small_fs blank_conn 9 no_msg (sample_srv sample_page None) = UB ∧
  handle_read_block small_fs blank_conn no_msg (sample_srv sample_page (Some hole_cli)) = UB.
Proof.
  intros env. split.
  - apply (requests_crash small_fs blank_conn 9 no_msg (sample_srv sample_page None) hole_cli). reflexivity.
  - apply (requests_crash small_fs blank_conn 9 no_msg (sample_srv sample_page (Some hole_cli)) hole_cli);
      vm_compute; congruence.
Defined.
