(* ===== verification/Ext2File.v ===== *)
(** Files on the disk ([programs/ext2fs/src/main.c]): the blocks and the bytes a
    file has, and what the server's handlers of [FS_MSG_SET_NODE] and
    [FS_MSG_READ_BLOCK] ([src/server.c]) hand out of it. *)

From S2P Require Import Prelude Interfaces Kernel Mem RingBuffer Connman Filesystem Ext2 Ext2Inode Ext2Server.
#[local] Open Scope Z_scope.

(** ** A file on the disk *)
Section file.
Context {D : Type} `{BlockDeviceLaws D}.
Context (fs : ext2fs).
Abbreviation bs := (ext2_block_size fs).

(** The number of the [k]-th block of the file with inode [raw]: the first
    twelve are in the inode, the others in its indirect block. *)
Definition file_block (d : D) (raw : list Z) (k : Z) : Z :=
  if k <? 12 then i_direct_ptr raw k
  else fld32 (block_bytes fs d (i_single_indirect_ptr raw)) (4 * (k - 12)).

Definition file_blocks (raw : list Z) : nat := Z.to_nat ((i_lower_size raw + bs - 1) / bs).

(** The bytes of the file. *)
Definition file_bytes (d : D) (raw : list Z) : list Z :=
  take (Z.to_nat (i_lower_size raw)) (concat ((λ k, block_bytes fs d (file_block d raw (Z.of_nat k))) <$> seq 0 (file_blocks raw))).

(** All blocks of the file are allocated, on the disk, and within reach of the
    direct and the single indirect pointers. *)
Record file_ok (d : D) (raw : list Z) : Prop := {
  fo_size : 0 <= i_lower_size raw < 2 ^ 32;
  fo_reach : Z.of_nat (file_blocks raw) <= 12 + ext2_pointers_per_block fs;
  fo_single : 12 < Z.of_nat (file_blocks raw) → 0 < i_single_indirect_ptr raw <= total_blocks (superblock fs);
  fo_blocks : ∀ k, 0 <= k < Z.of_nat (file_blocks raw) → 0 < file_block d raw k <= total_blocks (superblock fs)
}.

Lemma bs_pos d : geometry_ok fs d → 0 < bs <= 4096.
Proof. intros Hg. destruct (block_size_cases fs d Hg) as [[-> _]|[[-> _]|[-> _]]]; lia. Qed.

Lemma file_blocks_iff d raw k : geometry_ok fs d → 0 <= i_lower_size raw → 0 <= k →
  (k < Z.of_nat (file_blocks raw) ↔ k * bs < i_lower_size raw).
Proof.
  intros Hg Hs Hk. pose proof (bs_pos d Hg). unfold file_blocks. rewrite Z2Nat.id by (apply Z.div_pos; lia).
  pose proof (Z.div_mod (i_lower_size raw + bs - 1) bs ltac:(lia)). pose proof (Z.mod_pos_bound (i_lower_size raw + bs - 1) bs ltac:(lia)).
  set (q := (_ + _ - _) / _) in *. split; nia.
Qed.

Lemma block_in_range d raw k : geometry_ok fs d → file_ok d raw → 0 <= k <= Z.of_nat (file_blocks raw) → 0 <= k * bs < 2 ^ 32.
Proof.
  intros Hg Hf Hk. pose proof (fo_reach _ _ Hf) as Hr. unfold ext2_pointers_per_block in *.
  destruct (block_size_cases fs d Hg) as [[E _]|[[E _]|[E _]]]; rewrite E in *; change (1024 / 4) with 256 in *;
    change (2048 / 4) with 512 in *; change (4096 / 4) with 1024 in *; lia.
Qed.

(** Reading the [k]-th block brings it to the front of the page. *)
Lemma inode_read_block_ok s raw k : e2_ok fs s → file_ok (e_disk s) raw → 0 <= k < Z.of_nat (file_blocks raw) →
  ∃ more, let s' := mk_e2 (e_disk s) (block_bytes fs (e_disk s) (file_block (e_disk s) raw k) ++ more) in
  ext2_inode_read_block fs raw k s = Ret (true, s') ∧ e2_ok fs s'.
Proof.
  intros Hs Hf Hk. pose proof (fo_blocks _ _ Hf k Hk) as Hb. unfold file_block in *. unfold ext2_inode_read_block.
  destruct (Z.ltb_spec k 12) as [Hlt|Hge].
  - rewrite truthy_ne by lia. destruct (read_block_ok fs s (i_direct_ptr raw k)) as (more & E & Hs'); [done|lia|]. by exists more.
  - pose proof (fo_single _ _ Hf ltac:(lia)) as Hsi. pose proof (fo_reach _ _ Hf) as Hr. pose proof (e2_geom _ _ Hs) as Hg.
    assert (0 <= ext2_pointers_per_block fs <= 1024) as Hpp.
    { unfold ext2_pointers_per_block. destruct (block_size_cases fs _ Hg) as [[-> _]|[[-> _]|[-> _]]]; by vm_compute. }
    rewrite u32_small by lia. replace (k <? _) with true by lia. rewrite (proj2 (Z.eqb_neq _ 0)) by lia.
    destruct (read_block_ok fs s (i_single_indirect_ptr raw)) as (more & E & Hs1); [done|lia|].
    rewrite (bind_run _ _ _ _ _ E). cbn [negb]. set (ind := block_bytes fs (e_disk s) _) in *.
    pose proof (block_bytes_length fs (e_disk s) (i_single_indirect_ptr raw) (e2_disk _ _ Hs) Hg) as Hl. fold ind in Hl.
    pose proof (Z.mul_div_le bs 4 ltac:(lia)). unfold ext2_pointers_per_block in *.
    destruct (ld32_ok ind (4 * (k - 12))) as [v Ev]; [lia|lia|].
    rewrite (bind_run _ _ _ v (mk_e2 (e_disk s) (ind ++ more))) by (unfold buf32, getsome; cbn [e_buf]; by rewrite ld32_app_l, Ev by lia).
    assert (fld32 ind (4 * (k - 12)) = v) as Efl by (unfold fld32; by rewrite Ev). rewrite Efl in *. rewrite truthy_ne by lia.
    destruct (read_block_ok fs _ v Hs1) as (more' & E' & Hs'); [lia|]. by exists more'.
Qed.

Lemma file_pieces d raw : bd_inv d → geometry_ok fs d → 
  Forall (λ l, length l = Z.to_nat bs) ((λ k, block_bytes fs d (file_block d raw (Z.of_nat k))) <$> seq 0 (file_blocks raw)).
Proof.
  intros Hd Hg. apply Forall_forall. intros l (k & -> & _)%list_elem_of_fmap.
  pose proof (block_bytes_length fs d (file_block d raw (Z.of_nat k)) Hd Hg). lia.
Qed.

Lemma file_bytes_length d raw : bd_inv d → geometry_ok fs d → 0 <= i_lower_size raw →
  Z.of_nat (length (file_bytes d raw)) = i_lower_size raw.
Proof.
  intros Hd Hg Hs. pose proof (bs_pos d Hg). unfold file_bytes. rewrite length_take.
  rewrite (length_concat_pieces (Z.to_nat bs)), length_fmap, length_seq by (by apply file_pieces).
  unfold file_blocks. pose proof (Z.div_mod (i_lower_size raw + bs - 1) bs ltac:(lia)).
  pose proof (Z.mod_pos_bound (i_lower_size raw + bs - 1) bs ltac:(lia)).
  pose proof (Z.div_pos (i_lower_size raw + bs - 1) bs ltac:(lia) ltac:(lia)). nia.
Qed.

(** The part of a file that lies in one block. *)
Lemma file_slice d raw i : bd_inv d → geometry_ok fs d → 0 <= i < i_lower_size raw → i mod bs = 0 →
  take (Z.to_nat bs) (drop (Z.to_nat i) (file_bytes d raw)) =
  take (Z.to_nat (Z.min bs (i_lower_size raw - i))) (block_bytes fs d (file_block d raw (i / bs))).
Proof.
  intros Hd Hg Hi Hm. pose proof (bs_pos d Hg). pose proof (Z.div_mod i bs ltac:(lia)) as Hdm. rewrite Hm, Z.add_0_r in Hdm.
  pose proof (Z.div_pos i bs ltac:(lia) ltac:(lia)). set (k := i / bs) in *.
  pose proof (proj2 (file_blocks_iff d raw k Hg ltac:(lia) ltac:(lia)) ltac:(lia)) as Hk.
  unfold file_bytes. rewrite skipn_firstn_comm, take_take.
  rewrite <-(take_drop_concat (Z.to_nat bs) (Z.to_nat k) (block_bytes fs d (file_block d raw k)) _ (file_pieces d raw Hd Hg)).
  - rewrite take_take. f_equal; [lia|]. f_equal. nia.
  - rewrite list_lookup_fmap, lookup_seq_lt by lia. simpl. by rewrite Z2Nat.id by lia.
Qed.
End file.

(** ** The server's side of a read *)
Section server.
Context `{KernelEnv} {D : Type} `{BlockDeviceLaws D}.
Context (fs : ext2fs) (conn : c4rt_conn).
Implicit Types s : server_state D.
Abbreviation bs := (ext2_block_size fs).

Definition with_buffer (b : c4_ringbuf) s : server_state D := mk_srv (sv_e2 s) b (sv_cli s) (sv_hist s).
Definition disk_of s : D := e_disk (sv_e2 s).

(** The call that sends the reply [m]. *)
Definition sent (m : message) : kcall := mk_call SYSCALL_ASYNC_SEND [0; u32 (async_to conn); 0; 0] m.

(** The client has selected the file with inode [raw] and been handed its first
    [i] bytes: whole blocks, or all of it. *)
Record at_offset (raw : list Z) (i : Z) s : Prop := {
  ao_e2 : e2_ok fs (sv_e2 s);
  ao_file : file_ok fs (disk_of s) raw;
  ao_cli : ∃ node, sv_cli s = Some (mk_cli node raw i);
  ao_index : 0 <= i <= i_lower_size raw;
  ao_aligned : i mod bs = 0 ∨ i = i_lower_size raw
}.

(** The block at offset [i]. *)
Definition next_piece s (raw : list Z) (i : Z) : list Z := take (Z.to_nat bs) (drop (Z.to_nat i) (file_bytes fs (disk_of s) raw)).

Lemma next_piece_length raw i s : at_offset raw i s → Z.of_nat (length (next_piece s raw i)) = Z.min bs (i_lower_size raw - i).
Proof.
  intros [Hs Hf _ Hi _]. unfold next_piece. rewrite length_take, length_drop.
  pose proof (file_bytes_length fs (disk_of s) raw (e2_disk _ _ Hs) (e2_geom _ _ Hs) ltac:(lia)).
  pose proof (bs_pos fs _ (e2_geom _ _ Hs)). lia.
Qed.

Lemma respond_run m s : respond conn m s = Ret (tt, mk_srv (sv_e2 s) (sv_ring s) (sv_cli s) (sent m :: sv_hist s)).
Proof. done. Qed.

(** An empty buffer accepts exactly what fits, whatever its indices. *)
Lemma can_write_empty b n : ring_wf b → contents b = [] → c4_ringbuf_can_write b n = (n <? size b).
Proof.
  intros Hwf Hc. pose proof (contents_len b Hwf) as Hl. rewrite Hc in Hl. pose proof (empty_iff b Hwf) as He.
  rewrite <-Hl in He. apply Z.eqb_eq in He. unfold c4_ringbuf_can_write, c4_ringbuf_available, mask. rewrite He, Z.sub_diag.
  destruct Hwf. rewrite Z.mod_0_l by lia. by rewrite Z.sub_0_r, u32_small by lia.
Qed.

Lemma fill_ok b piece more n : ring_wf b → contents b = [] → n = Z.of_nat (length piece) → n < size b →
  ∃ b', c4_ringbuf_write (piece ++ more) n b = Ret (n, b') ∧ ring_wf b' ∧ size b' = size b ∧ contents b' = piece.
Proof.
  intros Hwf Hc -> Hn. pose proof (wf_size b Hwf).
  destruct (ringbuf_write_ok (piece ++ more) (Z.of_nat (length piece)) b Hwf) as (b' & E & Hwf' & Hs' & Hc'); [rewrite length_app; lia|lia|].
  unfold capacity in *. rewrite Hc in *. simpl in *.
  replace (Z.min (Z.of_nat (length piece)) _) with (Z.of_nat (length piece)) in * by lia.
  exists b'. split_and!; try done. rewrite Hc', Nat2Z.id. apply take_app_length.
Qed.

(** A read request, on whatever empty ring buffer: the next block of the file
    goes into the buffer, the reply says how much it is, the disk stays as it
    is. *)
Lemma handle_read_block_ok raw i s request : at_offset raw i s → let piece := next_piece s raw i in let n := Z.of_nat (length piece) in
  ∃ e' cli', ∀ b, ring_wf b → contents b = [] → n < size b → ∃ b', let s' := mk_srv e' b' (Some cli') (sent (mk_msg FS_MSG_COMPLETED [n]) :: sv_hist s) in
  handle_read_block fs conn request (with_buffer b s) = Ret (tt, s') ∧
  ring_wf b' ∧ size b' = size b ∧ contents b' = piece ∧ at_offset raw (i + n) s' ∧ disk_of s' = disk_of s.
Proof.
  intros Hao piece n. pose proof (next_piece_length _ _ _ Hao) as Hn. fold piece n in Hn.
  destruct Hao as [Hs Hf [node Hcli] Hi Hal]. pose proof (fo_size _ _ _ Hf) as Hsz. pose proof (bs_pos fs _ (e2_geom _ _ Hs)) as Hbs.
  destruct (decide (i = i_lower_size raw)) as [->|Hne].
  - exists (sv_e2 s), (mk_cli node raw (i_lower_size raw)). intros b Hwf Hc Hlt. assert (n = 0) as E0 by lia. assert (piece = []) as -> by (apply nil_length_inv; lia).
    exists b. unfold handle_read_block. rewrite (bind_run get _ _ _ _ eq_refl). cbn [sv_cli with_buffer]. rewrite Hcli. cbn [e2node cindex].
    rewrite Z.leb_refl, respond_run, E0. cbn [sv_e2 sv_ring sv_cli sv_hist with_buffer]. rewrite Hcli. split_and!; try done.
    rewrite Z.add_0_r. split; [done|done|by exists node|done|by right].
  - destruct Hal as [Hal|]; [|done]. assert (i < i_lower_size raw) as Hlt by lia.
    pose proof (Z.div_mod i bs ltac:(lia)) as Hdm. pose proof (Z.div_pos i bs ltac:(lia) ltac:(lia)) as Hq.
    assert (0 <= i / bs < Z.of_nat (file_blocks fs raw)) as Hk by (split; [done|]; apply (file_blocks_iff fs (disk_of s)); [apply Hs|lia..]).
    destruct (inode_read_block_ok fs (sv_e2 s) raw (i / bs) Hs Hf Hk) as (more & E & Hs').
    set (blk := block_bytes fs _ _) in *. set (e' := mk_e2 (e_disk (sv_e2 s)) (blk ++ more)) in *.
    assert (piece = take (Z.to_nat n) blk) as Ep.
    { unfold piece, next_piece. rewrite file_slice; [by rewrite Hn|apply Hs|apply Hs|lia|done]. }
    exists e', (mk_cli node raw (i + n)). intros b Hwf Hc Hfit.
    destruct (fill_ok b piece (drop (Z.to_nat n) blk ++ more) n Hwf Hc eq_refl Hfit) as (b' & Ew & Hwf' & Hs1 & Hc').
    exists b'. split_and!; [|done..| |done].
    + unfold handle_read_block. rewrite (bind_run get _ _ _ _ eq_refl). cbn [sv_cli with_buffer]. rewrite Hcli. cbn [e2node cindex fsnode].
      replace (i_lower_size raw <=? i) with false by lia. cbv zeta.
      assert ((if bs <? i_lower_size raw - i then bs else i_lower_size raw - i) = n) as -> by (rewrite Hn; zbool; lia).
      cbn [sv_ring with_buffer]. rewrite can_write_empty, (proj2 (Z.ltb_lt _ _) Hfit) by done. cbn [negb].
      rewrite (bind_run _ _ _ true (mk_srv e' b (Some (mk_cli node raw i)) (sv_hist s))) by (unfold on_e2, zoom; cbn [sv_e2 with_buffer]; rewrite E; cbn [sv_ring sv_cli sv_hist with_buffer]; by rewrite Hcli).
      cbn [negb]. rewrite (bind_run get _ _ _ _ eq_refl). cbn [sv_e2 e_buf e']. rewrite Hal. change (Z.to_nat 0) with 0%nat. rewrite drop_0.
      rewrite (bind_run _ _ _ n (mk_srv e' b' (Some (mk_cli node raw i)) (sv_hist s))).
      2:{ unfold on_sring, zoom. cbn [sv_ring]. rewrite <-(take_drop (Z.to_nat n) blk) at 1. by rewrite <-Ep, <-app_assoc, Ew. }
      rewrite (bind_run _ _ _ tt (mk_srv e' b' (Some (mk_cli node raw (u32 (i + n)))) (sv_hist s))) by done.
      rewrite respond_run. cbn [sv_e2 sv_ring sv_cli sv_hist]. by rewrite u32_small by lia.
    + split; [done|done|by exists node|lia|]. destruct (Z.min_spec bs (i_lower_size raw - i)) as [[_ Em]|[_ Em]]; rewrite Em in Hn; [left|right; lia].
      rewrite Hn. replace (i + bs) with (i + 1 * bs) by lia. by rewrite Z_mod_plus_full.
Qed.

(** A piece that does not fit the ring buffer is refused and nothing is
    different, so it never gets through. *)
Lemma handle_read_block_full raw i s request b : at_offset raw i s → i < i_lower_size raw → ring_wf b → contents b = [] →
  size b <= Z.of_nat (length (next_piece s raw i)) →
  handle_read_block fs conn request (with_buffer b s) =
  Ret (tt, mk_srv (sv_e2 s) b (sv_cli s) (sent (mk_msg FS_MSG_ERROR [FS_ERROR_QUEUE_FULL]) :: sv_hist s)).
Proof.
  intros Hao Hlt Hwf Hc. rewrite (next_piece_length _ _ _ Hao). intros Hfull. destruct Hao as [Hs Hf [node Hcli] Hi _].
  unfold handle_read_block. rewrite (bind_run get _ _ _ _ eq_refl). cbn [sv_cli with_buffer]. rewrite Hcli. cbn [e2node cindex fsnode].
  replace (i_lower_size raw <=? i) with false by lia. cbv zeta. cbn [sv_ring with_buffer]. rewrite can_write_empty by done.
  assert ((if bs <? i_lower_size raw - i then bs else i_lower_size raw - i) = Z.min bs (i_lower_size raw - i)) as -> by (zbool; lia).
  rewrite (proj2 (Z.ltb_ge _ _) Hfull). cbn [negb]. unfold send_error. rewrite respond_run. cbn [sv_e2 sv_ring sv_cli sv_hist with_buffer]. by rewrite Hcli.
Qed.
End server.

(** Selecting a node starts at its first byte. *)
Section select.
Context `{KernelEnv} `{ClientHeap} {D : Type} `{BlockDeviceLaws D}.
Context (fs : ext2fs) (conn : c4rt_conn).

Lemma set_node_run n (s : server_state D) : e2_ok fs (sv_e2 s) → has_room s → inode_ok fs (disk_of s) n → ∃ e',
  handle_set_node fs conn (mk_msg FS_MSG_SET_NODE [n]) s =
    Ret (tt, mk_srv e' (sv_ring s) (Some (mk_cli (mk_fsnode n FILE_TYPE_UNKNOWN 0) (inode_at fs (disk_of s) n) 0)) (sent conn (mk_msg FS_MSG_COMPLETED []) :: sv_hist s)) ∧
  e2_ok fs e' ∧ e_disk e' = disk_of s.
Proof.
  intros Hs Hroom Hn. destruct (get_inode_spec fs (sv_e2 s) n Hs Hn) as (more & E & Hs'). cbv zeta in *.
  pose proof (g_inodes _ _ (e2_geom _ _ Hs)). pose proof (in_range _ _ _ Hn).
  assert (mget (mk_msg FS_MSG_SET_NODE [n]) 0 = n) as En by (apply u32_small; lia).
  unfold handle_set_node. rewrite (bind_run get _ _ _ _ eq_refl), En. cbv zeta.
  rewrite (bind_run _ _ s (default blank_client (sv_cli s)) s) by (unfold has_room in Hroom; destruct (sv_cli s); [done|]; by rewrite Hroom).
  set (e' := mk_e2 (e_disk (sv_e2 s)) _) in *. rewrite (bind_run _ _ s _ (mk_srv e' (sv_ring s) (sv_cli s) (sv_hist s)))
    by (unfold on_e2, zoom; by rewrite E). cbn [from_option snd].
  rewrite (bind_run (set_cli _) _ _ tt _ eq_refl), respond_run. by eexists e'.
Qed.

(** It returns only when there is a client state to write to. *)
Lemma set_node_room m r (s : server_state D) : handle_set_node fs conn m s = Ret r → has_room s.
Proof.
  unfold handle_set_node, has_room. rewrite (bind_run get _ _ _ _ eq_refl). cbv zeta. intros E Hc. rewrite Hc in E. by destruct client_calloc.
Qed.

Lemma set_node_ok n (s : server_state D) : e2_ok fs (sv_e2 s) → has_room s → inode_ok fs (disk_of s) n → file_ok fs (disk_of s) (inode_at fs (disk_of s) n) → ∃ s',
  handle_set_node fs conn (mk_msg FS_MSG_SET_NODE [n]) s = Ret (tt, s') ∧
  at_offset fs (inode_at fs (disk_of s) n) 0 s' ∧ disk_of s' = disk_of s ∧ sv_ring s' = sv_ring s.
Proof.
  intros Hs Hroom Hn Hf. destruct (set_node_run n s Hs Hroom Hn) as (e' & E & He' & Hd). pose proof (fo_size _ _ _ Hf).
  eexists. split; [exact E|]. split; [|done]. split; [done|unfold disk_of; cbn [sv_e2]; by rewrite Hd|by eexists|lia|].
  left. by rewrite Z.mod_0_l by (pose proof (bs_pos fs _ (e2_geom _ _ Hs)); lia).
Qed.

Lemma serve_read fuel junk (s : server_state D) :
  ext2_serve fs conn fuel junk (mk_msg FS_MSG_READ_BLOCK [0]) s = handle_read_block fs conn (mk_msg FS_MSG_READ_BLOCK [0]) s.
Proof.
  unfold ext2_serve. cbv zeta. cbn [mtype]. unfold FS_MSG_READ_BLOCK, FS_MSG_SET_NODE, FS_MSG_FIND_NAME, FS_MSG_GET_ROOT_DIR, FS_MSG_GET_NODE_INFO, FS_MSG_LIST_DIR.
  repeat rewrite (proj2 (Z.eqb_neq (MESSAGE_TYPE_END_RESERVED + _) _)) by lia. by rewrite Z.eqb_refl.
Qed.

Lemma serve_set_node fuel junk n (s : server_state D) :
  ext2_serve fs conn fuel junk (mk_msg FS_MSG_SET_NODE [n]) s = handle_set_node fs conn (mk_msg FS_MSG_SET_NODE [n]) s.
Proof. unfold ext2_serve. cbn [mtype]. by rewrite Z.eqb_refl. Qed.
End select.

(** The ring buffer of a new connection. *)
Definition empty_ring : c4_ringbuf := mk_ringbuf 0 0 connman_ring_size (replicate 4084 0).
Lemma empty_ring_ok : ring_wf empty_ring ∧ contents empty_ring = [] ∧ size empty_ring = connman_ring_size.
Proof. split; [by split; vm_compute|done]. Qed.
