(* ===== verification/Ext2Lookup.v ===== *)
(** Directories on the disk: the entries a directory's blocks hold, and the whole
    of [handle_find_name] ([programs/ext2fs/src/server.c]) as a lookup among
    them. *)

From S2P Require Import Prelude Interfaces Kernel Mem RingBuffer Connman Filesystem Ext2 Ext2Inode Ext2Server Ext2File.
#[local] Open Scope Z_scope.

(** ** Entries in a block and in the page *)
Lemma zget_app_some (b more : list Z) o v : zget b o = Some v → zget (b ++ more) o = Some v.
Proof. rewrite !zget_Some. intros [Ho E]. split; [done|]. by apply lookup_app_l_Some. Qed.
Lemma ld16_app_some b more o v : ld16 b o = Some v → ld16 (b ++ more) o = Some v.
Proof.
  unfold ld16. intros E. apply bind_Some in E as (x & Ex & E). apply bind_Some in E as (y & Ey & E).
  by rewrite (zget_app_some _ _ _ _ Ex), (zget_app_some _ _ _ _ Ey).
Qed.
Lemma ld32_app_some b more o v : ld32 b o = Some v → ld32 (b ++ more) o = Some v.
Proof.
  unfold ld32. intros E. apply bind_Some in E as (x & Ex & E). apply bind_Some in E as (y & Ey & E).
  by rewrite (ld16_app_some _ _ _ _ Ex), (ld16_app_some _ _ _ _ Ey).
Qed.

Lemma entry_app b more o d nm : entry_at b o d nm → entry_at (b ++ more) o d nm.
Proof.
  intros [Hi Hs Hl Ht [El Hn]]. split; [by apply ld32_app_some|by apply ld16_app_some|by apply zget_app_some|by apply zget_app_some|].
  split; [done|]. intros i c Hc. by apply zget_app_some, Hn.
Qed.

Lemma chain_app bs b more es : ∀ o, chain bs b o es → chain bs (b ++ more) o es.
Proof.
  induction es as [|[d nm] es IH]; intros o; simpl; [done|]. intros (Ho & Hp & He & Hc).
  split_and!; [lia|lia|done|by apply entry_app|by apply IH].
Qed.

Lemma lookup_entry_app `{KernelEnv} name es es' :
  lookup_entry name (es ++ es') = match lookup_entry name es with Some m => Some m | None => lookup_entry name es' end.
Proof. induction es as [|[d nm] es IH]; [done|]. simpl. by case_bool_decide. Qed.

(** ** A directory *)
Section directory.
Context `{KernelEnv} `{ClientHeap} {D : Type} `{BlockDeviceLaws D}.
Context (fs : ext2fs) (conn : c4rt_conn).
Implicit Types s : server_state D.
Abbreviation bs := (ext2_block_size fs).

(** Inode [raw] is a directory with the entries [ess], block by block. *)
Record dir_ok (d : D) (raw : list Z) (ess : list (list (dirent_view * list Z))) : Prop := {
  dr_type : ext2_is_directory raw = true;
  dr_file : file_ok fs d raw;
  dr_blocks : length ess = file_blocks fs raw;
  dr_chain : ∀ k es, ess !! k = Some es → chain bs (block_bytes fs d (file_block fs d raw (Z.of_nat k))) 0 es;
  dr_sizes : ∀ es de nm, es ∈ ess → (de, nm) ∈ es → d_size de < 2 ^ 16
}.

(** Fuel for one turn per block and one per entry. *)
Definition enough (fuel : nat) (ess : list (list (dirent_view * list Z))) : Prop :=
  ∀ es, es ∈ ess → (length ess + length es + 1 < fuel)%nat.

Definition reply_of (name : list Z) (es : list (dirent_view * list Z)) : message :=
  default (mk_msg FS_MSG_ERROR [FS_ERROR_NOT_FOUND]) (lookup_entry name es).

(** The scan from block [k] on. *)
Lemma scan_dir_ok fuel cli name ess : ∀ n k s, e2_ok fs (sv_e2 s) → dir_ok (disk_of s) (e2node cli) ess →
  (k + n = length ess)%nat → (∀ es, es ∈ ess → (n + length es + 1 < fuel)%nat) → (n < fuel)%nat → ∃ e',
  scan_dir fs conn fuel cli name (Z.of_nat k) s =
    Ret (tt, mk_srv e' (sv_ring s) (sv_cli s) (sent conn (reply_of name (concat (drop k ess))) :: sv_hist s)) ∧
  e2_ok fs e' ∧ e_disk e' = disk_of s.
Proof.
  revert fuel. intros fuel n. revert fuel. induction n as [|n IH]; intros fuel k s Hs Hd Hk Hf Hfu; (destruct fuel as [|fuel]; [lia|]); cbn [scan_dir];
    pose proof (e2_geom _ _ Hs) as Hg; pose proof (dr_file _ _ _ Hd) as Hfo; pose proof (fo_size _ _ _ Hfo) as Hsz;
    pose proof (dr_blocks _ _ _ Hd) as Hb; rewrite u32_small by (apply (block_in_range fs (disk_of s) (e2node cli)); [done..|lia]).
  - assert (¬ Z.of_nat k * bs < i_lower_size (e2node cli)) as Hend.
    { rewrite <-(file_blocks_iff fs (disk_of s)) by (done || lia). lia. }
    rewrite (proj2 (Z.ltb_ge _ _)) by lia. exists (sv_e2 s). rewrite drop_ge by lia. done.
  - assert (Z.of_nat k * bs < i_lower_size (e2node cli)) as Hlt.
    { apply (file_blocks_iff fs (disk_of s)); [done|lia|lia|lia]. }
    rewrite (proj2 (Z.ltb_lt _ _) Hlt).
    destruct (inode_read_block_ok fs (sv_e2 s) (e2node cli) (Z.of_nat k) Hs Hfo) as (more & E & Hs1); [lia|]. cbv zeta in *.
    set (e1 := mk_e2 _ (_ ++ more)) in *. set (s1 := mk_srv e1 (sv_ring s) (sv_cli s) (sv_hist s)).
    rewrite (bind_run _ _ s true s1) by (unfold on_e2, zoom; by rewrite E). cbn [negb].
    destruct (lookup_lt_is_Some_2 ess k) as [es Ees]; [lia|]. pose proof (list_elem_of_lookup_2 _ _ _ Ees) as Hin.
    assert (bs <= 2 ^ 16) as Hbs by (pose proof (bs_pos fs _ Hg); lia).
    rewrite (bind_run _ _ s1 (lookup_entry name es) s1).
    2:{ apply scan_block_spec; [|specialize (Hf es Hin); lia|done|].
        - unfold page_of. cbn [sv_e2 s1 e_buf e1]. apply chain_app. by apply (dr_chain _ _ _ Hd).
        - intros de nm Hde. by apply (dr_sizes _ _ _ Hd es de nm). }
    rewrite (drop_S _ _ _ Ees). cbn [concat]. unfold reply_of. rewrite lookup_entry_app.
    destruct (lookup_entry name es) as [m|]; [by exists e1|].
    replace (Z.of_nat k + 1) with (Z.of_nat (S k)) by lia.
    destruct (IH fuel (S k) s1) as (e2 & E2 & Hs2 & Hd2); [done|done|lia| |lia|by exists e2].
    intros es' Hin'. specialize (Hf es' Hin'). lia.
Qed.

(** With at least the name in it, the ring buffer of a connection says so,
    even when its indices have wrapped. *)
Lemma can_read_name b n : ring_wf b → size b = connman_ring_size → 0 <= n < 256 → n <= Z.of_nat (length (contents b)) →
  Z.of_nat (length (contents b)) + 108 < connman_ring_size → c4_ringbuf_can_read b n = true.
Proof.
  intros Hwf Hsz Hn Hle Hroom. destruct (decide (read_index b <= write_index b)) as [Hi|Hi].
  - apply ringbuf_queries_exact; [done|by left|lia|done].
  - unfold c4_ringbuf_can_read. rewrite ringbuf_available_wrapped by (done || lia). rewrite Hsz, Z.mod_small by lia.
    unfold connman_ring_size, sizeof_ringbuf in *. rewrite u32_small by lia. lia.
Qed.

(** The handler: the first [len] bytes in the ring buffer are the name. *)
Lemma handle_find_name_ok fuel cli ess len q s : e2_ok fs (sv_e2 s) → sv_cli s = Some cli → dir_ok (disk_of s) (e2node cli) ess → enough fuel ess →
  (length ess < fuel)%nat →
  ring_wf (sv_ring s) → size (sv_ring s) = connman_ring_size → contents (sv_ring s) = q → Z.of_nat (length q) + 108 < connman_ring_size →
  0 <= len < 256 → len <= Z.of_nat (length q) → ∃ e' b',
  handle_find_name fs conn fuel (mk_msg FS_MSG_FIND_NAME [len]) s =
    Ret (tt, mk_srv e' b' (Some cli) (sent conn (reply_of (take (Z.to_nat len) q) (concat ess)) :: sv_hist s)) ∧
  e2_ok fs e' ∧ e_disk e' = disk_of s ∧ ring_wf b' ∧ size b' = connman_ring_size ∧ contents b' = drop (Z.to_nat len) q.
Proof.
  intros Hs Hc Hd Hf Hfu Hwf Hsz Hq Hroom Hlen Hle.
  assert (mget (mk_msg FS_MSG_FIND_NAME [len]) 0 = len) as En by (apply u32_small; lia).
  unfold handle_find_name. rewrite En. cbv zeta. rewrite (bind_run get _ _ _ _ eq_refl), Hc, (dr_type _ _ _ Hd). cbn [negb].
  rewrite can_read_name by (rewrite ?Hq; done || lia). replace (FS_MAX_NAME_LEN <=? len) with false by (unfold FS_MAX_NAME_LEN; lia). cbn [negb orb].
  destruct (ringbuf_read_ok len (sv_ring s) Hwf ltac:(lia)) as (b' & E & Hwf' & Hsz' & Hc'). cbv zeta in *.
  rewrite Hq in *. rewrite Z.min_l in * by lia.
  set (s1 := mk_srv (sv_e2 s) b' (sv_cli s) (sv_hist s)).
  rewrite (bind_run _ _ s (take (Z.to_nat len) q, len) s1) by (unfold on_sring, zoom; by rewrite E). cbn [fst snd].
  rewrite Z.ltb_irrefl.
  destruct (scan_dir_ok fuel cli (take (Z.to_nat len) q) ess (length ess) 0 s1) as (e' & E' & He' & Hd'); [done|done|done|exact Hf|done|].
  exists e', b'. split_and!; [|done|done|done|congruence|done]. change 0 with (Z.of_nat 0). rewrite E'. cbn [sv_ring sv_cli sv_hist s1]. by rewrite Hc.
Qed.

(** In what is not a directory nothing is looked up, and the name stays in the
    ring buffer. *)
Lemma handle_find_name_file fuel cli len s : sv_cli s = Some cli → ext2_is_directory (e2node cli) = false →
  handle_find_name fs conn fuel (mk_msg FS_MSG_FIND_NAME [len]) s =
  Ret (tt, mk_srv (sv_e2 s) (sv_ring s) (Some cli) (sent conn (mk_msg FS_MSG_ERROR [FS_ERROR_NOT_DIRECTORY]) :: sv_hist s)).
Proof.
  intros Hc Ht. unfold handle_find_name. cbv zeta. rewrite (bind_run get _ _ _ _ eq_refl), Hc, Ht. cbn [negb].
  unfold send_error. by rewrite respond_run, Hc.
Qed.

Lemma serve_find_name fuel junk len s :
  ext2_serve fs conn fuel junk (mk_msg FS_MSG_FIND_NAME [len]) s = handle_find_name fs conn fuel (mk_msg FS_MSG_FIND_NAME [len]) s.
Proof.
  unfold ext2_serve. cbn [mtype]. rewrite (proj2 (Z.eqb_neq FS_MSG_FIND_NAME FS_MSG_SET_NODE)) by (unfold FS_MSG_FIND_NAME, FS_MSG_SET_NODE; lia).
  by rewrite Z.eqb_refl.
Qed.

(** C10: a lookup request is answered once, with the first entry of that name in
    the directory: the handler takes exactly the name out of the ring buffer,
    also when the buffer's indices have wrapped, scans every block of the
    directory through the shared page, direct and indirect ones, and replies
    with the entry's inode and type, or with [FS_ERROR_NOT_FOUND] when no block
    has an entry of that name; the disk is as it was. *)
Theorem find_name_correct fuel cli ess len q s : e2_ok fs (sv_e2 s) → sv_cli s = Some cli → dir_ok (disk_of s) (e2node cli) ess → enough fuel ess →
  (length ess < fuel)%nat →
  ring_wf (sv_ring s) → size (sv_ring s) = connman_ring_size → contents (sv_ring s) = q → Z.of_nat (length q) + 108 < connman_ring_size →
  0 <= len < 256 → len <= Z.of_nat (length q) → ∃ e' b',
  handle_find_name fs conn fuel (mk_msg FS_MSG_FIND_NAME [len]) s =
    Ret (tt, mk_srv e' b' (Some cli) (sent conn (reply_of (take (Z.to_nat len) q) (concat ess)) :: sv_hist s)) ∧
  e2_ok fs e' ∧ e_disk e' = disk_of s ∧ ring_wf b' ∧ size b' = connman_ring_size ∧ contents b' = drop (Z.to_nat len) q.
Proof. apply handle_find_name_ok. Qed.
End directory.

(** ** The tree on the disk *)
Fixpoint find_dirent (name : list Z) (es : list (dirent_view * list Z)) : option dirent_view :=
  match es with
  | [] => None
  | (d, nm) :: es' => if bool_decide (nm = name) then Some d else find_dirent name es'
  end.

Lemma find_dirent_in name es d : find_dirent name es = Some d → (d, name) ∈ es.
Proof.
  induction es as [|[d' nm] es IH]; [done|]. simpl. case_bool_decide as E; [|right; by apply IH].
  intros [= ->]. subst. left.
Qed.

Lemma lookup_find `{KernelEnv} name es : lookup_entry name es =
  (λ d, mk_msg FS_MSG_COMPLETED [d_inode d; translate_type (d_type d); 0]) <$> find_dirent name es.
Proof. induction es as [|[d nm] es IH]; [done|]. simpl. by case_bool_decide. Qed.

Section tree.
Context {D : Type} `{BlockDeviceLaws D}.
Context (fs : ext2fs) (fuel : nat) (d : D) (node : Z → Prop) (dirs : Z → list (list (dirent_view * list Z))).

Definition is_dir (n : Z) : bool := ext2_is_directory (inode_at fs d n).

(** The nodes have sound inodes, the directories among them have the entries
    [dirs], and these lead to nodes again. *)
Record tree_ok : Prop := {
  to_inode : ∀ n, node n → inode_ok fs d n;
  to_dir : ∀ n, node n → is_dir n = true → dir_ok fs d (inode_at fs d n) (dirs n) ∧ enough fuel (dirs n) ∧ (length (dirs n) < fuel)%nat;
  to_child : ∀ n de nm, node n → is_dir n = true → (de, nm) ∈ concat (dirs n) → node (d_inode de)
}.

(** The node a list of names leads to. *)
Definition child (nd : fs_node) (name : list Z) : option fs_node :=
  if is_dir (n_inode nd) then
    (λ de, mk_fsnode (d_inode de) (translate_type (d_type de)) 0) <$> find_dirent name (concat (dirs (n_inode nd)))
  else None.
Fixpoint resolve (names : list (list Z)) (nd : fs_node) : option fs_node :=
  match names with
  | [] => Some nd
  | name :: names' => match child nd name with Some nd' => resolve names' nd' | None => None end
  end.

Lemma child_node nd name nd' : tree_ok → node (n_inode nd) → child nd name = Some nd' → node (n_inode nd').
Proof.
  intros Ht Hn. unfold child. destruct (is_dir (n_inode nd)) eqn:Ed; [|done].
  intros (de & E & ->)%fmap_Some. by eapply (to_child Ht), find_dirent_in.
Qed.
End tree.

(** ** A root directory with one file, [/ab] *)
Definition tree_page : list Z := le32 2 ++ le16 12 ++ [1; 2] ++ [46; 0; 0; 0] ++ le32 3 ++ le16 1012 ++ [2; 1] ++ [97; 98].
Definition tree_disk : Ramdisk.ramdisk :=
  Ramdisk.mk_ram
    (put_block 2 (le32 3 ++ le32 4 ++ le32 5 ++ le16 32 ++ le16 6)
      (put_block 5 (replicate 128 0 ++ le16 0x41ff ++ le16 0 ++ le32 1024 ++ replicate 32 0 ++ le32 9 ++
                    replicate 84 0 ++ le16 0x81ff ++ le16 0 ++ le32 3 ++ replicate 32 0 ++ le32 10)
        (put_block 9 tree_page (put_block 10 [104; 105; 10] ∅))))
    256.
Definition tree_server : server_state Ramdisk.ramdisk := mk_srv (mk_e2 tree_disk (replicate 4096 0)) empty_ring None [].
Definition tree_dirs (n : Z) : list (list (dirent_view * list Z)) := [[(mk_dirent 2 12 1 2, [46]); (mk_dirent 3 1012 2 1, [97; 98])]].

Lemma tree_dir : dir_ok small_fs tree_disk (inode_at small_fs tree_disk 2) (tree_dirs 2).
Proof.
  assert (file_blocks small_fs (inode_at small_fs tree_disk 2) = 1%nat) as E by (vm_compute; reflexivity).
  split.
  - vm_compute. reflexivity.
  - split; rewrite ?E; [vm_compute; intuition discriminate|vm_compute; discriminate|lia|].
    intros k Hk. assert (k = 0) as -> by lia. vm_compute; intuition discriminate.
  - by rewrite E.
  - intros [|k] es; [|done]. intros [= <-]. cbn [chain d_size]. split_and!; try (vm_compute; congruence); try (vm_compute; split; congruence).
    + split; try (vm_compute; reflexivity). split; [reflexivity|]. intros [|i] x; [|done]. intros [= <-]. vm_compute. reflexivity.
    + split; try (vm_compute; reflexivity). split; [reflexivity|]. intros [|[|i]] x; [| |done]; intros [= <-]; vm_compute; reflexivity.
  - intros es de nm ->%list_elem_of_singleton Hde. apply list_elem_of_In in Hde. simpl in Hde. destruct Hde as [[= <- _]|[[= <- _]|[]]]; simpl; lia.
Qed.

Lemma tree_server_ok : e2_ok small_fs (sv_e2 tree_server).
Proof.
  split; [|apply length_replicate|].
  - simpl. do 4 apply put_block_inv. intros i x. by rewrite lookup_empty.
  - split; vm_compute; intuition discriminate.
Qed.

(** The name "ab" lies across the end of the ring buffer. *)
Definition ab_ring : c4_ringbuf := mk_ringbuf 4083 1 connman_ring_size (98 :: replicate 4082 0 ++ [97]).
Lemma find_name_correct_witness : let _ := steady 0 no_msg in
  let cli := mk_cli (mk_fsnode 2 0 0) (inode_at small_fs tree_disk 2) 0 in ∃ e' b',
  handle_find_name small_fs blank_conn 9 (mk_msg FS_MSG_FIND_NAME [2]) (mk_srv (sv_e2 tree_server) ab_ring (Some cli) []) =
    Ret (tt, mk_srv e' b' (Some cli) [sent blank_conn (mk_msg FS_MSG_COMPLETED [3; 1; 0])]).
Proof.
  intros env cli. destruct (find_name_correct small_fs blank_conn 9 cli (tree_dirs 2) 2 [97; 98] (mk_srv (sv_e2 tree_server) ab_ring (Some cli) []))
    as (e' & b' & E & _).
  - exact tree_server_ok.
  - reflexivity.
  - exact tree_dir.
  - intros es ->%list_elem_of_singleton. simpl. lia.
  - simpl. lia.
  - split; vm_compute; intuition discriminate.
  - reflexivity.
  - vm_compute. reflexivity.
  - vm_compute. reflexivity.
  - lia.
  - simpl. lia.
  - exists e', b'. rewrite E. reflexivity.
Defined.

(** ** The tree of the sample directory *)
Definition tree_node (n : Z) : Prop := n = 2 ∨ n = 3.
Lemma tree_sound : tree_ok small_fs 9 tree_disk tree_node tree_dirs.
Proof.
  split.
  - intros n [-> | ->]; split; vm_compute; intuition discriminate.
  - intros n [-> | ->] Hd; [|vm_compute in Hd; discriminate]. split; [exact tree_dir|]. split; [|simpl; lia].
    intros es ->%list_elem_of_singleton. simpl. lia.
  - intros n de nm _ _ Hde. apply list_elem_of_In in Hde. simpl in Hde. destruct Hde as [[= <- _]|[[= <- _]|[]]]; [by left|by right].
Qed.
