(* ===== verification/Ext2Write.v ===== *)
(** Writing to a file: [handle_write_block] ([programs/ext2fs/src/server.c]) and
    the part of [ext2_inode_alloc_block] ([src/main.c]) that finds a block the
    file already has. *)

From S2P Require Import Prelude Interfaces Kernel Mem RingBuffer Connman Filesystem Ext2 Ext2Inode Ext2Server Ext2File Ext2Lookup.
#[local] Open Scope Z_scope.

(** [xs] over the bytes of [l] from [i] on; what would lie behind its end is
    dropped. *)
Definition overwrite (i : nat) (xs l : list Z) : list Z := take (length l) (take i l ++ xs ++ drop (i + length xs) l).

Lemma overwrite_inside i xs l : (i + length xs <= length l)%nat → overwrite i xs l = take i l ++ xs ++ drop (i + length xs) l.
Proof. intros Hl. unfold overwrite. apply take_ge. rewrite !length_app, length_take, length_drop. lia. Qed.

Lemma overwrite_length i xs l : (i <= length l)%nat → length (overwrite i xs l) = length l.
Proof. intros Hl. unfold overwrite. rewrite length_take, !length_app, length_take, length_drop. lia. Qed.

(** One piece of a list in equal pieces overwritten. *)
Lemma concat_overwrite (n k i : nat) (xs l : list Z) (ls : list (list Z)) : Forall (λ l, length l = n) ls → ls !! k = Some l →
  (i + length xs <= n)%nat → concat (<[k := overwrite i xs l]> ls) = overwrite (k * n + i) xs (concat ls).
Proof.
  intros Hall Hk Hi. pose proof (lookup_lt_Some _ _ _ Hk) as Hlt. pose proof (Forall_lookup_1 _ _ _ _ Hall Hk) as Hl. simpl in Hl.
  rewrite overwrite_inside by lia. rewrite insert_take_drop by done. rewrite concat_app. cbn [concat].
  assert (concat ls = concat (take k ls) ++ l ++ concat (drop (S k) ls)) as E.
  { rewrite <-(take_drop_middle ls k l Hk) at 1. by rewrite concat_app. }
  assert (length (concat (take k ls)) = k * n)%nat as Hlen.
  { rewrite (length_concat_pieces n) by (by apply Forall_take). rewrite length_take. f_equal. lia. }
  rewrite overwrite_inside by (rewrite E, !length_app; lia). rewrite E.
  rewrite (take_app (concat (take k ls))), (take_ge (concat (take k ls))) by lia. rewrite Hlen. replace (k * n + i - k * n)%nat with i by lia.
  rewrite (take_app_le l) by lia. rewrite (drop_app (concat (take k ls))), (drop_ge (concat (take k ls))) by lia. rewrite Hlen.
  replace (k * n + i + length xs - k * n)%nat with (i + length xs)%nat by lia. rewrite (drop_app_le l) by lia.
  by rewrite <-!app_assoc.
Qed.

Lemma take_overwrite m i xs l : (m <= length l)%nat → (i <= m)%nat → take m (overwrite i xs l) = overwrite i xs (take m l).
Proof.
  intros Hm Hi. unfold overwrite. rewrite take_take, length_take, !Nat.min_l by lia. rewrite take_take, Nat.min_l by lia.
  rewrite skipn_firstn_comm. rewrite !(take_app _ _ m). f_equal. rewrite length_take. rewrite !(take_app xs).
  f_equal. rewrite take_take. f_equal. lia.
Qed.

Section write.
Context {D : Type} `{BlockDeviceLaws D}.
Context (fs : ext2fs).
Abbreviation bs := (ext2_block_size fs).

(** A block the file already has is found, not allocated. *)
Lemma alloc_block_existing n k s : let raw := inode_at fs (e_disk s) n in e2_ok fs s → inode_ok fs (e_disk s) n → file_ok fs (e_disk s) raw →
  0 <= k < Z.of_nat (file_blocks fs raw) → ∃ s',
  ext2_inode_alloc_block fs n k s = Ret (file_block fs (e_disk s) raw k, s') ∧ e2_ok fs s' ∧ e_disk s' = e_disk s.
Proof.
  intros raw Hs Hn Hf Hk. destruct (get_inode_spec fs s n Hs Hn) as (more & E & Hs1). cbv zeta in *. fold raw in E.
  unfold ext2_inode_alloc_block. rewrite (bind_run _ _ _ _ _ E). cbv zeta. pose proof (fo_blocks _ _ _ Hf k Hk) as Hb.
  unfold file_block in *. destruct (Z.ltb_spec k 12) as [Hlt|Hge].
  - rewrite truthy_ne by lia. eexists. by split_and!.
  - pose proof (fo_single _ _ _ Hf ltac:(lia)) as Hsi. pose proof (fo_reach _ _ _ Hf) as Hr. pose proof (e2_geom _ _ Hs) as Hg.
    assert (0 <= ext2_pointers_per_block fs <= 1024) as Hpp.
    { unfold ext2_pointers_per_block. destruct (block_size_cases fs _ Hg) as [[-> _]|[[-> _]|[-> _]]]; by vm_compute. }
    rewrite u32_small by lia. replace (k <? _) with true by lia. rewrite (proj2 (Z.eqb_neq _ 0)) by lia.
    rewrite (bind_run (mret _) _ _ _ _ eq_refl). cbv zeta.
    destruct (read_block_ok fs _ (i_single_indirect_ptr raw) Hs1) as (more' & E' & Hs2); [lia|]. cbn [e_disk] in E', Hs2.
    rewrite (bind_run _ _ _ _ _ E'). cbn [negb]. set (ind := block_bytes fs (e_disk s) (i_single_indirect_ptr raw)) in *.
    pose proof (block_bytes_length fs (e_disk s) (i_single_indirect_ptr raw) (e2_disk _ _ Hs) Hg) as Hl. fold ind in Hl.
    pose proof (Z.mul_div_le bs 4 ltac:(lia)). unfold ext2_pointers_per_block in *.
    destruct (ld32_ok ind (4 * (k - 12))) as [v Ev]; [lia|lia|].
    rewrite (bind_run _ _ _ v (mk_e2 (e_disk s) (ind ++ more'))) by (unfold buf32, getsome; cbn [e_buf]; by rewrite ld32_app_l, Ev by lia).
    assert (fld32 ind (4 * (k - 12)) = v) as Efl by (unfold fld32; by rewrite Ev). rewrite Efl in *. rewrite truthy_ne by lia.
    eexists. by split_and!.
Qed.

(** Behind the last block the indirect pointers reach there is none. *)
Lemma alloc_block_limit n k s : e2_ok fs s → inode_ok fs (e_disk s) n → 12 + ext2_pointers_per_block fs <= k → ∃ s',
  ext2_inode_alloc_block fs n k s = Ret (0, s') ∧ e2_ok fs s' ∧ e_disk s' = e_disk s.
Proof.
  intros Hs Hn Hk. destruct (get_inode_spec fs s n Hs Hn) as (more & E & Hs1). cbv zeta in *. pose proof (e2_geom _ _ Hs) as Hg.
  assert (0 <= ext2_pointers_per_block fs <= 1024) as Hpp.
  { unfold ext2_pointers_per_block. destruct (block_size_cases fs _ Hg) as [[-> _]|[[-> _]|[-> _]]]; by vm_compute. }
  unfold ext2_inode_alloc_block. rewrite (bind_run _ _ _ _ _ E). cbv zeta. replace (k <? 12) with false by lia.
  rewrite u32_small by lia. replace (k <? _) with false by lia. eexists. by split_and!.
Qed.
End write.

(** ** The handler *)
Section handler.
Context `{KernelEnv} `{ClientHeap} {D : Type} `{BlockDeviceLaws D}.
Context (fs : ext2fs) (conn : c4rt_conn).
Implicit Types s : server_state D.
Abbreviation bs := (ext2_block_size fs).

(** Nothing but block [b] is different. *)
Definition same_blocks (d d' : D) (b : Z) : Prop :=
  ∀ c, 0 <= c <= total_blocks (superblock fs) → c ≠ b → block_bytes fs d' c = block_bytes fs d c.

(** The bytes waiting in the ring buffer go into block [b] from [off] on, as far
    as the block goes. *)
Lemma store_run b off q s : e2_ok fs (sv_e2 s) → 0 <= b <= total_blocks (superblock fs) → 0 <= off < bs →
  ring_wf (sv_ring s) → contents (sv_ring s) = q → let data := take (Z.to_nat (bs - off)) q in ∃ e' b',
  (∀ (k : list Z * Z → M (server_state D) unit),
    (ok ← on_e2 (ext2_read_block fs b); if negb ok then ub else r ← on_sring (c4_ringbuf_read (bs - off)); on_e2 (buf_store off r.1);;
      on_e2 (ext2_write_block fs b);; k r) s = k (data, Z.of_nat (length data)) (mk_srv e' b' (sv_cli s) (sv_hist s))) ∧
  e2_ok fs e' ∧ block_bytes fs (e_disk e') b = overwrite (Z.to_nat off) data (block_bytes fs (disk_of s) b) ∧
  same_blocks (disk_of s) (e_disk e') b ∧
  ring_wf b' ∧ size b' = size (sv_ring s) ∧ contents b' = drop (Z.to_nat (bs - off)) q.
Proof.
  intros Hs Hb Hoff Hwf Hq data. pose proof (e2_geom _ _ Hs) as Hg. pose proof (bs_pos fs _ Hg) as Hbs.
  destruct (read_block_ok fs (sv_e2 s) b Hs Hb) as (more & E1 & Hs1). set (blk := block_bytes fs (e_disk (sv_e2 s)) b) in *.
  set (e1 := mk_e2 (e_disk (sv_e2 s)) (blk ++ more)) in *.
  pose proof (block_bytes_length fs _ b (e2_disk _ _ Hs) Hg) as Hl. fold blk in Hl.
  destruct (ringbuf_read_ok (bs - off) (sv_ring s) Hwf ltac:(lia)) as (b' & E2 & Hwf' & Hsz' & Hc'). cbv zeta in *. rewrite Hq in *.
  assert (length data = Z.to_nat (Z.min (bs - off) (Z.of_nat (length q)))) as Hld by (unfold data; rewrite length_take; lia).
  assert (take (Z.to_nat (Z.min (bs - off) (Z.of_nat (length q)))) q = data) as Ed.
  { unfold data. destruct (Z.min_spec (bs - off) (Z.of_nat (length q))) as [[? ->]|[? ->]]; [done|]. by rewrite !take_ge by lia. }
  set (blk' := overwrite (Z.to_nat off) data blk).
  assert (Z.of_nat (length blk') = bs) as Hl' by (unfold blk'; rewrite overwrite_length by lia; lia).
  set (e2 := mk_e2 (e_disk (sv_e2 s)) (blk' ++ more)).
  assert (stn (blk ++ more) off data = Some (blk' ++ more)) as Est.
  { rewrite stn_ok by (rewrite ?length_app; lia). f_equal. unfold blk'. rewrite overwrite_inside by lia.
    rewrite take_app_le, drop_app_le by lia. by rewrite <-!app_assoc. }
  assert (e2_ok fs e2) as Hs2.
  { destruct Hs1 as [Hd1 Hl1 Hg1]. split; [done| |done]. cbn [e_buf e2 e1] in *. rewrite length_app in *. lia. }
  destruct (write_block_ok fs e2 b blk' more Hs2 eq_refl Hl' Hb) as (d' & E3 & Hs3 & Hb3 & Ho3).
  exists (mk_e2 d' (blk' ++ more)), b'. split_and!; [|done|done|done|done|done| ].
  - intros k. rewrite (bind_run _ _ s true (mk_srv e1 (sv_ring s) (sv_cli s) (sv_hist s))) by (unfold on_e2, zoom; by rewrite E1). cbn [negb].
    rewrite (bind_run _ _ _ (data, Z.of_nat (length data)) (mk_srv e1 b' (sv_cli s) (sv_hist s))).
    2:{ unfold on_sring, zoom. cbn [sv_ring]. rewrite E2, Ed, Hld, Z2Nat.id by lia. done. }
    cbn [fst]. rewrite (bind_run _ _ _ tt (mk_srv e2 b' (sv_cli s) (sv_hist s))).
    2:{ unfold on_e2, zoom, buf_store. cbn [sv_e2]. rewrite (bind_run _ _ e1 (blk' ++ more) e1); [done|].
        unfold getsome. cbn [e_buf e1]. by rewrite Est. }
    rewrite (bind_run _ _ _ true (mk_srv (mk_e2 d' (blk' ++ more)) b' (sv_cli s) (sv_hist s))); [done|].
    unfold on_e2, zoom. cbn [sv_e2]. by rewrite E3.
  - rewrite Hc'. destruct (Z.min_spec (bs - off) (Z.of_nat (length q))) as [[? ->]|[? ->]]; [done|]. by rewrite !drop_ge by lia.
Qed.

(** No block of the file is used twice, nor as its own indirect block. *)
Record blocks_apart (d : D) (raw : list Z) : Prop := {
  ba_data : ∀ j k, 0 <= j < Z.of_nat (file_blocks fs raw) → 0 <= k < Z.of_nat (file_blocks fs raw) →
    file_block fs d raw j = file_block fs d raw k → j = k;
  ba_indirect : 12 < Z.of_nat (file_blocks fs raw) → ∀ k, 0 <= k < Z.of_nat (file_blocks fs raw) →
    file_block fs d raw k ≠ i_single_indirect_ptr raw
}.

(** The file after one of its blocks was overwritten. *)
Lemma file_overwrite d d' raw k off data : bd_inv d → bd_inv d' → geometry_ok fs d → geometry_ok fs d' → file_ok fs d raw → blocks_apart d raw →
  0 <= k < Z.of_nat (file_blocks fs raw) → 0 <= off → off + Z.of_nat (length data) <= bs → k * bs + off <= i_lower_size raw →
  block_bytes fs d' (file_block fs d raw k) = overwrite (Z.to_nat off) data (block_bytes fs d (file_block fs d raw k)) →
  same_blocks d d' (file_block fs d raw k) →
  (∀ j, 0 <= j < Z.of_nat (file_blocks fs raw) → file_block fs d' raw j = file_block fs d raw j) ∧
  file_bytes fs d' raw = overwrite (Z.to_nat (k * bs + off)) data (file_bytes fs d raw).
Proof.
  intros Hd Hd' Hg Hg' Hf [Hdist Hind] Hk Hoff Hfit Hin Hblk Hsame. pose proof (bs_pos fs d Hg) as Hbs. pose proof (fo_size _ _ _ Hf) as Hsz.
  assert (∀ j, 0 <= j < Z.of_nat (file_blocks fs raw) → file_block fs d' raw j = file_block fs d raw j) as Hfb.
  { intros j Hj. unfold file_block. destruct (Z.ltb_spec j 12); [done|]. rewrite Hsame; [done| |].
    - pose proof (fo_single _ _ _ Hf ltac:(lia)). lia.
    - intros E. by apply (Hind ltac:(lia) k Hk). }
  split; [done|]. unfold file_bytes.
  set (f := λ k, block_bytes fs d (file_block fs d raw (Z.of_nat k))). set (f' := λ k, block_bytes fs d' (file_block fs d' raw (Z.of_nat k))).
  assert (f' <$> seq 0 (file_blocks fs raw) = <[Z.to_nat k := overwrite (Z.to_nat off) data (f (Z.to_nat k))]> (f <$> seq 0 (file_blocks fs raw))) as ->.
  { apply list_eq. intros j. destruct (decide (j = Z.to_nat k)) as [->|Hne].
    - rewrite list_lookup_insert_eq by (rewrite length_fmap, length_seq; lia). rewrite list_lookup_fmap, lookup_seq_lt by lia.
      simpl. unfold f', f. rewrite Z2Nat.id, Hfb by lia. by rewrite Hblk.
    - rewrite list_lookup_insert_ne by done. rewrite !list_lookup_fmap. destruct (decide (j < file_blocks fs raw)%nat) as [Hj|Hj].
      + rewrite lookup_seq_lt by done. simpl. f_equal. unfold f', f. rewrite Hfb by lia. apply Hsame.
        * pose proof (fo_blocks _ _ _ Hf (Z.of_nat j) ltac:(lia)). lia.
        * intros E. apply Hdist in E; lia.
      + by rewrite lookup_seq_ge by lia. }
  rewrite (concat_overwrite (Z.to_nat bs)).
  - replace (Z.to_nat k * Z.to_nat bs + Z.to_nat off)%nat with (Z.to_nat (k * bs + off)) by nia.
    apply take_overwrite; [|lia]. rewrite (length_concat_pieces (Z.to_nat bs)), length_fmap, length_seq by (by apply file_pieces).
    unfold file_blocks. pose proof (Z.div_mod (i_lower_size raw + bs - 1) bs ltac:(lia)).
    pose proof (Z.mod_pos_bound (i_lower_size raw + bs - 1) bs ltac:(lia)).
    pose proof (Z.div_pos (i_lower_size raw + bs - 1) bs ltac:(lia) ltac:(lia)). nia.
  - by apply file_pieces.
  - rewrite list_lookup_fmap, lookup_seq_lt by lia. done.
  - lia.
Qed.

(** The file with inode number [n] is sound and its blocks are its own: none of
    them holds the descriptors or the inode. *)
Record own_file (d : D) (n : Z) : Prop := {
  of_inode : inode_ok fs d n;
  of_file : file_ok fs d (inode_at fs d n);
  of_apart : blocks_apart d (inode_at fs d n);
  of_meta : ∀ k, 0 <= k < Z.of_nat (file_blocks fs (inode_at fs d n)) →
    file_block fs d (inode_at fs d n) k ≠ desc_start fs ∧ file_block fs d (inode_at fs d n) k ≠ inode_block fs d n
}.

Lemma same_inode d d' n k : geometry_ok fs d → own_file d n → 0 <= k < Z.of_nat (file_blocks fs (inode_at fs d n)) →
  same_blocks d d' (file_block fs d (inode_at fs d n) k) → inode_block fs d' n = inode_block fs d n ∧ inode_at fs d' n = inode_at fs d n.
Proof.
  intros Hg [Hi Hf _ Hm] Hk Hsame. destruct (Hm k Hk) as [Hm1 Hm2]. pose proof (desc_start_pos fs). pose proof (g_start_block _ _ Hg).
  assert (inode_block fs d' n = inode_block fs d n) as Eb by (unfold inode_block; by rewrite Hsame).
  split; [done|]. unfold inode_at. rewrite Eb, Hsame; [done| |done]. pose proof (in_block _ _ _ Hi).
  unfold inode_block in *. pose proof (u32_range (fld32 (block_bytes fs d (desc_start fs)) (sizeof_desc * ext2_block_group fs n + 8) + ext2_group_index fs n / ext2_inodes_per_block fs)). lia.
Qed.

(** The file's blocks are where they were. *)
Lemma own_blocks_kept d d' n k j : own_file d n → 0 <= k < Z.of_nat (file_blocks fs (inode_at fs d n)) → 0 <= j < Z.of_nat (file_blocks fs (inode_at fs d n)) →
  same_blocks d d' (file_block fs d (inode_at fs d n) k) → file_block fs d' (inode_at fs d n) j = file_block fs d (inode_at fs d n) j.
Proof.
  intros [_ Hf [_ Hind] _] Hk Hj Hsame. unfold file_block. destruct (Z.ltb_spec j 12); [done|]. rewrite Hsame; [done| |].
  - pose proof (fo_single _ _ _ Hf ltac:(lia)). lia.
  - intros E. by apply (Hind ltac:(lia) k Hk).
Qed.

Lemma own_file_kept d d' n k off data : bd_inv d → bd_inv d' → geometry_ok fs d → geometry_ok fs d' → own_file d n →
  0 <= k < Z.of_nat (file_blocks fs (inode_at fs d n)) → 0 <= off → off + Z.of_nat (length data) <= bs → k * bs + off <= i_lower_size (inode_at fs d n) →
  let b := file_block fs d (inode_at fs d n) k in
  block_bytes fs d' b = overwrite (Z.to_nat off) data (block_bytes fs d b) → same_blocks d d' b →
  own_file d' n ∧ inode_at fs d' n = inode_at fs d n ∧
  file_bytes fs d' (inode_at fs d n) = overwrite (Z.to_nat (k * bs + off)) data (file_bytes fs d (inode_at fs d n)).
Proof.
  intros Hd Hd' Hg Hg' Ho Hk Hoff Hfit Hin b Hblk Hsame. destruct (same_inode d d' n k Hg Ho Hk Hsame) as [Eb Ei].
  destruct Ho as [Hi Hf Ha Hm]. destruct (file_overwrite d d' _ k off data Hd Hd' Hg Hg' Hf Ha Hk Hoff Hfit Hin Hblk Hsame) as [Hfb E].
  split; [|done]. split.
  - destruct Hi as [I1 I2 I3 I4]. split; [done|done|by rewrite Eb|by rewrite Eb].
  - rewrite Ei. destruct Hf as [F1 F2 F3 F4]. split; [done..|]. intros j Hj. rewrite Hfb by done. by apply F4.
  - rewrite Ei. destruct Ha as [A1 A2]. split.
    + intros j l Hj Hl. rewrite !Hfb by done. by apply A1.
    + intros Hgt j Hj. rewrite Hfb by done. by apply A2.
  - rewrite Ei, Eb. intros j Hj. rewrite Hfb by done. by apply Hm.
Qed.

Lemma handle_write_block_ok n node i q request s : let raw := inode_at fs (disk_of s) n in
  e2_ok fs (sv_e2 s) → own_file (disk_of s) n → sv_cli s = Some (mk_cli node raw i) → n_inode node = n →
  0 <= i <= i_lower_size raw → i / bs < Z.of_nat (file_blocks fs raw) → ring_wf (sv_ring s) → contents (sv_ring s) = q → q ≠ [] →
  let data := take (Z.to_nat (bs - i mod bs)) q in ∃ e' b',
  handle_write_block fs conn request s =
    Ret (tt, mk_srv e' b' (Some (mk_cli node raw (i + Z.of_nat (length data)))) (sent conn (mk_msg FS_MSG_COMPLETED [Z.of_nat (length data)]) :: sv_hist s)) ∧
  e2_ok fs e' ∧ own_file (e_disk e') n ∧ inode_at fs (e_disk e') n = raw ∧
  file_bytes fs (e_disk e') raw = overwrite (Z.to_nat i) data (file_bytes fs (disk_of s) raw) ∧
  same_blocks (disk_of s) (e_disk e') (file_block fs (disk_of s) raw (i / bs)) ∧
  ring_wf b' ∧ contents b' = drop (Z.to_nat (bs - i mod bs)) q.
Proof.
  intros raw Hs Ho Hcli Hnode Hi Hk Hwf Hq Hne data. pose proof (e2_geom _ _ Hs) as Hg. pose proof (bs_pos fs _ Hg) as Hbs.
  pose proof (of_inode _ _ Ho) as Hino. pose proof (of_file _ _ Ho) as Hf. fold raw in Hf.
  pose proof (Z.mod_pos_bound i bs ltac:(lia)) as Hoff. pose proof (Z.div_mod i bs ltac:(lia)) as Hdm. pose proof (Z.div_pos i bs ltac:(lia) ltac:(lia)) as Hk0.
  pose proof (block_in_range fs _ _ (i / bs + 1) Hg Hf ltac:(lia)) as Hrange.
  destruct (alloc_block_existing fs n (i / bs) (sv_e2 s) Hs Hino Hf (conj Hk0 Hk)) as (e1 & E1 & Hs1 & Hd1). fold (disk_of s) raw in E1, Hd1.
  pose proof (fo_blocks _ _ _ Hf (i / bs) (conj Hk0 Hk)) as Hb. set (b := file_block fs (disk_of s) raw (i / bs)) in *.
  set (s1 := mk_srv e1 (sv_ring s) (sv_cli s) (sv_hist s)).
  destruct (store_run b (i mod bs) q s1) as (e' & b' & Erun & He' & Hblk & Hsame & Hwf' & _ & Hc'); [done|lia|lia|done|done|].
  unfold disk_of in Hblk, Hsame. cbn [sv_e2 s1] in Hblk, Hsame. rewrite Hd1 in Hblk, Hsame.
  assert (length data = Z.to_nat (Z.min (bs - i mod bs) (Z.of_nat (length q)))) as Hld by (unfold data; rewrite length_take; lia).
  destruct (own_file_kept (disk_of s) (e_disk e') n (i / bs) (i mod bs) data) as (Ho' & Hino' & Hfile);
    [apply Hs|apply He'|done|apply He'|done|fold raw; lia|lia|lia|fold raw; lia|exact Hblk|exact Hsame|].
  exists e', b'. split_and!; [|done|done|done| |done|done|done].
  - unfold handle_write_block. rewrite (bind_run get _ _ _ _ eq_refl), Hcli. cbn [cindex fsnode e2node]. cbv zeta.
    rewrite (empty_iff _ Hwf), <-(contents_len _ Hwf), Hq. rewrite (proj2 (Z.eqb_neq _ 0)) by (destruct q; [done|simpl; lia]).
    rewrite Hnode, (bind_run _ _ s b s1) by (unfold on_e2, zoom; by rewrite E1). rewrite Erun. cbn [fst snd sv_cli sv_hist s1].
    rewrite (bind_run (set_cli _) _ _ tt _ eq_refl), respond_run. cbn [sv_e2 sv_ring sv_cli sv_hist]. fold data. by rewrite u32_small by lia.
  - fold raw in Hfile. rewrite Hfile. f_equal. lia.
Qed.

(** C11: what a client sends is what the file then holds, and nothing else
    changes: for a position inside the file the handler finds the block, direct
    or indirect, reads it into the shared page, takes from the ring buffer as
    much as the block has room for, writes the block back, and replies with the
    count.  Afterwards the file's bytes are the old ones with these over them,
    every other block of the disk is as it was, and the file is still sound, so
    that reading it gives the new bytes. *)
Theorem write_block_correct n node i q request s : let raw := inode_at fs (disk_of s) n in
  e2_ok fs (sv_e2 s) → own_file (disk_of s) n → sv_cli s = Some (mk_cli node raw i) → n_inode node = n →
  0 <= i <= i_lower_size raw → i / bs < Z.of_nat (file_blocks fs raw) → ring_wf (sv_ring s) → contents (sv_ring s) = q → q ≠ [] →
  let data := take (Z.to_nat (bs - i mod bs)) q in ∃ e' b',
  handle_write_block fs conn request s =
    Ret (tt, mk_srv e' b' (Some (mk_cli node raw (i + Z.of_nat (length data)))) (sent conn (mk_msg FS_MSG_COMPLETED [Z.of_nat (length data)]) :: sv_hist s)) ∧
  e2_ok fs e' ∧ own_file (e_disk e') n ∧ inode_at fs (e_disk e') n = raw ∧
  file_bytes fs (e_disk e') raw = overwrite (Z.to_nat i) data (file_bytes fs (disk_of s) raw) ∧
  same_blocks (disk_of s) (e_disk e') (file_block fs (disk_of s) raw (i / bs)) ∧
  ring_wf b' ∧ contents b' = drop (Z.to_nat (bs - i mod bs)) q.
Proof. apply handle_write_block_ok. Qed.

(** Behind the last block the indirect pointers reach, [ext2_inode_alloc_block]
    answers 0 and the handler takes it for a block: what the client sends
    overwrites block 0 of the disk, where with blocks of 2048 bytes or more the
    superblock is. *)
Theorem write_past_limit n node raw i q request s : e2_ok fs (sv_e2 s) → inode_ok fs (disk_of s) n → sv_cli s = Some (mk_cli node raw i) → n_inode node = n →
  (12 + ext2_pointers_per_block fs) * bs <= i → ring_wf (sv_ring s) → contents (sv_ring s) = q → q ≠ [] →
  let data := take (Z.to_nat (bs - i mod bs)) q in ∃ s',
  handle_write_block fs conn request s = Ret (tt, s') ∧
  block_bytes fs (disk_of s') 0 = overwrite (Z.to_nat (i mod bs)) data (block_bytes fs (disk_of s) 0).
Proof.
  intros Hs Hino Hcli Hnode Hi Hwf Hq Hne data. pose proof (e2_geom _ _ Hs) as Hg. pose proof (bs_pos fs _ Hg) as Hbs.
  pose proof (Z.mod_pos_bound i bs ltac:(lia)) as Hoff. pose proof (g_blocks _ _ Hg) as Htb.
  destruct (alloc_block_limit fs n (i / bs) (sv_e2 s) Hs Hino) as (e1 & E1 & Hs1 & Hd1); [by apply Z.div_le_lower_bound; lia|].
  set (s1 := mk_srv e1 (sv_ring s) (sv_cli s) (sv_hist s)).
  destruct (store_run 0 (i mod bs) q s1) as (e' & b' & Erun & He' & Hblk & _); [done|lia|lia|done|done|].
  unfold disk_of in Hblk. cbn [sv_e2 s1] in Hblk. rewrite Hd1 in Hblk. eexists. split.
  - unfold handle_write_block. rewrite (bind_run get _ _ _ _ eq_refl), Hcli. cbn [cindex fsnode e2node]. cbv zeta.
    rewrite (empty_iff _ Hwf), <-(contents_len _ Hwf), Hq. rewrite (proj2 (Z.eqb_neq _ 0)) by (destruct q; [done|simpl; lia]).
    rewrite Hnode, (bind_run _ _ s 0 s1) by (unfold on_e2, zoom; by rewrite E1). rewrite Erun.
    rewrite (bind_run (set_cli _) _ _ tt _ eq_refl), respond_run. reflexivity.
  - exact Hblk.
Qed.
End handler.

(** ** Writing "yo" into the file [/ab] of the sample directory, behind its
    first byte *)
Lemma tree_file_own : own_file small_fs tree_disk 3.
Proof.
  assert (file_blocks small_fs (inode_at small_fs tree_disk 3) = 1%nat) as E by (vm_compute; reflexivity).
  split; [| |split|]; rewrite ?E.
  - split; vm_compute; intuition discriminate.
  - split; rewrite ?E; [vm_compute; intuition discriminate|vm_compute; discriminate|lia|].
    intros k Hk. assert (k = 0) as -> by lia. vm_compute; intuition discriminate.
  - lia.
  - lia.
  - intros k Hk. assert (k = 0) as -> by lia. vm_compute; intuition discriminate.
Qed.

Definition yo_ring : c4_ringbuf := mk_ringbuf 0 2 connman_ring_size (121 :: 111 :: replicate 4082 0).

Lemma write_block_correct_witness : let _ := steady 0 no_msg in
  let raw := inode_at small_fs tree_disk 3 in let node := mk_fsnode 3 1 0 in ∃ e' b',
  handle_write_block small_fs blank_conn no_msg (mk_srv (sv_e2 tree_server) yo_ring (Some (mk_cli node raw 1)) []) =
    Ret (tt, mk_srv e' b' (Some (mk_cli node raw 3)) [sent blank_conn (mk_msg FS_MSG_COMPLETED [2])]) ∧
  file_bytes small_fs (e_disk e') raw = [104; 121; 111].
Proof.
  intros env raw node.
  destruct (write_block_correct small_fs blank_conn 3 node 1 [121; 111] no_msg (mk_srv (sv_e2 tree_server) yo_ring (Some (mk_cli node raw 1)) []))
    as (e' & b' & E & _ & _ & _ & Hf & _).
  - exact tree_server_ok.
  - exact tree_file_own.
  - reflexivity.
  - reflexivity.
  - vm_compute. split; discriminate.
  - vm_compute. reflexivity.
  - split; vm_compute; intuition discriminate.
  - vm_compute. reflexivity.
  - discriminate.
  - exists e', b'. split; [exact E|]. refine (eq_trans Hf _). vm_compute. reflexivity.
Defined.
