(* ===== verification/Ext2Answers.v ===== *)
(** The ext2 server answers: over a sound directory tree every handler that does
    not change the disk ([programs/ext2fs/src/server.c]) ends, faults nowhere and
    sends exactly one reply. *)

From S2P Require Import Prelude Interfaces Kernel Mem RingBuffer Connman Filesystem Ext2 Ext2Inode Ext2Server Ext2File Ext2Lookup.
#[local] Open Scope Z_scope.

Section answers.
Context `{KernelEnv} `{ClientHeap} {D : Type} `{BlockDeviceLaws D}.
Context (fs : ext2fs) (conn : c4rt_conn) (fuel : nat) (junk : list Z).
Context (d : D) (node : Z → Prop) (dirs : Z → list (list (dirent_view * list Z))).
Implicit Types s : server_state D.
Abbreviation bs := (ext2_block_size fs).

(** The disk is the tree [d], the ring buffer a connection's, and the client has
    selected a node of the tree, if any (before that the server's heap has room
    for its state); its position may be anywhere. *)
Record sound s : Prop := {
  sd_e2 : e2_ok fs (sv_e2 s);
  sd_disk : disk_of s = d;
  sd_ring : ring_wf (sv_ring s) ∧ size (sv_ring s) = connman_ring_size;
  sd_cli : ∀ cli, sv_cli s = Some cli → ∃ n, node n ∧ e2node cli = inode_at fs d n ∧ 0 <= cindex cli < 2 ^ 32;
  sd_room : has_room s
}.

(** One reply was sent, and the server is ready for the next request. *)
Definition answered (o : outcome (unit * server_state D)) s : Prop :=
  ∃ r s', o = Ret (tt, s') ∧ sv_hist s' = sent conn r :: sv_hist s ∧ sound s'.

Lemma respond_answered m s : sound s → answered (respond conn m s) s.
Proof. intros [S1 S2 S3 S4 S5]. eexists m, _. split; [apply respond_run|]. split; [done|by split]. Qed.

Lemma sound_mk s e b cli : e2_ok fs e → e_disk e = d → ring_wf b → size b = connman_ring_size →
  (∀ c, cli = Some c → ∃ n, node n ∧ e2node c = inode_at fs d n ∧ 0 <= cindex c < 2 ^ 32) → (cli = None → client_calloc = true) → sound (mk_srv e b cli (sv_hist s)).
Proof. intros He Hd Hb Hs Hc Hr. by split. Qed.

Context (Ht : tree_ok fs fuel d node dirs) (Hfiles : ∀ n, node n → file_ok fs d (inode_at fs d n)) (Hjunk : length junk = 256%nat) (Hbs4 : bs < 4096).

(** [tree_ok] and [Hfiles] say that the disk is sound, [junk] is the rest of the
    local [fs_dirent_t]'s name array, and with a block the size of the page a
    read at a position inside a block would run past the page. *)

(** ** Handlers *)
Lemma set_node_answered n s : sound s → node n → answered (handle_set_node fs conn (mk_msg FS_MSG_SET_NODE [n]) s) s.
Proof.
  intros [He Hd Hr Hc Hroom] Hn. destruct (set_node_run fs conn n s He Hroom) as (e' & E & He' & Hd').
  { rewrite Hd. by apply (to_inode _ _ _ _ _ Ht). }
  eexists _, _. split; [exact E|]. split; [done|]. split; [done|unfold disk_of; cbn [sv_e2]; congruence|done| |done].
  intros cli [= <-]. exists n. cbn [e2node cindex]. by rewrite Hd.
Qed.

Lemma root_answered m s : sound s → node 2 → answered (handle_get_rootdir fs conn m s) s.
Proof.
  intros [He Hd Hr Hc Hroom] Hn. destruct (get_inode_spec fs (sv_e2 s) 2 He) as (more & E & He').
  { fold (disk_of s). rewrite Hd. by apply (to_inode _ _ _ _ _ Ht). }
  cbv zeta in *. unfold handle_get_rootdir. set (e' := mk_e2 _ _) in *.
  rewrite (bind_run _ _ s _ (mk_srv e' (sv_ring s) (sv_cli s) (sv_hist s))) by (unfold on_e2, zoom; by rewrite E).
  apply (respond_answered _ (mk_srv e' (sv_ring s) (sv_cli s) (sv_hist s))). by split.
Qed.

Lemma node_info_answered n s : sound s → node n → answered (handle_get_node_info fs conn (mk_msg FS_MSG_GET_NODE_INFO [n]) s) s.
Proof.
  intros [He Hd Hr Hc Hroom] Hn. pose proof (to_inode _ _ _ _ _ Ht n Hn) as Hino.
  destruct (get_inode_spec fs (sv_e2 s) n He) as (more & E & He'); [fold (disk_of s); by rewrite Hd|].
  pose proof (g_inodes _ _ (e2_geom _ _ He)). pose proof (in_range _ _ _ Hino).
  assert (mget (mk_msg FS_MSG_GET_NODE_INFO [n]) 0 = n) as En by (apply u32_small; lia).
  cbv zeta in *. unfold handle_get_node_info. rewrite En. set (e' := mk_e2 _ _) in *.
  rewrite (bind_run _ _ s _ (mk_srv e' (sv_ring s) (sv_cli s) (sv_hist s))) by (unfold on_e2, zoom; by rewrite E).
  apply (respond_answered _ (mk_srv e' (sv_ring s) (sv_cli s) (sv_hist s))). by split.
Qed.

(** A read at any position, also one that is not at the start of a block: the
    page has room for two blocks. *)
Lemma read_answered m s : sound s → answered (handle_read_block fs conn m s) s.
Proof.
  intros Hs. pose proof Hs as [He Hd [Hwf Hsz] Hc Hcalloc]. unfold handle_read_block. rewrite (bind_run get _ _ _ _ eq_refl).
  destruct (sv_cli s) as [cli|] eqn:Ecli; [|by apply respond_answered]. destruct (Hc cli eq_refl) as (n & Hn & Hraw & Hi).
  pose proof (Hfiles n Hn) as Hf. rewrite <-Hraw in Hf. pose proof (e2_geom _ _ He) as Hg. pose proof (bs_pos fs _ Hg) as Hbs.
  cbv zeta. destruct (Z.leb_spec (i_lower_size (e2node cli)) (cindex cli)) as [|Hlt]; [by apply respond_answered|].
  set (w := if bs <? _ then bs else _). assert (w = Z.min bs (i_lower_size (e2node cli) - cindex cli)) as Ew by (unfold w; zbool; lia).
  destruct (c4_ringbuf_can_write (sv_ring s) w) eqn:Ecan; cbn [negb]; [|by apply respond_answered].
  pose proof (Z.mod_pos_bound (cindex cli) bs ltac:(lia)) as Hoff. pose proof (Z.div_mod (cindex cli) bs ltac:(lia)) as Hdm.
  pose proof (Z.div_pos (cindex cli) bs ltac:(lia) ltac:(lia)) as Hk0.
  assert (cindex cli / bs < Z.of_nat (file_blocks fs (e2node cli))) as Hk by (apply (file_blocks_iff fs d); [by rewrite <-Hd|lia|lia|lia]).
  rewrite <-Hd in Hf. destruct (inode_read_block_ok fs (sv_e2 s) (e2node cli) (cindex cli / bs) He Hf (conj Hk0 Hk)) as (more & E & He'). cbv zeta in *.
  set (e' := mk_e2 _ _) in *. rewrite (bind_run _ _ s true (mk_srv e' (sv_ring s) (sv_cli s) (sv_hist s))) by (unfold on_e2, zoom; by rewrite E).
  cbn [negb]. rewrite (bind_run get _ _ _ _ eq_refl). cbn [sv_e2].
  assert (w <= Z.of_nat (length (drop (Z.to_nat (cindex cli mod bs)) (e_buf e')))) as Hroom.
  { rewrite length_drop, (e2_buf _ _ He'). destruct (block_size_cases fs _ Hg) as [[Eb _]|[[Eb _]|[Eb _]]]; rewrite Eb in *; lia. }
  pose proof (fo_size _ _ _ Hf) as Hsize. pose proof (ringbuf_write_ok (drop (Z.to_nat (cindex cli mod bs)) (e_buf e')) w (sv_ring s) Hwf) as Hwr.
  destruct Hwr as (b' & Ew' & Hwf' & Hs' & _); [lia|lia|]. set (k := Z.min w _) in *.
  rewrite (bind_run _ _ _ k (mk_srv e' b' (sv_cli s) (sv_hist s))) by (unfold on_sring, zoom; cbn [sv_ring]; by rewrite Ew').
  set (c' := mk_cli (fsnode cli) (e2node cli) (u32 (cindex cli + k))).
  rewrite (bind_run _ _ _ tt (mk_srv e' b' (Some c') (sv_hist s))) by done.
  apply (respond_answered _ (mk_srv e' b' (Some c') (sv_hist s))). apply sound_mk; [done|done|done|congruence| |done].
  intros ? [= <-]. exists n. cbn [e2node cindex c']. split_and!; [done|done|apply u32_range..].
Qed.

(** A write finds nothing to write in an empty ring buffer. *)
Lemma write_answered m s : sound s → sv_cli s = None ∨ c4_ringbuf_empty (sv_ring s) = true → answered (handle_write_block fs conn m s) s.
Proof.
  intros Hs Hor. unfold handle_write_block. rewrite (bind_run get _ _ _ _ eq_refl).
  destruct (sv_cli s) as [cli|]; [|by apply respond_answered]. destruct Hor as [|He]; [done|]. cbv zeta. rewrite He. by apply respond_answered.
Qed.

Lemma find_name_answered len s : sound s → 0 <= len < 2 ^ 32 →
  (∃ cli, sv_cli s = Some cli) → len <= Z.of_nat (length (contents (sv_ring s))) →
  answered (handle_find_name fs conn fuel (mk_msg FS_MSG_FIND_NAME [len]) s) s.
Proof.
  intros Hs Hlen [cli Ecli] Hle. pose proof Hs as [He Hd [Hwf Hsz] Hc Hcalloc]. destruct (Hc cli Ecli) as (n & Hn & Hraw & Hi).
  assert (mget (mk_msg FS_MSG_FIND_NAME [len]) 0 = len) as En by (by apply u32_small).
  unfold handle_find_name. rewrite En. cbv zeta. rewrite (bind_run get _ _ _ _ eq_refl), Ecli.
  destruct (ext2_is_directory (e2node cli)) eqn:Edir; cbn [negb]; [|by apply respond_answered].
  destruct (_ || _) eqn:Ebad; [by apply respond_answered|].
  rewrite Hraw in Edir. destruct (to_dir _ _ _ _ _ Ht n Hn Edir) as (Hdir & Hf & Hfu). rewrite <-Hraw, <-Hd in Hdir.
  destruct (ringbuf_read_ok len (sv_ring s) Hwf Hlen) as (b' & E & Hwf' & Hsz' & _). cbv zeta in *. rewrite Z.min_l in * by lia.
  set (s1 := mk_srv (sv_e2 s) b' (sv_cli s) (sv_hist s)).
  rewrite (bind_run _ _ s _ s1) by (unfold on_sring, zoom; by rewrite E). cbn [fst snd]. rewrite Z.ltb_irrefl. change 0 with (Z.of_nat 0).
  destruct (scan_dir_ok fs conn fuel cli (take (Z.to_nat len) (contents (sv_ring s))) (dirs n) (length (dirs n)) 0 s1) as (e' & E' & He' & Hd'); [done|done|done|exact Hf|done|].
  eexists _, _. split; [exact E'|]. split; [done|]. cbn [sv_ring sv_cli sv_hist s1]. split; [done|change (disk_of s1) with (disk_of s) in Hd'; unfold disk_of in *; cbn [sv_e2]; congruence|split; [done|cbn [sv_ring]; congruence]|done|done].
Qed.

(** ** Listing *)
Lemma copy_name_loop_ok s o de nm : entry_at (page_of s) o de nm → ∀ n out, (n + length out <= length nm)%nat →
  ∃ out', copy_name_loop n o out s = Ret (out', s) ∧ length out' = (length out + n + 1)%nat.
Proof.
  intros [_ _ _ _ [_ Hnm]] n. induction n as [|n IH]; intros out Hle; cbn [copy_name_loop].
  - eexists. split; [done|]. rewrite length_app. simpl. lia.
  - destruct (lookup_lt_is_Some_2 nm (length out)) as [c Hc]; [lia|].
    rewrite (bind_run _ _ _ _ _ (buf8_ok s _ _ (Hnm _ _ Hc))).
    destruct (IH (out ++ [c])) as (out' & E & Hl); [rewrite length_app; simpl; lia|].
    exists out'. split; [done|]. rewrite Hl, length_app. simpl. lia.
Qed.

Lemma dirent_bytes_length name de : (length name <= 256)%nat → length (dirent_bytes junk name de) = 268%nat.
Proof. intros Hl. unfold dirent_bytes. rewrite !length_app, length_drop, Hjunk. simpl. lia. Qed.

Lemma list_loop_ok es : ∀ fu i k s, chain bs (page_of s) i es → (length es < fu)%nat → (∀ de nm, (de, nm) ∈ es → d_size de < 2 ^ 16) →
  ring_wf (sv_ring s) → size (sv_ring s) = connman_ring_size →
  ∃ b' k', list_loop fs fu junk i k s = Ret (k', mk_srv (sv_e2 s) b' (sv_cli s) (sv_hist s)) ∧ ring_wf b' ∧ size b' = connman_ring_size.
Proof.
  induction es as [|[de nm] es IH]; intros [|fu] i k s Hc Hf Hsz Hwf Hrs; try (simpl in Hf; lia); cbn [list_loop].
  - rewrite (proj2 (Z.ltb_ge _ _)) by (simpl in Hc; lia). exists (sv_ring s), k. by rewrite srv_e2_id.
  - destruct Hc as (Hi & Hp & He & Hc). rewrite (proj2 (Z.ltb_lt _ _)) by lia.
    rewrite (bind_run _ _ _ _ _ (load_dirent_ok s i de nm He)). pose proof (Hsz de nm (list_elem_of_here _ _)) as Hds.
    unfold copy_name. destruct (ea_name _ _ _ _ He) as [Enl _].
    destruct (copy_name_loop_ok s i de nm He (Z.to_nat (Z.min (d_name_length de) (FS_MAX_NAME_LEN - 1))) []) as (name & En & Hnl); [simpl; lia|].
    rewrite (bind_run _ _ _ _ _ En), (bind_run get _ _ _ _ eq_refl), u32_small by lia.
    assert (length (dirent_bytes junk name de) = 268%nat) as Hl by (apply dirent_bytes_length; rewrite Hnl; unfold FS_MAX_NAME_LEN; simpl; lia).
    assert (∀ s', sv_e2 s' = sv_e2 s → chain bs (page_of s') (i + d_size de) es) as Hc' by (intros s' Es; unfold page_of; by rewrite Es).
    assert (∀ de' nm', (de', nm') ∈ es → d_size de' < 2 ^ 16) as Hsz' by (intros de' nm' Hin; apply (Hsz de' nm'); by right).
    destruct (c4_ringbuf_can_write _ _).
    + destruct (ringbuf_write_ok (dirent_bytes junk name de) sizeof_dirent (sv_ring s) Hwf) as (b1 & Ew & Hwf1 & Hs1 & _); [rewrite Hl; by vm_compute|by vm_compute|].
      cbv zeta in Ew. set (s1 := mk_srv (sv_e2 s) b1 (sv_cli s) (sv_hist s)).
      rewrite (bind_run _ _ s (k + 1) s1) by (rewrite (bind_run _ _ s _ s1) by (unfold on_sring, zoom; by rewrite Ew); done).
      destruct (IH fu (i + d_size de) (k + 1) s1) as (b' & k' & E & Hb'); [by apply Hc'|simpl in Hf; lia|done|done|simpl; congruence|].
      by exists b', k'.
    + rewrite (bind_run _ _ s k s) by done. apply IH; [by apply Hc'|simpl in Hf; lia|done|done|done].
Qed.

Lemma list_dir_answered m s : sound s →
  (∀ cli, sv_cli s = Some cli → ext2_is_directory (e2node cli) = true ∧ cindex cli * bs < 2 ^ 32) →
  answered (handle_list_dir fs conn fuel junk m s) s.
Proof.
  intros Hs Hok. pose proof Hs as [He Hd [Hwf Hsz] Hc Hcalloc]. unfold handle_list_dir. rewrite (bind_run get _ _ _ _ eq_refl).
  destruct (sv_cli s) as [cli|] eqn:Ecli; [|by apply respond_answered]. destruct (Hc cli eq_refl) as (n & Hn & Hraw & Hi).
  destruct (Hok cli eq_refl) as [Edir Hix]. rewrite Hraw in Edir. destruct (to_dir _ _ _ _ _ Ht n Hn Edir) as (Hdir & Hf & Hfu).
  rewrite <-Hraw, <-Hd in Hdir. pose proof (dr_file _ _ _ _ Hdir) as Hfo. pose proof (e2_geom _ _ He) as Hg. pose proof (bs_pos fs _ Hg) as Hbs.
  rewrite u32_small by nia. destruct (Z.leb_spec (i_lower_size (e2node cli)) (cindex cli * bs)) as [|Hlt]; [by apply respond_answered|].
  pose proof (proj2 (file_blocks_iff fs (disk_of s) (e2node cli) (cindex cli) Hg ltac:(nia) ltac:(lia)) Hlt) as Hk.
  destruct (inode_read_block_ok fs (sv_e2 s) (e2node cli) (cindex cli) He Hfo) as (more & E & He'); [lia|]. cbv zeta in *.
  set (e' := mk_e2 _ (_ ++ more)) in *. set (s1 := mk_srv e' (sv_ring s) (sv_cli s) (sv_hist s)).
  rewrite (bind_run _ _ s true s1) by (unfold on_e2, zoom; by rewrite E). cbn [negb]. pose proof (dr_blocks _ _ _ _ Hdir) as Hnb.
  destruct (lookup_lt_is_Some_2 (dirs n) (Z.to_nat (cindex cli))) as [es Ees]; [lia|].
  pose proof (list_elem_of_lookup_2 _ _ _ Ees) as Hin.
  destruct (list_loop_ok es fuel 0 0 s1) as (b' & k' & El & Hwf' & Hs'); [| |by intros de nm; apply (dr_sizes _ _ _ _ Hdir)|done|done|].
  { unfold page_of. cbn [sv_e2 s1 e_buf e']. apply chain_app. pose proof (dr_chain _ _ _ _ Hdir _ _ Ees) as Hch. by rewrite Z2Nat.id in Hch by lia. }
  { specialize (Hf es Hin). lia. }
  rewrite (bind_run _ _ _ _ _ El). cbn [sv_e2 sv_cli sv_hist s1].
  set (c' := mk_cli (fsnode cli) (e2node cli) (u32 (cindex cli + 1))).
  rewrite (bind_run _ _ _ tt (mk_srv e' b' (Some c') (sv_hist s))) by done.
  apply (respond_answered _ (mk_srv e' b' (Some c') (sv_hist s))). apply sound_mk; [done|done|done|done| |done].
  intros ? [= <-]. exists n. cbn [e2node cindex c']. split_and!; [done|done|apply u32_range..].
Qed.

(** ** Requests *)

(** The requests a client may send in state [s]: nodes it names are in the tree,
    a lookup comes with its name in the ring buffer and after a node was
    selected, a listing is of a directory whose position times the block size
    does not wrap, and a write comes with nothing to write.  A message of
    another type is acceptable too. *)
Inductive acceptable s : message → Prop :=
  | acc_set_node n : node n → acceptable s (mk_msg FS_MSG_SET_NODE [n])
  | acc_find_name len cli : sv_cli s = Some cli → 0 <= len <= Z.of_nat (length (contents (sv_ring s))) →
      acceptable s (mk_msg FS_MSG_FIND_NAME [len])
  | acc_get_root m : mtype m = FS_MSG_GET_ROOT_DIR → node 2 → acceptable s m
  | acc_node_info n : node n → acceptable s (mk_msg FS_MSG_GET_NODE_INFO [n])
  | acc_list_dir m : mtype m = FS_MSG_LIST_DIR →
      (∀ cli, sv_cli s = Some cli → ext2_is_directory (e2node cli) = true ∧ cindex cli * bs < 2 ^ 32) → acceptable s m
  | acc_read_block m : mtype m = FS_MSG_READ_BLOCK → acceptable s m
  | acc_write_block m : mtype m = FS_MSG_WRITE_BLOCK → sv_cli s = None ∨ c4_ringbuf_empty (sv_ring s) = true → acceptable s m
  | acc_other m : mtype m ∉ [FS_MSG_SET_NODE; FS_MSG_FIND_NAME; FS_MSG_GET_ROOT_DIR; FS_MSG_GET_NODE_INFO; FS_MSG_LIST_DIR; FS_MSG_READ_BLOCK; FS_MSG_WRITE_BLOCK] →
      acceptable s m.

(** The dispatch, by the request's type. *)
Ltac dispatch E := unfold ext2_serve; cbv zeta; rewrite ?E; cbn [mtype];
  unfold FS_MSG_WRITE_BLOCK, FS_MSG_READ_BLOCK, FS_MSG_SET_NODE, FS_MSG_FIND_NAME, FS_MSG_GET_ROOT_DIR, FS_MSG_GET_NODE_INFO, FS_MSG_LIST_DIR;
  repeat rewrite (proj2 (Z.eqb_neq (MESSAGE_TYPE_END_RESERVED + _) _)) by lia; rewrite Z.eqb_refl.

Lemma serve_answered m s : sound s → acceptable s m → answered (ext2_serve fs conn fuel junk m s) s.
Proof.
  intros Hs [n Hn|len cli Hc Hl|m' E Hn|n Hn|m' E Hl|m' E|m' E Hw|m' Ho].
  - rewrite serve_set_node. by apply set_node_answered.
  - rewrite serve_find_name. pose proof (contents_len (sv_ring s) ltac:(apply Hs)). pose proof (ring_len_range (sv_ring s) ltac:(apply Hs)).
    pose proof (wf_size (sv_ring s) ltac:(apply Hs)). apply find_name_answered; [done|lia|by exists cli|lia].
  - dispatch E. by apply root_answered.
  - dispatch (eq_refl FS_MSG_GET_NODE_INFO). by apply node_info_answered.
  - dispatch E. by apply list_dir_answered.
  - dispatch E. by apply read_answered.
  - dispatch E. by apply write_answered.
  - unfold ext2_serve. cbv zeta. rewrite !not_elem_of_cons in Ho. destruct Ho as (?&?&?&?&?&?&?&_).
    repeat rewrite (proj2 (Z.eqb_neq _ _)) by done. by apply respond_answered.
Qed.

(** A session: before each request the client puts the ring buffer in another
    state, taking bytes out or putting a name in. *)
Fixpoint serve_requests (reqs : list (c4_ringbuf * message)) : M (server_state D) unit :=
  match reqs with
  | [] => mret tt
  | (b, m) :: rest => modify (with_buffer b);; ext2_serve fs conn fuel junk m;; serve_requests rest
  end.
Fixpoint acceptable_all (reqs : list (c4_ringbuf * message)) s : Prop :=
  match reqs with
  | [] => True
  | (b, m) :: rest =>
      ring_wf b ∧ size b = connman_ring_size ∧ acceptable (with_buffer b s) m ∧
      ∀ s', ext2_serve fs conn fuel junk m (with_buffer b s) = Ret (tt, s') → acceptable_all rest s'
  end.

Lemma serve_requests_ok reqs : ∀ s, sound s → acceptable_all reqs s → ∃ replies s',
  serve_requests reqs s = Ret (tt, s') ∧ sv_hist s' = (sent conn <$> replies) ++ sv_hist s ∧ length replies = length reqs ∧ sound s'.
Proof.
  induction reqs as [|[b m] reqs IH]; intros s Hs Hacc; cbn [serve_requests].
  - exists [], s. done.
  - destruct Hacc as (Hwf & Hsz & Ha & Hrest). rewrite (bind_run _ _ s tt (with_buffer b s)) by done.
    assert (sound (with_buffer b s)) as Hs1 by (destruct Hs; by apply sound_mk).
    destruct (serve_answered m _ Hs1 Ha) as (r & s1 & E & Eh & Hs1'). rewrite (bind_run _ _ _ _ _ E).
    destruct (IH s1 Hs1' (Hrest s1 E)) as (rs & s' & E' & Eh' & Hl & Hs'). exists (rs ++ [r]), s'.
    split_and!; [done| |rewrite length_app; simpl; lia|done]. rewrite Eh', Eh, fmap_app, <-app_assoc. done.
Qed.

(** C12: the file server always answers: over a sound directory tree with blocks
    smaller than a page, and with room in its heap for the client's state, a client that sends acceptable requests in any order, moving data in and out of the ring
    buffer in between, gets for each of them exactly one reply; the handlers'
    loops end within the fuel, nothing faults (reads at any position, also one
    inside a block, included) and after each request the server is ready for
    the next, the disk being as it was. *)
Theorem requests_answered reqs s : sound s → acceptable_all reqs s → ∃ replies s',
  serve_requests reqs s = Ret (tt, s') ∧ sv_hist s' = (sent conn <$> replies) ++ sv_hist s ∧ length replies = length reqs ∧ sound s'.
Proof. apply serve_requests_ok. Qed.
End answers.

#[local] Existing Instance roomy.

(** ** A session on the sample tree: look [/ab] up, list the root, select the file,
    read it, and ask for what no server does. *)
Definition session_junk : list Z := replicate 256 0.
Definition session : list (c4_ringbuf * message) :=
  let _ := steady 0 no_msg in
  [(empty_ring, mk_msg FS_MSG_SET_NODE [2]); (ab_ring, mk_msg FS_MSG_FIND_NAME [2]); (empty_ring, mk_msg FS_MSG_LIST_DIR [0]);
   (empty_ring, mk_msg FS_MSG_SET_NODE [3]); (empty_ring, mk_msg FS_MSG_READ_BLOCK [0]); (empty_ring, mk_msg FS_MSG_CREATE_DIR [3])].

(** The state the server is in after a request. *)
Definition after_request `{KernelEnv} (r : c4_ringbuf * message) (s : server_state Ramdisk.ramdisk) : server_state Ramdisk.ramdisk :=
  match ext2_serve small_fs blank_conn 9 session_junk r.2 (with_buffer r.1 s) with Ret (_, s') => s' | _ => s end.

Lemma acceptable_next `{KernelEnv} b m reqs s : ring_wf b → size b = connman_ring_size → acceptable small_fs tree_node (with_buffer b s) m →
  acceptable_all small_fs blank_conn 9 session_junk tree_node reqs (after_request (b, m) s) →
  acceptable_all small_fs blank_conn 9 session_junk tree_node ((b, m) :: reqs) s.
Proof.
  intros Hwf Hsz Ha Hr. split_and!; [done..|]. intros s' E. unfold after_request in Hr. cbn [fst snd] in Hr. by rewrite E in Hr.
Qed.

Lemma tree_files n : tree_node n → file_ok small_fs tree_disk (inode_at small_fs tree_disk n).
Proof.
  intros [-> | ->]; [apply (dr_file _ _ _ _ tree_dir)|].
  assert (file_blocks small_fs (inode_at small_fs tree_disk 3) = 1%nat) as E by (vm_compute; reflexivity).
  split; rewrite ?E; [vm_compute; intuition discriminate|vm_compute; discriminate|lia|].
  intros k Hk. assert (k = 0) as -> by lia. vm_compute; intuition discriminate.
Qed.

Lemma ab_ring_ok : ring_wf ab_ring.
Proof. split; vm_compute; intuition discriminate. Qed.

Lemma session_acceptable : let _ := steady 0 no_msg in
  acceptable_all small_fs blank_conn 9 session_junk tree_node session tree_server.
Proof.
  intros env. destruct empty_ring_ok as (Hwf & _ & Hsz). unfold session.
  apply acceptable_next; [done|done|apply acc_set_node; by left|].
  apply acceptable_next; [exact ab_ring_ok|done| |].
  { eapply acc_find_name; [vm_compute; reflexivity|vm_compute; intuition discriminate]. }
  apply acceptable_next; [done|done| |].
  { apply acc_list_dir; [done|]. intros cli E. vm_compute in E. injection E as <-. vm_compute. split; reflexivity. }
  apply acceptable_next; [done|done|apply acc_set_node; by right|].
  apply acceptable_next; [done|done|by apply acc_read_block|].
  apply acceptable_next; [done|done| |exact I].
  apply acc_other. rewrite !not_elem_of_cons, elem_of_nil. vm_compute. intuition discriminate.
Qed.

Lemma requests_answered_witness : let _ := steady 0 no_msg in ∃ replies s',
  serve_requests small_fs blank_conn 9 session_junk session tree_server = Ret (tt, s') ∧
  sv_hist s' = sent blank_conn <$> replies ∧ length replies = 6%nat.
Proof.
  intros env. destruct (requests_answered small_fs blank_conn 9 session_junk tree_disk tree_node tree_dirs tree_sound tree_files
    eq_refl eq_refl session tree_server) as (rs & s' & E & Eh & Hl & _).
  - split; [exact tree_server_ok|reflexivity|split; apply empty_ring_ok|discriminate|exact (λ _, eq_refl)].
  - exact session_acceptable.
  - exists rs, s'. split; [exact E|]. split; [|exact Hl]. rewrite Eh. apply app_nil_r.
Defined.
