(* ===== verification/Ext2Main.v ===== *)
(** The ext2 program's start-up ([main] of [programs/ext2fs/src/main.c]) and the
    listings it prints: the shared page is allocated, the name bound, the disk
    found and mounted, and the root directory listed; then the server loop of
    [Ext2Server.v] takes over.

    What is printed is not recorded, but every access made for it is: a listing
    returns what it read. *)

From S2P Require Import Prelude Interfaces Kernel Mem Nameserver Ext2 Ext2Inode Connman Filesystem Ext2Server.
#[local] Open Scope Z_scope.

Definition dev_ext2fs : list Z := [47; 100; 101; 118; 47; 101; 120; 116; 50; 102; 115].
Definition dev_ata : list Z := [47; 100; 101; 118; 47; 97; 116; 97].

(** The process and the disk with the page. *)
Record ext2prog (R D : Type) := mk_ext2prog { ep_proc : process R; ep_e2 : e2state D }.
Arguments mk_ext2prog {R D}.
Arguments ep_proc {R D}.
Arguments ep_e2 {R D}.

Section listings.
Context {D : Type} `{BlockDevice D} (fs : ext2fs).
Abbreviation E := (M (e2state D)).

(** The bitmap of a group, 32 blocks at a time; [table] is whether the page
    holds a bitmap block.  A failed read leaves a null pointer. *)
Fixpoint dump_loop (turns : nat) (block_map i last : Z) (table : bool) (out : list Z) : E (list Z) :=
  match turns with
  | O => nofuel
  | S n =>
      if blocks_per_group (superblock fs) <=? i then mret out
      else
        let index := i / ext2_block_size fs in
        r ← (if negb table || negb (index =? last) then
               ok ← ext2_read_block fs (u32 (block_map + index)); mret (ok, index)
             else mret (table, last));
        if negb r.1 then ub
        else
          map ← buf32 (4 * u32 (i - index * ext2_block_size fs));
          dump_loop n block_map (u32 (i + 32)) r.2 r.1 (out ++ [map])
  end.

(** [des] is an offset in the page, copied first. *)
Definition ext2_dump_unalloced_blocks (turns : nat) (des : Z) : E (list Z) :=
  block_map ← buf32 des;
  dump_loop turns block_map 0 0 false [].

(** The six fields printed of each group descriptor. *)
Definition read_desc (o : Z) : E (list Z) :=
  a ← buf32 o; b ← buf32 (o + 4); c ← buf32 (o + 8); d ← buf16 (o + 12); e ← buf16 (o + 14); f ← buf16 (o + 16);
  mret [a; b; c; d; e; f].

(** [n] descriptors from the [i]th on; the table is read again for each. *)
Fixpoint list_descs (n : nat) (i : Z) (out : list (list Z)) : E (list (list Z)) :=
  match n with
  | O => mret out
  | S n' =>
      ok ← ext2_get_block_descs fs;
      if negb ok then ub
      else d ← read_desc (sizeof_desc * i); list_descs n' (i + 1) (out ++ [d])
  end.

Fixpoint read_chars (n : nat) (o : Z) (out : list Z) : E (list Z) :=
  match n with O => mret out | S n' => c ← buf8 o; read_chars n' (o + 1) (out ++ [c]) end.

(** The names in the directory block in the page, up to an entry of size 0. *)
Fixpoint list_names (turns : nat) (i : Z) (out : list (list Z)) : E (list (list Z)) :=
  match turns with
  | O => nofuel
  | S n =>
      if ext2_block_size fs <=? i then mret out
      else
        nl ← buf8 (i + 6);
        name ← read_chars (Z.to_nat nl) (i + 8) [];
        buf32 i;;
        buf8 (i + 7);;
        size ← buf16 (i + 4);
        if size =? 0 then mret (out ++ [name])
        else list_names n (u32 (i + size)) (out ++ [name])
  end.

(** The root directory is inode 2; without it the local inode is not
    initialized, and without its first block the pointer is null. *)
Definition list_root (turns : nat) : E (list (list Z)) :=
  r ← ext2_get_inode fs 2;
  match r with
  | None => ub
  | Some (_, raw) =>
      ok ← ext2_inode_read_block fs raw 0;
      if negb ok then ub else list_names turns 0 []
  end.

(** What [main] prints of the file system. *)
Definition print_filesystem (turns : nat) : E (list (list Z) * list (list Z)) :=
  ext2_get_block_descs fs;;
  descs ← list_descs (Z.to_nat (ext2_total_block_descs fs)) 0 [];
  names ← list_root turns;
  mret (descs, names).
End listings.

Section main.
Context `{KernelEnv} {R : Type} `{Allocator R} {D : Type} `{BlockDevice D}.
Abbreviation X := (M (ext2prog R D)).

Definition on_proc {A} (m : M (process R) A) : X A := zoom ep_proc (λ p s, mk_ext2prog p (ep_e2 s)) m.
Definition on_fs {A} (m : M (e2state D) A) : X A := zoom ep_e2 (λ e s, mk_ext2prog (ep_proc s) e) m.
Definition xk {A} (m : K A) : X A := on_proc (on_kernel m).

(** [while ( !disk )] *)
Fixpoint wait_disk (tries : nat) (disk : Z) : X Z :=
  match tries with
  | O => nofuel
  | S t => if truthy disk then mret disk else d ← xk (nameserver_lookup C4_NAMESERVER dev_ata); wait_disk t (i32 d)
  end.

(** The file system and the port it serves; [None] after [c4_exit].  The
    assertion on the page only prints: the superblock's address is the page's.  The third [DEBUGF] asks for the thread's number. *)
Definition ext2_main (blank : c4_mem_object) (tries turns : nat) : X (option (ext2fs * Z)) :=
  serv_port ← xk c4_msg_create_sync;
  b ← on_proc (c4_memobj_alloc blank PAGE_SIZE (Z.lor PAGE_READ PAGE_WRITE));
  xk (nameserver_bind C4_NAMESERVER dev_ext2fs (u32 serv_port));;
  disk ← wait_disk tries 0;
  ok ← on_fs ext2_get_superblock;
  xk c4_get_id;;
  if negb ok || (vaddr b.2 =? 0) then xk c4_exit;; mret None
  else if negb (b.1 : bool) then ub
  else
    sb ← on_fs parse_superblock;
    let ext2 := mk_ext2fs sb 2048 disk in
    if negb (is_valid_ext2fs ext2) then xk c4_exit;; mret None
    else
      on_fs (print_filesystem ext2 turns);;
      mret (Some (ext2, serv_port)).
End main.

(** ** The listing of a directory *)
Section names.
Context {D : Type} `{BlockDevice D} (fs : ext2fs).
Implicit Types s : e2state D.

(** A computation that looks at the page and does not loop. *)
Definition looks {A} (m : M (e2state D) A) : Prop := ∀ s, m s = UB ∨ ∃ v, m s = Ret (v, s).

Lemma looks_some {A} (f : e2state D → option A) : looks (getsome f).
Proof. intros s. unfold getsome. destruct (f s); [right; by eexists|by left]. Qed.

Lemma looks_ret {A} (v : A) : looks (mret v).
Proof. intros s. right. by eexists. Qed.

Lemma looks_bind {A B} (m : M (e2state D) A) (f : A → M (e2state D) B) : looks m → (∀ v, looks (f v)) → looks (m ≫= f).
Proof.
  intros Hm Hf s. unfold mbind, M_bind. destruct (Hm s) as [->|[v ->]]; [by left|apply Hf].
Qed.

Lemma looks_chars n : ∀ o out, looks (read_chars n o out).
Proof. induction n as [|n IH]; intros o out; cbn [read_chars]; [apply looks_ret|]. apply looks_bind; [apply looks_some|]. intros c. apply IH. Qed.

(** After a computation that only looks. *)
Lemma looks_then {A B} (m : M (e2state D) A) (f : A → M (e2state D) B) s : looks m → (∀ v, m s = Ret (v, s) → f v s ≠ NoFuel) → (m ≫= f) s ≠ NoFuel.
Proof. intros Hm Hf. unfold mbind, M_bind. destruct (Hm s) as [->|[v E]]; [done|]. rewrite E. by apply Hf. Qed.

Lemma buf16_range o s v s' : Forall (λ b, 0 <= b < 256) (e_buf s) → buf16 o s = Ret (v, s') → 0 <= v < 2 ^ 16.
Proof.
  intros Hb. unfold buf16, getsome, ld16, zget. rewrite Forall_lookup in Hb.
  destruct (o <? 0); [done|]. destruct (e_buf s !! Z.to_nat o) as [x|] eqn:Ex; [|done]. cbn.
  destruct (o + 1 <? 0); [done|]. destruct (e_buf s !! Z.to_nat (o + 1)) as [y|] eqn:Ey; [|done]. cbn. intros [= <- _].
  pose proof (Hb _ _ Ex). pose proof (Hb _ _ Ey). simpl in *. lia.
Qed.

(** C40: the listing of a directory ends, whatever the block holds: an entry of
    size 0, which hangs the server's own search, ends it. *)
Theorem listing_ends turns s : Forall (λ b, 0 <= b < 256) (e_buf s) → ext2_block_size fs < 2 ^ 31 →
  ext2_block_size fs < Z.of_nat turns → list_names fs turns 0 [] s ≠ NoFuel.
Proof.
  intros Hb Hbs Ht. assert (0 <= ext2_block_size fs) as Hbs0 by apply u32_range. assert (∀ turns i out, 0 <= i → ext2_block_size fs - i < Z.of_nat turns → 0 < Z.of_nat turns →
    list_names fs turns i out s ≠ NoFuel) as Hall; [|apply Hall; lia].
  clear turns Ht. intros turns. induction turns as [|n IH]; intros i out Hi Hn Hpos; [lia|]. cbn [list_names].
  destruct (Z.leb_spec (ext2_block_size fs) i); [done|].
  apply looks_then; [apply looks_some|]. intros nl _.
  apply looks_then; [apply looks_chars|]. intros name _.
  apply looks_then; [apply looks_some|]. intros _ _.
  apply looks_then; [apply looks_some|]. intros _ _.
  apply looks_then; [apply looks_some|]. intros size Es. apply buf16_range in Es; [|done].
  destruct (Z.eqb_spec size 0); [done|]. rewrite u32_small by lia. apply IH; lia.
Qed.
End names.

Lemma listing_ends_witness : list_names small_fs 1025 0 [] (mk_e2 small_disk (replicate 4096 0)) ≠ NoFuel.
Proof.
  apply (listing_ends small_fs 1025 (mk_e2 small_disk (replicate 4096 0))).
  - apply (bool_decide_eq_true_1 _). vm_compute. reflexivity.
  - vm_compute. reflexivity.
  - vm_compute. reflexivity.
Defined.
