(* ===== verification/Devices.v ===== *)
(** How programs talk to the device servers ([libraries/c4rt/include/c4rt/
    interface/]): [peripheral.h], [keyboard.h], [mouse.h], [console.h],
    [framebuffer.h]. *)

From S2P Require Import Prelude Kernel.
#[local] Open Scope Z_scope.

Definition PERIPHERAL_DISCONNECT : Z := 0xd00f.

(** ** Events *)
Definition KEYBOARD_MOD_END : Z := 6.
Definition KEYBOARD_EVENT_KEY_DOWN : Z := 0.
Definition KEYBOARD_EVENT_KEY_UP : Z := 1.

Record keyboard_event := mk_kev { kev_character : Z; kev_modifiers : Z; kev_scancode : Z; kev_event : Z }.

Definition keyboard_event_is_modifier (ev : keyboard_event) : bool := kev_character ev <? KEYBOARD_MOD_END.
Definition keyboard_parse_event (m : message) : keyboard_event := mk_kev (mget m 0) (mget m 1) (mget m 2) (mget m 3).

Definition MOUSE_FLAG_LEFT : Z := 1.
Definition MOUSE_FLAG_RIGHT : Z := 2.
Definition MOUSE_FLAG_MIDDLE : Z := 4.

Record mouse_event := mk_mev { mev_flags : Z; mev_x : Z; mev_y : Z }.

Definition mouse_parse_event (m : message) : mouse_event := mk_mev (mget m 0) (i32 (mget m 1)) (i32 (mget m 2)).

Record framebuffer_info := mk_fbinfo { fbi_width : Z; fbi_height : Z; fbi_bpp : Z }.

Definition FRAMEBUFFER_MSG_INFO : Z := 0xcabba9e5.
Definition FRAMEBUFFER_MSG_GET_BUFFER : Z := 0xcabba9e6.
Definition FRAMEBUFFER_MSG_ERROR : Z := 0xcabba9e7.

Record console_info := mk_coninfo { ci_x_pos : Z; ci_y_pos : Z; ci_width : Z; ci_height : Z }.

Section stubs.
Context `{KernelEnv}.

Definition KEYBOARD_MSG_GET_EVENT : Z := MESSAGE_TYPE_END_RESERVED.
Definition KEYBOARD_MSG_GET_MODIFIERS : Z := MESSAGE_TYPE_END_RESERVED + 1.
Definition KEYBOARD_MSG_EVENT : Z := MESSAGE_TYPE_END_RESERVED + 2.
Definition MOUSE_MSG_EVENT : Z := KEYBOARD_MSG_EVENT + 1.

(** ** Peripherals *)
Definition c4rt_peripheral_connect (server port : Z) : K bool :=
  r ← c4_cspace_grant port server (caps [CAP_MODIFY; CAP_MULTI_USE; CAP_SHARE]);
  mret (0 <=? r).
Definition c4rt_peripheral_disconnect (port : Z) : K unit := mret tt.

(** The kernel's answer as a [bool]. *)
Definition c4rt_peripheral_have_event (port : Z) : K (bool * message) :=
  r ← c4_msg_recieve_async port 0; mret (truthy r.1, r.2).
Definition c4rt_peripheral_wait_event (port : Z) : K message :=
  r ← c4_msg_recieve_async port MESSAGE_ASYNC_BLOCK; mret r.2.

(** ** The console *)
Definition CONSOLE_MSG_CLEAR : Z := MESSAGE_TYPE_END_RESERVED + 2.
Definition CONSOLE_MSG_PUT_CHAR : Z := MESSAGE_TYPE_END_RESERVED + 3.
Definition CONSOLE_MSG_SET_POSITION : Z := MESSAGE_TYPE_END_RESERVED + 4.
Definition CONSOLE_MSG_SET_COLOR : Z := MESSAGE_TYPE_END_RESERVED + 5.
Definition CONSOLE_MSG_GET_INFO : Z := MESSAGE_TYPE_END_RESERVED + 7.
Definition CONSOLE_MSG_INFO : Z := MESSAGE_TYPE_END_RESERVED + 8.

Definition console_clear (id : Z) : K unit := c4_msg_send (mk_msg CONSOLE_MSG_CLEAR []) id;; mret tt.
Definition console_put_char (id c : Z) : K unit := c4_msg_send (mk_msg CONSOLE_MSG_PUT_CHAR [c]) id;; mret tt.
Definition console_set_position (id x y : Z) : K unit := c4_msg_send (mk_msg CONSOLE_MSG_SET_POSITION [x; y]) id;; mret tt.
Definition console_set_color (id color : Z) : K unit := c4_msg_send (mk_msg CONSOLE_MSG_SET_COLOR [color]) id;; mret tt.
Definition console_get_info (id : Z) : K console_info :=
  c4_msg_send (mk_msg CONSOLE_MSG_GET_INFO []) id;;
  r ← c4_msg_recieve id;
  mret (mk_coninfo (mget r.2 0) (mget r.2 1) (mget r.2 2) (mget r.2 3)).

(** ** The frame buffer *)
Definition framebuffer_get_info (server : Z) : K framebuffer_info :=
  temp ← c4_send_temp_endpoint server;
  c4_msg_send (mk_msg FRAMEBUFFER_MSG_INFO []) temp;;
  r ← c4_msg_recieve temp;
  c4_cspace_remove C4_CURRENT_CSPACE temp;;
  mret (mk_fbinfo (mget r.2 0) (mget r.2 1) (mget r.2 2)).

Definition framebuffer_get_buffer (server : Z) : K Z :=
  temp ← c4_send_temp_endpoint server;
  c4_msg_send (mk_msg FRAMEBUFFER_MSG_GET_BUFFER []) temp;;
  r ← c4_msg_recieve temp;
  c4_cspace_remove C4_CURRENT_CSPACE temp;;
  mret (mget r.2 5).
End stubs.
