(* ===== verification/Font.v ===== *)
(** The console font ([programs/display/src/font.c]): a PSF2 file as bytes, a
    header of eight words and then the glyphs' bitmaps. *)

From S2P Require Import Prelude.
#[local] Open Scope Z_scope.

(** The header: magic, version, its size, flags, 256 glyphs of 12 bytes, 12
    rows of 6 pixels. *)
Definition psf_header_bytes : list Z := [
  114; 181; 74; 134; 0; 0; 0; 0; 32; 0; 0; 0; 1; 0; 0; 0; 0; 1; 0; 0; 12; 0; 0; 0; 12; 0; 0; 0; 6; 0; 0; 0].

(** The glyphs, twelve rows each: control pictures and ASCII, ... *)
Definition psf_glyphs_ascii : list Z := [
  0; 0; 0; 120; 72; 72; 72; 72; 120; 0; 0; 0; 0; 0; 0; 0; 0; 0; 0; 0; 0; 0; 0; 0; 168; 84; 168; 84; 168; 84; 168; 84; 168; 84; 168; 84;
  0; 0; 0; 0; 0; 0; 0; 0; 0; 0; 0; 0; 0; 0; 0; 0; 0; 0; 0; 0; 0; 0; 0; 0; 0; 0; 0; 0; 0; 0; 0; 0; 0; 0; 0; 0;
  0; 0; 0; 0; 0; 0; 0; 0; 0; 0; 0; 0; 0; 0; 96; 144; 144; 96; 0; 0; 0; 0; 0; 0; 0; 0; 0; 0; 0; 0; 0; 0; 0; 0; 0; 0;
  0; 0; 0; 0; 0; 0; 0; 0; 0; 0; 0; 0; 0; 0; 0; 0; 0; 0; 0; 0; 0; 0; 0; 0; 32; 32; 32; 32; 32; 224; 0; 0; 0; 0; 0; 0;
  0; 0; 0; 0; 0; 224; 32; 32; 32; 32; 32; 32; 0; 0; 0; 0; 0; 60; 32; 32; 32; 32; 32; 32; 32; 32; 32; 32; 32; 60; 0; 0; 0; 0; 0; 0;
  32; 32; 32; 32; 32; 252; 32; 32; 32; 32; 32; 32; 0; 0; 0; 0; 0; 0; 0; 0; 0; 0; 0; 0; 0; 0; 0; 0; 0; 0; 0; 0; 0; 0; 0; 0;
  0; 0; 0; 0; 0; 252; 0; 0; 0; 0; 0; 0; 0; 0; 0; 0; 0; 0; 0; 0; 0; 0; 0; 0; 0; 0; 0; 0; 0; 0; 0; 0; 0; 0; 0; 0;
  32; 32; 32; 32; 32; 60; 32; 32; 32; 32; 32; 32; 32; 32; 32; 32; 32; 224; 32; 32; 32; 32; 32; 32; 32; 32; 32; 32; 32; 252; 0; 0; 0; 0; 0; 0;
  0; 0; 0; 0; 0; 252; 32; 32; 32; 32; 32; 32; 32; 32; 32; 32; 32; 32; 32; 32; 32; 32; 32; 32; 0; 0; 0; 0; 0; 0; 0; 0; 0; 0; 0; 0;
  0; 0; 0; 0; 0; 0; 0; 0; 0; 0; 0; 0; 0; 0; 0; 0; 0; 0; 0; 0; 0; 0; 0; 0; 0; 0; 0; 0; 0; 0; 0; 0; 0; 0; 0; 0;
  0; 0; 48; 64; 64; 240; 64; 64; 248; 0; 0; 0; 0; 0; 0; 0; 0; 0; 0; 0; 0; 0; 0; 0; 0; 0; 0; 0; 0; 0; 0; 0; 0; 0; 0; 0;
  0; 32; 32; 32; 32; 32; 0; 0; 32; 0; 0; 0; 0; 80; 80; 80; 0; 0; 0; 0; 0; 0; 0; 0; 0; 80; 80; 248; 80; 80; 248; 80; 80; 0; 0; 0;
  16; 16; 56; 64; 32; 16; 8; 112; 32; 32; 0; 0; 0; 64; 160; 168; 80; 32; 80; 168; 40; 16; 0; 0; 0; 64; 160; 160; 64; 168; 144; 144; 104; 0; 0; 0;
  0; 32; 32; 32; 0; 0; 0; 0; 0; 0; 0; 0; 0; 16; 32; 32; 64; 64; 64; 64; 32; 32; 16; 0; 0; 64; 32; 32; 16; 16; 16; 16; 32; 32; 64; 0;
  0; 0; 0; 32; 168; 112; 168; 32; 0; 0; 0; 0; 0; 0; 0; 32; 32; 248; 32; 32; 0; 0; 0; 0; 0; 0; 0; 0; 0; 0; 0; 96; 96; 32; 64; 0;
  0; 0; 0; 0; 0; 248; 0; 0; 0; 0; 0; 0; 0; 0; 0; 0; 0; 0; 0; 96; 96; 0; 0; 0; 0; 0; 16; 16; 32; 32; 64; 64; 128; 128; 0; 0;
  0; 0; 112; 136; 152; 168; 200; 136; 112; 0; 0; 0; 0; 0; 32; 96; 160; 32; 32; 32; 248; 0; 0; 0; 0; 0; 112; 136; 8; 16; 32; 64; 248; 0; 0; 0;
  0; 0; 248; 8; 16; 48; 8; 136; 112; 0; 0; 0; 0; 0; 16; 48; 80; 144; 248; 16; 16; 0; 0; 0; 0; 0; 248; 128; 240; 8; 8; 136; 112; 0; 0; 0;
  0; 0; 48; 64; 128; 240; 136; 136; 112; 0; 0; 0; 0; 0; 248; 8; 16; 16; 32; 32; 32; 0; 0; 0; 0; 0; 112; 136; 136; 112; 136; 136; 112; 0; 0; 0;
  0; 0; 112; 136; 136; 120; 8; 16; 96; 0; 0; 0; 0; 0; 0; 96; 96; 0; 0; 96; 96; 0; 0; 0; 0; 0; 0; 96; 96; 0; 0; 96; 96; 32; 64; 0;
  0; 0; 8; 16; 32; 64; 32; 16; 8; 0; 0; 0; 0; 0; 0; 0; 248; 0; 248; 0; 0; 0; 0; 0; 0; 0; 128; 64; 32; 16; 32; 64; 128; 0; 0; 0;
  0; 112; 136; 8; 16; 32; 0; 0; 32; 0; 0; 0; 0; 112; 136; 136; 152; 168; 184; 128; 128; 120; 0; 0; 0; 0; 32; 80; 136; 136; 248; 136; 136; 0; 0; 0;
  0; 0; 240; 136; 136; 240; 136; 136; 240; 0; 0; 0; 0; 0; 56; 64; 128; 128; 128; 64; 56; 0; 0; 0; 0; 0; 240; 136; 136; 136; 136; 144; 224; 0; 0; 0;
  0; 0; 248; 128; 128; 240; 128; 128; 248; 0; 0; 0; 0; 0; 248; 128; 128; 240; 128; 128; 128; 0; 0; 0; 0; 0; 56; 64; 128; 152; 136; 72; 56; 0; 0; 0;
  0; 0; 136; 136; 136; 248; 136; 136; 136; 0; 0; 0; 0; 0; 112; 32; 32; 32; 32; 32; 112; 0; 0; 0; 0; 0; 8; 8; 8; 8; 136; 136; 112; 0; 0; 0;
  0; 0; 136; 144; 160; 192; 160; 144; 136; 0; 0; 0; 0; 0; 128; 128; 128; 128; 128; 128; 248; 0; 0; 0; 0; 0; 136; 216; 168; 168; 136; 136; 136; 0; 0; 0;
  0; 0; 136; 200; 168; 152; 136; 136; 136; 0; 0; 0; 0; 0; 112; 136; 136; 136; 136; 136; 112; 0; 0; 0; 0; 0; 240; 136; 136; 240; 128; 128; 128; 0; 0; 0;
  0; 0; 112; 136; 136; 136; 136; 136; 112; 16; 8; 0; 0; 0; 240; 136; 136; 240; 160; 144; 136; 0; 0; 0; 0; 0; 120; 128; 128; 112; 8; 8; 240; 0; 0; 0;
  0; 0; 248; 32; 32; 32; 32; 32; 32; 0; 0; 0; 0; 0; 136; 136; 136; 136; 136; 136; 112; 0; 0; 0; 0; 0; 136; 136; 136; 80; 80; 32; 32; 0; 0; 0;
  0; 0; 136; 136; 136; 168; 168; 168; 216; 0; 0; 0; 0; 0; 136; 136; 80; 32; 80; 136; 136; 0; 0; 0; 0; 0; 136; 136; 80; 32; 32; 32; 32; 0; 0; 0;
  0; 0; 248; 16; 32; 32; 64; 64; 248; 0; 0; 0; 0; 112; 64; 64; 64; 64; 64; 64; 64; 64; 112; 0; 0; 0; 128; 128; 64; 64; 32; 32; 16; 16; 0; 0;
  0; 112; 16; 16; 16; 16; 16; 16; 16; 16; 112; 0; 0; 0; 32; 80; 136; 0; 0; 0; 0; 0; 0; 0; 0; 0; 0; 0; 0; 0; 0; 0; 0; 0; 252; 0;
  0; 64; 32; 16; 0; 0; 0; 0; 0; 0; 0; 0; 0; 0; 0; 0; 112; 8; 120; 136; 120; 0; 0; 0; 0; 0; 128; 128; 240; 136; 136; 136; 240; 0; 0; 0;
  0; 0; 0; 0; 120; 128; 128; 128; 120; 0; 0; 0; 0; 0; 8; 8; 120; 136; 136; 136; 120; 0; 0; 0; 0; 0; 0; 0; 112; 136; 248; 128; 120; 0; 0; 0;
  0; 0; 56; 64; 248; 64; 64; 64; 64; 0; 0; 0; 0; 0; 0; 0; 120; 136; 136; 136; 120; 8; 112; 0; 0; 0; 128; 128; 240; 136; 136; 136; 136; 0; 0; 0;
  0; 0; 32; 0; 96; 32; 32; 32; 112; 0; 0; 0; 0; 0; 16; 0; 48; 16; 16; 16; 16; 16; 96; 0; 0; 0; 128; 128; 144; 160; 224; 144; 136; 0; 0; 0;
  0; 0; 96; 32; 32; 32; 32; 32; 112; 0; 0; 0; 0; 0; 0; 0; 216; 168; 168; 168; 168; 0; 0; 0; 0; 0; 0; 0; 240; 136; 136; 136; 136; 0; 0; 0;
  0; 0; 0; 0; 112; 136; 136; 136; 112; 0; 0; 0; 0; 0; 0; 0; 240; 136; 136; 136; 240; 128; 128; 0; 0; 0; 0; 0; 120; 136; 136; 136; 120; 8; 8; 0;
  0; 0; 0; 0; 184; 192; 128; 128; 128; 0; 0; 0; 0; 0; 0; 0; 120; 128; 112; 8; 240; 0; 0; 0; 0; 0; 0; 64; 248; 64; 64; 64; 56; 0; 0; 0;
  0; 0; 0; 0; 136; 136; 136; 136; 120; 0; 0; 0; 0; 0; 0; 0; 136; 136; 136; 80; 32; 0; 0; 0; 0; 0; 0; 0; 136; 136; 168; 168; 216; 0; 0; 0;
  0; 0; 0; 0; 136; 80; 32; 80; 136; 0; 0; 0; 0; 0; 0; 0; 136; 136; 136; 136; 120; 8; 112; 0; 0; 0; 0; 0; 248; 16; 32; 64; 248; 0; 0; 0;
  24; 32; 32; 32; 32; 192; 32; 32; 32; 32; 24; 0; 0; 32; 32; 32; 32; 32; 32; 32; 32; 32; 0; 0; 192; 32; 32; 32; 32; 24; 32; 32; 32; 32; 192; 0;
  0; 0; 72; 168; 144; 0; 0; 0; 0; 0; 0; 0; 0; 0; 0; 0; 0; 0; 0; 0; 0; 0; 0; 0].

(** ... the upper half ... *)
Definition psf_glyphs_upper : list Z := [
  0; 0; 0; 0; 0; 0; 0; 0; 0; 0; 0; 0; 0; 0; 0; 0; 0; 0; 0; 0; 0; 0; 0; 0; 0; 0; 0; 0; 0; 0; 0; 0; 0; 0; 0; 0;
  0; 0; 0; 0; 0; 0; 0; 0; 0; 0; 0; 0; 0; 0; 0; 0; 0; 0; 0; 0; 0; 0; 0; 0; 0; 0; 0; 0; 0; 0; 0; 0; 0; 0; 0; 0;
  0; 0; 0; 0; 0; 0; 0; 0; 0; 0; 0; 0; 0; 0; 0; 0; 0; 0; 0; 0; 0; 0; 0; 0; 0; 0; 0; 0; 0; 0; 0; 0; 0; 0; 0; 0;
  0; 0; 0; 0; 0; 0; 0; 0; 0; 0; 0; 0; 0; 0; 0; 0; 0; 0; 0; 0; 0; 0; 0; 0; 0; 0; 0; 0; 0; 0; 0; 0; 0; 0; 0; 0;
  0; 0; 0; 0; 0; 0; 0; 0; 0; 0; 0; 0; 0; 0; 0; 0; 0; 0; 0; 0; 0; 0; 0; 0; 0; 0; 0; 0; 0; 0; 0; 0; 0; 0; 0; 0;
  0; 0; 0; 0; 0; 0; 0; 0; 0; 0; 0; 0; 0; 0; 0; 0; 0; 0; 0; 0; 0; 0; 0; 0; 0; 0; 0; 0; 0; 0; 0; 0; 0; 0; 0; 0;
  0; 0; 0; 0; 0; 0; 0; 0; 0; 0; 0; 0; 0; 0; 0; 0; 0; 0; 0; 0; 0; 0; 0; 0; 0; 0; 0; 0; 0; 0; 0; 0; 0; 0; 0; 0;
  0; 0; 0; 0; 0; 0; 0; 0; 0; 0; 0; 0; 0; 0; 0; 0; 0; 0; 0; 0; 0; 0; 0; 0; 0; 0; 0; 0; 0; 0; 0; 0; 0; 0; 0; 0;
  0; 0; 0; 0; 0; 0; 0; 0; 0; 0; 0; 0; 0; 0; 0; 0; 0; 0; 0; 0; 0; 0; 0; 0; 0; 0; 0; 0; 0; 0; 0; 0; 0; 0; 0; 0;
  0; 0; 0; 0; 0; 0; 0; 0; 0; 0; 0; 0; 0; 0; 0; 0; 0; 0; 0; 0; 0; 0; 0; 0; 0; 0; 0; 0; 0; 0; 0; 0; 0; 0; 0; 0;
  0; 0; 0; 0; 0; 0; 0; 0; 0; 0; 0; 0; 0; 0; 0; 0; 0; 0; 0; 0; 0; 0; 0; 0; 0; 0; 0; 0; 0; 0; 0; 0; 0; 0; 0; 0;
  0; 0; 0; 32; 0; 0; 32; 32; 32; 32; 32; 0; 0; 32; 32; 112; 128; 128; 128; 112; 32; 32; 0; 0; 0; 0; 48; 64; 64; 240; 64; 64; 248; 0; 0; 0;
  0; 0; 0; 136; 112; 80; 112; 136; 0; 0; 0; 0; 0; 0; 136; 80; 32; 248; 32; 248; 32; 0; 0; 0; 0; 32; 32; 32; 32; 0; 32; 32; 32; 32; 0; 0;
  0; 0; 0; 0; 0; 0; 0; 0; 0; 0; 0; 0; 0; 0; 80; 0; 0; 0; 0; 0; 0; 0; 0; 0; 0; 0; 120; 132; 148; 164; 148; 132; 120; 0; 0; 0;
  0; 0; 0; 0; 0; 0; 0; 0; 0; 0; 0; 0; 0; 0; 0; 0; 40; 80; 160; 80; 40; 0; 0; 0; 0; 0; 0; 0; 0; 0; 0; 0; 0; 0; 0; 0;
  0; 0; 0; 0; 0; 248; 0; 0; 0; 0; 0; 0; 0; 0; 0; 0; 0; 0; 0; 0; 0; 0; 0; 0; 0; 0; 0; 0; 0; 0; 0; 0; 0; 0; 0; 0;
  0; 0; 96; 144; 144; 96; 0; 0; 0; 0; 0; 0; 0; 0; 0; 0; 0; 0; 0; 0; 0; 0; 0; 0; 0; 0; 0; 0; 0; 0; 0; 0; 0; 0; 0; 0;
  0; 0; 0; 0; 0; 0; 0; 0; 0; 0; 0; 0; 0; 16; 32; 0; 0; 0; 0; 0; 0; 0; 0; 0; 0; 0; 0; 0; 0; 0; 0; 0; 0; 0; 0; 0;
  0; 0; 0; 0; 0; 0; 0; 0; 0; 0; 0; 0; 0; 0; 0; 0; 0; 0; 0; 0; 0; 0; 0; 0; 0; 0; 0; 0; 0; 0; 0; 0; 0; 32; 192; 0;
  0; 0; 0; 0; 0; 0; 0; 0; 0; 0; 0; 0; 0; 0; 0; 0; 0; 0; 0; 0; 0; 0; 0; 0; 0; 0; 0; 0; 160; 80; 40; 80; 160; 0; 0; 0;
  0; 0; 0; 0; 0; 0; 0; 0; 0; 0; 0; 0; 0; 0; 0; 0; 0; 0; 0; 0; 0; 0; 0; 0; 0; 0; 0; 0; 0; 0; 0; 0; 0; 0; 0; 0;
  0; 0; 0; 32; 0; 0; 32; 64; 128; 136; 112; 0; 64; 32; 0; 32; 32; 80; 112; 136; 136; 0; 0; 0; 16; 32; 0; 32; 32; 80; 112; 136; 136; 0; 0; 0;
  32; 80; 0; 32; 32; 80; 112; 136; 136; 0; 0; 0; 104; 176; 0; 32; 32; 80; 112; 136; 136; 0; 0; 0; 80; 0; 32; 32; 80; 80; 112; 136; 136; 0; 0; 0;
  32; 80; 80; 32; 32; 80; 112; 136; 136; 0; 0; 0; 0; 0; 56; 48; 80; 88; 112; 144; 152; 0; 0; 0; 0; 0; 56; 64; 128; 128; 128; 64; 56; 16; 96; 0;
  64; 32; 0; 248; 128; 240; 128; 128; 248; 0; 0; 0; 16; 32; 0; 248; 128; 240; 128; 128; 248; 0; 0; 0; 32; 80; 0; 248; 128; 240; 128; 128; 248; 0; 0; 0;
  80; 0; 248; 128; 128; 240; 128; 128; 248; 0; 0; 0; 64; 32; 0; 112; 32; 32; 32; 32; 112; 0; 0; 0; 16; 32; 0; 112; 32; 32; 32; 32; 112; 0; 0; 0;
  32; 80; 0; 112; 32; 32; 32; 32; 112; 0; 0; 0; 80; 0; 112; 32; 32; 32; 32; 32; 112; 0; 0; 0; 0; 0; 240; 72; 72; 232; 72; 80; 224; 0; 0; 0;
  104; 176; 0; 136; 200; 168; 152; 136; 136; 0; 0; 0; 64; 32; 0; 112; 136; 136; 136; 136; 112; 0; 0; 0; 16; 32; 0; 112; 136; 136; 136; 136; 112; 0; 0; 0;
  32; 80; 0; 112; 136; 136; 136; 136; 112; 0; 0; 0; 104; 176; 0; 112; 136; 136; 136; 136; 112; 0; 0; 0; 80; 0; 112; 136; 136; 136; 136; 136; 112; 0; 0; 0;
  0; 0; 0; 0; 72; 48; 48; 72; 0; 0; 0; 0; 0; 8; 112; 152; 152; 168; 200; 200; 112; 128; 0; 0; 64; 32; 136; 136; 136; 136; 136; 136; 112; 0; 0; 0;
  16; 32; 136; 136; 136; 136; 136; 136; 112; 0; 0; 0; 32; 80; 0; 136; 136; 136; 136; 136; 112; 0; 0; 0; 80; 0; 136; 136; 136; 136; 136; 136; 112; 0; 0; 0;
  16; 32; 0; 136; 136; 80; 32; 32; 32; 0; 0; 0; 0; 0; 128; 240; 136; 136; 136; 240; 128; 0; 0; 0; 0; 0; 112; 136; 144; 176; 136; 136; 176; 0; 0; 0;
  0; 64; 32; 0; 112; 8; 120; 136; 120; 0; 0; 0; 0; 16; 32; 0; 112; 8; 120; 136; 120; 0; 0; 0; 32; 80; 0; 0; 112; 8; 120; 136; 120; 0; 0; 0;
  104; 176; 0; 0; 112; 8; 120; 136; 120; 0; 0; 0; 0; 0; 80; 0; 112; 8; 120; 136; 120; 0; 0; 0; 48; 72; 48; 0; 112; 8; 120; 136; 120; 0; 0; 0;
  0; 0; 0; 0; 216; 40; 120; 160; 216; 0; 0; 0; 0; 0; 0; 0; 112; 128; 128; 128; 112; 32; 192; 0; 0; 64; 32; 0; 112; 136; 248; 128; 120; 0; 0; 0;
  0; 16; 32; 0; 112; 136; 248; 128; 120; 0; 0; 0; 32; 80; 0; 0; 112; 136; 248; 128; 120; 0; 0; 0; 0; 0; 80; 0; 112; 136; 248; 128; 120; 0; 0; 0;
  0; 64; 32; 0; 96; 32; 32; 32; 112; 0; 0; 0; 0; 16; 32; 0; 96; 32; 32; 32; 112; 0; 0; 0; 32; 80; 0; 0; 96; 32; 32; 32; 112; 0; 0; 0;
  0; 0; 80; 0; 96; 32; 32; 32; 112; 0; 0; 0; 32; 56; 112; 16; 120; 136; 136; 136; 112; 0; 0; 0; 104; 176; 0; 0; 240; 136; 136; 136; 136; 0; 0; 0;
  0; 64; 32; 0; 112; 136; 136; 136; 112; 0; 0; 0; 0; 16; 32; 0; 112; 136; 136; 136; 112; 0; 0; 0; 32; 80; 0; 0; 112; 136; 136; 136; 112; 0; 0; 0;
  104; 176; 0; 0; 112; 136; 136; 136; 112; 0; 0; 0; 0; 0; 80; 0; 112; 136; 136; 136; 112; 0; 0; 0; 0; 0; 0; 32; 0; 248; 0; 32; 0; 0; 0; 0;
  0; 0; 0; 8; 112; 152; 168; 200; 112; 128; 0; 0; 0; 64; 32; 0; 136; 136; 136; 136; 120; 0; 0; 0; 0; 16; 32; 0; 136; 136; 136; 136; 120; 0; 0; 0;
  32; 80; 0; 0; 136; 136; 136; 136; 120; 0; 0; 0; 0; 0; 80; 0; 136; 136; 136; 136; 120; 0; 0; 0; 0; 16; 32; 0; 136; 136; 136; 136; 120; 8; 112; 0;
  0; 0; 128; 128; 240; 136; 136; 136; 240; 128; 128; 0; 0; 0; 80; 0; 136; 136; 136; 136; 120; 8; 112; 0].

(** ... and the table of the characters they stand for. *)
Definition psf_unicode_table : list Z := [
  255; 255; 226; 150; 146; 255; 255; 255; 255; 255; 194; 176; 255; 255; 255; 255; 226; 148; 152; 255; 226; 148; 144; 255; 226; 148; 140; 255; 226; 148; 148; 255; 226; 148; 188; 255;
  255; 255; 226; 148; 128; 255; 255; 255; 226; 148; 156; 255; 226; 148; 164; 255; 226; 148; 180; 255; 226; 148; 172; 255; 226; 148; 130; 255; 255; 255; 255; 255; 194; 163; 255; 255;
  32; 255; 33; 255; 34; 255; 35; 255; 36; 255; 37; 255; 38; 255; 39; 255; 40; 255; 41; 255; 42; 255; 43; 255; 44; 255; 45; 255; 46; 255; 47; 255; 48; 255; 49; 255;
  50; 255; 51; 255; 52; 255; 53; 255; 54; 255; 55; 255; 56; 255; 57; 255; 58; 255; 59; 255; 60; 255; 61; 255; 62; 255; 63; 255; 64; 255; 65; 255; 66; 255; 67; 255;
  68; 255; 69; 255; 70; 255; 71; 255; 72; 255; 73; 255; 74; 255; 75; 255; 76; 255; 77; 255; 78; 255; 79; 255; 80; 255; 81; 255; 82; 255; 83; 255; 84; 255; 85; 255;
  86; 255; 87; 255; 88; 255; 89; 255; 90; 255; 91; 255; 92; 255; 93; 255; 94; 255; 95; 255; 96; 255; 97; 255; 98; 255; 99; 255; 100; 255; 101; 255; 102; 255; 103; 255;
  104; 255; 105; 255; 106; 255; 107; 255; 108; 255; 109; 255; 110; 255; 111; 255; 112; 255; 113; 255; 114; 255; 115; 255; 116; 255; 117; 255; 118; 255; 119; 255; 120; 255; 121; 255;
  122; 255; 123; 255; 124; 255; 125; 255; 126; 255; 255; 255; 255; 255; 255; 255; 255; 255; 255; 255; 255; 255; 255; 255; 255; 255; 255; 255; 255; 255; 255; 255; 255; 255; 255; 255;
  255; 255; 255; 255; 255; 255; 255; 194; 160; 255; 194; 161; 255; 194; 162; 255; 194; 163; 255; 194; 164; 255; 194; 165; 255; 194; 166; 255; 255; 194; 168; 255; 194; 169; 255; 255;
  194; 171; 255; 255; 194; 173; 255; 255; 255; 194; 176; 255; 255; 255; 255; 194; 180; 255; 255; 255; 255; 194; 184; 255; 255; 255; 194; 187; 255; 255; 255; 255; 194; 191; 255; 195;
  128; 255; 195; 129; 255; 195; 130; 255; 195; 131; 255; 195; 132; 255; 195; 133; 255; 195; 134; 255; 195; 135; 255; 195; 136; 255; 195; 137; 255; 195; 138; 255; 195; 139; 255; 195;
  140; 255; 195; 141; 255; 195; 142; 255; 195; 143; 255; 195; 144; 255; 195; 145; 255; 195; 146; 255; 195; 147; 255; 195; 148; 255; 195; 149; 255; 195; 150; 255; 195; 151; 255; 195;
  152; 255; 195; 153; 255; 195; 154; 255; 195; 155; 255; 195; 156; 255; 195; 157; 255; 195; 158; 255; 195; 159; 255; 195; 160; 255; 195; 161; 255; 195; 162; 255; 195; 163; 255; 195;
  164; 255; 195; 165; 255; 195; 166; 255; 195; 167; 255; 195; 168; 255; 195; 169; 255; 195; 170; 255; 195; 171; 255; 195; 172; 255; 195; 173; 255; 195; 174; 255; 195; 175; 255; 195;
  176; 255; 195; 177; 255; 195; 178; 255; 195; 179; 255; 195; 180; 255; 195; 181; 255; 195; 182; 255; 195; 183; 255; 195; 184; 255; 195; 185; 255; 195; 186; 255; 195; 187; 255; 195;
  188; 255; 195; 189; 255; 195; 190; 255; 195; 191; 255; 0].

Definition display_font : list Z := psf_header_bytes ++ psf_glyphs_ascii ++ psf_glyphs_upper ++ psf_unicode_table.

Definition display_font_size : Z := 3655.

(** The fields of the header the display uses ([psf2_header_t]). *)
Record psf2_header := mk_psf2 { header_size : Z; f_length : Z; charsize : Z; f_height : Z; f_width : Z }.

Definition font_header : psf2_header :=
  let word o := default 0 (ld32 display_font o) in
  mk_psf2 (word 8) (word 16) (word 20) (word 24) (word 28).

(** The row [iy] of character [c]'s bitmap: [bitmap[c * charsize + iy]], the
    index computed as an unsigned word from the signed character. *)
Definition glyph_row (c iy : Z) : option Z :=
  zget display_font (header_size font_header + u32 (u32 (c * charsize font_header) + iy)).
