(* ===== verification/Display.v ===== *)
(** The display server ([programs/display/src/textmode.c], [framebuffer.c],
    [display.c], [include/display/display.h]): a character console on the VGA
    text buffer or on a frame buffer of pixels.

    The two backends are the code's two sets of function pointers.  The mapped
    memory they draw to is a list of cells or of pixels; an access outside it
    faults. *)

From S2P Require Import Prelude Interfaces Kernel Mem Nameserver Devices Font.
#[local] Open Scope Z_scope.

Definition VGA_TEXT_WIDTH : Z := 80.
Definition VGA_TEXT_HEIGHT : Z := 25.
Definition VGA_TEXT_COLOR : Z := 0x17.
Definition GRAPHIC_FOREGROUND : Z := 0x00d0d0d0.
Definition GRAPHIC_BACKGROUND : Z := 0xa0181818.
Definition SPACE : Z := 32.

Inductive backend : Type := TextMode | Graphic.

(** [display_t]; the union is two fields, [vga_char_t] a pair (text, color). *)
Record display := mk_display {
  d_backend : backend;
  textbuf : list (Z * Z); pixelbuf : list Z;
  fb_width : Z; fb_height : Z; d_width : Z; d_height : Z; d_x : Z; d_y : Z;
  buf_cap : Z; d_buf : c4_mem_object; notify_cap : Z
}.

Definition set_text (b : list (Z * Z)) (s : display) : display :=
  mk_display (d_backend s) b (pixelbuf s) (fb_width s) (fb_height s) (d_width s) (d_height s) (d_x s) (d_y s)
    (buf_cap s) (d_buf s) (notify_cap s).
Definition set_pixels (b : list Z) (s : display) : display :=
  mk_display (d_backend s) (textbuf s) b (fb_width s) (fb_height s) (d_width s) (d_height s) (d_x s) (d_y s)
    (buf_cap s) (d_buf s) (notify_cap s).
Definition set_pos (x y : Z) (s : display) : display :=
  mk_display (d_backend s) (textbuf s) (pixelbuf s) (fb_width s) (fb_height s) (d_width s) (d_height s) x y
    (buf_cap s) (d_buf s) (notify_cap s).

Abbreviation D := (M display).

Definition load_cell (i : Z) : D (Z * Z) := getsome (λ s, zget (textbuf s) i).
Definition store_cell (i : Z) (v : Z * Z) : D unit := b ← getsome (λ s, zset (textbuf s) i v); modify (set_text b).
Definition load_pixel (i : Z) : D Z := getsome (λ s, zget (pixelbuf s) i).
Definition store_pixel (i v : Z) : D unit := b ← getsome (λ s, zset (pixelbuf s) i v); modify (set_pixels b).

(** [for ( i = 0; i < n; i++ )] for an unsigned bound. *)
Definition upto (n : Z) (body : Z → D unit) : D unit := for_loop (Z.to_nat n) 0 body.

(** ** Text mode *)

(** [x] and [y] are parameters the code does not use. *)
Definition text_draw_char (x y c : Z) : D unit :=
  s ← get; store_cell (u32 (u32 (d_width s * d_y s) + d_x s)) (u8 c, VGA_TEXT_COLOR).

Definition copy_cell (foo bar : Z) : D unit := v ← load_cell bar; store_cell foo v.
Definition blank_cell (i : Z) : D unit := v ← load_cell i; store_cell i (SPACE, v.2).

Definition text_scroll : D unit :=
  s ← get;
  for_loop (Z.to_nat (d_height s - 1)) 1 (λ i,
    let foo := u32 (d_width s * (i - 1)) in
    let bar := u32 (d_width s * i) in
    upto (d_width s) (λ k, copy_cell (foo + k) (bar + k));;
    upto (d_width s) (λ k, blank_cell (foo + d_width s + k))).

Definition text_clear : D unit :=
  modify (set_pos 0 0);;
  s ← get;
  upto (u32 (d_width s * d_height s)) (λ i, store_cell i (SPACE, VGA_TEXT_COLOR)).

(** ** The frame buffer *)
Definition framebuf_draw_char (x y c : Z) : D unit :=
  s ← get;
  let fw := f_width font_header in
  let mod_ := Z.shiftl 1 (fw + 1) in
  let place := u32 (u32 (y * fb_width s) * f_height font_header) + u32 (x * fw) in
  upto (f_height font_header) (λ iy,
    upto fw (λ ix,
      bits ← getsome (λ _, glyph_row c iy);
      let p := place + iy * fb_width s + ix in
      if truthy (Z.land bits (Z.shiftr mod_ ix)) then store_pixel p GRAPHIC_FOREGROUND
      else store_pixel p GRAPHIC_BACKGROUND)).

Definition framebuf_clear : D unit := mret tt.

Definition framebuf_scroll : D unit :=
  s ← get;
  let rowsize := fb_width s in
  let rows := u32 (fb_height s - f_height font_header - 1) in
  upto rows (λ i,
    let offset := u32 (i * rowsize) in
    let next := u32 ((i + f_height font_header) * rowsize) in
    upto rowsize (λ k, v ← load_pixel (u32 (k + next)); store_pixel (u32 (k + offset)) v)).

(** ** The console, on either backend *)
Definition draw_char (x y c : Z) : D unit :=
  s ← get; match d_backend s with TextMode => text_draw_char x y c | Graphic => framebuf_draw_char x y c end.
Definition scroll : D unit :=
  s ← get; match d_backend s with TextMode => text_scroll | Graphic => framebuf_scroll end.

Definition do_newline : D unit :=
  s ← get;
  let y := u32 (d_y s + 1) in
  modify (set_pos (d_x s) y);;
  (if u32 (d_height s - 1) <=? y then
     scroll;; modify (λ s, set_pos (d_x s) (u32 (d_height s - 1)) s)
   else mret tt);;
  modify (λ s, set_pos 0 (d_y s) s).

(** [c] is a [char]: the message word's low byte, signed. *)
Definition do_draw_char (word : Z) : D unit :=
  let c := i8 word in
  s ← get;
  if c =? 10 then do_newline
  else if (c =? 8) && (0 <? d_x s) then
    modify (set_pos (u32 (d_x s - 1)) (d_y s));;
    draw_char (u32 (d_x s - 1)) (d_y s) SPACE
  else
    draw_char (d_x s) (d_y s) c;;
    modify (λ s, set_pos (u32 (d_x s + 1)) (d_y s) s);;
    if d_width s <=? d_x s then do_newline else mret tt.

Definition do_set_position (x y : Z) : D unit :=
  s ← get; if (x <? d_width s) && (y <? d_height s) then modify (set_pos x y) else mret tt.

Definition do_clear : D unit := s ← get; upto (d_height s) (λ _, do_newline);; do_set_position 0 0.

(** ** The server *)

(** What the boot loader says about the screen, read from [BOOTINFO_ADDR]. *)
Record bootinfo := mk_boot { fb_exists : bool; boot_width : Z; boot_height : Z; boot_addr : Z }.

Section server.
Context `{KernelEnv} {R : Type} `{Allocator R} (boot : bootinfo).

(** The server's process and its console. *)
Record dserver := mk_dserver { ds_proc : process R; ds_display : display }.
Abbreviation V := (M dserver).

Definition dp {A} (m : M (process R) A) : V A := zoom ds_proc (λ p s, mk_dserver p (ds_display s)) m.
Definition dk {A} (m : K A) : V A := dp (on_kernel m).
Definition dd {A} (m : D A) : V A := zoom ds_display (λ d s, mk_dserver (ds_proc s) d) m.

Definition send_info (port : Z) : V unit :=
  s ← get;
  let d := ds_display s in
  dk (c4_msg_send (mk_msg CONSOLE_MSG_INFO [d_x d; d_y d; d_width d; d_height d]) port);; mret tt.

Definition send_framebuf_info (port : Z) : V unit :=
  s ← get;
  let d := ds_display s in
  dk (c4_msg_send (mk_msg FRAMEBUFFER_MSG_INFO [fb_width d; fb_height d; 32]) port);; mret tt.

Definition send_framebuffer (port : Z) : V unit :=
  (if fb_exists boot then mret tt else dk (c4_msg_send (mk_msg FRAMEBUFFER_MSG_ERROR []) port);; mret tt);;
  s ← get;
  dk (c4_cspace_grant (buf_cap (ds_display s)) port (caps [CAP_ACCESS; CAP_MODIFY; CAP_MULTI_USE; CAP_SHARE]));; mret tt.

Definition no_object : c4_mem_object := mk_memobj 0 0 0 false.

(** [cells]: the mapped text page.  The request is for one page, at a size of
    one byte. *)
Definition textbuffer_init (cells : list (Z * Z)) : V unit :=
  modify (λ s, mk_dserver (ds_proc s)
    (mk_display TextMode cells [] 0 0 VGA_TEXT_WIDTH VGA_TEXT_HEIGHT 0 0 0 no_object 0));;
  dk (c4_request_physical 0xb8000 0xb8000 1 (Z.lor PAGE_READ PAGE_WRITE));;
  dd (upto (VGA_TEXT_WIDTH * VGA_TEXT_HEIGHT) (λ i, store_cell i (SPACE, VGA_TEXT_COLOR))).

Definition fill_background (w h : Z) : D unit :=
  upto h (λ y, upto w (λ x, store_pixel (u32 (u32 (y * w) + x)) GRAPHIC_BACKGROUND)).

(** [pixels]: the mapped frame buffer. *)
Definition framebuffer_init_raw (pixels : list Z) : V unit :=
  let size := u32 (u32 (boot_width boot * boot_height boot) * 4) in
  let d cap := mk_display Graphic [] pixels (boot_width boot) (boot_height boot)
    (boot_width boot / f_width font_header) (u32 (boot_height boot / f_height font_header - 1)) 0 0 cap no_object 0 in
  cap ← dk (c4_request_physical 0xfb000000 (boot_addr boot) (size / 4096 + 1) (Z.lor PAGE_READ PAGE_WRITE));
  modify (λ s, mk_dserver (ds_proc s) (d cap));;
  dd (fill_background (boot_width boot) (boot_height boot)).

(** ["/dev/framebuffer"], ["/dev/console-alert"], ["/dev/console"]. *)
Definition framebuffer_name : list Z := [47; 100; 101; 118; 47; 102; 114; 97; 109; 101; 98; 117; 102; 102; 101; 114].
Definition alert_name : list Z := [47; 100; 101; 118; 47; 99; 111; 110; 115; 111; 108; 101; 45; 97; 108; 101; 114; 116].
Definition console_name : list Z := [47; 100; 101; 118; 47; 99; 111; 110; 115; 111; 108; 101].

(** Look a name up until it is there, at most [n] times. *)
Fixpoint lookup_retry (n : nat) (name : list Z) : V Z :=
  match n with
  | O => mret 0
  | S n' => serv ← dk (nameserver_lookup C4_NAMESERVER name); if serv =? 0 then lookup_retry n' name else mret serv
  end.

(** [pixels]: the memory of the buffer the other server shares; when it could
    not be mapped the pointer is [NULL]. *)
Definition framebuffer_init_nested (pixels : list Z) : V unit :=
  serv ← lookup_retry 100 framebuffer_name;
  info ← dk (framebuffer_get_info serv);
  cap ← dk (framebuffer_get_buffer serv);
  let size := u32 (u32 (fbi_width info * fbi_height info) * 4) in
  b ← dp (c4_memobj_region_map cap no_object size (Z.lor PAGE_READ PAGE_WRITE));
  alert ← dk (nameserver_lookup C4_NAMESERVER alert_name);
  modify (λ s, mk_dserver (ds_proc s)
    (mk_display Graphic [] (if b.1 : bool then pixels else []) (fbi_width info) (fbi_height info) (fbi_width info / f_width font_header)
       (u32 (fbi_height info / f_height font_header - 1)) 0 0 cap b.2 alert));;
  dd (fill_background (fbi_width info) (fbi_height info)).

(** One message, received on the server's port or on the endpoint granted. *)
Definition display_serve : V unit :=
  r ← dk (c4_msg_recieve C4_SERV_PORT);
  q ← (if mtype r.2 =? MESSAGE_TYPE_GRANT_OBJECT then
         let temp := mget r.2 5 in r' ← dk (c4_msg_recieve temp); mret (temp, r'.2)
       else mret (0, r.2));
  let temp := q.1 in let msg := q.2 in
  (if mtype msg =? CONSOLE_MSG_PUT_CHAR then dd (do_draw_char (mget msg 0))
   else if mtype msg =? CONSOLE_MSG_SET_POSITION then dd (do_set_position (mget msg 0) (mget msg 1))
   else if mtype msg =? CONSOLE_MSG_CLEAR then dd do_clear
   else if mtype msg =? CONSOLE_MSG_GET_INFO then send_info temp
   else if mtype msg =? FRAMEBUFFER_MSG_INFO then send_framebuf_info temp
   else if mtype msg =? FRAMEBUFFER_MSG_GET_BUFFER then send_framebuffer temp
   else mret tt);;
  if temp =? 0 then mret tt else dk (c4_cspace_remove C4_CURRENT_CSPACE temp);; mret tt.

(** [main] up to its first [turns] messages; [nested] is the program's
    argument, the lists the memory the three backends map. *)
Definition main (nested : bool) (cells : list (Z * Z)) (raw shared : list Z) (turns : nat) : V unit :=
  (if nested then framebuffer_init_nested shared
   else if fb_exists boot then
     framebuffer_init_raw raw;; dk (nameserver_bind C4_NAMESERVER framebuffer_name C4_SERV_PORT)
   else textbuffer_init cells);;
  dk (nameserver_bind C4_NAMESERVER console_name C4_SERV_PORT);;
  for_loop turns 0 (λ _, display_serve).
End server.
