(* ===== verification/DisplaySpec.v ===== *)
(** What the console promises: scrolling moves every row up by one, and a
    sequence of console operations leaves neither the screen nor the mapped
    memory, on either backend, unless it draws a character the frame buffer's
    font does not have. *)

From S2P Require Import Prelude Interfaces Kernel Mem Devices Font Display.
#[local] Open Scope Z_scope.

(** ** Stepping *)
Lemma upto_inv (P : Z → display → Prop) n body s : 0 <= n → P 0 s →
  (∀ j s, 0 <= j < n → P j s → ∃ s', body j s = Ret (tt, s') ∧ P (j + 1) s') →
  ∃ s', upto n body s = Ret (tt, s') ∧ P n s'.
Proof.
  intros Hn H0 Hstep. destruct (for_loop_inv P body (Z.to_nat n) 0 s H0) as (s' & E & HP).
  - intros j t Hj. apply Hstep. lia.
  - exists s'. split; [exact E|]. by replace (0 + Z.of_nat (Z.to_nat n)) with n in HP by lia.
Qed.

Lemma store_cell_ok i v s : 0 <= i < Z.of_nat (length (textbuf s)) →
  store_cell i v s = Ret (tt, set_text (<[Z.to_nat i := v]> (textbuf s)) s).
Proof. intros. unfold store_cell. rewrite (bind_run _ _ _ _ s) by (unfold getsome; by rewrite zset_lt). done. Qed.

Lemma load_cell_ok i v s : zget (textbuf s) i = Some v → load_cell i s = Ret (v, s).
Proof. unfold load_cell, getsome. by intros ->. Qed.

Lemma store_pixel_ok i v s : 0 <= i < Z.of_nat (length (pixelbuf s)) →
  store_pixel i v s = Ret (tt, set_pixels (<[Z.to_nat i := v]> (pixelbuf s)) s).
Proof. intros. unfold store_pixel. rewrite (bind_run _ _ _ _ s) by (unfold getsome; by rewrite zset_lt). done. Qed.

(** ** Scrolling the text screen *)

(** A cell with its text blanked. *)
Definition blank (v : Z * Z) : Z * Z := (SPACE, v.2).

(** Whatever the loop does to the cells, the rest of the state stays. *)
Definition cells_are (s : display) (f : Z → option (Z * Z)) (t : display) : Prop :=
  ∃ b, t = set_text b s ∧ length b = length (textbuf s) ∧ ∀ j, zget b j = f j.

Lemma copy_row s f foo w t : 0 <= foo → 0 <= w → foo + w + w <= Z.of_nat (length (textbuf s)) →
  (∀ j, 0 <= j < Z.of_nat (length (textbuf s)) → is_Some (f j)) → cells_are s f t →
  ∃ t', upto w (λ k, copy_cell (foo + k) (foo + w + k)) t = Ret (tt, t') ∧
    cells_are s (λ j, if (foo <=? j) && (j <? foo + w) then f (j + w) else f j) t'.
Proof.
  intros Hfoo Hw Hlen Hf Ht.
  apply (upto_inv (λ n, cells_are s (λ j, if (foo <=? j) && (j <? foo + n) then f (j + w) else f j))); [done| |].
  - destruct Ht as (b & -> & Hb & Hj). exists b. split_and!; [done..|]. intros j. rewrite Hj. zbool; simpl; done || lia.
  - intros k t1 Hk (b & -> & Hb & Hj). unfold copy_cell.
    destruct (Hf (foo + w + k) ltac:(lia)) as [v Ev].
    rewrite (bind_run _ _ _ v (set_text b s)).
    2:{ apply load_cell_ok. simpl. rewrite Hj. zbool; simpl; try lia; done. }
    rewrite store_cell_ok by (simpl; lia). eexists. split; [done|].
    exists (<[Z.to_nat (foo + k) := v]> b). split_and!; [done|by rewrite length_insert|]. intros j.
    rewrite zget_insert, Hj by lia. destruct (Z.eqb_spec j (foo + k)) as [->|].
    + rewrite (proj2 (Z.leb_le _ _)), (proj2 (Z.ltb_lt _ _)) by lia. simpl. rewrite <-Ev. f_equal. lia.
    + zbool; simpl; done || lia.
Qed.

Lemma blank_row s f foo w t : 0 <= foo → 0 <= w → foo + w <= Z.of_nat (length (textbuf s)) →
  (∀ j, 0 <= j < Z.of_nat (length (textbuf s)) → is_Some (f j)) → cells_are s f t →
  ∃ t', upto w (λ k, blank_cell (foo + k)) t = Ret (tt, t') ∧
    cells_are s (λ j, if (foo <=? j) && (j <? foo + w) then blank <$> f j else f j) t'.
Proof.
  intros Hfoo Hw Hlen Hf Ht.
  apply (upto_inv (λ n, cells_are s (λ j, if (foo <=? j) && (j <? foo + n) then blank <$> f j else f j))); [done| |].
  - destruct Ht as (b & -> & Hb & Hj). exists b. split_and!; [done..|]. intros j. rewrite Hj. zbool; simpl; done || lia.
  - intros k t1 Hk (b & -> & Hb & Hj). unfold blank_cell.
    destruct (Hf (foo + k) ltac:(lia)) as [v Ev].
    rewrite (bind_run _ _ _ v (set_text b s)).
    2:{ apply load_cell_ok. simpl. rewrite Hj. zbool; simpl; try lia; done. }
    rewrite store_cell_ok by (simpl; lia). eexists. split; [done|].
    exists (<[Z.to_nat (foo + k) := blank v]> b). split_and!; [done|by rewrite length_insert|]. intros j.
    rewrite zget_insert, Hj by lia. destruct (Z.eqb_spec j (foo + k)) as [->|].
    + rewrite (proj2 (Z.leb_le _ _)), (proj2 (Z.ltb_lt _ _)) by lia. simpl. by rewrite Ev.
    + zbool; simpl; done || lia.
Qed.

Lemma cells_ext s f g t : cells_are s f t → (∀ j, f j = g j) → cells_are s g t.
Proof. intros (b & -> & Hb & Hj) E. exists b. split_and!; [done..|]. intros j. by rewrite Hj. Qed.

(** The cells once row [i] is about to be moved up. *)
Definition scrolled (b : list (Z * Z)) (w i : Z) (j : Z) : option (Z * Z) :=
  if (0 <=? j) && (j <? w * (i - 1)) then zget b (j + w)
  else if (w * (i - 1) <=? j) && (j <? w * i) && (2 <=? i) then blank <$> zget b j
  else zget b j.

Lemma scroll_row s i t : let w := d_width s in let b := textbuf s in
  1 <= i → 0 < w → w * i + w <= Z.of_nat (length b) → w * i + w < 2 ^ 32 → cells_are s (scrolled b w i) t →
  ∃ t', (upto w (λ k, copy_cell (u32 (w * (i - 1)) + k) (u32 (w * i) + k));;
         upto w (λ k, blank_cell (u32 (w * (i - 1)) + w + k))) t = Ret (tt, t') ∧
    cells_are s (scrolled b w (i + 1)) t'.
Proof.
  intros w b Hi Hw Hlen H32 Ht. assert (0 <= w * (i - 1)) by nia. assert (w * i = w * (i - 1) + w) as Ei by lia.
  rewrite !u32_small by lia. rewrite Ei. set (foo := w * (i - 1)) in *.
  assert (∀ j, 0 <= j < Z.of_nat (length b) → is_Some (zget b j)) as Hsome by (intros j Hj; destruct (zget_lt b j Hj) as (x & -> & _); done).
  assert (∀ j, 0 <= j < Z.of_nat (length b) → is_Some (scrolled b w i j)) as Hf.
  { intros j Hj. unfold scrolled. fold foo. rewrite Ei. destruct (Hsome j Hj) as [x Ex]. rewrite Ex. zbool; simpl; try done; apply Hsome; lia. }
  destruct (copy_row s _ foo w t ltac:(lia) ltac:(lia) ltac:(fold b; lia) Hf Ht) as (t1 & E1 & H1).
  rewrite (bind_run _ _ _ _ _ E1).
  match type of H1 with cells_are _ ?g _ => assert (∀ j, 0 <= j < Z.of_nat (length b) → is_Some (g j)) as Hg end.
  { intros j Hj. zbool; simpl; apply Hf; lia. }
  destruct (blank_row s _ (foo + w) w t1 ltac:(lia) ltac:(lia) ltac:(fold b; lia) Hg H1) as (t2 & E2 & H2).
  exists t2. split; [exact E2|]. eapply cells_ext; [exact H2|]. intros j. simpl. unfold scrolled.
  replace (w * (i + 1 - 1)) with (foo + w) by lia. replace (w * (i + 1)) with (foo + w + w) by lia. fold foo. rewrite Ei.
  clear -H Hw Hi. assert (2 <=? i + 1 = true) as -> by lia.
  zbool; cbn [andb]; try reflexivity; lia.
Qed.

Lemma text_scroll_ok s : let w := d_width s in let h := d_height s in
  0 < w → 1 <= h → w * h <= Z.of_nat (length (textbuf s)) → w * h < 2 ^ 32 →
  ∃ t, text_scroll s = Ret (tt, t) ∧ cells_are s (scrolled (textbuf s) w h) t.
Proof.
  intros w h Hw Hh Hlen H32. unfold text_scroll, get. rewrite (bind_run _ _ _ s s) by done.
  destruct (for_loop_inv (λ i, cells_are s (scrolled (textbuf s) w i)) (λ i,
    let foo := u32 (d_width s * (i - 1)) in
    let bar := u32 (d_width s * i) in
    upto (d_width s) (λ k, copy_cell (foo + k) (bar + k));;
    upto (d_width s) (λ k, blank_cell (foo + d_width s + k))) (Z.to_nat (h - 1)) 1 s) as (t & E & Ht).
  - exists (textbuf s). split_and!; [by destruct s|done|]. intros j. unfold scrolled. zbool; simpl; done || lia.
  - intros i t Hi Ht. apply (scroll_row s i t); [lia|done|fold w; nia|fold w; nia|exact Ht].
  - exists t. split; [exact E|]. by replace (1 + Z.of_nat (Z.to_nat (h - 1))) with h in Ht by lia.
Qed.

(** ** Staying on the screen *)

(** The screen fits the mapped memory; a text screen has a cell to spare. *)
Definition geometry_ok (s : display) : Prop :=
  1 <= d_width s ∧ 2 <= d_height s ∧
  match d_backend s with
  | TextMode => d_width s * d_height s < Z.of_nat (length (textbuf s)) ∧ d_width s * d_height s < 2 ^ 32 - 1
  | Graphic =>
      0 < fb_width s ∧ 0 < fb_height s ∧ d_width s = fb_width s / 6 ∧ d_height s = fb_height s / 12 - 1 ∧
      fb_width s * fb_height s <= Z.of_nat (length (pixelbuf s)) ∧ fb_width s * fb_height s < 2 ^ 32
  end.

(** The cursor is on a row of the screen; it may be one past the row's end. *)
Definition cursor_ok (s : display) : Prop := 0 <= d_x s <= d_width s ∧ 0 <= d_y s < d_height s.
Definition screen_ok (s : display) : Prop := geometry_ok s ∧ cursor_ok s.

(** Only the cursor and the contents differ. *)
Definition same_screen (s t : display) : Prop :=
  d_backend t = d_backend s ∧ length (textbuf t) = length (textbuf s) ∧ length (pixelbuf t) = length (pixelbuf s) ∧
  fb_width t = fb_width s ∧ fb_height t = fb_height s ∧ d_width t = d_width s ∧ d_height t = d_height s ∧
  buf_cap t = buf_cap s ∧ d_buf t = d_buf s ∧ notify_cap t = notify_cap s.

Lemma same_refl s : same_screen s s.
Proof. done. Qed.
Lemma same_trans s t u : same_screen s t → same_screen t u → same_screen s u.
Proof. unfold same_screen. intuition congruence. Qed.

#[local] Hint Resolve same_refl : core.

(** [m] returns from [s], on the same screen, with the cursor in place. *)
Definition draws (m : D unit) (s : display) : Prop :=
  ∃ t, m s = Ret (tt, t) ∧ same_screen s t ∧ d_x t = d_x s ∧ d_y t = d_y s.

Lemma draws_bind m (f : unit → D unit) s : draws m s → (∀ t, same_screen s t → d_x t = d_x s → d_y t = d_y s → draws (f tt) t) →
  draws (m ≫= f) s.
Proof.
  intros (t & E & Hs & Hx & Hy) Hf. destruct (Hf t Hs Hx Hy) as (u & E2 & Hs2 & Hx2 & Hy2). exists u.
  rewrite (bind_run _ _ _ _ _ E). split_and!; [done|by eapply same_trans|congruence|congruence].
Qed.

Lemma draws_store_cell i v s : 0 <= i < Z.of_nat (length (textbuf s)) → draws (store_cell i v) s.
Proof. intros. eexists. rewrite store_cell_ok by done. split_and!; try done. unfold same_screen. simpl. by rewrite length_insert. Qed.

Lemma draws_store_pixel i v s : 0 <= i < Z.of_nat (length (pixelbuf s)) → draws (store_pixel i v) s.
Proof. intros. eexists. rewrite store_pixel_ok by done. split_and!; try done. unfold same_screen. simpl. by rewrite length_insert. Qed.

Lemma draws_upto n body s : 0 <= n →
  (∀ j t, 0 <= j < n → same_screen s t → draws (body j) t) → draws (upto n body) s.
Proof.
  intros Hn Hb. destruct (upto_inv (λ _ t, same_screen s t ∧ d_x t = d_x s ∧ d_y t = d_y s) n body s Hn) as (t & E & H1 & H2 & H3).
  - done.
  - intros j t Hj (H1 & H2 & H3). destruct (Hb j t Hj H1) as (u & E & Hu & Hx & Hy). exists u.
    split_and!; [done|by eapply same_trans|congruence|congruence].
  - by exists t.
Qed.

Lemma text_draw_ok c s : screen_ok s → d_backend s = TextMode → draws (text_draw_char (d_x s) (d_y s) c) s.
Proof.
  intros ((Hw & Hh & Hb) & Hx & Hy) Hm. rewrite Hm in Hb. unfold text_draw_char, get. 
  assert (0 <= d_width s * d_y s <= d_width s * d_height s - d_width s) by nia.
  unfold draws. rewrite (bind_run _ _ _ s s) by done. rewrite !u32_small by (rewrite ?u32_small; lia). apply draws_store_cell. lia.
Qed.

Lemma glyph_ok c iy : 0 <= c < 128 → 0 <= iy < 12 → is_Some (glyph_row c iy).
Proof.
  intros Hc Hi. unfold glyph_row. change (header_size font_header) with 32. change (charsize font_header) with 12.
  rewrite !u32_small by (rewrite ?u32_small; lia).
  destruct (zget_lt display_font (32 + (c * 12 + iy))) as (v & -> & _); [|done].
  change (Z.of_nat (length display_font)) with 3656. lia.
Qed.

(** The pixels of the character cell at column [x <= width] and row [y]. *)
Lemma pixel_bound fw fh x y iy ix : 0 < fw → 0 <= x <= fw / 6 → 0 <= y < fh / 12 - 1 → 0 <= iy < 12 → 0 <= ix < 6 →
  0 <= y * fw * 12 + x * 6 + (iy * fw + ix) < fw * fh ∧ x * 6 <= fw ∧ y * fw * 12 < fw * fh.
Proof.
  intros Hf Hx Hy Hiy Hix. pose proof (Z.mul_div_le fw 6 ltac:(lia)). pose proof (Z.mul_div_le fh 12 ltac:(lia)).
  assert (x * 6 <= fw) by lia. assert (12 * y <= fh - 24) by lia.
  assert (iy * fw <= 11 * fw) by nia. assert (fw * (12 * y) <= fw * (fh - 24)) by (apply Z.mul_le_mono_nonneg_l; lia).
  assert (0 <= y * fw) by nia.
  assert (0 <= iy * fw) by nia. lia.
Qed.

Lemma framebuf_draw_ok c s : screen_ok s → d_backend s = Graphic → 0 <= c < 128 → draws (framebuf_draw_char (d_x s) (d_y s) c) s.
Proof.
  intros ((Hw & Hh & Hb) & Hx & Hy) Hm Hc. rewrite Hm in Hb. destruct Hb as (Hf & Hg & Ew & Eh & Hlen & H32).
  unfold framebuf_draw_char, get, draws. rewrite (bind_run _ _ _ s s) by done. cbv zeta.
  change (f_height font_header) with 12. change (f_width font_header) with 6. change (Z.shiftl 1 (6 + 1)) with 128.
  apply draws_upto; [lia|]. intros iy t Hiy Ht. apply draws_upto; [lia|]. intros ix u Hix Hu.
  destruct (glyph_ok c iy Hc Hiy) as [bits Eb]. unfold draws. rewrite (bind_run _ _ _ bits u) by (unfold getsome; by rewrite Eb).
  destruct (pixel_bound (fb_width s) (fb_height s) (d_x s) (d_y s) iy ix) as (Hp & Hx6 & Hy12); [lia..|].
  assert (fb_width s <= fb_width s * fb_height s) by nia. assert (0 <= d_y s * fb_width s) by nia.
  rewrite !u32_small by (rewrite ?u32_small; lia).
  assert (length (pixelbuf u) = length (pixelbuf s)) as El by (destruct Ht as (_&_&E1&_), Hu as (_&_&E2&_); congruence).
  case_match; apply draws_store_pixel; rewrite El; lia.
Qed.

Lemma framebuf_scroll_ok s : geometry_ok s → d_backend s = Graphic → draws framebuf_scroll s.
Proof.
  intros (Hw & Hh & Hb) Hm. rewrite Hm in Hb. destruct Hb as (Hf & Hg & Ew & Eh & Hlen & H32).
  unfold framebuf_scroll, get, draws. rewrite (bind_run _ _ _ s s) by done. cbv zeta.
  change (f_height font_header) with 12. pose proof (Z.mul_div_le (fb_height s) 12 ltac:(lia)).
  assert (fb_height s <= fb_width s * fb_height s) by nia. rewrite (u32_small (fb_height s - 12 - 1)) by lia.
  apply draws_upto; [lia|]. intros i t Hi Ht. apply draws_upto; [lia|]. intros k u Hk Hu.
  assert ((i + 12) * fb_width s <= (fb_height s - 1) * fb_width s) by nia.
  assert (0 <= i * fb_width s <= (i + 12) * fb_width s) by nia.
  rewrite !(u32_small (_ * _)) by lia. rewrite !u32_small by lia.
  assert (length (pixelbuf u) = length (pixelbuf s)) as El by (destruct Ht as (_&_&E1&_), Hu as (_&_&E2&_); congruence).
  destruct (zget_lt (pixelbuf u) (k + (i + 12) * fb_width s)) as (v & Ev & _); [rewrite El; lia|].
  unfold draws, load_pixel. rewrite (bind_run _ _ _ v u) by (unfold getsome; by rewrite Ev).
  apply draws_store_pixel. rewrite El. lia.
Qed.

Lemma scroll_ok s : geometry_ok s → draws scroll s.
Proof.
  intros Hg. unfold scroll, draws, get. rewrite (bind_run _ _ _ s s) by done.
  destruct (d_backend s) eqn:Em; [|by apply framebuf_scroll_ok].
  pose proof Hg as (Hw & Hh & Hb). rewrite Em in Hb.
  destruct (text_scroll_ok s) as (t & E & b & -> & Hl & _); try lia.
  eexists. split; [exact E|]. by split_and!.
Qed.

Lemma draw_char_ok c s : screen_ok s → 0 <= c < 128 → draws (draw_char (d_x s) (d_y s) c) s.
Proof.
  intros Hok Hc. unfold draw_char, draws, get. rewrite (bind_run _ _ _ s s) by done.
  destruct (d_backend s) eqn:Em; [by apply text_draw_ok|by apply framebuf_draw_ok].
Qed.

(** In text mode every character can be drawn, on the frame buffer those the
    font has at a nonnegative index. *)
Lemma draw_any c s : screen_ok s → (d_backend s = Graphic → 0 <= c) → - 2 ^ (8 - 1) <= c < 2 ^ (8 - 1) →
  draws (draw_char (d_x s) (d_y s) c) s.
Proof.
  intros Hok Hc Hr. unfold draw_char, draws, get. rewrite (bind_run _ _ _ s s) by done.
  destruct (d_backend s) eqn:Em; [by apply text_draw_ok|]. apply framebuf_draw_ok; [done..|]. specialize (Hc eq_refl). lia.
Qed.

Lemma same_geometry s t : same_screen s t → geometry_ok s → geometry_ok t.
Proof.
  unfold same_screen, geometry_ok. intros (-> & -> & -> & -> & -> & -> & -> & _) Hg. done.
Qed.

(** [m] returns from [s] with the cursor on the screen. *)
Definition stays (m : D unit) (s : display) : Prop := ∃ t, m s = Ret (tt, t) ∧ same_screen s t ∧ screen_ok t.

Lemma newline_ok s : geometry_ok s → 0 <= d_y s < d_height s → stays do_newline s.
Proof.
  intros Hg Hy. pose proof Hg as (Hw & Hh & Hb). unfold stays, do_newline, get. rewrite (bind_run _ _ _ s s) by done. cbv zeta.
  assert (d_height s < 2 ^ 32) as H32.
  { destruct (d_backend s); [nia|]. destruct Hb as (Hf & Hfh & _ & Eh & _ & Hlt).
    pose proof (Z.mul_div_le (fb_height s) 12 ltac:(lia)). nia. }
  rewrite (bind_run _ _ _ tt (set_pos (d_x s) (u32 (d_y s + 1)) s)) by done. rewrite !u32_small by lia.
  destruct (Z.leb_spec (d_height s - 1) (d_y s + 1)).
  - set (s1 := set_pos (d_x s) (d_y s + 1) s). destruct (scroll_ok s1) as (t & E & Hs & Hx & Hy'); [exact Hg|].
    rewrite bind_assoc_run, (bind_run _ _ _ _ _ E), (bind_run _ _ _ tt (set_pos (d_x t) (u32 (d_height t - 1)) t)) by done.
    eexists. split; [done|]. split; [exact Hs|]. split; [exact (same_geometry _ _ Hs Hg)|].
    destruct Hs as (_ & _ & _ & _ & _ & Ew & Eh & _). unfold cursor_ok. simpl in *. rewrite u32_small by lia. lia.
  - eexists. split; [done|]. split; [done|]. split; [exact Hg|]. unfold cursor_ok. simpl. lia.
Qed.

Lemma put_char_ok word s : screen_ok s → (d_backend s = Graphic → 0 <= i8 word) → stays (do_draw_char word) s.
Proof.
  intros Hok Hc. pose proof Hok as (Hg & Hx & Hy). pose proof Hg as (Hw & Hh & Hb). unfold stays, do_draw_char, get. cbv zeta.
  rewrite (bind_run _ _ _ s s) by done. pose proof (wraps_range 8 word ltac:(lia)) as Hr.
  destruct (Z.eqb_spec (i8 word) 10); [by apply newline_ok|].
  destruct ((i8 word =? 8) && (0 <? d_x s)) eqn:Eb.
  - apply andb_prop in Eb as [_ Hpos%Z.ltb_lt].
    assert (u32 (d_x s - 1) = d_x s - 1) as ->.
    { apply u32_small. split; [lia|]. destruct (d_backend s); [nia|]. destruct Hb as (Hf & Hfh & Ew & _ & _ & Hlt).
      pose proof (Z.mul_div_le (fb_width s) 6 ltac:(lia)). nia. }
    set (s1 := set_pos (d_x s - 1) (d_y s) s). rewrite (bind_run _ _ _ tt s1) by done.
    assert (screen_ok s1) as H1 by (split; [exact Hg|unfold cursor_ok, s1; simpl; lia]).
    destruct (draw_char_ok SPACE s1 H1 ltac:(done)) as (t & E & Hs & Hx' & Hy'). exists t. split; [exact E|]. split; [exact Hs|].
    split; [exact (same_geometry _ _ Hs Hg)|]. destruct Hs as (_ & _ & _ & _ & _ & Ew & Eh & _).
    unfold cursor_ok. rewrite Hx', Hy', Ew, Eh. subst s1. simpl. lia.
  - destruct (draw_any (i8 word) s Hok Hc Hr) as (t & E & Hs & Hx' & Hy').
    rewrite (bind_run _ _ _ _ _ E), (bind_run _ _ _ tt (set_pos (u32 (d_x t + 1)) (d_y t) t)) by done.
    set (s1 := set_pos _ _ t). assert (same_screen s s1) as Hs1 by exact Hs.
    assert (geometry_ok s1) as Hg1 by exact (same_geometry _ _ Hs Hg).
    destruct Hs as (_ & _ & _ & _ & _ & Ew & Eh & _). destruct (Z.leb_spec (d_width s) (d_x s)).
    + destruct (newline_ok s1 Hg1) as (u & Eu & Hsu & Hu); [unfold s1; simpl; lia|]. exists u. split; [exact Eu|].
      split; [by eapply same_trans|done].
    + exists s1. split; [done|]. split; [done|]. split; [done|]. unfold cursor_ok, s1. simpl. rewrite Hx', Hy', Ew, Eh.
      rewrite u32_small; [lia|]. destruct (d_backend s); [nia|]. destruct Hb as (Hf & Hfh & Ewf & _ & _ & Hlt).
      pose proof (Z.mul_div_le (fb_width s) 6 ltac:(lia)). nia.
Qed.

(** ** The claims *)

(** What a client can ask of the console. *)
Inductive console_op : Type := PutChar (word : Z) | SetPosition (x y : Z) | Clear.

Definition run_op (op : console_op) : D unit :=
  match op with PutChar w => do_draw_char w | SetPosition x y => do_set_position x y | Clear => do_clear end.

Definition op_ok (b : backend) (op : console_op) : Prop :=
  match op with
  | PutChar w => b = Graphic → 0 <= i8 w
  | SetPosition x y => 0 <= x ∧ 0 <= y
  | Clear => True
  end.

Fixpoint run_ops (ops : list console_op) : D unit :=
  match ops with [] => mret tt | op :: rest => run_op op;; run_ops rest end.

Lemma run_op_ok op s : screen_ok s → op_ok (d_backend s) op → stays (run_op op) s.
Proof.
  intros Hok Hop. pose proof Hok as (Hg & Hx & Hy). destruct op as [w|x y|]; cbn [run_op op_ok] in *.
  - by apply put_char_ok.
  - unfold stays, do_set_position, get. rewrite (bind_run _ _ _ s s) by done.
    destruct ((x <? d_width s) && (y <? d_height s)) eqn:E; [|by exists s].
    apply andb_prop in E as [Hx' Hy']. apply Z.ltb_lt in Hx', Hy'.
    eexists. split; [done|]. split; [done|]. split; [exact Hg|]. unfold cursor_ok. simpl. lia.
  - unfold stays, do_clear, get. rewrite (bind_run _ _ _ s s) by done.
    destruct (upto_inv (λ _ t, same_screen s t ∧ screen_ok t) (d_height s) (λ _, do_newline) s) as (t & E & Hs & Hg' & Hx' & Hy'); [lia|done| |].
    + intros j t _ (Hs & Hg' & _ & Hy'). destruct (newline_ok t Hg' Hy') as (u & E & Hs' & Hu). exists u.
      split; [exact E|]. split; [by eapply same_trans|done].
    + rewrite (bind_run _ _ _ _ _ E). unfold do_set_position, get. rewrite (bind_run _ _ _ t t) by done.
      destruct Hg' as (Hw & Hh & Hb). rewrite !(proj2 (Z.ltb_lt _ _)) by lia. eexists. split; [done|].
      split; [exact Hs|]. split; [done|]. unfold cursor_ok. simpl. lia.
Qed.

(** The arguments of [SetPosition] are unsigned. *)
Definition op_typed (op : console_op) : Prop := match op with SetPosition x y => 0 <= x ∧ 0 <= y | _ => True end.

Lemma run_ops_ok ops : ∀ s, screen_ok s → Forall (op_ok (d_backend s)) ops →
  ∃ t, run_ops ops s = Ret (tt, t) ∧ same_screen s t ∧ screen_ok t.
Proof.
  induction ops as [|op ops IH]; intros s Hok Hops; [by exists s|]. apply Forall_cons in Hops as [Hop Hops].
  destruct (run_op_ok op s Hok Hop) as (t & E & Hs & Ht).
  destruct (IH t Ht) as (u & Eu & Hs' & Hu); [by rewrite (proj1 Hs)|]. exists u. cbn [run_ops].
  rewrite (bind_run _ _ _ _ _ E). split_and!; [done|by eapply same_trans|apply Hu..].
Qed.

(** The bitmap of a character above 127, a negative [char], is looked for
    outside the font, though the font has one. *)
Lemma glyph_outside c : -128 <= c < 0 → glyph_row c 0 = None.
Proof.
  intros Hc. unfold glyph_row. apply zget_None. right. rewrite Z.add_0_r. change (charsize font_header) with 12.
  assert (u32 (c * 12) = 2 ^ 32 + c * 12) as ->.
  { unfold wrapu. symmetry. apply (Z.mod_unique _ _ (-1)); lia. }
  rewrite u32_small by lia. change (header_size font_header) with 32. change (Z.of_nat (length display_font)) with 3656. lia.
Qed.

Lemma draw_outside x y c s : -128 <= c < 0 → d_backend s = Graphic → draw_char x y c s = UB.
Proof.
  intros Hc Hb. unfold draw_char, get. rewrite (bind_run _ _ _ s s) by done. rewrite Hb. unfold framebuf_draw_char, get.
  rewrite (bind_run _ _ _ s s) by done. cbv zeta. unfold upto.
  change (Z.to_nat (f_height font_header)) with 12%nat. change (Z.to_nat (f_width font_header)) with 6%nat. cbn [for_loop].
  unfold mbind, M_bind, getsome. by rewrite glyph_outside.
Qed.

Lemma run_op_outside op s : d_backend s = Graphic → op_typed op → ¬ op_ok Graphic op → run_op op s = UB.
Proof.
  intros Hb Ht Hno. destruct op as [w|x y|]; cbn [op_ok op_typed run_op] in *; [|by destruct Hno|by destruct Hno].
  assert (-128 <= i8 w < 0) as Hc.
  { pose proof (wraps_range 8 w ltac:(lia)). destruct (Z.lt_ge_cases (i8 w) 0); [lia|]. destruct Hno. done. }
  unfold do_draw_char, get. cbv zeta. rewrite (bind_run _ _ _ s s) by done.
  rewrite !(proj2 (Z.eqb_neq (i8 w) _)) by lia. cbn [andb]. unfold mbind, M_bind. by rewrite draw_outside.
Qed.

Lemma run_ops_outside ops : ∀ s, screen_ok s → Forall op_typed ops → ¬ Forall (op_ok (d_backend s)) ops → run_ops ops s = UB.
Proof.
  induction ops as [|op ops IH]; intros s Hok Ht Hno; [by destruct Hno|]. apply Forall_cons in Ht as [Ht Hts]. cbn [run_ops].
  assert (op_ok (d_backend s) op ∨ ¬ op_ok (d_backend s) op) as [Hop|Hop].
  { destruct op as [w|x y|]; cbn; [|by left|by left]. destruct (d_backend s); [by left|]. destruct (Z.le_gt_cases 0 (i8 w)); [by left|]. right. intros Hw. specialize (Hw eq_refl). lia. }
  - destruct (run_op_ok op s Hok Hop) as (t & E & Hs & Hok'). rewrite (bind_run _ _ _ _ _ E). apply (IH t Hok' Hts).
    rewrite (proj1 Hs). intros Hall. apply Hno. by constructor.
  - unfold mbind, M_bind. destruct (d_backend s) eqn:Eb; [destruct op; cbn in *; try done; destruct Hop; done|]. by rewrite run_op_outside.
Qed.

(** C29: which sequences of console operations are safe.  On the text buffer
    all are, and on the frame buffer those whose characters are codes 0 to 127:
    every cell and pixel drawn is inside the mapped memory, the cursor stays on
    the screen's rows, at most one column past the last, and every loop ends.
    Any sequence with a character above 127 on the frame buffer reads outside
    the font. *)
Theorem console_safe ops s : screen_ok s → Forall op_typed ops →
  (Forall (op_ok (d_backend s)) ops → ∃ t, run_ops ops s = Ret (tt, t) ∧ same_screen s t ∧ screen_ok t) ∧
  (¬ Forall (op_ok (d_backend s)) ops → run_ops ops s = UB).
Proof. intros Hok Ht. split; [by apply run_ops_ok|by apply run_ops_outside]. Qed.

(** Scrolling the text screen moves every row up by one, with its colours,
    blanks the last row's characters, and changes nothing outside the screen. *)
Theorem text_scroll_correct s : let w := d_width s in let h := d_height s in
  0 < w → 2 <= h → w * h <= Z.of_nat (length (textbuf s)) → w * h < 2 ^ 32 →
  ∃ b, text_scroll s = Ret (tt, set_text b s) ∧ length b = length (textbuf s) ∧
    (∀ x y, 0 <= x < w → 0 <= y < h - 1 → zget b (w * y + x) = zget (textbuf s) (w * (y + 1) + x)) ∧
    (∀ x, 0 <= x < w → zget b (w * (h - 1) + x) = blank <$> zget (textbuf s) (w * (h - 1) + x)) ∧
    ∀ i, w * h <= i → zget b i = zget (textbuf s) i.
Proof.
  intros w h Hw Hh Hlen H32. pose proof (text_scroll_ok s) as Hs. cbv zeta in Hs. fold w h in Hs.
  destruct Hs as (t & E & b & -> & Hl & Hj); [lia..|].
  assert (0 <= w * (h - 1)) by nia. assert (w * h = w * (h - 1) + w) by lia.
  exists b. split_and!; [exact E|exact Hl| | |]; intros; rewrite Hj; unfold scrolled.
  - assert (0 <= w * y) by nia. assert (w * y + w <= w * (h - 1)) by nia.
    rewrite (proj2 (Z.leb_le _ _)), (proj2 (Z.ltb_lt _ _)) by lia. simpl. f_equal. lia.
  - rewrite (proj2 (Z.ltb_ge (_ + x) _)), andb_false_r by lia.
    rewrite !(proj2 (Z.leb_le _ _)), (proj2 (Z.ltb_lt _ _)) by lia. done.
  - rewrite (proj2 (Z.ltb_ge _ (w * (h - 1)))), andb_false_r by lia.
    rewrite (proj2 (Z.ltb_ge _ (w * h))), andb_false_r by lia. done.
Qed.

(** ** The VGA screen *)
Definition vga : display :=
  mk_display TextMode (replicate 2048 (SPACE, VGA_TEXT_COLOR)) [] 0 0 VGA_TEXT_WIDTH VGA_TEXT_HEIGHT 0 0 0 no_object 0.

Lemma vga_ok : screen_ok vga.
Proof.
  unfold screen_ok, geometry_ok, cursor_ok, vga. cbn [d_width d_height d_x d_y d_backend textbuf].
  rewrite length_replicate. unfold VGA_TEXT_WIDTH, VGA_TEXT_HEIGHT. lia.
Qed.

(** A row takes one character too many: the 81st goes to the first cell of the
    next row, where the cursor then is, so the next character replaces it. *)
Lemma row_overflows :
  match run_ops (replicate 81 (PutChar 65)) vga with
  | Ret (_, t) => zget (textbuf t) 80 = Some (65, VGA_TEXT_COLOR) ∧ d_x t = 0 ∧ d_y t = 1
  | _ => False
  end.
Proof. vm_compute. done. Qed.

Lemma console_safe_witness : ∃ t, run_ops [PutChar 72; PutChar 10; SetPosition 79 24; PutChar 33; PutChar 33; Clear] vga = Ret (tt, t) ∧
  screen_ok t.
Proof.
  destruct (proj1 (console_safe [PutChar 72; PutChar 10; SetPosition 79 24; PutChar 33; PutChar 33; Clear] vga vga_ok ltac:(repeat constructor; cbn; lia)))
    as (t & E & _ & Ht).
  { repeat constructor; cbn; lia || done. }
  exists t. split; [exact E|exact Ht].
Defined.

Lemma text_scroll_correct_witness : ∃ b, text_scroll vga = Ret (tt, set_text b vga) ∧
  zget b (80 * 24) = Some (SPACE, VGA_TEXT_COLOR).
Proof.
  destruct (text_scroll_correct vga) as (b & E & _ & _ & Hlast & _);
    [done|done|change (length (textbuf vga)) with 2048%nat; done|done|].
  exists b. split; [exact E|]. specialize (Hlast 0 (conj (Z.le_refl 0) eq_refl)).
  change (d_width vga * (d_height vga - 1) + 0) with (80 * 24) in Hlast. rewrite Hlast. vm_compute. reflexivity.
Defined.
