(* ===== verification/WinList.v ===== *)
(** The window manager's list of windows ([programs/stubbywm/src/winlist.c],
    [include/stubbywm/stubbywm.h]): a doubly linked list of nodes taken from
    the heap, and what the screen's stacking order promises to the rest of the
    window manager: a list of windows, bottom to top. *)

From S2P Require Import Prelude Interfaces Mem.
#[local] Open Scope Z_scope.

(** [stubby_point_t], [stubby_rect_t]. *)
Record point := mk_point { px : Z; py : Z }.
Record rect := mk_rect { coord : point; height : Z; width : Z }.

(** [window_t]. *)
Record window := mk_window {
  w_rect : rect; w_buffer : c4_mem_object; w_color : Z; has_buffer : bool;
  to_port : Z; from_port : Z; sync_port : Z
}.

Definition set_coord (p : point) (w : window) : window :=
  mk_window (mk_rect p (height (w_rect w)) (width (w_rect w))) (w_buffer w) (w_color w) (has_buffer w)
    (to_port w) (from_port w) (sync_port w).

(** [window_node_t]; [0] is [NULL]. *)
Record window_node := mk_wnode { nd_window : window; nd_next : Z; nd_prev : Z }.

Definition set_window (w : window) (n : window_node) : window_node := mk_wnode w (nd_next n) (nd_prev n).
Definition set_next (a : Z) (n : window_node) : window_node := mk_wnode (nd_window n) a (nd_prev n).
Definition set_prev (a : Z) (n : window_node) : window_node := mk_wnode (nd_window n) (nd_next n) a.

(** [sizeof(window_node_t)] on i686, and a node of zero bytes. *)
Definition sizeof_window_node : Z := 60.
Definition zero_window : window := mk_window (mk_rect (mk_point 0 0) 0 0) (mk_memobj 0 0 0 false) 0 false 0 0 0.
Definition zero_node : window_node := mk_wnode zero_window 0 0.

(** [window_list_t], with the heap and the nodes in memory. *)
Record window_list (H : Type) := mk_wlist {
  wl_start : Z; wl_end : Z; wl_nodes : Z; wl_heap : H; wl_mem : gmap Z window_node
}.
Arguments mk_wlist {H}.
Arguments wl_start {H}.
Arguments wl_end {H}.
Arguments wl_nodes {H}.
Arguments wl_heap {H}.
Arguments wl_mem {H}.

Section winlist.
Context {H : Type} `{Allocator H}.
Abbreviation L := (M (window_list H)).

Definition load (a : Z) : L window_node := getsome (λ s, wl_mem s !! a).
Definition store (a : Z) (n : window_node) : L unit :=
  modify (λ s, mk_wlist (wl_start s) (wl_end s) (wl_nodes s) (wl_heap s) (<[a := n]> (wl_mem s))).
Definition upd (a : Z) (f : window_node → window_node) : L unit := n ← load a; store a (f n).
Definition on_heap {A} (m : M H A) : L A :=
  zoom wl_heap (λ h s, mk_wlist (wl_start s) (wl_end s) (wl_nodes s) h (wl_mem s)) m.
Definition set_start (a : Z) : L unit :=
  modify (λ s, mk_wlist a (wl_end s) (wl_nodes s) (wl_heap s) (wl_mem s)).
Definition set_end (a : Z) : L unit :=
  modify (λ s, mk_wlist (wl_start s) a (wl_nodes s) (wl_heap s) (wl_mem s)).
Definition incr_nodes : L unit :=
  modify (λ s, mk_wlist (wl_start s) (wl_end s) (u32 (wl_nodes s + 1)) (wl_heap s) (wl_mem s)).
Definition drop_node (a : Z) : L unit :=
  modify (λ s, mk_wlist (wl_start s) (wl_end s) (wl_nodes s) (wl_heap s) (delete a (wl_mem s))).

(** [calloc(1, sizeof(window_node_t))] *)
Definition calloc_node : L Z :=
  a ← on_heap (al_alloc sizeof_window_node);
  if a =? 0 then mret 0 else store a zero_node;; mret a.

(** An assertion only prints: a failed allocation is written through. *)
Definition window_list_insert (win : window) : L Z :=
  new_node ← calloc_node;
  upd new_node (set_window win);;
  s ← get;
  (if truthy (wl_end s) then
     upd (wl_end s) (set_next new_node);; upd new_node (set_prev (wl_end s))
   else mret tt);;
  (if truthy (wl_start s) then mret tt else set_start new_node);;
  set_end new_node;;
  incr_nodes;;
  mret new_node.

Definition window_list_remove (node : Z) : L unit :=
  n ← load node;
  (if truthy (nd_prev n) then upd (nd_prev n) (set_next (nd_next n)) else mret tt);;
  n ← load node;
  (if truthy (nd_next n) then upd (nd_next n) (set_prev (nd_prev n)) else mret tt);;
  s ← get;
  n ← load node;
  (if node =? wl_start s then set_start (nd_next n) else mret tt);;
  (if node =? wl_end s then set_end (nd_prev n) else mret tt);;
  drop_node node;;
  on_heap (al_free node).

(** [find_client]: the first node, from the start, with this identifier. *)
Fixpoint find_client_loop (fuel : nat) (id temp : Z) : L Z :=
  match fuel with
  | O => nofuel
  | S fuel' =>
      if temp =? 0 then mret 0
      else n ← load temp; if id =? w_color (nd_window n) then mret temp else find_client_loop fuel' id (nd_next n)
  end.
Definition find_client (fuel : nat) (id : Z) : L Z := s ← get; find_client_loop fuel id (wl_start s).
End winlist.

(** [window_create]: [color] is what the generator draws. *)
Definition window_create (w h color : Z) : window :=
  mk_window (mk_rect (mk_point 0 0) h w) (mk_memobj 0 0 0 false) color false 0 0 0.
Definition window_set_pos (win : window) (x y : Z) : window := set_coord (mk_point x y) win.

(** ** Segments *)

(** The address a list starts with, [n] when it is empty. *)
Definition head_addr (n : Z) (l : list (Z * window)) : Z := match l with [] => n | e :: _ => e.1 end.
Definition last_addr (p : Z) (l : list (Z * window)) : Z := match last l with None => p | Some e => e.1 end.

(** Nodes linked both ways, after [p] and before [n]. *)
Fixpoint dseg (m : gmap Z window_node) (p : Z) (l : list (Z * window)) (n : Z) : Prop :=
  match l with
  | [] => True
  | e :: l' => m !! e.1 = Some (mk_wnode e.2 (head_addr n l') p) ∧ dseg m e.1 l' n
  end.

Lemma last_addr_cons p e l : last_addr p (e :: l) = last_addr e.1 l.
Proof. unfold last_addr. rewrite last_cons. by destruct (last l). Qed.

Lemma head_addr_app n l1 l2 : head_addr n (l1 ++ l2) = head_addr (head_addr n l2) l1.
Proof. by destruct l1. Qed.

Lemma wseg_app m p l1 l2 n : dseg m p (l1 ++ l2) n ↔ dseg m p l1 (head_addr n l2) ∧ dseg m (last_addr p l1) l2 n.
Proof.
  revert p. induction l1 as [|e l1 IH]; intros p; simpl; [naive_solver|].
  rewrite IH, last_addr_cons, head_addr_app. naive_solver.
Qed.

Lemma wseg_ext m m' p l n : (∀ a, a ∈ l.*1 → m' !! a = m !! a) → dseg m p l n → dseg m' p l n.
Proof.
  revert p. induction l as [|e l IH]; intros p Hext; simpl; [done|]. intros [He Hl]. split.
  - rewrite Hext; [done|]. by left.
  - apply IH; [|done]. intros a Ha. apply Hext. by right.
Qed.

Lemma dseg_insert m a v p l n : a ∉ l.*1 → dseg m p l n → dseg (<[a := v]> m) p l n.
Proof. intros Ha. apply wseg_ext. intros b Hb. rewrite lookup_insert_ne; [done|]. by intros ->. Qed.

(** Redirect the link out of the last node, or into the first one. *)
Lemma dseg_set_next m p l e n n' : e.1 ∉ l.*1 → dseg m p (l ++ [e]) n →
  ∃ v, m !! e.1 = Some v ∧ dseg (<[e.1 := set_next n' v]> m) p (l ++ [e]) n'.
Proof.
  intros He. rewrite wseg_app. intros [Hl [Hv _]]. eexists. split; [exact Hv|]. rewrite wseg_app. split.
  - by apply dseg_insert.
  - simpl. by rewrite lookup_insert_eq.
Qed.

Lemma dseg_set_prev m p p' e l n : e.1 ∉ l.*1 → dseg m p (e :: l) n →
  ∃ v, m !! e.1 = Some v ∧ dseg (<[e.1 := set_prev p' v]> m) p' (e :: l) n.
Proof.
  intros He [Hv Hl]. eexists. split; [exact Hv|]. split; [by rewrite lookup_insert_eq|]. by apply dseg_insert.
Qed.

(** ** The representation *)
Section rep.
Context {H : Type} `{AllocatorLaws H}.
Abbreviation L := (M (window_list H)).

Record wl_rep (l : list (Z * window)) (s : window_list H) : Prop := {
  rep_seg : dseg (wl_mem s) 0 l 0;
  rep_nodup : NoDup l.*1;
  rep_nonnull : 0 ∉ l.*1;
  rep_start : wl_start s = head_addr 0 l;
  rep_end : wl_end s = last_addr 0 l;
  rep_mem : ∀ a, a ∈ l.*1 ↔ is_Some (wl_mem s !! a);
  rep_inv : al_inv (wl_heap s);
  rep_live : ∀ a, a ∈ l.*1 → a ∈ al_live (wl_heap s)
}.

Lemma node_load_ok a n (s : window_list H) : wl_mem s !! a = Some n → load a s = Ret (n, s).
Proof. unfold load, getsome. by intros ->. Qed.

Definition with_mem (m : gmap Z window_node) (s : window_list H) : window_list H :=
  mk_wlist (wl_start s) (wl_end s) (wl_nodes s) (wl_heap s) m.

Lemma node_upd_ok a f n (s : window_list H) : wl_mem s !! a = Some n → upd a f s = Ret (tt, with_mem (<[a := f n]> (wl_mem s)) s).
Proof. intros E. unfold upd. by rewrite (bind_run _ _ _ _ _ (node_load_ok _ _ _ E)). Qed.

Lemma rep_lookup l1 e l2 (s : window_list H) : wl_rep (l1 ++ e :: l2) s →
  wl_mem s !! e.1 = Some (mk_wnode e.2 (head_addr 0 l2) (last_addr 0 l1)).
Proof. intros Hr. pose proof (rep_seg _ _ Hr) as Hs. apply wseg_app in Hs as [_ [He _]]. done. Qed.

Lemma last_addr_snoc p l e : last_addr p (l ++ [e]) = e.1.
Proof. unfold last_addr. by rewrite last_snoc. Qed.

Lemma truthy_zero a : truthy a = false ↔ a = 0.
Proof. unfold truthy. rewrite negb_false_iff. apply Z.eqb_eq. Qed.

Lemma truthy_in (l : list (Z * window)) a : 0 ∉ l.*1 → a ∈ l.*1 → truthy a = true.
Proof. intros Hz Ha. destruct (truthy a) eqn:E; [done|]. apply truthy_zero in E. by subst. Qed.

(** ** Insertion *)
Lemma calloc_ok n s : al_inv (wl_heap s) → plenty (S n) (wl_heap s) →
  ∃ a h', calloc_node s = Ret (a, mk_wlist (wl_start s) (wl_end s) (wl_nodes s) h' (<[a := zero_node]> (wl_mem s))) ∧
    a ≠ 0 ∧ a ∉ al_live (wl_heap s) ∧ al_live h' = {[a]} ∪ al_live (wl_heap s) ∧ al_inv h' ∧ plenty n h'.
Proof.
  intros Hi Hp. destruct (alloc_plenty n sizeof_window_node _ Hi Hp ltac:(done)) as (a & h' & [E Hl] & Hne & Hni & Hi' & Hp').
  exists a, h'. split_and!; [|done..]. unfold calloc_node, on_heap. unfold mbind at 1, M_bind at 1, zoom. rewrite E.
  by rewrite (proj2 (Z.eqb_neq a 0) Hne).
Qed.

Lemma rep_empty s : wl_start s = 0 → wl_end s = 0 → wl_mem s = ∅ → al_inv (wl_heap s) → wl_rep [] s.
Proof.
  intros Es Ee Em Hi. split; try done; simpl.
  - constructor.
  - by apply not_elem_of_nil.
  - intros a. rewrite Em, lookup_empty. split; [by intros ?%not_elem_of_nil|by intros [? ?]].
  - intros a ?%not_elem_of_nil. done.
Qed.

(** The list is empty exactly when both ends are null. *)
Lemma rep_ends l s : wl_rep l s → truthy (wl_start s) = negb (bool_decide (l = [])) ∧ truthy (wl_end s) = negb (bool_decide (l = [])).
Proof.
  intros Hr. rewrite (rep_start _ _ Hr), (rep_end _ _ Hr). pose proof (rep_nonnull _ _ Hr) as Hz.
  destruct l as [|e l] using rev_ind; [done|]. rewrite (bool_decide_false (l ++ [e] = [])) by (by destruct l). split.
  - apply (truthy_in (l ++ [e])); [done|]. destruct l; simpl; by left.
  - rewrite last_addr_snoc. apply (truthy_in (l ++ [e])); [done|]. rewrite fmap_app. apply elem_of_app. right. by left.
Qed.

(** A new last node, not linked to yet. *)
Lemma insert_rep l win a s s' : wl_rep l s → a ≠ 0 → a ∉ al_live (wl_heap s) →
  wl_start s' = (if truthy (wl_start s) then wl_start s else a) → wl_end s' = a →
  al_inv (wl_heap s') → al_live (wl_heap s') = {[a]} ∪ al_live (wl_heap s) →
  wl_mem s' !! a = Some (mk_wnode win 0 (last_addr 0 l)) → dseg (wl_mem s') 0 l a →
  (∀ b, b ≠ a → is_Some (wl_mem s' !! b) ↔ is_Some (wl_mem s !! b)) →
  wl_rep (l ++ [(a, win)]) s'.
Proof.
  intros Hr Ha Hni Es Ee Hi Hl Em Hd Hm.
  assert (a ∉ l.*1) as Hal by (intros Hin; by apply Hni, (rep_live _ _ Hr)).
  split; rewrite ?fmap_app; simpl.
  - apply wseg_app. by split.
  - apply NoDup_app. split_and!; [apply (rep_nodup _ _ Hr)|by intros x Hx ->%list_elem_of_singleton|apply NoDup_singleton].
  - intros [Hz|Hz%list_elem_of_singleton]%elem_of_app; [by apply (rep_nonnull _ _ Hr)|done].
  - rewrite Es, (proj1 (rep_ends _ _ Hr)), (rep_start _ _ Hr). by destruct l.
  - by rewrite last_addr_snoc.
  - intros b. rewrite elem_of_app, list_elem_of_singleton. destruct (decide (b = a)) as [->|Hb].
    + rewrite Em. naive_solver.
    + rewrite Hm, (rep_mem _ _ Hr) by done. naive_solver.
  - done.
  - intros b [Hb| ->%list_elem_of_singleton]%elem_of_app; rewrite Hl; [|set_solver].
    apply elem_of_union. right. by apply (rep_live _ _ Hr).
Qed.

Lemma window_list_insert_ok n l win s : wl_rep l s → plenty (S n) (wl_heap s) →
  ∃ a s', window_list_insert win s = Ret (a, s') ∧ wl_rep (l ++ [(a, win)]) s' ∧ plenty n (wl_heap s') ∧
    wl_nodes s' = u32 (wl_nodes s + 1).
Proof.
  intros Hr Hp. destruct (calloc_ok n s (rep_inv _ _ Hr) Hp) as (a & h' & E & Ha & Hni & Hl & Hi & Hp').
  assert (a ∉ l.*1) as Hal by (intros Hin; by apply Hni, (rep_live _ _ Hr)).
  unfold window_list_insert. rewrite (bind_run _ _ _ _ _ E).
  rewrite (bind_run _ _ _ _ _ (node_upd_ok a _ zero_node _ (lookup_insert_eq _ _ _))). unfold with_mem. cbn [wl_start wl_end wl_nodes wl_heap wl_mem].
  rewrite insert_insert_eq. cbn [set_window zero_node nd_next nd_prev].
  unfold get. rewrite (bind_run _ _ _ _ _ eq_refl). cbn [wl_start wl_end wl_nodes wl_heap wl_mem].
  destruct (rep_ends _ _ Hr) as [Hs He]. rewrite He. destruct l as [|e l _] using rev_ind.
  { cbn. exists a. eexists. split; [by rewrite Hs|]. split; [|done].
    eapply (insert_rep [] win a s); try done; simpl; [by rewrite Hs| |].
    - by rewrite lookup_insert_eq.
    - intros b Hb. by rewrite lookup_insert_ne. }
  rewrite bool_decide_false in * by (by destruct l). cbn [negb]. rewrite (rep_end _ _ Hr), last_addr_snoc.
  pose proof (rep_seg _ _ Hr) as Hd. apply (dseg_insert _ a (mk_wnode win 0 0)) in Hd; [|done].
  assert (e.1 ∉ l.*1) as Hel.
  { pose proof (rep_nodup _ _ Hr) as Hn. rewrite fmap_app in Hn. apply NoDup_app in Hn as (_ & Hn & _).
    intros Hin. apply (Hn _ Hin). by left. }
  destruct (dseg_set_next _ _ _ _ _ a Hel Hd) as (v & Ev & Hd'). rewrite bind_assoc_run.
  erewrite bind_run by (by apply node_upd_ok). unfold with_mem. cbn [wl_start wl_end wl_nodes wl_heap wl_mem].
  assert (e.1 ≠ a) as Hea by (intros <-; apply Hal; rewrite fmap_app; apply elem_of_app; right; by left).
  erewrite bind_run by (apply node_upd_ok; simpl; rewrite lookup_insert_ne by done; apply lookup_insert_eq).
  cbn. exists a. eexists. split; [by rewrite Hs|]. split; [|done].
  eapply (insert_rep _ win a s); try done; simpl; [by rewrite Hs| | |].
  - by rewrite lookup_insert_eq, last_addr_snoc.
  - by apply dseg_insert.
  - intros b Hb. rewrite lookup_insert_ne by done. destruct (decide (b = e.1)) as [->|Hbe].
    + rewrite lookup_insert_eq. rewrite lookup_insert_ne in Ev by done. rewrite Ev. by split.
    + by rewrite !lookup_insert_ne.
Qed.

(** ** Removal *)

(** [m'] differs from [m] inside [l] only, and in no address present. *)
Definition same_outside (l : list (Z * window)) (m m' : gmap Z window_node) : Prop :=
  (∀ b, b ∉ l.*1 → m' !! b = m !! b) ∧ ∀ b, is_Some (m' !! b) ↔ is_Some (m !! b).

Lemma same_outside_upd l a v v' m : a ∈ l.*1 → m !! a = Some v → same_outside l m (<[a := v']> m).
Proof.
  intros Ha Hv. split; intros b.
  - intros Hb. rewrite lookup_insert_ne; [done|]. by intros <-.
  - destruct (decide (a = b)) as [<-|Hb]; [rewrite lookup_insert_eq, Hv; by split|by rewrite lookup_insert_ne].
Qed.

Lemma relink_next l n n' s : NoDup l.*1 → 0 ∉ l.*1 → dseg (wl_mem s) 0 l n →
  ∃ m', (if truthy (last_addr 0 l) then upd (last_addr 0 l) (set_next n') else mret tt) s = Ret (tt, with_mem m' s) ∧
    dseg m' 0 l n' ∧ same_outside l (wl_mem s) m'.
Proof.
  intros Hn Hz Hd. destruct l as [|e l _] using rev_ind.
  - exists (wl_mem s). split; [by destruct s|]. by split.
  - rewrite last_addr_snoc. rewrite fmap_app in Hn. apply NoDup_app in Hn as (_ & Hn & _).
    assert (e.1 ∈ (l ++ [e]).*1) as Hin by (rewrite fmap_app; apply elem_of_app; right; by left).
    rewrite (truthy_in _ _ Hz Hin).
    destruct (dseg_set_next _ _ _ _ _ n' ltac:(intros Hi; apply (Hn _ Hi); by left) Hd) as (v & Ev & Hd').
    eexists. split; [by apply node_upd_ok|]. split; [done|]. by eapply same_outside_upd.
Qed.

Lemma relink_prev l p p' s : NoDup l.*1 → 0 ∉ l.*1 → dseg (wl_mem s) p l 0 →
  ∃ m', (if truthy (head_addr 0 l) then upd (head_addr 0 l) (set_prev p') else mret tt) s = Ret (tt, with_mem m' s) ∧
    dseg m' p' l 0 ∧ same_outside l (wl_mem s) m'.
Proof.
  intros Hn Hz Hd. destruct l as [|e l].
  - exists (wl_mem s). split; [by destruct s|]. by split.
  - apply NoDup_cons in Hn as [He Hn]. cbn [head_addr].
    assert (e.1 ∈ (e :: l).*1) as Hin by (by left). rewrite (truthy_in _ _ Hz Hin).
    destruct (dseg_set_prev _ _ p' _ _ _ He Hd) as (v & Ev & Hd').
    eexists. split; [by apply node_upd_ok|]. split; [done|]. by eapply same_outside_upd.
Qed.

(** The two ends after the node at [a] is unlinked. *)
Lemma end_addrs l1 e l2 : NoDup (l1 ++ e :: l2).*1 → 0 ∉ (l1 ++ e :: l2).*1 →
  (if e.1 =? head_addr 0 (l1 ++ e :: l2) then head_addr 0 l2 else head_addr 0 (l1 ++ e :: l2)) = head_addr 0 (l1 ++ l2) ∧
  (if e.1 =? last_addr 0 (l1 ++ e :: l2) then last_addr 0 l1 else last_addr 0 (l1 ++ e :: l2)) = last_addr 0 (l1 ++ l2).
Proof.
  intros Hn Hz. rewrite fmap_app in Hn. apply NoDup_app in Hn as (_ & Hx & [He _]%NoDup_cons). split.
  - destruct l1 as [|x l1]; simpl; [by rewrite Z.eqb_refl|]. rewrite (proj2 (Z.eqb_neq _ _)); [done|].
    intros E. apply (Hx x.1); [by left|]. rewrite <-E. by left.
  - destruct l2 as [|x l2 _] using rev_ind; [rewrite last_addr_snoc, Z.eqb_refl; by rewrite app_nil_r|].
    rewrite app_comm_cons, !app_assoc, !last_addr_snoc. rewrite (proj2 (Z.eqb_neq _ _)); [done|].
    intros E. apply He. rewrite E. change (x.1 ∈ (l2 ++ [x]).*1). rewrite fmap_app. apply elem_of_app. right. by left.
Qed.

Lemma remove_rep l1 e l2 s s' : wl_rep (l1 ++ e :: l2) s →
  wl_start s' = head_addr 0 (l1 ++ l2) → wl_end s' = last_addr 0 (l1 ++ l2) →
  al_inv (wl_heap s') → al_live (wl_heap s') = al_live (wl_heap s) ∖ {[e.1]} →
  dseg (wl_mem s') 0 (l1 ++ l2) 0 → (∀ b, is_Some (wl_mem s' !! b) ↔ b ≠ e.1 ∧ is_Some (wl_mem s !! b)) →
  wl_rep (l1 ++ l2) s'.
Proof.
  intros Hr Es Ee Hi Hl Hd Hm.
  assert (∀ b, b ∈ (l1 ++ l2).*1 ↔ b ≠ e.1 ∧ b ∈ (l1 ++ e :: l2).*1) as Hin.
  { pose proof (rep_nodup _ _ Hr) as Hn. rewrite fmap_app in Hn. apply NoDup_app in Hn as (_ & Hx & [He _]%NoDup_cons).
    intros b. rewrite !fmap_app, !elem_of_app. simpl. rewrite elem_of_cons. split; [|naive_solver].
    intros [Hb|Hb]; split; auto; intros ->; [|done]. apply (Hx _ Hb). by left. }
  split; try done.
  - pose proof (rep_nodup _ _ Hr) as Hn. rewrite fmap_app. rewrite fmap_app in Hn. simpl in Hn.
    apply NoDup_app in Hn as (Hn1 & Hx & [_ Hn2]%NoDup_cons). apply NoDup_app. split_and!; [done| |done].
    intros b Hb Hb2. apply (Hx _ Hb). by right.
  - intros [_ Hz]%Hin. by apply (rep_nonnull _ _ Hr).
  - intros b. rewrite Hin, Hm. by rewrite (rep_mem _ _ Hr).
  - intros b [Hb Hb']%Hin. rewrite Hl. apply elem_of_difference. split; [by apply (rep_live _ _ Hr)|by intros ?%elem_of_singleton].
Qed.

(** Unlinking the node of [e], its two neighbours in turn. *)
Lemma node_unlink_ok l1 e l2 s : wl_rep (l1 ++ e :: l2) s →
  let n := mk_wnode e.2 (head_addr 0 l2) (last_addr 0 l1) in
  ∃ m1 m, (if truthy (last_addr 0 l1) then upd (last_addr 0 l1) (set_next (head_addr 0 l2)) else mret tt) s
      = Ret (tt, with_mem m1 s) ∧ m1 !! e.1 = Some n ∧
    (if truthy (head_addr 0 l2) then upd (head_addr 0 l2) (set_prev (last_addr 0 l1)) else mret tt) (with_mem m1 s)
      = Ret (tt, with_mem m s) ∧
    m !! e.1 = Some n ∧ dseg m 0 (l1 ++ l2) 0 ∧
    ∀ b, is_Some (m !! b) ↔ is_Some (wl_mem s !! b).
Proof.
  intros Hr n. pose proof (rep_lookup _ _ _ _ Hr) as He. pose proof (rep_nodup _ _ Hr) as Hn.
  pose proof (rep_nonnull _ _ Hr) as Hz. rewrite fmap_app in Hn, Hz. simpl in Hn, Hz.
  apply NoDup_app in Hn as (Hn1 & Hx & [He2 Hn2]%NoDup_cons). apply not_elem_of_app in Hz as [Hz1 [_ Hz2]%not_elem_of_cons].
  assert (e.1 ∉ l1.*1) as He1 by (intros Hi; apply (Hx _ Hi); by left).
  pose proof (rep_seg _ _ Hr) as Hd. apply wseg_app in Hd as [Hd1 [_ Hd2]].
  destruct (relink_next l1 _ (head_addr 0 l2) s Hn1 Hz1 Hd1) as (m1 & E1 & Hd1' & Ho1 & Hdom1).
  assert (∀ b, b ∈ l2.*1 → b ∉ l1.*1) as Hx2 by (intros b Hb Hb1; apply (Hx _ Hb1); by right).
  assert (dseg m1 e.1 l2 0) as Hd2' by (eapply wseg_ext; [|exact Hd2]; intros b Hb; apply Ho1; auto).
  destruct (relink_prev l2 e.1 (last_addr 0 l1) (with_mem m1 s) Hn2 Hz2 Hd2') as (m2 & E2 & Hd2'' & Ho2 & Hdom2).
  exists m1, m2. split_and!; [exact E1|by rewrite Ho1|exact E2|..].
  - rewrite Ho2, Ho1 by done. exact He.
  - apply wseg_app. split; [|done]. eapply wseg_ext; [|exact Hd1']. intros b Hb. apply Ho2. intros Hb2. by apply (Hx2 b).
  - intros b. rewrite Hdom2. apply Hdom1.
Qed.

Lemma window_list_remove_ok l1 e l2 s : wl_rep (l1 ++ e :: l2) s →
  ∃ s', window_list_remove e.1 s = Ret (tt, s') ∧ wl_rep (l1 ++ l2) s' ∧ freed e.1 (wl_heap s) (wl_heap s') ∧
    wl_nodes s' = wl_nodes s.
Proof.
  intros Hr. destruct (node_unlink_ok _ _ _ _ Hr) as (m1 & m & E1 & He1 & E2 & He & Hd & Hdom).
  destruct (end_addrs _ _ _ (rep_nodup _ _ Hr) (rep_nonnull _ _ Hr)) as [Hh Hla].
  assert (e.1 ∈ al_live (wl_heap s)) as Hlive.
  { apply (rep_live _ _ Hr). rewrite fmap_app. apply elem_of_app. right. by left. }
  destruct (al_free_ok _ _ (rep_inv _ _ Hr) Hlive) as (h' & Ef & Hi' & Hl').
  assert (window_list_remove e.1 s = Ret (tt, mk_wlist (head_addr 0 (l1 ++ l2)) (last_addr 0 (l1 ++ l2)) (wl_nodes s) h' (delete e.1 m))) as Erun.
  { unfold window_list_remove. rewrite (bind_run _ _ _ _ _ (node_load_ok _ _ _ (rep_lookup _ _ _ _ Hr))). cbn [nd_prev nd_next].
    rewrite (bind_run _ _ _ _ _ E1), (bind_run _ _ _ _ _ (node_load_ok _ _ (with_mem m1 s) He1)). cbn [nd_prev nd_next].
    rewrite (bind_run _ _ _ _ _ E2). unfold get. rewrite (bind_run _ _ _ _ _ eq_refl).
    rewrite (bind_run _ _ _ _ _ (node_load_ok _ _ (with_mem m s) He)). cbn.
    rewrite (rep_start _ _ Hr), (rep_end _ _ Hr). revert Hh Hla.
    unfold mbind, M_bind, on_heap, zoom. intros <- <-. destruct (e.1 =? head_addr 0 _), (e.1 =? last_addr 0 _); cbn;
      by rewrite Ef, ?(rep_start _ _ Hr), ?(rep_end _ _ Hr). }
  eexists. split; [exact Erun|]. split; [|done]. eapply remove_rep; try done; simpl.
  - eapply wseg_ext; [|exact Hd]. intros b Hb. apply lookup_delete_ne. intros <-.
    pose proof (rep_nodup _ _ Hr) as Hn. rewrite fmap_app in Hn, Hb. apply NoDup_app in Hn as (_ & Hx & [He2 _]%NoDup_cons).
    apply elem_of_app in Hb as [Hb|Hb]; [apply (Hx _ Hb); by left|done].
  - intros b. destruct (decide (b = e.1)) as [->|Hb]; [rewrite lookup_delete_eq; split; [by intros [? ?]|naive_solver]|].
    rewrite lookup_delete_ne by done. rewrite Hdom. naive_solver.
Qed.

(** ** A node's window replaced *)
Lemma window_list_update_ok l1 a w w' l2 s : wl_rep (l1 ++ (a, w) :: l2) s →
  ∃ s', upd a (set_window w') s = Ret (tt, s') ∧ wl_rep (l1 ++ (a, w') :: l2) s' ∧ wl_heap s' = wl_heap s ∧
    wl_mem s' !! a = Some (mk_wnode w' (head_addr 0 l2) (last_addr 0 l1)).
Proof.
  intros Hr. pose proof (rep_lookup _ _ _ _ Hr) as He. simpl in He. pose proof (rep_nodup _ _ Hr) as Hn.
  assert ((l1 ++ (a, w') :: l2).*1 = (l1 ++ (a, w) :: l2).*1) as E1 by (by rewrite !fmap_app).
  rewrite fmap_app in Hn. apply NoDup_app in Hn as (_ & Hx & [He2 _]%NoDup_cons).
  assert (a ∉ l1.*1) as He1 by (intros Hi; apply (Hx _ Hi); by left).
  eexists. split; [by apply node_upd_ok|]. split; [|split; [done|apply lookup_insert_eq]].
  pose proof (rep_seg _ _ Hr) as Hd. apply wseg_app in Hd as [Hd1 [_ Hd2]]. simpl in Hd2.
  split; rewrite ?E1; try apply Hr.
  - apply wseg_app. split; [by apply dseg_insert|]. split; [simpl; by rewrite lookup_insert_eq|]. by apply dseg_insert.
  - simpl. rewrite (rep_start _ _ Hr). by rewrite !head_addr_app.
  - simpl. rewrite (rep_end _ _ Hr). destruct l2 as [|e l2 _] using rev_ind; [by rewrite !last_addr_snoc|].
    by rewrite !app_comm_cons, !app_assoc, !last_addr_snoc.
  - intros b. rewrite (rep_mem _ _ Hr). simpl. destruct (decide (b = a)) as [->|Hb].
    + rewrite lookup_insert_eq, He. by split.
    + by rewrite lookup_insert_ne.
Qed.

(** ** Lookup *)
Lemma find_client_ok fuel id l s : wl_rep l s → (length l < fuel)%nat →
  find_client fuel id s = Ret (default 0 (fst <$> head (filter (λ e, w_color e.2 = id) l)), s).
Proof.
  intros Hr Hf. unfold find_client, get. rewrite (bind_run _ _ _ s s) by done. rewrite (rep_start _ _ Hr).
  pose proof (rep_seg _ _ Hr) as Hd. pose proof (rep_nonnull _ _ Hr) as Hz. clear Hr. revert fuel Hf Hd Hz. generalize 0 at 1.
  induction l as [|e l IH]; intros p fuel Hf Hd Hz; (destruct fuel as [|fuel]; [simpl in Hf; lia|]); cbn [find_client_loop head_addr].
  - done.
  - destruct Hd as [He Hd]. apply not_elem_of_cons in Hz as [Hz1 Hz].
    rewrite (proj2 (Z.eqb_neq e.1 0)) by (intros E; by rewrite E in Hz1).
    rewrite (bind_run _ _ _ _ _ (node_load_ok _ _ _ He)). cbn [nd_window nd_next]. rewrite filter_cons.
    destruct (Z.eqb_spec id (w_color e.2)) as [->|Hne]; [by rewrite decide_True|].
    rewrite decide_False by congruence. apply (IH e.1); [simpl in Hf; lia|done..].
Qed.
End rep.

(** ** The stacking order *)
Section claims.
Context {H : Type} `{AllocatorLaws H}.

(** C28: the doubly linked list of windows is the stacking order, bottom to
    top.  Inserting puts the window on top, in a node that was not in use;
    removing a node takes exactly its window out, whether it is first, last, in
    the middle or alone, and gives exactly that node back to the heap; looking
    a client up finds the lowest window with its identifier, or [NULL].  The
    count of nodes is incremented by the insertion and not decremented by the
    removal. *)
Theorem window_list_correct n l (s : window_list H) : wl_rep l s → plenty (S n) (wl_heap s) →
  (∀ win, ∃ a s', window_list_insert win s = Ret (a, s') ∧ wl_rep (l ++ [(a, win)]) s' ∧
     plenty n (wl_heap s') ∧ wl_nodes s' = u32 (wl_nodes s + 1)) ∧
  (∀ l1 e l2, l = l1 ++ e :: l2 → ∃ s', window_list_remove e.1 s = Ret (tt, s') ∧ wl_rep (l1 ++ l2) s' ∧
     freed e.1 (wl_heap s) (wl_heap s') ∧ wl_nodes s' = wl_nodes s) ∧
  (∀ id fuel, (length l < fuel)%nat →
     find_client fuel id s = Ret (default 0 (fst <$> head (filter (λ e, w_color e.2 = id) l)), s)).
Proof.
  intros Hr Hp. split_and!.
  - intros win. by apply window_list_insert_ok.
  - intros l1 e l2 ->. by apply window_list_remove_ok.
  - intros id fuel Hf. by apply find_client_ok.
Qed.
End claims.

(** ** A small desktop *)
Definition empty_list : window_list Bump.bump := mk_wlist 0 0 0 Bump.start ∅.

Lemma empty_rep : wl_rep [] empty_list.
Proof. by apply rep_empty. Qed.

Lemma window_list_correct_witness : ∃ a s', window_list_insert (window_create 30 20 77) empty_list = Ret (a, s') ∧
  wl_rep [(a, window_create 30 20 77)] s' ∧ find_client 9 77 s' = Ret (a, s').
Proof.
  destruct (window_list_correct 0 [] empty_list empty_rep (Bump.bump_plenty _ _ Bump.start_inv)) as (Hi & _ & _).
  destruct (Hi (window_create 30 20 77)) as (a & s' & E & Hr & _). exists a, s'. split_and!; [exact E|exact Hr|].
  vm_compute in E. injection E as <- <-. reflexivity.
Defined.
