(* ===== verification/Ppm.v ===== *)
(** Pictures of the window manager ([programs/stubbywm/src/ppm.c],
    [include/stubbywm/ppm.h], [mouse_icons.h]): the header of a binary PPM file
    is parsed with the string functions of the C library, on byte memory. *)

From S2P Require Import Prelude CString Words Text.
#[local] Open Scope Z_scope.

(** [ppm_t]; [pixbuf] points into the file. *)
Record ppm := mk_ppm { ppm_version : Z; ppm_width : Z; ppm_height : Z; pixbuf : Z }.

(** ** Parsing *)
Fixpoint atoi_loop (fuel : nat) (s i ret : Z) : M mem Z :=
  match fuel with
  | O => nofuel
  | S fuel' =>
      c ← rdc (s + i);
      if truthy c then atoi_loop fuel' s (i + 1) (i32 (i32 (ret * 10) + (c - 48))) else mret ret
  end.
Definition atoi (fuel : nat) (s : Z) : M mem Z := atoi_loop fuel s 0 0.

Section ppm.
(** The literals ["\n"] and [" \n"], and the local array [temp] of 32 bytes. *)
Context (nl sep temp : Z).

(** Lines that start with ['#']; [turns] bounds their number. *)
Fixpoint skip_comments (turns fuel : nat) (buf : Z) : M mem Z :=
  match turns with
  | O => nofuel
  | S turns' =>
      c ← rdc buf;
      if c =? 35 then n ← strcspn fuel buf nl; skip_comments turns' fuel (buf + (n + 1))
      else mret buf
  end.

(** The number at [buf], and where [buf] points afterwards. *)
Definition parse_text (turns fuel : nat) (buf : Z) : M mem (Z * Z) :=
  buf ← skip_comments turns fuel buf;
  n ← strcspn fuel buf sep;
  strlcpy fuel temp buf (n + 1);;
  v ← atoi fuel temp;
  mret (u32 v, buf + (n + 1)).

Definition ppm_load (turns fuel : nat) (data : Z) : M mem ppm :=
  version ← rd (data + 1);
  w ← parse_text turns fuel (data + 3);
  h ← parse_text turns fuel w.2;
  mx ← parse_text turns fuel h.2;
  mret (mk_ppm version w.1 h.1 mx.2).
End ppm.

(** [cursor_default_ppm] *)
Definition cursor_default_ppm : list Z :=
  [
   80; 54; 10; 35; 32; 67; 82; 69; 65; 84; 79; 82; 58; 32; 71; 73; 77; 80; 32; 80;
   78; 77; 32; 70; 105; 108; 116; 101; 114; 32; 86; 101; 114; 115; 105; 111; 110; 32; 49; 46;
   49; 10; 49; 54; 32; 50; 48; 10; 50; 53; 53; 10; 255; 255; 255; 0; 255; 0; 0; 255;
   0; 0; 255; 0; 0; 255; 0; 0; 255; 0; 0; 255; 0; 0; 255; 0; 0; 255; 0; 0;
   255; 0; 0; 255; 0; 0; 255; 0; 0; 255; 0; 0; 255; 0; 0; 255; 0; 0; 255; 0;
   255; 255; 255; 255; 255; 255; 0; 255; 0; 0; 255; 0; 0; 255; 0; 0; 255; 0; 0; 255;
   0; 0; 255; 0; 0; 255; 0; 0; 255; 0; 0; 255; 0; 0; 255; 0; 0; 255; 0; 0;
   255; 0; 0; 255; 0; 0; 255; 0; 255; 255; 255; 0; 0; 0; 255; 255; 255; 0; 255; 0;
   0; 255; 0; 0; 255; 0; 0; 255; 0; 0; 255; 0; 0; 255; 0; 0; 255; 0; 0; 255;
   0; 0; 255; 0; 0; 255; 0; 0; 255; 0; 0; 255; 0; 0; 255; 0; 255; 255; 255; 0;
   0; 0; 0; 0; 0; 255; 255; 255; 0; 255; 0; 0; 255; 0; 0; 255; 0; 0; 255; 0;
   0; 255; 0; 0; 255; 0; 0; 255; 0; 0; 255; 0; 0; 255; 0; 0; 255; 0; 0; 255;
   0; 0; 255; 0; 255; 255; 255; 0; 0; 0; 0; 0; 0; 0; 0; 0; 255; 255; 255; 0;
   255; 0; 0; 255; 0; 0; 255; 0; 0; 255; 0; 0; 255; 0; 0; 255; 0; 0; 255; 0;
   0; 255; 0; 0; 255; 0; 0; 255; 0; 0; 255; 0; 255; 255; 255; 0; 0; 0; 0; 0;
   0; 0; 0; 0; 0; 0; 0; 255; 255; 255; 0; 255; 0; 0; 255; 0; 0; 255; 0; 0;
   255; 0; 0; 255; 0; 0; 255; 0; 0; 255; 0; 0; 255; 0; 0; 255; 0; 0; 255; 0;
   255; 255; 255; 0; 0; 0; 0; 0; 0; 0; 0; 0; 0; 0; 0; 0; 0; 0; 255; 255;
   255; 0; 255; 0; 0; 255; 0; 0; 255; 0; 0; 255; 0; 0; 255; 0; 0; 255; 0; 0;
   255; 0; 0; 255; 0; 0; 255; 0; 255; 255; 255; 0; 0; 0; 0; 0; 0; 0; 0; 0;
   0; 0; 0; 0; 0; 0; 0; 0; 0; 255; 255; 255; 0; 255; 0; 0; 255; 0; 0; 255;
   0; 0; 255; 0; 0; 255; 0; 0; 255; 0; 0; 255; 0; 0; 255; 0; 255; 255; 255; 0;
   0; 0; 0; 0; 0; 0; 0; 0; 0; 0; 0; 0; 0; 0; 0; 0; 0; 0; 0; 0;
   255; 255; 255; 0; 255; 0; 0; 255; 0; 0; 255; 0; 0; 255; 0; 0; 255; 0; 0; 255;
   0; 0; 255; 0; 255; 255; 255; 0; 0; 0; 0; 0; 0; 0; 0; 0; 0; 0; 0; 0;
   0; 0; 0; 0; 0; 0; 0; 0; 0; 0; 0; 255; 255; 255; 0; 255; 0; 0; 255; 0;
   0; 255; 0; 0; 255; 0; 0; 255; 0; 0; 255; 0; 255; 255; 255; 0; 0; 0; 0; 0;
   0; 0; 0; 0; 0; 0; 0; 0; 0; 0; 0; 0; 0; 0; 0; 0; 0; 0; 0; 0;
   0; 0; 255; 255; 255; 0; 255; 0; 0; 255; 0; 0; 255; 0; 0; 255; 0; 0; 255; 0;
   255; 255; 255; 0; 0; 0; 0; 0; 0; 0; 0; 0; 0; 0; 0; 0; 0; 0; 0; 0;
   0; 0; 0; 0; 0; 0; 0; 0; 0; 0; 0; 0; 0; 255; 255; 255; 0; 255; 0; 0;
   255; 0; 0; 255; 0; 0; 255; 0; 255; 255; 255; 0; 0; 0; 0; 0; 0; 0; 0; 0;
   0; 0; 0; 0; 0; 0; 0; 0; 0; 0; 0; 0; 0; 0; 0; 0; 0; 0; 0; 0;
   0; 0; 0; 0; 255; 255; 255; 0; 255; 0; 0; 255; 0; 0; 255; 0; 255; 255; 255; 0;
   0; 0; 0; 0; 0; 0; 0; 0; 0; 0; 0; 0; 0; 0; 0; 0; 0; 0; 0; 0;
   0; 0; 0; 0; 0; 0; 0; 0; 0; 0; 0; 0; 0; 0; 0; 255; 255; 255; 0; 255;
   0; 0; 255; 0; 255; 255; 255; 0; 0; 0; 0; 0; 0; 0; 0; 0; 0; 0; 0; 0;
   0; 0; 0; 0; 0; 0; 0; 0; 255; 255; 255; 255; 255; 255; 255; 255; 255; 255; 255; 255;
   255; 255; 255; 0; 255; 0; 0; 255; 0; 0; 255; 0; 255; 255; 255; 0; 0; 0; 0; 0;
   0; 0; 0; 0; 255; 255; 255; 0; 0; 0; 0; 0; 0; 0; 0; 0; 255; 255; 255; 0;
   255; 0; 0; 255; 0; 0; 255; 0; 0; 255; 0; 0; 255; 0; 0; 255; 0; 0; 255; 0;
   255; 255; 255; 0; 0; 0; 0; 0; 0; 255; 255; 255; 0; 255; 0; 255; 255; 255; 0; 0;
   0; 0; 0; 0; 0; 0; 0; 255; 255; 255; 0; 255; 0; 0; 255; 0; 0; 255; 0; 0;
   255; 0; 0; 255; 0; 0; 255; 0; 255; 255; 255; 0; 0; 0; 255; 255; 255; 0; 255; 0;
   0; 255; 0; 255; 255; 255; 0; 0; 0; 0; 0; 0; 0; 0; 0; 255; 255; 255; 0; 255;
   0; 0; 255; 0; 0; 255; 0; 0; 255; 0; 0; 255; 0; 0; 255; 0; 0; 255; 0; 255;
   255; 255; 0; 255; 0; 0; 255; 0; 0; 255; 0; 0; 255; 0; 255; 255; 255; 255; 255; 255;
   255; 255; 255; 0; 255; 0; 0; 255; 0; 0; 255; 0; 0; 255; 0; 0; 255; 0; 0; 255;
   0; 0; 255; 0; 0; 255; 0; 0; 255; 0; 0; 255; 0; 0; 255; 0; 0; 255; 0; 0;
   255; 0; 0; 255; 0; 0; 255; 0; 0; 255; 0; 0; 255; 0; 0; 255; 0; 0; 255; 0;
   0; 255; 0; 0; 255; 0; 0; 255; 0; 0; 255; 0].

(** ** The header *)

(** A header: comment lines, and three numbers each followed by a blank. *)
Definition comment_line (cs : list Z) : list Z := 35 :: cs ++ [10].
Definition field (comments : list (list Z)) (n blank : Z) : list Z :=
  concat (map comment_line comments) ++ num_text decimal n ++ [blank].

Definition atoi_step (a c : Z) : Z := i32 (i32 (a * 10) + (c - 48)).

Lemma atoi_loop_ok fuel m s i cs a : (length cs < fuel)%nat → cstr m (s + i) cs →
  atoi_loop fuel s i a m = Ret (foldl atoi_step a cs, m).
Proof.
  revert i a cs. induction fuel as [|fuel IH]; intros i a cs Hf Hs; [lia|]. cbn [atoi_loop]. destruct cs as [|c cs].
  - by rewrite (bind_run _ _ _ _ _ (rdc_nil _ _ Hs)).
  - rewrite (bind_run _ _ _ _ _ (rdc_cons _ _ _ _ Hs)). destruct Hs as (_ & Hc & Hs). rewrite truthy_ne by done.
    rewrite (IH (i + 1) _ cs); [done|simpl in Hf; lia|by rewrite Z.add_assoc].
Qed.

Lemma decimal_digit d : 0 <= d < 10 → zget decimal d = Some (48 + d).
Proof.
  intros. assert (d = 0 ∨ d = 1 ∨ d = 2 ∨ d = 3 ∨ d = 4 ∨ d = 5 ∨ d = 6 ∨ d = 7 ∨ d = 8 ∨ d = 9) as Hd by lia.
  by destruct_or! Hd; subst.
Qed.

Lemma atoi_digits k : ∀ n, 0 <= n < 2 ^ Z.of_nat k → n < 2 ^ 31 → foldl atoi_step 0 (digits decimal k n) = n.
Proof.
  induction k as [|k IH]; intros n Hn H31; cbn [digits]; [simpl in Hn; simpl; lia|].
  destruct (Z.eqb_spec n 0) as [->|Hne]; [done|]. change (radix decimal) with 10.
  pose proof (Z.mod_pos_bound n 10 ltac:(lia)). pose proof (Z.div_mod n 10 ltac:(lia)).
  rewrite foldl_app, IH; [|apply (div_shrinks decimal); [by apply bases_ok|done]|lia].
  rewrite decimal_digit by lia. cbn [foldl from_option id]. unfold atoi_step. rewrite (i32_small (_ * 10)), i32_small by lia. lia.
Qed.

Lemma atoi_num fuel m s n : 0 <= n < 2 ^ 31 → (length (num_text decimal n) < fuel)%nat → cstr m s (num_text decimal n) →
  atoi fuel s m = Ret (n, m).
Proof.
  intros Hn Hf Hs. unfold atoi. rewrite (atoi_loop_ok fuel m s 0 (num_text decimal n)); [|done|by rewrite Z.add_0_r].
  do 2 f_equal. unfold num_text. destruct (Z.eqb_spec n 0) as [->|_]; [done|]. apply atoi_digits; change (Z.of_nat 32) with 32; lia.
Qed.

Lemma digits_short k : ∀ j n, 0 <= n < 10 ^ Z.of_nat j → (length (digits decimal k n) <= j)%nat.
Proof.
  induction k as [|k IH]; intros j n Hn; cbn [digits]; [simpl; lia|]. destruct (Z.eqb_spec n 0); [simpl; lia|].
  destruct j as [|j]; [simpl in Hn; lia|]. rewrite length_app. simpl. change (radix decimal) with 10.
  rewrite Nat2Z.inj_succ, Z.pow_succ_r in Hn by lia. enough (length (digits decimal k (n / 10)) <= j)%nat by lia.
  apply IH. split; [apply Z.div_pos; lia|]. apply Z.div_lt_upper_bound; lia.
Qed.

Lemma num_text_short n : 0 <= n < 2 ^ 31 → (length (num_text decimal n) <= 10)%nat.
Proof.
  intros Hn. unfold num_text. destruct (n =? 0); [simpl; lia|]. apply digits_short. change (Z.of_nat 10) with 10. lia.
Qed.

(** Digits only. *)
Lemma digits_in k : ∀ n, 0 <= n → Forall (λ c, 48 <= c < 58) (digits decimal k n).
Proof.
  induction k as [|k IH]; intros n Hn; cbn [digits]; [done|]. destruct (n =? 0); [done|]. change (radix decimal) with 10.
  pose proof (Z.mod_pos_bound n 10 ltac:(lia)). rewrite decimal_digit by lia. cbn [from_option id].
  apply Forall_app. split; [apply IH, Z.div_pos; lia|]. constructor; [lia|done].
Qed.

Lemma num_text_in n : 0 <= n → Forall (λ c, 48 <= c < 58) (num_text decimal n).
Proof. intros. unfold num_text. destruct (n =? 0); [by repeat constructor|by apply digits_in]. Qed.

Lemma num_text_head n : 0 <= n < 2 ^ 31 → ∃ c cs, num_text decimal n = c :: cs ∧ 48 <= c < 58.
Proof.
  intros Hn. pose proof (num_text_in n ltac:(lia)) as Hd. destruct (num_text decimal n) as [|c cs] eqn:E.
  - exfalso. unfold num_text in E. destruct (Z.eqb_spec n 0); [done|].
    destruct (digits_head decimal (proj1 bases_ok) 32 n ltac:(change (Z.of_nat 32) with 32; lia)) as (? & ? & E' & _). congruence.
  - exists c, cs. split; [done|]. by apply Forall_cons in Hd as [? _].
Qed.

(** ** Scanning *)
Lemma strcspn_ok fuel m s rej rs pre c rest : cstr m rej rs → 0 < rej → c ∈ rs →
  Forall (λ x, x ∉ rs) pre → (length pre + length rs + 1 < fuel)%nat → cstr m s (pre ++ c :: rest) →
  strcspn fuel s rej m = Ret (Z.of_nat (length pre), m).
Proof. intros Hr Hrej Hc. apply strcspn_stops; [done|done|]. by intros ? [= <-]. Qed.

(** A string's tail is a string. *)
Section load.
Context (nl sep temp : Z) (m0 : mem).

(** The literals are in memory, [temp] is 32 bytes apart from them. *)
Record ppm_memory (m : mem) : Prop := {
  pm_nl : cstr m nl [10]; pm_nl0 : 0 < nl;
  pm_sep : cstr m sep [32; 10]; pm_sep0 : 0 < sep;
  pm_temp : CString.mapped m temp 32;
  pm_apart : ∀ a, temp <= a < temp + 32 → ¬ (nl <= a <= nl + 1) ∧ ¬ (sep <= a <= sep + 2)
}.

(** Only [temp] differs. *)
Definition off_temp (m m' : mem) : Prop :=
  (∀ a, ¬ (temp <= a < temp + 32) → m' !! a = m !! a) ∧ ∀ a, is_Some (m !! a) → is_Some (m' !! a).

Lemma off_temp_memory m m' : off_temp m m' → ppm_memory m → ppm_memory m'.
Proof.
  intros [Ho Hd] [H1 ? H3 ? H5 H6]. split; try done.
  - eapply cstr_ext; [|exact H1]. intros a Ha. apply Ho. intros Ht. simpl in Ha. specialize (H6 a). lia.
  - eapply cstr_ext; [|exact H3]. intros a Ha. apply Ho. intros Ht. simpl in Ha. specialize (H6 a). lia.
  - intros a Ha. apply Hd. by apply H5.
Qed.

Definition comments_ok (comments : list (list Z)) : Prop := Forall (λ cs, 10 ∉ cs) comments.

Lemma skip_comments_ok comments : ∀ turns fuel m buf c rest, ppm_memory m → comments_ok comments → c ≠ 35 →
  (length comments < turns)%nat → (length (concat (map comment_line comments)) + 3 < fuel)%nat →
  cstr m buf (concat (map comment_line comments) ++ c :: rest) →
  skip_comments nl turns fuel buf m = Ret (buf + Z.of_nat (length (concat (map comment_line comments))), m).
Proof.
  induction comments as [|cs comments IH]; intros turns fuel m buf c rest Hm Hok Hc Ht Hf Hs;
    (destruct turns as [|turns]; [simpl in Ht; lia|]); cbn [skip_comments]; simpl in Hs.
  - rewrite (bind_run _ _ _ _ _ (rdc_cons _ _ _ _ Hs)), (proj2 (Z.eqb_neq c 35) Hc). simpl. by rewrite Z.add_0_r.
  - rewrite (bind_run _ _ _ _ _ (rdc_cons _ _ _ _ Hs)). cbn [Z.eqb Pos.eqb].
    apply Forall_cons in Hok as [Hcs Hok]. rewrite <-!app_assoc in Hs. simpl in Hf. rewrite !length_app in Hf. simpl in Hf.
    assert (strcspn fuel buf nl m = Ret (Z.of_nat (length (35 :: cs)), m)) as E.
    { eapply (strcspn_ok fuel m buf nl [10] (35 :: cs) 10); try apply Hm; [by left| |simpl; lia|exact Hs].
      constructor; [by intros ?%list_elem_of_singleton|]. apply Forall_forall. intros x Hx ->%list_elem_of_singleton. done. }
    rewrite (bind_run _ _ _ _ _ E). pose proof (cstr_app m buf (35 :: cs ++ [10]) _ ltac:(rewrite <-app_comm_cons, <-app_assoc; exact Hs)) as Hs'.
    simpl length in *. rewrite !length_app in *. simpl length in *.
    replace (buf + (Z.of_nat (S (length cs)) + 1)) with (buf + Z.of_nat (S (length cs + 1))) by lia.
    rewrite (IH turns fuel m _ c rest); [do 2 f_equal|..]; try done; try lia.
Qed.

Lemma parse_text_ok turns fuel m buf comments n blank rest : ppm_memory m → comments_ok comments →
  0 <= n < 2 ^ 31 → blank ∈ [32; 10] → (length comments < turns)%nat →
  (length (field comments n blank ++ rest) + 8 < fuel)%nat → cstr m buf (field comments n blank ++ rest) →
  (∀ a, buf <= a <= buf + Z.of_nat (length (field comments n blank ++ rest)) → ¬ (temp <= a < temp + 32)) →
  ∃ m', parse_text nl sep temp turns fuel buf m = Ret ((n, buf + Z.of_nat (length (field comments n blank))), m') ∧ off_temp m m'.
Proof.
  intros Hm Hok Hn Hb Ht Hf Hs Hd. unfold field in *. set (pre := concat (map comment_line comments)) in *.
  pose proof (num_text_short n Hn) as Hshort. destruct (num_text_head n Hn) as (c & ds & En & Hc).
  rewrite <-!app_assoc in *. rewrite !length_app in Hf, Hd. simpl in Hf, Hd.
  unfold parse_text. rewrite (bind_run _ _ _ (buf + Z.of_nat (length pre)) m); cycle 1.
  { eapply (skip_comments_ok comments _ _ _ _ c (ds ++ [blank] ++ rest)); try done; fold pre; [lia..|]. by rewrite En in Hs. }
  pose proof (cstr_app _ _ _ _ Hs) as Hs1. set (p := buf + Z.of_nat (length pre)) in *.
  assert (strcspn fuel p sep m = Ret (Z.of_nat (length (num_text decimal n)), m)) as E.
  { eapply (strcspn_ok fuel m p sep [32; 10] _ blank rest); try apply Hm; [done| |simpl; lia|exact Hs1].
    eapply Forall_impl; [apply num_text_in; lia|]. simpl. intros x Hx. rewrite !elem_of_cons, elem_of_nil. lia. }
  rewrite (bind_run _ _ _ _ _ E).
  destruct (strlcpy_ok fuel m temp p (Z.of_nat (length (num_text decimal n)) + 1) (num_text decimal n ++ [blank] ++ rest))
    as (m' & E' & Hstr & Ho & Hdom & _); [exact Hs1|lia| | |rewrite !length_app; simpl; lia|].
  { intros a Ha. apply (pm_temp _ Hm). lia. }
  { intros a Ha Hta. rewrite !length_app in Ha. simpl in Ha. apply (Hd a); subst p; lia. }
  rewrite (bind_run _ _ _ _ _ E').
  replace (Z.to_nat (Z.of_nat (length (num_text decimal n)) + 1 - 1)) with (length (num_text decimal n)) in Hstr by lia.
  rewrite take_app_length in Hstr. exists m'. split; [|split; [intros a Ha; apply Ho; lia|done]].
  rewrite (bind_run _ _ _ _ _ (atoi_num fuel m' temp n Hn ltac:(lia) Hstr)). rewrite u32_small by lia.
  unfold mret, M_ret. rewrite !length_app. simpl length. do 3 f_equal. subst p. lia.
Qed.
End load.

(** The header of a picture, after the three bytes of its magic number. *)
Definition ppm_header (cw ch cm : list (list Z)) (w bw h bh mx bm : Z) : list Z :=
  field cw w bw ++ field ch h bh ++ field cm mx bm.

Section claims.
Context (nl sep temp : Z).

(** [ppm_load] reads back what a header of a binary PPM file says: its
    version, width and height, printed in decimal with comment lines in front
    of each number, and [pixbuf] is the byte after the header.  It writes to
    its local array only.  (The characters after the header must reach a NUL:
    [strlcpy] measures the rest of the file.) *)
Theorem ppm_load_correct turns fuel m data version cw ch cm w bw h bh mx bm rest :
  let header := ppm_header cw ch cm w bw h bh mx bm in
  ppm_memory nl sep temp m → m !! (data + 1) = Some version → cstr m (data + 3) (header ++ rest) →
  Forall comments_ok [cw; ch; cm] → Forall (λ n, 0 <= n < 2 ^ 31) [w; h; mx] → Forall (λ b, b ∈ [32; 10]) [bw; bh; bm] →
  (length (cw ++ ch ++ cm) < turns)%nat → (length (header ++ rest) + 8 < fuel)%nat →
  (∀ a, data + 3 <= a <= data + 3 + Z.of_nat (length (header ++ rest)) → ¬ (temp <= a < temp + 32)) →
  ∃ m', ppm_load nl sep temp turns fuel data m = Ret (mk_ppm version w h (data + 3 + Z.of_nat (length header)), m') ∧
    off_temp temp m m'.
Proof.
  intros header Hm Hv Hs Hc Hn Hb Ht Hf Hd. rewrite !Forall_cons in Hc. rewrite !Forall_cons in Hn. rewrite !Forall_cons in Hb.
  destruct Hc as (Hc1 & Hc2 & Hc3 & _), Hn as (Hn1 & Hn2 & Hn3 & _), Hb as (Hb1 & Hb2 & Hb3 & _).
  unfold header, ppm_header in *. rewrite <-!app_assoc in *. rewrite !length_app in *.
  unfold ppm_load. rewrite (bind_run _ _ _ version m) by (unfold rd, getsome; by rewrite Hv).
  destruct (parse_text_ok nl sep temp turns fuel m (data + 3) cw w bw (field ch h bh ++ field cm mx bm ++ rest) Hm Hc1 Hn1 Hb1 ltac:(lia) ltac:(rewrite !length_app; lia) Hs)
    as (m1 & E1 & H1); [intros a Ha; rewrite !length_app in Ha; apply Hd; lia|].
  rewrite (bind_run _ _ _ _ _ E1). cbn [fst snd]. set (p1 := data + 3 + Z.of_nat (length (field cw w bw))) in *.
  apply cstr_app in Hs. fold p1 in Hs.
  assert (cstr m1 p1 (field ch h bh ++ field cm mx bm ++ rest)) as Hs1.
  { eapply cstr_ext; [|exact Hs]. intros a Ha. apply H1. rewrite !length_app in Ha. apply Hd. lia. }
  destruct (parse_text_ok nl sep temp turns fuel m1 p1 ch h bh (field cm mx bm ++ rest) (off_temp_memory _ _ _ _ _ H1 Hm) Hc2 Hn2 Hb2 ltac:(lia)
    ltac:(rewrite !length_app; lia) Hs1) as (m2 & E2 & H2); [intros a Ha; rewrite !length_app in Ha; apply Hd; lia|].
  rewrite (bind_run _ _ _ _ _ E2). cbn [fst snd]. set (p2 := p1 + Z.of_nat (length (field ch h bh))) in *.
  apply cstr_app in Hs1. fold p2 in Hs1.
  assert (cstr m2 p2 (field cm mx bm ++ rest)) as Hs2.
  { eapply cstr_ext; [|exact Hs1]. intros a Ha. apply H2. rewrite !length_app in Ha. apply Hd. lia. }
  destruct (parse_text_ok nl sep temp turns fuel m2 p2 cm mx bm rest (off_temp_memory _ _ _ _ _ H2 (off_temp_memory _ _ _ _ _ H1 Hm))
    Hc3 Hn3 Hb3 ltac:(lia) ltac:(rewrite !length_app; lia) Hs2) as (m3 & E3 & H3);
    [intros a Ha; rewrite !length_app in Ha; apply Hd; lia|].
  rewrite (bind_run _ _ _ _ _ E3). exists m3. split.
  - unfold mret, M_ret. cbn [fst snd]. do 3 f_equal. subst p2 p1. lia.
  - destruct H1 as [Ho1 Hd1], H2 as [Ho2 Hd2], H3 as [Ho3 Hd3]. split; [|naive_solver].
    intros a Ha. by rewrite Ho3, Ho2, Ho1.
Qed.
End claims.

(** ** The cursor *)

(** Literals at 16 and 32, the local array at 64, the picture at 4096. *)
Definition cursor_mem : mem :=
  put_bytes 16 [10; 0] (put_bytes 32 [32; 10; 0] (put_bytes 64 (replicate 32 0) (put_bytes 4096 cursor_default_ppm ∅))).

(** [main] loads the cursor: 16 by 20 pixels, which are all there. *)
Lemma cursor_loads : ∃ m', ppm_load 16 32 64 9 99 4096 cursor_mem = Ret (mk_ppm 54 16 20 (4096 + 52), m') ∧
  length cursor_default_ppm = (52 + 16 * 20 * 3)%nat.
Proof. eexists. split; vm_compute; reflexivity. Qed.

Lemma ppm_load_correct_witness : ∃ m', ppm_load 16 32 64 3 99 4096 cursor_mem = Ret (mk_ppm 54 16 20 (4096 + 52), m').
Proof.
  set (comment := [32; 67; 82; 69; 65; 84; 79; 82; 58; 32; 71; 73; 77; 80; 32; 80; 78; 77; 32; 70; 105; 108; 116; 101; 114; 32; 86;
                   101; 114; 115; 105; 111; 110; 32; 49; 46; 49]).
  destruct (ppm_load_correct 16 32 64 3 99 cursor_mem 4096 54 [comment] [] [] 16 32 20 10 255 10 [-1; -1; -1]) as (m' & E & _).
  - split; [| done | | done | | ]; [apply (read_cstr_ok 5); [vm_compute; reflexivity|by repeat constructor]..| |].
    + intros a Ha. apply elem_of_dom. revert a Ha. assert (Forall (λ k, 64 + Z.of_nat k ∈ dom cursor_mem) (seq 0 32)) as Hall.
      { apply (bool_decide_unpack _). vm_compute. exact I. }
      intros a Ha. replace a with (64 + Z.of_nat (Z.to_nat (a - 64))) by lia.
      apply (proj1 (Forall_forall _ _) Hall). apply elem_of_seq. lia.
    + intros a Ha. lia.
  - reflexivity.
  - apply (read_cstr_ok 99); [vm_compute; reflexivity|]. repeat constructor; done.
  - repeat constructor; apply (bool_decide_unpack _); vm_compute; exact I.
  - repeat constructor; lia.
  - repeat constructor.
  - vm_compute. lia.
  - vm_compute. lia.
  - intros a Ha. lia.
  - exists m'. exact E.
Defined.
