(* ===== verification/Wm.v ===== *)
(** The window manager ([programs/stubbywm/src/main.c], [ppm.c],
    [include/stubbywm/stubbywm.h], [interface.h]): update regions, drawing into
    the double buffer and from there to the frame buffer, events, and the
    requests of clients.

    [wm_t] is split in two records: [screen] is what drawing works on, [wm] the
    rest.  The two threads are not interleaved: each operation is atomic here,
    while the code shares [wm_t] without a lock. *)

From S2P Require Import Prelude Interfaces Kernel Mem Prng CString Nameserver Devices WinList Ppm.
#[local] Open Scope Z_scope.

Definition MAX_UPDATES : Z := 128.
Definition STUBBYWM_WINDOW_COLOR : Z := 0x202020.
Definition STUBBYWM_BORDER_SIZE : Z := 3.
Definition STUBBYWM_TITLEBAR_SIZE : Z := 25.

(** [wm_update_t]. *)
Record wm_update := mk_update { lower : point; upper : point }.

(** The drawing state: the frame's size, the update regions, the double buffer
    and the frame buffer; [images] is the program's data, where pictures are,
    [surfaces] the buffers of the windows by their address, which the clients
    draw to. *)
Record screen := mk_screen {
  info_width : Z; info_height : Z; updates : list wm_update; num_updates : Z;
  dbuf : list Z; fbuf : list Z; images : mem; surfaces : gmap Z (list Z)
}.

Definition set_updates (l : list wm_update) (n : Z) (s : screen) : screen :=
  mk_screen (info_width s) (info_height s) l n (dbuf s) (fbuf s) (images s) (surfaces s).
Definition set_dbuf (b : list Z) (s : screen) : screen :=
  mk_screen (info_width s) (info_height s) (updates s) (num_updates s) b (fbuf s) (images s) (surfaces s).
Definition set_fbuf (b : list Z) (s : screen) : screen :=
  mk_screen (info_width s) (info_height s) (updates s) (num_updates s) (dbuf s) b (images s) (surfaces s).

Abbreviation C := (M screen).

(** [for ( unsigned i = a; i < b; i++ )] *)
Definition from_to {S} (a b : Z) (body : Z → M S unit) : M S unit := for_loop (Z.to_nat (u32 b - u32 a)) (u32 a) body.

(** ** Update regions *)
Definition reset_updates : C unit := modify (λ s, set_updates (updates s) 0 s).

(** [int] compared with [unsigned]: both sides are unsigned. *)
Definition normalize_point (s : screen) (pt : point) : point :=
  let x := if px pt <? 0 then 0 else px pt in
  let y := if py pt <? 0 then 0 else py pt in
  let x := if info_width s <? u32 x then i32 (info_width s) else x in
  let y := if info_height s <? u32 y then i32 (info_height s) else y in
  mk_point x y.

(** [up->lower = ..., up->upper = ...] for the region with index [i]. *)
Definition put_update (i : Z) (up : wm_update) : C unit :=
  l ← getsome (λ s, zset (updates s) i up); modify (λ s, set_updates l (num_updates s) s).

(** [alloc_update] and [set_full_update] call each other, at most once: after
    the reset there is room again.  The result is the index of the region. *)
Fixpoint alloc_update (depth : nat) : C Z :=
  match depth with
  | O => nofuel
  | S depth' =>
      s ← get;
      let ret := num_updates s in
      modify (λ s, set_updates (updates s) (u32 (num_updates s + 1)) s);;
      s ← get;
      (if MAX_UPDATES <=? num_updates s then
         reset_updates;;
         (* set_full_update *)
         up ← alloc_update depth';
         put_update up (mk_update (mk_point 0 0) (mk_point (i32 (info_width s)) (i32 (info_height s))))
       else mret tt);;
      modify (λ s, set_updates (updates s) (num_updates s mod MAX_UPDATES) s);;
      mret ret
  end.

Definition set_full_update : C unit :=
  s ← get;
  up ← alloc_update 2;
  put_update up (mk_update (mk_point 0 0) (mk_point (i32 (info_width s)) (i32 (info_height s)))).

Definition point_less_than (a b : point) : bool := (py a <? py b) || ((py a =? py b) && (px a <? px b)).

Definition update_region (a b : point) : C unit :=
  up ← alloc_update 2;
  s ← get;
  put_update up (mk_update (normalize_point s (if point_less_than a b then a else b))
                           (normalize_point s (if point_less_than a b then b else a))).

(** ** Pixels *)
Definition mix_channel (a b alpha : Z) : Z :=
  let lower := u32 (a * (255 - alpha)) in
  let upper := u32 (b * alpha) in
  u8 (u32 (lower + upper) / 255).

Definition load_px (i : Z) : C Z := getsome (λ s, zget (dbuf s) i).
Definition store_px (i v : Z) : C unit := b ← getsome (λ s, zset (dbuf s) i v); modify (set_dbuf b).

(** [pixel] drawn over [temp]. *)
Definition blend (temp pixel : Z) : Z :=
  let alpha := u8 (Z.shiftr pixel 24) in
  Z.lor (Z.lor (Z.shiftl (mix_channel (u8 (Z.shiftr temp 16)) (u8 (Z.shiftr pixel 16)) alpha) 16)
               (Z.shiftl (mix_channel (u8 (Z.shiftr temp 8)) (u8 (Z.shiftr pixel 8)) alpha) 8))
        (mix_channel (u8 temp) (u8 pixel) alpha).

Definition draw_pixel (x y pixel : Z) : C unit :=
  if (x <? 0) || (y <? 0) then mret tt
  else
    s ← get;
    if (info_width s <=? x) || (info_height s <=? y) then mret tt
    else
      let i := u32 (u32 (y * info_width s) + x) in
      if negb (Z.land pixel 0xff000000 =? 0) then temp ← load_px i; store_px i (blend temp pixel)
      else store_px i pixel.

Definition draw_rect (r : rect) (color : Z) : C unit :=
  from_to 0 (height r) (λ y, from_to 0 (width r) (λ x,
    draw_pixel (i32 (u32 (x + px (coord r)))) (i32 (u32 (y + py (coord r)))) color)).

(** ** The parts of a frame *)
Definition load_byte (a : Z) : C Z := getsome (λ s, images s !! a).

(** [ppm_draw]: pure green is transparent. *)
Definition ppm_draw (p : ppm) (at_ : point) : C unit :=
  from_to 0 (ppm_height p) (λ y, from_to 0 (ppm_width p) (λ x,
    let data := pixbuf p + u32 (u32 (u32 (y * ppm_width p) + x) * 3) in
    red ← load_byte data; green ← load_byte (data + 1); blue ← load_byte (data + 2);
    let pixel := Z.lor (Z.lor (Z.shiftl red 16) (Z.shiftl green 8)) blue in
    if pixel =? 0x00ff00 then mret tt
    else draw_pixel (i32 (u32 (x + px at_))) (i32 (u32 (y + py at_))) pixel)).

(** [wm_update_t up = state->updates[k]], for every [k]. *)
Definition for_updates (body : wm_update → C unit) : C unit :=
  s ← get; from_to 0 (num_updates s) (λ k, up ← getsome (λ s, zget (updates s) k); body up).

Definition background_pixel (x y : Z) : Z :=
  let thing := u8 (Z.shiftr (Z.lxor x y) 2 + 0xa0) in
  Z.lor (Z.lor (Z.shiftl (Z.shiftr thing 1) 16) (Z.shiftl thing 9)) thing.

Definition draw_background : C unit :=
  for_updates (λ up,
    from_to (py (lower up)) (py (upper up)) (λ y, from_to (px (lower up)) (px (upper up)) (λ x,
      draw_pixel (i32 x) (i32 y) (background_pixel x y)))).

Definition rect_max_coord (s : screen) (r : rect) : point :=
  normalize_point s (mk_point (i32 (px (coord r) + width r)) (i32 (py (coord r) + height r))).

Definition load_surface (va i : Z) : C Z := getsome (λ s, b ← surfaces s !! va; zget b i).

Definition draw_window (w : window) : C unit :=
  for_updates (λ up,
    s ← get;
    let a := coord (w_rect w) in
    let b := rect_max_coord s (w_rect w) in
    if (py (upper up) <=? py a) || (py b <? py (lower up)) then mret tt
    else if (px (upper up) <=? px a) || (px b <? px (lower up)) then mret tt
    else
      let y_start := if py (lower up) <? py a then py a else py (lower up) in
      let x_start := if px (lower up) <? px a then px a else px (lower up) in
      from_to y_start (Z.min (u32 (py b)) (u32 (py (upper up)))) (λ y,
        from_to x_start (Z.min (u32 (px b)) (u32 (px (upper up)))) (λ x,
          if has_buffer w then
            let yoff := i32 (u32 (y - py a) * width (w_rect w)) in
            let xoff := i32 (u32 (x - px a)) in
            pixel ← load_surface (vaddr (w_buffer w)) (i32 (yoff + xoff));
            draw_pixel (i32 x) (i32 y) pixel
          else draw_pixel (i32 x) (i32 y) (w_color w)))).

(** The rectangles around a window, with their colours, in drawing order. *)
Definition decoration (w : window) : list (rect * Z) :=
  let c := coord (w_rect w) in let wd := width (w_rect w) in let ht := height (w_rect w) in
  [ (mk_rect (mk_point (i32 (px c - STUBBYWM_BORDER_SIZE)) (i32 (py c - STUBBYWM_TITLEBAR_SIZE)))
       STUBBYWM_TITLEBAR_SIZE (u32 (wd + STUBBYWM_BORDER_SIZE * 2)), STUBBYWM_WINDOW_COLOR);
    (mk_rect (mk_point (i32 (i32 (px c + 5) - STUBBYWM_BORDER_SIZE)) (i32 (py c - 20))) 15 (wd / 4), 0xc0c0c0);
    (mk_rect (mk_point (i32 (px c - STUBBYWM_BORDER_SIZE)) (py c)) (u32 (ht + STUBBYWM_BORDER_SIZE)) STUBBYWM_BORDER_SIZE,
       STUBBYWM_WINDOW_COLOR);
    (mk_rect (mk_point (i32 (px c + wd)) (py c)) (u32 (ht + STUBBYWM_BORDER_SIZE)) STUBBYWM_BORDER_SIZE, STUBBYWM_WINDOW_COLOR);
    (mk_rect (mk_point (px c) (i32 (py c + ht))) STUBBYWM_BORDER_SIZE wd, STUBBYWM_WINDOW_COLOR) ].

Fixpoint draw_rects (l : list (rect * Z)) : C unit :=
  match l with [] => mret tt | (r, color) :: l' => draw_rect r color;; draw_rects l' end.

Definition draw_window_decoration (w : window) : C unit := draw_rects (decoration w).

(** The rectangles of the status bar. *)
Definition status_bar (w h : Z) : list (rect * Z) :=
  [ (mk_rect (mk_point 0 (i32 (h - 25))) 25 w, 0xc0c0c0);
    (mk_rect (mk_point 5 (i32 (h - 20))) 15 15, 0x202020);
    (mk_rect (mk_point 25 (i32 (h - 20))) 15 60, 0x808080);
    (mk_rect (mk_point (i32 (w - 65)) (i32 (h - 20))) 15 60, 0x808080) ].

Definition draw_status_bar : C unit := s ← get; draw_rects (status_bar (info_width s) (info_height s)).

(** [fbuf[index] = dbuf[index]] *)
Definition copy_px (i : Z) : C unit :=
  v ← load_px i; b ← getsome (λ s, zset (fbuf s) i v); modify (set_fbuf b).

Definition draw_framebuffer : C unit :=
  s ← get;
  if num_updates s =? 0 then mret tt
  else
    for_updates (λ up,
      from_to (py (lower up)) (py (upper up)) (λ y, from_to (px (lower up)) (px (upper up)) (λ x,
        copy_px (u32 (u32 (y * info_width s) + x))))).

(** ** The window manager *)
Definition STUBBYWM_NEW_WINDOW : Z := 0xdabad00.
Definition STUBBYWM_NEW_WINDOW_RESPONSE : Z := 0xdabad01.
Definition STUBBYWM_UPDATE : Z := 0xdabad06.
Definition STUBBYWM_KEYBOARD_EVENT : Z := 0xdabad07.

Record wm (H R : Type) := mk_wm {
  winlist : window_list H; wm_screen : screen; wm_proc : process R; prng : Z;
  peripherals : Z; mouse : point; mouse_cursor : ppm; wm_buffer : c4_mem_object; buf_cap : Z; buf_server : Z
}.
Arguments mk_wm {H R}.
Arguments winlist {H R}.
Arguments wm_screen {H R}.
Arguments wm_proc {H R}.
Arguments prng {H R}.
Arguments peripherals {H R}.
Arguments mouse {H R}.
Arguments mouse_cursor {H R}.
Arguments wm_buffer {H R}.
Arguments buf_cap {H R}.
Arguments buf_server {H R}.

Section wm.
Context `{KernelEnv} {Hp R : Type} `{Allocator Hp} `{Allocator R}.
Abbreviation W := (M (wm Hp R)).

Definition set_winlist (l : window_list Hp) (s : wm Hp R) : wm Hp R :=
  mk_wm l (wm_screen s) (wm_proc s) (prng s) (peripherals s) (mouse s) (mouse_cursor s) (wm_buffer s) (buf_cap s) (buf_server s).
Definition set_screen (c : screen) (s : wm Hp R) : wm Hp R :=
  mk_wm (winlist s) c (wm_proc s) (prng s) (peripherals s) (mouse s) (mouse_cursor s) (wm_buffer s) (buf_cap s) (buf_server s).
Definition set_proc (p : process R) (s : wm Hp R) : wm Hp R :=
  mk_wm (winlist s) (wm_screen s) p (prng s) (peripherals s) (mouse s) (mouse_cursor s) (wm_buffer s) (buf_cap s) (buf_server s).
Definition set_prng (p : Z) (s : wm Hp R) : wm Hp R :=
  mk_wm (winlist s) (wm_screen s) (wm_proc s) p (peripherals s) (mouse s) (mouse_cursor s) (wm_buffer s) (buf_cap s) (buf_server s).
Definition set_mouse (p : point) (s : wm Hp R) : wm Hp R :=
  mk_wm (winlist s) (wm_screen s) (wm_proc s) (prng s) (peripherals s) p (mouse_cursor s) (wm_buffer s) (buf_cap s) (buf_server s).

Definition on_list {A} (m : M (window_list Hp) A) : W A := zoom winlist set_winlist m.
Definition on_screen {A} (m : C A) : W A := zoom wm_screen set_screen m.
Definition on_proc {A} (m : M (process R) A) : W A := zoom wm_proc set_proc m.
Definition wk {A} (m : K A) : W A := on_proc (on_kernel m).

(** ** A frame *)
Fixpoint draw_windows_loop (fuel : nat) (node : Z) : W unit :=
  match fuel with
  | O => nofuel
  | S fuel' =>
      if node =? 0 then mret tt
      else
        n ← on_list (load node);
        on_screen (draw_window (nd_window n));;
        on_screen (draw_window_decoration (nd_window n));;
        draw_windows_loop fuel' (nd_next n)
  end.
Definition draw_windows (fuel : nat) : W unit := s ← get; draw_windows_loop fuel (wl_start (winlist s)).

Definition draw_mouse : W unit := s ← get; on_screen (ppm_draw (mouse_cursor s) (mouse s)).

(** What the event loop does before it waits. *)
Definition draw_frame (fuel : nat) : W unit :=
  on_screen draw_background;;
  draw_windows fuel;;
  on_screen draw_status_bar;;
  draw_mouse;;
  on_screen draw_framebuffer;;
  on_screen reset_updates.

(** ** Events *)
Definition update_mouse_region : W unit :=
  s ← get;
  let offset := mk_point (i32 (px (mouse s) + ppm_width (mouse_cursor s))) (i32 (py (mouse s) + ppm_height (mouse_cursor s))) in
  on_screen (update_region (mouse s) offset).

Definition update_window_region (w : window) : W unit :=
  s ← get;
  let c := wm_screen s in
  let a := coord (w_rect w) in
  let b := rect_max_coord c (w_rect w) in
  let a := mk_point (i32 (px a - STUBBYWM_BORDER_SIZE)) (i32 (py a - STUBBYWM_TITLEBAR_SIZE)) in
  let b := mk_point (i32 (px b + STUBBYWM_BORDER_SIZE)) (i32 (py b + STUBBYWM_BORDER_SIZE)) in
  on_screen (update_region (normalize_point c a) (normalize_point c b)).

(** The window's rectangle, normalised, has the pointer in it. *)
Definition under_mouse (c : screen) (m : point) (w : window) : bool :=
  let a := coord (w_rect w) in
  let b := rect_max_coord c (w_rect w) in
  (px a <=? px m) && (py a <=? py m) && (px m <? px b) && (py m <? py b).

Definition moved (c : screen) (up_x up_y : Z) (w : window) : window :=
  let pt := normalize_point c (mk_point (i32 (px (coord (w_rect w)) + up_x)) (i32 (py (coord (w_rect w)) - up_y))) in
  window_set_pos w (px pt) (py pt).

(** From the top of the stack down. *)
Fixpoint handle_mouse_loop (fuel : nat) (ev : mouse_event) (node : Z) : W unit :=
  match fuel with
  | O => nofuel
  | S fuel' =>
      if node =? 0 then mret tt
      else
        n ← on_list (load node);
        s ← get;
        let win := nd_window n in
        if under_mouse (wm_screen s) (mouse s) win && truthy (Z.land (mev_flags ev) MOUSE_FLAG_LEFT) then
          update_window_region win;;
          on_list (window_list_remove node);;
          on_list (window_list_insert win);;
          update_window_region win
        else if under_mouse (wm_screen s) (mouse s) win && truthy (Z.land (mev_flags ev) MOUSE_FLAG_RIGHT) then
          update_window_region win;;
          on_list (upd node (set_window (moved (wm_screen s) (mev_x ev) (mev_y ev) win)));;
          n ← on_list (load node);
          update_window_region (nd_window n)
        else handle_mouse_loop fuel' ev (nd_prev n)
  end.

Definition handle_mouse (fuel : nat) (ev : mouse_event) : W unit :=
  update_mouse_region;;
  s ← get;
  handle_mouse_loop fuel ev (wl_end (winlist s));;
  modify (λ s, set_mouse (mk_point (i32 (px (mouse s) + mev_x ev)) (i32 (py (mouse s) - mev_y ev))) s);;
  modify (λ s, set_mouse (normalize_point (wm_screen s) (mouse s)) s);;
  update_mouse_region.

Definition handle_keyboard (ev : keyboard_event) : W unit :=
  s ← get;
  let node := wl_end (winlist s) in
  if node =? 0 then mret tt
  else
    n ← on_list (load node);
    if negb (has_buffer (nd_window n)) then mret tt
    else
      wk (c4_msg_send_async (mk_msg STUBBYWM_KEYBOARD_EVENT [kev_character ev; kev_modifiers ev; kev_scancode ev; kev_event ev])
            (to_port (nd_window n)));;
      mret tt.

Definition handle_client_update (fuel : nat) (msg : message) : W unit :=
  node ← on_list (find_client fuel (mget msg 0));
  if node =? 0 then mret tt else n ← on_list (load node); update_window_region (nd_window n).

Definition handle_event (fuel : nat) (msg : message) : W unit :=
  if mtype msg =? MOUSE_MSG_EVENT then handle_mouse fuel (mouse_parse_event msg)
  else if mtype msg =? KEYBOARD_MSG_EVENT then handle_keyboard (keyboard_parse_event msg)
  else if mtype msg =? STUBBYWM_UPDATE then handle_client_update fuel msg
  else mret tt.

(** [do ... while (c4rt_peripheral_have_event(...))] *)
Fixpoint handle_events (turns fuel : nat) (msg : message) : W unit :=
  match turns with
  | O => nofuel
  | S turns' =>
      handle_event fuel msg;;
      s ← get;
      r ← wk (c4rt_peripheral_have_event (peripherals s));
      if r.1 : bool then handle_events turns' fuel r.2 else mret tt
  end.

(** [event_loop] up to its first [frames] frames. *)
Definition event_loop (frames turns fuel : nat) : W unit :=
  on_screen reset_updates;;
  on_screen set_full_update;;
  for_loop frames 0 (λ _,
    draw_frame fuel;;
    wk (c4_sleep (1000000 / 60));;
    s ← get;
    msg ← wk (c4rt_peripheral_wait_event (peripherals s));
    handle_events turns fuel msg).

(** ** Clients *)
Context (prng_left_first : bool).

Definition set_ports (b : c4_mem_object) (to from sync : Z) (w : window) : window :=
  mk_window (w_rect w) b (w_color w) true to from sync.

Definition object_perms : Z := caps [CAP_ACCESS; CAP_MODIFY; CAP_MULTI_USE; CAP_SHARE].

Definition add_surface (va : Z) (px : list Z) (c : screen) : screen :=
  mk_screen (info_width c) (info_height c) (updates c) (num_updates c) (dbuf c) (fbuf c) (images c) (<[va := px]> (surfaces c)).

(** [pages] is the memory of the new window's buffer, once it is mapped. *)
Definition server_handle_new_window (pages : list Z) (msg : message) (port : Z) : W unit :=
  let wd := mget msg 2 in let ht := mget msg 3 in
  let size := u32 (u32 (wd * ht) * 4) in
  color ← zoom prng set_prng (c4rt_prng_u32 prng_left_first);
  let newwin := window_create (u32 (i32 wd)) (u32 (i32 ht)) color in
  to ← wk c4_msg_create_async;
  from ← wk c4_msg_create_async;
  sync ← wk c4_msg_create_sync;
  wk (c4_msg_send (mk_msg STUBBYWM_NEW_WINDOW_RESPONSE [mget msg 0; mget msg 1; wd; ht; color]) port);;
  b ← on_proc (c4_memobj_alloc (w_buffer newwin) size (Z.lor PAGE_READ PAGE_WRITE));
  (if b.1 : bool then on_screen (modify (add_surface (vaddr b.2) pages)) else mret tt);;
  let newwin := set_ports b.2 (u32 to) (u32 from) (u32 sync) newwin in
  wk (c4_cspace_grant (to_port newwin) port object_perms);;
  wk (c4_cspace_grant (from_port newwin) port object_perms);;
  s ← get;
  wk (c4_cspace_grant (peripherals s) port object_perms);;
  wk (c4_cspace_grant (sync_port newwin) port object_perms);;
  wk (c4_cspace_grant (page_obj (w_buffer newwin)) port object_perms);;
  on_list (window_list_insert newwin);;
  update_window_region newwin.

(** One turn of [server_loop]. *)
Definition serve_client (pages : list Z) : W unit :=
  r ← wk (c4_msg_recieve C4_SERV_PORT);
  if negb (mtype r.2 =? MESSAGE_TYPE_GRANT_OBJECT) then mret tt
  else
    let temp := i32 (mget r.2 5) in
    r ← wk (c4_msg_recieve temp);
    (if mtype r.2 =? STUBBYWM_NEW_WINDOW then server_handle_new_window pages r.2 temp else mret tt);;
    wk (c4_cspace_remove C4_CURRENT_CSPACE temp);;
    mret tt.

Fixpoint find_framebuffer (n : nat) (name : list Z) : W Z :=
  match n with
  | O => mret 0
  | S n' => serv ← wk (nameserver_lookup C4_NAMESERVER name); if serv =? 0 then find_framebuffer n' name else mret serv
  end.

(** The worker thread that runs [server_loop]. *)
Definition start_worker (entry stack : Z) : K unit :=
  tid ← c4_create_thread entry stack 0;
  let tid := u32 tid in
  c4_set_capspace tid C4_CURRENT_CSPACE;;
  c4_set_addrspace tid C4_CURRENT_ADDRSPACE;;
  c4_set_pager tid C4_PAGER;;
  c4_continue_thread tid;;
  mret tt.

Definition mouse_name : list Z := [47; 100; 101; 118; 47; 109; 111; 117; 115; 101].
Definition keyboard_name : list Z := [47; 100; 101; 118; 47; 107; 101; 121; 98; 111; 97; 114; 100].
Definition stubbywm_name : list Z := [115; 116; 117; 98; 98; 121; 119; 109].
Definition framebuffer_name : list Z := [47; 100; 101; 118; 47; 102; 114; 97; 109; 101; 98; 117; 102; 102; 101; 114].

(** [memset(framebuffer, 0x80, width * height * 4)] on words. *)
Definition clear_framebuffer (info : framebuffer_info) (b : list Z) : option (list Z) :=
  let n := u32 (u32 (fbi_width info * fbi_height info) * 4) in
  if n <=? 4 * Z.of_nat (length b)
  then Some (replicate (Z.to_nat (n / 4)) 0x80808080 ++ drop (Z.to_nat (n / 4)) b) else None.

(** [main], from a state of zeros: [images] is the program's data with the
    cursor at [cursor], [frame] and [back] are the memory mapped for the frame
    buffer and for the double buffer, [entry] and [stack] the worker's. *)
Definition wm_main (nl sep temp cursor entry stack : Z) (frame back : list Z) (frames turns fuel : nat) : W Z :=
  s ← get;
  r ← on_screen (λ c, match ppm_load nl sep temp turns fuel cursor (images c) with
                      | Ret (p, m) => Ret (p, mk_screen (info_width c) (info_height c) (updates c) (num_updates c)
                                                (dbuf c) (fbuf c) m (surfaces c))
                      | UB => UB
                      | NoFuel => NoFuel
                      end);
  serv ← find_framebuffer 101 framebuffer_name;
  if serv =? 0 then mret 1
  else
    info ← wk (framebuffer_get_info serv);
    cap ← wk (framebuffer_get_buffer serv);
    wk (c4_addrspace_map C4_CURRENT_ADDRSPACE cap 0xfb000000 (Z.lor PAGE_READ PAGE_WRITE));;
    fb ← getsome (λ _, clear_framebuffer info frame);
    b ← on_proc (c4_memobj_alloc (wm_buffer s) (u32 (u32 (fbi_width info * fbi_height info) * 4)) (Z.lor PAGE_READ PAGE_WRITE));
    port ← wk c4_msg_create_async;
    modify (λ s, mk_wm (winlist s)
      (mk_screen (fbi_width info) (fbi_height info) (updates (wm_screen s)) (num_updates (wm_screen s))
         (if b.1 : bool then back else []) fb (images (wm_screen s)) (surfaces (wm_screen s)))
      (wm_proc s) (prng s) (u32 port) (mk_point 0 0) r b.2 cap serv);;
    keyboard ← wk (nameserver_lookup C4_NAMESERVER keyboard_name);
    mouse ← wk (nameserver_lookup C4_NAMESERVER mouse_name);
    if (keyboard =? 0) || (mouse =? 0) then mret 1
    else
      wk (c4rt_peripheral_connect keyboard (u32 port));;
      wk (c4rt_peripheral_connect mouse (u32 port));;
      wk (nameserver_bind C4_NAMESERVER stubbywm_name C4_SERV_PORT);;
      wk (start_worker entry stack);;
      event_loop frames turns fuel;;
      mret 0.
End wm.

(** ** The client's side ([interface.h]) *)
Record stubbywm_window := mk_swin {
  sw_width : Z; sw_height : Z; sw_buffer : c4_mem_object; sw_id : Z;
  sw_to_port : Z; sw_from_port : Z; sw_sync_port : Z; sw_update_port : Z
}.

Section client.
Context `{KernelEnv} {R : Type} `{Allocator R}.

(** The assertions on the message's type and the object's type only print. *)
Definition recv_obj (port : Z) : K Z := r ← c4_msg_recieve port; mret (i32 (mget r.2 5)).

(** [buf] is what the uninitialised [ret.buffer] holds. *)
Definition stubbywm_new_window (server wd ht : Z) (buf : c4_mem_object) : M (process R) stubbywm_window :=
  temp ← on_kernel (c4_send_temp_endpoint server);
  on_kernel (c4_msg_send (mk_msg STUBBYWM_NEW_WINDOW [0; 0; wd; ht]) temp);;
  r ← on_kernel (c4_msg_recieve temp);
  let wd := mget r.2 2 in let ht := mget r.2 3 in let id := mget r.2 4 in
  from ← on_kernel (recv_obj temp);
  to ← on_kernel (recv_obj temp);
  update ← on_kernel (recv_obj temp);
  sync ← on_kernel (recv_obj temp);
  page ← on_kernel (recv_obj temp);
  b ← c4_memobj_region_map (u32 page) buf (u32 (u32 (wd * ht) * 4)) (Z.lor PAGE_READ PAGE_WRITE);
  mret (mk_swin wd ht b.2 id (u32 to) (u32 from) (u32 sync) (u32 update)).

Definition stubbywm_update (w : stubbywm_window) : K unit :=
  c4_msg_send_async (mk_msg STUBBYWM_UPDATE [sw_id w]) (sw_update_port w);; mret tt.
End client.
