(* ===== verification/WmDraw.v ===== *)
(** What the window manager's drawing routines put on the screen.

    A drawing operation is described pixel by pixel: [paints op p] says that
    [op] returns, keeps everything but the double buffer, and turns the value
    [o] of the pixel at [(x, y)] into [p x y o].  Sequences and loops of
    operations compose these functions, so a whole frame is a function of the
    coordinates, and the frame buffer is compared with it. *)

From S2P Require Import Prelude Interfaces Kernel Mem CString Devices WinList Ppm Wm.
#[local] Open Scope Z_scope.

(** ** The reference: what a pixel should be *)

(** One pixel drawn over another. *)
Definition plot (pixel o : Z) : Z := if negb (Z.land pixel 0xff000000 =? 0) then blend o pixel else pixel.

Definition in_rect (r : rect) (x y : Z) : bool :=
  (px (coord r) <=? x) && (x <? px (coord r) + width r) && (py (coord r) <=? y) && (y <? py (coord r) + height r).
Definition in_update (up : wm_update) (x y : Z) : bool :=
  (px (lower up) <=? x) && (x <? px (upper up)) && (py (lower up) <=? y) && (y <? py (upper up)).

Definition regions (s : screen) : list wm_update := take (Z.to_nat (num_updates s)) (updates s).

(** In how many update regions a pixel is. *)
Definition times (s : screen) (x y : Z) : nat := length (List.filter (λ up, in_update up x y) (regions s)).

Definition rect_layer (rc : rect * Z) (x y o : Z) : Z := if in_rect rc.1 x y then plot rc.2 o else o.
Definition rects_layer (l : list (rect * Z)) (x y o : Z) : Z := foldl (λ o rc, rect_layer rc x y o) o l.

(** The pixel of a window's own buffer, or its colour. *)
Definition window_pixel (s : screen) (w : window) (x y : Z) : Z :=
  if has_buffer w then
    default 0 (b ← surfaces s !! vaddr (w_buffer w); zget b ((y - py (coord (w_rect w))) * width (w_rect w) + (x - px (coord (w_rect w)))))
  else w_color w.

(** A window is blended once for every update region the pixel is in. *)
Definition window_layer (s : screen) (w : window) (x y o : Z) : Z :=
  if in_rect (w_rect w) x y then Nat.iter (times s x y) (plot (window_pixel s w x y)) o else o.

Definition windows_layer (s : screen) (l : list window) (x y o : Z) : Z :=
  foldl (λ o w, rects_layer (decoration w) x y (window_layer s w x y o)) o l.

Definition picture_pixel (m : mem) (p : ppm) (i j : Z) : Z :=
  let byte k := default 0 (m !! (pixbuf p + (j * ppm_width p + i) * 3 + k)) in
  Z.lor (Z.lor (Z.shiftl (byte 0) 16) (Z.shiftl (byte 1) 8)) (byte 2).

Definition picture_layer (m : mem) (p : ppm) (pt : point) (x y o : Z) : Z :=
  if in_rect (mk_rect pt (ppm_height p) (ppm_width p)) x y then
    let pixel := picture_pixel m p (x - px pt) (y - py pt) in
    if pixel =? 0x00ff00 then o else plot pixel o
  else o.

Definition background_layer (s : screen) (x y o : Z) : Z := if (0 <? times s x y)%nat then background_pixel x y else o.

(** ** Painting *)

(** The frame's dimensions make sense. *)
Definition frame_ok (s : screen) : Prop :=
  0 <= info_width s < 2 ^ 31 ∧ 0 <= info_height s < 2 ^ 31 ∧ info_width s * info_height s < 2 ^ 32.

Section compose.
(** [put b] is the state with the buffer [b]: the double buffer, or the frame
    buffer when it is the one drawn to. *)
Context {s0 : screen} {T : Type} {put : list Z → T}.
Abbreviation wd := (info_width s0).
Abbreviation ht := (info_height s0).

Definition paints (op : M T unit) (p : Z → Z → Z → Z) : Prop := ∀ b, wd * ht <= Z.of_nat (length b) →
  ∃ b', op (put b) = Ret (tt, put b') ∧ length b' = length b ∧
    ∀ x y, 0 <= x < wd → 0 <= y < ht → zget b' (y * wd + x) = p x y <$> zget b (y * wd + x).

Lemma paints_ext op p q : (∀ x y o, 0 <= x < wd → 0 <= y < ht → p x y o = q x y o) → paints op p → paints op q.
Proof.
  intros Hpq Hp b Hb. destruct (Hp b Hb) as (b' & E & Hl & Hx). exists b'. split_and!; [done..|].
  intros x y Hx' Hy'. rewrite Hx by done. destruct (zget b _); [|done]. simpl. by rewrite Hpq.
Qed.

Lemma paints_skip : paints (mret tt) (λ _ _ o, o).
Proof. intros b _. exists b. split_and!; [done..|]. intros. by destruct (zget b _). Qed.

Lemma paints_seq op1 op2 p q : paints op1 p → paints op2 q → paints (op1;; op2) (λ x y o, q x y (p x y o)).
Proof.
  intros H1 H2 b Hb. destruct (H1 b Hb) as (b1 & E1 & Hl1 & Hx1). destruct (H2 b1 ltac:(lia)) as (b2 & E2 & Hl2 & Hx2).
  exists b2. split_and!; [by rewrite (bind_run _ _ _ _ _ E1)|lia|]. intros x y Hx Hy.
  rewrite Hx2, Hx1 by done. by destruct (zget b _).
Qed.

(** A loop that treats every pixel in at most one turn. *)
Lemma paints_for n body (key : Z → Z → Z) (f : Z → Z → Z → Z) : ∀ a,
  (∀ i, a <= i < a + Z.of_nat n → paints (body i) (λ x y o, if key x y =? i then f x y o else o)) →
  paints (for_loop n a body) (λ x y o, if (a <=? key x y) && (key x y <? a + Z.of_nat n) then f x y o else o).
Proof.
  induction n as [|n IH]; intros a Hbody; cbn [for_loop].
  - eapply paints_ext; [|apply paints_skip]. intros. zbool; simpl; done || lia.
  - eapply paints_ext; [|apply paints_seq; [apply Hbody; lia|apply IH; intros; apply Hbody; lia]].
    intros x y o _ _. cbv beta. zbool; simpl; done || lia.
Qed.

Lemma paints_from_to a b body key f : 0 <= a < 2 ^ 32 → 0 <= b < 2 ^ 32 →
  (∀ i, a <= i < b → paints (body i) (λ x y o, if key x y =? i then f x y o else o)) →
  paints (from_to a b body) (λ x y o, if (a <=? key x y) && (key x y <? b) then f x y o else o).
Proof.
  intros Ha Hb Hbody. unfold from_to. rewrite !u32_small by done.
  eapply paints_ext; [|apply paints_for; intros; apply Hbody; lia]. intros x y o _ _. cbv beta. zbool; simpl; done || lia.
Qed.

(** A loop over a list. *)
Lemma paints_list {A} (l : list A) body (q : A → Z → Z → Z → Z) : ∀ a,
  (∀ k v, l !! k = Some v → paints (body (a + Z.of_nat k)) (q v)) →
  paints (for_loop (length l) a body) (λ x y o, foldl (λ o v, q v x y o) o l).
Proof.
  induction l as [|v l IH]; intros a Hbody; [apply paints_skip|]. cbn [length for_loop foldl].
  apply (paints_seq _ _ (q v) (λ x y o, foldl (λ o u, q u x y o) o l)).
  - specialize (Hbody 0%nat v eq_refl). by rewrite Z.add_0_r in Hbody.
  - apply IH. intros k u Hk. specialize (Hbody (S k) u Hk). by replace (a + 1 + Z.of_nat k) with (a + Z.of_nat (S k)) by lia.
Qed.

(** ** Rectangles *)
Definition rect_ok (r : rect) : Prop :=
  0 <= width r < 2 ^ 32 ∧ 0 <= height r < 2 ^ 32 ∧
  - 2 ^ 31 <= px (coord r) ∧ px (coord r) + width r <= 2 ^ 31 ∧ - 2 ^ 31 <= py (coord r) ∧ py (coord r) + height r <= 2 ^ 31.

(** Two nested loops over a rectangle whose body draws one pixel each. *)
Lemma paints_rect r body f : rect_ok r →
  (∀ i j, 0 <= i < width r → 0 <= j < height r →
     paints (body j i) (λ x y o, if (x =? i + px (coord r)) && (y =? j + py (coord r)) then f x y o else o)) →
  paints (from_to 0 (height r) (λ j, from_to 0 (width r) (λ i, body j i))) (λ x y o, if in_rect r x y then f x y o else o).
Proof.
  intros (Hw & Hh & Hcx & Hx & Hcy & Hy) Hbody.
  set (row x y o := if (0 <=? x - px (coord r)) && (x - px (coord r) <? width r) then f x y o else o).
  eapply paints_ext; [|apply (paints_from_to _ _ _ (λ x y, y - py (coord r)) row)]; [|lia|done|].
  - intros x y o _ _. unfold row, in_rect. zbool; simpl; done || lia.
  - intros j Hj. set (cell x y o := if y - py (coord r) =? j then f x y o else o).
    eapply paints_ext; [|apply (paints_from_to _ _ _ (λ x y, x - px (coord r)) cell)]; [|lia|done|].
    + intros x y o _ _. unfold cell, row. zbool; simpl; done || lia.
    + intros i Hi. eapply paints_ext; [|apply Hbody; [exact Hi|exact Hj]]. intros x y o _ _. unfold cell. zbool; simpl; done || lia.
Qed.

(** The loops over one region, cut by a rectangle. *)
Lemma paints_region (g : Z → Z → bool) x1 x2 y1 y2 body f :
  0 <= x1 < 2 ^ 32 → 0 <= x2 < 2 ^ 32 → 0 <= y1 < 2 ^ 32 → 0 <= y2 < 2 ^ 32 →
  (∀ i j, x1 <= i < x2 → y1 <= j < y2 → paints (body j i) (λ x y o, if (x =? i) && (y =? j) then f x y o else o)) →
  (∀ x y, 0 <= x < wd → 0 <= y < ht → g x y = (x1 <=? x) && (x <? x2) && (y1 <=? y) && (y <? y2)) →
  paints (from_to y1 y2 (λ j, from_to x1 x2 (λ i, body j i))) (λ x y o, if g x y then f x y o else o).
Proof.
  intros Hx1 Hx2 Hy1 Hy2 Hbody Hin.
  set (row x y o := if (x1 <=? x) && (x <? x2) then f x y o else o).
  eapply paints_ext; [|apply (paints_from_to _ _ _ (λ x y, y) row)]; [|done..|].
  - intros x y o Hx Hy. rewrite Hin by done. unfold row. zbool; simpl; done || lia.
  - intros j Hj. set (cell x y o := if y =? j then f x y o else o).
    eapply paints_ext; [|apply (paints_from_to _ _ _ (λ x y, x) cell)]; [|done..|].
    + intros x y o _ _. unfold cell, row. zbool; simpl; done || lia.
    + intros i Hi. eapply paints_ext; [|apply Hbody; [exact Hi|exact Hj]]. intros x y o _ _. unfold cell. zbool; simpl; done || lia.
Qed.

End compose.
Arguments paints s0 {T} put op p.

Section paint.
Context (s0 : screen) (Hframe : frame_ok s0).
Abbreviation wd := (info_width s0).
Abbreviation ht := (info_height s0).
Abbreviation draws := (paints s0 (λ b, set_dbuf b s0)).

(** ** A pixel *)
Lemma pixel_index x y x' y' : 0 <= x < wd → 0 <= x' < wd → y * wd + x = y' * wd + x' ↔ x = x' ∧ y = y'.
Proof. intros. split; [|by intros [-> ->]]. intros E. assert (y = y') as -> by nia. lia. Qed.

Lemma pixel_ne x y x' y' : 0 <= x < wd → 0 <= x' < wd → x ≠ x' ∨ y ≠ y' → (y * wd + x =? y' * wd + x') = false.
Proof. intros Hx Hx' Hne. apply Z.eqb_neq. intros E. apply (pixel_index _ _ _ _ Hx Hx') in E. lia. Qed.

Lemma index_range x y : 0 <= x < wd → 0 <= y < ht → 0 <= y * wd + x < wd * ht.
Proof. intros. nia. Qed.

Lemma paints_pixel px_ py_ pixel : draws (draw_pixel px_ py_ pixel) (λ x y o, if (x =? px_) && (y =? py_) then plot pixel o else o).
Proof.
  intros b Hb. unfold draw_pixel. destruct ((px_ <? 0) || (py_ <? 0)) eqn:E1.
  { exists b. split_and!; [done..|]. intros x y Hx Hy. apply orb_prop in E1. rewrite !Z.ltb_lt in E1.
    destruct (zget b _); [|done]. simpl. zbool; simpl; done || lia. }
  unfold get. rewrite (bind_run _ _ _ _ _ eq_refl). cbn [info_width info_height set_dbuf].
  destruct ((wd <=? px_) || (ht <=? py_)) eqn:E2.
  { exists b. split_and!; [done..|]. intros x y Hx Hy. apply orb_prop in E2. rewrite !Z.leb_le in E2.
    destruct (zget b _); [|done]. simpl. zbool; simpl; done || lia. }
  apply orb_false_elim in E1, E2. rewrite !Z.ltb_ge in E1. rewrite !Z.leb_gt in E2.
  pose proof (index_range px_ py_ ltac:(lia) ltac:(lia)). destruct Hframe as (Hw & Hh & H32). cbv zeta.
  rewrite (u32_small (py_ * wd)) by nia. rewrite u32_small by lia.
  destruct (zget_lt b (py_ * wd + px_)) as (o & Eo & _); [lia|].
  assert (∀ v, store_px (py_ * wd + px_) v (set_dbuf b s0) = Ret (tt, set_dbuf (<[Z.to_nat (py_ * wd + px_) := v]> b) s0)) as Hst.
  { intros v. unfold store_px. rewrite (bind_run _ _ _ (<[Z.to_nat (py_ * wd + px_) := v]> b) (set_dbuf b s0)); [done|].
    unfold getsome. simpl. by rewrite zset_lt by lia. }
  exists (<[Z.to_nat (py_ * wd + px_) := plot pixel o]> b). split_and!; [|by rewrite length_insert|].
  - unfold plot. destruct (negb _); [|by rewrite Hst]. unfold load_px.
    rewrite (bind_run _ _ _ o (set_dbuf b s0)) by (unfold getsome; simpl; by rewrite Eo). by rewrite Hst.
  - intros x y Hx Hy. rewrite zget_insert by lia. destruct (Z.eqb_spec x px_) as [->|Hne], (Z.eqb_spec y py_) as [->|Hne']; simpl.
    { by rewrite Z.eqb_refl, Eo. }
    all: rewrite pixel_ne by lia; clear Eo; by destruct (zget b _).
Qed.

Lemma paints_draw_rect r color : rect_ok r → draws (draw_rect r color) (rect_layer (r, color)).
Proof.
  intros Hr. apply (paints_rect r (λ y x, draw_pixel _ _ _) (λ _ _ o, plot color o)); [done|].
  destruct Hr as (Hw & Hh & Hcx & Hx & Hcy & Hy). intros i j Hi Hj. rewrite !i32_u32 by lia. apply paints_pixel.
Qed.

Lemma paints_draw_rects l : Forall (λ rc, rect_ok rc.1) l → draws (draw_rects l) (rects_layer l).
Proof.
  induction 1 as [|[r c] l Hr Hl IH]; [apply paints_skip|]. cbn [draw_rects].
  apply (paints_seq _ _ (rect_layer (r, c)) (rects_layer l)); [by apply paints_draw_rect|done].
Qed.

(** ** Update regions *)

(** A region inside the frame. *)
Definition update_ok (up : wm_update) : Prop :=
  0 <= px (lower up) <= wd ∧ 0 <= py (lower up) <= ht ∧ 0 <= px (upper up) <= wd ∧ 0 <= py (upper up) <= ht.
Definition updates_ok : Prop := 0 <= num_updates s0 < MAX_UPDATES ∧ length (updates s0) = Z.to_nat MAX_UPDATES ∧ Forall update_ok (regions s0).
Context (Hup : updates_ok).

Lemma paints_updates (put : list Z → screen) body q :
  (∀ b, updates (put b) = updates s0 ∧ num_updates (put b) = num_updates s0) →
  (∀ up, up ∈ regions s0 → paints s0 put (body up) (q up)) →
  paints s0 put (for_updates body) (λ x y o, foldl (λ o up, q up x y o) o (regions s0)).
Proof.
  intros Hput Hbody b Hb. destruct Hup as (Hn & Hlen & _). unfold for_updates, get. rewrite (bind_run _ _ _ _ _ eq_refl).
  rewrite (proj2 (Hput b)). unfold from_to, MAX_UPDATES in *. rewrite (u32_small (num_updates s0)), (u32_small 0), Z.sub_0_r by lia.
  assert (Z.to_nat (num_updates s0) = length (regions s0)) as -> by (unfold regions; rewrite length_take; lia).
  apply (paints_list (s0 := s0) (put := put) (regions s0) _ q 0); [|done]. intros k up Hk c Hc.
  rewrite (bind_run _ _ _ up (put c)).
  - apply Hbody; [|done]. by eapply list_elem_of_lookup_2.
  - unfold getsome. rewrite (proj1 (Hput c)). unfold regions in Hk. apply lookup_take_Some in Hk as [Hk _].
    unfold zget. rewrite (proj2 (Z.ltb_ge _ _)) by lia. by replace (Z.to_nat (0 + Z.of_nat k)) with k by lia; rewrite Hk.
Qed.

(** ** The background *)
Lemma background_opaque x y o : plot (background_pixel x y) o = background_pixel x y.
Proof.
  unfold plot, background_pixel. set (t := u8 _). pose proof (wrapu_range 8 (Z.shiftr (Z.lxor x y) 2 + 0xa0) ltac:(lia)) as Ht.
  fold t in Ht. cbv zeta. clearbody t.
  assert (Forall (λ k, let t := Z.of_nat k in
    Z.land (Z.lor (Z.lor (Z.shiftl (Z.shiftr t 1) 16) (Z.shiftl t 9)) t) 0xff000000 = 0) (seq 0 256)) as Hall.
  { apply (bool_decide_unpack _). vm_compute. exact I. }
  rewrite Forall_forall in Hall. specialize (Hall (Z.to_nat t)). cbv zeta in Hall. rewrite Z2Nat.id in Hall by lia.
  rewrite Hall; [done|]. apply elem_of_seq. lia.
Qed.

Lemma iter_const n (v o : Z) : Nat.iter n (λ _, v) o = if (0 <? n)%nat then v else o.
Proof. by destruct n. Qed.

(** A fold that plots in the regions a pixel is in. *)
Lemma foldl_regions (h : Z → Z) l x y o :
  foldl (λ o up, if in_update up x y then h o else o) o l = Nat.iter (length (List.filter (λ up, in_update up x y) l)) h o.
Proof.
  revert o. induction l as [|up l IH]; intros o; [done|]. cbn [foldl List.filter]. rewrite IH.
  destruct (in_update up x y); [|done]. cbn [length]. symmetry. apply Nat.iter_succ_r.
Qed.

Lemma region_ok up : up ∈ regions s0 → update_ok up.
Proof. destruct Hup as (_ & _ & Hall). rewrite Forall_forall in Hall. apply Hall. Qed.

Lemma paints_background : draws draw_background (background_layer s0).
Proof.
  eapply paints_ext; [|apply (paints_updates _ _ (λ up x y o, if in_update up x y then background_pixel x y else o))].
  - intros x y o _ _. cbv beta. rewrite (foldl_regions (λ _, background_pixel x y)). apply iter_const.
  - done.
  - intros up Hin%region_ok. destruct Hin as (H1 & H2 & H3 & H4), Hframe as (Hw & Hh & _).
    apply (paints_region (in_update up) _ _ _ _ (λ y x, draw_pixel (i32 x) (i32 y) (background_pixel x y)) (λ x y _, background_pixel x y));
      [lia..| |done].
    intros i j Hi Hj. rewrite !i32_small by lia. eapply paints_ext; [|apply paints_pixel]. intros x y o _ _. cbv beta.
    destruct (Z.eqb_spec x i) as [->|], (Z.eqb_spec y j) as [->|]; simpl; try done. apply background_opaque.
Qed.

(** ** A window *)

(** A window that was placed by the window manager, with a buffer of its
    size. *)
Definition window_ok (w : window) : Prop :=
  let c := coord (w_rect w) in
  0 <= px c <= wd ∧ 0 <= py c <= ht ∧ 0 <= width (w_rect w) ∧ 0 <= height (w_rect w) ∧
  px c + width (w_rect w) + 8 < 2 ^ 31 ∧ py c + height (w_rect w) + 8 < 2 ^ 31 ∧
  width (w_rect w) * height (w_rect w) < 2 ^ 31 ∧
  (has_buffer w = true → ∃ b, surfaces s0 !! vaddr (w_buffer w) = Some b ∧ width (w_rect w) * height (w_rect w) <= Z.of_nat (length b)).

Lemma normalize_ok p : - 2 ^ 31 <= px p < 2 ^ 31 → - 2 ^ 31 <= py p < 2 ^ 31 →
  normalize_point s0 p = mk_point (Z.min (Z.max 0 (px p)) wd) (Z.min (Z.max 0 (py p)) ht).
Proof.
  intros Hx Hy. destruct Hframe as (Hw & Hh & _). unfold normalize_point. cbv zeta.
  rewrite !i32_small by lia. f_equal; [destruct (Z.ltb_spec (px p) 0)|destruct (Z.ltb_spec (py p) 0)]; rewrite u32_small by lia; zbool; lia.
Qed.

Lemma window_max w : window_ok w → rect_max_coord s0 (w_rect w) =
  mk_point (Z.min (px (coord (w_rect w)) + width (w_rect w)) wd) (Z.min (py (coord (w_rect w)) + height (w_rect w)) ht).
Proof.
  intros (Hx & Hy & Hw & Hh & Hxw & Hyh & _). unfold rect_max_coord. rewrite !i32_small by lia.
  rewrite normalize_ok by (simpl; lia). simpl. f_equal; lia.
Qed.

Lemma surface_pixel w x y b : window_ok w → has_buffer w = true → in_rect (w_rect w) x y = true →
  load_surface (vaddr (w_buffer w))
    (i32 (i32 (u32 (y - py (coord (w_rect w))) * width (w_rect w)) + i32 (u32 (x - px (coord (w_rect w)))))) (set_dbuf b s0)
    = Ret (window_pixel s0 w x y, set_dbuf b s0).
Proof.
  intros (Hx & Hy & Hw & Hh & Hxw & Hyh & Hwh & Hs) Hb Hin. destruct (Hs Hb) as (p & Ep & Hp). destruct Hframe as (Hfw & Hfh & _).
  unfold in_rect in Hin. rewrite !andb_true_iff, !Z.leb_le, !Z.ltb_lt in Hin.
  unfold window_pixel, load_surface, getsome. rewrite Hb. cbn [surfaces set_dbuf]. rewrite Ep. cbn [mbind option_bind].
  set (i := x - px (coord (w_rect w))) in *. set (j := y - py (coord (w_rect w))) in *.
  assert (0 <= j * width (w_rect w) + i < width (w_rect w) * height (w_rect w)) by nia.
  assert (0 <= j * width (w_rect w) < 2 ^ 31) by nia.
  rewrite (u32_small j), (u32_small i) by lia. rewrite (i32_small i), (i32_small (j * _)), i32_small by lia.
  destruct (zget_lt p (j * width (w_rect w) + i)) as (v & Ev & _); [lia|]. simpl. by rewrite Ev.
Qed.

Lemma paints_get (f : screen → C unit) p : (∀ b, f (set_dbuf b s0) = f s0) → draws (f s0) p → draws (s ← get; f s) p.
Proof. intros Hf Hp b Hb. unfold get. rewrite (bind_run _ _ _ _ _ eq_refl), Hf. by apply Hp. Qed.

(** A window's pixel, read from its buffer or not. *)
Lemma paints_window_pixel w i j : window_ok w → in_rect (w_rect w) i j = true →
  draws (if has_buffer w then
            pixel ← load_surface (vaddr (w_buffer w))
              (i32 (i32 (u32 (j - py (coord (w_rect w))) * width (w_rect w)) + i32 (u32 (i - px (coord (w_rect w))))));
            draw_pixel (i32 i) (i32 j) pixel
          else draw_pixel (i32 i) (i32 j) (w_color w))
    (λ x y o, if (x =? i) && (y =? j) then plot (window_pixel s0 w x y) o else o).
Proof.
  intros Hw Hin. pose proof Hw as (Hx & Hy & Hw0 & Hh0 & Hxw & Hyh & _). pose proof Hin as Hij.
  unfold in_rect in Hij. rewrite !andb_true_iff, !Z.leb_le, !Z.ltb_lt in Hij.
  assert (draws (draw_pixel i j (window_pixel s0 w i j)) (λ x y o, if (x =? i) && (y =? j) then plot (window_pixel s0 w x y) o else o)) as Hd.
  { eapply paints_ext; [|apply paints_pixel]. intros x y o _ _. cbv beta.
    destruct (Z.eqb_spec x i) as [->|], (Z.eqb_spec y j) as [->|]; done. }
  rewrite (i32_small i), (i32_small j) by lia. destruct (has_buffer w) eqn:Eb.
  - intros b Hb. rewrite (bind_run _ _ _ _ _ (surface_pixel w i j b Hw Eb Hin)). by apply Hd.
  - unfold window_pixel in Hd at 1. rewrite Eb in Hd. exact Hd.
Qed.

Lemma paints_window_region w up : window_ok w → up ∈ regions s0 →
  let a := coord (w_rect w) in let b := rect_max_coord s0 (w_rect w) in
  draws (if (py (upper up) <=? py a) || (py b <? py (lower up)) then mret tt
    else if (px (upper up) <=? px a) || (px b <? px (lower up)) then mret tt
    else
      from_to (if py (lower up) <? py a then py a else py (lower up)) (Z.min (u32 (py b)) (u32 (py (upper up)))) (λ y,
        from_to (if px (lower up) <? px a then px a else px (lower up)) (Z.min (u32 (px b)) (u32 (px (upper up)))) (λ x,
          if has_buffer w then
            pixel ← load_surface (vaddr (w_buffer w)) (i32 (i32 (u32 (y - py a) * width (w_rect w)) + i32 (u32 (x - px a))));
            draw_pixel (i32 x) (i32 y) pixel
          else draw_pixel (i32 x) (i32 y) (w_color w))))
    (λ x y o, if in_update up x y && in_rect (w_rect w) x y then plot (window_pixel s0 w x y) o else o).
Proof.
  intros Hw (H1 & H2 & H3 & H4)%region_ok a b. pose proof Hw as (Hx & Hy & Hw0 & Hh0 & Hxw & Hyh & _).
  pose proof Hframe as (Hfw & Hfh & _). unfold b. rewrite (window_max w Hw). cbn [px py]. fold a.
  assert (∀ x y, in_rect (w_rect w) x y = (px a <=? x) && (x <? px a + width (w_rect w)) && (py a <=? y) && (y <? py a + height (w_rect w))) as Er by done.
  match goal with |- draws (if ?c then _ else _) _ => destruct c eqn:E1 end.
  { eapply paints_ext; [|apply paints_skip]. intros x y o Hx' Hy'. cbv beta. rewrite Er. unfold in_update.
    apply orb_prop in E1. rewrite Z.leb_le, Z.ltb_lt in E1. zbool; simpl; done || lia. }
  match goal with |- draws (if ?c then _ else _) _ => destruct c eqn:E2 end.
  { eapply paints_ext; [|apply paints_skip]. intros x y o Hx' Hy'. cbv beta. rewrite Er. unfold in_update.
    apply orb_prop in E2. rewrite Z.leb_le, Z.ltb_lt in E2. zbool; simpl; done || lia. }
  rewrite !u32_small by lia.
  replace (if py (lower up) <? py a then py a else py (lower up)) with (Z.max (py a) (py (lower up))) by (zbool; lia).
  replace (if px (lower up) <? px a then px a else px (lower up)) with (Z.max (px a) (px (lower up))) by (zbool; lia).
  apply (paints_region (λ x y, in_update up x y && in_rect (w_rect w) x y) _ _ _ _ (λ y x,
    if has_buffer w then
      pixel ← load_surface (vaddr (w_buffer w)) (i32 (i32 (u32 (y - py a) * width (w_rect w)) + i32 (u32 (x - px a))));
      draw_pixel (i32 x) (i32 y) pixel
    else draw_pixel (i32 x) (i32 y) (w_color w)) (λ x y, plot (window_pixel s0 w x y))); [lia..| |].
  - intros i j Hi Hj. apply paints_window_pixel; [done|]. rewrite Er. zbool; simpl; done || lia.
  - intros x y Hx' Hy'. rewrite Er. unfold in_update. zbool; simpl; done || lia.
Qed.

Lemma paints_window w : window_ok w → draws (draw_window w) (window_layer s0 w).
Proof.
  intros Hw.
  eapply paints_ext; [|apply (paints_updates _ _ (λ up x y o,
    if in_update up x y && in_rect (w_rect w) x y then plot (window_pixel s0 w x y) o else o))].
  - intros x y o _ _. cbv beta. unfold window_layer. destruct (in_rect (w_rect w) x y).
    + unfold times. rewrite <-foldl_regions. generalize (regions s0). intros l. revert o.
      induction l as [|up l IH]; intros o; [done|]. cbn [foldl]. rewrite andb_true_r. apply IH.
    + generalize (regions s0). intros l. revert o. induction l as [|up l IH]; intros o; [done|].
      cbn [foldl]. rewrite andb_false_r. apply IH.
  - done.
  - intros up Hin. apply (paints_get (λ s, _)); [done|]. by apply paints_window_region.
Qed.

Lemma decoration_ok w : window_ok w → Forall (λ rc, rect_ok rc.1) (decoration w).
Proof.
  intros (Hx & Hy & Hw & Hh & Hxw & Hyh & _). destruct Hframe as (Hfw & Hfh & _).
  unfold decoration, STUBBYWM_BORDER_SIZE, STUBBYWM_TITLEBAR_SIZE. cbv zeta.
  pose proof (Z.div_pos (width (w_rect w)) 4 Hw ltac:(lia)). pose proof (Z.mul_div_le (width (w_rect w)) 4 ltac:(lia)).
  rewrite (i32_small (px _ + 5)) by lia. rewrite !i32_small, !u32_small by lia.
  repeat constructor; cbn [fst coord px py width height]; lia.
Qed.

Lemma paints_decoration w : window_ok w → draws (draw_window_decoration w) (rects_layer (decoration w)).
Proof. intros Hw. by apply paints_draw_rects, decoration_ok. Qed.

Lemma paints_status_bar : draws draw_status_bar (rects_layer (status_bar wd ht)).
Proof.
  apply (paints_get (λ s, draw_rects (status_bar (info_width s) (info_height s)))); [done|]. apply paints_draw_rects.
  destruct Hframe as (Hfw & Hfh & _). unfold status_bar. rewrite !i32_small by lia.
  repeat constructor; cbn [fst coord px py width height]; lia.
Qed.

(** ** A picture *)
Definition picture_ok (p : ppm) (pt : point) : Prop :=
  0 <= px pt <= wd ∧ 0 <= py pt <= ht ∧ 0 <= ppm_width p ∧ 0 <= ppm_height p ∧
  px pt + ppm_width p < 2 ^ 31 ∧ py pt + ppm_height p < 2 ^ 31 ∧ ppm_width p * ppm_height p * 3 < 2 ^ 32 ∧
  ∀ k, 0 <= k < ppm_width p * ppm_height p * 3 → is_Some (images s0 !! (pixbuf p + k)).

Lemma paints_picture p pt : picture_ok p pt → draws (ppm_draw p pt) (picture_layer (images s0) p pt).
Proof.
  intros (Hx & Hy & Hw & Hh & Hxw & Hyh & Hwh & Hb). destruct Hframe as (Hfw & Hfh & _).
  set (r := mk_rect pt (ppm_height p) (ppm_width p)).
  apply (paints_rect r (λ y x, _) (λ x y o, let pixel := picture_pixel (images s0) p (x - px pt) (y - py pt) in
    if pixel =? 0x00ff00 then o else plot pixel o)); [unfold rect_ok, r; simpl; lia|].
  cbn [width height coord r]. intros i j Hi Hj. cbv zeta.
  assert (0 <= j * ppm_width p + i < ppm_width p * ppm_height p) by nia. assert (0 <= j * ppm_width p) by nia.
  rewrite (u32_small (j * _)), (u32_small (_ + i)), (u32_small (_ * 3)) by lia. rewrite !i32_u32 by lia.
  set (k := (j * ppm_width p + i) * 3).
  destruct (Hb k) as [v0 E0]; [lia|]. destruct (Hb (k + 1)) as [v1 E1]; [lia|]. destruct (Hb (k + 2)) as [v2 E2]; [lia|].
  rewrite Z.add_assoc in E1, E2. intros b Hlen.
  assert (∀ a v, images s0 !! a = Some v → load_byte a (set_dbuf b s0) = Ret (v, set_dbuf b s0)) as Hld.
  { intros a v E. unfold load_byte, getsome. simpl. by rewrite E. }
  rewrite (bind_run _ _ _ _ _ (Hld _ _ E0)), (bind_run _ _ _ _ _ (Hld _ _ E1)), (bind_run _ _ _ _ _ (Hld _ _ E2)).
  assert (picture_pixel (images s0) p i j = Z.lor (Z.lor (Z.shiftl v0 16) (Z.shiftl v1 8)) v2) as Ep.
  { unfold picture_pixel. cbv zeta. fold k. by rewrite Z.add_0_r, E0, E1, E2. }
  rewrite <-Ep. clear Ep Hld. revert b Hlen.
  match goal with |- ∀ b, _ → ∃ b', ?m _ = _ ∧ _ => change (draws m (λ x y o, if (x =? i + px pt) && (y =? j + py pt) then
    let pixel := picture_pixel (images s0) p (x - px pt) (y - py pt) in if pixel =? 0x00ff00 then o else plot pixel o else o)) end.
  destruct (Z.eqb_spec (picture_pixel (images s0) p i j) 0x00ff00) as [Eg|Hg].
  - eapply paints_ext; [|apply paints_skip]. intros x y o _ _. cbv beta zeta.
    destruct (Z.eqb_spec x (i + px pt)) as [->|], (Z.eqb_spec y (j + py pt)) as [->|]; try done. simpl.
    by rewrite !Z.add_simpl_r, Eg.
  - eapply paints_ext; [|apply paints_pixel]. intros x y o _ _. cbv beta zeta.
    destruct (Z.eqb_spec x (i + px pt)) as [->|], (Z.eqb_spec y (j + py pt)) as [->|]; try done. simpl.
    by rewrite !Z.add_simpl_r, (proj2 (Z.eqb_neq _ _) Hg).
Qed.

(** ** Copying to the frame buffer *)
Lemma paints_framebuffer : wd * ht <= Z.of_nat (length (dbuf s0)) →
  paints s0 (λ b, set_fbuf b s0) draw_framebuffer
    (λ x y o, if (0 <? times s0 x y)%nat then default 0 (zget (dbuf s0) (y * wd + x)) else o).
Proof.
  intros Hlen. pose proof Hframe as (Hfw & Hfh & H32). intros b Hb. unfold draw_framebuffer, get. rewrite (bind_run _ _ _ _ _ eq_refl).
  cbn [num_updates info_width set_fbuf]. destruct (Z.eqb_spec (num_updates s0) 0) as [E0|_].
  { exists b. split_and!; [done..|]. intros x y _ _. unfold times, regions. rewrite E0. by destruct (zget b _). }
  revert b Hb. change (paints s0 (λ b, set_fbuf b s0) (for_updates (λ up, from_to (py (lower up)) (py (upper up)) (λ y,
    from_to (px (lower up)) (px (upper up)) (λ x, copy_px (u32 (u32 (y * wd) + x))))))
    (λ x y o, if (0 <? times s0 x y)%nat then default 0 (zget (dbuf s0) (y * wd + x)) else o)).
  eapply paints_ext; [|apply (paints_updates _ _ (λ up x y o, if in_update up x y then default 0 (zget (dbuf s0) (y * wd + x)) else o))].
  - intros x y o _ _. cbv beta. rewrite (foldl_regions (λ _, default 0 (zget (dbuf s0) (y * wd + x)))). apply iter_const.
  - done.
  - intros up (H1 & H2 & H3 & H4)%region_ok.
    apply (paints_region (in_update up) _ _ _ _ (λ y x, copy_px (u32 (u32 (y * wd) + x))) (λ x y _, default 0 (zget (dbuf s0) (y * wd + x))));
      [lia..| |done].
    intros i j Hi Hj b Hb. pose proof (index_range i j ltac:(lia) ltac:(lia)). rewrite (u32_small (j * wd)), u32_small by nia.
    destruct (zget_lt (dbuf s0) (j * wd + i)) as (v & Ev & _); [lia|].
    exists (<[Z.to_nat (j * wd + i) := v]> b). split_and!; [|by rewrite length_insert|].
    + unfold copy_px, load_px. rewrite (bind_run _ _ _ v (set_fbuf b s0)) by (unfold getsome; simpl; by rewrite Ev).
      rewrite (bind_run _ _ _ (<[Z.to_nat (j * wd + i) := v]> b) (set_fbuf b s0)); [done|].
      unfold getsome. simpl. by rewrite zset_lt by lia.
    + intros x y Hx Hy. destruct (zget_lt b (y * wd + x)) as (o & Eo & _); [pose proof (index_range x y Hx Hy); lia|].
      rewrite zget_insert, Eo by lia. simpl. destruct (Z.eqb_spec x i) as [->|], (Z.eqb_spec y j) as [->|]; simpl.
      { by rewrite Z.eqb_refl, Ev. }
      all: rewrite pixel_ne by lia; done.
Qed.
End paint.

(** ** A frame *)
Section frame.
Context `{KernelEnv} {Hp R : Type} `{AllocatorLaws Hp} `{Allocator R}.
Context (S : wm Hp R) (l : list (Z * window)) (Hl : wl_rep l (winlist S)).
Abbreviation s0 := (wm_screen S).
Context (Hframe : frame_ok s0) (Hup : updates_ok s0) (Hwin : Forall (window_ok s0) l.*2).
Abbreviation put := (λ b, set_screen (set_dbuf b s0) S).

Lemma on_screen_run (op : C unit) c c' : op c = Ret (tt, c') → on_screen op (set_screen c S) = Ret (tt, set_screen c' S).
Proof. unfold on_screen, zoom. simpl. by intros ->. Qed.

Lemma paints_on_screen op p : paints s0 (λ b, set_dbuf b s0) op p → paints s0 put (on_screen op) p.
Proof. intros Hpaint b Hb. destruct (Hpaint b Hb) as (b' & E & Hl' & Hx). exists b'. split; [by apply on_screen_run|done]. Qed.

Lemma paints_windows_loop l' : ∀ fuel p, dseg (wl_mem (winlist S)) p l' 0 → 0 ∉ l'.*1 → (length l' < fuel)%nat →
  Forall (window_ok s0) l'.*2 → paints s0 put (draw_windows_loop fuel (head_addr 0 l')) (windows_layer s0 l'.*2).
Proof.
  induction l' as [|[a w] l' IH]; intros fuel p Hd Hz Hf Hw; (destruct fuel as [|fuel]; [simpl in Hf; lia|]).
  - apply paints_skip.
  - cbn [draw_windows_loop head_addr fst]. destruct Hd as [Ha Hd]. apply not_elem_of_cons in Hz as [Hz1 Hz]. apply Forall_cons in Hw as [Hw1 Hw].
    simpl in Ha, Hz1, Hw1. rewrite (proj2 (Z.eqb_neq a 0)) by done.
    assert (paints s0 put (on_screen (draw_window w);; on_screen (draw_window_decoration w);; draw_windows_loop fuel (head_addr 0 l'))
      (windows_layer s0 ((a, w) :: l').*2)) as Hpaint.
    { eapply paints_ext; [|eapply (paints_seq _ _ (window_layer s0 w) (λ x y o, windows_layer s0 l'.*2 x y (rects_layer (decoration w) x y o)))];
        [done|by apply paints_on_screen, paints_window|].
      eapply (paints_seq _ _ (rects_layer (decoration w)) (windows_layer s0 l'.*2)); [by apply paints_on_screen, paints_decoration|].
      eapply IH; [exact Hd|done|simpl in Hf; lia|done]. }
    intros b Hb. destruct (Hpaint b Hb) as (b' & E & Hrest). exists b'. split; [|exact Hrest]. rewrite <-E.
    rewrite (bind_run _ _ _ (mk_wnode w (head_addr 0 l') p) (put b)); [done|]. unfold on_list, zoom. simpl.
    by rewrite (node_load_ok _ _ _ Ha).
Qed.

(** The picture of the whole screen, on top of [o]. *)
Definition scene (x y o : Z) : Z :=
  picture_layer (images s0) (mouse_cursor S) (mouse S) x y
    (rects_layer (status_bar (info_width s0) (info_height s0)) x y
      (windows_layer s0 l.*2 x y (background_layer s0 x y o))).

Lemma paints_scene fuel : (length l < fuel)%nat → picture_ok s0 (mouse_cursor S) (mouse S) →
  paints s0 put (on_screen draw_background;; draw_windows fuel;; on_screen draw_status_bar;; draw_mouse) scene.
Proof.
  intros Hf Hm. apply (paints_seq (s0 := s0) (put := put) _ _ (background_layer s0) (λ x y o, picture_layer (images s0) (mouse_cursor S) (mouse S) x y
    (rects_layer (status_bar (info_width s0) (info_height s0)) x y (windows_layer s0 l.*2 x y o)))).
  { by apply paints_on_screen, paints_background. }
  apply (paints_seq (s0 := s0) (put := put) _ _ (windows_layer s0 l.*2) (λ x y o, picture_layer (images s0) (mouse_cursor S) (mouse S) x y
    (rects_layer (status_bar (info_width s0) (info_height s0)) x y o))).
  { intros b Hb. unfold draw_windows, get. rewrite (bind_run _ _ _ _ _ eq_refl). cbn [winlist set_screen].
    rewrite (rep_start _ _ Hl). by apply (paints_windows_loop l fuel 0 (rep_seg _ _ Hl) (rep_nonnull _ _ Hl) Hf Hwin). }
  apply (paints_seq (s0 := s0) (put := put) _ _ (rects_layer (status_bar (info_width s0) (info_height s0))) (picture_layer (images s0) (mouse_cursor S) (mouse S))).
  { by apply paints_on_screen, paints_status_bar. }
  intros b Hb. unfold draw_mouse, get. rewrite (bind_run _ _ _ _ _ eq_refl). cbn [mouse_cursor mouse set_screen].
  revert b Hb. change (paints s0 put (on_screen (ppm_draw (mouse_cursor S) (mouse S))) (picture_layer (images s0) (mouse_cursor S) (mouse S))).
  by apply paints_on_screen, paints_picture.
Qed.

Lemma set_own_screen : set_screen (set_dbuf (dbuf s0) s0) S = S.
Proof. by destruct S as [? [] ? ? ? ? ? ? ? ?]. Qed.

Lemma draw_frame_ok fuel : (length l < fuel)%nat → picture_ok s0 (mouse_cursor S) (mouse S) →
  info_width s0 * info_height s0 <= Z.of_nat (length (dbuf s0)) → info_width s0 * info_height s0 <= Z.of_nat (length (fbuf s0)) →
  ∃ d f, draw_frame fuel S = Ret (tt, set_screen (set_updates (updates s0) 0 (set_fbuf f (set_dbuf d s0))) S) ∧
    length d = length (dbuf s0) ∧ length f = length (fbuf s0) ∧
    ∀ x y, 0 <= x < info_width s0 → 0 <= y < info_height s0 →
      zget f (y * info_width s0 + x) = if (0 <? times s0 x y)%nat then Some (scene x y 0) else zget (fbuf s0) (y * info_width s0 + x).
Proof.
  intros Hf Hm Hd Hfb. destruct (paints_scene fuel Hf Hm (dbuf s0) Hd) as (d & E & Hld & Hpix). rewrite set_own_screen in E.
  set (s1 := set_dbuf d s0) in *.
  destruct (paints_framebuffer s1 Hframe Hup ltac:(simpl; lia) (fbuf s0) Hfb) as (f & Ef & Hlf & Hfpix).
  exists d, f. split_and!; [|done..|].
  - unfold draw_frame. revert E. unfold mbind, M_bind. destruct (on_screen draw_background S) as [[[] S1]| |]; try done.
    destruct (draw_windows fuel S1) as [[[] S2]| |]; try done. destruct (on_screen draw_status_bar S2) as [[[] S3]| |]; try done.
    intros ->. replace (set_fbuf (fbuf s0) s1) with s1 in Ef by (subst s1; by destruct s0).
    by rewrite (on_screen_run _ _ _ Ef).
  - intros x y Hx Hy. pose proof (index_range s0 x y Hx Hy). rewrite Hfpix by done. cbn [s1 dbuf set_dbuf info_width].
    change (times s1 x y) with (times s0 x y). destruct (zget_lt (fbuf s0) (y * info_width s0 + x)) as (o & Eo & _); [lia|].
    rewrite Hpix, Eo by done. destruct (zget_lt (dbuf s0) (y * info_width s0 + x)) as (v & Ev & _); [lia|]. rewrite Ev. simpl.
    destruct (Nat.ltb_spec 0 (times s0 x y)) as [Ht|]; [|done]. unfold scene, background_layer.
    by rewrite (proj2 (Nat.ltb_lt _ _) Ht).
Qed.
(** C30: a frame always completes, and then every pixel of the frame buffer
    that is in some update region is what the stacking order says: the
    background, the windows from the bottom up with their decorations, the
    status bar and the cursor, whatever was in either buffer before; every
    other pixel is as it was, and there are no update regions left.  Nothing is
    read or written outside the buffers, the windows' surfaces and the cursor.
    (A transparent window is blended once for every region a pixel is in:
    [window_layer].) *)
Theorem frame_correct fuel : (length l < fuel)%nat → picture_ok s0 (mouse_cursor S) (mouse S) →
  info_width s0 * info_height s0 <= Z.of_nat (length (dbuf s0)) → info_width s0 * info_height s0 <= Z.of_nat (length (fbuf s0)) →
  ∃ d f, draw_frame fuel S = Ret (tt, set_screen (set_updates (updates s0) 0 (set_fbuf f (set_dbuf d s0))) S) ∧
    length d = length (dbuf s0) ∧ length f = length (fbuf s0) ∧
    ∀ x y, 0 <= x < info_width s0 → 0 <= y < info_height s0 →
      zget f (y * info_width s0 + x) = if (0 <? times s0 x y)%nat then Some (scene x y 0) else zget (fbuf s0) (y * info_width s0 + x).
Proof. apply draw_frame_ok. Qed.
End frame.

(** ** A small desktop *)
Definition sample_window : window :=
  mk_window (mk_rect (mk_point 4 2) 3 5) (mk_memobj 0 0 0 false) 0x80ff8000 false 0 0 0.
Definition sample_region : wm_update := mk_update (mk_point 0 0) (mk_point 12 8).
Definition sample_screen : screen :=
  mk_screen 12 8 (sample_region :: replicate 127 (mk_update (mk_point 0 0) (mk_point 0 0))) 1 (replicate 96 0) (replicate 96 0)
    cursor_mem ∅.
Definition sample_wm : wm Bump.bump Bump.bump :=
  mk_wm (mk_wlist 4096 4096 1 (Bump.mk_bump 8192 {[4096]}) {[4096 := mk_wnode sample_window 0 0]}) sample_screen (mk_process [] None)
    1 0 (mk_point 6 3) (mk_ppm 54 16 20 4148) (mk_memobj 0 0 0 false) 0 0.

Lemma sample_rep : wl_rep [(4096, sample_window)] (winlist sample_wm).
Proof.
  split; simpl; try done.
  - apply NoDup_singleton.
  - by intros ?%list_elem_of_singleton.
  - intros a. rewrite list_elem_of_singleton. destruct (decide (a = 4096)) as [->|Ha].
    + rewrite lookup_singleton_eq. by split.
    + rewrite lookup_singleton_ne by done. split; [done|by intros [? ?]].
  - split; simpl; [lia|]. intros a ->%elem_of_singleton. lia.
  - intros a ->%list_elem_of_singleton. set_solver.
Qed.

Lemma sample_frame : frame_ok sample_screen.
Proof. unfold frame_ok. cbn. lia. Qed.
Lemma sample_updates : updates_ok sample_screen.
Proof. split; [cbn; unfold MAX_UPDATES; lia|]. split; [reflexivity|]. repeat constructor; cbn; lia. Qed.
Lemma sample_windows : Forall (window_ok sample_screen) [sample_window].
Proof. constructor; [|done]. unfold window_ok. cbn. split_and!; done || lia. Qed.
Lemma sample_cursor : picture_ok sample_screen (mouse_cursor sample_wm) (mouse sample_wm).
Proof.
  unfold picture_ok. cbn [sample_wm sample_screen mouse_cursor mouse px py ppm_width ppm_height info_width info_height images pixbuf].
  split_and!; try lia. intros k Hk.
  assert (Forall (λ k, is_Some (cursor_mem !! (4148 + Z.of_nat k))) (seq 0 960)) as Hall by (apply (bool_decide_unpack _); vm_compute; exact I).
  replace (4148 + k) with (4148 + Z.of_nat (Z.to_nat k)) by lia. apply (proj1 (Forall_forall _ _) Hall). apply elem_of_seq. lia.
Qed.

Lemma frame_correct_witness : let _ := steady 0 no_msg in
  ∃ d f, draw_frame 9 sample_wm = Ret (tt, set_screen (set_updates (updates sample_screen) 0 (set_fbuf f (set_dbuf d sample_screen))) sample_wm) ∧
    zget f (2 * 12 + 5) = Some (scene sample_wm [(4096, sample_window)] 5 2 0).
Proof.
  intros env.
  destruct (frame_correct sample_wm [(4096, sample_window)] sample_rep sample_frame sample_updates sample_windows 9) as (d & f & E & _ & _ & Hpix);
    [simpl; lia|exact sample_cursor|vm_compute; done|vm_compute; done|].
  exists d, f. split; [exact E|]. refine (eq_trans (Hpix 5 2 _ _) _); [cbn; lia|cbn; lia|reflexivity].
Defined.
