(* ===== verification/WmEvents.v ===== *)
(** The window manager's reaction to events: the update regions never overflow
    their array and cover everything that changes, and the mouse raises and
    moves the topmost window under the pointer. *)

From S2P Require Import Prelude Interfaces Kernel Mem CString Devices WinList Ppm Wm WmDraw.
#[local] Open Scope Z_scope.

(** ** Update regions *)

(** Some region has the pixel in it. *)
Definition damaged (s : screen) (x y : Z) : Prop := ∃ up, up ∈ regions s ∧ in_update up x y = true.

Lemma damaged_times s x y : damaged s x y ↔ (0 < times s x y)%nat.
Proof.
  unfold damaged, times. induction (regions s) as [|up l IH]; cbn [List.filter].
  - split; [intros (? & ?%not_elem_of_nil & _); done|simpl; lia].
  - destruct (in_update up x y) eqn:E.
    + split; [simpl; lia|]. intros _. exists up. split; [by left|done].
    + rewrite <-IH. split.
      * intros (u & [->|Hu]%elem_of_cons & Hin); [congruence|by exists u].
      * intros (u & Hu & Hin). exists u. split; [by right|done].
Qed.

Section updates.
Implicit Types s : screen.

Definition full (s : screen) : wm_update := mk_update (mk_point 0 0) (mk_point (i32 (info_width s)) (i32 (info_height s))).

(** One more region [up], or one region that is the whole frame. *)
Definition regions_after (s : screen) (up : wm_update) (s' : screen) : Prop :=
  regions s' = regions s ++ [up] ∨ regions s' = [full s].

Lemma put_update_ok i up s : 0 <= i < Z.of_nat (length (updates s)) →
  put_update i up s = Ret (tt, set_updates (<[Z.to_nat i := up]> (updates s)) (num_updates s) s).
Proof.
  intros Hi. unfold put_update. rewrite (bind_run _ _ _ (<[Z.to_nat i := up]> (updates s)) s); [done|].
  unfold getsome. by rewrite zset_lt.
Qed.

Lemma alloc_update_step d s :
  alloc_update (S d) s =
    ((if MAX_UPDATES <=? u32 (num_updates s + 1) then reset_updates;; up ← alloc_update d; put_update up (full s) else mret tt);;
     modify (λ s, set_updates (updates s) (num_updates s mod MAX_UPDATES) s);; mret (num_updates s))
    (set_updates (updates s) (u32 (num_updates s + 1)) s).
Proof. done. Qed.

(** There is room. *)
Lemma alloc_update_room d s : 0 <= num_updates s → num_updates s + 1 < MAX_UPDATES →
  alloc_update (S d) s = Ret (num_updates s, set_updates (updates s) (num_updates s + 1) s).
Proof.
  intros Hn0 Hn1. unfold MAX_UPDATES in *. rewrite alloc_update_step, u32_small by lia. unfold MAX_UPDATES.
  rewrite (proj2 (Z.leb_gt _ _)) by lia. munfold. cbn [num_updates updates set_updates]. by rewrite Z.mod_small by lia.
Qed.

(** There is room for one only: everything is redrawn. *)
Lemma alloc_update_full s : num_updates s = MAX_UPDATES - 1 → length (updates s) = Z.to_nat MAX_UPDATES →
  alloc_update 2 s = Ret (num_updates s, set_updates (<[0%nat := full s]> (updates s)) 1 s).
Proof.
  intros Hn Hl. rewrite alloc_update_step, Hn. change (MAX_UPDATES <=? u32 (MAX_UPDATES - 1 + 1)) with true. cbv iota.
  rewrite bind_assoc_run, (bind_run reset_updates _ _ tt (set_updates (updates s) 0 s)) by done. rewrite bind_assoc_run.
  rewrite (bind_run _ _ _ _ _ (alloc_update_room 0 (set_updates (updates s) 0 s) ltac:(done) ltac:(done))). cbn [num_updates set_updates updates].
  erewrite bind_run by (apply put_update_ok; simpl; rewrite Hl; done). done.
Qed.

Lemma update_region_ok a b s : frame_ok s → updates_ok s →
  let up := mk_update (normalize_point s (if point_less_than a b then a else b)) (normalize_point s (if point_less_than a b then b else a)) in
  ∃ l n, update_region a b s = Ret (tt, set_updates l n s) ∧ length l = length (updates s) ∧ 0 <= n < MAX_UPDATES ∧
    regions_after s up (set_updates l n s).
Proof.
  intros Hf (Hn & Hl & _) up. unfold update_region. destruct (decide (num_updates s + 1 < MAX_UPDATES)) as [Hr|Hr].
  - rewrite (bind_run _ _ _ _ _ (alloc_update_room 1 s ltac:(lia) Hr)). unfold get at 1. rewrite (bind_run _ _ _ _ _ eq_refl).
    rewrite put_update_ok by (simpl; rewrite Hl; unfold MAX_UPDATES in *; lia). cbn [updates num_updates set_updates].
    eexists _, _. split; [reflexivity|]. split; [by rewrite length_insert|]. split; [lia|]. left.
    unfold regions. cbn [num_updates updates set_updates]. rewrite Z2Nat.inj_add by lia. change (Z.to_nat 1) with 1%nat.
    rewrite Nat.add_1_r, (take_S_r _ _ up). 2:{ apply list_lookup_insert_eq. unfold MAX_UPDATES in *. lia. }
    by rewrite take_insert_ge by lia.
  - assert (num_updates s = MAX_UPDATES - 1) as E by lia. rewrite (bind_run _ _ _ _ _ (alloc_update_full s E Hl)).
    unfold get at 1. rewrite (bind_run _ _ _ _ _ eq_refl). rewrite E.
    rewrite put_update_ok by (simpl; rewrite length_insert, Hl; unfold MAX_UPDATES in *; lia). cbn [updates num_updates set_updates].
    eexists _, _. split; [reflexivity|]. split; [by rewrite !length_insert|]. split; [done|]. right.
    unfold regions. cbn [num_updates updates set_updates]. change (Z.to_nat 1) with 1%nat.
    destruct (updates s) as [|u us]; [done|]. done.
Qed.
End updates.

(** ** What is redrawn *)
Section grows.
Implicit Types s : screen.

(** Only the update regions change, and they cover what they covered and [q]. *)
Definition grows (s s' : screen) (q : Z → Z → Prop) : Prop :=
  (∃ l n, s' = set_updates l n s) ∧ updates_ok s' ∧
  ∀ x y, 0 <= x < info_width s → 0 <= y < info_height s → damaged s x y ∨ q x y → damaged s' x y.

Lemma grows_trans s s1 s2 q1 q2 : grows s s1 q1 → grows s1 s2 q2 → grows s s2 (λ x y, q1 x y ∨ q2 x y).
Proof.
  intros ((l1 & n1 & ->) & Hu1 & H1) ((l2 & n2 & ->) & Hu2 & H2). split_and!; [by exists l2, n2|done|].
  intros x y Hx Hy Hq. specialize (H1 x y Hx Hy). specialize (H2 x y Hx Hy). naive_solver.
Qed.

Lemma grows_weaken s s' q q' : (∀ x y, 0 <= x < info_width s → 0 <= y < info_height s → q' x y → q x y) → grows s s' q → grows s s' q'.
Proof. intros Hq (Hs & Hu & H). split_and!; [done..|]. intros x y Hx Hy [Hd|Hd]; apply H; auto. Qed.

Definition in_frame s (p : point) : Prop := 0 <= px p <= info_width s ∧ 0 <= py p <= info_height s.
Definition fits (p : point) : Prop := - 2 ^ 31 <= px p < 2 ^ 31 ∧ - 2 ^ 31 <= py p < 2 ^ 31.

Lemma normalize_in_frame s p : frame_ok s → fits p → in_frame s (normalize_point s p).
Proof. intros Hf [Hx Hy]. rewrite normalize_ok by done. destruct Hf as (Hw & Hh & _). unfold in_frame. simpl. lia. Qed.

(** A corner above and to the left of another is the lower one. *)
Lemma ordered_corners a b : px a <= px b → py a <= py b →
  (if point_less_than a b then a else b) = a ∧ (if point_less_than a b then b else a) = b.
Proof.
  intros Hx Hy. destruct a as [ax ay], b as [bx by_]. unfold point_less_than. simpl in *.
  destruct (Z.ltb_spec ay by_), (Z.eqb_spec ay by_), (Z.ltb_spec ax bx); simpl; try done; try lia; split; f_equal; lia.
Qed.

Lemma update_region_grows a b s : frame_ok s → updates_ok s → fits a → fits b → px a <= px b → py a <= py b →
  ∃ s', update_region a b s = Ret (tt, s') ∧ grows s s' (λ x y, px a <= x < px b ∧ py a <= y < py b).
Proof.
  intros Hf Hu Ha Hb Hx Hy. destruct (update_region_ok a b s Hf Hu) as (l & n & E & Hl & Hn & Hr). cbv zeta in Hr.
  destruct (ordered_corners a b Hx Hy) as [-> ->] in Hr. exists (set_updates l n s). split; [exact E|].
  pose proof (normalize_in_frame s a Hf Ha) as Hna. pose proof (normalize_in_frame s b Hf Hb) as Hnb.
  pose proof Hf as (Hw & Hh & _). destruct Hu as (_ & Hlen & Hall).
  assert (Forall (update_ok s) (regions (set_updates l n s))) as Hall'.
  { destruct Hr as [->| ->].
    - apply Forall_app. split; [done|]. constructor; [|done]. destruct Hna, Hnb. unfold update_ok. cbn [lower upper]. lia.
    - constructor; [|done]. unfold update_ok, full. cbn [lower upper px py]. rewrite !i32_small by lia. lia. }
  split; [by exists l, n|]. split; [split; [exact Hn|split; [exact (eq_trans Hl Hlen)|exact Hall']]|].
  intros x y Hx' Hy' Hq. destruct Hr as [Er|Er].
  - destruct Hq as [(u & Hin & Hd)|Hq].
    + exists u. split; [|done]. rewrite Er. apply elem_of_app. by left.
    + eexists. split; [rewrite Er; apply elem_of_app; right; by left|]. unfold in_update. cbn [lower upper].
      destruct Ha, Hb. rewrite !normalize_ok by done. cbn [px py]. rewrite !andb_true_iff, !Z.leb_le, !Z.ltb_lt. lia.
  - exists (full s). split; [rewrite Er; by left|]. unfold in_update, full. cbn [lower upper px py]. rewrite !i32_small by lia.
    rewrite !andb_true_iff, !Z.leb_le, !Z.ltb_lt. lia.
Qed.
End grows.

(** ** The invariant *)
Definition small (z : Z) : Prop := 0 <= z < 2 ^ 29.

(** A window as the server makes it, wherever it is. *)
Definition placed (s : screen) (w : window) : Prop :=
  in_frame s (coord (w_rect w)) ∧ small (width (w_rect w)) ∧ small (height (w_rect w)) ∧
  width (w_rect w) * height (w_rect w) < 2 ^ 31 ∧
  (has_buffer w = true → ∃ b, surfaces s !! vaddr (w_buffer w) = Some b ∧ width (w_rect w) * height (w_rect w) <= Z.of_nat (length b)).

Definition cursor_ok (s : screen) (p : ppm) : Prop :=
  small (ppm_width p) ∧ small (ppm_height p) ∧ ppm_width p * ppm_height p * 3 < 2 ^ 32 ∧
  ∀ k, 0 <= k < ppm_width p * ppm_height p * 3 → is_Some (images s !! (pixbuf p + k)).

Section inv.
Context `{KernelEnv} {Hp R : Type} `{AllocatorLaws Hp} `{Allocator R}.

Record wm_inv (l : list (Z * window)) (S : wm Hp R) : Prop := {
  wi_list : wl_rep l (winlist S);
  wi_width : small (info_width (wm_screen S));
  wi_height : small (info_height (wm_screen S));
  wi_area : info_width (wm_screen S) * info_height (wm_screen S) < 2 ^ 32;
  wi_updates : updates_ok (wm_screen S);
  wi_windows : Forall (placed (wm_screen S)) l.*2;
  wi_cursor : cursor_ok (wm_screen S) (mouse_cursor S);
  wi_mouse : in_frame (wm_screen S) (mouse S);
  wi_dbuf : info_width (wm_screen S) * info_height (wm_screen S) <= Z.of_nat (length (dbuf (wm_screen S)));
  wi_fbuf : info_width (wm_screen S) * info_height (wm_screen S) <= Z.of_nat (length (fbuf (wm_screen S)))
}.

Lemma inv_frame l S : wm_inv l S → frame_ok (wm_screen S).
Proof. intros Hi. destruct (wi_width _ _ Hi), (wi_height _ _ Hi). pose proof (wi_area _ _ Hi). unfold frame_ok. lia. Qed.

Lemma placed_ok s w : small (info_width s) → small (info_height s) → placed s w → window_ok s w.
Proof. unfold placed, window_ok, in_frame, small. intros Hw Hh ([? ?] & ? & ? & ? & ?). split_and!; try done; lia. Qed.

Lemma cursor_picture s p pt : small (info_width s) → small (info_height s) → cursor_ok s p → in_frame s pt → picture_ok s p pt.
Proof. unfold cursor_ok, picture_ok, in_frame, small. intros Hw Hh (? & ? & ? & ?) [? ?]. split_and!; try done; lia. Qed.

(** The invariant only depends on the regions through [updates_ok]. *)
Lemma inv_screen l S s q : wm_inv l S → grows (wm_screen S) s q → wm_inv l (set_screen s S).
Proof. intros [] ((ups & n & ->) & Hu & _). by split. Qed.

Lemma inv_winlist l l' wl S : wm_inv l S → wl_rep l' wl → Forall (placed (wm_screen S)) l'.*2 → wm_inv l' (set_winlist wl S).
Proof. intros [] Hr Hw. by split. Qed.

(** ** Redrawing a window, and the cursor *)

(** A window with its decoration. *)
Definition decorated (w : window) (x y : Z) : Prop :=
  px (coord (w_rect w)) - STUBBYWM_BORDER_SIZE <= x < px (coord (w_rect w)) + width (w_rect w) + STUBBYWM_BORDER_SIZE ∧
  py (coord (w_rect w)) - STUBBYWM_TITLEBAR_SIZE <= y < py (coord (w_rect w)) + height (w_rect w) + STUBBYWM_BORDER_SIZE.

Definition under_cursor (p : ppm) (m : point) (x y : Z) : Prop :=
  px m <= x < px m + ppm_width p ∧ py m <= y < py m + ppm_height p.

Lemma on_screen_ok (op : C unit) s (S : wm Hp R) : op (wm_screen S) = Ret (tt, s) → on_screen op S = Ret (tt, set_screen s S).
Proof. unfold on_screen, zoom. by intros ->. Qed.

Lemma window_region_ok w l S : wm_inv l S → placed (wm_screen S) w →
  ∃ s, update_window_region w S = Ret (tt, set_screen s S) ∧ grows (wm_screen S) s (decorated w).
Proof.
  intros Hi Hw. pose proof (placed_ok _ _ (wi_width _ _ Hi) (wi_height _ _ Hi) Hw) as Hwok.
  pose proof (inv_frame _ _ Hi) as Hf. destruct (wi_width _ _ Hi), (wi_height _ _ Hi). destruct Hw as ([Hx Hy] & [Hw0 Hw] & [Hh0 Hh] & _).
  unfold update_window_region, get. rewrite (bind_run _ _ _ _ _ eq_refl). cbv zeta. rewrite (window_max _ Hf w Hwok). cbn [px py].
  unfold STUBBYWM_BORDER_SIZE, STUBBYWM_TITLEBAR_SIZE. rewrite !i32_small by lia.
  rewrite !normalize_ok by (done || simpl; lia). cbn [px py].
  match goal with |- context [update_region ?a ?b] =>
    destruct (update_region_grows a b (wm_screen S) Hf (wi_updates _ _ Hi)) as (s & E & Hg); [unfold fits; simpl; lia..|] end.
  exists s. split; [by apply on_screen_ok|]. eapply grows_weaken; [|exact Hg]. intros x y Hx' Hy'. cbn [px py].
  unfold decorated, STUBBYWM_BORDER_SIZE, STUBBYWM_TITLEBAR_SIZE. lia.
Qed.

Lemma mouse_region_ok l S : wm_inv l S →
  ∃ s, update_mouse_region S = Ret (tt, set_screen s S) ∧ grows (wm_screen S) s (under_cursor (mouse_cursor S) (mouse S)).
Proof.
  intros Hi. pose proof (inv_frame _ _ Hi) as Hf. destruct (wi_width _ _ Hi), (wi_height _ _ Hi), (wi_cursor _ _ Hi) as ([? ?] & [? ?] & _).
  destruct (wi_mouse _ _ Hi) as [Hx Hy]. unfold update_mouse_region, get. rewrite (bind_run _ _ _ _ _ eq_refl). cbv zeta.
  rewrite !i32_small by lia.
  match goal with |- context [update_region ?a ?b] =>
    destruct (update_region_grows a b (wm_screen S) Hf (wi_updates _ _ Hi)) as (s & E & Hg); [unfold fits; simpl; lia..|] end.
  exists s. split; [by apply on_screen_ok|]. exact Hg.
Qed.

(** ** The mouse *)

(** What a mouse event does to the windows, bottom to top, and the pixels it
    changes. *)
Inductive mouse_effect (hit : window → bool) (move : window → window) (left right : bool) :
  list window → list window → (Z → Z → Prop) → Prop :=
| Raise ws1 w ws2 : left = true → hit w = true → Forall (λ v, hit v = false) ws2 →
    mouse_effect hit move left right (ws1 ++ w :: ws2) (ws1 ++ ws2 ++ [w]) (decorated w)
| Drag ws1 w ws2 : left = false → right = true → hit w = true → Forall (λ v, hit v = false) ws2 →
    mouse_effect hit move left right (ws1 ++ w :: ws2) (ws1 ++ move w :: ws2) (λ x y, decorated w x y ∨ decorated (move w) x y)
| Nothing ws : left || right = false ∨ Forall (λ v, hit v = false) ws →
    mouse_effect hit move left right ws ws (λ _ _, False).

Lemma moved_placed S l dx dy w : wm_inv l S → placed (wm_screen S) w → -1024 <= dx <= 1024 → -1024 <= dy <= 1024 →
  placed (wm_screen S) (moved (wm_screen S) dx dy w).
Proof.
  intros Hi ([Hx Hy] & Hrest) Hdx Hdy. destruct (wi_width _ _ Hi), (wi_height _ _ Hi). split; [|exact Hrest].
  unfold moved. cbv zeta. unfold window_set_pos, set_coord. cbn [w_rect coord].
  rewrite !i32_small by lia. pose proof (normalize_in_frame (wm_screen S)
    (mk_point (px (coord (w_rect w)) + dx) (py (coord (w_rect w)) - dy)) (inv_frame _ _ Hi)) as Hn.
  destruct Hn; [unfold fits; simpl; lia|]. by split.
Qed.

Lemma placed_grows s s' q w : grows s s' q → placed s w → placed s' w.
Proof. by intros ((l & n & ->) & _). Qed.

Lemma placed_all_grows s s' q ws : grows s s' q → Forall (placed s) ws → Forall (placed s') ws.
Proof. intros Hg Hf. eapply Forall_impl; [exact Hf|]. intros w. by eapply placed_grows. Qed.

Definition left_click (ev : mouse_event) : bool := truthy (Z.land (mev_flags ev) MOUSE_FLAG_LEFT).
Definition right_click (ev : mouse_event) : bool := truthy (Z.land (mev_flags ev) MOUSE_FLAG_RIGHT).

(** The effect of the search for a window, in a state. *)
Definition searched (n : nat) (ev : mouse_event) (ws : list window) (S S' : wm Hp R) : Prop := ∃ l' q,
  wm_inv l' S' ∧ plenty n (wl_heap (winlist S')) ∧ mouse S' = mouse S ∧ mouse_cursor S' = mouse_cursor S ∧
  mouse_effect (under_mouse (wm_screen S) (mouse S)) (moved (wm_screen S) (mev_x ev) (mev_y ev)) (left_click ev) (right_click ev) ws l'.*2 q ∧
  grows (wm_screen S) (wm_screen S') q.

(** Raising: unlinked and linked again on top. *)
Lemma raise_ok n l1 a w l2 S : wm_inv (l1 ++ (a, w) :: l2) S → plenty (Datatypes.S (Datatypes.S n)) (wl_heap (winlist S)) →
  ∃ S' l', (update_window_region w;; on_list (window_list_remove a);; on_list (window_list_insert w);; update_window_region w) S = Ret (tt, S') ∧
    wm_inv l' S' ∧ plenty n (wl_heap (winlist S')) ∧ mouse S' = mouse S ∧ mouse_cursor S' = mouse_cursor S ∧
    l'.*2 = l1.*2 ++ l2.*2 ++ [w] ∧ grows (wm_screen S) (wm_screen S') (decorated w).
Proof.
  intros Hi Hpl. pose proof (wi_windows _ _ Hi) as Hw. rewrite fmap_app in Hw. apply Forall_app in Hw as [Hw1 [Hw Hw2]%Forall_cons]. simpl in Hw.
  destruct (window_region_ok w _ S Hi Hw) as (s1 & E1 & G1). pose proof (inv_screen _ _ _ _ Hi G1) as I1.
  destruct (window_list_remove_ok l1 (a, w) l2 (winlist S) (wi_list _ _ Hi)) as (wl & E2 & R2 & F2 & _). cbn [fst] in E2, F2.
  assert (Forall (placed (wm_screen (set_screen s1 S))) (l1 ++ l2).*2) as P2.
  { simpl. eapply placed_all_grows; [exact G1|]. rewrite fmap_app. by apply Forall_app. }
  pose proof (inv_winlist _ _ wl _ I1 R2 P2) as I2.
  assert (a ∈ al_live (wl_heap (winlist S))) as Hlive.
  { apply (rep_live _ _ (wi_list _ _ Hi)). rewrite fmap_app. apply elem_of_app. right. by left. }
  pose proof (plenty_freed _ _ _ _ Hpl Hlive F2) as Hpl2.
  destruct (window_list_insert_ok n _ w wl R2 Hpl2) as (b & wl' & E3 & R3 & Hpl3 & _).
  assert (Forall (placed (wm_screen (set_winlist wl (set_screen s1 S)))) ((l1 ++ l2) ++ [(b, w)]).*2) as P3.
  { rewrite fmap_app. apply Forall_app. split; [exact P2|]. constructor; [|done]. by eapply placed_grows. }
  pose proof (inv_winlist _ _ wl' _ I2 R3 P3) as I3.
  destruct (window_region_ok w _ _ I3) as (s2 & E4 & G4); [by eapply (placed_grows _ s1)|].
  pose proof (inv_screen _ _ _ _ I3 G4) as I4. eexists _, _. split.
  { rewrite (bind_run _ _ _ _ _ E1). rewrite (bind_run _ _ _ tt (set_winlist wl (set_screen s1 S))).
    2:{ unfold on_list, zoom. simpl. by rewrite E2. }
    rewrite (bind_run _ _ _ b (set_winlist wl' (set_winlist wl (set_screen s1 S)))).
    2:{ unfold on_list, zoom. simpl. by rewrite E3. }
    exact E4. }
  split; [exact I4|]. split; [exact Hpl3|]. split; [done|]. split; [done|]. split.
  { by rewrite !fmap_app, <-app_assoc. }
  eapply grows_weaken; [|exact (grows_trans _ _ _ _ _ G1 G4)]. intros x y _ _ Hq. by left.
Qed.

(** Dragging: the node's window is replaced. *)
Lemma drag_ok n l1 a w l2 dx dy S : wm_inv (l1 ++ (a, w) :: l2) S → plenty n (wl_heap (winlist S)) →
  -1024 <= dx <= 1024 → -1024 <= dy <= 1024 → let w' := moved (wm_screen S) dx dy w in
  ∃ S', (update_window_region w;; on_list (upd a (set_window w'));; n ← on_list (load a); update_window_region (nd_window n)) S = Ret (tt, S') ∧
    wm_inv (l1 ++ (a, w') :: l2) S' ∧ plenty n (wl_heap (winlist S')) ∧ mouse S' = mouse S ∧ mouse_cursor S' = mouse_cursor S ∧
    grows (wm_screen S) (wm_screen S') (λ x y, decorated w x y ∨ decorated w' x y).
Proof.
  intros Hi Hpl Hdx Hdy w'. pose proof (wi_windows _ _ Hi) as Hw. rewrite fmap_app in Hw.
  apply Forall_app in Hw as [Hw1 [Hw Hw2]%Forall_cons]. simpl in Hw.
  destruct (window_region_ok w _ S Hi Hw) as (s1 & E1 & G1). pose proof (inv_screen _ _ _ _ Hi G1) as I1.
  pose proof (moved_placed S _ dx dy w Hi Hw Hdx Hdy) as Hw'. fold w' in Hw'.
  destruct (window_list_update_ok l1 a w w' l2 (winlist S) (wi_list _ _ Hi)) as (wl & E2 & R2 & Hh & Ha).
  assert (Forall (placed (wm_screen (set_screen s1 S))) (l1 ++ (a, w') :: l2).*2) as P2.
  { simpl. eapply placed_all_grows; [exact G1|]. rewrite fmap_app. apply Forall_app. split; [done|]. by constructor. }
  pose proof (inv_winlist _ _ wl _ I1 R2 P2) as I2.
  destruct (window_region_ok w' _ _ I2) as (s2 & E3 & G3); [by eapply (placed_grows _ s1)|].
  pose proof (inv_screen _ _ _ _ I2 G3) as I3. eexists. split.
  { rewrite (bind_run _ _ _ _ _ E1). rewrite (bind_run _ _ _ tt (set_winlist wl (set_screen s1 S))).
    2:{ unfold on_list, zoom. simpl. by rewrite E2. }
    rewrite (bind_run _ _ _ (mk_wnode w' (head_addr 0 l2) (last_addr 0 l1)) (set_winlist wl (set_screen s1 S))).
    2:{ unfold on_list, zoom. simpl. by rewrite (node_load_ok _ _ _ Ha). }
    exact E3. }
  split; [exact I3|]. split; [simpl; by rewrite Hh|]. split; [done|]. split; [done|]. exact (grows_trans _ _ _ _ _ G1 G3).
Qed.

Lemma grows_refl s : updates_ok s → grows s s (λ _ _, False).
Proof. intros Hu. split; [exists (updates s), (num_updates s); by destruct s|]. split; [done|]. naive_solver. Qed.

Lemma handle_mouse_loop_ok n ev S : plenty (Datatypes.S (Datatypes.S n)) (wl_heap (winlist S)) →
  -1024 <= mev_x ev <= 1024 → -1024 <= mev_y ev <= 1024 → ∀ l1 l2 fuel, wm_inv (l1 ++ l2) S → (length l1 < fuel)%nat →
  left_click ev || right_click ev = false ∨ Forall (λ v, under_mouse (wm_screen S) (mouse S) v = false) l2.*2 →
  ∃ S', handle_mouse_loop fuel ev (last_addr 0 l1) S = Ret (tt, S') ∧ searched n ev (l1 ++ l2).*2 S S'.
Proof.
  intros Hpl Hdx Hdy l1. induction l1 as [|[a w] l1 IH] using rev_ind; intros l2 fuel Hi Hf Hno;
    (destruct fuel as [|fuel]; [lia|]); cbn [handle_mouse_loop].
  - exists S. split; [done|]. exists l2, (λ _ _, False). split; [exact Hi|]. split; [by apply plenty_S, plenty_S in Hpl; try apply Hi|].
    split; [done|]. split; [done|]. split; [by apply Nothing|]. apply grows_refl, Hi.
  - rewrite last_addr_snoc. cbn [fst]. rewrite <-app_assoc in *. simpl in Hi |- *. rewrite length_app in Hf. simpl in Hf.
    pose proof (rep_lookup _ _ _ _ (wi_list _ _ Hi)) as He. simpl in He.
    assert (a ≠ 0) as Ha. { intros ->. apply (rep_nonnull _ _ (wi_list _ _ Hi)). rewrite fmap_app. apply elem_of_app. right. by left. }
    rewrite (proj2 (Z.eqb_neq a 0) Ha).
    rewrite (bind_run _ _ _ (mk_wnode w (head_addr 0 l2) (last_addr 0 l1)) S).
    2:{ unfold on_list, zoom. rewrite (node_load_ok _ _ _ He). by destruct S. }
    unfold get. rewrite (bind_run _ _ _ _ _ eq_refl). cbv zeta. cbn [nd_window nd_prev].
    fold (left_click ev). fold (right_click ev). destruct (under_mouse (wm_screen S) (mouse S) w) eqn:Eh; cbn [andb].
    + destruct (left_click ev) eqn:El; [|destruct (right_click ev) eqn:Er].
      * destruct Hno as [?|Hno]; [done|]. destruct (raise_ok n l1 a w l2 S Hi Hpl) as (S' & l' & E & Hi' & Hp' & Hm & Hc & Hl' & Hg).
        exists S'. split; [exact E|]. exists l', (decorated w). do 4 (split; [done|]). split; [|done].
        rewrite Hl', fmap_app, El. by apply Raise.
      * destruct Hno as [?|Hno]; [done|].
        destruct (drag_ok n l1 a w l2 (mev_x ev) (mev_y ev) S Hi) as (S' & E & Hi' & Hp' & Hm & Hc & Hg); [|done..|].
        { by apply plenty_S, plenty_S in Hpl; try apply Hi. }
        exists S'. split; [exact E|]. eexists _, _. split; [exact Hi'|]. do 3 (split; [done|]). split; [|exact Hg].
        rewrite El, Er, !fmap_app. by apply Drag.
      * apply (IH ((a, w) :: l2) fuel Hi); [lia|]. by left.
    + apply (IH ((a, w) :: l2) fuel Hi); [lia|]. destruct Hno as [?|Hno]; [by left|]. right. by constructor.
Qed.

(** The pointer moved and kept on the screen: up is [+y] for the mouse. *)
Definition clamped (s : screen) (x y : Z) : point := mk_point (Z.min (Z.max 0 x) (info_width s)) (Z.min (Z.max 0 y) (info_height s)).

Lemma inv_mouse l S p : wm_inv l S → in_frame (wm_screen S) p → wm_inv l (set_mouse p S).
Proof. intros [] Hp'. by split. Qed.

Lemma mouse_moved l S dx dy : wm_inv l S → -1024 <= dx <= 1024 → -1024 <= dy <= 1024 →
  normalize_point (wm_screen S) (mk_point (i32 (px (mouse S) + dx)) (i32 (py (mouse S) - dy)))
    = clamped (wm_screen S) (px (mouse S) + dx) (py (mouse S) - dy).
Proof.
  intros Hi Hdx Hdy. destruct (wi_width _ _ Hi), (wi_height _ _ Hi), (wi_mouse _ _ Hi). rewrite !i32_small by lia.
  rewrite normalize_ok; [done|by apply inv_frame in Hi|simpl; lia..].
Qed.

Lemma clamped_in l S x y : wm_inv l S → in_frame (wm_screen S) (clamped (wm_screen S) x y).
Proof. intros Hi. destruct (wi_width _ _ Hi), (wi_height _ _ Hi). unfold in_frame, clamped. cbn [px py]. lia. Qed.

(** What the mouse does, all in all. *)
Definition mouse_done (n : nat) (ev : mouse_event) (l : list (Z * window)) (S S' : wm Hp R) : Prop := ∃ l' q,
  wm_inv l' S' ∧ plenty n (wl_heap (winlist S')) ∧
  mouse S' = clamped (wm_screen S) (px (mouse S) + mev_x ev) (py (mouse S) - mev_y ev) ∧
  mouse_effect (under_mouse (wm_screen S) (mouse S)) (moved (wm_screen S) (mev_x ev) (mev_y ev)) (left_click ev) (right_click ev) l.*2 l'.*2 q ∧
  ∀ x y, 0 <= x < info_width (wm_screen S) → 0 <= y < info_height (wm_screen S) →
    damaged (wm_screen S) x y ∨ q x y ∨ under_cursor (mouse_cursor S) (mouse S) x y ∨ under_cursor (mouse_cursor S) (mouse S') x y →
    damaged (wm_screen S') x y.

Lemma handle_mouse_ok n ev l fuel S : wm_inv l S → plenty (Datatypes.S (Datatypes.S n)) (wl_heap (winlist S)) →
  -1024 <= mev_x ev <= 1024 → -1024 <= mev_y ev <= 1024 → (length l < fuel)%nat →
  ∃ S', handle_mouse fuel ev S = Ret (tt, S') ∧ mouse_done n ev l S S'.
Proof.
  intros Hi Hpl Hdx Hdy Hf. destruct (mouse_region_ok l S Hi) as (s1 & E1 & G1). pose proof (inv_screen _ _ _ _ Hi G1) as I1.
  set (S1 := set_screen s1 S) in *. unfold handle_mouse. rewrite (bind_run _ _ _ _ _ E1). unfold get. rewrite (bind_run _ _ _ _ _ eq_refl).
  rewrite (rep_end _ _ (wi_list _ _ I1)).
  destruct (handle_mouse_loop_ok n ev S1 Hpl Hdx Hdy l [] fuel) as (S2 & E2 & l' & q & I2 & Hpl2 & Hm & Hc & He & G2);
    [by rewrite app_nil_r|done|right; constructor|].
  rewrite (bind_run _ _ _ _ _ E2). rewrite app_nil_r in He.
  rewrite (bind_run _ _ _ tt (set_mouse (mk_point (i32 (px (mouse S2) + mev_x ev)) (i32 (py (mouse S2) - mev_y ev))) S2)) by done.
  pose proof (mouse_moved _ S2 _ _ I2 Hdx Hdy) as Hnm. set (pt := clamped (wm_screen S2) (px (mouse S2) + mev_x ev) (py (mouse S2) - mev_y ev)) in *.
  rewrite (bind_run _ _ _ tt (set_mouse pt S2)) by (rewrite <-Hnm; done).
  pose proof (inv_mouse l' S2 pt I2 (clamped_in _ _ _ _ I2)) as I3.
  destruct (mouse_region_ok l' _ I3) as (s4 & E4 & G4). pose proof (inv_screen _ _ _ _ I3 G4) as I4.
  exists (set_screen s4 (set_mouse pt S2)). split; [exact E4|]. exists l', q. split; [exact I4|]. split; [exact Hpl2|].
  pose proof G1 as ((u1 & n1 & Es1) & _). pose proof G2 as ((u2 & n2 & Es2) & _). split.
  { cbn [mouse set_screen set_mouse]. unfold pt, clamped. rewrite Hm, Es2. unfold S1. simpl. by rewrite Es1. }
  split; [subst S1 s1; exact He|]. intros x y Hx Hy Hq.
  assert (info_width s1 = info_width (wm_screen S) ∧ info_height s1 = info_height (wm_screen S)) as [Ew Eh] by (by rewrite Es1).
  pose proof (proj2 (proj2 (grows_trans _ _ _ _ _ (grows_trans _ _ _ _ _ G1 G2) G4)) x y Hx Hy) as Hg. apply Hg.
  cbn [mouse_cursor mouse set_mouse set_screen] in *. rewrite Hc. cbn [S1 mouse_cursor set_screen]. tauto.
Qed.

(** ** The other events *)
Lemma handle_client_update_ok fuel msg l S : wm_inv l S → (length l < fuel)%nat →
  ∃ S' s q, handle_client_update fuel msg S = Ret (tt, S') ∧ S' = set_screen s S ∧ grows (wm_screen S) s q ∧
    ∀ e, head (filter (λ e, w_color e.2 = mget msg 0) l) = Some e → q = decorated e.2.
Proof.
  intros Hi Hf. unfold handle_client_update.
  rewrite (bind_run _ _ _ (default 0 (fst <$> head (filter (λ e, w_color e.2 = mget msg 0) l))) S).
  2:{ unfold on_list, zoom. rewrite (find_client_ok _ _ _ _ (wi_list _ _ Hi) Hf). by destruct S. }
  destruct (head (filter (λ e, w_color e.2 = mget msg 0) l)) as [[a w]|] eqn:Eh; simpl.
  - assert ((a, w) ∈ l) as Hin.
    { destruct (filter (λ e, w_color e.2 = mget msg 0) l) as [|e fl] eqn:Ef; [done|]. injection Eh as ->.
      assert ((a, w) ∈ filter (λ e, w_color e.2 = mget msg 0) l) as Hin by (rewrite Ef; by left).
      by apply list_elem_of_filter in Hin as [_ ?]. }
    apply list_elem_of_split in Hin as (l1 & l2 & ->). pose proof (rep_lookup _ _ _ _ (wi_list _ _ Hi)) as He. simpl in He.
    assert (a ≠ 0) as Ha. { intros ->. apply (rep_nonnull _ _ (wi_list _ _ Hi)). rewrite fmap_app. apply elem_of_app. right. by left. }
    rewrite (proj2 (Z.eqb_neq a 0) Ha). rewrite (bind_run _ _ _ (mk_wnode w (head_addr 0 l2) (last_addr 0 l1)) S).
    2:{ unfold on_list, zoom. rewrite (node_load_ok _ _ _ He). by destruct S. }
    cbn [nd_window]. pose proof (wi_windows _ _ Hi) as Hw. rewrite fmap_app in Hw. apply Forall_app in Hw as [_ [Hw _]%Forall_cons].
    destruct (window_region_ok w _ S Hi Hw) as (s & E & G). exists (set_screen s S), s, (decorated w). split; [exact E|]. split; [done|].
    split; [done|]. by intros e [= <-].
  - exists S, (wm_screen S), (λ _ _, False). split; [done|]. split; [by destruct S|]. split; [|done]. by apply grows_refl, (wi_updates _ _ Hi).
Qed.

Lemma inv_proc l S p : wm_inv l S → wm_inv l (set_proc p S).
Proof. intros []. by split. Qed.

Lemma handle_keyboard_ok ev l S : wm_inv l S →
  ∃ p, handle_keyboard ev S = Ret (tt, set_proc p S).
Proof.
  intros Hi. unfold handle_keyboard, get. rewrite (bind_run _ _ _ _ _ eq_refl). cbv zeta. rewrite (rep_end _ _ (wi_list _ _ Hi)).
  assert (set_proc (wm_proc S) S = S) as Hid by (by destruct S).
  destruct l as [|[a w] l _] using rev_ind; [exists (wm_proc S); by rewrite Hid|]. rewrite last_addr_snoc. cbn [fst].
  assert (a ≠ 0) as Ha. { intros ->. apply (rep_nonnull _ _ (wi_list _ _ Hi)). rewrite fmap_app. apply elem_of_app. right. by left. }
  rewrite (proj2 (Z.eqb_neq a 0) Ha). pose proof (rep_lookup l (a, w) [] _ (wi_list _ _ Hi)) as He. simpl in He.
  rewrite (bind_run _ _ _ (mk_wnode w 0 (last_addr 0 l)) S).
  2:{ unfold on_list, zoom. rewrite (node_load_ok _ _ _ He). by destruct S. }
  cbn [nd_window]. destruct (has_buffer w); cbn [negb]; [|exists (wm_proc S); by rewrite Hid]. eexists. reflexivity.
Qed.

(** ** Frames and events in turn *)
Lemma draw_frame_inv l fuel S : wm_inv l S → (length l < fuel)%nat →
  ∃ S', draw_frame fuel S = Ret (tt, S') ∧ wm_inv l S' ∧ winlist S' = winlist S.
Proof.
  intros Hi Hf. pose proof (wi_width _ _ Hi) as Hw. pose proof (wi_height _ _ Hi) as Hh.
  destruct (draw_frame_ok S l (wi_list _ _ Hi) (inv_frame _ _ Hi) (wi_updates _ _ Hi)) with (fuel := fuel) as (d & f & E & Hd & Hfb & _).
  { eapply Forall_impl; [exact (wi_windows _ _ Hi)|]. intros w. by apply placed_ok. }
  { done. }
  { apply cursor_picture; [done..|apply (wi_cursor _ _ Hi)|apply (wi_mouse _ _ Hi)]. }
  { apply (wi_dbuf _ _ Hi). }
  { apply (wi_fbuf _ _ Hi). }
  eexists. split; [exact E|]. split; [|done]. destruct Hi as [? ? ? ? (Hn & Hl & Hall) ? ? ? Hdb Hfr]. split; try done.
  - simpl. by rewrite Hd.
  - simpl. by rewrite Hfb.
Qed.

Lemma mouse_effect_length hit move left right ws ws' q : mouse_effect hit move left right ws ws' q → length ws' = length ws.
Proof. destruct 1; rewrite ?length_app; simpl; lia. Qed.

(** The mouse reports small steps. *)
Definition event_small (msg : message) : Prop :=
  mtype msg = MOUSE_MSG_EVENT → -1024 <= i32 (mget msg 1) <= 1024 ∧ -1024 <= i32 (mget msg 2) <= 1024.

Lemma handle_event_inv n l fuel msg S : wm_inv l S → plenty (Datatypes.S (Datatypes.S n)) (wl_heap (winlist S)) →
  (length l < fuel)%nat → event_small msg →
  ∃ S' l', handle_event fuel msg S = Ret (tt, S') ∧ wm_inv l' S' ∧ plenty n (wl_heap (winlist S')) ∧ length l' = length l.
Proof.
  intros Hi Hpl Hf Hsm. assert (plenty n (wl_heap (winlist S))) as Hpl' by (by apply plenty_S, plenty_S in Hpl; try apply Hi).
  unfold handle_event. destruct (Z.eqb_spec (mtype msg) MOUSE_MSG_EVENT) as [Em|_].
  { destruct (Hsm Em) as [Hx Hy]. destruct (handle_mouse_ok n (mouse_parse_event msg) l fuel S Hi Hpl Hx Hy Hf)
      as (S' & E & l' & q & Hi' & Hp' & _ & He & _).
    exists S', l'. split_and!; [done..|]. apply mouse_effect_length in He. by rewrite !length_fmap in He. }
  destruct (mtype msg =? KEYBOARD_MSG_EVENT).
  { destruct (handle_keyboard_ok (keyboard_parse_event msg) l S Hi) as (p & E). exists (set_proc p S), l. split_and!; [done|by apply inv_proc|done..]. }
  destruct (mtype msg =? STUBBYWM_UPDATE); [|by exists S, l].
  destruct (handle_client_update_ok fuel msg l S Hi Hf) as (S' & s & q & E & -> & G & _). exists (set_screen s S), l.
  split_and!; [done|by eapply inv_screen|done..].
Qed.

Fixpoint run_desktop (fuel : nat) (msgs : list message) : M (wm Hp R) unit :=
  match msgs with [] => draw_frame fuel | msg :: msgs' => draw_frame fuel;; handle_event fuel msg;; run_desktop fuel msgs' end.

(** C31: in any sequence of frames and events (mouse reports of at most 1024
    steps, keys, updates of clients, anything else) the window manager never
    faults and its loops end: no access outside the buffers, the windows'
    surfaces, the array of update regions or the list's nodes, as long as the
    heap has room for the nodes of raised windows.  The invariant holds after
    every event and no window is lost. *)
Theorem desktop_safe fuel msgs : ∀ l S, wm_inv l S → plenty (2 * length msgs) (wl_heap (winlist S)) → (length l < fuel)%nat →
  Forall event_small msgs → ∃ S' l', run_desktop fuel msgs S = Ret (tt, S') ∧ wm_inv l' S' ∧ length l' = length l.
Proof.
  induction msgs as [|msg msgs IH]; intros l S Hi Hpl Hf Hsm; cbn [run_desktop].
  - destruct (draw_frame_inv l fuel S Hi Hf) as (S' & E & Hi' & _). by exists S', l.
  - apply Forall_cons in Hsm as [Hm Hsm]. destruct (draw_frame_inv l fuel S Hi Hf) as (S1 & E1 & I1 & Hwl).
    simpl in Hpl. rewrite Nat.add_succ_r in Hpl. rewrite <-Hwl in Hpl.
    destruct (handle_event_inv _ l fuel msg S1 I1 Hpl Hf Hm) as (S2 & l2 & E2 & I2 & Hpl2 & Hlen).
    destruct (IH l2 S2 I2 Hpl2 ltac:(lia) Hsm) as (S' & l' & E' & I' & Hlen'). exists S', l'. split_and!; [|done|lia].
    by rewrite (bind_run _ _ _ _ _ E1), (bind_run _ _ _ _ _ E2).
Qed.

(** C32: a mouse event raises the topmost window under the pointer when the left
    button is down, moves it, kept on the screen, when only the right one is,
    and leaves the windows as they are otherwise; the pointer moves and stays
    on the screen.  The update regions cover what they covered, the old and the
    new place of the window with its decoration, and of the cursor: nothing
    stale stays on the screen. *)
Theorem handle_mouse_correct n ev l fuel S : wm_inv l S → plenty (Datatypes.S (Datatypes.S n)) (wl_heap (winlist S)) →
  -1024 <= mev_x ev <= 1024 → -1024 <= mev_y ev <= 1024 → (length l < fuel)%nat →
  ∃ S', handle_mouse fuel ev S = Ret (tt, S') ∧ mouse_done n ev l S S'.
Proof. apply handle_mouse_ok. Qed.
End inv.

(** ** A small desktop *)
Lemma sample_desktop : wm_inv [(4096, sample_window)] sample_wm.
Proof.
  split; try apply sample_rep; try apply sample_updates.
  - constructor; [|done]. unfold placed, in_frame, small. simpl. split_and!; done || lia.
  - destruct sample_cursor as (_ & _ & _ & _ & _ & _ & Ha & Hb). split; [unfold small; simpl; lia|]. split; [unfold small; simpl; lia|]. by split.
  - unfold in_frame. simpl. lia.
  - vm_compute. done.
  - vm_compute. done.
Qed.

Lemma sample_plenty n : plenty n (wl_heap (winlist sample_wm)).
Proof. apply Bump.bump_plenty. split; simpl; [lia|]. intros a ->%elem_of_singleton. lia. Qed.

Lemma desktop_safe_witness : let _ := steady 0 no_msg in
  ∃ S' l', run_desktop 9 [mk_msg MOUSE_MSG_EVENT [2; 1; 1]; no_msg] sample_wm = Ret (tt, S') ∧ wm_inv l' S'.
Proof.
  intros env. destruct (desktop_safe 9 [mk_msg MOUSE_MSG_EVENT [2; 1; 1]; no_msg] _ _ sample_desktop (sample_plenty _)) as (S' & l' & E & Hi & _).
  - simpl. lia.
  - apply Forall_cons; split; [|apply Forall_cons; split; [|exact (List.Forall_nil _)]]; intros _; split_and!; vm_compute; discriminate.
  - exists S', l'. split; [exact E|exact Hi].
Defined.

Lemma handle_mouse_correct_witness : let _ := steady 0 no_msg in
  ∃ S', handle_mouse 9 (mk_mev MOUSE_FLAG_LEFT 3 (-2)) sample_wm = Ret (tt, S') ∧ mouse S' = mk_point 9 5.
Proof.
  intros env. destruct (handle_mouse_correct 0 (mk_mev MOUSE_FLAG_LEFT 3 (-2)) _ 9 _ sample_desktop (sample_plenty _)) as (S' & E & l' & q & _ & _ & Hm & _);
    [simpl; lia..|]. exists S'. split; [exact E|]. rewrite Hm. reflexivity.
Defined.
