(* ===== verification/Keyboard.v ===== *)
(** The keyboard driver ([programs/initprogs/src/keyboard.c]): scan codes from
    the controller become events, with the shift state and the modifiers held,
    and every event goes to every client.

    The table of clients is filled by the main thread and read by the event
    thread; each operation is atomic here. *)

From S2P Require Import Prelude Kernel Nameserver Devices.
#[local] Open Scope Z_scope.

Definition CODE_LEFT_SHIFT : Z := 4.
Definition CODE_RIGHT_SHIFT : Z := 5.
Definition CODE_END : Z := 6.

Definition lowercase : list Z :=
  [96; 0; 49; 50; 51; 52; 53; 54; 55; 56; 57; 48; 45; 61; 8; 1; 113; 119; 101; 114; 116; 121; 117; 105;
   111; 112; 91; 93; 10; 2; 97; 115; 100; 102; 103; 104; 106; 107; 108; 59; 39; 63; 4; 63; 122; 120; 99; 118;
   98; 110; 109; 44; 46; 47; 5; 95; 95; 32; 95; 95; 95; 95; 95; 95; 95; 95; 95; 95; 95; 95; 95; 95;
   95].
Definition uppercase : list Z :=
  [126; 0; 33; 64; 35; 36; 37; 94; 38; 42; 40; 41; 95; 43; 8; 1; 81; 87; 69; 82; 84; 89; 85; 73;
   79; 80; 123; 125; 10; 2; 65; 83; 68; 70; 71; 72; 74; 75; 76; 58; 34; 63; 4; 63; 90; 88; 67; 86;
   66; 78; 77; 60; 62; 63; 5; 95; 95; 32; 95; 95; 95; 95; 95; 95; 95; 95; 95; 95; 95; 95; 95; 95;
   95].

Definition is_modifier (c : Z) : bool := c <? CODE_END.

(** The driver's static variables, after the calls made so far. *)
Record keyboard := mk_keyboard {
  kb_hist : list kcall; is_uppercase : bool; modifiers : Z; interrupt_queue : Z; clients : list Z; num_clients : Z
}.

Definition MAX_CLIENTS : Z := 1024.

Section keyboard.
Context `{KernelEnv}.
Abbreviation B := (M keyboard).

Definition kk {A} (m : K A) : B A :=
  zoom kb_hist (λ h s, mk_keyboard h (is_uppercase s) (modifiers s) (interrupt_queue s) (clients s) (num_clients s)) m.
Definition set_uppercase (u : bool) : B unit :=
  modify (λ s, mk_keyboard (kb_hist s) u (modifiers s) (interrupt_queue s) (clients s) (num_clients s)).
Definition set_modifiers (m : Z) : B unit :=
  modify (λ s, mk_keyboard (kb_hist s) (is_uppercase s) m (interrupt_queue s) (clients s) (num_clients s)).

Definition get_scancode : B Z :=
  s ← get;
  kk (c4_msg_recieve_async (u32 (interrupt_queue s)) MESSAGE_ASYNC_BLOCK);;
  kk (c4_in_byte 0x60).

(** The tables have 73 entries, an index behind them is not checked. *)
Definition decode_scancode (code : Z) : B Z :=
  let is_keyup := truthy (Z.land code 0x80) in
  let code := Z.land code (Z.lnot 0x80) in
  s ← get;
  c ← getsome (λ _, zget (if is_uppercase s then uppercase else lowercase) code);
  (if (c =? CODE_LEFT_SHIFT) || (c =? CODE_RIGHT_SHIFT) then set_uppercase (negb is_keyup) else mret tt);;
  mret c.

Definition get_event : B keyboard_event :=
  scancode ← get_scancode;
  let event := if truthy (Z.land scancode 0x80) then KEYBOARD_EVENT_KEY_UP else KEYBOARD_EVENT_KEY_DOWN in
  c ← decode_scancode scancode;
  s ← get;
  (if is_modifier c then
     if event =? KEYBOARD_EVENT_KEY_DOWN then set_modifiers (Z.lor (modifiers s) (Z.shiftl 1 c))
     else set_modifiers (Z.land (modifiers s) (u32 (Z.lnot (Z.shiftl 1 c))))
   else mret tt);;
  s ← get;
  mret (mk_kev (u32 c) (modifiers s) scancode event).

Definition event_message (ev : keyboard_event) : message :=
  mk_msg KEYBOARD_MSG_EVENT [kev_character ev; kev_modifiers ev; kev_scancode ev; kev_event ev].

Definition handle_get_event (port : Z) : B unit :=
  ev ← get_event; kk (c4_msg_send (event_message ev) port);; mret tt.

Fixpoint send_all (n : nat) (k : Z) (msg : message) : B unit :=
  match n with
  | O => mret tt
  | S n' =>
      s ← get;
      port ← getsome (λ s, zget (clients s) k);
      kk (c4_msg_send_async msg port);;
      send_all n' (k + 1) msg
  end.

(** One turn of [event_thread]. *)
Definition event_turn : B unit :=
  ev ← get_event; s ← get; send_all (Z.to_nat (num_clients s)) 0 (event_message ev).

(** [clients[num_clients++] = port]: the index is not checked. *)
Definition add_client (port : Z) : B unit :=
  s ← get;
  cs ← getsome (λ s, zset (clients s) (num_clients s) port);
  modify (λ s, mk_keyboard (kb_hist s) (is_uppercase s) (modifiers s) (interrupt_queue s) cs (u32 (num_clients s + 1))).

(** One turn of the loop of [main]. *)
Definition serve_turn (serv_port : Z) : B unit :=
  r ← kk (c4_msg_recieve serv_port);
  if negb (mtype r.2 =? MESSAGE_TYPE_GRANT_OBJECT) then mret tt else add_client (mget r.2 5).

Definition keyboard_name : list Z := [47; 100; 101; 118; 47; 107; 101; 121; 98; 111; 97; 114; 100].

(** [main] up to its first [turns] messages; [INTERRUPT_KEYBOARD] is the
    kernel's constant, [entry] and [stack] the event thread's. *)
Definition keyboard_main (INTERRUPT_KEYBOARD entry stack : Z) (turns : nat) : B unit :=
  serv_port ← kk c4_msg_create_sync;
  q ← kk c4_msg_create_async;
  modify (λ s, mk_keyboard (kb_hist s) (is_uppercase s) (modifiers s) q (clients s) (num_clients s));;
  kk (nameserver_bind C4_NAMESERVER keyboard_name (u32 serv_port));;
  kk (c4_in_byte 0x60);;
  kk (c4_interrupt_subscribe INTERRUPT_KEYBOARD (u32 q));;
  tid ← kk (c4_create_thread entry stack 0);
  kk (c4_set_capspace (u32 tid) C4_CURRENT_CSPACE);;
  kk (c4_set_addrspace (u32 tid) C4_CURRENT_ADDRSPACE);;
  kk (c4_set_pager (u32 tid) C4_PAGER);;
  kk (c4_continue_thread (u32 tid));;
  for_loop turns 0 (λ _, serve_turn serv_port).
End keyboard.

(** ** The reference: the keys held after a history of scan codes *)
Definition key (code : Z) : Z := Z.land code (Z.lnot 0x80).
Definition down (code : Z) : bool := negb (truthy (Z.land code 0x80)).
Definition in_table (code : Z) : Prop := 0 <= code < 256 ∧ 0 <= key code < 73.

Definition char_of (upper : bool) (code : Z) : Z := default 0 (zget (if upper then uppercase else lowercase) (key code)).

(** The last event of the modifier [m] was a press. *)
Definition held (m : Z) (codes : list Z) : bool := foldl (λ b code, if char_of false code =? m then down code else b) false codes.
(** The last event of a shift key was a press. *)
Definition is_shift (code : Z) : bool := (char_of false code =? CODE_LEFT_SHIFT) || (char_of false code =? CODE_RIGHT_SHIFT).
Definition shift_held (codes : list Z) : bool := foldl (λ b code, if is_shift code then down code else b) false codes.

Definition mask (f : Z → bool) : Z := foldr (λ m acc, (if f m then 2 ^ m else 0) + acc) 0 [0; 1; 2; 3; 4; 5].

Definition reference (before : list Z) (code : Z) : keyboard_event :=
  mk_kev (char_of (shift_held before) code) (mask (λ m, held m (before ++ [code]))) code
    (if down code then KEYBOARD_EVENT_KEY_DOWN else KEYBOARD_EVENT_KEY_UP).

Fixpoint references (before codes : list Z) : list keyboard_event :=
  match codes with [] => [] | code :: codes' => reference before code :: references (before ++ [code]) codes' end.

(** ** The tables *)

(** Modifiers are at the same places in both tables, the other entries are
    printable or control characters. *)
Definition entry_ok (k : nat) : bool :=
  match lowercase !! k, uppercase !! k with
  | Some l, Some u => (0 <=? l) && (l <? 128) && (0 <=? u) && (u <? 128) && (if (l <? 6) || (u <? 6) then l =? u else true)
  | _, _ => false
  end.

Lemma tables_ok : Forall (λ k, entry_ok k = true) (seq 0 73).
Proof. apply (bool_decide_unpack _). vm_compute. exact I. Qed.

Lemma char_of_ok code : in_table code →
  ∀ u : bool, zget (if u then uppercase else lowercase) (key code) = Some (char_of u code) ∧ 0 <= char_of u code < 128 ∧
    (char_of u code < 6 ∨ char_of false code < 6 → char_of u code = char_of false code).
Proof.
  intros [_ Hk] u. pose proof (proj1 (Forall_forall _ _) tables_ok (Z.to_nat (key code))) as He.
  specialize (He ltac:(apply elem_of_seq; lia)). unfold char_of, zget. rewrite (proj2 (Z.ltb_ge _ _)) by lia.
  unfold entry_ok in He. destruct (lowercase !! _) as [l|] eqn:El; [|done]. destruct (uppercase !! _) as [v|] eqn:Eu; [|done].
  rewrite !andb_true_iff, !Z.leb_le, !Z.ltb_lt in He. destruct He as ((((?&?)&?)&?)&Hm).
  destruct u; rewrite ?El, ?Eu; simpl; (split; [done|]; split; [lia|]); [|done]. intros Hlt.
  destruct (Z.ltb_spec l 6), (Z.ltb_spec v 6); simpl in Hm; try (apply Z.eqb_eq in Hm; done); lia.
Qed.

(** ** The modifier word *)
Lemma mask_press f c : 0 <= c < 6 → Z.lor (mask f) (Z.shiftl 1 c) = mask (λ m, if c =? m then true else f m).
Proof.
  intros Hc. assert (c = 0 ∨ c = 1 ∨ c = 2 ∨ c = 3 ∨ c = 4 ∨ c = 5) as Hd by lia. unfold mask. cbn [foldr].
  destruct (f 0), (f 1), (f 2), (f 3), (f 4), (f 5); destruct_or! Hd; subst; reflexivity.
Qed.

Lemma mask_release f c : 0 <= c < 6 → Z.land (mask f) (u32 (Z.lnot (Z.shiftl 1 c))) = mask (λ m, if c =? m then false else f m).
Proof.
  intros Hc. assert (c = 0 ∨ c = 1 ∨ c = 2 ∨ c = 3 ∨ c = 4 ∨ c = 5) as Hd by lia. unfold mask. cbn [foldr].
  destruct (f 0), (f 1), (f 2), (f 3), (f 4), (f 5); destruct_or! Hd; subst; reflexivity.
Qed.

Lemma mask_ext f g : (∀ m, 0 <= m < 6 → f m = g m) → mask f = mask g.
Proof. intros Hfg. unfold mask. cbn [foldr]. by rewrite !Hfg by lia. Qed.

Lemma mask_range f : 0 <= mask f < 64.
Proof. unfold mask. cbn [foldr]. destruct (f 0), (f 1), (f 2), (f 3), (f 4), (f 5); lia. Qed.

(** ** The driver against the reference *)
Section claims.
Context `{KernelEnv}.

(** What [get_scancode] does: two calls. *)
Definition wait_call (s : keyboard) : kcall :=
  mk_call SYSCALL_ASYNC_RECIEVE [0; u32 (u32 (interrupt_queue s)); u32 MESSAGE_ASYNC_BLOCK; 0] no_msg.
Definition port_call : kcall := mk_call SYSCALL_IOPORT [IO_PORT_IN_BYTE; u32 0x60; 0; 0] no_msg.
Definition read_history (s : keyboard) (h : list kcall) : list kcall := port_call :: wait_call s :: h.
Definition scancode (s : keyboard) (h : list kcall) : Z := u8 (i32 (kernel (read_history s h)).1).

(** The scan codes the controller gives on the next [n] events. *)
Fixpoint scancodes (n : nat) (s : keyboard) (h : list kcall) : list Z :=
  match n with O => [] | S n' => scancode s h :: scancodes n' s (read_history s h) end.

Definition after (s : keyboard) (h : list kcall) (u : bool) (m : Z) : keyboard :=
  mk_keyboard h u m (interrupt_queue s) (clients s) (num_clients s).

Fixpoint get_events (n : nat) : M keyboard (list keyboard_event) :=
  match n with O => mret [] | S n' => ev ← get_event; evs ← get_events n'; mret (ev :: evs) end.

Lemma get_scancode_run s : get_scancode s = Ret (scancode s (kb_hist s), after s (read_history s (kb_hist s)) (is_uppercase s) (modifiers s)).
Proof. done. Qed.

Lemma decode_run code s : in_table code →
  decode_scancode code s = Ret (char_of (is_uppercase s) code,
    after s (kb_hist s) (if is_shift code then down code else is_uppercase s) (modifiers s)).
Proof.
  intros Hc. destruct (char_of_ok code Hc (is_uppercase s)) as (E & Hr & Hm). unfold decode_scancode, get.
  rewrite (bind_run _ _ _ _ _ eq_refl). cbv zeta. rewrite (bind_run _ _ _ (char_of (is_uppercase s) code) s).
  2:{ unfold getsome. fold (key code). by rewrite E. }
  unfold is_shift, CODE_LEFT_SHIFT, CODE_RIGHT_SHIFT. fold (down code).
  assert ((char_of (is_uppercase s) code =? 4) || (char_of (is_uppercase s) code =? 5)
    = (char_of false code =? 4) || (char_of false code =? 5)) as ->.
  { destruct (decide (char_of (is_uppercase s) code < 6 ∨ char_of false code < 6)) as [Hlt|Hge]; [by rewrite (Hm Hlt)|].
    zbool; simpl; lia || done. }
  destruct (_ || _); by destruct s.
Qed.

Lemma held_snoc m codes code : held m (codes ++ [code]) = if char_of false code =? m then down code else held m codes.
Proof. unfold held. by rewrite foldl_app. Qed.
Lemma shift_snoc codes code : shift_held (codes ++ [code]) = if is_shift code then down code else shift_held codes.
Proof. unfold shift_held. by rewrite foldl_app. Qed.

Lemma get_event_run before s : is_uppercase s = shift_held before → modifiers s = mask (λ m, held m before) →
  in_table (scancode s (kb_hist s)) → let code := scancode s (kb_hist s) in
  get_event s = Ret (reference before code,
    after s (read_history s (kb_hist s)) (shift_held (before ++ [code])) (mask (λ m, held m (before ++ [code])))).
Proof.
  intros Hu Hm Hc code. unfold get_event. rewrite (bind_run _ _ _ _ _ (get_scancode_run s)). fold code. cbv zeta.
  rewrite (bind_run _ _ _ _ _ (decode_run code _ Hc)). cbn [kb_hist is_uppercase modifiers interrupt_queue clients num_clients after].
  destruct (char_of_ok code Hc (is_uppercase s)) as (_ & Hr & Hs). unfold get. rewrite (bind_run _ _ _ _ _ eq_refl).
  rewrite shift_snoc, <-Hu. unfold reference, KEYBOARD_EVENT_KEY_DOWN, KEYBOARD_EVENT_KEY_UP. rewrite <-Hu.
  assert (mask (λ m, held m (before ++ [code])) = mask (λ m, if char_of false code =? m then down code else held m before)) as Emask.
  { apply mask_ext. intros m _. apply held_snoc. }
  rewrite Emask. unfold is_modifier, CODE_END. cbn [modifiers after]. rewrite Hm.
  destruct (Z.ltb_spec (char_of (is_uppercase s) code) 6) as [Hlt|Hge].
  - rewrite (Hs (or_introl Hlt)) in *. unfold down. destruct (truthy (Z.land code 128)); cbn [negb Z.eqb]; unfold set_modifiers.
    + rewrite mask_release by lia. rewrite (bind_run _ _ _ _ _ eq_refl), (bind_run _ _ _ _ _ eq_refl). cbn [modifiers].
      by rewrite u32_small by lia.
    + rewrite mask_press by lia. rewrite (bind_run _ _ _ _ _ eq_refl), (bind_run _ _ _ _ _ eq_refl). cbn [modifiers].
      by rewrite u32_small by lia.
  - rewrite (bind_run _ _ _ _ _ eq_refl), (bind_run _ _ _ _ _ eq_refl). cbn [modifiers after].
    rewrite (mask_ext (λ m, if char_of false code =? m then down code else held m before) (λ m, held m before)).
    + rewrite u32_small by lia. unfold down, mret, M_ret. by destruct (truthy _).
    + intros m Hm'. destruct (Z.eqb_spec (char_of false code) m) as [E|]; [|done]. rewrite Hs in Hge by lia. lia.
Qed.

Lemma scancodes_after n s h u m : ∀ h', scancodes n (after s h u m) h' = scancodes n s h'.
Proof. induction n as [|n IH]; intros h'; [done|]. cbn [scancodes]. f_equal. apply IH. Qed.

Lemma get_events_run n : ∀ before s, is_uppercase s = shift_held before → modifiers s = mask (λ m, held m before) →
  Forall in_table (scancodes n s (kb_hist s)) →
  ∃ s', get_events n s = Ret (references before (scancodes n s (kb_hist s)), s') ∧
    modifiers s' = mask (λ m, held m (before ++ scancodes n s (kb_hist s))).
Proof.
  induction n as [|n IH]; intros before s Hu Hm Hc; cbn [get_events scancodes references].
  - exists s. split; [done|]. by rewrite app_nil_r.
  - apply Forall_cons in Hc as [Hc Hcs]. rewrite (bind_run _ _ _ _ _ (get_event_run before s Hu Hm Hc)).
    match goal with |- context [get_events n ≫= _] => set (s1 := after s (read_history s (kb_hist s)) _ _) end.
    pose proof (scancodes_after n s _ _ _ _ : scancodes n s1 (kb_hist s1) = scancodes n s (read_history s (kb_hist s))) as Es.
    destruct (IH (before ++ [scancode s (kb_hist s)]) s1 eq_refl eq_refl ltac:(by rewrite Es)) as (s' & E & Hm').
    exists s'. rewrite (bind_run _ _ _ _ _ E), Es. split; [done|]. by rewrite Hm', Es, <-app_assoc.
Qed.

Lemma references_parse codes : ∀ before, Forall in_table codes →
  Forall (λ ev, keyboard_parse_event (event_message ev) = ev) (references before codes).
Proof.
  induction codes as [|code codes IH]; intros before Hc; [constructor|]. apply Forall_cons in Hc as [Hc Hcs]. constructor; [|by apply IH].
  destruct (char_of_ok code Hc (shift_held before)) as (_ & Hr & _). pose proof (mask_range (λ m, held m (before ++ [code]))).
  destruct Hc as [Hc _]. unfold reference, keyboard_parse_event, event_message, mget, KEYBOARD_EVENT_KEY_DOWN, KEYBOARD_EVENT_KEY_UP.
  cbn [mdata lookup list_lookup from_option id kev_character kev_modifiers kev_scancode kev_event].
  rewrite !u32_small by (lia || destruct (down code); lia). done.
Qed.

(** The keys behind the tables, such as the function keys F11 and F12, and the
    prefix 0xe0 of the extended keys make the driver read behind them. *)
Lemma scancode_not_in_table s : ¬ in_table (scancode s (kb_hist s)) → get_event s = UB.
Proof.
  intros Hno. unfold get_event. rewrite (bind_run _ _ _ _ _ (get_scancode_run s)). cbv zeta. unfold decode_scancode.
  assert (0 <= scancode s (kb_hist s) < 256) as Hc by (apply wrapu_range; lia).
  set (code := scancode s (kb_hist s)) in *.
  assert (73 <= key code) as Hk.
  { assert (0 <= key code) by (unfold key; apply Z.land_nonneg; left; lia). destruct (Z.lt_ge_cases (key code) 73); [|done]. destruct Hno. by split. }
  unfold mbind, M_bind. fold (key code).
  assert (zget (if is_uppercase s then uppercase else lowercase) (key code) = None) as E.
  { apply zget_None. right. by destruct (is_uppercase s). }
  unfold get, getsome. cbn [is_uppercase after]. by rewrite E.
Qed.

Lemma get_events_out n : ∀ before s, is_uppercase s = shift_held before → modifiers s = mask (λ m, held m before) →
  ¬ Forall in_table (scancodes n s (kb_hist s)) → get_events n s = UB.
Proof.
  induction n as [|n IH]; intros before s Hu Hm Hc; cbn [get_events scancodes] in *; [by destruct Hc|].
  destruct (decide (0 <= scancode s (kb_hist s) < 256 ∧ 0 <= key (scancode s (kb_hist s)) < 73)) as [Hin|Hout].
  - rewrite (bind_run _ _ _ _ _ (get_event_run before s Hu Hm Hin)).
    match goal with |- context [get_events n ≫= _] => set (s1 := after s (read_history s (kb_hist s)) _ _) end.
    pose proof (scancodes_after n s _ _ _ _ : scancodes n s1 (kb_hist s1) = scancodes n s (read_history s (kb_hist s))) as Es.
    unfold mbind, M_bind. rewrite (IH (before ++ [scancode s (kb_hist s)]) s1 eq_refl eq_refl); [done|]. rewrite Es.
    intros Hall. apply Hc. by constructor.
  - unfold mbind, M_bind. by rewrite (scancode_not_in_table s Hout).
Qed.

(** C37: from its start on, the driver turns a sequence of scan codes the
    tables have an entry for into these events: the character of the upper case
    table exactly when the last event of either shift key was a press, the
    modifiers whose own last event was a press, the code, and whether the key
    went down or up.  A client that parses the message gets the event back.  A
    sequence with any other code in it (F11, F12, the prefix 0xe0) ends in a
    read behind the tables. *)
Theorem keyboard_events_correct n s : is_uppercase s = false → modifiers s = 0 →
  let codes := scancodes n s (kb_hist s) in
  (Forall in_table codes →
   ∃ s', get_events n s = Ret (references [] codes, s') ∧ modifiers s' = mask (λ m, held m codes) ∧
     Forall (λ ev, keyboard_parse_event (event_message ev) = ev) (references [] codes)) ∧
  (¬ Forall in_table codes → get_events n s = UB).
Proof.
  intros Hu Hm codes. split; [|by apply (get_events_out n [])]. intros Hc.
  destruct (get_events_run n [] s Hu Hm Hc) as (s' & E & Hm'). exists s'.
  split; [exact E|]. split; [exact Hm'|]. by apply references_parse.
Qed.

(** Releasing one of two shift keys ends the upper case though the other is
    still held: the driver has one flag for both. *)
Lemma one_shift_released : held CODE_LEFT_SHIFT [0x2a; 0x36; 0xb6] = true ∧ shift_held [0x2a; 0x36; 0xb6] = false.
Proof. done. Qed.
End claims.

(** A controller that gives shift down, [a] down, shift up, in this order. *)
Definition typing : KernelEnv := scripted (λ h, (nth (length h) [0; 0; 0x36; 0; 0x1e; 0; 0xb6] 0, no_msg)).
Definition idle_keyboard : keyboard := mk_keyboard [] false 0 7 (replicate 1024 0) 0.

Lemma keyboard_events_correct_witness : let _ := typing in
  ∃ s', get_events 3 idle_keyboard = Ret ([mk_kev 5 32 0x36 0; mk_kev 65 32 0x1e 0; mk_kev 5 0 0xb6 1], s').
Proof.
  intros env. destruct (proj1 (keyboard_events_correct 3 idle_keyboard eq_refl eq_refl)) as (s' & E & _).
  - vm_compute. repeat constructor; discriminate.
  - exists s'. rewrite E. reflexivity.
Defined.
