(* ===== verification/Ps2mouse.v ===== *)
(** The mouse driver ([programs/initprogs/src/ps2mouse.c]): bytes from the
    controller are gathered three at a time, and every packet becomes an event
    for every client. *)

From S2P Require Import Prelude Kernel Nameserver Devices.
#[local] Open Scope Z_scope.

Definition MOUSE_DATA_PORT : Z := 0x60.
Definition MOUSE_STATUS_PORT : Z := 0x64.
Definition MOUSE_STATUS_CAN_READ : Z := 1.
Definition MOUSE_STATUS_IS_MOUSE : Z := 32.
Definition MOUSE_COMMAND_COMPAQ_STATUS : Z := 0x20.
Definition MOUSE_COMMAND_SET_STATUS : Z := 0x60.
Definition MOUSE_COMMAND_AUX_ENABLE : Z := 0xa8.
Definition MOUSE_COMMAND_SEND : Z := 0xd4.
Definition MOUSE_COMMAND_GET_ID : Z := 0xf2.
Definition MOUSE_COMMAND_SET_SAMPLE_RATE : Z := 0xf3.
Definition MOUSE_COMMAND_ENABLE_STREAMING : Z := 0xf4.
Definition MOUSE_COMMAND_SET_DEFAULTS : Z := 0xf6.
Definition MOUSE_COMMAND_RESET : Z := 0xff.

(** ** The controller *)
Section ports.
Context `{KernelEnv}.

(** [timeout] polls of the status port are left. *)
Fixpoint wait_status (timeout : nat) (ready : Z → bool) : K bool :=
  match timeout with
  | O => mret false
  | S n => v ← c4_in_byte 0x64; if ready v then mret true else wait_status n ready
  end.
Definition wait_read : K bool := wait_status 1234 (λ v, truthy (Z.land v 1)).
Definition wait_write : K bool := wait_status 1234 (λ v, Z.land v 2 =? 0).

Definition mouse_write (port thing : Z) : K unit := wait_write;; c4_out_byte port thing.
Definition mouse_read : K Z := wait_read;; c4_in_byte MOUSE_DATA_PORT.

Definition mouse_command (command : Z) : K Z :=
  mouse_write MOUSE_STATUS_PORT MOUSE_COMMAND_SEND;;
  mouse_write MOUSE_DATA_PORT command;;
  mouse_read.

(** [for ( k = 0; id > 4 && k < 3; k++ )] *)
Fixpoint id_loop (n : nat) (id : Z) : K Z :=
  match n with
  | O => mret id
  | S n' =>
      if 4 <? id then ok ← wait_read; if ok : bool then id ← mouse_read; id_loop n' id else id_loop n' id
      else mret id
  end.

Definition mouse_init : K unit :=
  mouse_write MOUSE_STATUS_PORT MOUSE_COMMAND_AUX_ENABLE;;
  mouse_write MOUSE_STATUS_PORT MOUSE_COMMAND_COMPAQ_STATUS;;
  wait_read;;
  status ← c4_in_byte MOUSE_DATA_PORT;
  mouse_write MOUSE_STATUS_PORT MOUSE_COMMAND_SET_STATUS;;
  mouse_write MOUSE_DATA_PORT (Z.lor status 2);;
  mouse_command MOUSE_COMMAND_RESET;;
  mouse_command MOUSE_COMMAND_SET_DEFAULTS;;
  mouse_command MOUSE_COMMAND_ENABLE_STREAMING;;
  mouse_command MOUSE_COMMAND_SET_SAMPLE_RATE;;
  mouse_write MOUSE_DATA_PORT 40;;
  id ← mouse_command MOUSE_COMMAND_GET_ID;
  id_loop 3 id;;
  mret tt.
End ports.

(** ** The driver *)

(** Static variables, and [event_thread]'s [things] and [counter]. *)
Record mouse_driver := mk_mouse {
  ms_hist : list kcall; interrupt_queue : Z; clients : list Z; num_clients : Z; things : list Z; counter : Z
}.

Section driver.
Context `{KernelEnv}.
Abbreviation D := (M mouse_driver).

Definition mk {A} (m : K A) : D A :=
  zoom ms_hist (λ h s, mk_mouse h (interrupt_queue s) (clients s) (num_clients s) (things s) (counter s)) m.
Definition set_packet (l : list Z) (n : Z) : D unit :=
  modify (λ s, mk_mouse (ms_hist s) (interrupt_queue s) (clients s) (num_clients s) l n).

Definition packet_event (packet : list Z) : option mouse_event :=
  p0 ← zget packet 0; p1 ← zget packet 1; p2 ← zget packet 2;
  Some (mk_mev (Z.land p0 0x7)
    (if truthy (Z.land p0 0x10) then - (255 - p1) else p1)
    (if truthy (Z.land p0 0x20) then - (255 - p2) else p2)).

Definition mouse_message (ev : mouse_event) : message :=
  mk_msg MOUSE_MSG_EVENT [mev_flags ev; u32 (mev_x ev); u32 (mev_y ev)].

Fixpoint send_all (n : nat) (k : Z) (msg : message) : D unit :=
  match n with
  | O => mret tt
  | S n' =>
      port ← getsome (λ s, zget (clients s) k);
      mk (c4_msg_send_async msg port);;
      send_all n' (k + 1) msg
  end.

(** A packet with an overflow bit is dropped. *)
Definition dispatch (packet : list Z) : D unit :=
  p0 ← getsome (λ _, zget packet 0);
  if truthy (Z.land p0 0x40) || truthy (Z.land p0 0x80) then mret tt
  else
    ev ← getsome (λ _, packet_event packet);
    s ← get;
    send_all (Z.to_nat (num_clients s)) 0 (mouse_message ev).

(** [things[counter++] = byte], and a full packet is sent. *)
Definition mouse_byte (byte : Z) : D unit :=
  s ← get;
  l ← getsome (λ s, zset (things s) (counter s) byte);
  let n := u32 (counter s + 1) in
  set_packet l n;;
  if n =? 3 then dispatch l;; set_packet l 0 else mret tt.

(** [while (c4_in_byte(MOUSE_STATUS_PORT) & MOUSE_STATUS_CAN_READ)] *)
Fixpoint drain (fuel : nat) : D unit :=
  match fuel with
  | O => nofuel
  | S fuel' =>
      v ← mk (c4_in_byte MOUSE_STATUS_PORT);
      if truthy (Z.land v MOUSE_STATUS_CAN_READ) then
        byte ← mk (c4_in_byte 0x60); mouse_byte byte;; drain fuel'
      else mret tt
  end.

(** One turn of [event_thread]. *)
Definition event_turn (fuel : nat) : D unit :=
  s ← get;
  mk (c4_msg_recieve_async (u32 (interrupt_queue s)) MESSAGE_ASYNC_BLOCK);;
  v ← mk (c4_in_byte MOUSE_STATUS_PORT);
  if negb (truthy (Z.land v MOUSE_STATUS_IS_MOUSE)) then mret tt else drain fuel.

(** [clients[num_clients++] = port]: the index is not checked. *)
Definition add_client (port : Z) : D unit :=
  cs ← getsome (λ s, zset (clients s) (num_clients s) port);
  modify (λ s, mk_mouse (ms_hist s) (interrupt_queue s) cs (u32 (num_clients s + 1)) (things s) (counter s)).

Definition serve_turn : D unit :=
  r ← mk (c4_msg_recieve C4_SERV_PORT);
  if negb (mtype r.2 =? MESSAGE_TYPE_GRANT_OBJECT) then mret tt else add_client (mget r.2 5).

Definition mouse_name : list Z := [47; 100; 101; 118; 47; 109; 111; 117; 115; 101].

(** [main] up to its first [turns] messages. *)
Definition mouse_main (entry stack : Z) (turns : nat) : D unit :=
  mk (nameserver_bind C4_NAMESERVER mouse_name C4_SERV_PORT);;
  modify (λ s, mk_mouse (ms_hist s) (interrupt_queue s) (clients s) 0 (things s) (counter s));;
  q ← mk c4_msg_create_async;
  modify (λ s, mk_mouse (ms_hist s) q (clients s) (num_clients s) (things s) (counter s));;
  mk mouse_init;;
  mk (c4_interrupt_subscribe (0x20 + 12) (u32 q));;
  tid ← mk (c4_create_thread entry stack 0);
  mk (c4_set_capspace (u32 tid) C4_CURRENT_CSPACE);;
  mk (c4_set_addrspace (u32 tid) C4_CURRENT_ADDRSPACE);;
  mk (c4_set_pager (u32 tid) C4_PAGER);;
  mk (c4_continue_thread (u32 tid));;
  for_loop turns 0 (λ _, serve_turn).

End driver.

(** ** The reference *)

(** Consecutive packets of three bytes; the incomplete one at the end is left. *)
Fixpoint packets (bytes : list Z) : list (list Z) * list Z :=
  match bytes with
  | a :: b :: c :: rest => let r := packets rest in ([a; b; c] :: r.1, r.2)
  | _ => ([], bytes)
  end.

(** What a packet says: the three buttons are bits 0 to 2 of the first byte,
    bits 4 and 5 the directions, and the steps are the other bytes, across and
    up; a step with its direction bit counts from 255 down.  Bits 6 and 7 say
    that the packet overflowed, and then it says nothing. *)
Definition bit (b : Z) (i : Z) : Z := Z.b2z (Z.testbit b i).
Definition decode (packet : list Z) : option mouse_event :=
  match packet with
  | [a; across; up] =>
      if Z.testbit a 6 || Z.testbit a 7 then None
      else Some (mk_mev (bit a 0 + 2 * bit a 1 + 4 * bit a 2) (across - 255 * bit a 4) (up - 255 * bit a 5))
  | _ => None
  end.

Section calls.
Context `{KernelEnv}.

(** The call that sends one event to one client. *)
Definition send_call (msg : message) (port : Z) : kcall := mk_call SYSCALL_ASYNC_SEND [0; u32 port; 0; 0] msg.

(** Latest first: what one packet, and a list of packets, make the driver send. *)
Definition packet_calls (ports : list Z) (packet : list Z) : list kcall :=
  match decode packet with Some ev => reverse (map (send_call (mouse_message ev)) ports) | None => [] end.
Definition packets_calls (ports : list Z) (ps : list (list Z)) : list kcall := concat (reverse (map (packet_calls ports) ps)).
Definition sends (h : list kcall) : list kcall := filter (λ c, cnum c = SYSCALL_ASYNC_SEND) h.

(** Whether the driver drops a packet, and the event it makes of another: all
    first bytes are tried. *)
Definition first_byte_ok (a : Z) : bool :=
  bool_decide ((truthy (Z.land a 0x40) || truthy (Z.land a 0x80)) = (Z.testbit a 6 || Z.testbit a 7)) &&
  bool_decide (Z.land a 7 = bit a 0 + 2 * bit a 1 + 4 * bit a 2) &&
  bool_decide (truthy (Z.land a 0x10) = Z.testbit a 4) && bool_decide (truthy (Z.land a 0x20) = Z.testbit a 5).
Lemma first_bytes : Forall (λ a, first_byte_ok a = true) (seqZ 0 256).
Proof. apply (bool_decide_unpack _). vm_compute. exact I. Qed.

Lemma decode_ok a b c : 0 <= a < 256 →
  decode [a; b; c] = if truthy (Z.land a 0x40) || truthy (Z.land a 0x80) then None else packet_event [a; b; c].
Proof.
  intros Ha. pose proof (proj1 (Forall_forall _ _) first_bytes a ltac:(apply elem_of_seqZ; lia)) as Hok. unfold first_byte_ok in Hok.
  rewrite !andb_true_iff, !bool_decide_eq_true in Hok. destruct Hok as [[[E1 E2] E3] E4].
  unfold decode. rewrite E1. destruct (Z.testbit a 6 || Z.testbit a 7); [done|].
  change (packet_event [a; b; c]) with (Some (mk_mev (Z.land a 7) (if truthy (Z.land a 0x10) then - (255 - b) else b) (if truthy (Z.land a 0x20) then - (255 - c) else c))).
  rewrite E2, E3, E4. unfold bit. destruct (Z.testbit a 4), (Z.testbit a 5); cbn [Z.b2z]; do 2 f_equal; lia.
Qed.
End calls.

Section claims.
Context `{KernelEnv}.
Abbreviation D := (M mouse_driver).

Definition ports (s : mouse_driver) : list Z := take (Z.to_nat (num_clients s)) (clients s).
Definition with_hist (h : list kcall) (s : mouse_driver) : mouse_driver :=
  mk_mouse h (interrupt_queue s) (clients s) (num_clients s) (things s) (counter s).

Lemma send_all_ok msg s : ∀ n k h, Z.of_nat (k + n) <= Z.of_nat (length (clients s)) →
  send_all n (Z.of_nat k) msg (with_hist h s) =
    Ret (tt, with_hist (reverse (map (send_call msg) (take n (drop k (clients s)))) ++ h) s).
Proof.
  induction n as [|n IH]; intros k h Hk; [done|]. cbn [send_all].
  destruct (lookup_lt_is_Some_2 (clients s) k) as [port Ep]; [lia|].
  rewrite (bind_run _ _ _ port (with_hist h s)).
  2:{ unfold getsome. simpl. unfold zget. rewrite (proj2 (Z.ltb_ge _ _)), Nat2Z.id by lia. by rewrite Ep. }
  rewrite bind_run with (s' := with_hist (send_call msg port :: h) s) (a := i32 (kernel (send_call msg port :: h)).1) by done.
  replace (Z.of_nat k + 1) with (Z.of_nat (S k)) by lia. rewrite IH by lia.
  rewrite (drop_S _ _ _ Ep). cbn [take map]. rewrite reverse_cons. by rewrite <-(assoc_L (++)).
Qed.

(** Only the first three bytes matter. *)
Lemma packet_event_take l a b c rest : l = a :: b :: c :: rest → packet_event l = packet_event [a; b; c].
Proof. by intros ->. Qed.

Lemma dispatch_ok a b c rest s : 0 <= a < 256 → 0 <= num_clients s <= Z.of_nat (length (clients s)) →
  dispatch (a :: b :: c :: rest) s = Ret (tt, with_hist (packet_calls (ports s) [a; b; c] ++ ms_hist s) s).
Proof.
  intros Ha Hn. unfold dispatch. rewrite (bind_run _ _ _ a s) by done. unfold packet_calls. rewrite decode_ok by done.
  destruct (truthy (Z.land a 0x40) || truthy (Z.land a 0x80)); [by destruct s|].
  rewrite (packet_event_take (a :: b :: c :: rest) a b c rest eq_refl).
  destruct (packet_event [a; b; c]) as [ev|] eqn:Ev; [|done].
  rewrite (bind_run _ _ _ ev s) by done.
  unfold get. rewrite (bind_run _ _ _ _ _ eq_refl). pose proof (send_all_ok (mouse_message ev) s (Z.to_nat (num_clients s)) 0 (ms_hist s) ltac:(lia)) as E.
  rewrite drop_0 in E. unfold ports. change (Z.of_nat 0) with 0 in E. rewrite <-E. by destruct s.
Qed.

(** [carry] is what came of the current packet. *)
Record gathering (carry : list Z) (s : mouse_driver) : Prop := {
  ga_counter : counter s = Z.of_nat (length carry);
  ga_small : (length carry < 3)%nat;
  ga_bytes : Forall (λ b, 0 <= b < 256) carry;
  ga_things : take (length carry) (things s) = carry;
  ga_length : length (things s) = 8%nat;
  ga_clients : 0 <= num_clients s <= Z.of_nat (length (clients s))
}.

Lemma mouse_byte_ok carry b s : gathering carry s → 0 <= b < 256 →
  ∃ s', mouse_byte b s = Ret (tt, s') ∧ ports s' = ports s ∧
    if decide (length carry = 2%nat) then gathering [] s' ∧ ms_hist s' = packet_calls (ports s) (carry ++ [b]) ++ ms_hist s
    else gathering (carry ++ [b]) s' ∧ ms_hist s' = ms_hist s.
Proof.
  intros [Hc Hs Hby Ht Hl Hn] Hb. unfold mouse_byte, get. rewrite (bind_run _ _ _ _ _ eq_refl).
  rewrite (bind_run _ _ _ (<[length carry := b]> (things s)) s).
  2:{ unfold getsome. rewrite zset_lt by lia. by rewrite Hc, Nat2Z.id. }
  cbv zeta. rewrite Hc. rewrite u32_small by lia. rewrite (bind_run _ _ _ _ _ eq_refl). cbn [ms_hist interrupt_queue clients num_clients].
  assert (take (length (carry ++ [b])) (<[length carry := b]> (things s)) = carry ++ [b]) as Ht'.
  { rewrite length_app. simpl. rewrite Nat.add_1_r. rewrite (take_S_r _ _ b) by (apply list_lookup_insert_eq; lia).
    by rewrite take_insert_ge, Ht by lia. }
  destruct (decide (length carry = 2%nat)) as [E2|E2].
  - rewrite E2 in *. change (Z.of_nat 2 + 1 =? 3) with true. cbv iota.
    destruct carry as [|x [|y [|z carry]]]; try done. clear E2.
    destruct (<[2%nat := b]> (things s)) as [|u [|v [|w rest]]] eqn:El; try done. simpl in Ht'. injection Ht' as -> -> ->.
    set (s1 := mk_mouse _ _ _ _ _ _). rewrite (bind_run _ _ _ _ _ (dispatch_ok x y b rest s1 (Forall_inv Hby) Hn)).
    eexists. split; [reflexivity|]. split; [done|]. split; [|done]. split; simpl; try done; [lia|].
    change (length (x :: y :: b :: rest) = 8%nat). by rewrite <-El, length_insert.
  - rewrite (proj2 (Z.eqb_neq _ _)) by lia. eexists. split; [reflexivity|]. split; [done|]. split; [|done]. split; simpl.
    + rewrite length_app. simpl. lia.
    + rewrite length_app. simpl. lia.
    + apply Forall_app. split; [done|]. by constructor.
    + exact Ht'.
    + by rewrite length_insert.
    + done.
Qed.

Lemma packets_short carry : (length carry < 3)%nat → packets carry = ([], carry).
Proof. intros Hl. by destruct carry as [|? [|? [|? ?]]]; simpl in *; try lia. Qed.

Lemma packets_calls_cons ps p l : packets_calls ps (p :: l) = packets_calls ps l ++ packet_calls ps p.
Proof. unfold packets_calls. cbn [map]. rewrite reverse_cons, concat_app. cbn [concat]. by rewrite app_nil_r. Qed.

(** ** The controller

    [stream] is all the mouse ever sends and [arrived h] how many of its bytes
    have come when the calls [h] have been made: they may come in any portions
    and at any time, also while the driver is reading.  The status says whether
    a byte is waiting, and whether it is the mouse's, the data port hands out
    the next one. *)
Definition data_call : kcall := mk_call SYSCALL_IOPORT [IO_PORT_IN_BYTE; u32 0x60; 0; 0] no_msg.
Definition status_call : kcall := mk_call SYSCALL_IOPORT [IO_PORT_IN_BYTE; u32 MOUSE_STATUS_PORT; 0; 0] no_msg.
Definition status_at (h : list kcall) : Z := u8 (i32 (kernel (status_call :: h)).1).
Definition data_at (h : list kcall) : Z := u8 (i32 (kernel (data_call :: h)).1).
Definition taken (h : list kcall) : nat := length (filter (λ c, c = data_call) h).

Record ps2_controller (stream : list Z) (arrived : list kcall → nat) : Prop := {
  pc_bytes : Forall (λ b, 0 <= b < 256) stream;
  pc_arrived : ∀ h, (arrived h <= length stream)%nat;
  pc_later : ∀ c h, (arrived h <= arrived (c :: h))%nat;
  pc_full : ∀ h, truthy (Z.land (status_at h) MOUSE_STATUS_CAN_READ) = bool_decide (taken h < arrived h)%nat;
  pc_mouse : ∀ h, (taken h < arrived h)%nat → truthy (Z.land (status_at h) MOUSE_STATUS_IS_MOUSE) = true;
  pc_data : ∀ h, (taken h < arrived h)%nat → stream !! taken h = Some (data_at h)
}.

Context (stream : list Z) (arrived : list kcall → nat) (HP : ps2_controller stream arrived).

Lemma taken_data h : taken (data_call :: h) = S (taken h).
Proof. unfold taken. by rewrite filter_cons_True. Qed.
Lemma taken_other c h : c ≠ data_call → taken (c :: h) = taken h.
Proof. intros Hc. unfold taken. by rewrite filter_cons_False. Qed.

Lemma calls_are_sends ps p : Forall (λ c, cnum c = SYSCALL_ASYNC_SEND) (packet_calls ps p).
Proof.
  unfold packet_calls. destruct (decode p); [|constructor]. apply Forall_reverse, Forall_forall. intros c Hc.
  apply list_elem_of_fmap in Hc as (port & -> & _). done.
Qed.

Lemma sends_app ps p h : sends (packet_calls ps p ++ h) = packet_calls ps p ++ sends h ∧ taken (packet_calls ps p ++ h) = taken h.
Proof.
  induction (calls_are_sends ps p) as [|c cs Hc _ [IH1 IH2]]; [done|]. cbn [app]. split.
  - unfold sends in *. rewrite filter_cons_True by done. by rewrite IH1.
  - rewrite taken_other; [done|]. intros ->. done.
Qed.

(** The bytes read between two points. *)
Definition between (h h' : list kcall) : list Z := take (taken h' - taken h) (drop (taken h) stream).

Lemma between_next h b h' : stream !! taken h = Some b → (S (taken h) <= taken h')%nat → ∀ h1, taken h1 = S (taken h) →
  between h h' = b :: between h1 h'.
Proof.
  intros Eb Hle h1 E1. unfold between. rewrite E1, (drop_S _ _ _ Eb).
  replace (taken h' - taken h)%nat with (S (taken h' - S (taken h))) by lia. done.
Qed.

Lemma between_same h h' : taken h' = taken h → between h h' = [].
Proof. intros E. unfold between. by rewrite E, Nat.sub_diag. Qed.

Lemma between_app h1 h2 h3 : (taken h1 <= taken h2)%nat → (taken h2 <= taken h3)%nat → between h1 h3 = between h1 h2 ++ between h2 h3.
Proof.
  intros H12 H23. unfold between. replace (taken h3 - taken h1)%nat with ((taken h2 - taken h1) + (taken h3 - taken h2))%nat by lia.
  rewrite <-take_take_drop, drop_drop. do 3 f_equal. lia.
Qed.

(** From [s], with [carry] begun, the driver has read on to [s']: the sends are
    those of the complete packets, the rest is kept, and the last call was a look
    at the status when no byte was waiting. *)
Record read_on (carry : list Z) (s s' : mouse_driver) : Prop := {
  ro_more : (taken (ms_hist s) <= taken (ms_hist s'))%nat;
  ro_sends : sends (ms_hist s') = packets_calls (ports s) (packets (carry ++ between (ms_hist s) (ms_hist s'))).1 ++ sends (ms_hist s);
  ro_rest : gathering (packets (carry ++ between (ms_hist s) (ms_hist s'))).2 s';
  ro_ports : ports s' = ports s;
  ro_empty : ∃ h, ms_hist s' = status_call :: h ∧ (arrived h <= taken h)%nat
}.

Lemma in_byte_run port (s : mouse_driver) : let c := mk_call SYSCALL_IOPORT [IO_PORT_IN_BYTE; u32 port; 0; 0] no_msg in
  mk (c4_in_byte port) s = Ret (u8 (i32 (kernel (c :: ms_hist s)).1), with_hist (c :: ms_hist s) s).
Proof. done. Qed.

Lemma status_not_data : status_call ≠ data_call.
Proof. unfold status_call, data_call, MOUSE_STATUS_PORT. by intros [= ]. Qed.

Lemma gathering_hist carry h s : gathering carry s → gathering carry (with_hist h s).
Proof. intros [? ? ? ? ? ?]. by split. Qed.

Lemma drain_ok fuel : ∀ carry s, gathering carry s → (length stream - taken (ms_hist s) < fuel)%nat →
  ∃ s', drain fuel s = Ret (tt, s') ∧ read_on carry s s'.
Proof.
  induction fuel as [|fuel IH]; intros carry s Hg Hf; [lia|]. cbn [drain].
  rewrite (bind_run _ _ _ _ _ (in_byte_run MOUSE_STATUS_PORT s)). fold status_call. cbv zeta. fold (status_at (ms_hist s)).
  rewrite (pc_full _ _ HP). set (s1 := with_hist (status_call :: ms_hist s) s).
  pose proof (taken_other status_call (ms_hist s) status_not_data) as E1. case_bool_decide as Hlt.
  - rewrite (bind_run _ _ _ _ _ (in_byte_run 0x60 s1)). fold data_call. cbv zeta. cbn [s1 ms_hist with_hist]. set (h1 := status_call :: ms_hist s) in *.
    fold (data_at h1). set (s2 := with_hist (data_call :: h1) s1).
    assert (stream !! taken (ms_hist s) = Some (data_at h1)) as Eb.
    { rewrite <-E1. apply (pc_data _ _ HP). rewrite E1. pose proof (pc_later _ _ HP status_call (ms_hist s)). fold h1 in H0. lia. }
    pose proof (lookup_lt_Some _ _ _ Eb) as Hlen. pose proof (proj1 (Forall_lookup _ _) (pc_bytes _ _ HP) _ _ Eb) as Hb.
    destruct (mouse_byte_ok carry (data_at h1) s2 (gathering_hist _ (data_call :: h1) _ (gathering_hist _ h1 _ Hg)) Hb) as (s3 & E3 & Hp3 & Hs3). rewrite (bind_run _ _ _ _ _ E3).
    assert (taken (ms_hist s2) = S (taken (ms_hist s))) as E2 by (unfold s2; cbn [ms_hist with_hist]; by rewrite taken_data, E1).
    assert (sends (ms_hist s2) = sends (ms_hist s)) as Es2 by done.
    assert (∃ carry', gathering carry' s3 ∧ taken (ms_hist s3) = S (taken (ms_hist s)) ∧ ∀ more,
      packets_calls (ports s) (packets (carry' ++ more)).1 ++ sends (ms_hist s3) =
        packets_calls (ports s) (packets (carry ++ data_at h1 :: more)).1 ++ sends (ms_hist s) ∧
      (packets (carry' ++ more)).2 = (packets (carry ++ data_at h1 :: more)).2) as (carry' & Hg3 & E3t & Hmore).
    { destruct (decide (length carry = 2%nat)) as [El|El]; destruct Hs3 as [Hg3 Eh3].
      - exists []. rewrite Eh3. destruct (sends_app (ports s2) (carry ++ [data_at h1]) (ms_hist s2)) as [Ea1 Ea2].
        split_and!; [done|by rewrite Ea2|]. intros more. rewrite Ea1, Es2.
        destruct carry as [|x [|y [|z carry]]]; try done. cbn [app packets fst snd]. by rewrite packets_calls_cons, <-(assoc_L (++)).
      - exists (carry ++ [data_at h1]). rewrite Eh3. split_and!; [done|done|]. intros more. by rewrite <-(assoc_L (++)). }
    destruct (IH carry' s3 Hg3) as (s' & E' & [M1 M2 M3 M4 M5]); [lia|]. exists s'. split; [exact E'|].
    assert (between (ms_hist s) (ms_hist s') = data_at h1 :: between (ms_hist s3) (ms_hist s')) as Ebt by (apply between_next; [done|lia|done]).
    assert (ports s3 = ports s) as Eps by (by rewrite Hp3).
    destruct (Hmore (between (ms_hist s3) (ms_hist s'))) as [Hm1 Hm2]. split.
    + lia.
    + rewrite Ebt, M2, Eps. exact Hm1.
    + by rewrite Ebt, <-Hm2.
    + by rewrite M4.
    + exact M5.
  - exists s1. split; [done|]. assert (between (ms_hist s) (ms_hist s1) = []) as Ebt by (by apply between_same). split.
    + cbn [s1 ms_hist with_hist]. lia.
    + rewrite Ebt, app_nil_r, (packets_short _ (ga_small _ _ Hg)). done.
    + rewrite Ebt, app_nil_r, (packets_short _ (ga_small _ _ Hg)). by apply gathering_hist.
    + done.
    + exists (ms_hist s). split; [done|lia].
Qed.

(** *** Interrupts *)
Definition wait_call (s : mouse_driver) : kcall := mk_call SYSCALL_ASYNC_RECIEVE [0; u32 (u32 (interrupt_queue s)); u32 MESSAGE_ASYNC_BLOCK; 0] no_msg.

Lemma event_turn_ok fuel carry s : gathering carry s → (length stream - taken (ms_hist s) < fuel)%nat →
  ∃ s', event_turn fuel s = Ret (tt, s') ∧ read_on carry s s'.
Proof.
  intros Hg Hf. unfold event_turn, get. rewrite (bind_run _ _ _ _ _ eq_refl).
  set (h1 := wait_call s :: ms_hist s). set (s1 := with_hist h1 s).
  rewrite (bind_run _ _ s (i32 (kernel h1).1, (kernel h1).2) s1) by done.
  rewrite (bind_run _ _ _ _ _ (in_byte_run MOUSE_STATUS_PORT s1)). fold status_call. cbv zeta. fold (status_at (ms_hist s1)).
  set (s2 := with_hist (status_call :: ms_hist s1) s1).
  assert (taken (ms_hist s1) = taken (ms_hist s)) as E1 by (by apply taken_other).
  assert (taken (ms_hist s2) = taken (ms_hist s)) as E2 by (rewrite <-E1; apply taken_other, status_not_data).
  assert (between (ms_hist s) (ms_hist s2) = []) as Eb by (by apply between_same).
  destruct (truthy _) eqn:Em; cbn [negb].
  - destruct (drain_ok fuel carry s2) as (s' & E & [M1 M2 M3 M4 M5]); [by apply gathering_hist, gathering_hist|lia|].
    exists s'. split; [exact E|].
    assert (between (ms_hist s) (ms_hist s') = between (ms_hist s2) (ms_hist s')) as Ebt by (unfold between; by rewrite E2).
    split; [lia|rewrite Ebt; exact M2|by rewrite Ebt|done|done].
  - exists s2. split; [done|]. split.
    + lia.
    + rewrite Eb, app_nil_r, (packets_short _ (ga_small _ _ Hg)). done.
    + rewrite Eb, app_nil_r, (packets_short _ (ga_small _ _ Hg)). by apply gathering_hist, gathering_hist.
    + done.
    + exists (ms_hist s1). split; [done|]. destruct (decide (taken (ms_hist s1) < arrived (ms_hist s1))%nat) as [Hlt|]; [|lia].
      rewrite (pc_mouse _ _ HP _ Hlt) in Em. done.
Qed.

(** The packets of a stream that goes on. *)
Lemma packets_app n : ∀ xs ys, (length xs < n)%nat →
  packets (xs ++ ys) = ((packets xs).1 ++ (packets ((packets xs).2 ++ ys)).1, (packets ((packets xs).2 ++ ys)).2).
Proof.
  induction n as [|n IH]; intros xs ys Hl; [lia|].
  destruct xs as [|a [|b [|c xs]]]; [apply surjective_pairing..|]. cbn [packets fst snd app].
  rewrite IH by (simpl in Hl; lia). done.
Qed.

Lemma packets_calls_app ps l l' : packets_calls ps (l ++ l') = packets_calls ps l' ++ packets_calls ps l.
Proof. unfold packets_calls. by rewrite map_app, reverse_app, concat_app. Qed.

Lemma read_on_trans carry s s1 s2 : let mid := (packets (carry ++ between (ms_hist s) (ms_hist s1))).2 in
  read_on carry s s1 → read_on mid s1 s2 → read_on carry s s2.
Proof.
  intros mid [M1 M2 M3 M4 M5] [N1 N2 N3 N4 N5].
  assert (packets (carry ++ between (ms_hist s) (ms_hist s2)) =
    ((packets (carry ++ between (ms_hist s) (ms_hist s1))).1 ++ (packets (mid ++ between (ms_hist s1) (ms_hist s2))).1,
     (packets (mid ++ between (ms_hist s1) (ms_hist s2))).2)) as Ep.
  { rewrite (between_app (ms_hist s) (ms_hist s1) (ms_hist s2)) by done. rewrite (assoc_L (++)).
    by rewrite (packets_app (S (length (carry ++ between (ms_hist s) (ms_hist s1))))) by lia. }
  split; rewrite ?Ep; cbn [fst snd]; [lia| |done|by rewrite N4|done].
  rewrite N2, M2, M4, packets_calls_app. by rewrite <-(assoc_L (++)).
Qed.

(** The first [n] turns of [event_thread]. *)
Fixpoint event_turns (n fuel : nat) : D unit :=
  match n with O => mret tt | S n' => event_turn fuel;; event_turns n' fuel end.

Lemma event_turns_ok n fuel : ∀ carry s, gathering carry s → (length stream < fuel)%nat → n ≠ 0%nat →
  ∃ s', event_turns n fuel s = Ret (tt, s') ∧ read_on carry s s'.
Proof.
  induction n as [|n IH]; intros carry s Hg Hf Hn; [done|]. cbn [event_turns].
  destruct (event_turn_ok fuel carry s Hg) as (s1 & E & Hr); [lia|]. rewrite (bind_run _ _ _ _ _ E).
  destruct n as [|n]; [by exists s1|].
  destruct (IH _ s1 (ro_rest _ _ _ Hr) Hf) as (s' & E' & Hr'); [done|]. exists s'. split; [exact E'|]. by eapply read_on_trans.
Qed.

(** A packet's event is small, and survives the message. *)
Lemma decode_range packet ev : Forall (λ b, 0 <= b < 256) packet → decode packet = Some ev →
  -255 <= mev_x ev <= 255 ∧ -255 <= mev_y ev <= 255 ∧ mouse_parse_event (mouse_message ev) = ev.
Proof.
  intros Hb E. unfold decode in E. destruct packet as [|a [|b [|c [|? ?]]]]; try done.
  apply Forall_cons in Hb as [Ha Hb]. apply Forall_cons in Hb as [Hb Hc]. apply Forall_cons in Hc as [Hc _].
  destruct (_ || _); [done|]. injection E as <-. cbn [mev_x mev_y].
  assert (∀ i, 0 <= bit a i <= 1) as Hbit by (intros i; unfold bit; destruct (Z.testbit a i); simpl; lia).
  pose proof (Hbit 0). pose proof (Hbit 1). pose proof (Hbit 2). pose proof (Hbit 4). pose proof (Hbit 5).
  split; [lia|]. split; [lia|].
  unfold mouse_parse_event, mouse_message, mget. cbn [mdata lookup list_lookup from_option id mev_flags mev_x mev_y].
  rewrite u32_small by lia. rewrite !(u32_small (u32 _)) by apply u32_range. by rewrite !i32_u32 by lia.
Qed.

Lemma packets_bytes n : ∀ bytes, (length bytes < n)%nat → Forall (λ b, 0 <= b < 256) bytes → Forall (Forall (λ b, 0 <= b < 256)) (packets bytes).1.
Proof.
  induction n as [|n IH]; intros bytes Hl Hb; [lia|]. destruct bytes as [|a [|b [|c rest]]]; [constructor..|].
  simpl. rewrite !Forall_cons in Hb. destruct Hb as (Ha & Hb & Hc & Hr). constructor; [rewrite !Forall_cons; done|].
  apply IH; [simpl in Hl; lia|done].
Qed.


(** A motion of one step to the left is reported as none: the sign bit means
    minus 256, the code subtracts from 255. *)
Lemma left_step_lost : packet_event [0x18; 0xff; 0] = Some (mk_mev 0 0 0).
Proof. reflexivity. Qed.
End claims.

(** ** A packet and a half

    Seven bytes, of which three come before each interrupt the driver waits for:
    a packet, one that overflowed, and a first byte. *)
Definition idle_mouse : mouse_driver := mk_mouse [] 7 (9 :: replicate 1023 0) 1 (replicate 8 0) 0.
Definition some_bytes : list Z := [0x09; 5; 2; 0x48; 0; 0; 0x08].
Definition waits (h : list kcall) : nat := length (filter (λ c, cnum c = SYSCALL_ASYNC_RECIEVE) h).
Definition some_arrived (h : list kcall) : nat := Nat.min 7 (3 * waits h).
Definition mouse_answer (h : list kcall) : Z * message :=
  let e := steady 0 no_msg in
  match h with
  | [] => (0, no_msg)
  | c :: h' =>
      if decide (c = data_call) then (nth (taken h') some_bytes 0, no_msg)
      else (if bool_decide (taken h' < some_arrived h')%nat then 0x21 else 0, no_msg)
  end.
#[local] Instance mouse_env : KernelEnv := scripted mouse_answer.

Lemma mouse_controls : ps2_controller some_bytes some_arrived.
Proof.
  assert (∀ h, status_at h = if bool_decide (taken h < some_arrived h)%nat then 0x21 else 0) as Est.
  { intros h. unfold status_at, kernel. cbn [mouse_env scripted]. unfold mouse_answer. rewrite decide_False by (vm_compute; discriminate).
    change (@taken mouse_env h) with (@taken (steady 0 no_msg) h). by case_bool_decide. }
  split.
  - repeat constructor; lia.
  - intros h. apply Nat.le_min_l.
  - intros c h. unfold some_arrived, waits. apply Nat.min_le_compat_l, Nat.mul_le_mono_l.
    rewrite filter_cons. destruct (decide _); [apply Nat.le_succ_diag_r|done].
  - intros h. rewrite Est. by case_bool_decide.
  - intros h Hlt. by rewrite Est, bool_decide_true.
  - intros h Hlt. assert (taken h < 7)%nat as H7 by (eapply Nat.lt_le_trans; [exact Hlt|apply Nat.le_min_l]).
    unfold data_at, kernel. cbn [mouse_env scripted]. unfold mouse_answer. rewrite decide_True by done. cbn [fst].
    change (@taken (steady 0 no_msg) h) with (taken h). destruct (taken h) as [|[|[|[|[|[|[|t]]]]]]]; try reflexivity. lia.
Qed.

Lemma idle_gathering : gathering [] idle_mouse.
Proof. split; simpl; try done; lia. Qed.

