(* ===== verification/Pci.v ===== *)
(** The PCI scanner ([programs/initprogs/src/pci.c]): configuration space is
    read through two ports, devices are found by trying every address in
    turn. *)

From S2P Require Import Prelude Kernel Text.
#[local] Open Scope Z_scope.

Definition PCI_CONFIG_ADDRESS : Z := 0xcf8.
Definition PCI_CONFIG_DATA : Z := 0xcfc.
Definition PCI_CONFIG_VENDOR : Z := 0.
Definition PCI_CONFIG_DEVICE : Z := 2.
Definition PCI_CONFIG_CLASS : Z := 0xb.

(** [pci_device_t]. *)
Record pci_device_t := mk_pci { bus : Z; slot : Z; func : Z; valid : bool }.

Definition pci_device (b s f : Z) : pci_device_t := mk_pci (u8 b) (u8 s) (u8 f) true.
Definition pci_invalid_device : pci_device_t := mk_pci 0 0 0 false.

(** [pci_strings]. *)
Definition pci_strings : list (list Z) :=
  [ [79; 108; 100];
    [77; 97; 115; 115; 32; 115; 116; 111; 114; 97; 103; 101; 32; 99; 111; 110; 116; 114; 111; 108; 108; 101; 114];
    [78; 101; 116; 119; 111; 114; 107; 32; 99; 111; 110; 116; 114; 111; 108; 108; 101; 114];
    [68; 105; 115; 112; 108; 97; 121; 32; 99; 111; 110; 116; 114; 111; 108; 108; 101; 114];
    [77; 117; 108; 116; 105; 109; 101; 100; 105; 97; 32; 99; 111; 110; 116; 114; 111; 108; 108; 101; 114];
    [77; 101; 109; 111; 114; 121; 32; 99; 111; 110; 116; 114; 111; 108; 108; 101; 114];
    [66; 114; 105; 100; 103; 101; 32; 100; 101; 118; 105; 99; 101];
    [83; 105; 109; 112; 108; 101; 32; 99; 111; 109; 109; 117; 110; 105; 99; 97; 116; 105; 111; 110; 115; 32; 99; 111; 110; 116; 114; 111; 108; 108; 101; 114];
    [66; 97; 115; 101; 32; 115; 121; 115; 116; 101; 109; 32; 112; 101; 114; 105; 112; 104; 101; 114; 97; 108];
    [73; 110; 112; 117; 116; 32; 100; 101; 118; 105; 99; 101; 32; 99; 111; 110; 116; 114; 111; 108; 108; 101; 114];
    [68; 111; 99; 107; 32; 115; 116; 97; 116; 105; 111; 110; 32; 99; 111; 110; 116; 114; 111; 108; 108; 101; 114];
    [80; 114; 111; 99; 101; 115; 115; 111; 114];
    [83; 101; 114; 105; 97; 108; 32; 98; 117; 115; 32; 99; 111; 110; 116; 114; 111; 108; 108; 101; 114];
    [87; 105; 114; 101; 108; 101; 115; 115; 32; 99; 111; 110; 116; 114; 111; 108; 108; 101; 114];
    [73; 110; 116; 101; 108; 108; 105; 103; 101; 110; 116; 32; 73; 79; 32; 99; 111; 110; 116; 114; 111; 108; 108; 101; 114];
    [83; 97; 116; 97; 108; 108; 105; 116; 101; 32; 99; 111; 109; 109; 117; 110; 105; 99; 97; 116; 105; 111; 110; 115; 32; 99; 111; 110; 116; 114; 111; 108; 108; 101; 114];
    [67; 114; 121; 112; 116; 111; 32; 99; 111; 110; 116; 114; 111; 108; 108; 101; 114];
    [68; 97; 116; 97; 32; 97; 99; 113; 117; 105; 115; 105; 116; 105; 111; 110; 47; 83; 105; 103; 110; 97; 108; 32; 112; 114; 111; 99; 101; 115; 115; 105; 110; 103; 32; 99; 111; 110; 116; 114; 111; 108; 108; 101; 114] ].

(** ** Configuration space *)
Section config.
Context `{KernelEnv}.

Definition config_address (dev : pci_device_t) (offset : Z) : Z :=
  Z.lor (Z.lor 0x80000000 (Z.lor (Z.lor (Z.shiftl (bus dev) 16) (Z.shiftl (slot dev) 11)) (Z.shiftl (func dev) 8)))
        (Z.land offset 0xfc).

Definition pci_conf_read_dword (dev : pci_device_t) (offset : Z) : K Z :=
  c4_out_dword PCI_CONFIG_ADDRESS (config_address dev offset);; c4_in_dword PCI_CONFIG_DATA.
Definition pci_conf_read_word (dev : pci_device_t) (offset : Z) : K Z :=
  temp ← pci_conf_read_dword dev offset; mret (u16 (Z.shiftr temp (offset mod 4 * 8))).
Definition pci_conf_read_byte (dev : pci_device_t) (offset : Z) : K Z :=
  temp ← pci_conf_read_dword dev offset; mret (u8 (Z.shiftr temp (offset mod 4 * 8))).
End config.

(** ** Looking a device up *)
Section lookup.
Context `{KernelEnv}.

(** The three nested loops; [n], [m], [k] turns are left.  The result is the
    device when there is one. *)
Fixpoint function_loop (k : nat) (vendor_id device_id b d f : Z) : K (option pci_device_t) :=
  match k with
  | O => mret None
  | S k' =>
      let dev := pci_device b d f in
      vendor ← pci_conf_read_word dev PCI_CONFIG_VENDOR;
      if vendor =? 0xffff then
        if f =? 0 then mret None (* break *)
        else function_loop k' vendor_id device_id b d (f + 1)
      else
        dev_id ← pci_conf_read_word dev PCI_CONFIG_DEVICE;
        if (vendor_id =? vendor) && (device_id =? dev_id) then mret (Some (pci_device b d f))
        else function_loop k' vendor_id device_id b d (f + 1)
  end.

Fixpoint device_loop (m : nat) (vendor_id device_id b d : Z) : K (option pci_device_t) :=
  match m with
  | O => mret None
  | S m' =>
      r ← function_loop 7 vendor_id device_id b d 0;
      match r with Some dev => mret (Some dev) | None => device_loop m' vendor_id device_id b (d + 1) end
  end.

Fixpoint bus_loop (n : nat) (vendor_id device_id b : Z) : K (option pci_device_t) :=
  match n with
  | O => mret None
  | S n' =>
      r ← device_loop 32 vendor_id device_id b 0;
      match r with Some dev => mret (Some dev) | None => bus_loop n' vendor_id device_id (b + 1) end
  end.

Definition pci_lookup (vendor_id device_id : Z) : K pci_device_t :=
  r ← bus_loop 256 vendor_id device_id 0; mret (default pci_invalid_device r).
End lookup.

(** ** Listing the devices *)

(** The calls made, and the text printed. *)
Record scanner := mk_scanner { sc_hist : list kcall; sc_out : list Z }.

Section dump.
Context `{KernelEnv}.
Abbreviation P := (M scanner).

Definition pk {A} (m : K A) : P A := zoom sc_hist (λ h s, mk_scanner h (sc_out s)) m.
Definition pt {A} (m : W A) : P A := zoom sc_out (λ o s, mk_scanner (sc_hist s) o) m.

Definition putchar (c : Z) : P unit := pt (c4_debug_putchar c).
Definition puts (fuel : nat) (str : list Z) : P unit := pt (c4_debug_puts fuel str).

(** The digits in [char buf[32]], least significant first. *)
Fixpoint num_digits (fuel : nat) (base_str : list Z) (n i : Z) (buf : list Z) : P (list Z * Z) :=
  match fuel with
  | O => nofuel
  | S f =>
      if n =? 0 then mret (buf, i)
      else
        let base := Z.of_nat (length base_str) in
        c ← getsome (λ _, zget base_str (n mod base));
        buf ← getsome (λ _, zset buf i c);
        num_digits f base_str (n / base) (u32 (i + 1)) buf
  end.

Fixpoint put_back (i : nat) (buf : list Z) : P unit :=
  match i with
  | O => mret tt
  | S i' => c ← getsome (λ _, zget buf (Z.of_nat i')); putchar c;; put_back i' buf
  end.

(** [print_num] and [print_hex] differ in the base. *)
Definition print_base (fuel : nat) (base_str : list Z) (n : Z) : P unit :=
  let buf := replicate 32 0 in
  r ← (if truthy n then
         r ← num_digits fuel base_str n 0 buf;
         b ← getsome (λ _, zset r.1 r.2 0);
         mret (b, r.2)
       else mret (<[1%nat := 0]> (<[0%nat := 48]> buf), 1));
  put_back (Z.to_nat r.2) r.1.
Definition print_num (fuel : nat) (n : Z) : P unit := print_base fuel decimal n.
Definition print_hex (fuel : nat) (n : Z) : P unit := print_base fuel hexadecimal n.

(** One line: [class_id] indexes the array without a check. *)
Definition dump_device (fuel : nat) (b d f vendor : Z) (dev : pci_device_t) : P unit :=
  device_id ← pk (pci_conf_read_word dev PCI_CONFIG_DEVICE);
  class_id ← pk (pci_conf_read_word dev PCI_CONFIG_CLASS);
  puts fuel [91; 112; 99; 105; 93; 32];;
  print_hex fuel b;; putchar 46;;
  print_hex fuel d;; putchar 46;;
  print_hex fuel f;;
  putchar 32;;
  print_hex fuel vendor;; putchar 58;; print_hex fuel device_id;;
  puts fuel [44; 32];;
  str ← getsome (λ _, zget pci_strings class_id);
  puts fuel str;;
  putchar 10.

Fixpoint dump_functions (k : nat) (fuel : nat) (b d f : Z) : P unit :=
  match k with
  | O => mret tt
  | S k' =>
      let dev := pci_device b d f in
      vendor ← pk (pci_conf_read_word dev PCI_CONFIG_VENDOR);
      if vendor =? 0xffff then if f =? 0 then mret tt else dump_functions k' fuel b d (f + 1)
      else dump_device fuel b d f vendor dev;; dump_functions k' fuel b d (f + 1)
  end.

Definition pci_dump_devices (fuel : nat) : P unit :=
  puts fuel [115; 99; 97; 110; 110; 105; 110; 103; 32; 112; 99; 105; 32; 98; 117; 115; 46; 46; 46; 10];;
  for_loop 256 0 (λ b, for_loop 32 0 (λ d, dump_functions 7 fuel b d 0)).

Definition pci_main (fuel : nat) : P unit :=
  puts fuel [104; 101; 108; 108; 111; 44; 32; 112; 99; 105; 32; 97; 116; 32; 116; 104; 114; 101; 97; 100; 32];;
  id ← pk c4_get_id;
  print_num fuel (u32 id);;
  puts fuel [10];;
  pci_dump_devices fuel;;
  foo ← pk (pci_lookup 0x10ec 0x8139);
  (if valid foo then
     puts fuel [102; 111; 117; 110; 100; 32; 97; 32; 114; 101; 97; 108; 116; 101; 107; 32; 56; 49; 51; 57; 32; 110; 101; 116; 119; 111; 114; 107; 32; 99; 97; 114; 100]
   else mret tt);;
  pk c4_exit.
End dump.

(** ** The reference: a search over a configuration space *)
Section claims.
Context `{KernelEnv} (conf : Z → Z).

Definition out_call (a : Z) : kcall := mk_call SYSCALL_IOPORT [IO_PORT_OUT_DWORD; u32 PCI_CONFIG_ADDRESS; u32 a; 0] no_msg.
Definition in_call : kcall := mk_call SYSCALL_IOPORT [IO_PORT_IN_DWORD; u32 PCI_CONFIG_DATA; 0; 0] no_msg.

(** The host bridge: a read of the data port gives the double word that was
    addressed last, the same one every time. *)
Definition bridge : Prop := ∀ a h, u32 (i32 (kernel (in_call :: out_call a :: h)).1) = conf a.

Definition word_at (dev : pci_device_t) (offset : Z) : Z := u16 (Z.shiftr (conf (config_address dev offset)) (offset mod 4 * 8)).
Definition vendor_at (b d f : Z) : Z := word_at (pci_device b d f) PCI_CONFIG_VENDOR.
Definition device_at (b d f : Z) : Z := word_at (pci_device b d f) PCI_CONFIG_DEVICE.

(** A function is there when its vendor is not all ones, and so is the
    device's first function. *)
Definition matches (vendor_id device_id : Z) (a : Z * Z * Z) : bool :=
  let '(b, d, f) := a in
  negb (vendor_at b d 0 =? 0xffff) && negb (vendor_at b d f =? 0xffff) &&
  (vendor_id =? vendor_at b d f) && (device_id =? device_at b d f).

Fixpoint upfrom (n : nat) (i : Z) : list Z := match n with O => [] | S n' => i :: upfrom n' (i + 1) end.
Definition functions (b d : Z) : list (Z * Z * Z) := map (pair (b, d)) (upfrom 7 0).
Definition devices (m : nat) (b d : Z) : list (Z * Z * Z) := concat (map (functions b) (upfrom m d)).
(** Every address of functions 0 to 6, in the order they are tried. *)
Definition addresses (n : nat) (b : Z) : list (Z * Z * Z) := concat (map (λ b, devices 32 b 0) (upfrom n b)).

Definition device_of (a : Z * Z * Z) : pci_device_t := let '(b, d, f) := a in pci_device b d f.

Context (Hbridge : bridge).

Lemma read_word_ok dev offset h : ∃ h', pci_conf_read_word dev offset h = Ret (word_at dev offset, h').
Proof.
  eexists. unfold pci_conf_read_word, pci_conf_read_dword, c4_out_dword, c4_in_dword, sys, do_syscall. munfold. cbn [fst].
  fold (out_call (config_address dev offset)). fold in_call. unfold word_at. rewrite <-(Hbridge (config_address dev offset) h). reflexivity.
Qed.

Lemma find_none_absent vendor_id device_id b d l : vendor_at b d 0 = 0xffff →
  List.find (matches vendor_id device_id) (map (pair (b, d)) l) = None.
Proof.
  intros Hv. induction l as [|f l IH]; [done|]. cbn [map List.find]. unfold matches at 1. by rewrite Hv.
Qed.

Lemma function_loop_ok vendor_id device_id b d k : ∀ f h, 0 <= f → (f = 0 ∨ vendor_at b d 0 ≠ 0xffff) →
  ∃ h', function_loop k vendor_id device_id b d f h =
    Ret (device_of <$> List.find (matches vendor_id device_id) (map (pair (b, d)) (upfrom k f)), h').
Proof.
  induction k as [|k IH]; intros f h Hf Hp; [by exists h|]. cbn [function_loop].
  destruct (read_word_ok (pci_device b d f) PCI_CONFIG_VENDOR h) as (h1 & E1). rewrite (bind_run _ _ _ _ _ E1).
  fold (vendor_at b d f). destruct (Z.eqb_spec (vendor_at b d f) 0xffff) as [Ev|Ev].
  - destruct (Z.eqb_spec f 0) as [->|Hf0].
    + exists h1. by rewrite find_none_absent.
    + destruct (IH (f + 1) h1 ltac:(lia) ltac:(right; naive_solver)) as (h' & E). exists h'. rewrite E. cbn [upfrom map List.find].
      unfold matches at 2. by rewrite Ev, Z.eqb_refl, andb_false_r.
  - destruct (read_word_ok (pci_device b d f) PCI_CONFIG_DEVICE h1) as (h2 & E2). rewrite (bind_run _ _ _ _ _ E2).
    fold (device_at b d f). assert (vendor_at b d 0 ≠ 0xffff) as H0 by (destruct Hp as [->|]; done).
    cbn [upfrom map List.find]. unfold matches at 1. rewrite (proj2 (Z.eqb_neq _ _) Ev), (proj2 (Z.eqb_neq _ _) H0). cbn [negb andb].
    destruct ((vendor_id =? vendor_at b d f) && (device_id =? device_at b d f)); [by exists h2|].
    apply IH; [lia|by right].
Qed.

Lemma find_app {A} (p : A → bool) l1 l2 : List.find p (l1 ++ l2) = match List.find p l1 with Some a => Some a | None => List.find p l2 end.
Proof. induction l1 as [|a l1 IH]; [done|]. cbn [app List.find]. by destruct (p a). Qed.

Lemma device_loop_ok vendor_id device_id b m : ∀ d h,
  ∃ h', device_loop m vendor_id device_id b d h = Ret (device_of <$> List.find (matches vendor_id device_id) (devices m b d), h').
Proof.
  induction m as [|m IH]; intros d h; [by exists h|]. cbn [device_loop].
  destruct (function_loop_ok vendor_id device_id b d 7 0 h ltac:(lia) ltac:(by left)) as (h1 & E1). rewrite (bind_run _ _ _ _ _ E1).
  unfold devices. cbn [upfrom map concat]. rewrite find_app. unfold functions at 1. destruct (List.find _ _) as [a|]; [by exists h1|].
  apply IH.
Qed.

Lemma bus_loop_ok vendor_id device_id n : ∀ b h,
  ∃ h', bus_loop n vendor_id device_id b h = Ret (device_of <$> List.find (matches vendor_id device_id) (addresses n b), h').
Proof.
  induction n as [|n IH]; intros b h; [by exists h|]. cbn [bus_loop].
  destruct (device_loop_ok vendor_id device_id b 32 0 h) as (h1 & E1). rewrite (bind_run _ _ _ _ _ E1).
  unfold addresses. cbn [upfrom map concat]. rewrite find_app. destruct (List.find _ (devices 32 b 0)) as [a|]; [by exists h1|]. apply IH.
Qed.

(** On any configuration space [pci_lookup] is a linear search: it returns
    the first address, buses first, then devices, then functions 0 to 6, where
    a device with the two identifiers is present, and an invalid device when
    there is none. *)
Theorem pci_lookup_search vendor_id device_id h :
  ∃ h', pci_lookup vendor_id device_id h =
    Ret (default pci_invalid_device (device_of <$> List.find (matches vendor_id device_id) (addresses 256 0)), h').
Proof.
  unfold pci_lookup. destruct (bus_loop_ok vendor_id device_id 256 0 h) as (h' & E). rewrite (bind_run _ _ _ _ _ E). by exists h'.
Qed.
End claims.

(** A bridge with one network card at 0.3.0, and its kernel. *)
Definition one_card (a : Z) : Z := if a =? config_address (pci_device 0 3 0) 0 then 0x813910ec else 0xffffffff.
Definition card_kernel : KernelEnv := scripted (λ h, (match h with
  | _ :: mk_call SYSCALL_IOPORT [_; _; a; _] _ :: _ => one_card a
  | _ => 0
  end, no_msg)).

Lemma card_bridge : let _ := card_kernel in bridge (λ a, one_card (u32 a)).
Proof.
  intros env a h. unfold out_call, in_call. cbn. unfold one_card. destruct (_ =? _); reflexivity.
Qed.

Lemma pci_lookup_search_witness : let _ := card_kernel in
  ∃ h', pci_lookup 0x10ec 0x8139 [] = Ret (mk_pci 0 3 0 true, h').
Proof.
  intros env. destruct (pci_lookup_search (λ a, one_card (u32 a)) card_bridge 0x10ec 0x8139 []) as (h' & E). exists h'.
  refine (eq_trans E _). vm_compute. reflexivity.
Defined.

(** Class codes from 18 on, such as 0xff for a device that fits no class, are
    behind the array of names. *)
Lemma class_not_named : zget pci_strings 0xff = None.
Proof. reflexivity. Qed.
