(* ===== verification/Elf.v ===== *)
(** The program loader: [libraries/c4rt/src/elf.c] and the structures of
    [include/c4rt/elf.h].

    The loader's own memory is a byte map; a page object is a list of bytes.
    While an object is mapped its bytes are part of the memory, and go back to
    the object when it is unmapped.  What is mapped elsewhere is recorded with the
    capability of the address space it was mapped in: a child's memory is what
    was mapped in its address space.  A mapping takes place when the kernel answers
    that it did.  What a fresh page holds is arbitrary: [blank] gives byte [k]
    of object [o].  [running] of the process record is never set or read. *)

From S2P Require Import Prelude CString Words Kernel.
#[local] Open Scope Z_scope.

(** ** The file's structures *)
Definition ELFMAG0 : Z := 0x7f.
Definition ELFMAG1 : Z := 69.
Definition ELFMAG2 : Z := 76.
Definition ELFMAG3 : Z := 70.

(** [Elf32_Ehdr] *)
Definition e_ident (elf i : Z) : M mem Z := rd (elf + i).
Definition e_entry (elf : Z) : M mem Z := rd32 (elf + 24).
Definition e_phoff (elf : Z) : M mem Z := rd32 (elf + 28).
Definition e_phentsize (elf : Z) : M mem Z := rd16 (elf + 42).
Definition e_phnum (elf : Z) : M mem Z := rd16 (elf + 44).

(** [Elf32_Phdr] *)
Definition p_offset (ph : Z) : M mem Z := rd32 (ph + 4).
Definition p_vaddr (ph : Z) : M mem Z := rd32 (ph + 8).
Definition p_filesz (ph : Z) : M mem Z := rd32 (ph + 16).
Definition p_memsz (ph : Z) : M mem Z := rd32 (ph + 20).

Definition elf_is_valid (elf : Z) : M mem bool :=
  a ← e_ident elf 0;
  if negb (a =? ELFMAG0) then mret false
  else b ← e_ident elf 1;
  if negb (b =? ELFMAG1) then mret false
  else c ← e_ident elf 2;
  if negb (c =? ELFMAG2) then mret false
  else d ← e_ident elf 3; mret (d =? ELFMAG3).

(** [0] is [NULL]. *)
Definition elf_get_phdr (elf index : Z) : M mem Z :=
  phnum ← e_phnum elf;
  if index <? phnum then
    phoff ← e_phoff elf;
    size ← e_phentsize elf;
    mret (u32 (u32 (elf + phoff) + u32 (size * index)))
  else mret 0.

(** ** The new process's stack

    [from] is where the stack is mapped in the loader, [to] where it will be in
    the child; both are decreased together. *)
Definition elf_push_arg (ft : Z * Z) (value : Z) : M mem (Z * Z) :=
  let ft := (u32 (ft.1 - 4), u32 (ft.2 - 4)) in wr32 ft.1 value;; mret ft.

Definition elf_push_str (fuel : nat) (ft : Z * Z) (str : Z) : M mem (Z * Z) :=
  n ← strlen fuel str;
  let len := u32 (n + 1) in
  let ft := (u32 (ft.1 - len), u32 (ft.2 - len)) in
  strcpy fuel ft.1 str;; mret ft.

Fixpoint strlist_len_loop (fuel : nat) (things ret : Z) : M mem Z :=
  match fuel with
  | O => nofuel
  | S f => p ← rd32 (things + 4 * ret); if truthy p then strlist_len_loop f things (ret + 1) else mret ret
  end.
Definition strlist_len (fuel : nat) (things : Z) : M mem Z := strlist_len_loop fuel things 0.

(** [foo[i] = elf_push_str(from, to, things[i])], [n] turns left. *)
Fixpoint push_strs (n fuel : nat) (things i : Z) (ft : Z * Z) (foo : list Z) : M mem (Z * Z * list Z) :=
  match n with
  | O => mret (ft, foo)
  | S n' =>
      p ← rd32 (things + 4 * i);
      ft ← elf_push_str fuel ft p;
      push_strs n' fuel things (i + 1) ft (foo ++ [ft.2])
  end.

(** The addresses, last first. *)
Fixpoint push_addrs (ft : Z * Z) (addrs : list Z) : M mem (Z * Z) :=
  match addrs with [] => mret ft | a :: rest => ft ← elf_push_arg ft a; push_addrs ft rest end.

Definition elf_copy_strlist (fuel : nat) (ft : Z * Z) (things : Z) : M mem (Z * Z) :=
  len ← strlist_len fuel things;
  r ← push_strs (Z.to_nat len) fuel things 0 ft [];
  ft ← elf_push_arg r.1 0;
  push_addrs ft (rev r.2).

Definition C4RT_INIT_MAGIC : Z := 0x10adab1e.

Definition setup_stack_params (fuel : nat) (ft : Z * Z) (nameserver argv envp : Z) : M mem (Z * Z) :=
  ft ← elf_copy_strlist fuel ft argv;
  let to_argv := ft.2 in
  ft ← elf_copy_strlist fuel ft envp;
  let to_envp := ft.2 in
  ft ← elf_push_arg ft C4RT_INIT_MAGIC;
  ft ← elf_push_arg ft to_envp;
  ft ← elf_push_arg ft to_argv;
  ft ← elf_push_arg ft nameserver;
  ft ← elf_push_arg ft 0;
  mret ft.

(** ** The loader *)
Record c4_process := mk_process { addrspace : Z; capspace : Z; endpoint : Z; thread : Z }.

Record loader := mk_loader {
  l_hist : list kcall;
  l_mem : mem;               (* what the loader's addresses hold *)
  l_objs : list (list Z);    (* page objects, in the order they were made *)
  l_caps : gmap Z nat;       (* the loader's capabilities for them *)
  l_win : gmap Z nat;        (* the objects mapped in the loader *)
  l_child : list (Z * Z * nat)   (* objects mapped elsewhere: address space, address, object; latest first *)
}.

Abbreviation L := (M loader).

Definition set_hist (h : list kcall) (s : loader) : loader := mk_loader h (l_mem s) (l_objs s) (l_caps s) (l_win s) (l_child s).
Definition set_mem (m : mem) (s : loader) : loader := mk_loader (l_hist s) m (l_objs s) (l_caps s) (l_win s) (l_child s).
Definition lk {A} (m : K A) : L A := zoom l_hist set_hist m.
Definition lm {A} (m : M mem A) : L A := zoom l_mem set_mem m.

Definition new_object (frame : Z) (bs : list Z) (s : loader) : loader :=
  mk_loader (l_hist s) (l_mem s) (l_objs s ++ [bs]) (<[frame := length (l_objs s)]> (l_caps s)) (l_win s) (l_child s).
Definition attach (a : Z) (o : nat) (s : loader) : loader :=
  mk_loader (l_hist s) (put_bytes a (default [] (l_objs s !! o)) (l_mem s)) (l_objs s) (l_caps s) (<[a := o]> (l_win s)) (l_child s).
Definition detach (a : Z) (o : nat) (s : loader) : loader :=
  let n := length (default [] (l_objs s !! o)) in
  mk_loader (l_hist s) (drop_bytes a n (l_mem s)) (<[o := take_bytes a n (l_mem s)]> (l_objs s)) (l_caps s) (delete a (l_win s)) (l_child s).
Definition give (space a : Z) (o : nat) (s : loader) : loader :=
  mk_loader (l_hist s) (l_mem s) (l_objs s) (l_caps s) (l_win s) ((space, a, o) :: l_child s).
Definition forget (frame : Z) (s : loader) : loader :=
  mk_loader (l_hist s) (l_mem s) (l_objs s) (delete frame (l_caps s)) (l_win s) (l_child s).

Section elf.
Context `{KernelEnv} (blank : nat → nat → Z) (BOOTINFO_ADDR : Z).

Definition fresh_pages (o : nat) (pages : Z) : list Z := map (λ k, u8 (blank o k)) (seq 0 (Z.to_nat (pages * PAGE_SIZE))).

(** [page_allot(pages)]: a capability for fresh pages, when it is positive. *)
Definition allot (page_allot : Z → K Z) (pages : Z) : L Z :=
  frame ← lk (page_allot pages);
  (if 0 <? frame then modify (λ s, new_object frame (fresh_pages (length (l_objs s)) pages) s) else mret tt);;
  mret frame.

Definition map_own (frame address permissions : Z) : L Z :=
  k ← lk (c4_addrspace_map C4_CURRENT_ADDRSPACE frame address permissions);
  s ← get;
  (if 0 <=? k then match l_caps s !! frame with Some o => modify (attach (u32 address) o) | None => mret tt end else mret tt);;
  mret k.

Definition unmap_own (address : Z) : L Z :=
  k ← lk (c4_addrspace_unmap C4_CURRENT_ADDRSPACE address);
  s ← get;
  (if 0 <=? k then match l_win s !! u32 address with Some o => modify (detach (u32 address) o) | None => mret tt end else mret tt);;
  mret k.

Definition map_child (aspace frame address permissions : Z) : L Z :=
  k ← lk (c4_addrspace_map (u32 aspace) frame address permissions);
  s ← get;
  (if 0 <=? k then match l_caps s !! frame with Some o => modify (give (u32 aspace) (u32 address) o) | None => mret tt end else mret tt);;
  mret k.

Definition move_frame (frame cspace slot : Z) : L Z :=
  k ← lk (c4_cspace_move C4_CURRENT_CSPACE (u32 frame) (u32 cspace) (u32 slot));
  (if 0 <=? k then modify (forget frame) else mret tt);;
  mret k.

Definition PAGE_RW : Z := Z.lor PAGE_READ PAGE_WRITE.

Definition allot_pages (pages : Z) : K Z := pager_request_pages C4_PAGER PAGE_RW pages.

(** [for (k = 0; k < header->p_filesz; k++) dataptr[k + offset] = progdata[k];] *)
Fixpoint copy_loop (fuel : nat) (header dataptr offset progdata k : Z) : M mem unit :=
  match fuel with
  | O => nofuel
  | S f =>
      filesz ← p_filesz header;
      if k <? filesz then
        b ← rd (progdata + k);
        wr (dataptr + u32 (k + offset)) b;;
        copy_loop f header dataptr offset progdata (k + 1)
      else mret tt
  end.

Definition C4_DEFAULT_OBJECT_END : Z := 6.

Definition load_segment (fuel : nat) (page_allot : Z → K Z) (elf aspace cspace i : Z) : L unit :=
  header ← lm (elf_get_phdr elf i);
  off ← lm (p_offset header);
  let progdata := u32 (elf + off) in
  addr ← lm (p_vaddr header);
  memsz ← lm (p_memsz header);
  let pages := u32 (memsz / PAGE_SIZE + Z.b2z (0 <? memsz mod PAGE_SIZE)) in
  frame ← allot page_allot pages;
  let databuf := 0xda000000 in
  let offset := addr mod PAGE_SIZE in
  let adjaddr := u32 (addr - offset) in
  map_own frame databuf PAGE_RW;;
  map_child aspace frame adjaddr PAGE_RW;;
  lm (copy_loop fuel header databuf offset progdata 0);;
  unmap_own databuf;;
  move_frame frame cspace (i + C4_DEFAULT_OBJECT_END);;
  mret tt.

Fixpoint segments_loop (turns fuel : nat) (page_allot : Z → K Z) (elf aspace cspace i : Z) : L unit :=
  match turns with
  | O => nofuel
  | S t =>
      phnum ← lm (e_phnum elf);
      if i <? phnum then
        load_segment fuel page_allot elf aspace cspace i;;
        segments_loop t fuel page_allot elf aspace cspace (i + 1)
      else mret tt
  end.

(** The capabilities a child starts with. *)
Definition give_capabilities (msgq aspace cspace pager nameserver : Z) : K unit :=
  c4_cspace_copy C4_CURRENT_CSPACE (u32 msgq) (u32 cspace) C4_SERV_PORT;;
  c4_cspace_copy C4_CURRENT_CSPACE (u32 aspace) (u32 cspace) C4_CURRENT_ADDRSPACE;;
  c4_cspace_copy C4_CURRENT_CSPACE C4_BOOT_INFO (u32 cspace) C4_BOOT_INFO;;
  c4_cspace_copy C4_CURRENT_CSPACE (u32 pager) (u32 cspace) C4_PAGER;;
  if truthy nameserver then
    c4_cspace_copy C4_CURRENT_CSPACE (u32 nameserver) (u32 cspace) C4_NAMESERVER;;
    c4_cspace_restrict (u32 cspace) C4_NAMESERVER (caps [CAP_MODIFY; CAP_SHARE; CAP_MULTI_USE]);;
    mret tt
  else mret tt.

Definition elf_load_full (turns fuel : nat) (elf : Z) (page_allot : Z → K Z) (nameserver pager argv envp : Z) : L c4_process :=
  let stack_offset := 0xfe0 in
  frame ← allot page_allot 1;
  cspace ← lk c4_cspace_create;
  aspace ← lk c4_addrspace_create;
  entry ← lm (e_entry elf);
  let to_stack := 0xa0000000 in
  let from_stack := 0xda000000 in
  msgq ← lk c4_msg_create_sync;
  lk (give_capabilities msgq aspace cspace pager nameserver);;
  lk (c4_addrspace_map (u32 aspace) C4_BOOT_INFO BOOTINFO_ADDR PAGE_READ);;
  map_own frame from_stack PAGE_RW;;
  map_child aspace frame to_stack PAGE_RW;;
  ft ← lm (setup_stack_params fuel (from_stack + stack_offset, to_stack + stack_offset) C4_NAMESERVER argv envp);
  unmap_own from_stack;;
  thread_id ← lk (c4_create_thread entry ft.2 0);
  lk (c4_set_addrspace (u32 thread_id) (u32 aspace));;
  lk (c4_set_capspace (u32 thread_id) (u32 cspace));;
  lk (c4_set_pager (u32 thread_id) (u32 pager));;
  segments_loop turns fuel page_allot elf aspace cspace 0;;
  lk (c4_continue_thread (u32 thread_id));;
  mret (mk_process aspace cspace msgq thread_id).

Definition elf_load (turns fuel : nat) (elf argv envp : Z) : L c4_process :=
  elf_load_full turns fuel elf allot_pages C4_NAMESERVER C4_PAGER argv envp.
End elf.

(** What the memory of the address space [space] holds. *)
Definition place (l : list (Z * list Z)) : mem := foldr (λ ab m, put_bytes ab.1 ab.2 m) ∅ l.
Definition child_pages (space : Z) (s : loader) : list (Z * list Z) :=
  map (λ e, (e.1.2, default [] (l_objs s !! e.2))) (filter (λ e, e.1.1 = space) (l_child s)).
Definition child_mem (space : Z) (s : loader) : mem := place (child_pages space s).
