(* ===== verification/ElfStack.v ===== *)
(** The stack a new process starts with ([elf.c]): the arguments and the
    environment copied below it, and the words the start-up code takes as its
    parameters. *)

From S2P Require Import Prelude CString Words Kernel Elf.
#[local] Open Scope Z_scope.

(** The bytes the strings take, each with its terminator. *)
Fixpoint strs_size (strs : list (list Z)) : Z :=
  match strs with [] => 0 | s :: rest => Z.of_nat (length s) + 1 + strs_size rest end.

(** A string array and its strings. *)
Definition list_size (strs : list (list Z)) : Z := strs_size strs + 4 * (Z.of_nat (length strs) + 1).

Lemma strs_size_pos strs : 0 <= strs_size strs.
Proof. induction strs; simpl; lia. Qed.

(** A null-terminated string array and its strings, none of whose bytes is in [lo, hi). *)
Definition list_apart (m : mem) (p : Z) (strs : list (list Z)) (lo hi : Z) : Prop := ∃ ptrs,
  words_at m p (ptrs ++ [0]) ∧ apart p (4 * Z.of_nat (length (ptrs ++ [0]))) lo hi ∧
  Forall (λ q, 0 < q < 2 ^ 32) ptrs ∧ Forall2 (λ q s, cstr m q s ∧ apart q (Z.of_nat (length s) + 1) lo hi) ptrs strs.

(** A string array at [p] whose pointers are right where everything is [d]
    higher, with its strings above it and below [hi]. *)
Definition list_moved (m : mem) (d hi p : Z) (strs : list (list Z)) : Prop := ∃ ptrs,
  words_at m p (ptrs ++ [0]) ∧ p + 4 * Z.of_nat (length (ptrs ++ [0])) <= hi ∧ Forall (λ q, 0 < q < 2 ^ 32) ptrs ∧
  Forall2 (λ q s, cstr m (q - d) s ∧ p <= q - d ∧ q - d + Z.of_nat (length s) < hi) ptrs strs.

Lemma list_apart_narrow m p strs lo hi lo' hi' : list_apart m p strs lo hi → lo <= lo' → hi' <= hi → list_apart m p strs lo' hi'.
Proof.
  intros (ptrs & Hw & Ha & Hp & Hs) ??. exists ptrs. split_and!; [done|by eapply apart_narrow|done|].
  eapply Forall2_impl; [exact Hs|]. intros q s [Hc Hq]. split; [done|]. by eapply apart_narrow.
Qed.

Lemma list_apart_only m m' p strs lo hi q n : list_apart m p strs lo hi → only m m' q n → lo <= q → q + n <= hi →
  list_apart m' p strs lo hi.
Proof.
  intros (ptrs & Hw & Ha & Hp & Hs) Ho ??. exists ptrs. split_and!; [|done|done|].
  - eapply only_words; [exact Ho| |done]. by eapply apart_narrow.
  - eapply Forall2_impl; [exact Hs|]. intros q' s [Hc Hq]. split; [|done]. eapply only_cstr; [exact Ho| |done]. by eapply apart_narrow.
Qed.

Lemma list_moved_only m m' d hi p strs q n : list_moved m d hi p strs → only m m' q n → q + n <= p → list_moved m' d hi p strs.
Proof.
  intros (ptrs & Hw & Hh & Hp & Hs) Ho Hq. exists ptrs. split_and!; [|done|done|].
  - eapply only_words; [exact Ho| |done]. intros a Ha. lia.
  - eapply Forall2_impl; [exact Hs|]. intros q' s [Hc Hq']. split; [|done]. eapply only_cstr; [exact Ho| |done]. intros a Ha. lia.
Qed.

(** ** The same bytes elsewhere

    What [m] holds below [hi] and above [lo] is [d] higher in [mc]. *)
Section shift.
Context (lo hi d : Z) (m mc : mem) (Hm : ∀ a b, lo <= a < hi → m !! a = Some b → mc !! (a + d) = Some b).

Lemma shift_bytes p bs : bytes_at m p bs → lo <= p → p + Z.of_nat (length bs) <= hi → bytes_at mc (p + d) bs.
Proof.
  intros Hb Hp Hh j b Hj. pose proof (lookup_lt_Some _ _ _ Hj).
  replace (p + d + Z.of_nat j) with (p + Z.of_nat j + d) by lia. apply Hm; [lia|]. by apply Hb.
Qed.

Lemma shift_words ws : ∀ p, words_at m p ws → lo <= p → p + 4 * Z.of_nat (length ws) <= hi → words_at mc (p + d) ws.
Proof.
  induction ws as [|w ws IH]; intros p Hws Hp Hh; [done|]. destruct Hws as [Hw Hws]. simpl length in Hh. split.
  - apply (shift_bytes p (le32 w)); [done|done|]. simpl. lia.
  - replace (p + d + 4) with (p + 4 + d) by lia. apply IH; [done|lia|lia].
Qed.

Lemma shift_cstr s : ∀ p, cstr m p s → lo <= p → p + Z.of_nat (length s) < hi → cstr mc (p + d) s.
Proof.
  induction s as [|c s IH]; intros p Hc Hp Hh; simpl length in Hh.
  - apply Hm; [lia|done].
  - destruct Hc as ((b & Hb & Hbc) & Hc0 & Hc). split_and!; [|done|].
    + exists b. split; [|done]. apply Hm; [lia|done].
    + replace (p + d + 1) with (p + 1 + d) by lia. apply IH; [done|lia|lia].
Qed.

Lemma shift_list p strs : list_moved m d hi p strs → lo <= p → strlist mc (p + d) strs.
Proof.
  intros (ptrs & Hw & Hh & Hp & Hs) Hl. exists ptrs. split_and!; [by apply shift_words|done|].
  eapply Forall2_impl; [exact Hs|]. intros q s (Hc & Hq & Hqh). replace q with (q - d + d) by lia. apply shift_cstr; [done|lia|done].
Qed.
End shift.

Section stack.
Context (lo d top : Z).
Context (Hlo : 0 < lo) (Hd : 0 < lo + d) (Htop : top < 2 ^ 32) (Htd : top + d < 2 ^ 32).

(** The free part of the stack is mapped. *)
Definition room (m : mem) (f : Z) : Prop := CString.mapped m lo (f - lo) ∧ f <= top.

Lemma room_only m m' f f' q n : room m f → only m m' q n → f' <= f → room m' f'.
Proof. intros [Hm Ht] Ho Hf. split; [|lia]. eapply only_mapped; [exact Ho|]. intros a Ha. apply Hm. lia. Qed.

Lemma push_arg_ok m f v : room m f → lo + 4 <= f → ∃ m',
  elf_push_arg (f, f + d) v m = Ret ((f - 4, f - 4 + d), m') ∧ word_at m' (f - 4) v ∧ only m m' (f - 4) 4.
Proof.
  intros [Hm Ht] Hf. destruct (wr32_ok m (f - 4) v) as (m' & E & Hw & Ho).
  { intros a Ha. apply Hm. lia. }
  exists m'. split; [|done]. unfold elf_push_arg. cbn [fst snd]. rewrite !u32_small by lia.
  rewrite (bind_run _ _ _ _ _ E). unfold mret, M_ret. do 3 f_equal. lia.
Qed.

Lemma push_str_ok fuel m f str s : room m f → lo + Z.of_nat (length s) + 1 <= f → cstr m str s →
  apart str (Z.of_nat (length s) + 1) lo f → (length s < fuel)%nat → ∃ m',
  let f' := f - Z.of_nat (length s) - 1 in
  elf_push_str fuel (f, f + d) str m = Ret ((f', f' + d), m') ∧ cstr m' f' s ∧ only m m' f' (f - f').
Proof.
  intros [Hm Ht] Hf Hs Ha Hfu. set (f' := f - Z.of_nat (length s) - 1).
  destruct (strcpy_ok fuel m f' str s Hfu Hs) as (m' & E & Hc & Ho).
  { intros a Ha'. apply Hm. lia. }
  { intros a Ha'. specialize (Ha a). lia. }
  exists m'. split_and!; [|done|eapply only_widen; [exact Ho|lia|lia]].
  unfold elf_push_str. rewrite (bind_run _ _ _ _ _ (strlen_ok fuel m str s Hfu Hs)). cbn [fst snd].
  rewrite (u32_small (Z.of_nat (length s) + 1)) by lia. rewrite !u32_small by lia.
  replace (f - (Z.of_nat (length s) + 1)) with f' by lia. rewrite (bind_run _ _ _ _ _ E). unfold mret, M_ret. do 3 f_equal. lia.
Qed.

Lemma push_strs_ok fuel things strs : ∀ ptrs i m f foo, room m f →
  words_at m (things + 4 * i) (ptrs ++ [0]) → apart (things + 4 * i) (4 * Z.of_nat (length (ptrs ++ [0]))) lo f →
  Forall (λ q, 0 < q < 2 ^ 32) ptrs → Forall2 (λ q s, cstr m q s ∧ apart q (Z.of_nat (length s) + 1) lo f) ptrs strs →
  lo + strs_size strs <= f → Forall (λ s, (length s < fuel)%nat) strs → ∃ m' new,
  let f' := f - strs_size strs in
  push_strs (length strs) fuel things i (f, f + d) foo m = Ret ((f', f' + d), foo ++ new, m') ∧
  Forall2 (λ q s, cstr m' (q - d) s ∧ f' <= q - d ∧ q - d + Z.of_nat (length s) < f) new strs ∧ only m m' f' (f - f').
Proof.
  induction strs as [|s strs IH]; intros ptrs i m f foo Hr Hw Hap Hp Hs Hsz Hfu; cbn [push_strs length strs_size].
  { exists m, []. rewrite app_nil_r, Z.sub_0_r. split_and!; [done|constructor|apply only_refl]. }
  inversion Hs as [|q s' ptrs' strs' [Hq Hqa] Hs' E1 E2]; subst. apply Forall_cons in Hp as [Hq0 Hp].
  apply Forall_cons in Hfu as [Hf1 Hfu]. simpl in Hw, Hap, Hsz. destruct Hw as [Hwq Hw].
  rewrite (bind_run _ _ _ _ _ (rd32_ok m (things + 4 * i) q Hwq ltac:(unfold addr32; lia))).
  pose proof (strs_size_pos strs) as Hpos.
  destruct (push_str_ok fuel m f q s Hr ltac:(lia) Hq Hqa Hf1) as (m1 & E & Hc & Ho). set (f1 := f - Z.of_nat (length s) - 1) in *.
  rewrite (bind_run _ _ _ _ _ E). cbn [snd].
  destruct (IH ptrs' (i + 1) m1 f1 (foo ++ [f1 + d])) as (m' & new & E' & Hn & Ho').
  - eapply room_only; [exact Hr|exact Ho|lia].
  - replace (things + 4 * (i + 1)) with (things + 4 * i + 4) by lia. eapply only_words; [exact Ho| |exact Hw].
    intros a Ha. specialize (Hap a). lia.
  - intros a Ha. specialize (Hap a). lia.
  - done.
  - eapply Forall2_impl; [exact Hs'|]. intros q' s' [Hc' Ha']. split.
    + eapply only_cstr; [exact Ho| |done]. eapply apart_narrow; [exact Ha'|lia|lia].
    + eapply apart_narrow; [exact Ha'|lia|lia].
  - lia.
  - done.
  - exists m', ((f1 + d) :: new). replace (f1 - strs_size strs) with (f - (Z.of_nat (length s) + 1 + strs_size strs)) in * by lia.
    rewrite <-(assoc_L (++)) in E'. split_and!; [exact E'| |].
    + constructor.
      * replace (f1 + d - d) with f1 by lia. split; [|lia]. eapply only_cstr; [exact Ho'| |exact Hc]. intros a Ha. lia.
      * eapply Forall2_impl; [exact Hn|]. intros q' s' [? ?]. split; [done|lia].
    + eapply only_trans; [exact Ho|exact Ho'|lia..].
Qed.

Lemma push_addrs_ok addrs : ∀ m f, room m f → lo + 4 * Z.of_nat (length addrs) <= f → ∃ m',
  let f' := f - 4 * Z.of_nat (length addrs) in
  push_addrs (f, f + d) addrs m = Ret ((f', f' + d), m') ∧ words_at m' f' (rev addrs) ∧ only m m' f' (f - f').
Proof.
  induction addrs as [|a addrs IH]; intros m f Hr Hf; cbn [push_addrs length rev].
  { exists m. rewrite Z.sub_0_r. split_and!; [done..|apply only_refl]. }
  simpl length in Hf. destruct (push_arg_ok m f a Hr ltac:(lia)) as (m1 & E & Hw & Ho). rewrite (bind_run _ _ _ _ _ E).
  destruct (IH m1 (f - 4)) as (m' & E' & Hws & Ho'); [eapply room_only; [exact Hr|exact Ho|lia]|lia|].
  exists m'. replace (f - 4 - 4 * Z.of_nat (length addrs)) with (f - 4 * Z.of_nat (S (length addrs))) in * by lia.
  split_and!; [exact E'| |].
  - apply words_at_app. split; [done|]. split; [|done]. rewrite length_rev.
    replace (f - 4 * Z.of_nat (S (length addrs)) + 4 * Z.of_nat (length addrs)) with (f - 4) by lia.
    eapply word_at_ext; [|exact Hw]. intros a' Ha. apply Ho'. lia.
  - eapply only_trans; [exact Ho|exact Ho'|lia..].
Qed.

Lemma strlist_len_ok fuel things ptrs : ∀ m i, (length ptrs < fuel)%nat → words_at m (things + 4 * i) (ptrs ++ [0]) →
  Forall (λ q, 0 < q < 2 ^ 32) ptrs → strlist_len_loop fuel things i m = Ret (i + Z.of_nat (length ptrs), m).
Proof.
  revert ptrs. induction fuel as [|fuel IH]; intros ptrs m i Hf Hw Hp; [lia|]. cbn [strlist_len_loop].
  destruct ptrs as [|q ptrs]; destruct Hw as [Hw Hws].
  - rewrite (bind_run _ _ _ _ _ (rd32_ok m _ 0 Hw ltac:(unfold addr32; lia))). simpl. by rewrite Z.add_0_r.
  - apply Forall_cons in Hp as [Hq Hp]. rewrite (bind_run _ _ _ _ _ (rd32_ok m _ q Hw ltac:(unfold addr32; lia))).
    rewrite truthy_ne by lia. rewrite (IH ptrs); [|simpl in Hf; lia| |done].
    + simpl length. do 2 f_equal. lia.
    + by replace (things + 4 * (i + 1)) with (things + 4 * i + 4) by lia.
Qed.

Lemma copy_strlist_ok fuel m f things strs : room m f → list_apart m things strs lo f → lo + list_size strs <= f →
  (length strs < fuel)%nat → Forall (λ s, (length s < fuel)%nat) strs → ∃ m',
  let f' := f - list_size strs in
  elf_copy_strlist fuel (f, f + d) things m = Ret ((f', f' + d), m') ∧ list_moved m' d top f' strs ∧ only m m' f' (f - f').
Proof.
  intros Hr (ptrs & Hw & Ha & Hp & Hs) Hsz Hf Hfu. unfold list_size in *. pose proof (Forall2_length _ _ _ Hs) as Hl.
  pose proof (strs_size_pos strs) as Hpos. unfold elf_copy_strlist, strlist_len.
  rewrite (bind_run _ _ _ _ _ (strlist_len_ok fuel things ptrs m 0 ltac:(lia) ltac:(by rewrite Z.add_0_r) Hp)).
  rewrite Z.add_0_l, Nat2Z.id, Hl.
  destruct (push_strs_ok fuel things strs ptrs 0 m f [] Hr) as (m1 & new & E1 & Hn & Ho1); rewrite ?Z.add_0_r; try done; [lia|].
  rewrite (bind_run _ _ _ _ _ E1). cbn [fst snd app]. set (f1 := f - strs_size strs) in *.
  pose proof (Forall2_length _ _ _ Hn) as Hln.
  destruct (push_arg_ok m1 f1 0) as (m2 & E2 & Hw2 & Ho2); [eapply room_only; [exact Hr|exact Ho1|lia]|lia|].
  rewrite (bind_run _ _ _ _ _ E2).
  destruct (push_addrs_ok (rev new) m2 (f1 - 4)) as (m3 & E3 & Hw3 & Ho3).
  { eapply room_only; [|exact Ho2|reflexivity || lia]. eapply room_only; [exact Hr|exact Ho1|lia]. }
  { rewrite length_rev. lia. }
  rewrite length_rev, Hln in *. rewrite rev_involutive in Hw3.
  replace (f1 - 4 - 4 * Z.of_nat (length strs)) with (f - (strs_size strs + 4 * (Z.of_nat (length strs) + 1))) in * by lia.
  set (f' := f - (strs_size strs + 4 * (Z.of_nat (length strs) + 1))) in *.
  assert (only m2 m3 f' (f1 - 4 - f')) as Ho3' by (eapply only_widen; [exact Ho3|lia|lia]).
  assert (only m1 m3 f' (f1 - f')) as Ho13 by (eapply only_trans; [exact Ho2|exact Ho3'|lia..]).
  exists m3. split_and!; [exact E3| |eapply only_trans; [exact Ho1|exact Ho13|lia..]].
  exists new. split_and!.
  - apply words_at_app. split; [done|]. rewrite Hln. replace (f' + 4 * Z.of_nat (length strs)) with (f1 - 4) by lia.
    split; [|done]. eapply word_at_ext; [|exact Hw2]. intros a Ha'. apply Ho3'. lia.
  - rewrite length_app, Hln. simpl. destruct Hr. lia.
  - clear -Hn Hd Htd Hr Hsz Hpos Hlo. destruct Hr as [_ Ht]. apply Forall_forall. intros q Hq.
    apply list_elem_of_lookup in Hq as [i Hi]. destruct (Forall2_lookup_l _ _ _ _ _ Hn Hi) as (s & _ & _ & Hb). lia.
  - eapply Forall2_impl; [exact Hn|]. intros q s [Hc Hb]. split; [|destruct Hr; lia]. eapply only_cstr; [exact Ho13| |exact Hc].
    intros a Ha'. lia.
Qed.

(** What the start-up code finds: a null return address, its four parameters
    in the child's addresses, the two arrays. *)
Definition start_stack (m : mem) (f nameserver av ev : Z) (args envs : list (list Z)) : Prop :=
  words_at m f [0; nameserver; av + d; ev + d; C4RT_INIT_MAGIC] ∧ list_moved m d top av args ∧ list_moved m d top ev envs.

Lemma setup_stack_ok fuel m argv envp nameserver args envs : room m top →
  list_apart m argv args lo top → list_apart m envp envs lo top →
  lo + list_size args + list_size envs + 20 <= top → (length args < fuel)%nat → (length envs < fuel)%nat →
  Forall (λ s, (length s < fuel)%nat) args → Forall (λ s, (length s < fuel)%nat) envs → ∃ m' av ev,
  let f' := top - list_size args - list_size envs - 20 in
  setup_stack_params fuel (top, top + d) nameserver argv envp m = Ret ((f', f' + d), m') ∧
  start_stack m' f' nameserver av ev args envs ∧ f' <= av ∧ f' <= ev ∧ only m m' f' (top - f').
Proof.
  intros Hr Ha He Hsz Hla Hle Hfa Hfe.
  assert (4 <= list_size args ∧ 4 <= list_size envs) as [Hpa Hpe].
  { unfold list_size. pose proof (strs_size_pos args). pose proof (strs_size_pos envs). lia. }
  unfold setup_stack_params.
  destruct (copy_strlist_ok fuel m top argv args Hr Ha ltac:(lia) Hla Hfa) as (m1 & E1 & Hm1 & Ho1).
  rewrite (bind_run _ _ _ _ _ E1). cbn [snd]. set (av := top - list_size args) in *.
  assert (room m1 av) as Hr1 by (eapply room_only; [exact Hr|exact Ho1|lia]).
  destruct (copy_strlist_ok fuel m1 av envp envs Hr1) as (m2 & E2 & Hm2 & Ho2); try done; [|lia|].
  { apply (list_apart_narrow _ _ _ lo top); [|lia|lia]. eapply list_apart_only; [exact He|exact Ho1|lia|lia]. }
  rewrite (bind_run _ _ _ _ _ E2). cbn [snd]. set (ev := av - list_size envs) in *.
  assert (room m2 ev) as Hr2 by (eapply room_only; [exact Hr1|exact Ho2|lia]).
  destruct (push_addrs_ok [C4RT_INIT_MAGIC; ev + d; av + d; nameserver; 0] m2 ev Hr2) as (m3 & E3 & Hw & Ho3); [simpl; lia|].
  cbn [length] in *. change (4 * Z.of_nat 5) with 20 in *. exists m3, av, ev.
  assert (only m1 m3 (ev - 20) (av - (ev - 20))) as Ho13 by (eapply only_trans; [exact Ho2|exact Ho3|lia..]).
  replace (top - list_size args - list_size envs - 20) with (ev - 20) by lia.
  split_and!; [exact E3| |lia|lia|eapply only_trans; [exact Ho1|exact Ho13|lia..]].
  split_and!; [exact Hw| |].
  - eapply list_moved_only; [exact Hm1|exact Ho13|lia].
  - eapply list_moved_only; [exact Hm2|exact Ho3|lia].
Qed.
End stack.
