(* ===== verification/ElfSpec.v ===== *)
(** What the loader does: the child's memory holds every segment of the file
    and the stack the start-up code expects, the loader's own memory is as it
    was, and the thread is started last. *)

From S2P Require Import Prelude CString Words Kernel Elf ElfStack.
#[local] Open Scope Z_scope.

(** ** The child's memory *)
Lemma filter_all {A} (P : A → Prop) `{!∀ x, Decision (P x)} l : Forall P l → filter P l = l.
Proof. induction 1 as [|x l Hx _ IH]; [done|]. by rewrite filter_cons_True, IH. Qed.

Definition sep (x y : Z * Z) : Prop := x.1 + x.2 <= y.1 ∨ y.1 + y.2 <= x.1.

(** Ranges, start and size, that do not meet. *)
Fixpoint disjoint (l : list (Z * Z)) : Prop :=
  match l with [] => True | x :: r => Forall (sep x) r ∧ disjoint r end.

#[export] Instance disjoint_perm : Proper ((≡ₚ) ==> impl) disjoint.
Proof.
  intros l l' Hp. induction Hp as [|x l l' Hp IH|x y l|l1 l2 l3 _ IH1 _ IH2]; cbn [disjoint].
  - by intros.
  - intros [Hx Hl]. split; [by rewrite <-Hp|by apply IH].
  - rewrite !Forall_cons. intros [[Hs Hx] [Hy Hl]]. split; [|done]. split; [|done]. unfold sep in *. lia.
  - intros Hl. by apply IH2, IH1.
Qed.

Definition ranges (l : list (Z * list Z)) : list (Z * Z) := map (λ ab, (ab.1, Z.of_nat (length ab.2))) l.

Lemma place_bytes l a bs : disjoint (ranges l) → (a, bs) ∈ l → bytes_at (place l) a bs.
Proof.
  induction l as [|x l IH]; intros Hd Hin; [by apply elem_of_nil in Hin|]. destruct Hd as [Hx Hl]. simpl.
  apply elem_of_cons in Hin as [<-|Hin]; intros j b Hj; rewrite put_bytes_lookup.
  - pose proof (lookup_lt_Some _ _ _ Hj). simpl. rewrite decide_True by lia. rewrite <-Hj. f_equal. lia.
  - assert (sep (x.1, Z.of_nat (length x.2)) (a, Z.of_nat (length bs))) as Hs.
    { apply (proj1 (Forall_forall _ _) Hx). apply (list_elem_of_fmap_2 (λ ab : Z * list Z, (ab.1, Z.of_nat (length ab.2))) l (a, bs) Hin). }
    unfold sep in Hs. simpl in Hs. pose proof (lookup_lt_Some _ _ _ Hj). rewrite decide_False by lia. by apply IH.
Qed.

(** ** The window

    [m0] has nothing in the addresses the loader maps pages at. *)
Definition WINDOW : Z := 0xda000000.
Definition WINDOW_SIZE : Z := 0x6000000.
Definition window_free (m0 : mem) : Prop := ∀ a, WINDOW <= a < WINDOW + WINDOW_SIZE → m0 !! a = None.

Lemma window_back m0 (bs : list Z) m1 : window_free m0 → Z.of_nat (length bs) <= WINDOW_SIZE →
  only (put_bytes WINDOW bs m0) m1 WINDOW (Z.of_nat (length bs)) → drop_bytes WINDOW (length bs) m1 = m0.
Proof.
  intros Hf Hl [Ho _]. apply map_eq. intros a. rewrite drop_bytes_lookup. destruct (decide _) as [Ha|Ha].
  - rewrite Hf by lia. done.
  - rewrite Ho by done. by rewrite put_bytes_lookup, decide_False by done.
Qed.

Lemma put_bytes_apart m0 (bs : list Z) p n : window_free m0 → Z.of_nat (length bs) <= WINDOW_SIZE → CString.mapped m0 p n →
  apart p n WINDOW (WINDOW + Z.of_nat (length bs)).
Proof. intros Hf Hl Hm a Ha Hw. destruct (Hm a Ha) as [b Hb]. rewrite Hf in Hb by lia. done. Qed.

Lemma put_bytes_other m0 bs a b : window_free m0 → Z.of_nat (length bs) <= WINDOW_SIZE → m0 !! a = Some b →
  put_bytes WINDOW bs m0 !! a = Some b.
Proof.
  intros Hf Hl Ha. rewrite put_bytes_lookup. destruct (decide _) as [Hw|]; [|done]. rewrite Hf in Ha by lia. done.
Qed.

(** The page read back when it is unmapped. *)
Lemma take_bytes_at m p n q bs : bytes_at m q bs → p <= q → q + Z.of_nat (length bs) <= p + Z.of_nat n →
  ∀ j b, bs !! j = Some b → take_bytes p n m !! (Z.to_nat (q - p) + j)%nat = Some b.
Proof.
  intros Hb Hp Hq j b Hj. pose proof (lookup_lt_Some _ _ _ Hj). rewrite take_bytes_lookup by lia.
  rewrite <-(Hb _ _ Hj). replace (p + Z.of_nat (Z.to_nat (q - p) + j)) with (q + Z.of_nat j) by lia.
  by rewrite (Hb _ _ Hj).
Qed.

Section load.
Context `{KernelEnv} (blank : nat → nat → Z) (BOOTINFO_ADDR : Z) (page_allot : Z → K Z).

(** Calls about threads: creating one, giving it its spaces and its pager,
    starting it. *)
Definition thread_call (c : kcall) : bool :=
  bool_decide (cnum c ∈ [SYSCALL_THREAD_CREATE; SYSCALL_THREAD_SET_ADDRSPACE; SYSCALL_THREAD_SET_CAPSPACE; SYSCALL_THREAD_SET_PAGER; SYSCALL_THREAD_CONTINUE]).

(** The kernel takes every mapping it is asked for, and pages are handed out
    without touching threads. *)
Record obliging : Prop := {
  ob_map : ∀ l buf h, 0 <= i32 (kernel (mk_call SYSCALL_ADDRSPACE_MAP l buf :: h)).1;
  ob_unmap : ∀ l buf h, 0 <= i32 (kernel (mk_call SYSCALL_ADDRSPACE_UNMAP l buf :: h)).1;
  ob_allot : ∀ n h, ∃ f cs, page_allot n h = Ret (f, cs ++ h) ∧ 0 < f ∧ Forall (λ c, thread_call c = false) cs
}.
Context (Hob : obliging).

(** Calls none of which is about a thread. *)
Definition quiet (cs : list kcall) : Prop := Forall (λ c, thread_call c = false) cs.

Lemma quiet_run_app cs ds : quiet (cs ++ ds) ↔ quiet cs ∧ quiet ds.
Proof. unfold quiet. by rewrite Forall_app. Qed.

Lemma quiet_cons c cs : quiet (c :: cs) ↔ thread_call c = false ∧ quiet cs.
Proof. unfold quiet. by rewrite Forall_cons. Qed.

Lemma lm_ok {A} (m : M mem A) a m1 h m0 objs caps win ch : m m0 = Ret (a, m1) →
  lm m (mk_loader h m0 objs caps win ch) = Ret (a, mk_loader h m1 objs caps win ch).
Proof. intros E. unfold lm, zoom. simpl. by rewrite E. Qed.

Lemma lk_ok {A} (m : K A) a cs h m0 objs caps win ch : m h = Ret (a, cs ++ h) →
  lk m (mk_loader h m0 objs caps win ch) = Ret (a, mk_loader (cs ++ h) m0 objs caps win ch).
Proof. intros E. unfold lk, zoom. simpl. by rewrite E. Qed.

Lemma lk_sys n a b c d h m0 objs caps win ch : let e := mk_call n [a; b; c; d] no_msg in
  lk (sys n a b c d) (mk_loader h m0 objs caps win ch) = Ret (i32 (kernel (e :: h)).1, mk_loader (e :: h) m0 objs caps win ch).
Proof. done. Qed.

Lemma length_fresh o n : length (fresh_pages blank o n) = Z.to_nat (n * PAGE_SIZE).
Proof. unfold fresh_pages. by rewrite length_map, length_seq. Qed.

Lemma allot_ok n h m0 objs caps win ch : ∃ f cs, quiet cs ∧
  allot blank page_allot n (mk_loader h m0 objs caps win ch) =
  Ret (f, mk_loader (cs ++ h) m0 (objs ++ [fresh_pages blank (length objs) n]) (<[f := length objs]> caps) win ch).
Proof.
  destruct (ob_allot Hob n h) as (f & cs & E & Hf & Hq). exists f, cs. split; [done|].
  unfold allot. rewrite (bind_run _ _ _ _ _ (lk_ok _ _ _ _ _ _ _ _ _ E)). by rewrite (proj2 (Z.ltb_lt 0 f)) by done.
Qed.

Lemma map_own_ok frame addr p h m0 objs caps win ch o bs : caps !! frame = Some o → objs !! o = Some bs → addr32 addr → ∃ k c,
  quiet [c] ∧ map_own frame addr p (mk_loader h m0 objs caps win ch) =
  Ret (k, mk_loader (c :: h) (put_bytes addr bs m0) objs caps (<[addr := o]> win) ch).
Proof.
  intros Hc Ho Ha. unfold map_own, c4_addrspace_map. eexists _, _. split; [|rewrite (bind_run _ _ _ _ _ (lk_sys _ _ _ _ _ _ _ _ _ _ _))].
  2:{ unfold mbind, M_bind, get. cbn [l_caps l_win]. rewrite (proj2 (Z.leb_le _ _) (ob_map Hob _ _ _)). rewrite Hc. unfold modify, attach. cbn. rewrite Ho, (u32_small addr Ha). reflexivity. }
  by repeat constructor.
Qed.

Lemma map_child_ok frame aspace addr p h m0 objs caps win ch o : caps !! frame = Some o → addr32 addr → ∃ k c,
  quiet [c] ∧ map_child aspace frame addr p (mk_loader h m0 objs caps win ch) =
  Ret (k, mk_loader (c :: h) m0 objs caps win ((u32 aspace, addr, o) :: ch)).
Proof.
  intros Hc Ha. unfold map_child, c4_addrspace_map. eexists _, _. split; [|rewrite (bind_run _ _ _ _ _ (lk_sys _ _ _ _ _ _ _ _ _ _ _))].
  2:{ unfold mbind, M_bind, get. cbn [l_caps l_win]. rewrite (proj2 (Z.leb_le _ _) (ob_map Hob _ _ _)). rewrite Hc. unfold modify, give. cbn. rewrite (u32_small addr Ha). reflexivity. }
  by repeat constructor.
Qed.

Lemma unmap_own_ok addr h m1 objs caps ch o bs : objs !! o = Some bs → addr32 addr → ∃ k c,
  quiet [c] ∧ unmap_own addr (mk_loader h m1 objs caps {[addr := o]} ch) =
  Ret (k, mk_loader (c :: h) (drop_bytes addr (length bs) m1) (<[o := take_bytes addr (length bs) m1]> objs) caps ∅ ch).
Proof.
  intros Ho Ha. unfold unmap_own, c4_addrspace_unmap. eexists _, _. split; [|rewrite (bind_run _ _ _ _ _ (lk_sys _ _ _ _ _ _ _ _ _ _ _))].
  2:{ unfold mbind, M_bind, get. cbn [l_caps l_win]. rewrite (proj2 (Z.leb_le _ _) (ob_unmap Hob _ _ _)). rewrite (u32_small addr Ha), lookup_singleton_eq. unfold modify, detach. cbn. rewrite Ho, delete_singleton_eq. reflexivity. }
  by repeat constructor.
Qed.

Lemma move_frame_ok frame cspace slot h m0 objs caps win ch : ∃ k caps',
  move_frame frame cspace slot (mk_loader h m0 objs caps win ch) =
  Ret (k, mk_loader (mk_call SYSCALL_CSPACE_CAP_MOVE [C4_CURRENT_CSPACE; u32 frame; u32 cspace; u32 slot] no_msg :: h) m0 objs caps' win ch).
Proof.
  unfold move_frame, c4_cspace_move. rewrite (bind_run _ _ _ _ _ (lk_sys _ _ _ _ _ _ _ _ _ _ _)).
  set (e := mk_call SYSCALL_CSPACE_CAP_MOVE _ no_msg).
  destruct (0 <=? i32 (kernel (e :: h)).1); eexists _, _; reflexivity.
Qed.

Definition pages_of (objs : list (list Z)) (ch : list (Z * Z * nat)) : list (Z * list Z) := map (λ e, (e.1.2, default [] (objs !! e.2))) ch.
Definition live (objs : list (list Z)) (ch : list (Z * Z * nat)) : Prop := Forall (λ e, (e.2 < length objs)%nat) ch.

Lemma pages_of_app objs x ch : live objs ch → pages_of (objs ++ [x]) ch = pages_of objs ch.
Proof.
  intros Hl. unfold pages_of. apply map_ext_in. intros ao Hin. f_equal. f_equal. apply lookup_app_l.
  apply list_elem_of_In in Hin. by apply (proj1 (Forall_forall _ _) Hl).
Qed.

(** Pages are allotted, mapped on both sides, written through the window and
    unmapped: the child has what was written, the loader what it had. *)
Lemma session_ok {A} (body : M mem A) frame aspace adj h m0 objs caps ch bs (P : A → mem → Prop) :
  window_free m0 → Z.of_nat (length bs) <= WINDOW_SIZE → addr32 adj → live objs ch → caps !! frame = Some (length objs) →
  (∃ a m1, body (put_bytes WINDOW bs m0) = Ret (a, m1) ∧ P a m1 ∧ only (put_bytes WINDOW bs m0) m1 WINDOW (Z.of_nat (length bs))) →
  ∃ a m1 cs, quiet cs ∧ P a m1 ∧ ∀ B (k : A → L B),
    (map_own frame WINDOW PAGE_RW;; map_child aspace frame adj PAGE_RW;; a ← lm body; unmap_own WINDOW;; k a)
      (mk_loader h m0 (objs ++ [bs]) caps ∅ ch) =
    k a (mk_loader (cs ++ h) m0 (objs ++ [take_bytes WINDOW (length bs) m1]) caps ∅ ((u32 aspace, adj, length objs) :: ch)).
Proof.
  intros Hf Hlen Hadj Hl Hc (a & m1 & Eb & HP & Ho).
  assert ((objs ++ [bs]) !! length objs = Some bs) as Hob1 by (rewrite lookup_app_r by lia; by rewrite Nat.sub_diag).
  assert (addr32 WINDOW) as HW by (unfold addr32, WINDOW; lia).
  destruct (map_own_ok frame WINDOW PAGE_RW h m0 _ caps ∅ ch _ _ Hc Hob1 HW) as (k1 & c1 & Hq1 & E1).
  destruct (map_child_ok frame aspace adj PAGE_RW (c1 :: h) (put_bytes WINDOW bs m0) (objs ++ [bs]) caps
    {[WINDOW := length objs]} ch _ Hc Hadj) as (k2 & c2 & Hq2 & E2).
  destruct (unmap_own_ok WINDOW (c2 :: c1 :: h) m1 (objs ++ [bs]) caps ((u32 aspace, adj, length objs) :: ch) _ _ Hob1 HW) as (k3 & c3 & Hq3 & E3).
  exists a, m1, [c3; c2; c1]. split; [|split; [done|]].
  { apply quiet_cons in Hq1 as [? _]. apply quiet_cons in Hq2 as [? _]. apply quiet_cons in Hq3 as [? _]. by repeat constructor. }
  intros B k. rewrite (bind_run _ _ _ _ _ E1), (bind_run _ _ _ _ _ E2), (bind_run _ _ _ _ _ (lm_ok _ _ _ _ _ _ _ _ _ Eb)), (bind_run _ _ _ _ _ E3).
  rewrite (window_back m0 bs m1) by done. rewrite insert_app_r_alt by lia. by rewrite Nat.sub_diag.
Qed.

(** ** Segments *)

(** A program header and the bytes of the file it names. *)
Record segment := mk_segment { sg_header : Z; sg_off : Z; sg_vaddr : Z; sg_memsz : Z; sg_bytes : list Z }.

Definition sg_pages (sg : segment) : Z := sg_memsz sg / PAGE_SIZE + Z.b2z (0 <? sg_memsz sg mod PAGE_SIZE).
Definition sg_base (sg : segment) : Z := sg_vaddr sg - sg_vaddr sg mod PAGE_SIZE.

Record segment_ok (m : mem) (elf : Z) (sg : segment) : Prop := {
  so_off : word_at m (sg_header sg + 4) (sg_off sg) ∧ addr32 (sg_off sg);
  so_vaddr : word_at m (sg_header sg + 8) (sg_vaddr sg) ∧ addr32 (sg_vaddr sg);
  so_filesz : word_at m (sg_header sg + 16) (Z.of_nat (length (sg_bytes sg))) ∧ addr32 (Z.of_nat (length (sg_bytes sg)));
  so_memsz : word_at m (sg_header sg + 20) (sg_memsz sg) ∧ addr32 (sg_memsz sg);
  so_bytes : bytes_at m (u32 (elf + sg_off sg)) (sg_bytes sg);
  so_byte : Forall (λ b, 0 <= b < 256) (sg_bytes sg);
  (* the bytes end inside the pages allotted for the size in memory *)
  so_fits : sg_vaddr sg mod PAGE_SIZE + Z.of_nat (length (sg_bytes sg)) <= sg_pages sg * PAGE_SIZE;
  so_window : sg_pages sg * PAGE_SIZE <= WINDOW_SIZE
}.

(** The segment is in the page. *)
Definition holds (page : Z * list Z) (sg : segment) : Prop :=
  page.1 = sg_base sg ∧ Z.of_nat (length page.2) = sg_pages sg * PAGE_SIZE ∧
  ∀ j b, sg_bytes sg !! j = Some b → page.2 !! (Z.to_nat (sg_vaddr sg mod PAGE_SIZE) + j)%nat = Some b.

Lemma copy_loop_ok fuel m header data off bs todo : ∀ k done_, bs = done_ ++ todo → k = Z.of_nat (length done_) →
  (length todo < fuel)%nat → ∀ lo n, 0 <= off → off + Z.of_nat (length bs) < 2 ^ 32 →
  lo = data + off → n = Z.of_nat (length bs) → CString.mapped m lo n → Forall (λ b, 0 <= b < 256) bs →
  word_at m (header + 16) n → apart (header + 16) 4 lo (lo + n) →
  ∀ prog, bytes_at m prog bs → apart prog n lo (lo + n) → bytes_at m lo done_ → ∃ m',
  copy_loop fuel header data off prog k m = Ret (tt, m') ∧ bytes_at m' lo bs ∧ only m m' lo n.
Proof.
  revert m todo. induction fuel as [|fuel IH]; intros m todo k done_ Hbs Hk Hf lo n Hoff Hsm Hlo Hn Hm Hby Hw Hwa prog Hp Hpa Hd; [lia|].
  cbn [copy_loop]. unfold p_filesz. rewrite (bind_run _ _ _ _ _ (rd32_ok m _ n Hw ltac:(unfold addr32; lia))).
  assert (length bs = (length done_ + length todo)%nat) as Hl by (by rewrite Hbs, length_app).
  destruct todo as [|b todo]; simpl in Hl.
  - rewrite (proj2 (Z.ltb_ge k n)) by lia. exists m. split_and!; [done| |apply only_refl].
    by rewrite Hbs, app_nil_r.
  - rewrite (proj2 (Z.ltb_lt k n)) by lia.
    assert (bs !! length done_ = Some b) as Hb by (rewrite Hbs, lookup_app_r by lia; by rewrite Nat.sub_diag).
    assert (m !! (prog + k) = Some b) as Hpb by (rewrite Hk; by apply Hp).
    rewrite (bind_run _ _ _ _ _ (rd_ok m _ b Hpb)). rewrite (u32_small (k + off)) by lia.
    destruct (Hm (lo + k)) as [old Eold]; [lia|]. replace (data + (k + off)) with (lo + k) by lia.
    rewrite (bind_run _ _ _ _ _ (wr_ok m _ b old Eold)).
    pose proof (proj1 (Forall_forall _ _) Hby b ltac:(by eapply list_elem_of_lookup_2)) as Hb8.
    cbv beta in Hb8. replace (u8 b) with b by (symmetry; apply wrapu_small; lia).
    assert (only m (<[lo + k := b]> m) lo n) as Ho.
    { split; [intros a Ha; rewrite lookup_insert_ne; [done|lia]|]. intros a Ha. apply lookup_insert_is_Some'. by right. }
    destruct (IH (<[lo + k := b]> m) todo (k + 1) (done_ ++ [b])) with (lo := lo) (n := n) (prog := prog) as (m' & E & Hb' & Ho'); try done.
    + by rewrite <-(assoc_L (++)).
    + rewrite length_app. simpl. lia.
    + simpl in Hf. lia.
    + by eapply only_mapped.
    + eapply word_at_ext; [|exact Hw]. intros a Ha. by apply Ho, Hwa.
    + eapply bytes_at_ext; [|exact Hp]. intros a Ha. apply Ho, Hpa. lia.
    + apply bytes_at_app. split.
      * eapply bytes_at_ext; [|exact Hd]. intros a Ha. rewrite lookup_insert_ne; [done|lia].
      * intros j b' Hj. destruct j as [|j]; [|done]. injection Hj as <-. rewrite Hk, Z.add_0_r. apply lookup_insert_eq.
    + exists m'. split_and!; [exact E|done|]. eapply only_trans; [exact Ho|exact Ho'|lia..].
Qed.

Lemma bytes_at_put m0 (x : list Z) p bs : window_free m0 → Z.of_nat (length x) <= WINDOW_SIZE → bytes_at m0 p bs →
  bytes_at (put_bytes WINDOW x m0) p bs.
Proof. intros Hf Hl Hb j b Hj. apply put_bytes_other; [done|done|]. by apply Hb. Qed.

Lemma bytes_at_apart m0 (x : list Z) p bs : window_free m0 → Z.of_nat (length x) <= WINDOW_SIZE → bytes_at m0 p bs →
  apart p (Z.of_nat (length bs)) WINDOW (WINDOW + Z.of_nat (length x)).
Proof. intros Hf Hl Hb. eapply put_bytes_apart; [done|done|]. by apply bytes_at_mapped. Qed.

Lemma word_at_apart m0 (x : list Z) p v : window_free m0 → Z.of_nat (length x) <= WINDOW_SIZE → word_at m0 p v →
  apart p 4 WINDOW (WINDOW + Z.of_nat (length x)).
Proof. apply (bytes_at_apart m0 x p (le32 v)). Qed.

(** The file: its header, and a program header for each segment. *)
Record image_ok (m : mem) (elf entry phoff size : Z) (segs : list segment) : Prop := {
  io_entry : word_at m (elf + 24) entry ∧ addr32 entry;
  io_phoff : word_at m (elf + 28) phoff ∧ addr32 phoff;
  io_size : bytes_at m (elf + 42) [size mod 256; size / 256];
  io_phnum : bytes_at m (elf + 44) [Z.of_nat (length segs) mod 256; Z.of_nat (length segs) / 256];
  io_headers : ∀ i sg, segs !! i = Some sg → sg_header sg = u32 (u32 (elf + phoff) + u32 (size * Z.of_nat i));
  io_segs : Forall (segment_ok m elf) segs
}.

Lemma rd16_split m p v : bytes_at m p [v mod 256; v / 256] → rd16 p m = Ret (v, m).
Proof. intros Hb. rewrite (rd16_ok _ _ _ _ Hb). do 2 f_equal. pose proof (Z.div_mod v 256). lia. Qed.

Lemma get_phdr_ok m elf entry phoff size segs i sg : image_ok m elf entry phoff size segs → segs !! i = Some sg →
  elf_get_phdr elf (Z.of_nat i) m = Ret (sg_header sg, m).
Proof.
  intros Hi Hs. unfold elf_get_phdr, e_phnum, e_phoff, e_phentsize.
  rewrite (bind_run _ _ _ _ _ (rd16_split _ _ _ (io_phnum _ _ _ _ _ _ Hi))).
  pose proof (lookup_lt_Some _ _ _ Hs). rewrite (proj2 (Z.ltb_lt _ _)) by lia.
  destruct (io_phoff _ _ _ _ _ _ Hi) as [Hp Hp32].
  rewrite (bind_run _ _ _ _ _ (rd32_ok _ _ _ Hp Hp32)), (bind_run _ _ _ _ _ (rd16_split _ _ _ (io_size _ _ _ _ _ _ Hi))).
  by rewrite (io_headers _ _ _ _ _ _ Hi _ _ Hs).
Qed.

Lemma sg_base_32 sg : addr32 (sg_vaddr sg) → u32 (sg_vaddr sg - sg_vaddr sg mod PAGE_SIZE) = sg_base sg ∧ addr32 (sg_base sg).
Proof.
  unfold addr32, sg_base, PAGE_SIZE. intros Hv. pose proof (Z.mod_pos_bound (sg_vaddr sg) 4096 ltac:(lia)).
  pose proof (Z.mod_le (sg_vaddr sg) 4096 ltac:(lia) ltac:(lia)). rewrite u32_small by lia. lia.
Qed.

Lemma sg_pages_32 sg : addr32 (sg_memsz sg) → 0 <= sg_pages sg < 2 ^ 32.
Proof.
  unfold addr32, sg_pages, PAGE_SIZE. intros Hv. pose proof (Z.div_pos (sg_memsz sg) 4096 ltac:(lia) ltac:(lia)).
  assert (sg_memsz sg / 4096 < 2 ^ 20) by (apply Z.div_lt_upper_bound; lia). destruct (0 <? _); simpl Z.b2z; lia.
Qed.

Lemma load_segment_ok fuel elf entry phoff size segs aspace cspace i sg h m0 objs caps ch :
  image_ok m0 elf entry phoff size segs → window_free m0 → live objs ch → segs !! i = Some sg →
  (length (sg_bytes sg) < fuel)%nat → ∃ cs caps' page frame,
  load_segment blank fuel page_allot elf aspace cspace (Z.of_nat i) (mk_loader h m0 objs caps ∅ ch) =
  Ret (tt, mk_loader (cs ++ h) m0 (objs ++ [page]) caps' ∅ ((u32 aspace, sg_base sg, length objs) :: ch)) ∧
  holds (sg_base sg, page) sg ∧ quiet cs ∧
  mk_call SYSCALL_CSPACE_CAP_MOVE [C4_CURRENT_CSPACE; frame; u32 cspace; u32 (Z.of_nat i + C4_DEFAULT_OBJECT_END)] no_msg ∈ cs.
Proof.
  intros Hi Hfree Hlive Hs Hf. pose proof (proj1 (Forall_forall _ _) (io_segs _ _ _ _ _ _ Hi) sg ltac:(by eapply list_elem_of_lookup_2)) as
    [[Hof Hof32] [Hva Hva32] [Hfz Hfz32] [Hms Hms32] Hby Hb8 Hfits Hwin].
  destruct (sg_base_32 sg Hva32) as [Eb Hb32]. pose proof (sg_pages_32 sg Hms32) as Hp32.
  unfold load_segment, p_offset, p_vaddr, p_memsz.
  rewrite (bind_run _ _ _ _ _ (lm_ok _ _ _ h _ objs caps ∅ ch (get_phdr_ok _ _ _ _ _ _ _ _ Hi Hs))).
  rewrite (bind_run _ _ _ _ _ (lm_ok _ _ _ h _ objs caps ∅ ch (rd32_ok _ _ _ Hof Hof32))).
  rewrite (bind_run _ _ _ _ _ (lm_ok _ _ _ h _ objs caps ∅ ch (rd32_ok _ _ _ Hva Hva32))).
  rewrite (bind_run _ _ _ _ _ (lm_ok _ _ _ h _ objs caps ∅ ch (rd32_ok _ _ _ Hms Hms32))).
  fold (sg_pages sg). rewrite (u32_small (sg_pages sg)) by done. rewrite Eb.
  destruct (allot_ok (sg_pages sg) h m0 objs caps ∅ ch) as (frame & cs1 & Hq1 & E1). rewrite (bind_run _ _ _ _ _ E1).
  pose proof (length_fresh (length objs) (sg_pages sg)) as Hlf. set (bs := fresh_pages blank (length objs) (sg_pages sg)) in *.
  change 0xda000000 with WINDOW.
  assert (0 <= sg_vaddr sg mod PAGE_SIZE < PAGE_SIZE) as Hmod by (apply Z.mod_pos_bound; done).
  assert (Z.of_nat (length bs) = sg_pages sg * PAGE_SIZE) as Hlbs by (unfold PAGE_SIZE in *; lia).
  set (off := sg_vaddr sg mod PAGE_SIZE) in *.
  destruct (session_ok (copy_loop fuel (sg_header sg) WINDOW off (u32 (elf + sg_off sg)) 0) frame aspace (sg_base sg)
    (cs1 ++ h) m0 objs (<[frame := length objs]> caps) ch bs (λ _ m1, bytes_at m1 (WINDOW + off) (sg_bytes sg)))
    as ([] & m1 & cs2 & Hq2 & HP & Ek); [done|lia|done|done|apply lookup_insert_eq| |].
  { assert (only (put_bytes WINDOW bs m0) (put_bytes WINDOW bs m0) 0 0) as Hself by apply only_refl.
    destruct (copy_loop_ok fuel (put_bytes WINDOW bs m0) (sg_header sg) WINDOW off (sg_bytes sg) (sg_bytes sg) 0 [])
      with (lo := WINDOW + off) (n := Z.of_nat (length (sg_bytes sg))) (prog := u32 (elf + sg_off sg)) as (m1 & Ec & Hb1 & Ho1); try done.
    - lia.
    - unfold WINDOW_SIZE in *. lia.
    - intros a Ha. apply (put_bytes_mapped WINDOW bs m0). lia.
    - apply bytes_at_put; [done|lia|done].
    - eapply apart_narrow; [eapply (word_at_apart m0 bs); [done|lia|exact Hfz]|lia|lia].
    - apply bytes_at_put; [done|lia|done].
    - eapply apart_narrow; [eapply (bytes_at_apart m0 bs); [done|lia|exact Hby]|lia|lia].
    - exists tt, m1. split_and!; [exact Ec|exact Hb1|eapply only_widen; [exact Ho1|lia|lia]]. }
  rewrite Ek. destruct (move_frame_ok frame cspace (Z.of_nat i + C4_DEFAULT_OBJECT_END) (cs2 ++ cs1 ++ h) m0
    (objs ++ [take_bytes WINDOW (length bs) m1]) (<[frame := length objs]> caps) ∅ ((u32 aspace, sg_base sg, length objs) :: ch)) as (k & caps' & Em).
  rewrite (bind_run _ _ _ _ _ Em).
  set (mv := mk_call _ _ _). exists (mv :: cs2 ++ cs1), caps', (take_bytes WINDOW (length bs) m1), (u32 frame).
  split_and!.
  - unfold mret, M_ret. by rewrite (assoc_L (++)).
  - unfold holds. cbn [fst snd]. rewrite length_take_bytes. split_and!; [done|done|]. intros j b Hj.
    replace (Z.to_nat (sg_vaddr sg mod PAGE_SIZE)) with (Z.to_nat (WINDOW + off - WINDOW)) by (fold off; f_equal; lia).
    eapply take_bytes_at; [exact HP|lia|lia|done].
  - apply quiet_cons. split; [done|]. by apply quiet_run_app.
  - by left.
Qed.

Definition sg_range (sg : segment) : Z * Z := (sg_base sg, sg_pages sg * PAGE_SIZE).

Definition move_call (frame cspace slot : Z) : kcall :=
  mk_call SYSCALL_CSPACE_CAP_MOVE [C4_CURRENT_CSPACE; frame; u32 cspace; u32 slot] no_msg.

Lemma segments_loop_ok fuel elf entry phoff size segs aspace cspace m0 :
  image_ok m0 elf entry phoff size segs → window_free m0 → Forall (λ sg, (length (sg_bytes sg) < fuel)%nat) segs →
  ∀ post pre turns h objs caps ch, segs = pre ++ post → live objs ch → (length post < turns)%nat →
  ∃ cs objs' caps' ch' new, segments_loop blank turns fuel page_allot elf aspace cspace (Z.of_nat (length pre))
      (mk_loader h m0 objs caps ∅ ch) = Ret (tt, mk_loader (cs ++ h) m0 objs' caps' ∅ ch') ∧
    quiet cs ∧ live objs' ch' ∧ pages_of objs' ch' = rev new ++ pages_of objs ch ∧ Forall2 holds new post ∧
    (Forall (λ e, e.1.1 = u32 aspace) ch → Forall (λ e, e.1.1 = u32 aspace) ch') ∧
    ∀ j, (j < length post)%nat → ∃ frame, move_call frame cspace (Z.of_nat (length pre + j) + C4_DEFAULT_OBJECT_END) ∈ cs.
Proof.
  intros Hi Hfree Hfu. induction post as [|sg post IH]; intros pre turns h objs caps ch Hs Hl Ht;
    (destruct turns as [|turns]; [simpl in Ht; lia|]); cbn [segments_loop]; unfold e_phnum;
    rewrite (bind_run _ _ _ _ _ (lm_ok _ _ _ h _ objs caps ∅ ch (rd16_split _ _ _ (io_phnum _ _ _ _ _ _ Hi)))).
  - rewrite app_nil_r in Hs. subst pre. rewrite (proj2 (Z.ltb_ge _ _)) by lia.
    exists [], objs, caps, ch, []. split_and!; [done|constructor|done|done|constructor|done|]. intros j Hj. simpl in Hj. lia.
  - assert (segs !! length pre = Some sg) as Hsg by (rewrite Hs, lookup_app_r by lia; by rewrite Nat.sub_diag).
    pose proof (lookup_lt_Some _ _ _ Hsg). rewrite (proj2 (Z.ltb_lt _ _)) by lia.
    destruct (load_segment_ok fuel elf entry phoff size segs aspace cspace (length pre) sg h m0 objs caps ch)
      as (cs1 & caps1 & page & frame & E1 & Hh & Hq1 & Hmv); try done.
    { apply (proj1 (Forall_forall _ _) Hfu sg). by eapply list_elem_of_lookup_2. }
    rewrite (bind_run _ _ _ _ _ E1). replace (Z.of_nat (length pre) + 1) with (Z.of_nat (length (pre ++ [sg]))) by (rewrite length_app; simpl; lia).
    destruct (IH (pre ++ [sg]) turns (cs1 ++ h) (objs ++ [page]) caps1 ((u32 aspace, sg_base sg, length objs) :: ch))
      as (cs2 & objs' & caps' & ch' & new & E2 & Hq2 & Hl' & Hp & Hn & Hsp & Hmvs).
    + by rewrite <-(assoc_L (++)).
    + constructor; [simpl; rewrite length_app; simpl; lia|]. eapply Forall_impl; [exact Hl|]. intros ao. rewrite length_app. lia.
    + simpl in Ht. lia.
    + exists (cs2 ++ cs1), objs', caps', ch', ((sg_base sg, page) :: new). split_and!.
      * by rewrite E2, (assoc_L (++)).
      * by apply quiet_run_app.
      * done.
      * rewrite Hp. cbn [pages_of map rev fst snd]. rewrite lookup_app_r, Nat.sub_diag by lia. cbn. rewrite <-(assoc_L (++)).
        f_equal. cbn. f_equal. by apply pages_of_app.
      * by constructor.
      * intros Hch. apply Hsp. by constructor.
      * intros j Hj. destruct j as [|j].
        -- exists frame. rewrite Nat.add_0_r. apply elem_of_app. by right.
        -- destruct (Hmvs j) as [f Hf]; [simpl in Hj; lia|]. exists f. apply elem_of_app. left.
           rewrite length_app in Hf. simpl in Hf. by replace (length pre + S j)%nat with (length pre + 1 + j)%nat by lia.
Qed.

(** ** The process *)

(** A capability of the loader's copied to a slot of the child's space. *)
Definition copy_call (object cspace slot : Z) : kcall :=
  mk_call SYSCALL_CSPACE_CAP_COPY [C4_CURRENT_CSPACE; object; u32 cspace; slot] no_msg.

(** The capabilities every child is given, and where. *)
Definition given (msgq aspace cspace pager nameserver : Z) (cs : list kcall) : Prop :=
  copy_call (u32 msgq) cspace C4_SERV_PORT ∈ cs ∧ copy_call (u32 aspace) cspace C4_CURRENT_ADDRSPACE ∈ cs ∧
  copy_call C4_BOOT_INFO cspace C4_BOOT_INFO ∈ cs ∧ copy_call (u32 pager) cspace C4_PAGER ∈ cs ∧
  (nameserver ≠ 0 → copy_call (u32 nameserver) cspace C4_NAMESERVER ∈ cs).

Lemma give_capabilities_ok msgq aspace cspace pager nameserver h : ∃ cs,
  give_capabilities msgq aspace cspace pager nameserver h = Ret (tt, cs ++ h) ∧ quiet cs ∧ given msgq aspace cspace pager nameserver cs.
Proof.
  unfold give_capabilities, truthy. destruct (Z.eqb_spec nameserver 0) as [->|Hn]; cbn [negb].
  - eexists [_; _; _; _]. split; [reflexivity|]. split; [by repeat constructor|]. unfold given. rewrite !elem_of_cons. naive_solver.
  - eexists [_; _; _; _; _; _]. split; [reflexivity|]. split; [by repeat constructor|]. unfold given. rewrite !elem_of_cons. naive_solver.
Qed.

Definition to_stack : Z := 0xa0000000.
Definition stack_top : Z := 0xfe0.

(** What the start-up code finds at its stack pointer: a null return address
    and its parameters, with both string arrays. *)
Definition started (m : mem) (sp nameserver : Z) (args envs : list (list Z)) : Prop := ∃ av ev,
  words_at m sp [0; nameserver; av; ev; C4RT_INIT_MAGIC] ∧ addr32 av ∧ addr32 ev ∧ strlist m av args ∧ strlist m ev envs.

(** Where the stack pointer ends up. *)
Definition start_sp (args envs : list (list Z)) : Z := to_stack + stack_top - list_size args - list_size envs - 20.

Record loadable (fuel turns : nat) (m0 : mem) (elf argv envp entry phoff size : Z) (segs : list segment) (args envs : list (list Z)) : Prop := {
  ld_image : image_ok m0 elf entry phoff size segs;
  ld_window : window_free m0;
  ld_ranges : disjoint ((to_stack, PAGE_SIZE) :: map sg_range segs);
  ld_args : list_apart m0 argv args WINDOW (WINDOW + WINDOW_SIZE);
  ld_envs : list_apart m0 envp envs WINDOW (WINDOW + WINDOW_SIZE);
  ld_size : list_size args + list_size envs + 20 <= stack_top;
  ld_fuel : (length args < fuel)%nat ∧ (length envs < fuel)%nat ∧ Forall (λ s, (length s < fuel)%nat) args ∧
            Forall (λ s, (length s < fuel)%nat) envs ∧ Forall (λ sg, (length (sg_bytes sg) < fuel)%nat) segs;
  ld_turns : (length segs < turns)%nat
}.

Lemma list_apart_put m0 (bs : list Z) p strs : window_free m0 → Z.of_nat (length bs) <= WINDOW_SIZE →
  list_apart m0 p strs WINDOW (WINDOW + WINDOW_SIZE) → list_apart (put_bytes WINDOW bs m0) p strs WINDOW (WINDOW + WINDOW_SIZE).
Proof.
  intros Hf Hl (ptrs & Hw & Ha & Hp & Hs). exists ptrs. split_and!; [|done|done|].
  - eapply words_at_ext; [|exact Hw]. intros a Ha'. rewrite put_bytes_lookup, decide_False; [done|]. specialize (Ha a Ha'). lia.
  - eapply Forall2_impl; [exact Hs|]. intros q s [Hc Hq]. split; [|done]. eapply cstr_ext; [|exact Hc].
    intros a Ha'. rewrite put_bytes_lookup, decide_False; [done|]. specialize (Hq a). lia.
Qed.

Lemma stack_session_ok fuel turns m0 elf argv envp entry phoff size segs args envs bs :
  loadable fuel turns m0 elf argv envp entry phoff size segs args envs → Z.of_nat (length bs) = PAGE_SIZE →
  let d := to_stack - WINDOW in ∃ ft m1,
    setup_stack_params fuel (WINDOW + stack_top, to_stack + stack_top) C4_NAMESERVER argv envp (put_bytes WINDOW bs m0) = Ret (ft, m1) ∧
    (ft.2 = start_sp args envs ∧ ∃ av ev, WINDOW <= start_sp args envs - d ∧ WINDOW <= av ∧ WINDOW <= ev ∧
      start_stack d (WINDOW + stack_top) m1 (start_sp args envs - d) C4_NAMESERVER av ev args envs) ∧
    only (put_bytes WINDOW bs m0) m1 WINDOW (Z.of_nat (length bs)).
Proof.
  intros [Hi Hf Hr Ha He Hsz (Hfa & Hfe & Hfas & Hfes & _) _] Hl d. unfold PAGE_SIZE in Hl.
  unfold to_stack, WINDOW, WINDOW_SIZE, stack_top in *.
  assert (4 <= list_size args ∧ 4 <= list_size envs) as [Hpa Hpe].
  { unfold list_size. pose proof (strs_size_pos args). pose proof (strs_size_pos envs). lia. }
  destruct (setup_stack_ok 0xda000000 d (0xda000000 + 0xfe0)) with (fuel := fuel) (m := put_bytes 0xda000000 bs m0)
    (argv := argv) (envp := envp) (nameserver := C4_NAMESERVER) (args := args) (envs := envs)
    as (m1 & av & ev & E & Hst & Hav & Hev & Ho); try done; try (unfold d; lia).
  - split; [|lia]. intros a Ha'. apply put_bytes_mapped. lia.
  - eapply list_apart_narrow; [apply list_apart_put; [done|unfold WINDOW_SIZE; lia|exact Ha]|unfold WINDOW; lia|unfold WINDOW, WINDOW_SIZE; lia].
  - eapply list_apart_narrow; [apply list_apart_put; [done|unfold WINDOW_SIZE; lia|exact He]|unfold WINDOW; lia|unfold WINDOW, WINDOW_SIZE; lia].
  - replace (0xda000000 + 0xfe0 + d) with (0xa0000000 + 0xfe0) in E by (unfold d; lia).
    unfold start_sp, to_stack, stack_top in *. eexists _, m1. split; [exact E|]. split; [|eapply only_widen; [exact Ho|lia|lia]].
    split; [unfold d; cbn [snd]; lia|]. exists av, ev.
    replace (0xa0000000 + 0xfe0 - list_size args - list_size envs - 20 - d) with
      (0xda000000 + 0xfe0 - list_size args - list_size envs - 20) by (unfold d; lia).
    split_and!; [lia|lia|lia|exact Hst].
Qed.

Lemma started_child m1 mc args envs av ev (n : nat) :
  let d := to_stack - WINDOW in Z.of_nat n = PAGE_SIZE → bytes_at mc to_stack (take_bytes WINDOW n m1) →
  WINDOW <= start_sp args envs - d → WINDOW <= av → WINDOW <= ev → list_size args + list_size envs + 20 <= stack_top →
  start_stack d (WINDOW + stack_top) m1 (start_sp args envs - d) C4_NAMESERVER av ev args envs →
  started mc (start_sp args envs) C4_NAMESERVER args envs.
Proof.
  intros d Hn Hb Hsp Hav Hev Hsz (Hw & Ha & He). unfold PAGE_SIZE in Hn.
  assert (∀ a b, WINDOW <= a < WINDOW + stack_top → m1 !! a = Some b → mc !! (a + d) = Some b) as Hm.
  { intros a b Hab E. replace (a + d) with (to_stack + Z.of_nat (Z.to_nat (a - WINDOW))) by (unfold d; lia). unfold stack_top in Hab.
    apply Hb. rewrite take_bytes_lookup by (clear -Hab Hn; lia). replace (WINDOW + Z.of_nat (Z.to_nat (a - WINDOW))) with a by lia. by rewrite E. }
  assert (∀ p strs, list_moved m1 d (WINDOW + stack_top) p strs → p <= WINDOW + stack_top) as Htop.
  { intros p strs (ptrs & _ & Hh & _). lia. }
  assert (4 <= list_size args ∧ 4 <= list_size envs) as [Hpa Hpe].
  { unfold list_size. pose proof (strs_size_pos args). pose proof (strs_size_pos envs). lia. }
  pose proof (Htop _ _ Ha). pose proof (Htop _ _ He). exists (av + d), (ev + d).
  split_and!; [|unfold addr32, d, to_stack, WINDOW, stack_top in *; lia..| |].
  - replace (start_sp args envs) with (start_sp args envs - d + d) by lia.
    eapply shift_words; [exact Hm|exact Hw|done|]. simpl length. unfold start_sp, d, to_stack, stack_top, WINDOW in *. lia.
  - by eapply shift_list.
  - by eapply shift_list.
Qed.

Lemma holds_ranges new segs : Forall2 holds new segs → ranges new = map sg_range segs.
Proof.
  intros Hn. induction Hn as [|[a bs] sg new segs (Ha & Hl & _) _ IH]; [done|]. simpl in *. unfold ranges, sg_range in *. simpl.
  by rewrite IH, Ha, Hl.
Qed.

Lemma holds_bytes page sg m : holds page sg → bytes_at m page.1 page.2 → bytes_at m (sg_vaddr sg) (sg_bytes sg).
Proof.
  intros (Ha & _ & Hb) Hm j b Hj. pose proof (Hm _ _ (Hb _ _ Hj)) as E. rewrite <-E. f_equal. rewrite Ha. unfold sg_base.
  pose proof (Z.mod_pos_bound (sg_vaddr sg) PAGE_SIZE ltac:(done)). lia.
Qed.

Definition continue_call (thread : Z) : kcall := mk_call SYSCALL_THREAD_CONTINUE [u32 thread; 0; 0; 0] no_msg.
Definition create_call (entry sp : Z) : kcall := mk_call SYSCALL_THREAD_CREATE [entry; sp; 0; 0] no_msg.

(** The thread is created at the entry point with its stack pointer, and given
    the process's two spaces and its pager; latest first. *)
Definition thread_calls (p : c4_process) (entry sp pager : Z) : list kcall :=
  [mk_call SYSCALL_THREAD_SET_PAGER [u32 (thread p); u32 pager; 0; 0] no_msg;
   mk_call SYSCALL_THREAD_SET_CAPSPACE [u32 (thread p); u32 (capspace p); 0; 0] no_msg;
   mk_call SYSCALL_THREAD_SET_ADDRSPACE [u32 (thread p); u32 (addrspace p); 0; 0] no_msg;
   create_call entry sp].

(** [v] is what the call [n] among [cs], made after [h], answered. *)
Definition created (n : syscall) (v : Z) (cs h : list kcall) : Prop := ∃ later earlier,
  cs = later ++ mk_call n [0; 0; 0; 0] no_msg :: earlier ∧ v = i32 (kernel (mk_call n [0; 0; 0; 0] no_msg :: earlier ++ h)).1.

(** What the loader did before it made the thread: the process's address space,
    capability space and endpoint are new, and it has its capabilities. *)
Record prepared (p : c4_process) (nameserver pager : Z) (cs h : list kcall) : Prop := {
  pr_addrspace : created SYSCALL_ADDRSPACE_CREATE (addrspace p) cs h;
  pr_capspace : created SYSCALL_CSPACE_CREATE (capspace p) cs h;
  pr_endpoint : created SYSCALL_SYNC_CREATE (endpoint p) cs h;
  pr_given : given (endpoint p) (addrspace p) (capspace p) pager nameserver cs;
  pr_quiet : quiet cs
}.

(** Everything a loaded process is: its address space holds the segments and
    the stack, its thread is the one created with them and runs in that address
    space, and of all the calls only these are about threads. *)
Record loaded (m0 : mem) (entry : Z) (segs : list segment) (args envs : list (list Z)) (nameserver pager : Z) (h : list kcall) (p : c4_process) (s : loader) : Prop := {
  lo_own : l_mem s = m0 ∧ l_win s = ∅;
  lo_segments : Forall (λ sg, bytes_at (child_mem (u32 (addrspace p)) s) (sg_vaddr sg) (sg_bytes sg)) segs;
  lo_stack : started (child_mem (u32 (addrspace p)) s) (start_sp args envs) C4_NAMESERVER args envs;
  lo_calls : ∃ before after,
    l_hist s = continue_call (thread p) :: after ++ thread_calls p entry (start_sp args envs) pager ++ before ++ h ∧
    prepared p nameserver pager before h ∧ quiet after ∧
    thread p = i32 (kernel (create_call entry (start_sp args envs) :: before ++ h)).1 ∧
    ∀ i, (i < length segs)%nat → ∃ frame, move_call frame (capspace p) (Z.of_nat i + C4_DEFAULT_OBJECT_END) ∈ after
}.

(** The stack page, as it was written through the window. *)
Definition stack_page (page : list Z) (args envs : list (list Z)) : Prop := ∃ m1 n av ev,
  let d := to_stack - WINDOW in page = take_bytes WINDOW n m1 ∧ Z.of_nat n = PAGE_SIZE ∧
  WINDOW <= start_sp args envs - d ∧ WINDOW <= av ∧ WINDOW <= ev ∧
  start_stack d (WINDOW + stack_top) m1 (start_sp args envs - d) C4_NAMESERVER av ev args envs.

Lemma elf_load_full_run fuel turns h m0 objs caps elf nameserver pager argv envp entry phoff size segs args envs :
  loadable fuel turns m0 elf argv envp entry phoff size segs args envs → ∃ p objs' caps' ch' page new before after,
  elf_load_full blank BOOTINFO_ADDR turns fuel elf page_allot nameserver pager argv envp (mk_loader h m0 objs caps ∅ []) =
    Ret (p, mk_loader (continue_call (thread p) :: after ++ thread_calls p entry (start_sp args envs) pager ++ before ++ h) m0 objs' caps' ∅ ch') ∧
  prepared p nameserver pager before h ∧ quiet after ∧ thread p = i32 (kernel (create_call entry (start_sp args envs) :: before ++ h)).1 ∧
  pages_of objs' ch' = rev new ++ [(to_stack, page)] ∧ Forall (λ e, e.1.1 = u32 (addrspace p)) ch' ∧
  Forall2 holds new segs ∧ stack_page page args envs ∧
  ∀ i, (i < length segs)%nat → ∃ frame, move_call frame (capspace p) (Z.of_nat i + C4_DEFAULT_OBJECT_END) ∈ after.
Proof.
  intros Hld. pose proof (ld_image _ _ _ _ _ _ _ _ _ _ _ _ Hld) as Hi. pose proof (ld_window _ _ _ _ _ _ _ _ _ _ _ _ Hld) as Hf.
  unfold elf_load_full.
  destruct (allot_ok 1 h m0 objs caps ∅ []) as (frame & cs1 & Hq1 & E1). rewrite (bind_run _ _ _ _ _ E1).
  unfold c4_cspace_create, c4_addrspace_create, c4_msg_create_sync, e_entry.
  rewrite (bind_run _ _ _ _ _ (lk_sys _ _ _ _ _ _ _ _ _ _ _)). set (c2 := mk_call SYSCALL_CSPACE_CREATE _ _).
  set (cspace := i32 (kernel (c2 :: cs1 ++ h)).1).
  rewrite (bind_run _ _ _ _ _ (lk_sys _ _ _ _ _ _ _ _ _ _ _)). set (c3 := mk_call SYSCALL_ADDRSPACE_CREATE _ _).
  set (aspace := i32 (kernel (c3 :: _)).1).
  destruct (io_entry _ _ _ _ _ _ Hi) as [He He32].
  rewrite (bind_run _ _ _ _ _ (lm_ok _ _ _ _ _ _ _ _ _ (rd32_ok _ _ _ He He32))).
  rewrite (bind_run _ _ _ _ _ (lk_sys _ _ _ _ _ _ _ _ _ _ _)). set (c4 := mk_call SYSCALL_SYNC_CREATE _ _).
  set (msgq := i32 (kernel (c4 :: _)).1).
  destruct (give_capabilities_ok msgq aspace cspace pager nameserver (c4 :: c3 :: c2 :: cs1 ++ h)) as (cs5 & E5 & Hq5 & Hgv).
  rewrite (bind_run _ _ _ _ _ (lk_ok _ _ _ _ _ _ _ _ _ E5)). unfold c4_addrspace_map at 1.
  rewrite (bind_run _ _ _ _ _ (lk_sys _ _ _ _ _ _ _ _ _ _ _)). set (c6 := mk_call SYSCALL_ADDRSPACE_MAP _ _).
  change 0xda000000 with WINDOW. change 0xa0000000 with to_stack. change 0xfe0 with stack_top.
  set (bs := fresh_pages blank (length objs) 1). set (h6 := c6 :: cs5 ++ _).
  assert (length bs = Z.to_nat PAGE_SIZE) as Hlb by apply length_fresh.
  assert (Z.of_nat (length bs) = PAGE_SIZE) as Hlbz by (rewrite Hlb; done).
  destruct (session_ok (setup_stack_params fuel (WINDOW + stack_top, to_stack + stack_top) C4_NAMESERVER argv envp) frame aspace to_stack h6
    m0 objs (<[frame := length objs]> caps) [] bs (λ ft m1, ft.2 = start_sp args envs ∧ ∃ av ev,
      WINDOW <= start_sp args envs - (to_stack - WINDOW) ∧ WINDOW <= av ∧ WINDOW <= ev ∧
      start_stack (to_stack - WINDOW) (WINDOW + stack_top) m1 (start_sp args envs - (to_stack - WINDOW)) C4_NAMESERVER av ev args envs))
    as (ft & m1 & cs7 & Hq7 & (Hft & av & ev & Hb1 & Hb2 & Hb3 & Hst) & Ek);
    [done|rewrite Hlbz; done|done|constructor|apply lookup_insert_eq|by eapply stack_session_ok|].
  rewrite Ek. unfold c4_create_thread, c4_set_addrspace, c4_set_capspace, c4_set_pager, c4_continue_thread. rewrite Hft.
  set (before := cs7 ++ c6 :: cs5 ++ c4 :: c3 :: c2 :: cs1).
  assert (cs7 ++ h6 = before ++ h) as Ebf by (unfold before, h6; rewrite <-!(assoc_L (++)); cbn [app]; by rewrite <-!(assoc_L (++))).
  rewrite Ebf. clear Ek.
  rewrite (bind_run _ _ _ _ _ (lk_sys _ _ _ _ _ _ _ _ _ _ _)). fold (create_call entry (start_sp args envs)).
  set (tid := i32 (kernel (create_call entry (start_sp args envs) :: before ++ h)).1).
  do 3 rewrite (bind_run _ _ _ _ _ (lk_sys _ _ _ _ _ _ _ _ _ _ _)).
  set (p := mk_process aspace cspace msgq tid).
  set (page := take_bytes WINDOW (length bs) m1).
  destruct (segments_loop_ok fuel elf entry phoff size segs aspace cspace m0 Hi Hf (proj2 (proj2 (proj2 (proj2 (ld_fuel _ _ _ _ _ _ _ _ _ _ _ _ Hld)))))
    segs [] turns (thread_calls p entry (start_sp args envs) pager ++ before ++ h) (objs ++ [page]) (<[frame := length objs]> caps)
    [(u32 aspace, to_stack, length objs)] eq_refl)
    as (after & objs' & caps' & ch' & new & E10 & Hq10 & Hlive & Hpages & Hnew & Hsp & Hmv).
  { constructor; [|constructor]. simpl. rewrite length_app. simpl. lia. }
  { apply (ld_turns _ _ _ _ _ _ _ _ _ _ _ _ Hld). }
  change (Z.of_nat (length (@nil segment))) with 0 in E10. rewrite (bind_run _ _ _ _ _ E10).
  rewrite (bind_run _ _ _ _ _ (lk_sys _ _ _ _ _ _ _ _ _ _ _)).
  exists p, objs', caps', ch', page, new, before, after. split_and!.
  - reflexivity.
  - split.
    + exists (cs7 ++ c6 :: cs5 ++ [c4]), (c2 :: cs1). split; [|done]. unfold before. rewrite <-!(assoc_L (++)). cbn [app]. by rewrite <-(assoc_L (++)).
    + exists (cs7 ++ c6 :: cs5 ++ [c4; c3]), cs1. split; [|done]. unfold before. rewrite <-!(assoc_L (++)). cbn [app]. by rewrite <-(assoc_L (++)).
    + exists (cs7 ++ c6 :: cs5), (c3 :: c2 :: cs1). split; [|done]. unfold before. by rewrite <-!(assoc_L (++)).
    + destruct Hgv as (H1 & H2 & H3 & H4 & H5). unfold given, before. rewrite !elem_of_app, !elem_of_cons, !elem_of_app. naive_solver.
    + unfold before. apply quiet_run_app. split; [done|]. rewrite quiet_cons. split; [done|]. apply quiet_run_app. split; [done|].
      by repeat (rewrite quiet_cons; split; [done|]).
  - done.
  - done.
  - rewrite Hpages. cbn. by rewrite lookup_app_r, Nat.sub_diag by lia.
  - apply Hsp. by repeat constructor.
  - done.
  - exists m1, (length bs), av, ev. split_and!; [reflexivity|exact Hlbz|exact Hb1|exact Hb2|exact Hb3|exact Hst].
  - exact Hmv.
Qed.

Lemma elf_load_full_ok fuel turns h m0 objs caps elf nameserver pager argv envp entry phoff size segs args envs :
  loadable fuel turns m0 elf argv envp entry phoff size segs args envs → ∃ p s',
  elf_load_full blank BOOTINFO_ADDR turns fuel elf page_allot nameserver pager argv envp (mk_loader h m0 objs caps ∅ []) = Ret (p, s') ∧
  loaded m0 entry segs args envs nameserver pager h p s'.
Proof.
  intros Hld. destruct (elf_load_full_run fuel turns h m0 objs caps elf nameserver pager argv envp entry phoff size segs args envs Hld)
    as (p & objs' & caps' & ch' & page & new & before & after & E & Hpr & Hq & Htid & Hpg & Hsp & Hnew & (m1 & n & av & ev & Hpe & Hn & Hb1 & Hb2 & Hb3 & Hst) & Hmv).
  eexists p, _. split; [exact E|]. set (s' := mk_loader _ _ _ _ _ _).
  assert (child_mem (u32 (addrspace p)) s' = place (rev new ++ [(to_stack, page)])) as Hcm.
  { unfold child_mem, child_pages. f_equal. cbn [l_child l_objs s']. rewrite <-Hpg. unfold pages_of. f_equal.
    by apply filter_all. }
  assert (disjoint (ranges (rev new ++ [(to_stack, page)]))) as Hdis.
  { eapply disjoint_perm; [|exact (ld_ranges _ _ _ _ _ _ _ _ _ _ _ _ Hld)]. rewrite <-(holds_ranges new segs Hnew).
    unfold ranges. rewrite map_app, map_rev. simpl. rewrite Hpe, length_take_bytes, Hn.
    rewrite <-Permutation_rev. apply Permutation_cons_append. }
  split; [done| | |].
  - apply Forall_forall. intros sg Hsg. apply list_elem_of_lookup in Hsg as [i Hi].
    destruct (Forall2_lookup_r _ _ _ _ _ Hnew Hi) as (pg & Hpgi & Hh). eapply holds_bytes; [exact Hh|]. rewrite Hcm.
    apply place_bytes; [done|]. destruct pg as [a bs]. apply elem_of_app. left. rewrite list_elem_of_In, <-in_rev, <-list_elem_of_In.
    by eapply list_elem_of_lookup_2.
  - apply (started_child m1 _ args envs av ev n Hn); [|done|done|done| |done]; [|apply (ld_size _ _ _ _ _ _ _ _ _ _ _ _ Hld)].
    rewrite Hcm, <-Hpe. apply place_bytes; [done|]. apply elem_of_app. right. by left.
  - by exists before, after.
Qed.

(** C15: [elf_load_full] on any well-formed file that fits.  The address space
    it created holds the bytes of every segment at its address and, at the
    stack pointer, the parameters of the start-up code with the argument and
    environment strings; the thread was created at the file's entry point with
    that stack pointer and given just this address space, the new capability
    space and the pager; the capability space has the endpoint, the address
    space, the pager, the name server and one capability for each segment's
    pages; the thread is continued once, as the last call, and no other call is
    about a thread.  The loader's own memory is as it was. *)
Theorem elf_load_correct fuel turns h m0 objs caps elf nameserver pager argv envp entry phoff size segs args envs :
  loadable fuel turns m0 elf argv envp entry phoff size segs args envs → ∃ p s',
  elf_load_full blank BOOTINFO_ADDR turns fuel elf page_allot nameserver pager argv envp (mk_loader h m0 objs caps ∅ []) = Ret (p, s') ∧
  loaded m0 entry segs args envs nameserver pager h p s'.
Proof. apply elf_load_full_ok. Qed.
End load.

(** ** A file of one segment

    Header, program header and four bytes at 0x1000, then the argument array,
    the environment array, their strings, a path and a mode. *)
Definition sample_file : list Z :=
  [0x7f; 69; 76; 70] ++ replicate 12 0 ++ le16 2 ++ le16 3 ++ le32 1 ++ le32 0x08048054 ++ le32 52 ++ le32 0 ++ le32 0 ++
  le16 52 ++ le16 32 ++ le16 1 ++ le16 0 ++ le16 0 ++ le16 0 ++
  le32 1 ++ le32 84 ++ le32 0x08048054 ++ le32 0x08048054 ++ le32 4 ++ le32 8 ++ le32 5 ++ le32 4096 ++ [144; 144; 205; 96].
Definition sample_mem : mem :=
  put_bytes 0x1000 (sample_file ++ le32 4200 ++ le32 0 ++ le32 4202 ++ le32 0 ++ [97; 0; 120; 61; 49; 0] ++ [47; 0; 114; 0]) ∅.
Definition sample_segment : segment := mk_segment 4148 84 0x08048054 8 [144; 144; 205; 96].

Lemma sample_list p q s lo hi : 0x1000 <= p → p + 8 <= 0x2000 → 0x1000 <= q → q + Z.of_nat (length s) < 0x2000 →
  bytes_atb sample_mem p (le32 q ++ le32 0) = true → read_cstr 9 q sample_mem = Some s → Forall (λ c, c ≠ 0) s → 0x2000 <= lo →
  list_apart sample_mem p [s] lo hi.
Proof.
  intros Hp Hp2 Hq Hq2 Hw Hs Hz Hlo. apply bytes_atb_ok, bytes_at_app in Hw as [Hw1 Hw2]. exists [q]. split_and!.
  - split; [exact Hw1|]. split; [exact Hw2|done].
  - intros a Ha. simpl in Ha. lia.
  - repeat constructor; lia.
  - repeat constructor; [by eapply read_cstr_ok|]. intros a Ha. lia.
Qed.

Lemma sample_loadable : loadable 9 9 sample_mem 0x1000 4184 4192 0x08048054 52 32 [sample_segment] [[97]] [[120; 61; 49]].
Proof.
  split.
  - split; try (split; [apply bytes_atb_ok; vm_compute; reflexivity|vm_compute; done]); try (apply bytes_atb_ok; vm_compute; reflexivity).
    + intros [|[|i]] sg E; [|done|done]. injection E as <-. vm_compute. reflexivity.
    + constructor; [|constructor]. split; try (split; [apply bytes_atb_ok; vm_compute; reflexivity|vm_compute; done]);
        try (apply bytes_atb_ok; vm_compute; reflexivity); try (vm_compute; discriminate). repeat constructor; discriminate.
  - intros a Ha. unfold sample_mem. rewrite put_bytes_lookup, decide_False; [done|]. unfold WINDOW in Ha. simpl length. lia.
  - split; [|split; [constructor|done]]. constructor; [|constructor]. right. vm_compute. discriminate.
  - apply (sample_list 4184 4200); try done; repeat constructor; done.
  - apply (sample_list 4192 4202); try done; repeat constructor; done.
  - vm_compute. discriminate.
  - split_and!; repeat constructor; simpl; lia.
  - simpl. lia.
Qed.

Lemma sample_obliging : let _ := steady 7 no_msg in obliging (λ _, mret 7).
Proof.
  split; intros; [vm_compute; discriminate..|]. exists 7, []. split_and!; [done|lia|constructor].
Qed.

Lemma elf_load_correct_witness : let _ := steady 7 no_msg in ∃ p s',
  elf_load_full (λ _ _, 255) 0x1000000 9 9 0x1000 (λ _, mret 7) 5 4 4184 4192 (mk_loader [] sample_mem [] ∅ ∅ []) = Ret (p, s') ∧
  bytes_at (child_mem (u32 (addrspace p)) s') 0x08048054 [144; 144; 205; 96].
Proof.
  intros env. destruct (elf_load_correct (λ _ _, 255) 0x1000000 (λ _, mret 7) sample_obliging 9 9 [] sample_mem [] ∅ 0x1000 5 4 4184 4192
    _ _ _ _ _ _ sample_loadable) as (p & s' & E & Hl).
  exists p, s'. split; [exact E|]. exact (Forall_inv (lo_segments _ _ _ _ _ _ _ _ _ _ Hl)).
Defined.
