(* ===== verification/Crt.v ===== *)
(** Start-up: [_start] of [libraries/c4rt/crt/crt0.c] and the process's globals
    ([libraries/c4rt/libc/init.c]).  The program's [main] is a parameter. *)

From S2P Require Import Prelude Interfaces AndTreeRep C4Alloc C4AllocOps Addrman AddrmanInv AddrmanOps AddrmanSpec CString Words Kernel Elf ElfStack ElfSpec.
#[local] Open Scope Z_scope.

(** The globals of [init.c]; the heap is the one the region's trees live in. *)
Record runtime := mk_runtime {
  rt_hist : list kcall;
  rt_mem : mem;
  rt_region : c4rt_vaddr_region c4a_heap;
  global_region : Z;
  global_nameserv : Z;
  global_env : Z
}.

Abbreviation T := (M runtime).

Definition rt_k {A} (m : K A) : T A :=
  zoom rt_hist (λ h s, mk_runtime h (rt_mem s) (rt_region s) (global_region s) (global_nameserv s) (global_env s)) m.
Definition rt_m {A} (m : M mem A) : T A :=
  zoom rt_mem (λ m s, mk_runtime (rt_hist s) m (rt_region s) (global_region s) (global_nameserv s) (global_env s)) m.
Definition rt_r {A} (m : M (c4rt_vaddr_region c4a_heap) A) : T A :=
  zoom rt_region (λ r s, mk_runtime (rt_hist s) (rt_mem s) r (global_region s) (global_nameserv s) (global_env s)) m.

Definition set_heap (h : c4a_heap) (r : c4rt_vaddr_region c4a_heap) : c4rt_vaddr_region c4a_heap :=
  mk_region (layout r) (free_nodes r) (base r) h (r_mem r) (vnodes r).
Definition set_global_region (p : Z) (s : runtime) : runtime :=
  mk_runtime (rt_hist s) (rt_mem s) (rt_region s) p (global_nameserv s) (global_env s).
Definition set_nameserv (n : Z) (s : runtime) : runtime :=
  mk_runtime (rt_hist s) (rt_mem s) (rt_region s) (global_region s) n (global_env s).
Definition set_env (e : Z) (s : runtime) : runtime :=
  mk_runtime (rt_hist s) (rt_mem s) (rt_region s) (global_region s) (global_nameserv s) e.

Definition getnameserv : T Z := gets global_nameserv.
Definition getc4heap : T c4a_heap := gets (λ s, r_heap (rt_region s)).

Section crt.
Context `{KernelEnv} (main : Z → Z → Z → T unit).

(** [for (i = 0; args[i]; i++)]; each turn prints the thread's id. *)
Fixpoint strings_loop (fuel : nat) (args i : Z) : T Z :=
  match fuel with
  | O => nofuel
  | S f => p ← rt_m (rd32 (args + 4 * i)); if truthy p then rt_k c4_get_id;; strings_loop f args (i + 1) else mret i
  end.

(** [no_args] and [no_env] are the addresses of the two local [{ NULL }]. *)
Definition start (fuel : nat) (no_args no_env nameserv args env magic : Z) : T unit :=
  rt_r (modify (set_heap (c4a_heap_init 0xe0000000)));;
  region ← rt_r (c4rt_vaddr_region_create region_fuel 0xc0000000 0x10000);
  modify (set_global_region region);;
  modify (set_nameserv nameserv);;
  (if magic =? C4RT_INIT_MAGIC then
     argc ← strings_loop fuel args 0;
     strings_loop fuel env 0;;
     modify (set_env env);;
     main argc args env
   else main 0 no_args no_env);;
  rt_k c4_exit.

(** The call of [_start]: its parameters are above the return address. *)
Definition enter (fuel : nat) (no_args no_env sp : Z) : T unit :=
  nameserv ← rt_m (rd32 (sp + 4));
  args ← rt_m (rd32 (sp + 8));
  env ← rt_m (rd32 (sp + 12));
  magic ← rt_m (rd32 (sp + 16));
  start fuel no_args no_env nameserv args env magic.

(** ** What [main] is called with *)

Lemma strings_loop_ok fuel args ptrs : ∀ i s, (length ptrs < fuel)%nat →
  words_at (rt_mem s) (args + 4 * i) (ptrs ++ [0]) → Forall (λ q, 0 < q < 2 ^ 32) ptrs → ∃ h,
  strings_loop fuel args i s =
  Ret (i + Z.of_nat (length ptrs), mk_runtime h (rt_mem s) (rt_region s) (global_region s) (global_nameserv s) (global_env s)).
Proof.
  revert ptrs. induction fuel as [|fuel IH]; intros ptrs i s Hf Hw Hp; [lia|]. cbn [strings_loop].
  destruct ptrs as [|q ptrs]; destruct Hw as [Hw Hws].
  - rewrite (bind_run _ _ s 0 s). { exists (rt_hist s). rewrite Z.add_0_r. by destruct s. }
    unfold rt_m, zoom. rewrite (rd32_ok _ _ 0 Hw ltac:(unfold addr32; lia)). by destruct s.
  - apply Forall_cons in Hp as [Hq Hp]. rewrite (bind_run _ _ s q s).
    2:{ unfold rt_m, zoom. rewrite (rd32_ok _ _ q Hw ltac:(unfold addr32; lia)). by destruct s. }
    rewrite truthy_ne by lia. set (c := mk_call SYSCALL_INFO [SYSCALL_INFO_GET_ID; 0; 0; 0] no_msg).
    set (s1 := mk_runtime (c :: rt_hist s) (rt_mem s) (rt_region s) (global_region s) (global_nameserv s) (global_env s)).
    rewrite (bind_run (rt_k c4_get_id) _ s _ s1 eq_refl).
    destruct (IH ptrs (i + 1) s1) as (h & E); [simpl in Hf; lia| |done|].
    + by replace (args + 4 * (i + 1)) with (args + 4 * i + 4) by lia.
    + exists h. rewrite E. simpl length. do 2 f_equal. lia.
Qed.

(** Everything is ready when [main] runs: the arguments, the environment, the
    name server, an empty heap and a region that is one free block. *)
Record ready (m : mem) (nameserv av ev : Z) (args envs : list (list Z)) (s : runtime) : Prop := {
  rd_mem : rt_mem s = m;
  rd_args : strlist m av args;
  rd_envs : strlist m ev envs ∧ global_env s = ev;
  rd_server : global_nameserv s = nameserv;
  rd_region : global_region s ≠ 0 ∧ base (rt_region s) = 0xc0000000 ∧ region_is (rt_region s) 0x10000 [mk_vnode 0x10000 0 true];
  rd_heap : al_room (rt_region s)
}.

Lemma strlist_ok fuel args strs s : strlist (rt_mem s) args strs → (length strs < fuel)%nat → ∃ h,
  strings_loop fuel args 0 s = Ret (Z.of_nat (length strs),
    mk_runtime h (rt_mem s) (rt_region s) (global_region s) (global_nameserv s) (global_env s)).
Proof.
  intros (ptrs & Hw & Hp & Hs) Hf. rewrite <-(Forall2_length _ _ _ Hs) in *.
  destruct (strings_loop_ok fuel args ptrs 0 s Hf) as (h & E); [by rewrite Z.add_0_r|done|]. by exists h.
Qed.

Lemma heap_region_ok : plenty 13 (c4a_heap_init 0xe0000000).
Proof. apply c4a_plenty; [apply heap_init_ok; lia|]. vm_compute. done. Qed.

Lemma enter_ok fuel na ne sp nameserv args envs s : started (rt_mem s) sp nameserv args envs → 0 <= nameserv < 2 ^ 32 →
  sent_ok (r_mem (rt_region s)) → (length args < fuel)%nat → (length envs < fuel)%nat → ∃ av ev s',
  enter fuel na ne sp s = (main (Z.of_nat (length args)) av ev;; rt_k c4_exit) s' ∧
  ready (rt_mem s) nameserv av ev args envs s'.
Proof.
  intros (av & ev & Hw & Hav & Hev & Ha & He) Hn Hs Hfa Hfe. unfold enter.
  destruct Hw as (_ & H1 & H2 & H3 & H4 & _). rewrite <-!Z.add_assoc in *.
  assert (∀ p v, word_at (rt_mem s) p v → addr32 v → rt_m (rd32 p) s = Ret (v, s)) as Hrd.
  { intros p v Hp Hv. unfold rt_m, zoom. rewrite (rd32_ok _ _ _ Hp Hv). by destruct s. }
  rewrite (bind_run _ _ _ _ _ (Hrd _ _ H1 Hn)), (bind_run _ _ _ _ _ (Hrd _ _ H2 Hav)), (bind_run _ _ _ _ _ (Hrd _ _ H3 Hev)).
  rewrite (bind_run _ _ _ _ _ (Hrd _ _ H4 ltac:(by unfold addr32, C4RT_INIT_MAGIC))). unfold start.
  set (r0 := set_heap (c4a_heap_init 0xe0000000) (rt_region s)).
  set (s0 := mk_runtime (rt_hist s) (rt_mem s) r0 (global_region s) (global_nameserv s) (global_env s)).
  rewrite (bind_run (rt_r (modify (set_heap (c4a_heap_init 0xe0000000)))) _ s tt s0 eq_refl).
  destruct (region_create_spec region_fuel r0 0xc0000000 0x10000 9 Hs) as (a & r1 & E1 & Ha0 & Hb1 & Hr1 & Hp1).
  { apply heap_init_ok. lia. } { apply heap_region_ok. } { unfold MAX_PAGES. lia. } { apply le_n. }
  set (s1 := mk_runtime (rt_hist s) (rt_mem s) r1 (global_region s) (global_nameserv s) (global_env s)).
  rewrite (bind_run _ _ s0 a s1) by (unfold rt_r, zoom; simpl rt_region; by rewrite E1).
  set (s2 := set_nameserv nameserv (set_global_region a s1)).
  rewrite (bind_run (modify (set_global_region a)) _ s1 tt _ eq_refl), (bind_run (modify (set_nameserv nameserv)) _ _ tt s2 eq_refl), Z.eqb_refl.
  destruct (strlist_ok fuel av args s2 Ha Hfa) as (h3 & E3). rewrite bind_assoc_run, (bind_run _ _ _ _ _ E3).
  set (s3 := mk_runtime h3 _ _ _ _ _).
  destruct (strlist_ok fuel ev envs s3 He Hfe) as (h4 & E4). rewrite bind_assoc_run, (bind_run _ _ _ _ _ E4).
  set (s4 := mk_runtime h4 _ _ _ _ _). rewrite bind_assoc_run, (bind_run (modify (set_env ev)) _ s4 tt (set_env ev s4) eq_refl).
  exists av, ev, (set_env ev s4). split; [reflexivity|].
  split; [reflexivity|exact Ha|split; [exact He|reflexivity]|reflexivity|split_and!; [exact Ha0|exact Hb1|exact Hr1]|exact Hp1].
Qed.
End crt.

Section claims.
Context `{KernelEnv}.

(** C16: a process the loader starts gets what the loader was given: run from
    the entry stack pointer in the child's memory, the start-up code calls
    [main] with the number of arguments, the null-terminated array of exactly
    those argument strings and of the environment strings, with the name
    server's capability recorded and heap and region set up, and then exits. *)
Theorem loaded_process_runs_main blank BOOTINFO_ADDR page_allot main fuel turns h m0 objs caps elf nameserver pager argv envp
    entry phoff size segs args envs na ne region :
  obliging page_allot → loadable fuel turns m0 elf argv envp entry phoff size segs args envs → sent_ok (r_mem region) → ∃ p s' sp,
  elf_load_full blank BOOTINFO_ADDR turns fuel elf page_allot nameserver pager argv envp (mk_loader h m0 objs caps ∅ []) = Ret (p, s') ∧
  create_call entry sp ∈ l_hist s' ∧
  ∀ hc, let s := mk_runtime hc (child_mem (u32 (addrspace p)) s') region 0 0 0 in ∃ av ev s1,
    enter main fuel na ne sp s = (main (Z.of_nat (length args)) av ev;; rt_k c4_exit) s1 ∧
    ready (child_mem (u32 (addrspace p)) s') C4_NAMESERVER av ev args envs s1.
Proof.
  intros Hob Hld Hs.
  destruct (elf_load_full_ok blank BOOTINFO_ADDR page_allot Hob fuel turns h m0 objs caps elf nameserver pager argv envp _ _ _ _ _ _ Hld)
    as (p & s' & E & [_ _ Hst (before & after & Ec & _)]).
  exists p, s', (start_sp args envs). split; [exact E|]. split; [rewrite Ec; right; apply elem_of_app; right; do 3 right; by left|].
  intros hc s. destruct (ld_fuel _ _ _ _ _ _ _ _ _ _ _ _ Hld) as (Hfa & Hfe & _).
  apply (enter_ok main fuel na ne _ C4_NAMESERVER args envs s); [exact Hst|unfold C4_NAMESERVER; lia|exact Hs|done|done].
Qed.
End claims.

(** The region record before [_start], with the static sentinel. *)
Definition blank_runtime : c4rt_vaddr_region c4a_heap :=
  mk_region (mk_andtree AndTree.PNull 0) (mk_andtree AndTree.PNull 0) 0 (c4a_heap_init 0)
    {[AndTree.PSentinel := AndTree.sentinel]} ∅.

Lemma loaded_process_runs_main_witness : let _ := steady 7 no_msg in ∃ p s' sp,
  elf_load_full (λ _ _, 255) 0x1000000 9 9 0x1000 (λ _, mret 7) 5 4 4184 4192 (mk_loader [] sample_mem [] ∅ ∅ []) = Ret (p, s') ∧
  create_call 0x08048054 sp ∈ l_hist s' ∧
  ∃ av ev s1, enter (λ _ _ _, mret tt) 9 1 2 sp (mk_runtime [] (child_mem (u32 (addrspace p)) s') blank_runtime 0 0 0) = (mret tt;; rt_k c4_exit) s1 ∧
    strlist (child_mem (u32 (addrspace p)) s') av [[97]] ∧ strlist (child_mem (u32 (addrspace p)) s') ev [[120; 61; 49]].
Proof.
  intros env.
  destruct (loaded_process_runs_main (λ _ _, 255) 0x1000000 (λ _, mret 7) (λ _ _ _, mret tt) 9 9 [] sample_mem [] ∅ 0x1000 5 4 4184 4192
    _ _ _ _ _ _ 1 2 blank_runtime sample_obliging sample_loadable) as (p & s' & sp & E & Hc & Hr).
  - by exists AndTree.PNull.
  - exists p, s', sp. split; [exact E|]. split; [exact Hc|].
    destruct (Hr []) as (av & ev & s1 & Ee & Hrd). exists av, ev, s1. split; [exact Ee|].
    split; [exact (rd_args _ _ _ _ _ _ _ Hrd)|exact (proj1 (rd_envs _ _ _ _ _ _ _ Hrd))].
Defined.
