(* ===== verification/Stdio.v ===== *)
(** Buffered files: [libraries/c4rt/libc/stdio.c], [include/stdio.h].

    A [FILE] is a record at a heap address with its own connection to the file
    system; connections are told apart by the address their ring buffer is
    mapped at.  Paths, modes and the local [namebuf] are in byte memory; what a
    read stores is the list of bytes stored from [ptr] on, what a write sends is
    the list of bytes at [ptr]. *)

From S2P Require Import Prelude Interfaces Kernel Mem RingBuffer Connman CString Nameserver Filesystem.
#[local] Open Scope Z_scope.

Definition FILE_STATUS_PRETTY_GOOD : Z := 0.
Definition FILE_STATUS_CLOSED : Z := 1.
Definition FILE_STATUS_END_OF_FILE : Z := 2.
Definition FILE_STATUS_ERROR : Z := 3.

Definition FILE_MODE_READ : Z := 2.
Definition FILE_MODE_WRITE : Z := 4.
Definition FILE_MODE_APPEND : Z := 8.

Definition EOF : Z := -1.
Definition EBADF : Z := 1.

(** [struct dirent] *)
Record dirent := mk_dirent { d_ino : Z; d_off : Z; d_reclen : Z; d_name : list Z }.
Definition sizeof_libc_dirent : Z := 268.

(** [FILE]; [have_char] and [used] are never touched. *)
Record file := mk_file {
  f_conn : fs_connection; f_node : fs_node; f_dent : dirent; f_status : Z; f_charbuf : Z; f_mode : Z
}.
Definition sizeof_FILE : Z := 348.

Definition blank_node : fs_node := mk_fsnode 0 0 0.
Definition blank_fsconn : fs_connection := mk_fsconn blank_conn blank_node 0.
Definition blank_file : file := mk_file blank_fsconn blank_node (mk_dirent 0 0 0 []) 0 0 0.

Definition set_conn (c : fs_connection) (f : file) : file := mk_file c (f_node f) (f_dent f) (f_status f) (f_charbuf f) (f_mode f).
Definition set_dent (d : dirent) (f : file) : file := mk_file (f_conn f) (f_node f) d (f_status f) (f_charbuf f) (f_mode f).
Definition set_status (s : Z) (f : file) : file := mk_file (f_conn f) (f_node f) (f_dent f) s (f_charbuf f) (f_mode f).

(** The process with the static variables of [stdio.c]. *)
Record stdio (R H : Type) := mk_stdio {
  io_proc : process R;
  io_rings : gmap Z c4_ringbuf;
  io_heap : H;
  io_files : gmap Z file;
  io_mem : mem;
  root_dir : fs_node;
  current_dir : fs_node;
  current_fs : fs_connection;
  root_server : Z;
  initialized : bool
}.
Arguments mk_stdio {R H}.
Arguments io_proc {R H}.
Arguments io_rings {R H}.
Arguments io_heap {R H}.
Arguments io_files {R H}.
Arguments io_mem {R H}.
Arguments root_dir {R H}.
Arguments current_dir {R H}.
Arguments current_fs {R H}.
Arguments root_server {R H}.
Arguments initialized {R H}.

Section stdio.
Context `{KernelEnv} {R : Type} `{Allocator R} {Hp : Type} `{Allocator Hp}.
Context (peer : Z → list kcall → c4_ringbuf → c4_ringbuf) (page : list Z).
Abbreviation D := (M (stdio R Hp)).

Definition set_rings (p : process R) (r : gmap Z c4_ringbuf) (s : stdio R Hp) : stdio R Hp :=
  mk_stdio p r (io_heap s) (io_files s) (io_mem s) (root_dir s) (current_dir s) (current_fs s) (root_server s) (initialized s).
Definition set_heap (h : Hp) (s : stdio R Hp) : stdio R Hp :=
  mk_stdio (io_proc s) (io_rings s) h (io_files s) (io_mem s) (root_dir s) (current_dir s) (current_fs s) (root_server s) (initialized s).
Definition set_files (f : gmap Z file) (s : stdio R Hp) : stdio R Hp :=
  mk_stdio (io_proc s) (io_rings s) (io_heap s) f (io_mem s) (root_dir s) (current_dir s) (current_fs s) (root_server s) (initialized s).
Definition set_iomem (m : mem) (s : stdio R Hp) : stdio R Hp :=
  mk_stdio (io_proc s) (io_rings s) (io_heap s) (io_files s) m (root_dir s) (current_dir s) (current_fs s) (root_server s) (initialized s).
Definition set_root (root cur : fs_node) (fs : fs_connection) (srv : Z) (i : bool) (s : stdio R Hp) : stdio R Hp :=
  mk_stdio (io_proc s) (io_rings s) (io_heap s) (io_files s) (io_mem s) root cur fs srv i.

Definition dk {A} (m : K A) : D A := zoom io_proc (λ p s, set_rings p (io_rings s) s) (on_kernel m).
Definition dm {A} (m : M mem A) : D A := zoom io_mem set_iomem m.
Definition dh {A} (m : M Hp A) : D A := zoom io_heap set_heap m.

Definition load_file (fp : Z) : D file := getsome (λ s, io_files s !! fp).
Definition upd_file (fp : Z) (f : file → file) : D unit :=
  x ← load_file fp; modify (λ s, set_files (<[fp := f x]> (io_files s)) s).

(** A stub of the file system protocol on the connection's ring buffer. *)
Definition with_ring {A} (conn : fs_connection) (m : M (client R) A) : D A := λ s,
  let a := ringbuf (fc_server conn) in
  match io_rings s !! a with
  | None => UB
  | Some b =>
      match m (mk_client (io_proc s) b) with
      | Ret (x, c) => Ret (x, set_rings (c_proc c) (<[a := c_ring c]> (io_rings s)) s)
      | UB => UB
      | NoFuel => NoFuel
      end
  end.

Definition on_conn {A} (conn : fs_connection) (m : (list kcall → c4_ringbuf → c4_ringbuf) → M (client R) A) : D A :=
  with_ring conn (m (peer (ringbuf (fc_server conn)))).

(** A new connection brings its page, a closed one takes it away. *)
Definition connect (server : Z) (conn : fs_connection) : D fs_connection := λ s,
  match fs_connect server conn (mk_client (io_proc s) (mk_ringbuf 0 0 0 page)) with
  | Ret (r, c) => Ret (r.2, set_rings (c_proc c) (<[ringbuf (fc_server r.2) := c_ring c]> (io_rings s)) s)
  | UB => UB
  | NoFuel => NoFuel
  end.

Definition disconnect (conn : fs_connection) : D fs_connection := λ s,
  match fs_disconnect conn (mk_client (io_proc s) (mk_ringbuf 0 0 0 page)) with
  | Ret (r, c) => Ret (r, set_rings (c_proc c) (delete (ringbuf (fc_server conn)) (io_rings s)) s)
  | UB => UB
  | NoFuel => NoFuel
  end.

(** The string at [p], as its characters. *)
Fixpoint load_cstr (fuel : nat) (p : Z) : M mem (list Z) :=
  match fuel with
  | O => nofuel
  | S f => c ← rdc p; if truthy c then rest ← load_cstr f (p + 1); mret (c :: rest) else mret []
  end.

(** The mapped bytes among the [n] at [p]: what a copy from there can read. *)
Fixpoint mapped_bytes (n : nat) (p : Z) (m : mem) : list Z :=
  match n with
  | O => []
  | S n' => match m !! p with Some b => b :: mapped_bytes n' (p + 1) m | None => [] end
  end.

(** ** Opening *)

(** The literals and the local array of [fopen], by address; the environment. *)
Record io_env := mk_ioenv {
  lit_eq : Z; lit_rootfs : Z; lit_fallback : Z; lit_slash : Z; lit_r : Z; namebuf : Z;
  env_strings : option (list Z); env_nameserv : Z
}.
Context (env : io_env) (fuel : nat).

Definition init_rootfs : D unit :=
  s ← get;
  if initialized s then mret tt
  else
    modify (set_root (root_dir s) (current_dir s) (current_fs s) (root_server s) true);;
    rootdev ← dm (getenv fuel (lit_eq env) (lit_rootfs env) (env_strings env));
    dk c4_get_id;;
    rootdev ← (if truthy rootdev then mret rootdev else dk c4_get_id;; dk c4_get_id;; mret (lit_fallback env));
    name ← dm (load_cstr fuel rootdev);
    server ← dk (nameserver_lookup (env_nameserv env) name);
    modify (λ s, set_root (root_dir s) (current_dir s) (current_fs s) server true s);;
    if server =? 0 then dk c4_get_id;; mret tt
    else
      dk c4_get_id;;
      s ← get;
      conn ← connect server (current_fs s);
      modify (λ s, set_root (root_dir s) (current_dir s) conn server true s);;
      r ← on_conn conn (λ peer, fs_get_root_dir peer conn);
      modify (set_root r.2 r.2 conn server true);;
      dk c4_get_id;; mret tt.

Fixpoint translate_modeflags (f : nat) (mode ret : Z) : M mem Z :=
  match f with
  | O => nofuel
  | S f' =>
      c ← rdc mode;
      if truthy c then
        translate_modeflags f' (mode + 1)
          (if c =? 114 then Z.lor ret FILE_MODE_READ
           else if c =? 119 then Z.lor ret FILE_MODE_WRITE
           else if c =? 43 then Z.lor ret FILE_MODE_APPEND else ret)
      else mret ret
  end.

(** [while] the character at [path] is a slash, [path++]. *)
Fixpoint skip_slashes (f : nat) (path : Z) : M mem Z :=
  match f with
  | O => nofuel
  | S f' => c ← rdc path; if c =? 47 then skip_slashes f' (path + 1) else mret path
  end.

(** The new [FILE] for the node the path led to; a failed [calloc] is a null
    dereference.  [mode] is a [char]. *)
Definition open_node (mode : Z) (temp : fs_node) : D Z :=
  ret ← dh (al_alloc sizeof_FILE);
  if ret =? 0 then ub
  else
    flags ← dm (translate_modeflags fuel mode 0);
    modify (λ s, set_files (<[ret := mk_file blank_fsconn temp (mk_dirent 0 0 0 []) FILE_STATUS_PRETTY_GOOD 0 (i8 flags)]> (io_files s)) s);;
    s ← get;
    conn ← connect (root_server s) blank_fsconn;
    upd_file ret (set_conn conn);;
    r ← on_conn conn (λ peer, fs_set_node peer conn temp);
    upd_file ret (set_conn r.2);;
    mret ret.

(** One lookup in the directory [temp]: the answer and the node found. *)
Definition find_component (name : list Z) (len : Z) (temp : fs_node) : D (Z * fs_node) :=
  s ← get;
  r ← on_conn (current_fs s) (λ peer, fs_set_node peer (current_fs s) temp);
  modify (λ s, set_root (root_dir s) (current_dir s) r.2 (root_server s) (initialized s) s);;
  s ← get;
  on_conn (current_fs s) (λ peer, fs_find_name peer (current_fs s) temp name len).

(** [0] is [NULL]. *)
Fixpoint open_loop (turns : nat) (mode path : Z) (temp : fs_node) : D Z :=
  match turns with
  | O => nofuel
  | S t =>
      path ← dm (skip_slashes fuel path);
      foo ← dm (strcspn fuel path (lit_slash env));
      if foo =? 0 then open_node mode temp
      else
        let maxlen := FS_MAX_NAME_LEN + 1 in
        dm (strlcpy fuel (namebuf env) path (if foo + 1 <? maxlen then foo + 1 else maxlen));;
        s ← get;
        r ← find_component (mapped_bytes (Z.to_nat foo) (namebuf env) (io_mem s)) foo temp;
        if 0 <? r.1 then open_loop t mode (path + foo) r.2 else mret 0
  end.

Definition fopen (turns : nat) (path mode : Z) : D Z :=
  init_rootfs;;
  c ← dm (rdc path);
  s ← get;
  open_loop turns mode path (if c =? 47 then root_dir s else current_dir s).

Definition fclose (fp : Z) : D Z :=
  if truthy fp then
    upd_file fp (set_status FILE_STATUS_CLOSED);;
    f ← load_file fp;
    c ← disconnect (f_conn f);
    upd_file fp (set_conn c);;
    modify (λ s, set_files (delete fp (io_files s)) s);;
    dh (al_free fp);;
    mret 0
  else mret 0.

(** The [FILE] opened for it is left behind. *)
Definition freopen (turns : nat) (path mode fp : Z) : D Z :=
  temp ← fopen turns path mode;
  if truthy temp then
    f ← load_file fp;
    disconnect (f_conn f);;
    t ← load_file temp;
    upd_file fp (λ _, t);;
    mret fp
  else mret 0.

(** ** Directories *)
Definition opendir (turns : nat) (name : Z) : D Z := fopen turns name (lit_r env).
Definition closedir (dirp : Z) : D Z := fclose dirp.

(** The characters of the entry's name, up to its terminator; without one the
    scan leaves the record. *)
Fixpoint name_chars (ent : list Z) : option (list Z) :=
  match ent with
  | [] => None
  | b :: rest => if b =? 0 then Some [] else cs ← name_chars rest; Some (b :: cs)
  end.

(** [None] is [NULL]. *)
Definition readdir (dirp : Z) : D (option dirent) :=
  f ← load_file dirp;
  r ← on_conn (f_conn f) (λ peer, fs_next_dirent peer (f_conn f));
  if r.1 <=? 0 then mret None
  else
    name ← getsome (λ _, name_chars r.2);
    let d := mk_dirent (dirent_inode r.2) 0 sizeof_libc_dirent (take 255 name ++ [0]) in
    upd_file dirp (set_dent d);;
    mret (Some d).

(** ** Reading and writing *)
Fixpoint read_all (turns : nat) (fp len ret : Z) (out : list Z) : D (Z * list Z) :=
  match turns with
  | O => nofuel
  | S t =>
      f ← load_file fp;
      r ← on_conn (f_conn f) (λ peer, fs_read_block peer (f_conn f) len);
      upd_file fp (set_conn r.2);;
      let nread := i32 r.1.1 in
      if 0 <? nread then read_all t fp (u32 (len - nread)) (u32 (ret + nread)) (out ++ r.1.2) else mret (ret, out)
  end.

(** The count and the bytes stored from [ptr] on. *)
Definition fread (turns : nat) (size members fp : Z) : D (Z * list Z) := read_all turns fp (u32 (size * members)) 0 [].

Fixpoint write_all (turns : nat) (buffer : list Z) (fp len ret : Z) : D Z :=
  match turns with
  | O => nofuel
  | S t =>
      f ← load_file fp;
      r ← on_conn (f_conn f) (λ peer, fs_write_block peer fuel (f_conn f) (drop (Z.to_nat ret) buffer) len);
      upd_file fp (set_conn r.2);;
      let nread := i32 r.1 in
      if 0 <? nread then write_all t buffer fp (u32 (len - nread)) (u32 (ret + nread)) else mret ret
  end.

Definition fwrite (turns : nat) (buffer : list Z) (size members fp : Z) : D Z := write_all turns buffer fp (u32 (size * members)) 0.

Definition fputc (turns : nat) (c fp : Z) : D Z := fwrite turns [u8 c] 1 1 fp;; mret c.

Definition fputs (turns : nat) (str fp : Z) : D Z :=
  n ← dm (strlen fuel str);
  s ← get;
  n' ← fwrite turns (mapped_bytes (Z.to_nat n) str (io_mem s)) n 1 fp;
  mret (i32 n').

Definition fgetc (turns : nat) (stream : Z) : D Z :=
  f ← load_file stream;
  if negb (f_status f =? FILE_STATUS_PRETTY_GOOD) then mret (- EBADF)
  else
    r ← fread turns 1 1 stream;
    if 0 <? r.1 then c ← getsome (λ _, zget r.2 0); mret (i8 c)
    else upd_file stream (set_status FILE_STATUS_END_OF_FILE);; mret EOF.

Definition getc (turns : nat) (stream : Z) : D Z := fgetc turns stream.

Definition feof (stream : Z) : D bool := f ← load_file stream; mret (f_status f =? FILE_STATUS_END_OF_FILE).
Definition ferror (stream : Z) : D bool := f ← load_file stream; mret (negb (f_status f =? FILE_STATUS_PRETTY_GOOD)).

(** [c] is the [char] read last. *)
Fixpoint gets_loop (n : nat) (turns : nat) (s size i c stream : Z) : D Z :=
  match n with
  | O => nofuel
  | S n' =>
      e ← feof stream;
      if negb e && (i <? u32 (size - 1)) then
        dm (wr (s + i) c);;
        if c =? 10 then mret (i + 1)
        else c ← fgetc turns stream; gets_loop n' turns s size (i + 1) (i8 c) stream
      else mret i
  end.

Definition fgets (n turns : nat) (s size stream : Z) : D Z :=
  c ← fgetc turns stream;
  k ← gets_loop n turns s size 0 (i8 c) stream;
  dm (wr (s + k) 0);;
  mret s.
End stdio.
