(* ===== verification/StdioSpec.v ===== *)
(** Files as byte streams: what [fread], [fgetc] and [fgets] deliver when the
    server hands a file out in pieces of whatever size it likes. *)

From S2P Require Import Prelude Interfaces Kernel Mem RingBuffer Connman CString Words Filesystem Stdio.
#[local] Open Scope Z_scope.

(** A server that hands out one file on one connection: after the calls [h],
    [rest h] is what is left of the file; the ring buffer has [ring_size] slots;
    [live h] are the histories in which the file is open. *)
Record stream_server := mk_stream { rest : list kcall → list Z; ring_size : Z; live : list kcall → Prop }.

Section stream.
Context `{KernelEnv} {R : Type} `{Allocator R} {Hp : Type} `{Allocator Hp}.
Context (peer : Z → list kcall → c4_ringbuf → c4_ringbuf) (W : stream_server).
Abbreviation D := (M (stdio R Hp)).

(** The three system calls of a read request on a connection. *)
Definition read_calls (c : c4rt_conn) : list kcall :=
  [mk_call SYSCALL_ASYNC_RECIEVE [0; u32 (async_from c); u32 MESSAGE_ASYNC_BLOCK; 0] no_msg;
   mk_call SYSCALL_SYNC_SEND [0; u32 (server_port c); 0; 0] (mk_msg C4RT_CONNMAN_NEW_MESSAGE [client_id c]);
   mk_call SYSCALL_ASYNC_SEND [0; u32 (async_to c); 0; 0] (mk_msg FS_MSG_READ_BLOCK [0])].

(** The server behind connection [c] keeps to that: a read request on an empty
    ring buffer puts a piece of the file there, an empty one at its end only. *)
Definition ring_of (b : c4_ringbuf) : Prop := ring_wf b ∧ size b = ring_size W.
Record serves (c : c4rt_conn) : Prop := {
  sv_reply : ∀ h, live W h → mtype (kernel (read_calls c ++ h)).2 ≠ FS_MSG_ERROR;
  sv_piece : ∀ h b, live W h → ring_of b → contents b = [] → let h' := read_calls c ++ h in let b' := peer (ringbuf c) h' b in
    live W h' ∧ ring_of b' ∧ rest W h = contents b' ++ rest W h' ∧ (contents b' = [] → rest W h = [])
}.

Lemma call_run c f msg p b :
  let h' := mk_call SYSCALL_ASYNC_RECIEVE [0; u32 (async_from c); u32 MESSAGE_ASYNC_BLOCK; 0] no_msg ::
            mk_call SYSCALL_SYNC_SEND [0; u32 (server_port c); 0; 0] (mk_msg C4RT_CONNMAN_NEW_MESSAGE [client_id c]) ::
            mk_call SYSCALL_ASYNC_SEND [0; u32 (async_to c); 0; 0] msg :: p_hist p in
  fc_server f = c →
  call (R := R) (peer (ringbuf c)) f msg (mk_client p b) =
  Ret ((kernel h').2, mk_client (mk_process h' (p_region p)) (peer (ringbuf c) h' b)).
Proof. intros h' <-. done. Qed.

(** ** One block *)

(** The file is open on connection [c] and [stream] is what it has to give. *)
Record reading (fp : Z) (c : c4rt_conn) (st : Z) (stream : list Z) (s : stdio R Hp) : Prop := {
  rg_file : ∃ f, io_files s !! fp = Some f ∧ fc_server (f_conn f) = c ∧ f_status f = st;
  rg_live : live W (p_hist (io_proc s));
  rg_ring : ∃ b, io_rings s !! ringbuf c = Some b ∧ ring_of b ∧ stream = contents b ++ rest W (p_hist (io_proc s))
}.

(** Nothing but the file's record and its ring buffer is different. *)
Record same_but (fp a : Z) (s s' : stdio R Hp) : Prop := {
  sb_files : ∀ q, q ≠ fp → io_files s' !! q = io_files s !! q;
  sb_rings : ∀ q, q ≠ a → io_rings s' !! q = io_rings s !! q;
  sb_heap : io_heap s' = io_heap s;
  sb_region : p_region (io_proc s') = p_region (io_proc s);
  sb_mem : io_mem s' = io_mem s
}.

Lemma same_but_refl fp a s : same_but fp a s s.
Proof. done. Qed.

Lemma same_but_trans fp a s1 s2 s3 : same_but fp a s1 s2 → same_but fp a s2 s3 → same_but fp a s1 s3.
Proof.
  intros [F1 R1 E1 P1 M1] [F2 R2 E2 P2 M2].
  split; [intros q Hq; by rewrite F2, F1|intros q Hq; by rewrite R2, R1|congruence..].
Qed.

Lemma fs_read_block_ok c f p b maxlen : serves c → fc_server f = c → live W (p_hist p) → ring_of b → 0 <= maxlen < 2 ^ 31 →
  ∃ out f' p' b', fs_read_block (R := R) (peer (ringbuf c)) f maxlen (mk_client p b) =
      Ret ((Z.of_nat (length out), out, f'), mk_client p' b') ∧
    fc_server f' = c ∧ p_region p' = p_region p ∧ live W (p_hist p') ∧ ring_of b' ∧ Z.of_nat (length out) <= maxlen ∧
    contents b ++ rest W (p_hist p) = out ++ contents b' ++ rest W (p_hist p') ∧
    (out = [] → maxlen = 0 ∨ contents b ++ rest W (p_hist p) = []).
Proof.
  intros Hsv Hf Hlv Hrb Hmax. unfold fs_read_block.
  assert (∀ b1 p1, live W (p_hist p1) → ring_of b1 → (contents b1 = [] → rest W (p_hist p1) = []) → ∃ out f' p' b',
    (r ← on_ring (c4_ringbuf_read maxlen); mret (r.2, r.1, mk_fsconn (fc_server f) (fc_node f) (u32 (fc_index f + r.2)))) (mk_client p1 b1) =
      Ret ((Z.of_nat (length out), out, f'), mk_client (R := R) p' b') ∧
    fc_server f' = c ∧ p_region p' = p_region p1 ∧ live W (p_hist p') ∧ ring_of b' ∧ Z.of_nat (length out) <= maxlen ∧
    contents b1 ++ rest W (p_hist p1) = out ++ contents b' ++ rest W (p_hist p') ∧
    (out = [] → maxlen = 0 ∨ contents b1 ++ rest W (p_hist p1) = [])) as Hread.
  { intros b1 p1 Hl1 [Hwf1 Hsz1] Hend. destruct (ringbuf_read_ok maxlen b1 Hwf1 ltac:(lia)) as (b2 & E & Hwf2 & Hsz2 & Hc).
    set (k := Z.min maxlen (Z.of_nat (length (contents b1)))) in *.
    exists (take (Z.to_nat k) (contents b1)), (mk_fsconn (fc_server f) (fc_node f) (u32 (fc_index f + k))), p1, b2. rewrite length_take.
    split_and!; [|done|done|done|split; [done|congruence]|lia| |].
    - unfold on_ring, zoom, mbind, M_bind. simpl. rewrite E. unfold mret, M_ret. cbn [fst snd].
      replace (Z.of_nat (Z.to_nat k `min` length (contents b1))) with k by lia. reflexivity.
    - by rewrite Hc, (assoc_L (++)), take_drop.
    - intros Ho. destruct (decide (maxlen = 0)) as [|Hm]; [by left|right].
      assert (contents b1 = []) as Hnil. { destruct (contents b1) as [|x l] eqn:El; [done|]. simpl length in *.
        apply (f_equal (@length _)) in Ho. rewrite length_take in Ho. simpl in Ho. lia. }
      by rewrite Hnil, Hend. }
  rewrite (bind_run get _ _ _ _ eq_refl). cbn [c_ring]. pose proof Hrb as [Hwf _]. rewrite (empty_iff b Hwf). destruct (Z.eqb_spec (ring_len b) 0) as [E0|E0].
  - assert (contents b = []) as Hnil by (apply nil_length_inv; rewrite length_contents; lia).
    destruct (sv_piece _ Hsv (p_hist p) b Hlv Hrb Hnil) as (Hl1 & Hrb1 & Hrest & Hend).
    set (h' := read_calls c ++ p_hist p) in *. set (b1 := peer (ringbuf c) h' b) in *.
    erewrite bind_run; [|erewrite bind_run; [|exact (call_run c f _ p b Hf)]; reflexivity]. cbv beta.
    change (mk_call _ _ _ :: mk_call _ _ _ :: mk_call _ _ _ :: p_hist p) with h'.
    pose proof (sv_reply _ Hsv (p_hist p) Hlv) as Hrep. fold h' in Hrep. rewrite (proj2 (Z.eqb_neq _ _) Hrep), Hnil, Hrest. cbn [app].
    apply (Hread b1 (mk_process h' (p_region p)) Hl1 Hrb1). intros Hb1. cbn [p_hist]. rewrite Hend, Hb1 in Hrest by done. by simpl in Hrest.
  - erewrite bind_run by reflexivity. apply (Hread b p Hlv Hrb). intros Hnil. exfalso. apply E0. rewrite <-(contents_len b Hwf), Hnil. done.
Qed.

(** ** The whole request *)
Lemma file_turn_ok fp c st stream s len : serves c → reading fp c st stream s → 0 <= len < 2 ^ 31 → ∃ piece f' s',
  (∀ B (k : Z * list Z * fs_connection → D B),
    (f ← load_file fp; r ← on_conn peer (f_conn f) (λ peer, fs_read_block peer (f_conn f) len); upd_file fp (Stdio.set_conn r.2);; k r) s =
    k (Z.of_nat (length piece), piece, f') s') ∧
  stream = piece ++ drop (length piece) stream ∧ reading fp c st (drop (length piece) stream) s' ∧
  same_but fp (ringbuf c) s s' ∧ Z.of_nat (length piece) <= len ∧ (piece = [] → len = 0 ∨ stream = []).
Proof.
  intros Hsv [(f & Ef & Hfc & Hst) Hlv (b & Eb & Hrb & Hstream)] Hlen.
  destruct (fs_read_block_ok c (f_conn f) (io_proc s) b len Hsv Hfc Hlv Hrb Hlen) as (out & f' & p' & b' & E & Hf' & Hpr & Hlv' & Hrb' & Hle & Hs' & Hnil).
  set (s1 := set_rings p' (<[ringbuf c := b']> (io_rings s)) s).
  set (s2 := set_files (<[fp := Stdio.set_conn f' f]> (io_files s1)) s1).
  exists out, f', s2. rewrite <-Hstream in *.
  assert (drop (length out) stream = contents b' ++ rest W (p_hist p')) as Hd by (by rewrite Hs', drop_app_length).
  split_and!.
  - intros B k. rewrite (bind_run (load_file fp) _ s f s) by (unfold load_file, getsome; by rewrite Ef).
    rewrite (bind_run _ _ s (Z.of_nat (length out), out, f') s1).
    2:{ unfold on_conn, with_ring. rewrite Hfc, Eb, E. done. }
    rewrite (bind_run _ _ s1 tt s2); [done|]. unfold upd_file. rewrite (bind_run (load_file fp) _ s1 f s1); [done|].
    unfold load_file, getsome. cbn [io_files set_rings s1]. by rewrite Ef.
  - by rewrite Hd.
  - rewrite Hd. split.
    + exists (Stdio.set_conn f' f). cbn [io_files set_files s2]. rewrite lookup_insert_eq. by split_and!.
    + done.
    + exists b'. cbn [io_rings set_files set_rings s2 s1]. by rewrite lookup_insert_eq.
  - split; intros; cbn [io_files io_rings set_files set_rings s2 s1]; rewrite ?lookup_insert_ne by done; done.
  - done.
  - done.
Qed.

Lemma read_all_ok fp c st : serves c → ∀ turns stream s len ret out, reading fp c st stream s → 0 <= len → 0 <= ret → ret + len < 2 ^ 31 →
  (Z.to_nat len < turns)%nat → let k := (Z.to_nat len `min` length stream)%nat in ∃ s',
  read_all peer turns fp len ret out s = Ret ((ret + Z.of_nat k, out ++ take k stream), s') ∧
  reading fp c st (drop k stream) s' ∧ same_but fp (ringbuf c) s s'.
Proof.
  intros Hsv. induction turns as [|turns IH]; intros stream s len ret out Hr Hlen Hret Hsum Ht k; [lia|]. cbn [read_all].
  destruct (file_turn_ok fp c st stream s len Hsv Hr ltac:(lia)) as (piece & f' & s1 & E & Hst & Hr1 & Hsb & Hle & Hnil).
  rewrite E. cbn [fst snd]. rewrite (i32_small (Z.of_nat (length piece))) by lia.
  assert (length stream = (length piece + length (drop (length piece) stream))%nat) as Hls by (by rewrite Hst at 1; rewrite length_app).
  destruct (Z.ltb_spec 0 (Z.of_nat (length piece))) as [Hpos|Hz].
  - rewrite !u32_small by lia.
    destruct (IH (drop (length piece) stream) s1 (len - Z.of_nat (length piece)) (ret + Z.of_nat (length piece)) (out ++ piece))
      as (s' & E' & Hr' & Hsb'); [done|lia|lia|lia|lia|].
    set (k' := (Z.to_nat (len - Z.of_nat (length piece)) `min` length (drop (length piece) stream))%nat) in *.
    assert (k = (length piece + k')%nat) as Hk by (unfold k, k'; lia).
    exists s'. split_and!.
    + rewrite E', Hk. do 2 f_equal. f_equal; [lia|]. rewrite <-(assoc_L (++)). f_equal. rewrite Hst at 2.
      by rewrite take_app_add.
    + rewrite Hk, <-drop_drop. done.
    + by eapply same_but_trans.
  - assert (piece = []) as -> by (apply nil_length_inv; lia). assert (k = 0%nat) as ->.
    { unfold k. destruct (Hnil eq_refl) as [->| ->]; simpl; lia. }
    exists s1. rewrite Z.add_0_r, take_0, app_nil_r. split_and!; [done| |done]. done.
Qed.

(** ** Characters and lines *)
Lemma fread_ok fp c st stream s turns size members : serves c → reading fp c st stream s →
  let len := u32 (size * members) in len < 2 ^ 31 → (Z.to_nat len < turns)%nat →
  let k := (Z.to_nat len `min` length stream)%nat in ∃ s',
  fread peer turns size members fp s = Ret ((Z.of_nat k, take k stream), s') ∧
  reading fp c st (drop k stream) s' ∧ same_but fp (ringbuf c) s s'.
Proof.
  intros Hsv Hr len Hlen Ht k. pose proof (u32_range (size * members)).
  destruct (read_all_ok fp c st Hsv turns stream s len 0 [] Hr) as (s' & E & ?); [unfold len; lia..|]. by exists s'.
Qed.

Lemma set_status_reading fp c st st' stream s : reading fp c st stream s → ∃ s',
  upd_file (R := R) (Hp := Hp) fp (Stdio.set_status st') s = Ret (tt, s') ∧ reading fp c st' stream s' ∧ same_but fp (ringbuf c) s s'.
Proof.
  intros [(f & Ef & Hfc & Hst) Hlv Hring]. eexists. split.
  { unfold upd_file. rewrite (bind_run (load_file fp) _ s f s); [done|]. unfold load_file, getsome. by rewrite Ef. }
  split.
  - split.
    + exists (Stdio.set_status st' f). cbn [io_files set_files]. by rewrite lookup_insert_eq.
    + done.
    + done.
  - split; intros; cbn [io_files set_files]; rewrite ?lookup_insert_ne by done; done.
Qed.

(** One character, or the end of the file. *)
Lemma fgetc_ok fp c stream s turns : serves c → reading fp c FILE_STATUS_PRETTY_GOOD stream s → (1 < turns)%nat → ∃ s',
  fgetc peer turns fp s = Ret (match stream with [] => EOF | b :: _ => i8 b end, s') ∧
  reading fp c (match stream with [] => FILE_STATUS_END_OF_FILE | _ => FILE_STATUS_PRETTY_GOOD end) (tail stream) s' ∧
  same_but fp (ringbuf c) s s'.
Proof.
  intros Hsv Hr Ht. unfold fgetc. destruct (rg_file _ _ _ _ _ Hr) as (f & Ef & _ & Hst).
  rewrite (bind_run (load_file fp) _ s f s) by (unfold load_file, getsome; by rewrite Ef). rewrite Hst. cbn [Z.eqb negb FILE_STATUS_PRETTY_GOOD].
  destruct (fread_ok fp c _ stream s turns 1 1 Hsv Hr) as (s1 & E & Hr1 & Hsb); [done|exact Ht|].
  change (Z.to_nat (u32 (1 * 1))) with 1%nat in *. rewrite (bind_run _ _ _ _ _ E).
  destruct stream as [|b stream]; simpl in *.
  - destruct (set_status_reading fp c _ FILE_STATUS_END_OF_FILE [] s1 Hr1) as (s2 & E2 & Hr2 & Hsb2). exists s2.
    rewrite (bind_run _ _ _ _ _ E2). split_and!; [done|done|by eapply same_but_trans].
  - exists s1. done.
Qed.

(** What [fgets] stores with room for [n] characters, and what is left of the
    stream: when the line is longer the character read last is dropped. *)
Fixpoint line (n : nat) (stream : list Z) : list Z * list Z :=
  match stream with
  | [] => ([], [])
  | b :: more =>
      match n with
      | O => ([], more)
      | S n' => if i8 b =? 10 then ([b], more) else (b :: (line n' more).1, (line n' more).2)
      end
  end.

(** Whether the end of the file was met. *)
Fixpoint ended (n : nat) (stream : list Z) : bool :=
  match stream with
  | [] => true
  | b :: more => match n with O => false | S n' => if i8 b =? 10 then false else ended n' more end
  end.
Definition status_after (n : nat) (stream : list Z) : Z :=
  if ended n stream then FILE_STATUS_END_OF_FILE else FILE_STATUS_PRETTY_GOOD.

Lemma length_line n : ∀ stream, (length (line n stream).1 <= n)%nat.
Proof.
  induction n as [|n IH]; intros [|b more]; simpl; try lia. destruct (i8 b =? 10); simpl; [lia|]. specialize (IH more). lia.
Qed.

Lemma Forall_line (P : Z → Prop) n : ∀ stream, Forall P stream → Forall P (line n stream).1.
Proof.
  induction n as [|n IH]; intros [|b more] Hall; simpl; try done. apply Forall_cons in Hall as [Hb Hall].
  destruct (i8 b =? 10); simpl; [by repeat constructor|]. constructor; [done|by apply IH].
Qed.

Lemma reading_mem fp c st stream m (s : stdio R Hp) : reading fp c st stream s → reading fp c st stream (set_iomem m s).
Proof. intros [Hf Hl Hr]. by split. Qed.

Lemma same_but_mem fp a m m' (s s' : stdio R Hp) : same_but fp a s s' → io_mem s = m → same_but fp a (set_iomem m' s) (set_iomem m' s').
Proof. intros [F1 R1 E1 M1] _. by split. Qed.

(** The state of the loop: [c] is the first character of [stream], which has
    been read already, or the end of the file was met. *)
Definition holding (fp : Z) (cn : c4rt_conn) (stream : list Z) (c : Z) (s : stdio R Hp) : Prop :=
  match stream with
  | [] => reading fp cn FILE_STATUS_END_OF_FILE [] s
  | b :: more => reading fp cn FILE_STATUS_PRETTY_GOOD more s ∧ c = i8 b
  end.

Lemma feof_ok fp cn st stream s : reading fp cn st stream s → feof (R := R) (Hp := Hp) fp s = Ret (st =? FILE_STATUS_END_OF_FILE, s).
Proof.
  intros [(f & Ef & _ & <-) _ _]. unfold feof. rewrite (bind_run (load_file fp) _ s f s); [done|]. unfold load_file, getsome. by rewrite Ef.
Qed.

Lemma fgetc_holding fp cn stream s turns : serves cn → reading fp cn FILE_STATUS_PRETTY_GOOD stream s → (1 < turns)%nat → ∃ c s',
  fgetc peer turns fp s = Ret (c, s') ∧ holding fp cn stream (i8 c) s' ∧ same_but fp (ringbuf cn) s s'.
Proof.
  intros Hsv Hr Ht. destruct (fgetc_ok fp cn stream s turns Hsv Hr Ht) as (s' & E & Hr' & Hsb).
  eexists _, s'. split; [exact E|]. split; [|done]. destruct stream as [|b more]; [done|]. split; [done|].
  pose proof (wraps_range 8 b ltac:(lia)). apply wraps_small; lia.
Qed.

Lemma gets_loop_ok fp cn buf size turns : serves cn → (1 < turns)%nat → 0 < size < 2 ^ 31 → ∀ n i c stream s,
  holding fp cn stream c s → Forall (λ b, 0 <= b < 256) stream → 0 <= i <= size - 1 → CString.mapped (io_mem s) buf size →
  (Z.to_nat (size - 1 - i) < n)%nat → let r := line (Z.to_nat (size - 1 - i)) stream in ∃ s' m',
  gets_loop peer n turns buf size i c fp s = Ret (i + Z.of_nat (length r.1), s') ∧
  reading fp cn (status_after (Z.to_nat (size - 1 - i)) stream) r.2 s' ∧ io_mem s' = m' ∧ bytes_at m' (buf + i) r.1 ∧
  only (io_mem s) m' (buf + i) (Z.of_nat (length r.1)) ∧ same_but fp (ringbuf cn) s (set_iomem (io_mem s) s').
Proof.
  intros Hsv Ht Hsz. induction n as [|n IH]; intros i c stream s Hh Hby Hi Hm Hn r; [lia|]. cbn [gets_loop].
  assert (u32 (size - 1) = size - 1) as Eu by (apply u32_small; lia).
  destruct stream as [|b more].
  { simpl in Hh. rewrite (bind_run _ _ _ _ _ (feof_ok _ _ _ _ _ Hh)). cbn [negb andb FILE_STATUS_END_OF_FILE Z.eqb Pos.eqb].
    exists s, (io_mem s). assert (r = ([], []) ∧ ended (Z.to_nat (size - 1 - i)) [] = true) as [-> Ee] by (unfold r; by destruct (Z.to_nat _)).
    unfold status_after. rewrite Ee. simpl. rewrite Z.add_0_r. split_and!; [done..|apply only_refl|done]. }
  destruct Hh as [Hr ->]. apply Forall_cons in Hby as [Hb Hby].
  rewrite (bind_run _ _ _ _ _ (feof_ok _ _ _ _ _ Hr)). rewrite Eu. change (FILE_STATUS_PRETTY_GOOD =? FILE_STATUS_END_OF_FILE) with false.
  cbn [negb andb]. destruct (Z.ltb_spec i (size - 1)) as [Hlt|Hge].
  2:{ exists s, (io_mem s). assert (Z.to_nat (size - 1 - i) = 0%nat) as E0 by lia. unfold r. rewrite E0. simpl. rewrite Z.add_0_r.
      split_and!; [done..|apply only_refl|done]. }
  assert (Z.to_nat (size - 1 - i) = S (Z.to_nat (size - 1 - (i + 1)))) as En by lia. unfold r. rewrite En. unfold status_after. cbn [line ended].
  destruct (Hm (buf + i)) as [old Eold]; [lia|].
  set (s1 := set_iomem (<[buf + i := u8 (i8 b)]> (io_mem s)) s).
  assert (u8 (i8 b) = b) as Eb.
  { unfold wraps. rewrite (Z.mod_small b) by lia. cbv zeta. zbool; [by apply wrapu_small|]. unfold wrapu.
    symmetry. apply (Z.mod_unique_pos _ _ (-1)); lia. }
  rewrite (bind_run _ _ s tt s1). 2:{ unfold dm, zoom. by rewrite (wr_ok _ _ _ _ Eold). }
  assert (only (io_mem s) (io_mem s1) (buf + i) 1) as Ho1.
  { split; [intros a Ha; cbn [io_mem set_iomem s1]; by rewrite lookup_insert_ne by lia|].
    intros a Ha. apply lookup_insert_is_Some'. by right. }
  assert (io_mem s1 !! (buf + i) = Some b) as Es1 by (cbn [io_mem set_iomem s1]; by rewrite lookup_insert_eq, Eb).
  destruct (i8 b =? 10).
  - exists s1, (io_mem s1). cbn [fst snd length]. split_and!; [done|by apply reading_mem|done| |done|by destruct s].
    intros [|j] x Hj; [|done]. injection Hj as <-. by rewrite Z.add_0_r.
  - destruct (fgetc_holding fp cn more s1 turns Hsv (reading_mem _ _ _ _ _ _ Hr) Ht) as (c2 & s2 & E2 & Hh2 & Hsb2).
    rewrite (bind_run _ _ _ _ _ E2). pose proof (sb_mem _ _ _ _ Hsb2) as Em2.
    destruct (IH (i + 1) (i8 c2) more s2 Hh2 Hby ltac:(lia)) as (s' & m' & E' & Hr' & Em & Hbs & Ho & Hsb'); [|lia|].
    { rewrite Em2. by eapply only_mapped. }
    rewrite Em2 in Ho, Hsb'. set (l := line _ more) in *. exists s', m'. cbn [fst snd length]. split_and!; try done.
    + rewrite E'. do 2 f_equal. lia.
    + apply (bytes_at_app m' (buf + i) [b] l.1). split.
      * intros [|j] x Hj; [|done]. injection Hj as <-. rewrite Z.add_0_r. rewrite (proj1 Ho) by lia. done.
      * simpl length. by replace (buf + i + Z.of_nat 1) with (buf + (i + 1)) by lia.
    + eapply only_trans; [exact Ho1|exact Ho|lia..].
    + eapply same_but_trans; [|]. 2: exact (same_but_mem _ _ _ (io_mem s) _ _ Hsb' Em2).
      eapply same_but_trans; [|exact (same_but_mem _ _ _ (io_mem s) _ _ Hsb2 eq_refl)]. by destruct s.
Qed.

(** [fread] delivers the file: whatever pieces the server answers with, it
    stores the next [size * members] bytes of the stream, or all that is left
    of it, in order and without gaps, answers how many they are, and leaves the
    rest of the stream and every other file as they were. *)
Theorem fread_correct fp c st stream s turns size members : serves c → reading fp c st stream s →
  let len := u32 (size * members) in len < 2 ^ 31 → (Z.to_nat len < turns)%nat →
  let k := (Z.to_nat len `min` length stream)%nat in ∃ s',
  fread peer turns size members fp s = Ret ((Z.of_nat k, take k stream), s') ∧
  reading fp c st (drop k stream) s' ∧ same_but fp (ringbuf c) s s'.
Proof. apply fread_ok. Qed.

Lemma fgets_ok fp c stream s n turns buf size :
  serves c → reading fp c FILE_STATUS_PRETTY_GOOD stream s → Forall (λ b, 0 <= b < 256) stream →
  0 < size < 2 ^ 31 → CString.mapped (io_mem s) buf size → (Z.to_nat size <= n)%nat → (1 < turns)%nat →
  let r := line (Z.to_nat (size - 1)) stream in ∃ s',
  fgets peer n turns buf size fp s = Ret (buf, s') ∧ bytes_at (io_mem s') buf (r.1 ++ [0]) ∧
  only (io_mem s) (io_mem s') buf size ∧ reading fp c (status_after (Z.to_nat (size - 1)) stream) r.2 s' ∧
  same_but fp (ringbuf c) s (set_iomem (io_mem s) s').
Proof.
  intros Hsv Hr Hby Hsz Hm Hn Ht r. unfold fgets.
  destruct (fgetc_holding fp c stream s turns Hsv Hr Ht) as (ch & s1 & E1 & Hh & Hsb1). rewrite (bind_run _ _ _ _ _ E1).
  pose proof (sb_mem _ _ _ _ Hsb1) as Em1.
  destruct (gets_loop_ok fp c buf size turns Hsv Ht Hsz n 0 (i8 ch) stream s1 Hh Hby) as (s2 & m2 & E2 & Hr2 & Em2 & Hb2 & Ho2 & Hsb2);
    [lia|by rewrite Em1|lia|]. rewrite Z.sub_0_r, Z.add_0_r in *. rewrite Em1 in Ho2, Hsb2. fold r in E2, Hr2, Hb2, Ho2.
  rewrite (bind_run _ _ _ _ _ E2), Z.add_0_l.
  pose proof (length_line (Z.to_nat (size - 1)) stream) as Hl. fold r in Hl.
  destruct (only_mapped _ _ _ _ buf size Ho2 Hm (buf + Z.of_nat (length r.1))) as [old Eold]; [lia|].
  set (m3 := <[buf + Z.of_nat (length r.1) := u8 0]> m2).
  rewrite (bind_run _ _ s2 tt (set_iomem m3 s2)). 2:{ unfold dm, zoom. rewrite Em2. by rewrite (wr_ok _ _ _ _ Eold). }
  exists (set_iomem m3 s2). cbn [io_mem set_iomem]. split_and!; [done| | | |].
  - apply bytes_at_app. split.
    + eapply bytes_at_ext; [|exact Hb2]. intros a Ha. apply lookup_insert_ne. lia.
    + intros [|j] x Hj; [|done]. injection Hj as <-. rewrite Z.add_0_r. apply lookup_insert_eq.
  - eapply only_trans with (p := buf) (n := Z.of_nat (length r.1)) (q := buf + Z.of_nat (length r.1)) (k := 1); [exact Ho2| |lia..].
    split; [intros a Ha; apply lookup_insert_ne; lia|]. intros a Ha. apply lookup_insert_is_Some'. by right.
  - by apply reading_mem.
  - eapply same_but_trans; [exact Hsb1|]. destruct Hsb2. by split.
Qed.

(** C17: [fgets] stores the characters up to and including the next newline, at
    most [size - 1] of them, terminated, writes nothing outside the buffer and
    leaves the stream behind what it took; a line that does not fit loses the
    character after the ones stored. *)
Theorem fgets_correct fp c stream s n turns buf size :
  serves c → reading fp c FILE_STATUS_PRETTY_GOOD stream s → Forall (λ b, 0 <= b < 256) stream →
  0 < size < 2 ^ 31 → CString.mapped (io_mem s) buf size → (Z.to_nat size <= n)%nat → (1 < turns)%nat →
  let r := line (Z.to_nat (size - 1)) stream in ∃ s',
  fgets peer n turns buf size fp s = Ret (buf, s') ∧ bytes_at (io_mem s') buf (r.1 ++ [0]) ∧
  only (io_mem s) (io_mem s') buf size ∧ reading fp c (status_after (Z.to_nat (size - 1)) stream) r.2 s' ∧
  same_but fp (ringbuf c) s (set_iomem (io_mem s) s').
Proof. apply fgets_ok. Qed.

(** A line of more than [n] characters: the next one is neither stored nor
    left. *)
Lemma line_drops n : ∀ stream x more, length stream = n → Forall (λ b, i8 b ≠ 10) stream →
  line n (stream ++ x :: more) = (stream, more).
Proof.
  induction n as [|n IH]; intros [|b stream] x more Hl Hnl; try done. apply Forall_cons in Hnl as [Hb Hnl]. simpl.
  rewrite (proj2 (Z.eqb_neq _ _) Hb), IH; [done|by injection Hl|done].
Qed.
End stream.

(** ** A server with one piece *)

(** The file is "hi", newline, "yo", handed out on the first request. *)
Definition hi_file : list Z := [104; 105; 10; 121; 111].
Definition hi_ring : c4_ringbuf := mk_ringbuf 0 5 16 (hi_file ++ replicate 11 0).
Definition idle_ring : c4_ringbuf := mk_ringbuf 0 0 16 (replicate 16 0).
Definition hi_peer (a : Z) (h : list kcall) (b : c4_ringbuf) : c4_ringbuf := if decide (length h = 3%nat) then hi_ring else b.
Definition hi_rest (h : list kcall) : list Z := match h with [] => hi_file | _ => [] end.
Definition hi_server : stream_server := mk_stream hi_rest 16 (λ _, True).
Definition hi_conn : c4rt_conn := mk_conn 7 8 9 10 0 (mk_memobj 4096 11 3 true) 4096.
Definition hi_stdio : stdio Bump.bump Bump.bump :=
  mk_stdio (mk_process [] (Some Bump.start)) {[4096 := idle_ring]} Bump.start
    {[512 := mk_file (mk_fsconn hi_conn blank_node 0) blank_node (mk_dirent 0 0 0 []) 0 0 0]}
    (put_bytes 64 (replicate 8 0) ∅) blank_node blank_node blank_fsconn 0 true.

Lemma hi_serves : let _ := steady 0 no_msg in serves hi_peer hi_server hi_conn.
Proof.
  intros env. split.
  - intros h _. vm_compute. discriminate.
  - intros h b _ Hrb Hc. split; [done|]. unfold hi_peer. destruct h as [|k h].
    + rewrite decide_True by done. split; [split; [split; vm_compute; done|done]|]. split; [vm_compute; reflexivity|]. vm_compute. discriminate.
    + rewrite decide_False by (simpl; lia). rewrite Hc. done.
Qed.

Lemma hi_reading : reading hi_server 512 hi_conn FILE_STATUS_PRETTY_GOOD hi_file hi_stdio.
Proof.
  split.
  - eexists. by split_and!.
  - done.
  - exists idle_ring. split; [reflexivity|]. split; [split; [split; vm_compute; done|reflexivity]|reflexivity].
Qed.

Lemma fread_correct_witness : let _ := steady 0 no_msg in ∃ s', fread hi_peer 9 2 2 512 hi_stdio = Ret ((4, [104; 105; 10; 121]), s').
Proof.
  intros env. destruct (fread_correct hi_peer hi_server 512 hi_conn 0 hi_file hi_stdio 9 2 2 hi_serves hi_reading) as (s' & E & _);
    [vm_compute; reflexivity|vm_compute; lia|]. exists s'. exact E.
Defined.

Lemma fgets_correct_witness : let _ := steady 0 no_msg in ∃ s', fgets hi_peer 9 9 64 8 512 hi_stdio = Ret (64, s') ∧
  bytes_at (io_mem s') 64 [104; 105; 10; 0].
Proof.
  intros env. destruct (fgets_correct hi_peer hi_server 512 hi_conn hi_file hi_stdio 9 9 64 8 hi_serves hi_reading) as (s' & E & Hb & _).
  - repeat constructor; lia.
  - lia.
  - apply (put_bytes_mapped 64 (replicate 8 0) ∅).
  - lia.
  - lia.
  - exists s'. split; [exact E|exact Hb].
Defined.
