(* ===== verification/FopenSpec.v ===== *)
(** Paths: [fopen] looks the components of its path up one after the other,
    however many slashes separate them, and opens what the last one names. *)

From S2P Require Import Prelude Interfaces Kernel Mem RingBuffer Connman CString Words Filesystem Stdio.
#[local] Open Scope Z_scope.

(** ** The components of a path *)

(** [acc] holds the characters of the current component, last first. *)
Fixpoint split_path (acc cs : list Z) : list (list Z) :=
  let out := match acc with [] => [] | _ => [rev acc] end in
  match cs with
  | [] => out
  | c :: cs' => if c =? 47 then out ++ split_path [] cs' else split_path (c :: acc) cs'
  end.
Definition components (path : list Z) : list (list Z) := split_path [] path.

Lemma components_slashes k cs : components (replicate k 47 ++ cs) = components cs.
Proof. induction k; [done|exact IHk]. Qed.

Lemma split_path_name name : ∀ acc tl, 47 ∉ name → split_path acc (name ++ tl) = split_path (rev name ++ acc) tl.
Proof.
  induction name as [|c name IH]; intros acc tl Hn; [done|]. apply not_elem_of_cons in Hn as [Hc Hn].
  cbn [app split_path]. rewrite (proj2 (Z.eqb_neq c 47)) by lia. rewrite IH by done. simpl. by rewrite <-app_assoc.
Qed.

Lemma components_name name tl : name ≠ [] → 47 ∉ name → (∀ c, head tl = Some c → c = 47) →
  components (name ++ tl) = name :: components tl.
Proof.
  intros Hne Hn Htl. unfold components. rewrite split_path_name, app_nil_r by done.
  assert (match rev name with [] => [] | _ => [rev (rev name)] end = [name]) as E.
  { rewrite rev_involutive. destruct (rev name) eqn:Er; [|done]. apply (f_equal (@rev Z)) in Er. by rewrite rev_involutive in Er. }
  destruct tl as [|c tl]; cbn [split_path]; rewrite E; [done|]. by rewrite (Htl c eq_refl).
Qed.

(** Slashes, a component, and a rest that starts with a slash. *)
Lemma path_cut cs : ∃ k name tl, cs = replicate k 47 ++ name ++ tl ∧ 47 ∉ name ∧ (∀ c, head tl = Some c → c = 47) ∧ (name = [] → tl = []) ∧
  components cs = match name with [] => [] | _ => name :: components tl end.
Proof.
  assert (∃ k r, cs = replicate k 47 ++ r ∧ head r ≠ Some 47) as (k & r & -> & Hr).
  { induction cs as [|c cs (k & r & -> & Hr)]; [by exists 0%nat, []|]. destruct (decide (c = 47)) as [->|Hc].
    - by exists (S k), r.
    - exists 0%nat, (c :: replicate k 47 ++ r). split; [done|]. by intros [= ]. }
  assert (∃ name tl, r = name ++ tl ∧ 47 ∉ name ∧ (∀ c, head tl = Some c → c = 47)) as (name & tl & -> & Hn & Htl).
  { clear Hr. induction r as [|c r (name & tl & -> & Hn & Htl)]; [exists [], []; split_and!; [done|apply not_elem_of_nil|done]|].
    destruct (decide (c = 47)) as [->|Hc].
    - exists [], (47 :: name ++ tl). split_and!; [done|apply not_elem_of_nil|by intros ? [= <-]].
    - exists (c :: name), tl. split_and!; [done|by apply not_elem_of_cons|done]. }
  assert (name = [] → tl = []) as Hnil by (intros ->; destruct tl as [|c tl]; [done|]; by rewrite (Htl c eq_refl) in Hr).
  exists k, name, tl. split_and!; try done. rewrite components_slashes. destruct name as [|c name].
  - by rewrite Hnil.
  - by apply components_name.
Qed.

(** The flags a mode string stands for. *)
Definition mode_flags (ms : list Z) : Z :=
  foldl (λ r c, if c =? 114 then Z.lor r FILE_MODE_READ else if c =? 119 then Z.lor r FILE_MODE_WRITE
                else if c =? 43 then Z.lor r FILE_MODE_APPEND else r) 0 ms.

Lemma translate_modeflags_ok fuel m : ∀ mode ms ret, (length ms < fuel)%nat → cstr m mode ms →
  translate_modeflags fuel mode ret m =
  Ret (foldl (λ r c, if c =? 114 then Z.lor r FILE_MODE_READ else if c =? 119 then Z.lor r FILE_MODE_WRITE
                else if c =? 43 then Z.lor r FILE_MODE_APPEND else r) ret ms, m).
Proof.
  induction fuel as [|fuel IH]; intros mode ms ret Hf Hm; [lia|]. cbn [translate_modeflags]. destruct ms as [|c ms].
  - by rewrite (bind_run _ _ _ _ _ (rdc_nil _ _ Hm)).
  - rewrite (bind_run _ _ _ _ _ (rdc_cons _ _ _ _ Hm)). destruct Hm as (_ & Hc & Hm). rewrite truthy_ne by done.
    simpl in Hf. by rewrite (IH _ ms) by (done || lia).
Qed.

Lemma skip_slashes_ok fuel m : ∀ k path cs, (k < fuel)%nat → head cs ≠ Some 47 → cstr m path (replicate k 47 ++ cs) →
  skip_slashes fuel path m = Ret (path + Z.of_nat k, m).
Proof.
  induction fuel as [|fuel IH]; intros k path cs Hk Hh Hs; [lia|]. cbn [skip_slashes]. destruct k as [|k].
  - rewrite Z.add_0_r. destruct cs as [|c cs]; [by rewrite (bind_run _ _ _ _ _ (rdc_nil _ _ Hs))|].
    rewrite (bind_run _ _ _ _ _ (rdc_cons _ _ _ _ Hs)). rewrite (proj2 (Z.eqb_neq c 47)); [done|]. intros ->. by apply Hh.
  - simpl in Hs. rewrite (bind_run _ _ _ _ _ (rdc_cons _ _ _ _ Hs)). destruct Hs as (_ & _ & Hs).
    rewrite Z.eqb_refl, (IH k _ cs) by (done || lia). do 2 f_equal. lia.
Qed.

Lemma mapped_bytes_ok m cs : ∀ p, (∀ j c, cs !! j = Some c → m !! (p + Z.of_nat j) = Some (u8 c)) →
  mapped_bytes (length cs) p m = map u8 cs.
Proof.
  induction cs as [|c cs IH]; intros p Hp; [done|]. cbn [length mapped_bytes map].
  pose proof (Hp 0%nat c eq_refl) as E. rewrite Z.add_0_r in E. rewrite E. f_equal. apply IH.
  intros j x Hj. rewrite <-(Hp (S j) x Hj). f_equal. lia.
Qed.

(** ** The walk *)
Section walk.
Context `{KernelEnv} {R : Type} `{Allocator R} {Hp : Type} `{Allocator Hp}.
Context (peer : Z → list kcall → c4_ringbuf → c4_ringbuf) (page : list Z) (env : io_env) (fuel : nat).
Abbreviation D := (M (stdio R Hp)).

(** A [FILE] for the node [temp], with the flags given. *)
Definition open_with (flags : Z) (temp : fs_node) : D Z :=
  ret ← dh (al_alloc sizeof_FILE);
  if ret =? 0 then ub
  else
    modify (λ s, set_files (<[ret := mk_file blank_fsconn temp (mk_dirent 0 0 0 []) FILE_STATUS_PRETTY_GOOD 0 (i8 flags)]> (io_files s)) s);;
    s ← get;
    conn ← connect page (root_server s) blank_fsconn;
    upd_file ret (Stdio.set_conn conn);;
    r ← on_conn peer conn (λ peer, fs_set_node peer conn temp);
    upd_file ret (Stdio.set_conn r.2);;
    mret ret.

(** Each component is looked up in the node found before it; the first that is
    not there ends the walk. *)
Fixpoint walk (names : list (list Z)) (flags : Z) (temp : fs_node) : D Z :=
  match names with
  | [] => open_with flags temp
  | name :: names' =>
      r ← find_component peer (map u8 name) (Z.of_nat (length name)) temp;
      if 0 <? r.1 then walk names' flags r.2 else mret 0
  end.

(** [op] neither reads nor writes the byte memory. *)
Definition with_mem {A} (m : mem) (o : outcome (A * stdio R Hp)) : outcome (A * stdio R Hp) :=
  match o with Ret (x, s) => Ret (x, set_iomem m s) | UB => UB | NoFuel => NoFuel end.
Definition ignores {A} (op : D A) : Prop := ∀ m s, op (set_iomem m s) = with_mem m (op s).

Lemma with_mem_twice {A} m m' (o : outcome (A * stdio R Hp)) : with_mem m' (with_mem m o) = with_mem m' o.
Proof. by destruct o as [[]| |]. Qed.

Lemma ignores_ret {A} (x : A) : ignores (mret x).
Proof. done. Qed.
Lemma ignores_ub {A} : ignores (ub : D A).
Proof. done. Qed.
Lemma ignores_bind {A B} (op : D A) (k : A → D B) : ignores op → (∀ x, ignores (k x)) → ignores (x ← op; k x).
Proof. intros Ho Hk m s. unfold mbind, M_bind. rewrite Ho. destruct (op s) as [[x s']| |]; simpl; [apply Hk|done|done]. Qed.
Lemma ignores_get {B} (k : stdio R Hp → D B) : (∀ m s, k (set_iomem m s) = k s) → (∀ s, ignores (k s)) → ignores (s ← get; k s).
Proof. intros He Hk m s. unfold mbind, M_bind, get. rewrite He. apply Hk. Qed.
Lemma ignores_modify f : (∀ m s, f (set_iomem m s) = set_iomem m (f s)) → ignores (modify f).
Proof. intros Hf m s. unfold modify. by rewrite Hf. Qed.
Lemma ignores_dh {A} (op : M Hp A) : ignores (dh op).
Proof. intros m s. unfold dh, zoom. cbn [io_heap set_iomem]. by destruct (op (io_heap s)) as [[]| |]. Qed.
Lemma ignores_upd_file fp f : ignores (upd_file fp f).
Proof.
  unfold upd_file. apply ignores_bind; [|done]. intros m s. unfold load_file, getsome. cbn [io_files set_iomem].
  by destruct (io_files s !! fp).
Qed.
Lemma ignores_on_conn {A} conn (op : (list kcall → c4_ringbuf → c4_ringbuf) → M (client R) A) : ignores (on_conn peer conn op).
Proof.
  intros m s. unfold on_conn, with_ring. cbn [io_rings io_proc set_iomem]. destruct (io_rings s !! _); [|done].
  by destruct (op _ _) as [[]| |].
Qed.
Lemma ignores_connect server conn : ignores (connect page server conn).
Proof. intros m s. unfold connect. cbn [io_proc set_iomem]. by destruct (fs_connect _ _ _) as [[]| |]. Qed.

#[local] Hint Resolve ignores_ret ignores_ub ignores_dh ignores_upd_file ignores_on_conn ignores_connect : ignores.

Lemma ignores_find name len temp : ignores (find_component peer name len temp).
Proof.
  apply ignores_get; [done|]. intros s. apply ignores_bind; [auto with ignores|]. intros r.
  apply ignores_bind; [by apply ignores_modify|]. intros _. apply ignores_get; [done|]. auto with ignores.
Qed.

Lemma ignores_open flags temp : ignores (open_with flags temp).
Proof.
  apply ignores_bind; [auto with ignores|]. intros ret. destruct (ret =? 0); [auto with ignores|].
  apply ignores_bind; [by apply ignores_modify|]. intros _. apply ignores_get; [done|]. intros s.
  apply ignores_bind; [auto with ignores|]. intros conn. apply ignores_bind; [auto with ignores|]. intros _.
  apply ignores_bind; [auto with ignores|]. intros r. apply ignores_bind; auto with ignores.
Qed.

Lemma ignores_walk names flags : ∀ temp, ignores (walk names flags temp).
Proof.
  induction names as [|name names IH]; intros temp; cbn [walk]; [apply ignores_open|].
  apply ignores_bind; [apply ignores_find|]. intros r. destruct (0 <? r.1); [apply IH|apply ignores_ret].
Qed.

Lemma open_node_ok mode ms temp s : cstr (io_mem s) mode ms → (length ms < fuel)%nat →
  open_node peer page fuel mode temp s = open_with (mode_flags ms) temp s.
Proof.
  intros Hm Hf. unfold open_node, open_with. apply bind_ext_run. intros ret s1 E.
  destruct (ret =? 0); [done|]. assert (io_mem s1 = io_mem s) as Em.
  { unfold dh, zoom in E. destruct (al_alloc _ _) as [[]| |]; [|done|done]. by injection E as _ <-. }
  rewrite (bind_run _ _ s1 (mode_flags ms) s1); [done|]. unfold dm, zoom.
  rewrite Em, (translate_modeflags_ok fuel _ mode ms 0 Hf Hm), <-Em. by destruct s1.
Qed.

(** What [fopen] is given: the path and the mode are strings, the local array
    is apart from them. *)
Record given (m : mem) (path mode : Z) (cs ms : list Z) : Prop := {
  gv_path : cstr m path cs;
  gv_mode : cstr m mode ms;
  gv_slash : cstr m (lit_slash env) [47];
  gv_slash0 : 0 < lit_slash env;
  gv_buf : CString.mapped m (namebuf env) (FS_MAX_NAME_LEN + 1);
  gv_apart : apart path (Z.of_nat (length cs) + 1) (namebuf env) (namebuf env + (FS_MAX_NAME_LEN + 1)) ∧
    apart mode (Z.of_nat (length ms) + 1) (namebuf env) (namebuf env + (FS_MAX_NAME_LEN + 1)) ∧
    apart (lit_slash env) 2 (namebuf env) (namebuf env + (FS_MAX_NAME_LEN + 1))
}.

Lemma given_only m m' path mode cs ms : only m m' (namebuf env) (FS_MAX_NAME_LEN + 1) → given m path mode cs ms → given m' path mode cs ms.
Proof. intros Ho [G1 G2 G3 G4 G5 (A1 & A2 & A3)]. split; try done; by (eapply only_cstr || eapply only_mapped). Qed.

Lemma given_tail m path mode xs cs ms : given m path mode (xs ++ cs) ms → given m (path + Z.of_nat (length xs)) mode cs ms.
Proof.
  intros [G1 G2 G3 G4 G5 (A1 & A2 & A3)]. split; try done; [by apply cstr_app in G1|]. split_and!; try done.
  intros a Ha. apply A1. rewrite length_app. lia.
Qed.

(** One component: it is in the array when the lookup is made. *)
Lemma copy_component m path mode name tl ms : given m path mode (name ++ tl) ms → (length name <= 256)%nat →
  (length (name ++ tl) < fuel)%nat →
  let len := Z.of_nat (length name) in ∃ m', only m m' (namebuf env) (FS_MAX_NAME_LEN + 1) ∧
  strlcpy fuel (namebuf env) path (if len + 1 <? FS_MAX_NAME_LEN + 1 then len + 1 else FS_MAX_NAME_LEN + 1) m = Ret (Z.of_nat (length (name ++ tl)), m') ∧
  mapped_bytes (length name) (namebuf env) m' = map u8 name.
Proof.
  intros [G1 _ _ _ G5 (A1 & _ & _)] Hl Hf len. unfold FS_MAX_NAME_LEN in *.
  assert ((if len + 1 <? 256 + 1 then len + 1 else 256 + 1) = len + 1) as -> by (destruct (Z.ltb_spec (len + 1) (256 + 1)); lia).
  destruct (strlcpy_ok fuel m (namebuf env) path (len + 1) (name ++ tl)) as (m' & E & _ & Ho & Hd & Hb); try done; [lia| | |].
  { intros a Ha. apply G5. lia. }
  { intros a Ha Hna. apply (A1 a); lia. }
  exists m'. split; [split; [intros a Ha; apply Ho; lia|done]|]. split; [done|]. apply mapped_bytes_ok.
  intros j c Hj. apply Hb. replace (Z.to_nat (len + 1 - 1)) with (length name) by lia. by rewrite take_app_length.
Qed.

(** The path walk, from any point of the path. *)
Lemma open_loop_ok mode ms : (length ms < fuel)%nat → ∀ turns path cs temp s, given (io_mem s) path mode cs ms →
  Forall (λ name, (length name <= 256)%nat) (components cs) → (length (components cs) < turns)%nat → (length cs + 2 < fuel)%nat →
  ∃ m', only (io_mem s) m' (namebuf env) (FS_MAX_NAME_LEN + 1) ∧
  open_loop peer page env fuel turns mode path temp s = with_mem m' (walk (components cs) (mode_flags ms) temp s).
Proof.
  intros Hms. induction turns as [|turns IH]; intros path cs temp s Hg Hlen Ht Hf; [lia|].
  destruct (path_cut cs) as (k & name & tl & -> & Hn & Htl & Hnil & Ec). rewrite Ec in *. rewrite !length_app, length_replicate in Hf.
  assert (head (name ++ tl) ≠ Some 47) as Hh.
  { destruct name as [|c name]; simpl; [by rewrite Hnil|]. intros [= ->]. apply Hn. by left. }
  assert (given (io_mem s) (path + Z.of_nat k) mode (name ++ tl) ms) as Hg1.
  { rewrite <-(length_replicate k 47). by apply given_tail. }
  cbn [open_loop]. rewrite (bind_run _ _ s (path + Z.of_nat k) s).
  2:{ unfold dm, zoom. rewrite (skip_slashes_ok fuel (io_mem s) k path (name ++ tl)); [by destruct s|lia|exact Hh|apply Hg]. }
  rewrite (bind_run _ _ s (Z.of_nat (length name)) s).
  2:{ unfold dm, zoom. rewrite (strcspn_stops fuel (io_mem s) _ _ [47] name tl); try apply Hg1; [by destruct s| | |simpl; lia].
      - intros c Hc. rewrite (Htl c Hc). by left.
      - apply Forall_forall. intros x Hx ->%list_elem_of_singleton. done. }
  destruct name as [|c name].
  { exists (io_mem s). split; [apply only_refl|]. cbn [length walk].
    change (Z.of_nat 0 =? 0) with true. cbv iota. rewrite (open_node_ok mode ms) by (done || apply Hg). rewrite <-ignores_open. by destruct s. }
  set (nm := c :: name) in *. rewrite (proj2 (Z.eqb_neq _ 0)) by (simpl; lia). cbn [walk].
  apply Forall_cons in Hlen as [Hl1 Hlen].
  destruct (copy_component (io_mem s) _ mode nm tl ms Hg1 Hl1) as (m1 & Ho1 & E1 & Eb); [rewrite length_app; lia|].
  set (s1 := set_iomem m1 s). rewrite (bind_run _ _ s (Z.of_nat (length (nm ++ tl))) s1).
  2:{ unfold dm, zoom. by rewrite E1. }
  rewrite (bind_run _ _ s1 s1 s1) by done. rewrite Nat2Z.id. cbn [io_mem set_iomem s1]. rewrite Eb.
  unfold mbind, M_bind. unfold s1. rewrite ignores_find.
  destruct (find_component peer (map u8 nm) _ temp s) as [[r s2]| |]; [|by exists m1..]. cbn [with_mem].
  destruct (0 <? r.1); [|by exists m1].
  destruct (IH (path + Z.of_nat k + Z.of_nat (length nm)) tl r.2 (set_iomem m1 s2)) as (m2 & Ho2 & E2).
  - apply given_tail. by eapply given_only.
  - done.
  - simpl in Ht. lia.
  - lia.
  - exists m2. split.
    + eapply only_trans; [exact Ho1|exact Ho2|lia..].
    + rewrite E2, ignores_walk. apply with_mem_twice.
Qed.

Lemma fopen_ok turns path mode cs ms s : initialized s = true → given (io_mem s) path mode cs ms →
  Forall (λ name, (length name <= 256)%nat) (components cs) → (length (components cs) < turns)%nat →
  (length cs + 2 < fuel)%nat → (length ms < fuel)%nat →
  ∃ m', only (io_mem s) m' (namebuf env) (FS_MAX_NAME_LEN + 1) ∧
  fopen peer page env fuel turns path mode s =
  with_mem m' (walk (components cs) (mode_flags ms) (if decide (head cs = Some 47) then root_dir s else current_dir s) s).
Proof.
  intros Hi Hg Hlen Ht Hf Hms. unfold fopen. rewrite (bind_run _ _ s tt s).
  2:{ unfold init_rootfs. rewrite (bind_run get _ s s s) by done. by rewrite Hi. }
  rewrite (bind_run _ _ s (default 0 (head cs)) s).
  2:{ unfold dm, zoom. pose proof (gv_path _ _ _ _ _ Hg) as Hcs. destruct cs as [|c cs].
      - rewrite (rdc_nil _ _ Hcs). by destruct s.
      - rewrite (rdc_cons _ _ _ _ Hcs). by destruct s. }
  rewrite (bind_run get _ s s s) by done.
  assert ((default 0 (head cs) =? 47) = bool_decide (head cs = Some 47)) as ->.
  { destruct cs as [|c cs]; [done|]. simpl. destruct (Z.eqb_spec c 47) as [->|Hc]; [by rewrite bool_decide_true|].
    rewrite bool_decide_false; [done|]. by intros [= ]. }
  rewrite <-decide_bool_decide. by apply open_loop_ok.
Qed.

(** Once the root file system is known, [fopen] is the walk over the
    components of its path, from the root directory for a path that starts with
    a slash and from the current one otherwise: every component is looked up in
    what the one before it named, the first that is missing gives [NULL], and
    the last is opened with the mode's flags.  Repeated and trailing slashes
    change nothing, and only the local name array is written. *)
Theorem fopen_walks turns path mode cs ms s : initialized s = true → given (io_mem s) path mode cs ms →
  Forall (λ name, (length name <= 256)%nat) (components cs) → (length (components cs) < turns)%nat →
  (length cs + 2 < fuel)%nat → (length ms < fuel)%nat →
  ∃ m', only (io_mem s) m' (namebuf env) (FS_MAX_NAME_LEN + 1) ∧
  fopen peer page env fuel turns path mode s =
  with_mem m' (walk (components cs) (mode_flags ms) (if decide (head cs = Some 47) then root_dir s else current_dir s) s).
Proof. apply fopen_ok. Qed.
End walk.

(** ** A path with spare slashes *)
Definition spare_path : list Z := [47; 97; 47; 47; 98; 47].
Definition spare_env : io_env := mk_ioenv 16 18 20 22 24 64 None 0.
Definition spare_mem : mem := put_bytes 22 [47; 0] (put_bytes 24 [114; 0] (put_bytes 32 (spare_path ++ [0]) (put_bytes 64 (replicate 257 0) ∅))).
Definition spare_stdio : stdio Bump.bump Bump.bump :=
  mk_stdio (mk_process [] (Some Bump.start)) {[0 := mk_ringbuf 0 0 16 (replicate 16 0)]} Bump.start ∅ spare_mem
    (mk_fsnode 2 2 0) (mk_fsnode 5 2 0) blank_fsconn 3 true.

Lemma fopen_walks_witness : let _ := steady 0 no_msg in
  ∃ m', fopen (λ _ _ b, b) [] spare_env 16 4 32 24 spare_stdio =
  with_mem m' (walk (λ _ _ b, b) [] [[97]; [98]] FILE_MODE_READ (mk_fsnode 2 2 0) spare_stdio).
Proof.
  intros kenv. destruct (fopen_walks (λ _ _ b, b) [] spare_env 16 4 32 24 spare_path [114] spare_stdio) as (m' & _ & E).
  - reflexivity.
  - split; [apply (read_cstr_ok 16); [vm_compute; reflexivity|by repeat constructor]..|done| |].
    + apply (bytes_at_mapped _ _ (replicate 257 0)), bytes_atb_ok. vm_compute. reflexivity.
    + split_and!; intros a Ha Hb; simpl in *; lia.
  - repeat constructor.
  - simpl. lia.
  - simpl. lia.
  - simpl. lia.
  - exists m'. exact E.
Defined.
