(* ===== verification/FileServer.v ===== *)
(** Reading a file through the ext2 server: the client library on one end of a
    connection, the server's handlers on the other, and the disk below.  A
    program reads exactly the file. *)

From S2P Require Import Prelude Interfaces Kernel Mem RingBuffer Connman CString Words Filesystem Stdio StdioSpec Ext2 Ext2Inode Ext2Server Ext2File.
#[local] Open Scope Z_scope.

(** ** A client and the server *)
Section world.
Context `{KernelEnv} `{ClientHeap} {D : Type} `{BlockDeviceLaws D} {R : Type} `{Allocator R} {Hp : Type} `{Allocator Hp}.
Context (peer : Z → list kcall → c4_ringbuf → c4_ringbuf) (fs : ext2fs) (conn c : c4rt_conn) (fuel : nat) (junk : list Z).
Context (h0 : list kcall) (srv : list kcall → server_state D).
Abbreviation bs := (ext2_block_size fs).

(** The client's calls after the [n]-th read request. *)
Fixpoint reads (n : nat) : list kcall := match n with O => h0 | S n' => read_calls c ++ reads n' end.

(** The ext2 server is at the other end of the client's connection: [srv h] is
    its state after the client's calls [h].  While a read request is answered it
    runs on the request and the shared ring buffer, and what it sends is what
    the client receives. *)
Definition runs : Prop := ∀ n b s', ring_wf b → contents b = [] → size b = connman_ring_size →
  ext2_serve fs conn fuel junk (mk_msg FS_MSG_READ_BLOCK [0]) (with_buffer b (srv (reads n))) = Ret (tt, s') →
  peer (ringbuf c) (reads (S n)) b = sv_ring s' ∧ (∃ b1, srv (reads (S n)) = with_buffer b1 s') ∧
  head (sv_hist s') = Some (sent conn (kernel (reads (S n))).2).

Definition offset_of (s : server_state D) : Z := match sv_cli s with Some cli => cindex cli | None => 0 end.

(** What the server hands out. *)
Definition file_server (file : list Z) : stream_server :=
  mk_stream (λ h, drop (Z.to_nat (offset_of (srv h))) file) connman_ring_size (λ h, ∃ n, h = reads n).

Lemma at_offset_ring raw i b s : at_offset fs raw i s → at_offset fs raw i (with_buffer b s).
Proof. intros [? ? ? ? ?]. by split. Qed.

Context (raw : list Z) (Hruns : runs) (Hfit : bs < connman_ring_size).

(** One request. *)
Lemma request_ok n i b : at_offset fs raw i (srv (reads n)) → ring_wf b → contents b = [] → size b = connman_ring_size →
  let piece := next_piece fs (srv (reads n)) raw i in let b' := peer (ringbuf c) (reads (S n)) b in
  ring_wf b' ∧ size b' = connman_ring_size ∧ contents b' = piece ∧
  at_offset fs raw (i + Z.of_nat (length piece)) (srv (reads (S n))) ∧ disk_of (srv (reads (S n))) = disk_of (srv (reads n)) ∧
  mtype (kernel (reads (S n))).2 = FS_MSG_COMPLETED.
Proof.
  intros Hao Hwf Hc Hsz piece b'.
  destruct (handle_read_block_ok fs conn raw i _ (mk_msg FS_MSG_READ_BLOCK [0]) Hao) as (e' & cli' & Hrun). fold piece in Hrun.
  pose proof (next_piece_length fs raw i _ Hao) as Hl. fold piece in Hl.
  destruct (Hrun b Hwf Hc) as (b2 & E & Hwf' & Hsz' & Hc' & Hao' & Hd); [lia|]. rewrite <-(serve_read fs conn fuel junk) in E.
  destruct (Hruns n b _ Hwf Hc Hsz E) as (Eb & [b1 Es] & Em). cbn [sv_ring] in Eb. unfold b'. rewrite Eb.
  split_and!; [done|congruence|done| | |].
  - rewrite Es. by apply at_offset_ring.
  - by rewrite Es.
  - cbn [sv_hist head] in Em. apply (f_equal (option_map (λ k, mtype (cbuf k)))) in Em. cbn in Em. by injection Em.
Qed.

Lemma reads_ok i : at_offset fs raw i (srv h0) → ∀ n, ∃ i', at_offset fs raw i' (srv (reads n)) ∧ disk_of (srv (reads n)) = disk_of (srv h0).
Proof.
  intros Hao. induction n as [|n (i' & Hao' & Hd)]; [by exists i|].
  destruct empty_ring_ok as (Hwf & Hc & Hsz). destruct (request_ok n i' empty_ring Hao' Hwf Hc Hsz) as (_ & _ & _ & Hao2 & Hd2 & _).
  eexists. split; [exact Hao2|congruence].
Qed.

Lemma offset_at i s : at_offset fs raw i s → offset_of s = i.
Proof. intros [_ _ [node E] _ _]. unfold offset_of. by rewrite E. Qed.

(** The server is one that hands out the file in pieces. *)
Lemma server_serves i : at_offset fs raw i (srv h0) → serves peer (file_server (file_bytes fs (disk_of (srv h0)) raw)) c.
Proof.
  intros Hao. split.
  - intros h [n ->]. destruct (reads_ok i Hao n) as (i' & Hao' & _). destruct empty_ring_ok as (Hwf & Hc & Hsz).
    destruct (request_ok n i' empty_ring Hao' Hwf Hc Hsz) as (_ & _ & _ & _ & _ & Hm). cbn [reads] in Hm. rewrite Hm.
    unfold FS_MSG_COMPLETED, FS_MSG_ERROR. lia.
  - intros h b [n ->] [Hwf Hsz] Hc h' b'. destruct (reads_ok i Hao n) as (i' & Hao' & Hd).
    destruct (request_ok n i' b Hao' Hwf Hc Hsz) as (Hwf' & Hsz' & Hc' & Hao2 & _ & _).
    change (reads (S n)) with h' in *. fold b' in Hwf', Hsz', Hc'. cbn [rest live ring_size file_server].
    rewrite (offset_at _ _ Hao'), (offset_at _ _ Hao2), Hc'. pose proof (next_piece_length fs raw i' _ Hao') as Hl.
    pose proof (ao_index _ _ _ _ Hao') as Hi. pose proof (bs_pos fs _ (e2_geom _ _ (ao_e2 _ _ _ _ Hao'))) as Hbs.
    unfold next_piece in *. rewrite Hd in *. set (file := file_bytes fs _ raw) in *.
    split_and!; [by exists (S n)|by split| |].
    + rewrite Z2Nat.inj_add, Nat2Z.id by lia. rewrite <-drop_drop. set (rst := drop (Z.to_nat i') file).
      rewrite length_take. rewrite <-(take_drop (Z.to_nat bs) rst) at 1. f_equal.
      destruct (decide (Z.to_nat bs <= length rst)%nat); [by rewrite Nat.min_l by lia|]. by rewrite !drop_ge by lia.
    + intros Hnil. rewrite Hnil in Hl. simpl in Hl. apply drop_ge. 
      assert (Z.of_nat (length file) = i_lower_size raw); [|lia].
      pose proof (ao_e2 _ _ _ _ Hao) as He. apply file_bytes_length; [apply He|apply He|lia].
Qed.
End world.

(** ** What a program reads *)
Section claims.
Context `{KernelEnv} `{ClientHeap} {D : Type} `{BlockDeviceLaws D} {R : Type} `{Allocator R} {Hp : Type} `{Allocator Hp}.
Context (peer : Z → list kcall → c4_ringbuf → c4_ringbuf) (fs : ext2fs) (conn c : c4rt_conn) (fuel : nat) (junk : list Z).
Implicit Types s : stdio R Hp.

(** The file at [fp] has just been opened on connection [c], after the calls
    [h0]: nothing is in its ring buffer yet. *)
Record just_opened (fp st : Z) (h0 : list kcall) s : Prop := {
  jo_file : ∃ f, io_files s !! fp = Some f ∧ fc_server (f_conn f) = c ∧ f_status f = st;
  jo_calls : p_hist (io_proc s) = h0;
  jo_ring : ∃ b, io_rings s !! ringbuf c = Some b ∧ ring_wf b ∧ size b = connman_ring_size ∧ contents b = []
}.

(** The server's file system is sound, and node [n] of it is a file. *)
Record disk_file (n : Z) (s0 : server_state D) : Prop := {
  df_e2 : e2_ok fs (sv_e2 s0);
  df_inode : inode_ok fs (disk_of s0) n;
  df_file : file_ok fs (disk_of s0) (inode_at fs (disk_of s0) n)
}.

(** C13: a program reads what is on the disk.  The client library, the
    connection's ring buffer, the ext2 server, its block arithmetic and the block
    device together hand [fread] the bytes of the file: with the server's node
    set to inode [n], a read of [len] bytes right after opening gives the first
    [len] bytes of that file's blocks, or all [lower_size] of them when there
    are less, leaves the rest to be read next, and does not change the disk. *)
Theorem fread_reads_disk srv h0 n (s0 : server_state D) fp st s turns size members :
  let raw := inode_at fs (disk_of s0) n in let file := file_bytes fs (disk_of s0) raw in
  disk_file n s0 → ext2_block_size fs < connman_ring_size →
  ext2_serve fs conn fuel junk (mk_msg FS_MSG_SET_NODE [n]) s0 = Ret (tt, srv h0) →
  runs peer fs conn c fuel junk h0 srv → just_opened fp st h0 s →
  let len := u32 (size * members) in len < 2 ^ 31 → (Z.to_nat len < turns)%nat →
  let k := (Z.to_nat len `min` length file)%nat in ∃ s',
  Z.of_nat (length file) = i_lower_size raw ∧
  fread peer turns size members fp s = Ret ((Z.of_nat k, take k file), s') ∧
  reading (file_server c h0 srv file) fp c st (drop k file) s' ∧ disk_of (srv (p_hist (io_proc s'))) = disk_of s0.
Proof.
  intros raw file [Hs Hn Hf] Hbs Eset Hruns [Hfile Hh (b & Eb & Hwf & Hsz & Hc)] len Hlen Ht k. rewrite serve_set_node in Eset.
  destruct (set_node_ok fs conn n s0 Hs (set_node_room _ _ _ _ _ Eset) Hn Hf) as (s1 & E1 & Hao & Hd & _). rewrite E1 in Eset.
  injection Eset as ->. rewrite <-Hd in Hao. fold raw in Hao. 
  assert (file_bytes fs (disk_of (srv h0)) raw = file) as Ef by (by rewrite Hd).
  pose proof (server_serves peer fs conn c fuel junk h0 srv raw Hruns Hbs 0) as Hsv. rewrite Ef in Hsv.
  assert (at_offset fs raw 0 (srv h0)) as Hao0 by (unfold raw; by rewrite <-Hd).
  destruct (fread_ok peer (file_server c h0 srv file) fp c st file s turns size members (Hsv Hao0)) as (s' & E & Hr & _); [|done|done|].
  - split; [done|by exists 0%nat|]. exists b. split; [done|]. split; [done|]. cbn [rest file_server]. rewrite Hh, Hc, (offset_at _ _ _ _ Hao0). done.
  - exists s'. split_and!; [apply file_bytes_length; [apply Hs|apply Hs|apply Hf]|done|done|].
    destruct (rg_live _ _ _ _ _ _ Hr) as [m ->]. rewrite <-Hd. by destruct (reads_ok peer fs conn c fuel junk h0 srv raw Hruns Hbs 0 Hao0 m) as (_ & _ & ?).
Qed.

(** A request that is refused, as the client sees it. *)
Lemma refused_block_ok f p b maxlen e : fc_server f = c → ring_wf b → contents b = [] → let h' := read_calls c ++ p_hist p in
  peer (ringbuf c) h' b = b → (kernel h').2 = mk_msg FS_MSG_ERROR [e] →
  fs_read_block (R := R) (peer (ringbuf c)) f maxlen (mk_client p b) =
  Ret ((i32 (- u32 e), [], f), mk_client (mk_process h' (p_region p)) b).
Proof.
  intros Hf Hwf Hc h' Hpe Hm. unfold fs_read_block. rewrite (bind_run get _ _ _ _ eq_refl). cbn [c_ring].
  rewrite (empty_iff b Hwf), <-(contents_len b Hwf), Hc. change (Z.of_nat (@length Z []) =? 0) with true. cbv iota.
  erewrite bind_run; [|erewrite bind_run; [|exact (call_run peer c f _ p b Hf)]; reflexivity]. cbv beta.
  change (mk_call _ _ _ :: mk_call _ _ _ :: mk_call _ _ _ :: p_hist p) with h'. by rewrite Hpe, Hm, Z.eqb_refl.
Qed.

(** C21: with blocks of 4096 bytes no file of 4084 bytes or more can be read: a
    block is one page, the ring buffer is a page less its header and one byte,
    so the server answers the request for the first block of such a file with
    [FS_ERROR_QUEUE_FULL], and [fread] answers 0 as it does at the end of a file;
    the file then is as it was when it was opened.  (Only of such files: a
    smaller one fits the buffer.) *)
Theorem page_blocks_unreadable srv h0 n (s0 : server_state D) fp st s turns size members :
  let raw := inode_at fs (disk_of s0) n in disk_file n s0 → ext2_block_size fs = 4096 → connman_ring_size <= i_lower_size raw →
  ext2_serve fs conn fuel junk (mk_msg FS_MSG_SET_NODE [n]) s0 = Ret (tt, srv h0) →
  runs peer fs conn c fuel junk h0 srv → just_opened fp st h0 s → ∃ s',
  fread peer (S turns) size members fp s = Ret ((0, []), s') ∧ just_opened fp st (reads c h0 1) s' ∧
  (kernel (reads c h0 1)).2 = mk_msg FS_MSG_ERROR [FS_ERROR_QUEUE_FULL].
Proof.
  intros raw [Hs Hn Hf] Hbs Hbig Eset Hruns [(f & Ef & Hfc & Hst) Hh (b & Eb & Hwf & Hsz & Hc)].
  rewrite serve_set_node in Eset.
  destruct (set_node_ok fs conn n s0 Hs (set_node_room _ _ _ _ _ Eset) Hn Hf) as (s1 & E1 & Hao & Hd & _). rewrite E1 in Eset.
  injection Eset as ->. fold raw in Hao.
  pose proof (handle_read_block_full fs conn raw 0 (srv h0) (mk_msg FS_MSG_READ_BLOCK [0]) b Hao ltac:(unfold connman_ring_size, sizeof_ringbuf in *; lia) Hwf Hc) as Efull.
  rewrite (next_piece_length fs raw 0 _ Hao), Hbs in Efull. specialize (Efull ltac:(unfold connman_ring_size, sizeof_ringbuf in *; lia)).
  rewrite <-(serve_read fs conn fuel junk) in Efull. destruct (Hruns 0%nat b _ Hwf Hc Hsz Efull) as (Ep & _ & Em).
  cbn [sv_ring] in Ep. cbn [sv_hist head] in Em. apply (f_equal (option_map cbuf)) in Em. cbn in Em. injection Em as Em.
  change (reads c h0 1) with (read_calls c ++ h0) in *. rewrite <-Hh in *.
  pose proof (refused_block_ok (f_conn f) (io_proc s) b (u32 (size * members)) _ Hfc Hwf Hc Ep (eq_sym Em)) as Er.
  set (s1 := set_rings (mk_process (read_calls c ++ p_hist (io_proc s)) (p_region (io_proc s))) (<[ringbuf c := b]> (io_rings s)) s).
  set (s2 := set_files (<[fp := Stdio.set_conn (f_conn f) f]> (io_files s1)) s1). exists s2. split_and!; [|split|done].
  - unfold fread. cbn [read_all]. rewrite (bind_run (load_file fp) _ s f s) by (unfold load_file, getsome; by rewrite Ef).
    rewrite (bind_run _ _ s (i32 (- u32 FS_ERROR_QUEUE_FULL), [], f_conn f) s1) by (unfold on_conn, with_ring; by rewrite Hfc, Eb, Er).
    rewrite (bind_run _ _ s1 tt s2); [done|]. unfold upd_file. rewrite (bind_run (load_file fp) _ s1 f s1); [done|].
    unfold load_file, getsome. cbn [io_files set_rings s1]. by rewrite Ef.
  - exists (Stdio.set_conn (f_conn f) f). cbn [io_files set_files s2]. rewrite lookup_insert_eq. by split_and!.
  - done.
  - exists b. cbn [io_rings set_files set_rings s2 s1]. rewrite lookup_insert_eq. by split_and!.
Qed.
End claims.

(** ** A world with the server in it *)
Section model.
Context `{KernelEnv} `{ClientHeap} {D : Type} `{BlockDeviceLaws D}.
Context (fs : ext2fs) (conn c : c4rt_conn) (fuel : nat) (junk : list Z) (s1 : server_state D).
Implicit Types s : server_state D.

Definition answer (b : c4_ringbuf) s := ext2_serve fs conn fuel junk (mk_msg FS_MSG_READ_BLOCK [0]) (with_buffer b s).
Definition next s : server_state D := match answer empty_ring s with Ret (_, s') => s' | _ => s end.

(** The server after the client's calls, from [s1] on. *)
Definition after (h : list kcall) : server_state D := Nat.iter (length h / 3) next s1.
Definition model_peer (a : Z) (h : list kcall) (b : c4_ringbuf) : c4_ringbuf :=
  match answer b (after (drop 3 h)) with Ret (_, s') => sv_ring s' | _ => b end.

Lemma after_reads n : after (reads c [] n) = Nat.iter n next s1.
Proof.
  unfold after. assert (length (reads c [] n) = n * 3)%nat as -> by (induction n as [|n IH]; [done|]; simpl; lia).
  by rewrite Nat.div_mul.
Qed.

(** When the server's answers do not depend on which empty buffer it is given. *)
Lemma model_runs (m : nat → message) :
  (∀ n, ∃ e' cli', ∀ b, ring_wf b → contents b = [] → size b = connman_ring_size → ∃ b',
    answer b (after (reads c [] n)) = Ret (tt, mk_srv e' b' cli' (sent conn (m n) :: sv_hist (after (reads c [] n))))) →
  (∀ n, (kernel (reads c [] (S n))).2 = m n) → runs model_peer fs conn c fuel junk [] after.
Proof.
  intros Hans Hk n b s' Hwf Hc Hsz E. destruct (Hans n) as (e' & cli' & Hrun).
  destruct (Hrun b Hwf Hc Hsz) as (b' & Eb). destruct empty_ring_ok as (Hwf0 & Hc0 & Hsz0).
  destruct (Hrun _ Hwf0 Hc0 Hsz0) as (b0 & E0). unfold answer in Eb. rewrite Eb in E. injection E as <-.
  split_and!.
  - unfold model_peer. change (drop 3 (reads c [] (S n))) with (reads c [] n). unfold answer. by rewrite Eb.
  - exists b0. rewrite after_reads. change (Nat.iter (S n) next s1) with (next (Nat.iter n next s1)). rewrite <-after_reads. unfold next. by rewrite E0.
  - by rewrite Hk.
Qed.

Lemma next_offset raw i s : at_offset fs raw i s → Z.min (ext2_block_size fs) (i_lower_size raw - i) < connman_ring_size →
  at_offset fs raw (i + Z.min (ext2_block_size fs) (i_lower_size raw - i)) (next s).
Proof.
  intros Hao Hfit. destruct (handle_read_block_ok fs conn raw i s (mk_msg FS_MSG_READ_BLOCK [0]) Hao) as (e' & cli' & Hrun).
  rewrite (next_piece_length fs raw i s Hao) in Hrun. destruct empty_ring_ok as (Hwf & Hc & Hsz).
  destruct (Hrun empty_ring Hwf Hc Hfit) as (b' & E & _ & _ & _ & Hao' & _). unfold next, answer. by rewrite serve_read, E.
Qed.

(** The answers to a client that reads a file of at most one block. *)
Lemma one_block_runs raw : at_offset fs raw 0 s1 → 0 < i_lower_size raw <= ext2_block_size fs → ext2_block_size fs < connman_ring_size →
  (∀ n, (kernel (reads c [] (S n))).2 = mk_msg FS_MSG_COMPLETED [if decide (n = 0%nat) then i_lower_size raw else 0]) →
  runs model_peer fs conn c fuel junk [] after.
Proof.
  intros Hao Hsz Hfit Hk. apply model_runs with (2 := Hk).
  assert (∀ n, at_offset fs raw (if decide (n = 0%nat) then 0 else i_lower_size raw) (after (reads c [] n))) as Hn.
  { intros n. rewrite after_reads. induction n as [|n IH]; [done|]. change (Nat.iter (S n) next s1) with (next (Nat.iter n next s1)).
    apply next_offset in IH; [|destruct (decide (n = 0%nat)); lia]. rewrite decide_False by done.
    destruct (decide (n = 0%nat)) in IH; by replace (_ + _) with (i_lower_size raw) in IH by lia. }
  intros n. specialize (Hn n). destruct (handle_read_block_ok fs conn raw _ _ (mk_msg FS_MSG_READ_BLOCK [0]) Hn) as (e' & cli' & Hrun).
  rewrite (next_piece_length fs raw _ _ Hn) in Hrun.
  replace (Z.min _ _) with (if decide (n = 0%nat) then i_lower_size raw else 0) in Hrun by (destruct (decide (n = 0%nat)); lia).
  exists e', (Some cli'). intros b Hwf Hc Hs.
  destruct (Hrun b Hwf Hc) as (b' & E & _); [rewrite Hs; destruct (decide (n = 0%nat)); lia|]. exists b'. unfold answer. by rewrite serve_read, E.
Qed.

(** The answers when nothing fits. *)
Lemma refused_runs raw : at_offset fs raw 0 s1 → connman_ring_size <= Z.min (ext2_block_size fs) (i_lower_size raw) →
  (∀ n, (kernel (reads c [] (S n))).2 = mk_msg FS_MSG_ERROR [FS_ERROR_QUEUE_FULL]) →
  runs model_peer fs conn c fuel junk [] after.
Proof.
  intros Hao Hbig Hk. assert (∀ s b, at_offset fs raw 0 s → ring_wf b → contents b = [] → size b = connman_ring_size →
    answer b s = Ret (tt, mk_srv (sv_e2 s) b (sv_cli s) (sent conn (mk_msg FS_MSG_ERROR [FS_ERROR_QUEUE_FULL]) :: sv_hist s))) as Hans.
  { intros s b Hs Hwf Hc Hsz. unfold answer. rewrite serve_read. apply (handle_read_block_full fs conn raw 0); try done.
    - unfold connman_ring_size, sizeof_ringbuf in *. lia.
    - rewrite (next_piece_length fs raw 0 s Hs). lia. }
  apply (model_runs (λ _, mk_msg FS_MSG_ERROR [FS_ERROR_QUEUE_FULL])); [|done].
  assert (∀ n, at_offset fs raw 0 (after (reads c [] n))) as Hn.
  { intros n. rewrite after_reads. induction n as [|n IH]; [done|]. change (Nat.iter (S n) next s1) with (next (Nat.iter n next s1)).
    destruct empty_ring_ok as (Hwf & Hc & Hsz). unfold next at 1. rewrite (Hans _ _ IH Hwf Hc Hsz). destruct IH. by split. }
  intros n. eexists _, _. intros b Hwf Hc Hsz. exists b. exact (Hans _ _ (Hn n) Hwf Hc Hsz).
Qed.
End model.

#[local] Existing Instance roomy.

(** A file of three bytes: inode 3, its bytes in block 10. *)
Definition hello_disk : Ramdisk.ramdisk :=
  Ramdisk.mk_ram
    (put_block 2 (le32 3 ++ le32 4 ++ le32 5 ++ le16 32 ++ le16 6)
      (put_block 5 (replicate 256 0 ++ le16 0x81ff ++ le16 0 ++ le32 3 ++ replicate 32 0 ++ le32 10)
        (put_block 10 [104; 105; 10] ∅)))
    256.
Definition hello_server : server_state Ramdisk.ramdisk := mk_srv (mk_e2 hello_disk (replicate 4096 0)) empty_ring None [].

(** A file of 4084 bytes in blocks of a page: the descriptors in block 1, the
    inodes in block 4, the bytes in block 5. *)
Definition page_fs : ext2fs := mk_ext2fs (mk_super 8 16 2 16 8 EXT2_SIGNATURE 128) 0 7.
Definition put_page (b : Z) (bytes : list Z) (m : gmap Z (list Z)) : gmap Z (list Z) := Ramdisk.store 8 (8 * b) (pad 4096 bytes) m.
Definition page_disk : Ramdisk.ramdisk :=
  Ramdisk.mk_ram
    (put_page 1 (le32 2 ++ le32 3 ++ le32 4 ++ le16 10 ++ le16 6)
      (put_page 4 (replicate 256 0 ++ le16 0x81ff ++ le16 0 ++ le32 4084 ++ replicate 32 0 ++ le32 5) ∅))
    256.
Definition page_server : server_state Ramdisk.ramdisk := mk_srv (mk_e2 page_disk (replicate 4096 0)) empty_ring None [].

Lemma hello_ok : disk_file small_fs 3 hello_server.
Proof.
  split.
  - split; [|apply length_replicate|].
    + simpl. do 3 apply put_block_inv. intros i x. by rewrite lookup_empty.
    + split; vm_compute; intuition discriminate.
  - split; vm_compute; intuition discriminate.
  - assert (file_blocks small_fs (inode_at small_fs hello_disk 3) = 1%nat) as E by (vm_compute; reflexivity).
    split; cbn [disk_of hello_server sv_e2 e_disk]; rewrite ?E.
    + vm_compute; intuition discriminate.
    + vm_compute; discriminate.
    + lia.
    + intros k Hk. assert (k = 0) as -> by lia. vm_compute; intuition discriminate.
Qed.

Lemma page_ok : disk_file page_fs 3 page_server.
Proof.
  split.
  - split; [|apply length_replicate|].
    + simpl. do 2 (apply Ramdisk.store_len; [unfold pad; rewrite length_app, length_replicate; lia|]). intros i x. by rewrite lookup_empty.
    + split; vm_compute; intuition discriminate.
  - split; vm_compute; intuition discriminate.
  - assert (file_blocks page_fs (inode_at page_fs page_disk 3) = 1%nat) as E by (vm_compute; reflexivity).
    split; cbn [disk_of page_server sv_e2 e_disk]; rewrite ?E.
    + vm_compute; intuition discriminate.
    + vm_compute; discriminate.
    + lia.
    + intros k Hk. assert (k = 0) as -> by lia. vm_compute; intuition discriminate.
Qed.

(** The client: a file on a new connection. *)
Definition new_stdio : stdio Bump.bump Bump.bump :=
  mk_stdio (mk_process [] (Some Bump.start)) {[4096 := empty_ring]} Bump.start
    {[512 := mk_file (mk_fsconn hi_conn blank_node 0) blank_node (Stdio.mk_dirent 0 0 0 []) 0 0 0]}
    ∅ blank_node blank_node blank_fsconn 0 true.

Lemma new_opened : just_opened hi_conn 512 FILE_STATUS_PRETTY_GOOD [] new_stdio.
Proof.
  split; [eexists; by split_and!|done|]. exists empty_ring. split; [done|]. destruct empty_ring_ok as (? & ? & ?). by split_and!.
Qed.

Definition hello_kernel : KernelEnv := scripted (λ h, (0, mk_msg (@FS_MSG_COMPLETED (steady 0 no_msg)) [if decide (length h = 3%nat) then 3 else 0])).

Lemma length_reads `{KernelEnv} c n : length (reads c [] n) = (3 * n)%nat.
Proof. induction n as [|n IH]; [done|]. cbn [reads]. rewrite length_app, IH. change (length (read_calls c)) with 3%nat. lia. Qed.

Lemma hello_replies : let _ := hello_kernel in ∀ n,
  (kernel (reads hi_conn [] (S n))).2 = mk_msg FS_MSG_COMPLETED [if decide (n = 0%nat) then 3 else 0].
Proof.
  intros env n. change (kernel ?h).2 with (mk_msg (@FS_MSG_COMPLETED (steady 0 no_msg)) [if decide (length h = 3%nat) then 3 else 0]).
  rewrite length_reads. destruct n as [|n]; [reflexivity|]. by rewrite !decide_False by lia.
Qed.

Lemma fread_reads_disk_witness : let _ := hello_kernel in ∃ srv s',
  fread (model_peer small_fs blank_conn 9 [] srv) 9 1 8 512 new_stdio = Ret ((3, [104; 105; 10]), s').
Proof.
  intros env. destruct hello_ok as [He Hi Hf].
  destruct (set_node_ok small_fs blank_conn 3 hello_server He (λ _, eq_refl) Hi Hf) as (s1 & E1 & Hao & Hd & _). exists s1.
  rewrite <-(serve_set_node small_fs blank_conn 9 []) in E1.
  assert (i_lower_size (inode_at small_fs (disk_of hello_server) 3) = 3) as Esz by (vm_compute; reflexivity).
  destruct (fread_reads_disk (model_peer small_fs blank_conn 9 [] s1) small_fs blank_conn hi_conn 9 []
    (after small_fs blank_conn 9 [] s1) [] 3 hello_server 512 FILE_STATUS_PRETTY_GOOD new_stdio 9 1 8) as (s' & El & E & _).
  - exact hello_ok.
  - vm_compute. reflexivity.
  - exact E1.
  - apply (one_block_runs small_fs blank_conn hi_conn 9 [] s1 (inode_at small_fs (disk_of hello_server) 3) Hao); rewrite ?Esz.
    + split; [lia|vm_compute; discriminate].
    + vm_compute. reflexivity.
    + intros n. apply hello_replies.
  - exact new_opened.
  - vm_compute. reflexivity.
  - vm_compute. lia.
  - exists s'. rewrite E. vm_compute. reflexivity.
Defined.

Lemma page_blocks_unreadable_witness : let _ := steady 0 (mk_msg (@FS_MSG_ERROR (steady 0 no_msg)) [FS_ERROR_QUEUE_FULL]) in ∃ srv s',
  fread (model_peer page_fs blank_conn 9 [] srv) 9 1 8 512 new_stdio = Ret ((0, []), s').
Proof.
  intros env. destruct page_ok as [He Hi Hf].
  destruct (set_node_ok page_fs blank_conn 3 page_server He (λ _, eq_refl) Hi Hf) as (s1 & E1 & Hao & Hd & _). exists s1.
  rewrite <-(serve_set_node page_fs blank_conn 9 []) in E1.
  assert (i_lower_size (inode_at page_fs (disk_of page_server) 3) = 4084) as Esz by (vm_compute; reflexivity).
  destruct (page_blocks_unreadable (model_peer page_fs blank_conn 9 [] s1) page_fs blank_conn hi_conn 9 []
    (after page_fs blank_conn 9 [] s1) [] 3 page_server 512 FILE_STATUS_PRETTY_GOOD new_stdio 8 1 8) as (s' & E & _).
  - exact page_ok.
  - vm_compute. reflexivity.
  - rewrite Esz. vm_compute. discriminate.
  - exact E1.
  - apply (refused_runs page_fs blank_conn hi_conn 9 [] s1 (inode_at page_fs (disk_of page_server) 3) Hao); rewrite ?Esz.
    + vm_compute. discriminate.
    + intros n. reflexivity.
  - exact new_opened.
  - exists s'. exact E.
Defined.
