(* ===== verification/PathLookup.v ===== *)
(** Paths through the ext2 server: [fopen]'s lookups ([libc/stdio.c]) on one end
    of a connection, [handle_set_node] and [handle_find_name] ([ext2fs/src/server.c])
    on the other, and the directory tree on the disk below. *)

From S2P Require Import Prelude Interfaces Kernel Mem RingBuffer Connman CString Words Filesystem Stdio StdioSpec FopenSpec Ext2 Ext2Inode Ext2Server Ext2File Ext2Lookup FileServer.
#[local] Open Scope Z_scope.

(** ** One lookup *)
Section lookups.
Context `{KernelEnv} `{ClientHeap} {D : Type} `{BlockDeviceLaws D} {R : Type} `{Allocator R} {Hp : Type} `{Allocator Hp}.
Context (peer : Z → list kcall → c4_ringbuf → c4_ringbuf) (fs : ext2fs) (conn c : c4rt_conn) (fuel : nat) (junk : list Z).
Context (d : D) (node : Z → Prop) (dirs : Z → list (list (dirent_view * list Z))).
Implicit Types sv : server_state D.

(** The three system calls of a request. *)
Definition request_calls (m : message) : list kcall :=
  [mk_call SYSCALL_ASYNC_RECIEVE [0; u32 (async_from c); u32 MESSAGE_ASYNC_BLOCK; 0] no_msg;
   mk_call SYSCALL_SYNC_SEND [0; u32 (server_port c); 0; 0] (mk_msg C4RT_CONNMAN_NEW_MESSAGE [client_id c]);
   mk_call SYSCALL_ASYNC_SEND [0; u32 (async_to c); 0; 0] m].

Definition set_request (n : Z) : message := mk_msg FS_MSG_SET_NODE [n].
Definition find_request (name : list Z) : message := mk_msg FS_MSG_FIND_NAME [Z.of_nat (length name)].
Definition serve (m : message) (b : c4_ringbuf) sv := ext2_serve fs conn fuel junk m (with_buffer b sv).

(** The server, in state [sv], is at the other end of the connection: after the
    calls [h], with [b] in the ring buffer, what it does to the buffer in answer
    to [m] is what the client finds there and what it sends is what the client
    receives. *)
Definition hosted (h : list kcall) (b : c4_ringbuf) sv (m : message) : Prop := ∀ sv', serve m b sv = Ret (tt, sv') →
  peer (ringbuf c) (request_calls m ++ h) b = sv_ring sv' ∧ head (sv_hist sv') = Some (sent conn (kernel (request_calls m ++ h)).2).

(** So it is for the two requests of one lookup, ... *)
Definition hosted_lookup (h : list kcall) (b : c4_ringbuf) sv (n : Z) (name : list Z) (k : list kcall → server_state D → Prop) : Prop :=
  hosted h b sv (set_request n) ∧ ∀ sv1 w b1, serve (set_request n) b sv = Ret (tt, sv1) →
  c4_ringbuf_write name (Z.of_nat (length name)) (sv_ring sv1) = Ret (w, b1) →
  let h1 := request_calls (set_request n) ++ h in hosted h1 b1 sv1 (find_request name) ∧
  ∀ sv2, serve (find_request name) b1 sv1 = Ret (tt, sv2) → k (request_calls (find_request name) ++ h1) sv2.

(** ... and for the lookups of a path. *)
Fixpoint hosted_walk (names : list (list Z)) (nd : fs_node) (h : list kcall) (b : c4_ringbuf) sv : Prop :=
  match names with
  | [] => True
  | name :: names' => hosted_lookup h b sv (n_inode nd) name (λ h' sv',
      match child fs d dirs nd name with Some nd' => hosted_walk names' nd' h' (sv_ring sv') sv' | None => True end)
  end.

(** The server's file system is the tree, and there is or can be a client state. *)
Definition on_tree sv : Prop := e2_ok fs (sv_e2 sv) ∧ disk_of sv = d ∧ has_room sv.

Lemma sent_inj m m' l : head (sent conn m :: l) = Some (sent conn m') → m = m'.
Proof. by intros [= ->]. Qed.

(** Selecting a node, from the client. *)
Lemma fs_set_node_ok f n ty sz p b sv : tree_ok fs fuel d node dirs → node n → on_tree sv → fc_server f = c →
  hosted (p_hist p) b sv (set_request n) → ∃ sv1,
  let h1 := request_calls (set_request n) ++ p_hist p in
  serve (set_request n) b sv = Ret (tt, sv1) ∧ on_tree sv1 ∧ sv_ring sv1 = b ∧
  (∃ nd, sv_cli sv1 = Some (mk_cli nd (inode_at fs d n) 0)) ∧
  fs_set_node (R := R) (peer (ringbuf c)) f (mk_fsnode n ty sz) (mk_client p b) =
    Ret ((1, mk_fsconn c (mk_fsnode n ty sz) (fc_index f)), mk_client (mk_process h1 (p_region p)) b).
Proof.
  intros Ht Hn (Hs & Hd & Hroom) Hf Hh. pose proof (to_inode _ _ _ _ _ Ht n Hn) as Hino.
  destruct (set_node_run fs conn n (with_buffer b sv) Hs Hroom) as (e' & E & He' & Hd'); [by unfold disk_of in *; cbn [with_buffer sv_e2]; rewrite Hd|].
  rewrite <-(serve_set_node fs conn fuel junk) in E. fold (set_request n) in E. fold (serve (set_request n) b sv) in E.
  destruct (Hh _ E) as [Ep Em%sent_inj]. cbn [sv_ring with_buffer] in Ep.
  assert (disk_of (with_buffer b sv) = d) as Edisk by done. rewrite Edisk in *.
  eexists. split; [exact E|]. split; [by split_and!|]. split; [done|]. split; [by eexists|].
  unfold fs_set_node. cbn [n_inode]. rewrite Hf.
  rewrite (bind_run _ _ _ _ _ (call_run peer c (mk_fsconn c (mk_fsnode n ty sz) (fc_index f)) _ p b eq_refl)).
  change (mk_call _ _ _ :: mk_call _ _ _ :: mk_call _ _ _ :: p_hist p) with (request_calls (set_request n) ++ p_hist p).
  rewrite Ep, <-Em. cbn [mtype]. by rewrite (proj2 (Z.eqb_neq FS_MSG_COMPLETED FS_MSG_ERROR)) by (unfold FS_MSG_COMPLETED, FS_MSG_ERROR; lia).
Qed.

(** The reply to a lookup of [name] in node [n]. *)
Definition find_reply (n : Z) (name : list Z) : message :=
  match child fs d dirs (mk_fsnode n 0 0) name with
  | Some nd => mk_msg FS_MSG_COMPLETED [n_inode nd; n_type nd; 0]
  | None => mk_msg FS_MSG_ERROR [if is_dir fs d n then FS_ERROR_NOT_FOUND else FS_ERROR_NOT_DIRECTORY]
  end.

Lemma find_served n nd name q b sv : tree_ok fs fuel d node dirs → node n → on_tree sv →
  sv_cli sv = Some (mk_cli nd (inode_at fs d n) 0) →
  ring_wf b → size b = connman_ring_size → contents b = q → (length name <= length q)%nat → (length name < 256)%nat →
  Z.of_nat (length q) + 108 < connman_ring_size → ∃ e' b',
  serve (find_request name) b sv = Ret (tt, mk_srv e' b' (sv_cli sv) (sent conn (find_reply n (take (length name) q)) :: sv_hist sv)) ∧
  e2_ok fs e' ∧ e_disk e' = d ∧ ring_wf b' ∧ size b' = connman_ring_size ∧
  contents b' = drop (if is_dir fs d n then length name else 0) q.
Proof.
  intros Ht Hn (Hs & Hd & _) Hcli Hwf Hsz Hq Hle Hlen Hroom. unfold serve, find_request. rewrite serve_find_name. unfold find_reply, child. cbn [n_inode].
  destruct (is_dir fs d n) eqn:Ed.
  - destruct (to_dir _ _ _ _ _ Ht n Hn Ed) as (Hdir & Hen & Hfu).
    destruct (handle_find_name_ok fs conn fuel (mk_cli nd (inode_at fs d n) 0) (dirs n) (Z.of_nat (length name)) q (with_buffer b sv))
      as (e' & b' & E & He' & Hd' & Hwf' & Hsz' & Hc'); try done; try lia.
    { unfold disk_of in *. cbn [with_buffer sv_e2]. by rewrite Hd. }
    exists e', b'. rewrite Nat2Z.id in *. rewrite E, Hcli. cbn [sv_hist with_buffer]. split_and!; try done.
    + unfold reply_of. rewrite lookup_find. by destruct (find_dirent _ _).
    + rewrite Hd'. exact Hd.
  - rewrite (handle_find_name_file fs conn fuel (mk_cli nd (inode_at fs d n) 0)) by done.
    exists (sv_e2 sv), b. rewrite Hcli. cbn [sv_e2 sv_ring sv_hist with_buffer]. split_and!; try done.
Qed.

(** And what the client makes of it. *)
Definition find_answer (n : Z) (name : list Z) (temp : fs_node) : Z * fs_node :=
  match child fs d dirs (mk_fsnode n 0 0) name with
  | Some nd => (1, nd)
  | None => (if is_dir fs d n then - FS_ERROR_NOT_FOUND else - FS_ERROR_NOT_DIRECTORY, temp)
  end.

Lemma find_answer_ok n name temp (m := find_reply n name) : tree_ok fs fuel d node dirs → (∃ s, e2_ok fs s ∧ e_disk s = d) → node n →
  (if mtype m =? FS_MSG_ERROR then (neg_error m, temp) else (1, mk_fsnode (mget m 0) (mget m 1) (mget m 2))) = find_answer n name temp.
Proof.
  intros Ht (s & Hs & Hd) Hn. unfold m, find_reply, find_answer. destruct (child fs d dirs _ name) as [nd|] eqn:Ec; cbn [mtype].
  - rewrite (proj2 (Z.eqb_neq FS_MSG_COMPLETED FS_MSG_ERROR)) by (unfold FS_MSG_COMPLETED, FS_MSG_ERROR; lia).
    pose proof (child_node fs fuel d node dirs (mk_fsnode n 0 0) name nd Ht Hn Ec) as Hn'. pose proof (in_range _ _ _ (to_inode _ _ _ _ _ Ht _ Hn')) as Hr.
    pose proof (g_inodes _ _ (e2_geom _ _ Hs)). unfold child in Ec. destruct (is_dir _ _ _); [|done].
    apply fmap_Some in Ec as (de & _ & ->). cbn [n_inode n_type] in *. unfold mget. cbn [mdata lookup list_lookup default from_option id].
    assert (0 <= translate_type (d_type de) < 4) by (unfold translate_type; repeat case_match; done).
    do 2 f_equal; apply u32_small; lia.
  - rewrite Z.eqb_refl. by destruct (is_dir _ _ _).
Qed.

(** Looking a name up, from the client, with [old] still in the ring buffer: the
    server takes the first characters it finds there. *)
Lemma fs_find_name_ok f nd n name old temp p b sv : tree_ok fs fuel d node dirs → node n → on_tree sv →
  sv_cli sv = Some (mk_cli nd (inode_at fs d n) 0) → fc_server f = c →
  ring_wf b → size b = connman_ring_size → contents b = old → (length name < 256)%nat →
  Z.of_nat (length old + length name) + 108 < connman_ring_size →
  (∀ w b1, c4_ringbuf_write name (Z.of_nat (length name)) b = Ret (w, b1) → hosted (p_hist p) b1 sv (find_request name)) →
  let h2 := request_calls (find_request name) ++ p_hist p in ∃ w b1 sv2,
  c4_ringbuf_write name (Z.of_nat (length name)) b = Ret (w, b1) ∧ serve (find_request name) b1 sv = Ret (tt, sv2) ∧
  on_tree sv2 ∧ ring_wf (sv_ring sv2) ∧ size (sv_ring sv2) = connman_ring_size ∧
  contents (sv_ring sv2) = drop (if is_dir fs d n then length name else 0) (old ++ name) ∧
  fs_find_name (R := R) (peer (ringbuf c)) f temp name (Z.of_nat (length name)) (mk_client p b) =
    Ret (find_answer n (take (length name) (old ++ name)) temp, mk_client (mk_process h2 (p_region p)) (sv_ring sv2)).
Proof.
  intros Ht Hn Hsv Hcli Hf Hwf Hsz Hold Hlen Hroom Hh h2.
  destruct (ringbuf_write_ok name (Z.of_nat (length name)) b Hwf) as (b1 & Ew & Hwf1 & Hsz1 & Hc1); [lia|unfold connman_ring_size in *; lia|].
  cbv zeta in *. unfold capacity in *. rewrite Hold, Hsz in *. rewrite Z.min_l in * by lia. rewrite Nat2Z.id, take_ge in Hc1 by lia.
  specialize (Hh _ _ Ew).
  destruct (find_served n nd name (old ++ name) b1 sv Ht Hn Hsv Hcli Hwf1 Hsz1 Hc1) as (e' & b' & E & He' & Hd' & Hwf' & Hsz' & Hc');
    [rewrite length_app; lia|done|rewrite length_app; lia|].
  destruct (Hh _ E) as [Ep Em%sent_inj]. cbn [sv_ring] in Ep.
  eexists _, b1, _. split; [exact Ew|]. split; [exact E|]. split; [split_and!; [done|done|]; unfold has_room; cbn [sv_cli]; by rewrite Hcli|]. split_and!; [done|done|done|].
  unfold fs_find_name. rewrite (bind_run _ _ _ (Z.of_nat (length name)) (mk_client p b1)) by (unfold on_ring, zoom; cbn [c_ring]; by rewrite Ew).
  rewrite (bind_run _ _ _ _ _ (call_run peer c f _ p b1 Hf)).
  change (mk_call _ _ _ :: mk_call _ _ _ :: mk_call _ _ _ :: p_hist p) with h2. fold h2 in Ep, Em. rewrite Ep, <-Em.
  rewrite <-(find_answer_ok n (take (length name) (old ++ name)) temp Ht (ex_intro _ (sv_e2 sv) (conj (proj1 Hsv) (proj1 (proj2 Hsv)))) Hn). by destruct (_ =? _).
Qed.

(** ** A component of a path *)

(** The client is connected to the server on [c], [old] is in the ring buffer. *)
Record connected (h : list kcall) (b : c4_ringbuf) (old : list Z) (s : stdio R Hp) : Prop := {
  cn_conn : fc_server (current_fs s) = c;
  cn_calls : p_hist (io_proc s) = h;
  cn_ring : io_rings s !! ringbuf c = Some b;
  cn_wf : ring_wf b ∧ size b = connman_ring_size ∧ contents b = old
}.

(** Only the connection was used. *)
Record looked_up (s s' : stdio R Hp) : Prop := {
  lu_files : io_files s' = io_files s;
  lu_heap : io_heap s' = io_heap s;
  lu_mem : io_mem s' = io_mem s;
  lu_region : p_region (io_proc s') = p_region (io_proc s);
  lu_rings : ∀ a, a ≠ ringbuf c → io_rings s' !! a = io_rings s !! a;
  lu_dirs : root_dir s' = root_dir s ∧ current_dir s' = current_dir s ∧ root_server s' = root_server s ∧ initialized s' = initialized s
}.

Lemma looked_up_refl s : looked_up s s.
Proof. done. Qed.
Lemma looked_up_trans s1 s2 s3 : looked_up s1 s2 → looked_up s2 s3 → looked_up s1 s3.
Proof.
  intros [F1 P1 M1 G1 R1 (A1 & B1 & C1 & E1)] [F2 P2 M2 G2 R2 (A2 & B2 & C2 & E2)].
  split; [congruence..| |split_and!; congruence]. intros a Ha. by rewrite R2, R1.
Qed.

Lemma find_component_ok n ty sz name old h b sv s k : tree_ok fs fuel d node dirs → node n → on_tree sv →
  connected h b old s → (length name < 256)%nat → Z.of_nat (length old + length name) + 108 < connman_ring_size →
  hosted_lookup h b sv n name k → ∃ s' sv' h' b',
  find_component peer name (Z.of_nat (length name)) (mk_fsnode n ty sz) s =
    Ret (find_answer n (take (length name) (old ++ name)) (mk_fsnode n ty sz), s') ∧
  on_tree sv' ∧ connected h' b' (drop (if is_dir fs d n then length name else 0) (old ++ name)) s' ∧ sv_ring sv' = b' ∧
  looked_up s s' ∧ k h' sv'.
Proof.
  intros Ht Hn Hsv [Hcn Hca Hri (Hwf & Hsz & Hold)] Hlen Hroom [Hset Hfind].
  rewrite <-Hca in Hset, Hfind.
  destruct (fs_set_node_ok (current_fs s) n ty sz (io_proc s) b sv Ht Hn Hsv Hcn Hset) as (sv1 & E1 & Hsv1 & Hr1 & (nd & Hcli) & Er1).
  set (p1 := mk_process (request_calls (set_request n) ++ p_hist (io_proc s)) (p_region (io_proc s))) in *.
  set (f1 := mk_fsconn c (mk_fsnode n ty sz) (fc_index (current_fs s))) in *. cbv zeta in Hfind.
  set (s1 := set_rings p1 (<[ringbuf c := b]> (io_rings s)) s).
  set (s2 := set_root (root_dir s1) (current_dir s1) f1 (root_server s1) (initialized s1) s1).
  destruct (fs_find_name_ok f1 nd n name old (mk_fsnode n ty sz) p1 b sv1 Ht Hn Hsv1 Hcli eq_refl Hwf Hsz Hold Hlen Hroom)
    as (w & b1 & sv2 & Ew & E2 & Hsv2 & Hwf2 & Hsz2 & Hc2 & Er2).
  { intros w b1 Ew. rewrite <-Hr1 in Ew. by apply (Hfind sv1 w b1 E1 Ew). }
  set (p2 := mk_process (request_calls (find_request name) ++ p_hist p1) (p_region p1)) in *.
  exists (set_rings p2 (<[ringbuf c := sv_ring sv2]> (io_rings s2)) s2), sv2, (p_hist p2), (sv_ring sv2). split_and!.
  - unfold find_component. rewrite (bind_run get _ s s s) by done.
    rewrite (bind_run _ _ s (1, f1) s1) by (unfold on_conn, with_ring; by rewrite Hcn, Hri, Er1).
    rewrite (bind_run (modify _) _ s1 tt s2) by done. rewrite (bind_run get _ s2 s2 s2) by done.
    unfold on_conn, with_ring. cbn [current_fs s2 set_root fc_server f1 io_rings s1 set_rings io_proc]. by rewrite lookup_insert_eq, Er2.
  - done.
  - split; [done|done| |by split_and!]. cbn [io_rings set_rings s2 set_root s1]. apply lookup_insert_eq.
  - done.
  - split; try done. intros a Ha. cbn [io_rings set_rings s2 set_root s1]. by rewrite !lookup_insert_ne.
  - rewrite <-Hr1 in Ew. destruct (Hfind sv1 w b1 E1 Ew) as [_ Hk]. by apply Hk.
Qed.

(** ** A path *)
Context (page : list Z).

Lemma walk_resolves flags : ∀ names nd h b sv s, tree_ok fs fuel d node dirs → node (n_inode nd) → on_tree sv →
  connected h b [] s → Forall (λ name, (length name < 256)%nat) names → hosted_walk (map (map u8) names) nd h b sv → ∃ s',
  looked_up s s' ∧
  walk peer page names flags nd s =
  match resolve fs d dirs (map (map u8) names) nd with Some nd' => open_with peer page flags nd' s' | None => Ret (0, s') end.
Proof.
  induction names as [|name names IH]; intros nd h b sv s Ht Hn Hsv Hcn Hl Hh; cbn [walk map resolve hosted_walk] in *; [by exists s|].
  apply Forall_cons in Hl as [Hl1 Hl]. destruct nd as [n ty sz]. cbn [n_inode] in *.
  destruct (λ A B, find_component_ok n ty sz (map u8 name) [] h b sv s _ Ht Hn Hsv Hcn A B Hh) as (s1 & sv1 & h1 & b1 & E & Hsv1 & Hcn1 & Hr1 & Hlu & Hk);
    [by rewrite length_map|rewrite length_map; unfold connman_ring_size, sizeof_ringbuf; simpl; lia|].
  rewrite length_map in *. cbn [app] in *. rewrite take_ge in E by (by rewrite length_map). rewrite (bind_run _ _ _ _ _ E).
  unfold find_answer. change (child fs d dirs (mk_fsnode n 0 0) (map u8 name)) with (child fs d dirs (mk_fsnode n ty sz) (map u8 name)).
  destruct (child fs d dirs (mk_fsnode n ty sz) (map u8 name)) as [nd'|] eqn:Ec.
  - cbn [fst snd]. change (0 <? 1) with true. cbv iota.
    assert (is_dir fs d n = true) as Ed by (unfold child in Ec; cbn [n_inode] in Ec; by destruct (is_dir fs d n)).
    rewrite Ed, drop_ge in Hcn1 by (by rewrite length_map). rewrite Hr1 in Hk.
    destruct (IH nd' h1 b1 sv1 s1) as (s' & Hlu' & E'); try done.
    { by eapply (child_node fs fuel d node dirs (mk_fsnode n ty sz)). }
    exists s'. split; [by eapply looked_up_trans|done].
  - exists s1. split; [done|]. by destruct (is_dir fs d n).
Qed.
End lookups.

(** ** What [fopen] finds *)
Section claims.
Context `{KernelEnv} `{ClientHeap} {D : Type} `{BlockDeviceLaws D} {R : Type} `{Allocator R} {Hp : Type} `{Allocator Hp}.
Context (peer : Z → list kcall → c4_ringbuf → c4_ringbuf) (fs : ext2fs) (conn c : c4rt_conn) (sfuel : nat) (junk : list Z).
Context (d : D) (node : Z → Prop) (dirs : Z → list (list (dirent_view * list Z))) (page : list Z) (env : io_env) (fuel : nat).

(** C18: a path names the node it names on the disk.  With the client connected
    to an ext2 server over a sound directory tree, which has room for the client's
    state, [fopen] looks the path's
    components up through the connection's ring buffer, the server's two
    handlers, its directory scan and the block device, and opens exactly the
    node that following the components through the directories' entries gives,
    from the root for a path that starts with a slash and from the current
    directory otherwise; it answers [NULL] exactly when a component is missing
    or what should hold it is no directory.  Of the program's state only the
    connection and the local name array are touched before that node is
    opened. *)
Theorem fopen_opens_named turns path mode cs ms (s : stdio R Hp) h b (sv : server_state D) :
  initialized s = true → given env (io_mem s) path mode cs ms → Forall (λ name, (length name < 256)%nat) (components cs) →
  (length (components cs) < turns)%nat → (length cs + 2 < fuel)%nat → (length ms < fuel)%nat →
  let start := if decide (head cs = Some 47) then root_dir s else current_dir s in
  let names := map (map u8) (components cs) in
  tree_ok fs sfuel d node dirs → node (n_inode start) → on_tree fs d sv → connected c h b [] s →
  hosted_walk peer fs conn c sfuel junk d dirs names start h b sv → ∃ m' s',
  only (io_mem s) m' (namebuf env) (FS_MAX_NAME_LEN + 1) ∧ looked_up c s s' ∧
  fopen peer page env fuel turns path mode s =
  with_mem m' match resolve fs d dirs names start with Some nd => open_with peer page (mode_flags ms) nd s' | None => Ret (0, s') end.
Proof.
  intros Hi Hg Hl Ht Hf Hms start names Htree Hn Hsv Hcn Hh.
  destruct (fopen_ok peer page env fuel turns path mode cs ms s) as (m' & Ho & E); try done.
  { eapply Forall_impl; [exact Hl|]. simpl. lia. }
  destruct (walk_resolves peer fs conn c sfuel junk d node dirs page (mode_flags ms) (components cs) start h b sv s) as (s' & Hlu & Ew); try done.
  exists m', s'. split; [done|]. split; [done|]. rewrite E. fold start. by rewrite Ew.
Qed.

(** A name that was refused is looked up again: in what is not a directory the
    server leaves the name in the ring buffer, and the next lookup compares with
    its first characters.  After "/a/b" was not found because "a" is a file,
    "/c" names whatever "/b" does. *)
Theorem stale_name_looked_up n1 n2 nd1 nd2 name1 name2 (s : stdio R Hp) h b (sv : server_state D) :
  tree_ok fs sfuel d node dirs → node n1 → node n2 → is_dir fs d n1 = false → on_tree fs d sv → connected c h b [] s →
  n_inode nd1 = n1 → n_inode nd2 = n2 →
  (length name2 <= length name1 < 256)%nat →
  hosted_lookup peer fs conn c sfuel junk h b sv n1 name1 (λ h' sv',
    hosted_lookup peer fs conn c sfuel junk h' (sv_ring sv') sv' n2 name2 (λ _ _, True)) → ∃ s1 s2,
  find_component peer name1 (Z.of_nat (length name1)) nd1 s = Ret ((- FS_ERROR_NOT_DIRECTORY, nd1), s1) ∧
  find_component peer name2 (Z.of_nat (length name2)) nd2 s1 = Ret (find_answer fs d dirs n2 (take (length name2) name1) nd2, s2).
Proof.
  intros Ht Hn1 Hn2 Hd Hsv Hcn <- <- Hlen Hh. destruct nd1 as [n1 ty1 sz1], nd2 as [n2 ty2 sz2]. cbn [n_inode] in *.
  destruct (λ A B, find_component_ok peer fs conn c sfuel junk d node dirs n1 ty1 sz1 name1 [] h b sv s _ Ht Hn1 Hsv Hcn A B Hh)
    as (s1 & sv1 & h1 & b1 & E1 & Hsv1 & Hcn1 & Hr1 & _ & Hk); [lia|unfold connman_ring_size, sizeof_ringbuf; simpl; lia|].
  rewrite Hd in Hcn1. cbn [app] in Hcn1. rewrite drop_0 in Hcn1. rewrite Hr1 in Hk.
  destruct (λ A B, find_component_ok peer fs conn c sfuel junk d node dirs n2 ty2 sz2 name2 name1 h1 b1 sv1 s1 _ Ht Hn2 Hsv1 Hcn1 A B Hk)
    as (s2 & sv2 & h2 & b2 & E2 & _); [lia|unfold connman_ring_size, sizeof_ringbuf; lia|].
  exists s1, s2. split.
  - rewrite E1. unfold find_answer, child. cbn [n_inode]. by rewrite Hd.
  - rewrite E2. by rewrite take_app_le by lia.
Qed.
End claims.

#[local] Existing Instance roomy.

Lemma tree_server_on : on_tree small_fs tree_disk tree_server.
Proof. by split; [exact tree_server_ok|]. Qed.

(** The server's answers to the two requests of one lookup. *)
Section answers.
Context `{KernelEnv}.
Definition tree_serve := serve small_fs blank_conn 9 [].
Definition tree_state (h : list kcall) : server_state Ramdisk.ramdisk :=
  match h with
  | [] => tree_server
  | _ => match tree_serve (set_request 2) empty_ring tree_server with Ret (_, sv) => sv | _ => tree_server end
  end.
Definition tree_peer (a : Z) (h : list kcall) (b : c4_ringbuf) : c4_ringbuf :=
  match h with
  | _ :: _ :: k :: h' => match tree_serve (cbuf k) b (tree_state h') with Ret (_, sv) => sv_ring sv | _ => b end
  | _ => b
  end.

Lemma tree_child : child small_fs tree_disk tree_dirs (mk_fsnode 2 2 0) [97; 98] = Some (mk_fsnode 3 1 0).
Proof. unfold child. assert (is_dir small_fs tree_disk 2 = true) as E by (vm_compute; reflexivity). cbn [n_inode]. by rewrite E. Qed.
Lemma tree_reply : find_reply small_fs tree_disk tree_dirs 2 [97; 98] = mk_msg FS_MSG_COMPLETED [3; 1; 0].
Proof.
  unfold find_reply. change (child small_fs tree_disk tree_dirs (mk_fsnode 2 0 0) [97; 98]) with (child small_fs tree_disk tree_dirs (mk_fsnode 2 2 0) [97; 98]).
  by rewrite tree_child.
Qed.

Lemma tree_hosted : (∀ h, (kernel (request_calls hi_conn (set_request 2) ++ h)).2 = mk_msg FS_MSG_COMPLETED []) →
  (∀ h, (kernel (request_calls hi_conn (find_request [97; 98]) ++ h)).2 = mk_msg FS_MSG_COMPLETED [3; 1; 0]) →
  hosted_walk tree_peer small_fs blank_conn hi_conn 9 [] tree_disk tree_dirs [[97; 98]] (mk_fsnode 2 2 0) [] empty_ring tree_server.
Proof.
  intros Hset Hfind. cbn [hosted_walk n_inode]. destruct empty_ring_ok as (Hwf & Hc & Hsz).
  destruct tree_server_on as (He & Hd & Hroom).
  destruct (set_node_run small_fs blank_conn 2 (with_buffer empty_ring tree_server)) as (e' & E & He' & Hd').
  { exact He. }
  { exact Hroom. }
  { apply (to_inode _ _ _ _ _ tree_sound 2). by left. }
  rewrite <-(serve_set_node small_fs blank_conn 9 []) in E.
  set (sv1 := mk_srv e' _ _ _) in E. assert (tree_serve (set_request 2) empty_ring tree_server = Ret (tt, sv1)) as E1 by exact E.
  split.
  - intros sv' E'. assert (sv1 = sv') as <- by (unfold tree_serve in E1; rewrite E1 in E'; by injection E'). split.
    + unfold tree_peer. cbn [request_calls app cbuf tree_state]. by rewrite E1.
    + by rewrite Hset.
  - intros sv1' w b1 E1' Ew. assert (sv1 = sv1') as <- by (unfold tree_serve in E1; rewrite E1 in E1'; by injection E1').
    destruct (ringbuf_write_ok [97; 98] 2 empty_ring Hwf) as (b2 & Ew2 & Hwf2 & Hsz2 & Hc2); [simpl; lia|lia|].
    change (sv_ring sv1) with empty_ring in Ew. change (Z.of_nat (length [97; 98])) with 2 in Ew. rewrite Ew2 in Ew. injection Ew as _ <-.
    rewrite Hc, Hsz in *.
    destruct (find_served small_fs blank_conn 9 [] tree_disk tree_node tree_dirs 2 (mk_fsnode 2 FILE_TYPE_UNKNOWN 0) [97; 98] [97; 98] b2 sv1 tree_sound) as (e2 & b3 & E2 & _);
      [by left|split_and!; [exact He'|exact Hd'|discriminate]|reflexivity|exact Hwf2|exact Hsz2|exact Hc2|simpl; lia|simpl; lia|unfold connman_ring_size, sizeof_ringbuf; simpl; lia|].
    intros h1. split; [|intros sv2 _; destruct (child _ _ _ _ _); exact I]. intros sv' E'. rewrite E2 in E'. injection E' as <-. split.
    + unfold tree_peer. cbn [request_calls app cbuf h1 tree_state]. rewrite E1. unfold tree_serve. by rewrite E2.
    + change h1 with (request_calls hi_conn (set_request 2) ++ []). rewrite Hfind, <-tree_reply. reflexivity.
Qed.
End answers.

(** The client, with the path "/ab" and the mode "r". *)
Definition ab_mem : mem := put_bytes 22 [47; 0] (put_bytes 24 [114; 0] (put_bytes 32 [47; 97; 98; 0] (put_bytes 64 (replicate 257 0) ∅))).
Definition ab_stdio : stdio Bump.bump Bump.bump :=
  mk_stdio (mk_process [] (Some Bump.start)) {[4096 := empty_ring]} Bump.start ∅ ab_mem
    (mk_fsnode 2 2 0) (mk_fsnode 2 2 0) (mk_fsconn hi_conn blank_node 0) 3 true.
Definition ab_kernel : KernelEnv := scripted (λ h, (0,
  match h with
  | _ :: _ :: k :: _ => mk_msg (@FS_MSG_COMPLETED (steady 0 no_msg)) (if mtype (cbuf k) =? @FS_MSG_SET_NODE (steady 0 no_msg) then [] else [3; 1; 0])
  | _ => no_msg
  end)).

Lemma fopen_opens_named_witness : let _ := ab_kernel in ∃ m' s',
  fopen tree_peer [] spare_env 16 4 32 24 ab_stdio = with_mem m' (open_with tree_peer [] FILE_MODE_READ (mk_fsnode 3 1 0) s').
Proof.
  intros env.
  destruct (fopen_opens_named tree_peer small_fs blank_conn hi_conn 9 [] tree_disk tree_node tree_dirs [] spare_env 16 4 32 24 [47; 97; 98] [114]
    ab_stdio [] empty_ring tree_server) as (m' & s' & _ & _ & E).
  - reflexivity.
  - split; [apply (read_cstr_ok 16); [vm_compute; reflexivity|by repeat constructor]..|done| |].
    + apply (bytes_at_mapped _ _ (replicate 257 0)), bytes_atb_ok. vm_compute. reflexivity.
    + split_and!; intros a Ha Hb; simpl in *; lia.
  - repeat constructor; simpl; lia.
  - simpl. lia.
  - simpl. lia.
  - simpl. lia.
  - exact tree_sound.
  - by left.
  - exact tree_server_on.
  - destruct empty_ring_ok as (Hwf & Hc & Hsz). by split.
  - apply (tree_hosted (H := env)); intros h; reflexivity.
  - exists m', s'. rewrite E. change (map (map u8) (components [47; 97; 98])) with [[97; 98]]. cbn [resolve].
    change (if decide _ then root_dir ab_stdio else _) with (mk_fsnode 2 2 0). rewrite tree_child. reflexivity.
Defined.
