(* ===== verification/FileWrite.v ===== *)
(** Writing a file through the ext2 server: [fwrite] ([libc/stdio.c]) and
    [fs_write_block] ([interface/filesystem.h]) on one end of a connection,
    [handle_write_block] ([ext2fs/src/server.c]) on the other, and the disk
    below. *)

From S2P Require Import Prelude Interfaces Kernel Mem RingBuffer Connman CString Words Filesystem Stdio StdioSpec Ext2 Ext2Inode Ext2Server Ext2File Ext2Lookup Ext2Write FileServer PathLookup.
#[local] Open Scope Z_scope.

(** ** Overwriting twice *)
Lemma overwrite_twice i a b l : (i + length a + length b <= length l)%nat →
  overwrite (i + length a) b (overwrite i a l) = overwrite i (a ++ b) l.
Proof.
  intros Hl. rewrite (overwrite_inside i a) by lia. rewrite !overwrite_inside by (rewrite ?length_app, ?length_take, ?length_drop; lia).
  rewrite (app_assoc (take i l) a), take_app_length', drop_app_ge by (rewrite length_app, length_take; lia).
  rewrite !length_app, length_take, drop_drop, <-!app_assoc. do 3 f_equal. f_equal. lia.
Qed.

Lemma overwrite_nil i l : (i <= length l)%nat → overwrite i [] l = l.
Proof. intros Hi. rewrite overwrite_inside by (simpl; lia). simpl. rewrite Nat.add_0_r. apply take_drop. Qed.

Section write.
Context `{KernelEnv} `{ClientHeap} {D : Type} `{BlockDeviceLaws D} {R : Type} `{Allocator R} {Hp : Type} `{Allocator Hp}.
Context (peer : Z → list kcall → c4_ringbuf → c4_ringbuf) (fs : ext2fs) (conn c : c4rt_conn) (sfuel : nat) (junk : list Z) (n : Z).
Implicit Types sv : server_state D.
Abbreviation bs := (ext2_block_size fs).
Abbreviation serve := (serve fs conn sfuel junk).

Definition write_message : message := mk_msg FS_MSG_WRITE_BLOCK [0].

(** The server is at the other end for the next [k] write requests. *)
Fixpoint hosted_writes (k : nat) (h : list kcall) (b : c4_ringbuf) sv : Prop :=
  match k with
  | O => True
  | S k' => hosted peer fs conn c sfuel junk h b sv write_message ∧
      ∀ sv', serve write_message b sv = Ret (tt, sv') → hosted_writes k' (request_calls c write_message ++ h) (sv_ring sv') sv'
  end.

(** The client has selected node [n], whose bytes are [file], and is at [i]; since
    the disk was [d0] only the file's own blocks have changed. *)
Record writing (d0 : D) (i : Z) (file : list Z) sv : Prop := {
  wr_e2 : e2_ok fs (sv_e2 sv);
  wr_own : own_file fs (disk_of sv) n;
  wr_cli : ∃ ty sz, sv_cli sv = Some (mk_cli (mk_fsnode n ty sz) (inode_at fs (disk_of sv) n) i);
  wr_file : file_bytes fs (disk_of sv) (inode_at fs (disk_of sv) n) = file;
  wr_index : 0 <= i;
  wr_same : inode_at fs (disk_of sv) n = inode_at fs d0 n ∧ ∀ k, 0 <= k < Z.of_nat (file_blocks fs (inode_at fs d0 n)) →
    file_block fs (disk_of sv) (inode_at fs d0 n) k = file_block fs d0 (inode_at fs d0 n) k;
  wr_others : ∀ x, 0 <= x <= total_blocks (superblock fs) →
    (∀ k, 0 <= k < Z.of_nat (file_blocks fs (inode_at fs d0 n)) → x ≠ file_block fs d0 (inode_at fs d0 n) k) →
    block_bytes fs (disk_of sv) x = block_bytes fs d0 x
}.

Lemma serve_write b sv : serve write_message b sv = handle_write_block fs conn write_message (with_buffer b sv).
Proof.
  unfold PathLookup.serve, ext2_serve, write_message. cbv zeta. cbn [mtype].
  unfold FS_MSG_WRITE_BLOCK, FS_MSG_READ_BLOCK, FS_MSG_SET_NODE, FS_MSG_FIND_NAME, FS_MSG_GET_ROOT_DIR, FS_MSG_GET_NODE_INFO, FS_MSG_LIST_DIR.
  repeat rewrite (proj2 (Z.eqb_neq (MESSAGE_TYPE_END_RESERVED + _) _)) by lia. by rewrite Z.eqb_refl.
Qed.

Lemma writing_size d0 i file sv : writing d0 i file sv → Z.of_nat (length file) = i_lower_size (inode_at fs (disk_of sv) n).
Proof.
  intros [Hs Ho _ <- _ _ _]. pose proof (fo_size _ _ _ (of_file _ _ _ Ho)). apply file_bytes_length; [apply Hs|apply Hs|lia].
Qed.

(** One request. *)
Lemma write_served d0 i file q b sv : writing d0 i file sv → ring_wf b → contents b = q → q ≠ [] → i + Z.of_nat (length q) <= Z.of_nat (length file) →
  ∃ sv' data more, serve write_message b sv = Ret (tt, sv') ∧ q = data ++ more ∧ data ≠ [] ∧
  writing d0 (i + Z.of_nat (length data)) (overwrite (Z.to_nat i) data file) sv' ∧
  ring_wf (sv_ring sv') ∧ contents (sv_ring sv') = more ∧
  sv_hist sv' = sent conn (mk_msg FS_MSG_COMPLETED [Z.of_nat (length data)]) :: sv_hist sv.
Proof.
  intros Hw Hwf Hq Hne Hin. pose proof (writing_size _ _ _ _ Hw) as Hsz. destruct Hw as [Hs Ho (ty & sz & Hcli) Hfile Hi [Hino0 Hfb0] Hoth].
  pose proof (of_file _ _ _ Ho) as Hf. pose proof (e2_geom _ _ Hs) as Hg. pose proof (bs_pos fs _ Hg) as Hbs.
  set (raw := inode_at fs (disk_of sv) n) in *.
  assert (0 < length q)%nat as Hlq by (destruct q; [done|simpl; lia]).
  pose proof (Z.mod_pos_bound i bs ltac:(lia)) as Hoff. pose proof (Z.div_mod i bs ltac:(lia)) as Hdm. pose proof (Z.div_pos i bs ltac:(lia) ltac:(lia)) as Hk0.
  assert (i / bs < Z.of_nat (file_blocks fs raw)) as Hk by (apply (file_blocks_iff fs (disk_of sv)); [done|lia|lia|lia]).
  assert (0 <= i <= i_lower_size raw) as Hir by lia.
  destruct (handle_write_block_ok fs conn n (mk_fsnode n ty sz) i q write_message (with_buffer b sv)) as (e' & b' & E & He' & Ho' & Hino' & Hf' & Hsame & Hwf' & Hc');
    [done|done|exact Hcli|done|exact Hir|exact Hk|done|done|done|].
  set (data := take (Z.to_nat (bs - i mod bs)) q) in *. rewrite <-serve_write in E. change (inode_at fs (disk_of (with_buffer b sv)) n) with raw in *.
  eexists _, data, (drop (Z.to_nat (bs - i mod bs)) q). split; [exact E|]. split; [unfold data; by rewrite take_drop|]. split.
  { intros En. apply (f_equal length) in En. unfold data in En. rewrite length_take in En. simpl in En. lia. }
  split_and!; [|done|done|done].
  assert (∀ j, 0 <= j < Z.of_nat (file_blocks fs raw) → file_block fs (e_disk e') raw j = file_block fs (disk_of sv) raw j) as Hfb.
  { intros j Hj. by apply (own_blocks_kept fs (disk_of sv) (e_disk e') n (i / bs) j). }
  split; unfold disk_of; cbn [sv_e2 sv_cli]; [done|done| | |lia| |].
  - exists ty, sz. by rewrite Hino'.
  - rewrite Hino', Hf'. by f_equal.
  - rewrite Hino', <-Hino0 in *. split; [done|]. intros k Hkr. rewrite Hfb by done. by apply Hfb0.
  - intros x Hx Hnot. rewrite Hsame; [by apply Hoth|done|]. rewrite <-Hino0 in *. change (disk_of (with_buffer b sv)) with (disk_of sv).
    fold raw. rewrite Hfb0 by done. by apply Hnot.
Qed.

Lemma write_request_ok d0 i file q b sv f p k : writing d0 i file sv → ring_wf b → contents b = q → q ≠ [] → i + Z.of_nat (length q) <= Z.of_nat (length file) →
  fc_server f = c → hosted_writes (S k) (p_hist p) b sv → let h' := request_calls c write_message ++ p_hist p in
  ∃ sv' data more, q = data ++ more ∧ data ≠ [] ∧ writing d0 (i + Z.of_nat (length data)) (overwrite (Z.to_nat i) data file) sv' ∧
  ring_wf (sv_ring sv') ∧ contents (sv_ring sv') = more ∧ hosted_writes k h' (sv_ring sv') sv' ∧
  write_request (R := R) (peer (ringbuf c)) f (mk_client p b) = Ret (None, mk_client (mk_process h' (p_region p)) (sv_ring sv')).
Proof.
  intros Hw Hwf Hq Hne Hin Hf [Hh Hk] h'. destruct (write_served d0 i file q b sv Hw Hwf Hq Hne Hin) as (sv' & data & more & E & Eq & Hd & Hw' & Hwf' & Hc' & Hhist).
  destruct (Hh _ E) as [Ep Em]. rewrite Hhist in Em. apply sent_inj in Em.
  exists sv', data, more. split_and!; [done|done|done|done|done|by apply Hk|].
  unfold write_request. rewrite (bind_run _ _ _ _ _ (call_run peer c f write_message p b Hf)).
  change (mk_call _ _ _ :: mk_call _ _ _ :: mk_call _ _ _ :: p_hist p) with h'. fold h' in Ep, Em. rewrite Ep, <-Em. cbn [mtype].
  by rewrite (proj2 (Z.eqb_neq FS_MSG_COMPLETED FS_MSG_ERROR)) by (unfold FS_MSG_COMPLETED, FS_MSG_ERROR; lia).
Qed.

(** The requests go on until the ring buffer is empty. *)
Lemma flush_ok f : fc_server f = c → ∀ turns k d0 i file q b sv p, writing d0 i file sv → ring_wf b → contents b = q →
  i + Z.of_nat (length q) <= Z.of_nat (length file) → (length q < turns)%nat → (length q <= k)%nat → hosted_writes k (p_hist p) b sv →
  ∃ sv' h' b', writing d0 (i + Z.of_nat (length q)) (overwrite (Z.to_nat i) q file) sv' ∧ ring_wf b' ∧ contents b' = [] ∧
  flush_loop (R := R) (peer (ringbuf c)) turns f (mk_client p b) = Ret (None, mk_client (mk_process h' (p_region p)) b').
Proof.
  intros Hf. induction turns as [|turns IH]; intros k d0 i file q b sv p Hw Hwf Hq Hin Ht Hk Hh; [lia|]. cbn [flush_loop].
  rewrite (bind_run get _ _ _ _ eq_refl). cbn [c_ring]. rewrite (empty_iff b Hwf), <-(contents_len b Hwf), Hq.
  destruct q as [|x q].
  - exists sv, (p_hist p), b. change (Z.of_nat (@length Z []) =? 0) with true. cbv iota. rewrite overwrite_nil by (simpl in Hin; lia).
    split_and!; [simpl; by rewrite Z.add_0_r|done|done|]. by destruct p.
  - change (Z.of_nat (length (x :: q)) =? 0) with false. cbv iota. destruct k as [|k]; [simpl in Hk; lia|].
    destruct (write_request_ok d0 i file (x :: q) b sv f p k Hw Hwf Hq ltac:(done) Hin Hf Hh) as (sv1 & data & more & Eq & Hd & Hw1 & Hwf1 & Hc1 & Hh1 & E).
    rewrite (bind_run _ _ _ _ _ E). rewrite Eq in *. rewrite length_app in *.
    assert (0 < length data)%nat as Hld by (destruct data; [done|simpl; lia]). pose proof (wr_index _ _ _ _ Hw) as Hi.
    destruct (IH k d0 (i + Z.of_nat (length data)) (overwrite (Z.to_nat i) data file) more (sv_ring sv1) sv1 (mk_process (request_calls c write_message ++ p_hist p) (p_region p)))
      as (sv' & h' & b' & Hw' & Hwf' & Hc' & E'); [done|done|done|rewrite overwrite_length by lia; lia|lia|lia|done|].
    exists sv', h', b'. split_and!; [|done|done|exact E'].
    replace (Z.to_nat (i + Z.of_nat (length data))) with (Z.to_nat i + length data)%nat in Hw' by lia. rewrite overwrite_twice in Hw' by lia.
    by replace (i + Z.of_nat (length data + length more)) with (i + Z.of_nat (length data) + Z.of_nat (length more)) by lia.
Qed.

(** The ring buffer after the client has put [buffer] into it. *)
Definition filled (buffer : list Z) (b : c4_ringbuf) : c4_ringbuf :=
  match c4_ringbuf_write buffer (Z.of_nat (length buffer)) b with Ret (_, b1) => b1 | _ => b end.

(** A buffer that fits the ring buffer, behind [old], what was there before. *)
Lemma fs_write_block_ok f turns old buffer d0 i file b sv p : fc_server f = c → fc_index f = 0 → writing d0 i file sv → ring_wf b → contents b = old →
  buffer ≠ [] → Z.of_nat (length (old ++ buffer)) <= capacity b → i + Z.of_nat (length (old ++ buffer)) <= Z.of_nat (length file) →
  (length (old ++ buffer) + 1 < turns)%nat → hosted_writes (length (old ++ buffer)) (p_hist p) (filled buffer b) sv →
  ∃ sv' h' b' f', writing d0 (i + Z.of_nat (length (old ++ buffer))) (overwrite (Z.to_nat i) (old ++ buffer) file) sv' ∧ ring_wf b' ∧ contents b' = [] ∧
  fc_server f' = c ∧
  fs_write_block (R := R) (peer (ringbuf c)) turns f buffer (Z.of_nat (length buffer)) (mk_client p b) =
    Ret ((Z.of_nat (length buffer), f'), mk_client (mk_process h' (p_region p)) b').
Proof.
  intros Hf Hix Hw Hwf Hold Hne Hcap Hin Ht Hh. rewrite length_app in *. pose proof (wf_size _ Hwf) as Hsz.
  assert (0 < length buffer)%nat as Hlb by (destruct buffer; [done|simpl; lia]). unfold capacity in *.
  destruct (ringbuf_write_ok buffer (Z.of_nat (length buffer)) b Hwf) as (b1 & E1 & Hwf1 & Hsz1 & Hc1); [lia|lia|]. cbv zeta in *.
  unfold capacity in *. rewrite Hold in *. rewrite Z.min_l in * by lia. rewrite Nat2Z.id, take_ge in Hc1 by lia. unfold filled in Hh. rewrite E1 in Hh.
  pose proof (wr_index _ _ _ _ Hw) as Hi. destruct turns as [|[|turns]]; [lia|lia|].
  set (f' := mk_fsconn (fc_server f) (fc_node f) (u32 (fc_index f + Z.of_nat (length buffer)))).
  destruct (length old + length buffer)%nat as [|k] eqn:Ek; [lia|].
  destruct (write_request_ok d0 i file (old ++ buffer) b1 sv f' p k Hw Hwf1 Hc1) as (sv1 & data & more & Eq & Hd & Hw1 & Hwf2 & Hc2 & Hh1 & E2);
    [by destruct old|rewrite length_app; lia|done|done|].
  assert (0 < length data)%nat as Hld by (destruct data; [done|simpl; lia]).
  assert (length old + length buffer = length data + length more)%nat as Hlen by (by rewrite <-!length_app, Eq).
  destruct (flush_ok f' Hf (S (S turns)) k d0 (i + Z.of_nat (length data)) (overwrite (Z.to_nat i) data file) more (sv_ring sv1) sv1
    (mk_process (request_calls c write_message ++ p_hist p) (p_region p))) as (sv' & h' & b' & Hw' & Hwf' & Hc' & E3);
    [done|done|done|rewrite overwrite_length by lia; lia|lia|lia|done|].
  exists sv', h', b', f'. split_and!; [|done|done|done|].
  - replace (Z.to_nat (i + Z.of_nat (length data))) with (Z.to_nat i + length data)%nat in Hw' by lia. rewrite overwrite_twice in Hw' by lia.
    rewrite <-Eq in Hw'. by replace (i + Z.of_nat (S k)) with (i + Z.of_nat (length data) + Z.of_nat (length more)) by lia.
  - unfold fs_write_block. rewrite (proj2 (Z.eqb_neq _ 0)) by lia.
    rewrite (bind_run _ _ _ (None, Z.of_nat (length buffer), f') (mk_client (mk_process (request_calls c write_message ++ p_hist p) (p_region p)) (sv_ring sv1))).
    + rewrite (bind_run _ _ _ _ _ E3). reflexivity.
    + cbn [send_loop]. rewrite (proj2 (Z.ltb_lt 0 _)) by lia. cbn [andb]. change (0 <? 1) with true. cbv iota.
      rewrite (bind_run (tail_from _ _) _ _ buffer _) by (unfold tail_from; rewrite Hix; done).
      rewrite (bind_run _ _ _ (Z.of_nat (length buffer)) (mk_client p b1)) by (unfold on_ring, zoom; cbn [c_ring]; by rewrite E1). cbv zeta. fold f'.
      rewrite (bind_run _ _ _ _ _ E2). rewrite Z.sub_diag. reflexivity.
Qed.

(** The file at [fp] is open on the connection and nothing was written to it yet;
    [old] is in its ring buffer. *)
Record fresh (fp st : Z) (old : list Z) (h : list kcall) (b : c4_ringbuf) (s : stdio R Hp) : Prop := {
  fr_file : ∃ f, io_files s !! fp = Some f ∧ fc_server (f_conn f) = c ∧ f_status f = st ∧ fc_index (f_conn f) = 0;
  fr_calls : p_hist (io_proc s) = h;
  fr_ring : io_rings s !! ringbuf c = Some b;
  fr_wf : ring_wf b ∧ contents b = old
}.

Lemma fwrite_ok fp st old buffer d0 i file h b sv s fuel turns sz members : fresh fp st old h b s → writing d0 i file sv →
  u32 (sz * members) = Z.of_nat (length buffer) → buffer ≠ [] → Z.of_nat (length (old ++ buffer)) <= capacity b → capacity b < 2 ^ 31 →
  i + Z.of_nat (length (old ++ buffer)) <= Z.of_nat (length file) → (length (old ++ buffer) + 1 < fuel)%nat → (1 < turns)%nat →
  hosted_writes (length (old ++ buffer)) h (filled buffer b) sv → ∃ s' sv',
  fwrite peer fuel turns buffer sz members fp s = Ret (Z.of_nat (length buffer), s') ∧
  writing d0 (i + Z.of_nat (length (old ++ buffer))) (overwrite (Z.to_nat i) (old ++ buffer) file) sv' ∧
  same_but fp (ringbuf c) s s' ∧ ∃ b', io_rings s' !! ringbuf c = Some b' ∧ ring_wf b' ∧ contents b' = [].
Proof.
  intros [(f & Ef & Hfc & Hst & Hix) Hh Hrb [Hwf Hold]] Hw Elen Hne Hcap Hcap2 Hin Hfu Ht Hho. rewrite <-Hh in Hho.
  destruct (fs_write_block_ok (f_conn f) fuel old buffer d0 i file b sv (io_proc s) Hfc Hix Hw Hwf Hold Hne Hcap Hin Hfu Hho)
    as (sv' & h' & b' & f' & Hw' & Hwf' & Hc' & Hfc' & E).
  assert (0 < length buffer)%nat as Hlb by (destruct buffer; [done|simpl; lia]). rewrite length_app in Hcap.
  destruct turns as [|[|turns]]; [lia|lia|].
  set (p1 := mk_process h' (p_region (io_proc s))) in *. set (s1 := set_rings p1 (<[ringbuf c := b']> (io_rings s)) s).
  set (s2 := set_files (<[fp := Stdio.set_conn f' f]> (io_files s1)) s1).
  set (s3 := set_rings p1 (<[ringbuf c := b']> (io_rings s2)) s2).
  set (s4 := set_files (<[fp := Stdio.set_conn f' (Stdio.set_conn f' f)]> (io_files s3)) s3).
  exists s4, sv'. split; [|split; [done|split]].
  - unfold fwrite. rewrite Elen. cbn [write_all]. rewrite (bind_run (load_file fp) _ s f s) by (unfold load_file, getsome; by rewrite Ef).
    change (drop (Z.to_nat 0) buffer) with buffer.
    rewrite (bind_run _ _ s (Z.of_nat (length buffer), f') s1) by (unfold on_conn, with_ring; by rewrite Hfc, Hrb, E).
    rewrite (bind_run _ _ s1 tt s2).
    2:{ unfold upd_file. rewrite (bind_run (load_file fp) _ s1 f s1); [done|]. unfold load_file, getsome. cbn [io_files set_rings s1]. by rewrite Ef. }
    cbn [fst snd]. rewrite i32_small by lia. rewrite (proj2 (Z.ltb_lt 0 _)) by lia. rewrite Z.sub_diag, Z.add_0_l, (u32_small (Z.of_nat (length buffer))) by lia. change (u32 0) with 0.
    assert (load_file fp s2 = Ret (Stdio.set_conn f' f, s2)) as El by (unfold load_file, getsome; cbn [io_files set_files s2]; by rewrite lookup_insert_eq).
    rewrite (bind_run _ _ _ _ _ El).
    rewrite (bind_run _ _ s2 (0, f') s3).
    2:{ unfold on_conn, with_ring. cbn [f_conn Stdio.set_conn]. rewrite Hfc'. cbn [io_rings set_files set_rings s2 s1]. by rewrite lookup_insert_eq. }
    rewrite (bind_run _ _ s3 tt s4).
    2:{ unfold upd_file. rewrite (bind_run (load_file fp) _ s3 (Stdio.set_conn f' f) s3); [done|]. unfold load_file, getsome.
        cbn [io_files set_rings set_files s3 s2]. by rewrite lookup_insert_eq. }
    reflexivity.
  - split; intros; cbn [io_files io_rings io_heap io_proc io_mem set_files set_rings s4 s3 s2 s1]; rewrite ?lookup_insert_ne by done; done.
  - exists b'. split; [|done]. cbn [io_rings set_files set_rings s4 s3 s2 s1]. apply lookup_insert_eq.
Qed.
End write.

(** ** What a program writes *)
Section claims.
Context `{KernelEnv} `{ClientHeap} {D : Type} `{BlockDeviceLaws D} {R : Type} `{Allocator R} {Hp : Type} `{Allocator Hp}.
Context (peer : Z → list kcall → c4_ringbuf → c4_ringbuf) (fs : ext2fs) (conn c : c4rt_conn) (sfuel : nat) (junk : list Z).

(** C14: what a program writes is on the disk.  The first [fwrite] on an open
    file, of a buffer that fits the connection's ring buffer, inside the file:
    it answers the whole length, the ring buffer is empty afterwards, and the
    bytes of the file on the disk are the old ones with the buffer over them
    from the client's position on, however many blocks, direct or indirect, they
    lie in.  Every block of the disk that is not the file's, the inode and the
    rest of the program's state are as they were. *)
Theorem fwrite_reaches_disk n fp st buffer i h b (sv : server_state D) (s : stdio R Hp) fuel turns sz members :
  let raw := inode_at fs (disk_of sv) n in let file := file_bytes fs (disk_of sv) raw in
  e2_ok fs (sv_e2 sv) → own_file fs (disk_of sv) n → sv_cli sv = Some (mk_cli (mk_fsnode n FILE_TYPE_UNKNOWN 0) raw i) → 0 <= i →
  fresh c fp st [] h b s → u32 (sz * members) = Z.of_nat (length buffer) → buffer ≠ [] → size b = connman_ring_size →
  Z.of_nat (length buffer) < connman_ring_size → i + Z.of_nat (length buffer) <= Z.of_nat (length file) →
  (length buffer + 1 < fuel)%nat → (1 < turns)%nat →
  hosted_writes peer fs conn c sfuel junk (length buffer) h (filled buffer b) sv → ∃ s' sv',
  fwrite peer fuel turns buffer sz members fp s = Ret (Z.of_nat (length buffer), s') ∧
  writing fs n (disk_of sv) (i + Z.of_nat (length buffer)) (overwrite (Z.to_nat i) buffer file) sv' ∧
  same_but fp (ringbuf c) s s' ∧ ∃ b', io_rings s' !! ringbuf c = Some b' ∧ ring_wf b' ∧ contents b' = [].
Proof.
  intros raw file Hs Ho Hcli Hi Hfr Elen Hne Hsz Hcap Hin Hfu Ht Hh.
  apply (fwrite_ok peer fs conn c sfuel junk n fp st [] buffer (disk_of sv) i file h b sv s); try done.
  - split; try done. by eexists _, _.
  - unfold capacity. rewrite Hsz. simpl. lia.
  - unfold capacity. by rewrite Hsz.
Qed.

(** The ring buffer carries both directions.  When a stream was read before it
    is written, what the server sent and the program has not read yet comes
    first: the server stores these bytes in front of the program's, at the
    position behind the block they came from. *)
Theorem unread_bytes_written n fp st old buffer d0 i file h b (sv : server_state D) (s : stdio R Hp) fuel turns sz members :
  fresh c fp st old h b s → writing fs n d0 i file sv → u32 (sz * members) = Z.of_nat (length buffer) → buffer ≠ [] →
  Z.of_nat (length (old ++ buffer)) <= capacity b → capacity b < 2 ^ 31 →
  i + Z.of_nat (length (old ++ buffer)) <= Z.of_nat (length file) → (length (old ++ buffer) + 1 < fuel)%nat → (1 < turns)%nat →
  hosted_writes peer fs conn c sfuel junk (length (old ++ buffer)) h (filled buffer b) sv → ∃ s' sv',
  fwrite peer fuel turns buffer sz members fp s = Ret (Z.of_nat (length buffer), s') ∧
  writing fs n d0 (i + Z.of_nat (length (old ++ buffer))) (overwrite (Z.to_nat i) (old ++ buffer) file) sv'.
Proof.
  intros Hfr Hw Elen Hne Hcap Hcap2 Hin Hfu Ht Hh.
  destruct (fwrite_ok peer fs conn c sfuel junk n fp st old buffer d0 i file h b sv s fuel turns sz members) as (s' & sv' & E & Hw' & _); try done.
  by exists s', sv'.
Qed.
End claims.

#[local] Existing Instance roomy.

(** ** One byte into the file of the sample directory *)
Definition ab_server : server_state Ramdisk.ramdisk :=
  mk_srv (sv_e2 tree_server) empty_ring (Some (mk_cli (mk_fsnode 3 FILE_TYPE_UNKNOWN 0) (inode_at small_fs tree_disk 3) 1)) [].
Definition ab_peer `{KernelEnv} (a : Z) (h : list kcall) (b : c4_ringbuf) : c4_ringbuf :=
  match serve small_fs blank_conn 9 [] write_message b ab_server with Ret (_, sv) => sv_ring sv | _ => b end.

Lemma ab_file : file_bytes small_fs tree_disk (inode_at small_fs tree_disk 3) = [104; 105; 10].
Proof. vm_compute. reflexivity. Qed.

Lemma ab_hosted `{KernelEnv} : (∀ h, (kernel h).2 = mk_msg FS_MSG_COMPLETED [1]) →
  hosted_writes ab_peer small_fs blank_conn hi_conn 9 [] 1 [] (filled [111] empty_ring) ab_server.
Proof.
  intros Hk. split; [|done]. destruct empty_ring_ok as (Hwf & Hc & Hsz).
  destruct (ringbuf_write_ok [111] 1 empty_ring Hwf) as (b1 & E1 & Hwf1 & _ & Hc1); [simpl; lia|lia|]. rewrite Hc in Hc1.
  assert (filled [111] empty_ring = b1) as -> by (unfold filled; by change (Z.of_nat (length [111])) with 1; rewrite E1).
  destruct (write_served small_fs blank_conn 9 [] 3 tree_disk 1 [104; 105; 10] [111] b1 ab_server) as (sv' & data & more & E & Eq & Hd & _ & _ & _ & Hh).
  - split; [exact tree_server_ok|exact tree_file_own|by eexists _, _|exact ab_file|lia|done|done].
  - exact Hwf1.
  - exact Hc1.
  - done.
  - simpl. lia.
  - intros sv2 E2. rewrite E in E2. injection E2 as <-. split.
    + unfold ab_peer. by rewrite E.
    + rewrite Hh, Hk. destruct data as [|x [|]]; [done| |done]. done.
Qed.

Lemma fwrite_reaches_disk_witness : let _ := steady 0 (mk_msg (@FS_MSG_COMPLETED (steady 0 no_msg)) [1]) in ∃ s' sv',
  fwrite ab_peer 9 9 [111] 1 1 512 new_stdio = Ret (1, s') ∧
  file_bytes small_fs (disk_of sv') (inode_at small_fs (disk_of sv') 3) = [104; 111; 10].
Proof.
  intros env. destruct empty_ring_ok as (Hwf & Hc & Hsz).
  destruct (fwrite_reaches_disk ab_peer small_fs blank_conn hi_conn 9 [] 3 512 FILE_STATUS_PRETTY_GOOD [111] 1 [] empty_ring ab_server new_stdio 9 9 1 1)
    as (s' & sv' & E & Hw & _).
  - exact tree_server_ok.
  - exact tree_file_own.
  - reflexivity.
  - lia.
  - split; [eexists; by split_and!|done|done|by split].
  - reflexivity.
  - discriminate.
  - exact Hsz.
  - vm_compute. reflexivity.
  - change (disk_of ab_server) with tree_disk. rewrite ab_file. simpl. lia.
  - simpl. lia.
  - lia.
  - apply (ab_hosted (H := env)). reflexivity.
  - exists s', sv'. split; [exact E|]. rewrite (wr_file _ _ _ _ _ _ Hw). change (disk_of ab_server) with tree_disk. rewrite ab_file. reflexivity.
Defined.
