(* ===== verification/Spawn.v ===== *)
(** Starting a program from a file: [spawn] of [libraries/c4rt/libc/stdlib.c].
    The file is read into a static buffer and handed to the loader. *)

From S2P Require Import Prelude Interfaces Kernel Mem RingBuffer Connman CString Words Filesystem Elf ElfStack ElfSpec Stdio StdioSpec.
#[local] Open Scope Z_scope.

(** A process that starts others: its files, the page objects its loader made
    and holds, and what each child has mapped, latest first. *)
Record spawner (R H : Type) := mk_spawner {
  sp_io : stdio R H;
  sp_objs : list (list Z);
  sp_caps : gmap Z nat;
  sp_win : gmap Z nat;
  sp_children : list (list (Z * Z * nat))
}.
Arguments mk_spawner {R H}.
Arguments sp_io {R H}.
Arguments sp_objs {R H}.
Arguments sp_caps {R H}.
Arguments sp_win {R H}.
Arguments sp_children {R H}.

(** What [fread] stored, byte by byte. *)
Fixpoint store_bytes (p : Z) (bs : list Z) : M mem unit :=
  match bs with
  | [] => mret tt
  | b :: bs' => wr p b;; store_bytes (p + 1) bs'
  end.

Section spawn.
Context `{KernelEnv} {R : Type} `{Allocator R} {Hp : Type} `{Allocator Hp}.
Context (peer : Z → list kcall → c4_ringbuf → c4_ringbuf) (page : list Z) (env : io_env) (fuel : nat).
Context (blank : nat → nat → Z) (BOOTINFO_ADDR progbuf : Z).
Abbreviation P := (M (spawner R Hp)).

Definition io {A} (m : M (stdio R Hp) A) : P A :=
  zoom sp_io (λ x s, mk_spawner x (sp_objs s) (sp_caps s) (sp_win s) (sp_children s)) m.

(** The loader works on the process's own memory, for one new child. *)
Definition loader_of (child : list (Z * Z * nat)) (s : spawner R Hp) : loader :=
  mk_loader (p_hist (io_proc (sp_io s))) (io_mem (sp_io s)) (sp_objs s) (sp_caps s) (sp_win s) child.
Definition after_load (l : loader) (s : spawner R Hp) : spawner R Hp :=
  let x := sp_io s in
  let p := Mem.mk_process (l_hist l) (p_region (io_proc x)) in
  mk_spawner (set_iomem (l_mem l) (set_rings p (io_rings x) x)) (l_objs l) (l_caps l) (l_win l) (l_child l :: sp_children s).
Definition load {A} (m : M loader A) : P A := λ s,
  match m (loader_of [] s) with
  | Ret (x, l) => Ret (x, after_load l s)
  | UB => UB
  | NoFuel => NoFuel
  end.

Definition no_process : c4_process := Elf.mk_process 0 0 0 0.

(** [while ((nread = fread(progbuf + i, PAGE_SIZE, 1, fp)) > 0)] *)
Fixpoint read_program (turns freads : nat) (fp i : Z) : P unit :=
  match turns with
  | O => nofuel
  | S t =>
      r ← io (fread peer freads PAGE_SIZE 1 fp);
      io (dm (store_bytes (progbuf + i) r.2));;
      let nread := i32 r.1 in
      if 0 <? nread then read_program t freads fp (u32 (i + nread)) else mret tt
  end.

(** The assertion on [fp] only prints. *)
Definition spawn (turns freads loads : nat) (name argv envp : Z) : P c4_process :=
  fp ← io (fopen peer page env fuel turns name (lit_r env));
  if fp =? 0 then mret no_process
  else
    read_program turns freads fp 0;;
    io (fclose page fp);;
    valid ← io (dm (elf_is_valid progbuf));
    if negb valid then mret no_process
    else load (elf_load blank BOOTINFO_ADDR loads fuel progbuf argv envp).
End spawn.

(** ** Closing *)
Section close.
Context `{KernelEnv} {R : Type} `{RegionLaws R} {Hp : Type} `{AllocatorLaws Hp}.

(** The connection's page is mapped in the region and the [FILE] is a block of
    the heap. *)
Record closable (fp : Z) (c : c4rt_conn) (s : stdio R Hp) : Prop := {
  cl_null : fp ≠ 0;
  cl_page : Mem.mapped (bufobj c) = true;
  cl_region : ∃ r, p_region (io_proc s) = Some r ∧ al_inv r ∧ al_room r ∧ vaddr (bufobj c) ∈ al_live r;
  cl_heap : al_inv (io_heap s) ∧ fp ∈ al_live (io_heap s)
}.

(** The disconnect message, both endpoints, then the page. *)
Definition close_calls (c : c4rt_conn) : list kcall :=
  [remove_call (bufobj c); unmap_call (bufobj c);
   mk_call SYSCALL_CSPACE_CAP_REMOVE [C4_CURRENT_CSPACE; u32 (async_from c); 0; 0] no_msg;
   mk_call SYSCALL_CSPACE_CAP_REMOVE [C4_CURRENT_CSPACE; u32 (async_to c); 0; 0] no_msg;
   mk_call SYSCALL_SYNC_SEND [0; u32 (server_port c); 0; 0] (mk_msg C4RT_CONNMAN_DISCONNECT [])].

(** What closing gives back. *)
Record closed (fp : Z) (c : c4rt_conn) (s s' : stdio R Hp) : Prop := {
  cd_files : io_files s' = delete fp (io_files s);
  cd_rings : io_rings s' = delete (ringbuf c) (io_rings s);
  cd_mem : io_mem s' = io_mem s;
  cd_hist : p_hist (io_proc s') = close_calls c ++ p_hist (io_proc s);
  cd_heap : al_inv (io_heap s') ∧ al_live (io_heap s') = al_live (io_heap s) ∖ {[fp]};
  cd_region : ∃ r r', p_region (io_proc s) = Some r ∧ p_region (io_proc s') = Some r' ∧ al_inv r' ∧
    al_live r' = al_live r ∖ {[vaddr (bufobj c)]}
}.

Lemma disconnect_ok page conn (s : stdio R Hp) r : p_region (io_proc s) = Some r → al_inv r → al_room r →
  let c := fc_server conn in Mem.mapped (bufobj c) = true → vaddr (bufobj c) ∈ al_live r → ∃ conn' r',
  disconnect page conn s = Ret (conn', set_rings (Mem.mk_process (close_calls c ++ p_hist (io_proc s)) (Some r')) (delete (ringbuf c) (io_rings s)) s) ∧
  al_inv r' ∧ al_live r' = al_live r ∖ {[vaddr (bufobj c)]}.
Proof.
  intros Hr Hi Hroom c Hm Hl. unfold disconnect, fs_disconnect. fold c.
  destruct (io_proc s) as [h pr] eqn:Ep. simpl in Hr. subst pr.
  set (b := mk_ringbuf 0 0 0 page). set (h3 := drop 2 (close_calls c) ++ h).
  destruct (memobj_free_ok (bufobj c) h3 r Hm Hi Hroom Hl) as (o' & r' & E & _ & Hi' & Hl').
  set (conn' := mk_conn (server_port c) (async_to c) (async_from c) (client_id c) (prog_data c) o' (ringbuf c)).
  exists (mk_fsconn conn' (fc_node conn) (fc_index conn)), r'. split; [|done].
  assert (c4rt_connman_disconnect c (mk_client (Mem.mk_process h (Some r)) b) =
    Ret (conn', mk_client (Mem.mk_process (close_calls c ++ h) (Some r')) b)) as Ec.
  { unfold c4rt_connman_disconnect. do 3 (erewrite bind_run; [|reflexivity]).
    rewrite (bind_run _ _ _ o' (mk_client (Mem.mk_process (close_calls c ++ h) (Some r')) b)); [done|].
    unfold on_proc, zoom. cbn [c_proc p_hist p_region]. unfold h3 in E. cbn [close_calls drop app] in E. rewrite E. reflexivity. }
  rewrite (bind_run _ _ _ _ _ Ec). reflexivity.
Qed.

Lemma fclose_ok page fp f c (s : stdio R Hp) : io_files s !! fp = Some f → fc_server (f_conn f) = c → closable fp c s → ∃ s',
  fclose page fp s = Ret (0, s') ∧ closed fp c s s'.
Proof.
  intros Ef <- [Hnull Hm (r & Hr & Hi & Hroom & Hl) (Hhi & Hhl)]. unfold fclose. rewrite truthy_ne by done.
  set (f1 := Stdio.set_status FILE_STATUS_CLOSED f). set (s1 := set_files (<[fp := f1]> (io_files s)) s).
  assert (∀ t g, io_files t !! fp = Some g → load_file (R := R) (Hp := Hp) fp t = Ret (g, t)) as Hld.
  { intros t g Eg. unfold load_file, getsome. by rewrite Eg. }
  rewrite (bind_run _ _ s tt s1). 2:{ unfold upd_file. by rewrite (bind_run _ _ _ _ _ (Hld s f Ef)). }
  assert (io_files s1 !! fp = Some f1) as Ef1 by (cbn [io_files set_files s1]; by rewrite lookup_insert_eq).
  rewrite (bind_run _ _ _ _ _ (Hld s1 f1 Ef1)).
  destruct (disconnect_ok page (f_conn f1) s1 r) as (conn' & r' & E & Hi' & Hl'); [done..|].
  rewrite (bind_run _ _ _ _ _ E). set (s2 := set_rings _ _ s1).
  set (s3 := set_files (<[fp := Stdio.set_conn conn' f1]> (io_files s2)) s2).
  rewrite (bind_run _ _ s2 tt s3). 2:{ unfold upd_file. by rewrite (bind_run _ _ _ _ _ (Hld s2 f1 Ef1)). }
  set (s4 := set_files (delete fp (io_files s3)) s3). rewrite (bind_run (modify (λ s, set_files (delete fp (io_files s)) s)) _ s3 tt s4 eq_refl).
  destruct (al_free_ok fp (io_heap s) Hhi Hhl) as (h' & Eh & Hhi' & Hhl').
  exists (Stdio.set_heap h' s4). split.
  { rewrite (bind_run _ _ s4 tt (Stdio.set_heap h' s4)); [done|]. unfold dh, zoom. change (io_heap s4) with (io_heap s). by rewrite Eh. }
  split; cbn; [|done|done|done|done|by exists r, r'].
  by rewrite !delete_insert_eq.
Qed.
End close.

(** ** Reading the file *)
Lemma store_bytes_ok bs : ∀ p m, CString.mapped m p (Z.of_nat (length bs)) → Forall (λ b, 0 <= b < 256) bs →
  store_bytes p bs m = Ret (tt, put_bytes p bs m).
Proof.
  induction bs as [|b bs IH]; intros p m Hm Hb; [done|]. apply Forall_cons in Hb as [Hb Hbs]. cbn [store_bytes put_bytes].
  destruct (Hm p) as [old E]; [simpl; lia|]. rewrite (bind_run _ _ _ _ _ (wr_ok _ _ b _ E)), wrapu_small by lia.
  rewrite IH; [|intros a Ha; apply lookup_insert_is_Some'; right; apply Hm; simpl; lia|done]. do 2 f_equal.
  apply map_eq. intros a. destruct (decide (a = p)) as [->|Hne].
  - rewrite put_bytes_lookup, decide_False by lia. by rewrite !lookup_insert_eq.
  - by rewrite lookup_insert_ne, !put_bytes_lookup, lookup_insert_ne by done.
Qed.

Lemma put_bytes_app p xs ys m : put_bytes (p + Z.of_nat (length xs)) ys (put_bytes p xs m) = put_bytes p (xs ++ ys) m.
Proof.
  apply map_eq. intros a. rewrite !put_bytes_lookup, length_app.
  destruct (decide (p + Z.of_nat (length xs) <= a < _)) as [Ha|Ha].
  - rewrite decide_True, lookup_app_r by lia. f_equal. lia.
  - destruct (decide (p <= a < p + Z.of_nat (length xs))).
    + by rewrite decide_True, lookup_app_l by lia.
    + by rewrite decide_False by lia.
Qed.

Section read.
Context `{KernelEnv} {R : Type} `{RegionLaws R} {Hp : Type} `{AllocatorLaws Hp}.
Context (peer : Z → list kcall → c4_ringbuf → c4_ringbuf) (W : stream_server).

Lemma io_run {A} (m : M (stdio R Hp) A) (s : spawner R Hp) v x : m (sp_io s) = Ret (v, x) →
  io m s = Ret (v, mk_spawner x (sp_objs s) (sp_caps s) (sp_win s) (sp_children s)).
Proof. unfold io, zoom. by intros ->. Qed.

(** One turn per page and one to see the end. *)
Lemma read_program_ok progbuf fp c st freads : serves peer W c → (4096 < freads)%nat → ∀ turns stream i (s : spawner R Hp),
  reading W fp c st stream (sp_io s) → Forall (λ b, 0 <= b < 256) stream →
  CString.mapped (io_mem (sp_io s)) (progbuf + i) (Z.of_nat (length stream)) →
  Z.of_nat (length stream) <= 4096 * (Z.of_nat turns - 1) → 0 <= i → i + Z.of_nat (length stream) < 2 ^ 31 →
  ∃ x, read_program peer progbuf turns freads fp i s = Ret (tt, mk_spawner x (sp_objs s) (sp_caps s) (sp_win s) (sp_children s)) ∧
  reading W fp c st [] x ∧ io_mem x = put_bytes (progbuf + i) stream (io_mem (sp_io s)) ∧
  same_but fp (ringbuf c) (sp_io s) (set_iomem (io_mem (sp_io s)) x).
Proof.
  intros Hsv Hfr. induction turns as [|turns IH]; intros stream i s Hr Hby Hm Ht Hi Hsz; [lia|]. cbn [read_program].
  assert (u32 (PAGE_SIZE * 1) = 4096) as Epg by done.
  destruct (fread_ok peer W fp c st stream (sp_io s) freads PAGE_SIZE 1 Hsv Hr) as (x1 & E1 & Hr1 & Hsb1); [rewrite Epg; lia..|].
  rewrite Epg in E1, Hr1. set (k := (Z.to_nat 4096 `min` length stream)%nat) in *. cbv zeta in E1.
  rewrite (bind_run _ _ _ _ _ (io_run _ _ _ _ E1)). cbn [fst snd].
  assert (length (take k stream) = k) as Hk by (rewrite length_take; lia).
  set (x2 := set_iomem (put_bytes (progbuf + i) (take k stream) (io_mem x1)) x1).
  assert (dm (R := R) (Hp := Hp) (store_bytes (progbuf + i) (take k stream)) x1 = Ret (tt, x2)) as E2.
  { unfold dm, zoom. rewrite store_bytes_ok; [done| |by apply Forall_take]. rewrite Hk, (sb_mem _ _ _ _ Hsb1).
    intros a Ha. apply Hm. lia. }
  rewrite (bind_run _ _ _ _ _ (io_run _ (mk_spawner x1 _ _ _ _) _ _ E2)). cbn [sp_objs sp_caps sp_win sp_children].
  rewrite i32_small by lia. pose proof (sb_mem _ _ _ _ Hsb1) as Em1.
  assert (same_but fp (ringbuf c) (sp_io s) (set_iomem (io_mem (sp_io s)) x2)) as Hsb2 by (destruct Hsb1; by split).
  destruct (Z.ltb_spec 0 (Z.of_nat k)) as [Hpos|Hz].
  - rewrite u32_small by lia. set (s2 := mk_spawner x2 _ _ _ _).
    destruct (IH (drop k stream) (i + Z.of_nat k) s2) as (x & E & Hrx & Emx & Hsb).
    + by apply reading_mem.
    + by apply Forall_drop.
    + intros a Ha. cbn [sp_io s2 io_mem set_iomem x2]. rewrite length_drop in Ha. rewrite put_bytes_lookup, decide_False, Em1 by lia.
      apply Hm. lia.
    + rewrite length_drop. lia.
    + lia.
    + rewrite length_drop. lia.
    + exists x. split_and!; [exact E|done| |].
      * rewrite Emx. cbn [sp_io s2 io_mem set_iomem x2]. rewrite Em1.
        replace (progbuf + (i + Z.of_nat k)) with (progbuf + i + Z.of_nat (length (take k stream))) by lia.
        by rewrite put_bytes_app, take_drop.
      * eapply same_but_trans; [exact Hsb2|]. exact (same_but_mem _ _ _ (io_mem (sp_io s)) _ _ Hsb eq_refl).
  - assert (stream = []) as -> by (apply nil_length_inv; lia). exists x2. split_and!; [done| |by cbn; rewrite take_nil; simpl; rewrite Em1|done].
    apply reading_mem. by rewrite drop_nil in Hr1.
Qed.
End read.

(** ** Programs *)
Definition elf_magic : list Z := [ELFMAG0; ELFMAG1; ELFMAG2; ELFMAG3].

Lemma elf_is_valid_ok m elf a b c d : bytes_at m elf [a; b; c; d] →
  elf_is_valid elf m = Ret (bool_decide ([a; b; c; d] = elf_magic), m).
Proof.
  intros Hb. unfold elf_is_valid, e_ident.
  assert (∀ i x, [a; b; c; d] !! Z.to_nat i = Some x → 0 <= i → rd (elf + i) m = Ret (x, m)) as Hrd.
  { intros i x Hx Hi. apply rd_ok. rewrite <-(Hb _ _ Hx). f_equal. lia. }
  rewrite (bind_run _ _ _ _ _ (Hrd 0 a eq_refl ltac:(lia))).
  destruct (Z.eqb_spec a ELFMAG0) as [->|Hn]; [|rewrite bool_decide_false; [done|by intros [= ]]]. cbn [negb].
  rewrite (bind_run _ _ _ _ _ (Hrd 1 b eq_refl ltac:(lia))).
  destruct (Z.eqb_spec b ELFMAG1) as [->|Hn]; [|rewrite bool_decide_false; [done|by intros [= ]]]. cbn [negb].
  rewrite (bind_run _ _ _ _ _ (Hrd 2 c eq_refl ltac:(lia))).
  destruct (Z.eqb_spec c ELFMAG2) as [->|Hn]; [|rewrite bool_decide_false; [done|by intros [= ]]]. cbn [negb].
  rewrite (bind_run _ _ _ _ _ (Hrd 3 d eq_refl ltac:(lia))).
  destruct (Z.eqb_spec d ELFMAG3) as [->|Hn]; [by rewrite bool_decide_true|rewrite bool_decide_false; [done|by intros [= ]]].
Qed.

Section programs.
Context `{KernelEnv} {R : Type} `{RegionLaws R} {Hp : Type} `{AllocatorLaws Hp}.
Context (peer : Z → list kcall → c4_ringbuf → c4_ringbuf) (W : stream_server).
Context (page : list Z) (env : io_env) (fuel : nat) (blank : nat → nat → Z) (BOOTINFO_ADDR progbuf : Z).

(** The file [stream] has been opened as [fp] and fits the buffer. *)
Record opened (fp : Z) (c : c4rt_conn) (stream : list Z) (turns freads : nat) (x : stdio R Hp) : Prop := {
  op_serves : serves peer W c;
  op_reading : ∃ st, reading W fp c st stream x;
  op_close : closable fp c x;
  op_bytes : Forall (λ b, 0 <= b < 256) stream;
  op_buffer : CString.mapped (io_mem x) progbuf (Z.of_nat (length stream));
  op_size : Z.of_nat (length stream) <= 4096 * (Z.of_nat turns - 1) ∧ Z.of_nat (length stream) < 2 ^ 31 ∧ (4096 < freads)%nat
}.

(** The process after the file was read and closed: the file is in the buffer,
    and all that opening it took has been given back. *)
Record read_in (fp : Z) (c : c4rt_conn) (stream : list Z) (x x' : stdio R Hp) : Prop := {
  ri_mem : io_mem x' = put_bytes progbuf stream (io_mem x);
  ri_files : io_files x' = delete fp (io_files x);
  ri_rings : io_rings x' = delete (ringbuf c) (io_rings x);
  ri_heap : al_inv (io_heap x') ∧ al_live (io_heap x') = al_live (io_heap x) ∖ {[fp]};
  ri_region : ∃ r r', p_region (io_proc x) = Some r ∧ p_region (io_proc x') = Some r' ∧ al_live r' = al_live r ∖ {[vaddr (bufobj c)]};
  ri_calls : ∃ h, p_hist (io_proc x') = close_calls c ++ h
}.

Lemma read_and_close fp c stream turns freads x (s : spawner R Hp) : opened fp c stream turns freads x → sp_io s = x → ∃ s1 x',
  read_program peer progbuf turns freads fp 0 s = Ret (tt, s1) ∧
  io (fclose page fp) s1 = Ret (0, mk_spawner x' (sp_objs s) (sp_caps s) (sp_win s) (sp_children s)) ∧
  read_in fp c stream x x'.
Proof.
  intros [Hsv [st Hr] Hcl Hby Hbuf (Hsz & Hsz2 & Hfr)] <-.
  destruct (read_program_ok peer W progbuf fp c st freads Hsv Hfr turns stream 0 s Hr Hby) as (x1 & E1 & Hr1 & Em1 & Hsb);
    [by rewrite Z.add_0_r|lia..|]. rewrite Z.add_0_r in Em1.
  destruct Hsb as [F1 R1 E2 P1 M1]. cbn [io_files io_rings io_heap io_proc io_mem set_iomem] in *.
  destruct (rg_file _ _ _ _ _ _ Hr1) as (f & Ef & Hfc & _).
  assert (closable fp c x1) as Hcl1.
  { destruct Hcl as [? ? (r & Hrg & ?) ?]. split; [done|done| |by rewrite E2]. exists r. by rewrite P1. }
  destruct (fclose_ok page fp f c x1 Ef Hfc Hcl1) as (x' & Ec & [D1 D2 D3 D4 D5 (r & r' & Er & Er' & _ & Hlr)]).
  eexists _, x'. split; [exact E1|]. split.
  - exact (io_run _ (mk_spawner x1 _ _ _ _) _ _ Ec).
  - split.
    + by rewrite D3.
    + rewrite D1. apply map_eq. intros q. destruct (decide (q = fp)) as [->|Hq]; [by rewrite !lookup_delete_eq|].
      rewrite !lookup_delete_ne by done. by apply F1.
    + rewrite D2. apply map_eq. intros q. destruct (decide (q = ringbuf c)) as [->|Hq]; [by rewrite !lookup_delete_eq|].
      rewrite !lookup_delete_ne by done. by apply R1.
    + by rewrite <-E2.
    + exists r, r'. by rewrite <-P1.
    + by eexists.
Qed.

Lemma spawn_ok turns freads loads name argv envp fp c stream x entry phoff size segs args envs (s : spawner R Hp) :
  fopen peer page env fuel turns name (lit_r env) (sp_io s) = Ret (fp, x) → opened fp c stream turns freads x →
  let m0 := put_bytes progbuf stream (io_mem x) in
  bytes_at m0 progbuf elf_magic → obliging allot_pages → sp_win s = ∅ →
  loadable fuel loads m0 progbuf argv envp entry phoff size segs args envs → ∃ p s' x' child,
  spawn peer page env fuel blank BOOTINFO_ADDR progbuf turns freads loads name argv envp s = Ret (p, s') ∧
  read_in fp c stream x x' ∧ sp_children s' = child :: sp_children s ∧
  loaded m0 entry segs args envs C4_NAMESERVER C4_PAGER (p_hist (io_proc x')) p (loader_of child s') ∧
  io_files (sp_io s') = io_files x' ∧ io_heap (sp_io s') = io_heap x'.
Proof.
  intros Eo Hop m0 Hmg Hob Hwin Hld. unfold spawn. rewrite (bind_run _ _ _ _ _ (io_run _ _ _ _ Eo)).
  rewrite (proj2 (Z.eqb_neq _ _) (cl_null _ _ _ (op_close _ _ _ _ _ _ Hop))).
  set (s1 := mk_spawner x _ _ _ _).
  destruct (read_and_close fp c stream turns freads x s1 Hop eq_refl) as (s3 & x' & E3 & E & Hri).
  rewrite (bind_run _ _ _ _ _ E3), (bind_run _ _ _ _ _ E). set (s2 := mk_spawner x' _ _ _ _).
  assert (io_mem x' = m0) as Em by apply Hri.
  assert (io (R := R) (dm (elf_is_valid progbuf)) s2 = Ret (true, s2)) as Ev.
  { unfold io, dm, zoom. cbn [sp_io s2]. rewrite Em, (elf_is_valid_ok _ _ _ _ _ _ Hmg). cbn. by rewrite <-Em; destruct x'. }
  rewrite (bind_run _ _ _ _ _ Ev). cbn [negb].
  destruct (elf_load_full_ok blank BOOTINFO_ADDR allot_pages Hob fuel loads (p_hist (io_proc x')) m0 (sp_objs s) (sp_caps s)
    progbuf C4_NAMESERVER C4_PAGER argv envp entry phoff size segs args envs Hld) as (p & l & El & Hl).
  exists p, (after_load l s2), x', (l_child l). split_and!; try done.
  - unfold load, loader_of, elf_load. cbn [sp_io sp_objs sp_caps sp_win s2 s1]. rewrite Em, Hwin. by rewrite El.
  - by destruct l.
Qed.

(** C19: [spawn] of a program file that can be opened: whatever pieces the file
    system hands it out in, the file is read into the buffer, everything opening
    it took is given back, and the loader then makes of it a process: the
    address space its thread is given holds every segment of the file and the
    start-up stack with the arguments and the environment, and the thread is
    started once, last. *)
Theorem spawn_correct turns freads loads name argv envp fp c stream x entry phoff size segs args envs (s : spawner R Hp) :
  fopen peer page env fuel turns name (lit_r env) (sp_io s) = Ret (fp, x) → opened fp c stream turns freads x →
  let m0 := put_bytes progbuf stream (io_mem x) in
  bytes_at m0 progbuf elf_magic → obliging allot_pages → sp_win s = ∅ →
  loadable fuel loads m0 progbuf argv envp entry phoff size segs args envs → ∃ p s' x' child,
  spawn peer page env fuel blank BOOTINFO_ADDR progbuf turns freads loads name argv envp s = Ret (p, s') ∧
  read_in fp c stream x x' ∧ sp_children s' = child :: sp_children s ∧
  loaded m0 entry segs args envs C4_NAMESERVER C4_PAGER (p_hist (io_proc x')) p (loader_of child s') ∧
  io_files (sp_io s') = io_files x' ∧ io_heap (sp_io s') = io_heap x'.
Proof. apply spawn_ok. Qed.

Lemma put_bytes_same bs : ∀ p m, bytes_at m p bs → put_bytes p bs m = m.
Proof.
  intros p m Hb. apply map_eq. intros a. rewrite put_bytes_lookup. destruct (decide _) as [Ha|]; [|done].
  destruct (lookup_lt_is_Some_2 bs (Z.to_nat (a - p))) as [b Eb]; [lia|]. rewrite Eb. specialize (Hb _ _ Eb).
  replace (p + Z.of_nat (Z.to_nat (a - p))) with a in Hb by lia. done.
Qed.

(** The buffer is static and is not cleared.  A file that is only the beginning
    of the program spawned before, be it empty, starts that program again. *)
Theorem stale_program_started turns freads loads name argv envp fp c stream x entry phoff size segs args envs (s : spawner R Hp) :
  fopen peer page env fuel turns name (lit_r env) (sp_io s) = Ret (fp, x) → opened fp c stream turns freads x →
  bytes_at (io_mem x) progbuf stream → bytes_at (io_mem x) progbuf elf_magic → obliging allot_pages → sp_win s = ∅ →
  loadable fuel loads (io_mem x) progbuf argv envp entry phoff size segs args envs → ∃ p s' h child,
  spawn peer page env fuel blank BOOTINFO_ADDR progbuf turns freads loads name argv envp s = Ret (p, s') ∧
  loaded (io_mem x) entry segs args envs C4_NAMESERVER C4_PAGER h p (loader_of child s').
Proof.
  intros Eo Hop Hst Hmg Hob Hwin Hld. pose proof (put_bytes_same _ _ _ Hst) as Em.
  destruct (spawn_ok turns freads loads name argv envp fp c stream x entry phoff size segs args envs s Eo Hop)
    as (p & s' & x' & child & E & _ & _ & Hl & _); rewrite ?Em; try done.
  exists p, s', (p_hist (io_proc x')), child. split; [exact E|]. by rewrite Em in Hl.
Qed.

(** C20: a program that cannot be opened, or that leaves anything but the ELF
    magic at the start of the program buffer, starts nothing: the answer is the
    zero record and no child is added; the file that was read is closed again
    and the last calls made are those of closing it.  A file of four bytes or
    more decides this alone; of a shorter one the rest of the four bytes is what
    the buffer held before. *)
Theorem spawn_rejects turns freads loads name argv envp fp x (s : spawner R Hp) :
  fopen peer page env fuel turns name (lit_r env) (sp_io s) = Ret (fp, x) →
  (fp = 0 ∨ ∃ c stream a b d e, opened fp c stream turns freads x ∧
     bytes_at (put_bytes progbuf stream (io_mem x)) progbuf [a; b; d; e] ∧ [a; b; d; e] ≠ elf_magic) → ∃ x',
  spawn peer page env fuel blank BOOTINFO_ADDR progbuf turns freads loads name argv envp s =
    Ret (no_process, mk_spawner x' (sp_objs s) (sp_caps s) (sp_win s) (sp_children s)) ∧
  ((fp = 0 ∧ x' = x) ∨ ∃ c stream, read_in fp c stream x x').
Proof.
  intros Eo Hc. unfold spawn. rewrite (bind_run _ _ _ _ _ (io_run _ _ _ _ Eo)). set (s1 := mk_spawner x _ _ _ _).
  destruct Hc as [->|(c & stream & a & b & d & e & Hop & Hb & Hmg)].
  { rewrite Z.eqb_refl. exists x. split; [done|by left]. }
  rewrite (proj2 (Z.eqb_neq _ _) (cl_null _ _ _ (op_close _ _ _ _ _ _ Hop))).
  destruct (read_and_close fp c _ turns freads x s1 Hop eq_refl) as (s3 & x' & E3 & E & Hri).
  rewrite (bind_run _ _ _ _ _ E3), (bind_run _ _ _ _ _ E). set (s2 := mk_spawner x' _ _ _ _).
  rewrite <-(ri_mem _ _ _ _ _ Hri) in Hb.
  assert (io (R := R) (dm (elf_is_valid progbuf)) s2 = Ret (false, s2)) as Ev.
  { unfold io, dm, zoom. cbn [sp_io s2]. rewrite (elf_is_valid_ok _ _ _ _ _ _ Hb), bool_decide_false by done. by destruct x'. }
  rewrite (bind_run _ _ _ _ _ Ev). cbn [negb]. exists x'. split; [done|]. right. by exists c, stream.
Qed.

(** The first bytes of a file that has them are the buffer's. *)
Lemma file_start a b d e stream m p : bytes_at (put_bytes p (a :: b :: d :: e :: stream) m) p [a; b; d; e].
Proof.
  intros j y Hj. pose proof (lookup_lt_Some _ _ _ Hj) as Hl. simpl in Hl.
  rewrite put_bytes_lookup, decide_True by (simpl; lia). replace (Z.to_nat (p + Z.of_nat j - p)) with j by lia.
  by rewrite <-Hj, (lookup_app_l [a; b; d; e] stream) by (simpl; lia).
Qed.
End programs.

(** ** A program of one segment

    The sample file of the loader, in one piece, behind the path "/". *)
Section sample.
Definition start_mem : mem :=
  put_bytes 0x1000 (replicate 88 0 ++ le32 4200 ++ le32 0 ++ le32 4202 ++ le32 0 ++ [97; 0; 120; 61; 49; 0] ++ [47; 0; 114; 0]) ∅.
Definition start_env : io_env := mk_ioenv 0 0 0 4206 4208 0 None 0.
Definition start_kernel : KernelEnv := steady 7 (mk_msg 0 [0; 0; 0; 0; 0; 9]).
Definition start_page : list Z := replicate 4084 0.
Definition start_io : stdio Bump.bump Bump.bump :=
  mk_stdio (Mem.mk_process [] (Some (Bump.mk_bump 0x4000 ∅))) ∅ (Bump.mk_bump 0x2000 ∅) ∅ start_mem (mk_fsnode 2 1 0) (mk_fsnode 2 1 0) blank_fsconn 3 true.
Definition start_spawner : spawner Bump.bump Bump.bump := mk_spawner start_io [] ∅ ∅ [].

(** The server hands [file] out once more for every request it still gets in
    the first 19 calls; opening the file takes that many. *)
Definition reads_left (h : list kcall) : nat := if decide (length h <= 19)%nat then S ((19 - length h) / 3) else 0.
Definition start_rest (file : list Z) (h : list kcall) : list Z := concat (replicate (reads_left h) file).
Definition start_server (file : list Z) : stream_server := mk_stream (start_rest file) 4084 (λ _, True).
Definition full_ring (file : list Z) : c4_ringbuf :=
  mk_ringbuf 0 (Z.of_nat (length file)) 4084 (file ++ replicate (4084 - length file) 0).
Definition is_read (h : list kcall) : bool :=
  match h with _ :: _ :: c :: _ => mtype (cbuf c) =? @FS_MSG_READ_BLOCK start_kernel | _ => false end.
Definition start_peer (file : list Z) (a : Z) (h : list kcall) (b : c4_ringbuf) : c4_ringbuf :=
  if is_read h && bool_decide (length h <= 22)%nat then full_ring file else b.
Definition start_conn : c4rt_conn := mk_conn 3 7 7 0 0 (mk_memobj 0x4000 9 3 true) 0x4000.

(** The state after [fopen]: one file on one connection. *)
Definition open_calls : list kcall :=
  match @fopen start_kernel _ _ _ _ (start_peer []) start_page start_env 9 4 4206 4208 start_io with Ret (_, x) => p_hist (io_proc x) | _ => [] end.
Definition open_file : file :=
  mk_file (mk_fsconn start_conn (mk_fsnode 2 1 0) 0) (mk_fsnode 2 1 0) (mk_dirent 0 0 0 []) FILE_STATUS_PRETTY_GOOD 0 FILE_MODE_READ.
Definition open_ring : c4_ringbuf := mk_ringbuf 0 0 4084 start_page.
Definition open_io : stdio Bump.bump Bump.bump :=
  mk_stdio (Mem.mk_process open_calls (Some (Bump.mk_bump 0x5000 {[0x4000]}))) {[0x4000 := open_ring]}
    (Bump.mk_bump 8540 {[0x2000]}) {[0x2000 := open_file]} start_mem (mk_fsnode 2 1 0) (mk_fsnode 2 1 0) blank_fsconn 3 true.

Lemma start_fopen file : @fopen start_kernel _ _ _ _ (start_peer file) start_page start_env 9 4 4206 4208 start_io = Ret (0x2000, open_io).
Proof. vm_compute. reflexivity. Qed.

Lemma start_serves file : ring_wf (full_ring file) → contents (full_ring file) = file → file ≠ [] →
  @serves start_kernel (start_peer file) (start_server file) start_conn.
Proof.
  intros Hfw Hfc Hne. split.
  - intros h _. vm_compute. discriminate.
  - intros h b _ Hrb Hc. split; [done|]. cbn [rest start_server].
    assert (is_read (@read_calls start_kernel start_conn ++ h) = true) as Hrd by (vm_compute; reflexivity).
    assert (length (@read_calls start_kernel start_conn ++ h) = (3 + length h)%nat) as El by done.
    unfold start_peer. rewrite Hrd. unfold start_rest, reads_left. rewrite El. cbn [andb].
    destruct (decide (length h <= 19)%nat) as [Hh|Hh].
    + rewrite bool_decide_true, Hfc by lia. split; [done|]. split; [|done].
      destruct (decide (3 + length h <= 19)%nat) as [Hh3|Hh3].
      * replace (19 - length h)%nat with (1 * 3 + (19 - (3 + length h)))%nat by lia. rewrite Nat.div_add_l by lia. done.
      * rewrite Nat.div_small by lia. done.
    + rewrite bool_decide_false by lia. rewrite Hc, decide_False by lia. done.
Qed.

(** The file is open, on a mapped page and a block of the heap. *)
Lemma start_opened file : ring_wf (full_ring file) → contents (full_ring file) = file → file ≠ [] → (length file <= 88)%nat →
  Forall (λ b, 0 <= b < 256) file →
  @opened start_kernel _ _ _ _ (start_peer file) (start_server file) 0x1000 0x2000 start_conn file 4 5000 open_io.
Proof.
  intros Hfw Hfc Hne Hl Hby. split.
  - by apply start_serves.
  - exists FILE_STATUS_PRETTY_GOOD. split; [by exists open_file|done|]. exists open_ring. split; [done|].
    split; [split; [split; vm_compute; done|done]|]. cbn [rest start_server]. unfold start_rest, reads_left. cbn [open_io io_proc p_hist].
    assert (length open_calls = 19%nat) as -> by (vm_compute; reflexivity).
    assert (contents open_ring = []) as -> by (vm_compute; reflexivity). rewrite decide_True by done.
    change (S ((19 - 19) / 3)) with 1%nat. cbn [replicate concat app]. by rewrite app_nil_r.
  - split; [done|done|exists (Bump.mk_bump 0x5000 {[0x4000]})|]; cbn; unfold Bump.inv; cbn; split_and!; try done; set_solver by lia.
  - done.
  - intros a Ha. cbn [io_mem open_io]. unfold start_mem. apply put_bytes_mapped. simpl length. lia.
  - lia.
Qed.
End sample.

Lemma start_obliging : let _ := start_kernel in obliging allot_pages.
Proof.
  split; intros; [vm_compute; discriminate..|]. eexists 9, [_; _; _; _; _]. split; [reflexivity|]. split; [done|]. repeat constructor; discriminate.
Qed.

Lemma start_image : put_bytes 0x1000 sample_file start_mem = ElfSpec.sample_mem.
Proof. vm_compute. reflexivity. Qed.

Lemma spawn_correct_witness : let _ := start_kernel in ∃ p s' child,
  spawn (start_peer sample_file) start_page start_env 9 (λ _ _, 255) 0x1000000 0x1000 4 5000 9 4206 4184 4192 start_spawner = Ret (p, s') ∧
  sp_children s' = [child] ∧ bytes_at (child_mem (u32 (addrspace p)) (loader_of child s')) 0x08048054 [144; 144; 205; 96].
Proof.
  intros env.
  destruct (spawn_correct (start_peer sample_file) (start_server sample_file) start_page start_env 9 (λ _ _, 255) 0x1000000 0x1000 4 5000 9
    4206 4184 4192 0x2000 start_conn sample_file open_io 0x08048054 52 32 [sample_segment] [[97]] [[120; 61; 49]] start_spawner)
    as (p & s' & x' & child & E & _ & Hc & Hl & _).
  - apply start_fopen.
  - apply start_opened; [split; vm_compute; done|vm_compute; reflexivity|done|simpl; lia|]. apply (bool_decide_eq_true_1 _). vm_compute. reflexivity.
  - change (io_mem open_io) with start_mem. rewrite start_image. apply bytes_atb_ok. vm_compute. reflexivity.
  - exact start_obliging.
  - done.
  - change (io_mem open_io) with start_mem. rewrite start_image. exact sample_loadable.
  - exists p, s', child. split; [exact E|]. split; [exact Hc|]. exact (Forall_inv (lo_segments _ _ _ _ _ _ _ _ _ _ Hl)).
Defined.

(** A text file is not a program. *)
Definition text_file : list Z := [104; 101; 108; 108; 111].

Lemma spawn_rejects_witness : let _ := start_kernel in ∃ x',
  spawn (start_peer text_file) start_page start_env 9 (λ _ _, 255) 0x1000000 0x1000 4 5000 9 4206 4184 4192 start_spawner =
  Ret (no_process, mk_spawner x' [] ∅ ∅ []).
Proof.
  intros env.
  destruct (spawn_rejects (start_peer text_file) (start_server text_file) start_page start_env 9 (λ _ _, 255) 0x1000000 0x1000 4 5000 9
    4206 4184 4192 0x2000 open_io start_spawner) as (x' & E & _).
  - apply start_fopen.
  - right. exists start_conn, text_file, 104, 101, 108, 108. split; [|split; [apply file_start|vm_compute; discriminate]].
    apply start_opened; [split; vm_compute; done|vm_compute; reflexivity|done|simpl; lia|]. apply (bool_decide_eq_true_1 _). vm_compute. reflexivity.
  - exists x'. exact E.
Defined.
