(* ===== verification/Initsys.v ===== *)
(** The first program after the boot server: [programs/initsys/src/main.c]
    starts every program of the directory [/sbin]. *)

From S2P Require Import Prelude Interfaces Kernel Mem RingBuffer Connman CString Words Filesystem Nameserver Elf Stdio Spawn.
#[local] Open Scope Z_scope.

(** The process and the heap [progheap] its list lives in; what the heap's
    blocks hold is part of the process's memory. *)
Record initsys (R H P : Type) := mk_initsys { in_proc : spawner R H; progheap : P }.
Arguments mk_initsys {R H P}.
Arguments in_proc {R H P}.
Arguments progheap {R H P}.

(** [prognode_t]: 257 characters, padded, the link and the node. *)
Definition sizeof_prognode : Z := 276.
Definition prog_next (p : Z) : Z := p + 260.
Definition prog_node (p : Z) : Z := p + 264.

(** The literals and local variables, by address. *)
Record init_env := mk_initenv {
  lit_dot : Z; lit_dotdot : Z; lit_sbin : Z; lit_rootenv : Z; dirbuf : Z; args_at : Z; env_at : Z
}.

Definition sbin : list Z := [115; 98; 105; 110].
Definition dev_ext2fs : list Z := [47; 100; 101; 118; 47; 101; 120; 116; 50; 102; 115].

Section initsys.
Context `{KernelEnv} {R : Type} `{Allocator R} {Hp : Type} `{Allocator Hp} {Pp : Type} `{Allocator Pp}.
Context (peer : Z → list kcall → c4_ringbuf → c4_ringbuf) (page : list Z) (env : io_env) (fuel : nat).
Context (blank : nat → nat → Z) (BOOTINFO_ADDR progbuf : Z) (ienv : init_env) (junk : fs_node).
Abbreviation I := (M (initsys R Hp Pp)).

Definition on_files {A} (m : M (stdio R Hp) A) : I A := zoom in_proc (λ x s, mk_initsys x (progheap s)) (io m).
Definition on_progheap {A} (m : M Pp A) : I A := zoom progheap (λ h s, mk_initsys (in_proc s) h) m.

Definition strequal (a b : Z) : M mem bool := d ← strcmp fuel a b; mret (d =? 0).

(** [node] and [next] of a new list element. *)
Definition set_prognode (asdf : Z) (foo : fs_node) : M mem unit :=
  wr32 (prog_node asdf) (n_inode foo);; wr32 (prog_node asdf + 4) (n_type foo);; wr32 (prog_node asdf + 8) (n_size foo);;
  wr32 (prog_next asdf) 0.

Definition set_progname (asdf : Z) : M mem unit :=
  strcpy fuel asdf (lit_sbin ienv);;
  strlcpy fuel (asdf + 6) (dirbuf ienv) (FS_MAX_NAME_LEN - 7);;
  mret tt.

(** The element for one directory entry, linked behind [head]: the new [ret]
    and [head].  [foo] is a local variable the stub leaves as it is on error. *)
Definition add_entry (conn : fs_connection) (ent : list Z) (ret head : Z) : I (Z * Z) :=
  r ← on_files (on_conn peer conn (λ peer, fs_dirent_to_node peer conn ent junk));
  asdf ← on_progheap (al_alloc sizeof_prognode);
  if asdf =? 0 then ub
  else
    on_files (dm (set_prognode asdf r.2));;
    on_files (dm (set_progname asdf));;
    if truthy head then
      on_files (dm (wr32 (prog_next head) asdf));;
      head ← on_files (dm (rd32 (prog_next head)));
      mret (ret, head)
    else mret (asdf, asdf).

Fixpoint entries_loop (turns : nat) (conn : fs_connection) (ret head : Z) : I Z :=
  match turns with
  | O => nofuel
  | S t =>
      r ← on_files (on_conn peer conn (λ peer, fs_next_dirent peer conn));
      if r.1 <=? 0 then mret ret
      else
        on_files (dm (store_bytes (dirbuf ienv) r.2));;
        self ← on_files (dm (strequal (dirbuf ienv) (lit_dot ienv)));
        skip ← (if self : bool then mret true else on_files (dm (strequal (dirbuf ienv) (lit_dotdot ienv))));
        if skip : bool then entries_loop t conn ret head
        else rh ← add_entry conn r.2 ret head; entries_loop t conn rh.1 rh.2
  end.

(** [0] is [NULL]. *)
Definition enumerate_initprogs (turns : nat) (fs : Z) : I Z :=
  conn ← on_files (connect page fs blank_fsconn);
  on_files (on_conn peer conn (λ peer, fs_get_root_dir peer conn));;
  root ← on_files (on_conn peer conn (λ peer, fs_get_root_dir peer conn));
  r ← on_files (on_conn peer conn (λ peer, fs_set_node peer conn root.2));
  let conn := r.2 in
  f ← on_files (on_conn peer conn (λ peer, fs_find_name peer conn blank_node sbin 4));
  ret ← (if 0 <? f.1 then
           r ← on_files (on_conn peer conn (λ peer, fs_set_node peer conn f.2));
           entries_loop turns r.2 0 0
         else mret 0);
  on_files (disconnect page conn);;
  mret ret.

Definition load_program (turns freads loads : nat) (prog : Z) : I Z :=
  on_files (dm (wr32 (args_at ienv) prog;; wr32 (args_at ienv + 4) 0));;
  on_files (dm (wr32 (env_at ienv) (lit_rootenv ienv);; wr32 (env_at ienv + 4) 0));;
  zoom in_proc (λ x s, mk_initsys x (progheap s))
    (spawn peer page env fuel blank BOOTINFO_ADDR progbuf turns freads loads prog (args_at ienv) (env_at ienv));;
  mret 0.

Fixpoint load_all (elems turns freads loads : nat) (temp : Z) : I unit :=
  match elems with
  | O => nofuel
  | S n =>
      if truthy temp then
        load_program turns freads loads temp;;
        next ← on_files (dm (rd32 (prog_next temp)));
        load_all n turns freads loads next
      else mret tt
  end.

(** [while (!fs) fs = nameserver_lookup(...)] *)
Fixpoint find_fs (turns : nat) (nameserver fs : Z) : I Z :=
  match turns with
  | O => nofuel
  | S t => if truthy fs then mret fs else f ← on_files (dk (nameserver_lookup nameserver dev_ext2fs)); find_fs t nameserver f
  end.

(** Up to the endless loop; [init] is the heap [c4a_heap_init] makes. *)
Definition init_main (init : Pp) (elems turns freads loads : nat) : I unit :=
  on_progheap (modify (λ _, init));;
  on_files (dk c4_get_id);;
  fs ← find_fs turns (env_nameserv env) 0;
  nodes ← enumerate_initprogs turns fs;
  load_all elems turns freads loads nodes.

(** One turn of the endless loop. *)
Definition idle : I unit := on_files (dk (c4_msg_recieve 1));; mret tt.
End initsys.
