(* ===== verification/Terminal.v ===== *)
(** The terminal window ([programs/stubby-console/src/main.c]): a window that
    serves as frame buffer and keyboard of a console and a shell it starts.

    The window's memory is the list of its pixels.  The program runs two
    threads on one static record; each turn of either loop is atomic here. *)

From S2P Require Import Prelude Interfaces Kernel Mem RingBuffer Connman CString Words Filesystem Nameserver Devices Wm Elf Stdio Spawn.
#[local] Open Scope Z_scope.

(** [constate_t] with the process it belongs to. *)
Record terminal (R H : Type) := mk_terminal {
  tm_proc : spawner R H;
  tm_window : stubbywm_window;
  tm_pixels : list Z;
  tm_nameserver : c4_process;
  tm_console : c4_process;
  tm_program : c4_process;
  tm_keyboard : Z
}.
Arguments mk_terminal {R H}.
Arguments tm_proc {R H}.
Arguments tm_window {R H}.
Arguments tm_pixels {R H}.
Arguments tm_nameserver {R H}.
Arguments tm_console {R H}.
Arguments tm_program {R H}.
Arguments tm_keyboard {R H}.

(** The path literals and the local argument arrays, by address. *)
Record term_env := mk_termenv {
  lit_nameserver : Z; lit_display : Z; lit_nested : Z; lit_forth : Z; nullargs : Z; displayargs : Z
}.

Definition dev_framebuffer : list Z := [47; 100; 101; 118; 47; 102; 114; 97; 109; 101; 98; 117; 102; 102; 101; 114].
Definition dev_keyboard : list Z := [47; 100; 101; 118; 47; 107; 101; 121; 98; 111; 97; 114; 100].
Definition dev_console_alert : list Z := [47; 100; 101; 118; 47; 99; 111; 110; 115; 111; 108; 101; 45; 97; 108; 101; 114; 116].
Definition stubbywm : list Z := [115; 116; 117; 98; 98; 121; 119; 109].

Definition STUBBYWM_KEYBOARD_EVENT : Z := 0xdabad00 + 7.
Definition BACKGROUND_PIXEL : Z := 0xa0202020.

Section terminal.
Context `{KernelEnv} {R : Type} `{Allocator R} {Hp : Type} `{Allocator Hp}.
Context (peer : Z → list kcall → c4_ringbuf → c4_ringbuf) (page : list Z) (env : io_env) (fuel : nat).
Context (blank : nat → nat → Z) (BOOTINFO_ADDR progbuf CAP_TYPE_IPC_ASYNC_ENDPOINT : Z) (tenv : term_env).
Abbreviation V := (M (terminal R Hp)).

Definition set_tm_proc (p : spawner R Hp) (s : terminal R Hp) : terminal R Hp :=
  mk_terminal p (tm_window s) (tm_pixels s) (tm_nameserver s) (tm_console s) (tm_program s) (tm_keyboard s).
Definition set_tm_window (w : stubbywm_window) (s : terminal R Hp) : terminal R Hp :=
  mk_terminal (tm_proc s) w (tm_pixels s) (tm_nameserver s) (tm_console s) (tm_program s) (tm_keyboard s).
Definition set_tm_pixels (px : list Z) (s : terminal R Hp) : terminal R Hp :=
  mk_terminal (tm_proc s) (tm_window s) px (tm_nameserver s) (tm_console s) (tm_program s) (tm_keyboard s).
Definition set_tm_children (n c p : c4_process) (s : terminal R Hp) : terminal R Hp :=
  mk_terminal (tm_proc s) (tm_window s) (tm_pixels s) n c p (tm_keyboard s).
Definition set_tm_keyboard (k : Z) (s : terminal R Hp) : terminal R Hp :=
  mk_terminal (tm_proc s) (tm_window s) (tm_pixels s) (tm_nameserver s) (tm_console s) (tm_program s) k.

Definition on_proc {A} (m : M (spawner R Hp) A) : V A := zoom tm_proc set_tm_proc m.
Definition tk {A} (m : K A) : V A := on_proc (io (dk m)).
Definition tmem {A} (m : M mem A) : V A := on_proc (io (dm m)).
Definition run_program (turns freads loads : nat) (name argv envp : Z) : V c4_process :=
  on_proc (spawn peer page env fuel blank BOOTINFO_ADDR progbuf turns freads loads name argv envp).

Definition start_nameserv (turns freads loads : nat) (envp : Z) : V unit :=
  tmem (wr32 (nullargs tenv) 0);;
  p ← run_program turns freads loads (lit_nameserver tenv) (nullargs tenv) envp;
  modify (λ s, set_tm_children p (tm_console s) (tm_program s) s);;
  tk (c4_cspace_move C4_CURRENT_CSPACE (u32 (endpoint p)) C4_CURRENT_CSPACE C4_NAMESERVER);;
  mret tt.

Definition start_servers (turns freads loads : nat) (envp : Z) : V unit :=
  tmem (wr32 (nullargs tenv) 0);;
  tmem (wr32 (displayargs tenv) (lit_display tenv);; wr32 (displayargs tenv + 4) (lit_nested tenv);; wr32 (displayargs tenv + 8) 0);;
  c ← run_program turns freads loads (lit_display tenv) (displayargs tenv) envp;
  modify (λ s, set_tm_children (tm_nameserver s) c (tm_program s) s);;
  tk (console_put_char (u32 (endpoint c)) 8);;
  tk (console_put_char (u32 (endpoint c)) 8);;
  p ← run_program turns freads loads (lit_forth tenv) (nullargs tenv) envp;
  modify (λ s, set_tm_children (tm_nameserver s) (tm_console s) p s).

(** One pixel of [draw_background]. *)
Definition put_pixel (y x : Z) : V unit :=
  s ← get;
  px ← getsome (λ s, zset (tm_pixels s) (u32 (u32 (y * sw_width (tm_window s)) + x)) BACKGROUND_PIXEL);
  modify (set_tm_pixels px).

Definition draw_background : V unit :=
  s ← get;
  for_loop (Z.to_nat (sw_height (tm_window s))) 0 (λ y,
    for_loop (Z.to_nat (sw_width (tm_window s))) 0 (λ x, put_pixel y x)).

(** ** The update thread *)
Definition handle_keyboard_event (msg : message) : V unit :=
  s ← get;
  if tm_keyboard s =? 0 then mret tt
  else tk (c4_msg_send_async (mk_msg KEYBOARD_MSG_EVENT (mdata msg)) (tm_keyboard s));; mret tt.

(** One turn of [update_loop]. *)
Definition update_turn : V unit :=
  s ← get;
  r ← tk (c4_msg_recieve_async (sw_from_port (tm_window s)) MESSAGE_ASYNC_BLOCK);
  (if mtype r.2 =? STUBBYWM_KEYBOARD_EVENT then handle_keyboard_event r.2 else mret tt);;
  s ← get;
  tk (stubbywm_update (tm_window s)).

(** ** The interface thread *)
Definition handle_framebuf_request (port : Z) : V unit :=
  r ← tk (c4_msg_recieve port);
  s ← get;
  if mtype r.2 =? FRAMEBUFFER_MSG_INFO then
    tk (c4_msg_send (mk_msg FRAMEBUFFER_MSG_INFO [sw_width (tm_window s); sw_height (tm_window s); 32]) port);; mret tt
  else if mtype r.2 =? FRAMEBUFFER_MSG_GET_BUFFER then
    tk (c4_cspace_grant (page_obj (sw_buffer (tm_window s))) port (caps [CAP_ACCESS; CAP_MODIFY; CAP_MULTI_USE; CAP_SHARE]));; mret tt
  else mret tt.

(** One turn of [interface_loop]. *)
Definition interface_turn : V unit :=
  r ← tk (c4_msg_recieve C4_SERV_PORT);
  if negb (mtype r.2 =? MESSAGE_TYPE_GRANT_OBJECT) then mret tt
  else
    let temp := mget r.2 5 in
    if mget r.2 0 =? CAP_TYPE_IPC_ASYNC_ENDPOINT then modify (set_tm_keyboard temp)
    else
      handle_framebuf_request temp;;
      tk (c4_cspace_remove C4_CURRENT_CSPACE temp);;
      mret tt.

(** ** [main] *)

(** [for (i = 0; serv <= 0 && i < 100; i++)] *)
Fixpoint find_wm (tries : nat) (serv : Z) : V Z :=
  match tries with
  | O => mret serv
  | S n => if serv <=? 0 then r ← tk (nameserver_lookup C4_NAMESERVER stubbywm); find_wm n (i32 r) else mret serv
  end.

(** Up to the endless [update_loop], from a process that has just started:
    [pixels] is the memory of the new window, [entry] and [stack] the worker's. *)
Definition term_main (turns freads loads : nat) (pixels : list Z) (entry stack envp : Z) : V unit :=
  tk c4_get_id;;
  modify (λ s, mk_terminal (tm_proc s) (mk_swin 0 0 (mk_memobj 0 0 0 false) 0 0 0 0 0) [] no_process no_process no_process 0);;
  r ← tk (nameserver_lookup C4_NAMESERVER stubbywm);
  serv ← find_wm 100 (i32 r);
  w ← on_proc (io (zoom io_proc (λ p s, set_rings p (io_rings s) s) (stubbywm_new_window (u32 serv) 480 320 (mk_memobj 0 0 0 false))));
  modify (λ s, set_tm_pixels pixels (set_tm_window w s));;
  draw_background;;
  tk (stubbywm_update w);;
  start_nameserv turns freads loads envp;;
  tk (nameserver_bind C4_NAMESERVER dev_framebuffer C4_SERV_PORT);;
  tk (nameserver_bind C4_NAMESERVER dev_keyboard C4_SERV_PORT);;
  tk (nameserver_bind C4_NAMESERVER dev_console_alert (sw_from_port w));;
  tid ← tk (c4_create_thread entry stack 0);
  tk (c4_set_capspace (u32 tid) C4_CURRENT_CSPACE);;
  tk (c4_set_addrspace (u32 tid) C4_CURRENT_ADDRSPACE);;
  tk (c4_set_pager (u32 tid) C4_PAGER);;
  tk (c4_continue_thread (u32 tid));;
  start_servers turns freads loads envp.
End terminal.

(** ** What the terminal does *)
Section claims.
Context `{KernelEnv} {R : Type} `{Allocator R} {Hp : Type} `{Allocator Hp} (CAP_TYPE_IPC_ASYNC_ENDPOINT : Z).
Implicit Types s : terminal R Hp.

Definition tm_hist s : list kcall := p_hist (io_proc (sp_io (tm_proc s))).
Definition with_hist (h : list kcall) s : terminal R Hp :=
  let p := tm_proc s in let x := sp_io p in
  set_tm_proc (mk_spawner (set_rings (Mem.mk_process h (p_region (io_proc x))) (io_rings x) x) (sp_objs p) (sp_caps p) (sp_win p) (sp_children p)) s.

Lemma tk_ok {A} (m : K A) x h' s : m (tm_hist s) = Ret (x, h') → tk m s = Ret (x, with_hist h' s).
Proof. unfold tk, on_proc, io, dk, on_kernel, zoom, tm_hist. by intros ->. Qed.

(** The messages a sequence of calls, latest first, sent asynchronously to a
    port, and those it received from one, in the order they were made. *)
Fixpoint sent_to (port : Z) (h : list kcall) : list message :=
  match h with
  | [] => []
  | c :: h' => sent_to port h' ++ if bool_decide (cnum c = SYSCALL_ASYNC_SEND ∧ carg c = [0; u32 port; 0; 0]) then [cbuf c] else []
  end.
Fixpoint received (port : Z) (n : nat) (h : list kcall) : list message :=
  match n, h with
  | S n', c :: h' => received port n' h' ++
      if bool_decide (cnum c = SYSCALL_ASYNC_RECIEVE ∧ carg c = [0; u32 port; u32 MESSAGE_ASYNC_BLOCK; 0]) then [(kernel h).2] else []
  | _, _ => []
  end.

Definition is_key (m : message) : Prop := mtype m = STUBBYWM_KEYBOARD_EVENT.
#[export] Instance is_key_dec m : Decision (is_key m).
Proof. unfold is_key. apply _. Defined.
Definition as_key (m : message) : message := mk_msg KEYBOARD_MSG_EVENT (mdata m).

Lemma sent_to_app port cs h : sent_to port (cs ++ h) = sent_to port h ++ sent_to port cs.
Proof. induction cs as [|c cs IH]; [by rewrite app_nil_r|]. simpl. by rewrite IH, app_assoc. Qed.

Lemma received_app port cs : ∀ n h, received port (length cs + n) (cs ++ h) = received port n h ++ received port (length cs) (cs ++ h).
Proof.
  induction cs as [|c cs IH]; intros n h; [by rewrite app_nil_r|]. cbn [length Nat.add app received].
  by rewrite IH, app_assoc.
Qed.

(** Whether a given call is the one looked for. *)
Ltac decide_calls :=
  repeat match goal with
  | |- context [bool_decide (?x = ?y ∧ ?P)] =>
      first [rewrite (bool_decide_true (x = y ∧ P)) by (by split)|rewrite (bool_decide_false (x = y ∧ P)) by (intros [??]; congruence)]
  end.

(** One turn of the update loop. *)
Lemma update_turn_ok s : let w := tm_window s in let kb := tm_keyboard s in
  kb ≠ 0 → u32 (sw_update_port w) ≠ u32 kb → ∃ cs,
  update_turn s = Ret (tt, with_hist (cs ++ tm_hist s) s) ∧
  sent_to kb cs = map as_key (filter is_key (received (sw_from_port w) (length cs) (cs ++ tm_hist s))) ∧
  sent_to (sw_update_port w) cs = [mk_msg STUBBYWM_UPDATE [sw_id w]].
Proof.
  intros w kb Hk Hne. unfold update_turn. rewrite (bind_run get _ s s s) by done. fold w.
  set (rc := mk_call SYSCALL_ASYNC_RECIEVE [0; u32 (sw_from_port w); u32 MESSAGE_ASYNC_BLOCK; 0] no_msg).
  set (m := (kernel (rc :: tm_hist s)).2).
  set (a := i32 (kernel (rc :: tm_hist s)).1). set (s1 := with_hist (rc :: tm_hist s) s).
  assert (tk (c4_msg_recieve_async (sw_from_port w) MESSAGE_ASYNC_BLOCK) s = Ret ((a, m), s1)) as E1 by by apply tk_ok.
  rewrite (bind_run _ _ _ _ _ E1). cbn [snd].
  set (up := mk_call SYSCALL_ASYNC_SEND [0; u32 (sw_update_port w); 0; 0] (mk_msg STUBBYWM_UPDATE [sw_id w])).
  set (fw := mk_call SYSCALL_ASYNC_SEND [0; u32 kb; 0; 0] (as_key m)).
  assert (∀ h, (s0 ← get; tk (stubbywm_update (tm_window s0))) (with_hist h s) = Ret (tt, with_hist (up :: h) s)) as Hup by done.
  assert ([0; u32 (sw_update_port w); 0; 0] ≠ [0; u32 kb; 0; 0]) as Hdiff by (by intros [= ]).
  destruct (Z.eqb_spec (mtype m) STUBBYWM_KEYBOARD_EVENT) as [Ht|Ht].
  - exists [up; fw; rc]. split_and!.
    + rewrite (bind_run _ _ s1 tt (with_hist (fw :: rc :: tm_hist s) s)); [apply Hup|].
      unfold handle_keyboard_event. rewrite (bind_run get _ s1 s1 s1) by done.
      change (tm_keyboard s1) with kb. by rewrite (proj2 (Z.eqb_neq kb 0) Hk).
    + simpl. decide_calls. simpl. fold m.
      by rewrite filter_cons_True.
    + simpl. by decide_calls.
  - exists [up; rc]. split_and!.
    + rewrite (bind_run (mret tt) _ s1 tt s1) by done. apply Hup.
    + simpl. decide_calls. simpl. fold m.
      by rewrite filter_cons_False.
    + simpl. by decide_calls.
Qed.

(** C33: whatever the window manager sends, and in whatever order, after any
    number of turns of the update loop the keyboard's client has been sent
    exactly the keyboard events received from the window, once each, in order
    and with their data, and the window has been updated once a turn. *)
Theorem terminal_forwards n s : let w := tm_window s in let kb := tm_keyboard s in
  kb ≠ 0 → u32 (sw_update_port w) ≠ u32 kb → ∃ cs,
  for_loop n 0 (λ _, update_turn) s = Ret (tt, with_hist (cs ++ tm_hist s) s) ∧
  sent_to kb cs = map as_key (filter is_key (received (sw_from_port w) (length cs) (cs ++ tm_hist s))) ∧
  sent_to (sw_update_port w) cs = replicate n (mk_msg STUBBYWM_UPDATE [sw_id w]).
Proof.
  intros w kb Hk Hne. generalize 0 as i. revert s w kb Hk Hne. induction n as [|n IH]; intros s w kb Hk Hne i; cbn [for_loop].
  - exists []. split_and!; [|done|done]. unfold with_hist, tm_hist. by destruct s as [[[[]]]].
  - destruct (update_turn_ok s Hk Hne) as (cs & E & Hs & Hu). fold w kb in Hs, Hu. set (s1 := with_hist (cs ++ tm_hist s) s) in *.
    destruct (IH s1 Hk Hne (i + 1)) as (cs' & E' & Hs' & Hu'). change (tm_hist s1) with (cs ++ tm_hist s) in *.
    change (tm_window s1) with w in *. change (tm_keyboard s1) with kb in *.
    exists (cs' ++ cs). rewrite (bind_run _ _ _ _ _ E), E', length_app, <-(app_assoc cs' cs), received_app, !sent_to_app.
    split_and!; [done|by rewrite Hs, Hs', filter_app, map_app|by rewrite Hu, Hu'].
Qed.

(** A request on the terminal's port: a message that grants no object is
    ignored, an asynchronous endpoint becomes the keyboard's client, and anything
    else is a frame buffer request on that endpoint, answered with the window's
    size or with its page, and the endpoint is removed whatever was asked. *)
Theorem interface_turn_correct s : let w := tm_window s in ∃ s' cs, interface_turn CAP_TYPE_IPC_ASYNC_ENDPOINT s = Ret (tt, s') ∧
  let rc := mk_call SYSCALL_SYNC_RECIEVE [0; u32 C4_SERV_PORT; 0; 0] no_msg in let m := (kernel (rc :: tm_hist s)).2 in let port := mget m 5 in
  tm_hist s' = cs ++ rc :: tm_hist s ∧ tm_window s' = w ∧
  tm_keyboard s' = (if decide (mtype m = MESSAGE_TYPE_GRANT_OBJECT ∧ mget m 0 = CAP_TYPE_IPC_ASYNC_ENDPOINT) then port else tm_keyboard s) ∧
  if decide (mtype m = MESSAGE_TYPE_GRANT_OBJECT ∧ mget m 0 ≠ CAP_TYPE_IPC_ASYNC_ENDPOINT) then
    let rq := mk_call SYSCALL_SYNC_RECIEVE [0; u32 port; 0; 0] no_msg in let t := mtype (kernel (rq :: rc :: tm_hist s)).2 in
    cs = mk_call SYSCALL_CSPACE_CAP_REMOVE [C4_CURRENT_CSPACE; u32 port; 0; 0] no_msg ::
      (if decide (t = FRAMEBUFFER_MSG_INFO) then
         [mk_call SYSCALL_SYNC_SEND [0; u32 port; 0; 0] (mk_msg FRAMEBUFFER_MSG_INFO [sw_width w; sw_height w; 32])]
       else if decide (t = FRAMEBUFFER_MSG_GET_BUFFER) then
         [mk_call SYSCALL_CSPACE_CAP_GRANT [u32 (page_obj (sw_buffer w)); u32 port; caps [CAP_ACCESS; CAP_MODIFY; CAP_MULTI_USE; CAP_SHARE]; 0] no_msg]
       else []) ++ [rq]
  else cs = [].
Proof.
  intros w. unfold interface_turn. cbv zeta.
  set (rc := mk_call SYSCALL_SYNC_RECIEVE [0; u32 C4_SERV_PORT; 0; 0] no_msg). set (m := (kernel (rc :: tm_hist s)).2).
  set (s1 := with_hist (rc :: tm_hist s) s).
  assert (tk (c4_msg_recieve C4_SERV_PORT) s = Ret ((i32 (kernel (rc :: tm_hist s)).1, m), s1)) as E1 by by apply tk_ok.
  rewrite (bind_run _ _ _ _ _ E1). cbn [snd]. destruct (Z.eqb_spec (mtype m) MESSAGE_TYPE_GRANT_OBJECT) as [Hg|Hg]; cbn [negb].
  2:{ exists s1, []. rewrite !decide_False by tauto. done. }
  destruct (Z.eqb_spec (mget m 0) CAP_TYPE_IPC_ASYNC_ENDPOINT) as [Ha|Ha].
  { exists (set_tm_keyboard (mget m 5) s1), []. rewrite decide_True, decide_False by tauto. done. }
  set (port := mget m 5). set (rq := mk_call SYSCALL_SYNC_RECIEVE [0; u32 port; 0; 0] no_msg).
  set (t := (kernel (rq :: rc :: tm_hist s)).2). set (s2 := with_hist (rq :: rc :: tm_hist s) s).
  assert (tk (c4_msg_recieve port) s1 = Ret ((i32 (kernel (rq :: rc :: tm_hist s)).1, t), s2)) as E2 by exact (tk_ok (c4_msg_recieve port) _ _ s1 eq_refl).
  unfold handle_framebuf_request. rewrite bind_assoc_run, (bind_run _ _ _ _ _ E2), bind_assoc_run, (bind_run get _ s2 s2 s2) by done. cbn [snd].
  set (rm := mk_call SYSCALL_CSPACE_CAP_REMOVE [C4_CURRENT_CSPACE; u32 port; 0; 0] no_msg).
  set (info := mk_call SYSCALL_SYNC_SEND [0; u32 port; 0; 0] (mk_msg FRAMEBUFFER_MSG_INFO [sw_width w; sw_height w; 32])).
  set (page := mk_call SYSCALL_CSPACE_CAP_GRANT [u32 (page_obj (sw_buffer w)); u32 port; caps [CAP_ACCESS; CAP_MODIFY; CAP_MULTI_USE; CAP_SHARE]; 0] no_msg).
  set (answer := if decide (mtype t = FRAMEBUFFER_MSG_INFO) then [info] else if decide (mtype t = FRAMEBUFFER_MSG_GET_BUFFER) then [page] else []).
  exists (with_hist (rm :: answer ++ rq :: rc :: tm_hist s) s), (rm :: answer ++ [rq]).
  rewrite (decide_False (P := mtype m = _ ∧ mget m 0 = _)), (decide_True (P := mtype m = _ ∧ mget m 0 ≠ _)) by tauto.
  split_and!; [|unfold tm_hist; cbn; by rewrite <-app_assoc|done..]. unfold answer.
  destruct (Z.eqb_spec (mtype t) FRAMEBUFFER_MSG_INFO) as [Hi|Hi]; [by rewrite decide_True|rewrite decide_False by done].
  destruct (Z.eqb_spec (mtype t) FRAMEBUFFER_MSG_GET_BUFFER) as [Hb|Hb]; [by rewrite decide_True|by rewrite decide_False].
Qed.

(** The first [n] pixels painted. *)
Definition painted (n : Z) (px : list Z) : list Z := replicate (Z.to_nat n) BACKGROUND_PIXEL ++ drop (Z.to_nat n) px.

Lemma painted_next n px : 0 <= n < Z.of_nat (length px) → zset (painted n px) n BACKGROUND_PIXEL = Some (painted (n + 1) px).
Proof.
  intros Hn. unfold zset, painted. rewrite length_app, length_replicate, length_drop.
  rewrite (proj2 (Z.leb_le 0 n)), (proj2 (Z.ltb_lt n _)) by lia. cbn [andb]. f_equal.
  replace (Z.to_nat (n + 1)) with (Z.to_nat n + 1)%nat by lia. rewrite replicate_add, <-app_assoc.
  rewrite insert_app_r_alt, length_replicate, Nat.sub_diag by (rewrite length_replicate; lia). f_equal.
  destruct (drop (Z.to_nat n) px) as [|x l] eqn:E; [apply (f_equal length) in E; rewrite length_drop in E; simpl in E; lia|].
  simpl. f_equal. by rewrite <-drop_drop, E.
Qed.

(** C34: [draw_background] paints every pixel of the window, width times height
    of them, and writes nothing else: no store is outside the window's memory. *)
Theorem draw_background_correct s : let w := tm_window s in let n := sw_width w * sw_height w in
  0 <= sw_width w → 0 <= sw_height w → n <= Z.of_nat (length (tm_pixels s)) → n < 2 ^ 32 →
  draw_background s = Ret (tt, set_tm_pixels (painted n (tm_pixels s)) s).
Proof.
  intros w n Hw Hh Hn Hn32. unfold draw_background. rewrite (bind_run get _ s s s) by done. fold w.
  set (px := tm_pixels s) in *. set (st := λ k, set_tm_pixels (painted k px) s).
  assert (∀ m y x, 0 <= x → 0 <= y < sw_height w → x + Z.of_nat m = sw_width w →
    for_loop m x (λ x, put_pixel y x) (st (y * sw_width w + x)) = Ret (tt, st (y * sw_width w + sw_width w))) as Hrow.
  { intros m. induction m as [|m IH]; intros y x Hx Hy Hm; cbn [for_loop].
    - by replace x with (sw_width w) by lia.
    - assert (y * sw_width w + x < n ∧ 0 <= y * sw_width w) as [Hlt Hpos] by (unfold n; nia).
      rewrite (bind_run _ _ _ tt (st (y * sw_width w + (x + 1)))); [apply IH; lia|].
      unfold put_pixel. rewrite (bind_run get _ _ _ _ eq_refl). cbn [tm_window set_tm_pixels st]. fold w.
      rewrite (bind_run _ _ _ (painted (y * sw_width w + (x + 1)) px) (st (y * sw_width w + x))); [done|].
      unfold getsome. cbn [tm_pixels set_tm_pixels st]. change (tm_window (st _)) with w. rewrite (u32_small (y * _)), u32_small by lia.
      rewrite painted_next by lia. by rewrite <-Z.add_assoc. }
  assert (∀ m y, 0 <= y → y + Z.of_nat m = sw_height w →
    for_loop m y (λ y, for_loop (Z.to_nat (sw_width w)) 0 (λ x, put_pixel y x)) (st (y * sw_width w)) = Ret (tt, st n)) as Hall.
  { intros m. induction m as [|m IH]; intros y Hy Hm; cbn [for_loop].
    - by replace n with (y * sw_width w) by (unfold n; replace y with (sw_height w) by lia; lia).
    - rewrite (bind_run _ _ _ tt (st ((y + 1) * sw_width w))); [apply IH; lia|].
      rewrite <-(Z.add_0_r (y * _)), Hrow by lia. do 3 f_equal. lia. }
  assert (st 0 = s) as E0 by (unfold st, painted; rewrite drop_0; by destruct s).
  rewrite <-E0 at 1. apply (Hall _ 0); lia.
Qed.
End claims.

(** ** A terminal of two by two pixels *)
Definition sample_terminal : terminal Bump.bump Bump.bump :=
  mk_terminal start_spawner (mk_swin 2 2 (mk_memobj 0 9 3 true) 5 11 12 13 14) [1; 2; 3; 4; 5] no_process no_process no_process 21.

Lemma draw_background_correct_witness : let _ := start_kernel in ∃ s',
  draw_background sample_terminal = Ret (tt, s') ∧ tm_pixels s' = replicate 4 BACKGROUND_PIXEL ++ [5].
Proof.
  intros env. eexists. split; [apply (draw_background_correct sample_terminal); vm_compute; congruence|vm_compute; reflexivity].
Defined.

Lemma terminal_forwards_witness : let _ := steady 0 (mk_msg STUBBYWM_KEYBOARD_EVENT [104; 0; 35; 0]) in ∃ s',
  for_loop 2 0 (λ _, update_turn) sample_terminal = Ret (tt, s') ∧
  sent_to 21 (tm_hist s') = replicate 2 (mk_msg KEYBOARD_MSG_EVENT [104; 0; 35; 0]).
Proof.
  intros env. destruct (terminal_forwards 2 sample_terminal) as (cs & E & _ & _); [done|vm_compute; discriminate|].
  set (s' := match for_loop 2 0 (λ _, update_turn) sample_terminal with Ret (_, s) => s | _ => sample_terminal end).
  exists s'. split; [unfold s'; by rewrite E|vm_compute; reflexivity].
Defined.
