(* ===== verification/Forth.v ===== *)
(** The shell's input and output ([programs/forth/src/forth.c]): a line editor
    on the keyboard's events, included files, and the character source the
    interpreter reads from.

    The interpreter itself (miniforth) is not in this repository: it is a
    parameter of [forth_main].  [input], the static line buffer, the literals
    and the text the interpreter starts with are in byte memory. *)

From S2P Require Import Prelude Interfaces Kernel Mem RingBuffer Connman CString Words Filesystem Nameserver Devices Elf Stdio Spawn.
#[local] Open Scope Z_scope.

(** The static variables; [ptr] is where the next character is read. *)
Record forth (R H : Type) := mk_forth {
  fo_proc : spawner R H;
  display : Z;
  keyboard : Z;
  cur_include : Z;
  fo_initialized : bool;
  fo_ptr : Z
}.
Arguments mk_forth {R H}.
Arguments fo_proc {R H}.
Arguments display {R H}.
Arguments keyboard {R H}.
Arguments cur_include {R H}.
Arguments fo_initialized {R H}.
Arguments fo_ptr {R H}.

Definition prompt : list Z := [109; 105; 110; 105; 102; 111; 114; 116; 104; 32; 62; 32].
Definition dev_console : list Z := [47; 100; 101; 118; 47; 99; 111; 110; 115; 111; 108; 101].
Definition dev_keyboard : list Z := [47; 100; 101; 118; 47; 107; 101; 121; 98; 111; 97; 114; 100].
Definition sizeof_input : Z := 128.

(** The program text the interpreter is given first. *)
Definition start_text : list Z :=
  [32; 58; 32; 112; 115; 116; 114; 105; 110; 103; 32; 119; 104; 105; 108; 101; 32; 100; 117; 112; 32; 99; 64; 32; 48;
   32; 33; 61; 32; 98; 101; 103; 105; 110; 32; 100; 117; 112; 32; 99; 64; 32; 101; 109; 105; 116; 32; 49; 32; 43; 32;
   114; 101; 112; 101; 97; 116; 32; 59; 32; 32; 34; 62; 62; 32; 67; 52; 45; 79; 83; 32; 118; 101; 114; 115; 105; 111;
   110; 32; 48; 46; 48; 46; 49; 34; 32; 112; 115; 116; 114; 105; 110; 103; 32; 99; 114; 32; 32; 34; 62; 62; 32; 84;
   121; 112; 101; 32; 39; 108; 111; 97; 100; 108; 105; 98; 115; 39; 32; 116; 111; 32; 108; 111; 97; 100; 32; 116;
   104; 101; 32; 100; 101; 102; 97; 117; 108; 116; 32; 108; 105; 98; 114; 97; 114; 105; 101; 115; 46; 34; 32; 112;
   115; 116; 114; 105; 110; 103; 32; 99; 114; 32; 32; 58; 32; 108; 111; 97; 100; 108; 105; 98; 115; 32; 32; 32; 32;
   34; 47; 100; 97; 116; 97; 47; 102; 111; 114; 116; 104; 47; 99; 52; 46; 102; 115; 34; 32; 34; 114; 34; 32; 111;
   112; 101; 110; 45; 102; 105; 108; 101; 32; 105; 102; 32; 48; 32; 61; 32; 116; 104; 101; 110; 32; 32; 32; 32; 32;
   32; 105; 110; 99; 108; 117; 100; 101; 45; 102; 105; 108; 101; 32; 32; 32; 32; 101; 110; 100; 32; 32; 59; 32].

Section forth.
Context `{KernelEnv} {R : Type} `{Allocator R} {Hp : Type} `{Allocator Hp}.
Context (peer : Z → list kcall → c4_ringbuf → c4_ringbuf) (fuel : nat) (input text_at : Z).
Abbreviation F := (M (forth R Hp)).

Definition set_fo_proc (p : spawner R Hp) (s : forth R Hp) : forth R Hp :=
  mk_forth p (display s) (keyboard s) (cur_include s) (fo_initialized s) (fo_ptr s).
Definition set_display (d : Z) (s : forth R Hp) : forth R Hp :=
  mk_forth (fo_proc s) d (keyboard s) (cur_include s) (fo_initialized s) (fo_ptr s).
Definition set_keyboard (k : Z) (s : forth R Hp) : forth R Hp :=
  mk_forth (fo_proc s) (display s) k (cur_include s) (fo_initialized s) (fo_ptr s).
Definition set_cur_include (fp : Z) : F unit :=
  modify (λ s, mk_forth (fo_proc s) (display s) (keyboard s) fp (fo_initialized s) (fo_ptr s)).
Definition set_reader (i : bool) (p : Z) (s : forth R Hp) : forth R Hp :=
  mk_forth (fo_proc s) (display s) (keyboard s) (cur_include s) i p.

Definition fo_io {A} (m : M (stdio R Hp) A) : F A := zoom fo_proc set_fo_proc (io m).
Definition fk {A} (m : K A) : F A := fo_io (dk m).
Definition fmem {A} (m : M mem A) : F A := fo_io (dm m).

(** [c] is a [char]; the console takes an [unsigned]. *)
Definition putchar (c : Z) : F unit := s ← get; fk (console_put_char (display s) (u32 c)).

(** [for ( ; *s; s++)] over a literal. *)
Fixpoint debug_print (cs : list Z) : F unit :=
  match cs with [] => mret tt | c :: cs' => putchar c;; debug_print cs' end.

(** The character of an event that types one. *)
Definition key_of (m : message) : option Z :=
  if negb (mtype m =? KEYBOARD_MSG_EVENT) then None
  else
    let ev := keyboard_parse_event m in
    if keyboard_event_is_modifier ev then None
    else if negb (kev_event ev =? KEYBOARD_EVENT_KEY_DOWN) then None
    else Some (i8 (kev_character ev)).

(** From [retry] on, one event a turn: the index the loop is left with. *)
Fixpoint read_keys (turns : nat) (buf n i : Z) : F Z :=
  match turns with
  | O => nofuel
  | S t =>
      s ← get;
      msg ← fk (c4rt_peripheral_wait_event (keyboard s));
      match key_of msg with
      | None => read_keys t buf n i
      | Some c =>
          putchar c;;
          if truthy i && (c =? 8) then read_keys t buf n (i - 1)
          else
            fmem (wr (buf + i) c);;
            if c =? 10 then mret i
            else if i + 1 <? u32 (n - 1) then read_keys t buf n (i + 1) else mret (i + 1)
      end
  end.

Definition read_keyboard (turns : nat) (buf n : Z) : F Z :=
  debug_print prompt;;
  i ← (if 0 <? u32 (n - 1) then read_keys turns buf n 0 else mret 0);
  fmem (wr (buf + (i + 1)) 0);;
  mret buf.

Definition read_include_file (turns : nat) (buf n : Z) : F Z :=
  fmem (wr buf 0);;
  s ← get;
  if cur_include s =? 0 then mret buf
  else
    fo_io (fgets peer turns turns buf n (cur_include s));;
    len ← fmem (strlen fuel buf);
    (if len =? 0 then set_cur_include 0 else mret tt);;
    mret buf.

Definition read_line (turns : nat) (buf n : Z) : F Z :=
  s ← get;
  if truthy (cur_include s) then read_include_file turns buf n else read_keyboard turns buf n.

(** [while (!*ptr) ptr = read_line(input, sizeof(input))] *)
Fixpoint fill (lines turns : nat) : F unit :=
  match lines with
  | O => nofuel
  | S l =>
      s ← get;
      c ← fmem (rdc (fo_ptr s));
      if truthy c then mret tt
      else p ← read_line turns input sizeof_input; modify (set_reader (fo_initialized s) p);; fill l turns
  end.

Definition clear_input : F unit := for_loop (Z.to_nat sizeof_input) 0 (λ i, fmem (wr (input + i) 0)).

Definition minift_get_char (lines turns : nat) : F Z :=
  s ← get;
  (if fo_initialized s then mret tt else clear_input;; modify (set_reader true text_at));;
  fill lines turns;;
  s ← get;
  c ← fmem (rdc (fo_ptr s));
  modify (set_reader (fo_initialized s) (fo_ptr s + 1));;
  mret c.

Definition minift_put_char (c : Z) : F unit := putchar c.

(** [while (!display) display = nameserver_lookup(...)] *)
Fixpoint wait_name (tries : nat) (nameserver : Z) (name : list Z) (found : Z) : F Z :=
  match tries with
  | O => nofuel
  | S t => if truthy found then mret found else r ← fk (nameserver_lookup nameserver name); wait_name t nameserver name r
  end.

(** [run] is the interpreter on its virtual machine. *)
Definition forth_main (run : F unit) (tries : nat) (nameserver : Z) : F Z :=
  s ← get;
  d ← wait_name tries nameserver dev_console (display s);
  modify (set_display d);;
  port ← wait_name tries nameserver dev_keyboard 0;
  k ← fk c4_msg_create_async;
  modify (set_keyboard (u32 k));;
  fk (c4rt_peripheral_connect port (u32 k));;
  run;;
  fk (c4rt_peripheral_disconnect (u32 k));;
  mret 0.
End forth.

(** ** Line editing *)

(** A backspace takes the last character back; at the start of the line it is
    a character like any other. *)
Definition edit_key (l : list Z) (c : Z) : list Z :=
  if (c =? 8) && negb (bool_decide (l = [])) then take (length l - 1) l else l ++ [c].
Definition edit (ks : list Z) : list Z := foldl edit_key [] ks.

(** The line and its newline have room at every point of the typing. *)
Fixpoint fits (n : Z) (l ks : list Z) : Prop :=
  Z.of_nat (length l) < n - 1 ∧ match ks with [] => True | c :: ks' => fits n (edit_key l c) ks' end.

Section line.
Context `{KernelEnv} {R : Type} `{Allocator R} {Hp : Type} `{Allocator Hp}.
Context (peer : Z → list kcall → c4_ringbuf → c4_ringbuf) (fuel : nat) (input text_at : Z).
Abbreviation F := (M (forth R Hp)).
Implicit Types s : forth R Hp.

Definition fo_hist s : list kcall := p_hist (io_proc (sp_io (fo_proc s))).
Definition fo_mem s : mem := io_mem (sp_io (fo_proc s)).

(** The state with another history of calls and another memory. *)
Definition set_both (h : list kcall) (m : mem) s : forth R Hp :=
  let p := fo_proc s in let x := sp_io p in
  set_fo_proc (mk_spawner (set_iomem m (set_rings (Mem.mk_process h (p_region (io_proc x))) (io_rings x) x))
    (sp_objs p) (sp_caps p) (sp_win p) (sp_children p)) s.

Lemma fk_ok {A} (m : K A) v h' s : m (fo_hist s) = Ret (v, h') → fk m s = Ret (v, set_both h' (fo_mem s) s).
Proof. unfold fk, fo_io, io, dk, on_kernel, zoom, fo_hist. intros ->. by destruct s as [[[]]]. Qed.

Lemma fmem_ok {A} (m : M mem A) v m' s : m (fo_mem s) = Ret (v, m') → fmem m s = Ret (v, set_both (fo_hist s) m' s).
Proof. unfold fmem, fo_io, io, dm, zoom, fo_mem. intros ->. by destruct s as [[[[]]]]. Qed.

Lemma set_both_id s : set_both (fo_hist s) (fo_mem s) s = s.
Proof. by destruct s as [[[[]]]]. Qed.

Definition wait_call (kb : Z) : kcall := mk_call SYSCALL_ASYNC_RECIEVE [0; u32 kb; u32 MESSAGE_ASYNC_BLOCK; 0] no_msg.
Definition put_call (d c : Z) : kcall := mk_call SYSCALL_SYNC_SEND [0; u32 d; 0; 0] (mk_msg CONSOLE_MSG_PUT_CHAR [u32 c]).

(** What is typed before a newline in at most [t] events, every key echoed, and
    the calls made then. *)
Fixpoint typed_line (t : nat) (kb d : Z) (h : list kcall) : option (list Z * list kcall) :=
  match t with
  | O => None
  | S t' =>
      let h1 := wait_call kb :: h in
      match key_of (kernel h1).2 with
      | None => typed_line t' kb d h1
      | Some c =>
          let h2 := put_call d c :: h1 in
          if c =? 10 then Some ([], h2) else r ← typed_line t' kb d h2; Some (c :: r.1, r.2)
      end
  end.

Lemma echo_ok c s : putchar c s = Ret (tt, set_both (put_call (display s) c :: fo_hist s) (fo_mem s) s).
Proof. unfold putchar. rewrite (bind_run get _ s s s) by done. by apply fk_ok. Qed.

Lemma debug_print_ok cs : ∀ s, debug_print cs s = Ret (tt, set_both (rev (map (put_call (display s)) cs) ++ fo_hist s) (fo_mem s) s).
Proof.
  induction cs as [|c cs IH]; intros s; cbn [debug_print map rev].
  - by rewrite app_nil_l, set_both_id.
  - rewrite (bind_run _ _ _ _ _ (echo_ok c s)), IH. by rewrite <-app_assoc.
Qed.

(** The loop turns what is typed into the edited line. *)
Lemma read_keys_ok n : 1 < n < 2 ^ 32 → ∀ turns buf ks l h' s, typed_line turns (keyboard s) (display s) (fo_hist s) = Some (ks, h') →
  fits n l ks → CString.mapped (fo_mem s) buf n → bytes_at (fo_mem s) buf (map u8 l) →
  let line := foldl edit_key l ks in ∃ m',
  read_keys turns buf n (Z.of_nat (length l)) s = Ret (Z.of_nat (length line), set_both h' m' s) ∧
  bytes_at m' buf (map u8 (line ++ [10])) ∧ only (fo_mem s) m' buf (n - 1) ∧ Z.of_nat (length line) < n - 1.
Proof.
  intros Hn. induction turns as [|t IH]; intros buf ks l h' s Hty Hf Hm Hb line; [done|].
  cbn [typed_line] in Hty. cbn [read_keys]. rewrite (bind_run get _ s s s) by done.
  set (h1 := wait_call (keyboard s) :: fo_hist s) in *. set (msg := (kernel h1).2) in *. set (s1 := set_both h1 (fo_mem s) s).
  rewrite (bind_run _ _ s msg s1) by (by apply (fk_ok (c4rt_peripheral_wait_event (keyboard s)))).
  destruct (key_of msg) as [c|] eqn:Ek.
  2:{ destruct (IH buf ks l h' s1 Hty Hf Hm Hb) as (m' & E & Hb' & Ho & Hl). exists m'. by rewrite E. }
  rewrite (bind_run _ _ _ _ _ (echo_ok c s1)). change (display s1) with (display s). change (fo_mem s1) with (fo_mem s).
  change (fo_hist s1) with h1. set (h2 := put_call (display s) c :: h1) in *.
  change (set_both h2 (fo_mem s) s1) with (set_both h2 (fo_mem s) s). set (s2 := set_both h2 (fo_mem s) s).
  destruct (Z.eqb_spec c 10) as [->|Hc10].
  - injection Hty as <- <-. destruct Hf as [Hl _]. subst line. cbn [foldl]. rewrite andb_false_r.
    destruct (Hm (buf + Z.of_nat (length l))) as [old Eold]; [lia|].
    set (m' := <[buf + Z.of_nat (length l) := u8 10]> (fo_mem s)).
    rewrite (bind_run _ _ s2 tt (set_both h2 m' s)).
    2:{ apply (fmem_ok (wr _ 10) tt m' s2). by apply (wr_ok _ _ _ old). }
    exists m'. split_and!; [done| | |done].
    + rewrite map_app. apply bytes_at_app. split.
      * eapply bytes_at_ext; [|exact Hb]. intros a Ha. rewrite length_map in Ha. apply lookup_insert_ne. lia.
      * rewrite length_map. intros [|j] x Hj; [|done]. injection Hj as <-. rewrite Z.add_0_r. apply lookup_insert_eq.
    + split; [intros a Ha; apply lookup_insert_ne; lia|]. intros a Ha. apply lookup_insert_is_Some'. by right.
  - destruct (typed_line t (keyboard s) (display s) h2) as [[ks' h3]|] eqn:Ety; [|done]. injection Hty as <- <-.
    destruct Hf as [Hl Hf]. subst line. cbn [foldl]. set (next := edit_key l c) in *.
    assert (truthy (Z.of_nat (length l)) = negb (bool_decide (l = []))) as Etr by (by destruct l).
    rewrite Etr, (andb_comm _ (c =? 8)). destruct ((c =? 8) && negb (bool_decide (l = []))) eqn:Eb.
    + assert (next = take (length l - 1) l) as En by (unfold next, edit_key; by rewrite Eb).
      apply andb_true_iff in Eb as [_ Hne%negb_true_iff%bool_decide_eq_false]. rewrite En in *. set (l1 := take (length l - 1) l) in *.
      assert (length l1 = length l - 1)%nat as El1 by (unfold l1; rewrite length_take; lia). assert (length l ≠ 0)%nat by (by destruct l).
      replace (Z.of_nat (length l) - 1) with (Z.of_nat (length l1)) by lia.
      destruct (IH buf ks' l1 h3 s2 Ety Hf Hm) as (m' & E & ?).
      { unfold l1. rewrite <-firstn_map. intros j b Hj. apply Hb. apply lookup_take_Some in Hj. apply Hj. }
      exists m'. by rewrite E.
    + assert (next = l ++ [c]) as En by (unfold next, edit_key; by rewrite Eb). rewrite En in *. set (l1 := l ++ [c]) in *. assert (length l1 = length l + 1)%nat as El1 by (unfold l1; rewrite length_app; simpl; lia).
      destruct (Hm (buf + Z.of_nat (length l))) as [old Eold]; [lia|].
      set (m1 := <[buf + Z.of_nat (length l) := u8 c]> (fo_mem s)). set (s3 := set_both h2 m1 s).
      rewrite (bind_run _ _ s2 tt s3). 2:{ apply (fmem_ok (wr _ c) tt m1 s2). by apply (wr_ok _ _ _ old). }
      assert (Z.of_nat (length l1) < n - 1) as Hl1 by (by destruct ks'; destruct Hf).
      rewrite u32_small by lia. rewrite (proj2 (Z.ltb_lt _ _)) by lia.
      replace (Z.of_nat (length l) + 1) with (Z.of_nat (length l1)) by lia.
      assert (only (fo_mem s) m1 buf (n - 1)) as Ho1.
      { split; [intros a Ha; apply lookup_insert_ne; lia|]. intros a Ha. apply lookup_insert_is_Some'. by right. }
      destruct (IH buf ks' l1 h3 s3 Ety Hf) as (m' & E & Hb' & Ho & Hll).
      { by eapply only_mapped. }
      { unfold l1. rewrite map_app. apply bytes_at_app. split.
        - eapply bytes_at_ext; [|exact Hb]. intros a Ha. rewrite length_map in Ha. apply lookup_insert_ne. lia.
        - rewrite length_map. intros [|j] x Hj; [|done]. injection Hj as <-. rewrite Z.add_0_r. apply lookup_insert_eq. }
      exists m'. rewrite E. split_and!; [done|done| |done]. eapply only_trans; [exact Ho1|exact Ho|lia..].
Qed.

(** A whole line, behind the prompt. *)
Definition prompt_calls (d : Z) : list kcall := rev (map (put_call d) prompt).

Lemma read_keyboard_ok n turns buf ks h' s : 1 < n < 2 ^ 32 →
  typed_line turns (keyboard s) (display s) (prompt_calls (display s) ++ fo_hist s) = Some (ks, h') →
  fits n [] ks → CString.mapped (fo_mem s) buf n → ∃ m',
  read_keyboard turns buf n s = Ret (buf, set_both h' m' s) ∧
  bytes_at m' buf (map u8 (edit ks ++ [10; 0])) ∧ only (fo_mem s) m' buf n.
Proof.
  intros Hn Hty Hf Hm. unfold read_keyboard. rewrite (bind_run _ _ _ _ _ (debug_print_ok prompt s)). fold (prompt_calls (display s)).
  set (s1 := set_both _ _ s). rewrite u32_small by lia. rewrite (proj2 (Z.ltb_lt _ _)) by lia.
  destruct (read_keys_ok n Hn turns buf ks [] h' s1 Hty Hf Hm) as (m1 & E & Hb & Ho & Hl); [done|]. fold (edit ks) in *.
  rewrite (bind_run _ _ _ _ _ E). set (k := Z.of_nat (length (edit ks))) in *.
  destruct (only_mapped _ _ _ _ buf n Ho Hm (buf + (k + 1))) as [old Eold]; [lia|].
  set (m' := <[buf + (k + 1) := u8 0]> m1). set (s2 := set_both h' m1 s1).
  rewrite (bind_run _ _ s2 tt (set_both h' m' s)). 2:{ apply (fmem_ok (wr _ 0) tt m' s2). by apply (wr_ok _ _ _ old). }
  exists m'. split_and!; [done| |].
  - change [10; 0] with ([10] ++ [0]). rewrite app_assoc, map_app. apply bytes_at_app. rewrite length_map, length_app. split.
    + eapply bytes_at_ext; [|exact Hb]. intros a Ha. rewrite length_map, length_app in Ha. simpl in Ha. apply lookup_insert_ne. lia.
    + intros [|j] x Hj; [|done]. injection Hj as <-. unfold m'. rewrite Z.add_0_r. simpl length.
      replace (buf + Z.of_nat (length (edit ks) + 1)) with (buf + (k + 1)) by lia. apply lookup_insert_eq.
  - assert (only m1 m' (buf + (k + 1)) 1) as Ho2.
    { split; [intros a Ha; apply lookup_insert_ne; lia|]. intros a Ha. apply lookup_insert_is_Some'. by right. }
    eapply only_trans; [exact Ho|exact Ho2|lia..].
Qed.

Lemma Forall_edit (P : Z → Prop) ks : ∀ l, Forall P l → Forall P ks → Forall P (foldl edit_key l ks).
Proof.
  induction ks as [|c ks IH]; intros l Hl Hk; [done|]. apply Forall_cons in Hk as [Hc Hk]. cbn [foldl]. apply IH; [|done].
  unfold edit_key. destruct (_ && _); [by apply Forall_take|]. apply Forall_app. by repeat constructor.
Qed.

Lemma typed_range t kb d : ∀ h ks h', typed_line t kb d h = Some (ks, h') → Forall (λ c, - 128 <= c < 128) ks.
Proof.
  induction t as [|t IH]; intros h ks h' E; [done|]. cbn [typed_line] in E. destruct (key_of _) as [c|] eqn:Ek; [|by eapply IH].
  destruct (c =? 10); [by injection E as <- <-|]. destruct (typed_line t kb d _) as [[ks' h1]|] eqn:Et; [|done].
  injection E as <- <-. constructor; [|by eapply IH]. unfold key_of in Ek. destruct (negb _); [done|].
  destruct (keyboard_event_is_modifier _); [done|]. destruct (negb _); [done|]. injection Ek as <-.
  pose proof (wraps_range 8 (kev_character (keyboard_parse_event (kernel (wait_call kb :: h)).2)) ltac:(lia)) as Hr.
  change (2 ^ (8 - 1)) with 128 in Hr. exact Hr.
Qed.

(** ** The characters the interpreter reads *)
Fixpoint get_chars (k lines turns : nat) : F (list Z) :=
  match k with
  | O => mret []
  | S k' => c ← minift_get_char peer fuel input text_at lines turns; cs ← get_chars k' lines turns; mret (c :: cs)
  end.

Lemma rdc_run p b c s : fo_mem s !! p = Some b → i8 b = c → fmem (rdc p) s = Ret (c, s).
Proof. intros E <-. rewrite (fmem_ok (rdc p) (i8 b) (fo_mem s) s); [by rewrite set_both_id|by apply rdc_ok]. Qed.

Lemma get_char_ready lines turns c cs s : fo_initialized s = true → cstr (fo_mem s) (fo_ptr s) (c :: cs) →
  minift_get_char peer fuel input text_at (S lines) turns s = Ret (c, set_reader true (fo_ptr s + 1) s).
Proof.
  intros Hi ((b & Eb & Hb) & Hc & _). unfold minift_get_char. rewrite (bind_run get _ s s s) by done. rewrite Hi.
  rewrite (bind_run (mret tt) _ s tt s) by done. pose proof (rdc_run _ _ _ s Eb Hb) as Er.
  rewrite (bind_run _ _ s tt s).
  2:{ cbn [fill]. rewrite (bind_run get _ s s s), (bind_run _ _ _ _ _ Er) by done. by rewrite truthy_ne. }
  rewrite (bind_run get _ s s s), (bind_run _ _ _ _ _ Er) by done. by rewrite Hi.
Qed.

Lemma get_chars_ready lines turns cs : ∀ s, fo_initialized s = true → cstr (fo_mem s) (fo_ptr s) cs →
  get_chars (length cs) (S lines) turns s = Ret (cs, set_reader true (fo_ptr s + Z.of_nat (length cs)) s).
Proof.
  induction cs as [|c cs IH]; intros s Hi Hs; cbn [get_chars length].
  - rewrite Z.add_0_r. rewrite <-Hi at 1. by destruct s.
  - rewrite (bind_run _ _ _ _ _ (get_char_ready lines turns c cs s Hi Hs)). set (s1 := set_reader true _ s).
    destruct Hs as (_ & _ & Hs). rewrite (bind_run _ _ s1 cs (set_reader true (fo_ptr s + 1 + Z.of_nat (length cs)) s1)).
    + by replace (fo_ptr s + Z.of_nat (S (length cs))) with (fo_ptr s + 1 + Z.of_nat (length cs)) by lia.
    + rewrite (IH s1); done.
Qed.

(** C35: what is typed is what the interpreter reads.  When the text before it is
    used up, the next characters read are exactly the next line typed, with every
    backspace taken back the character before it, and its newline; keys that
    only modify others, releases and other messages add nothing; every key is
    echoed and only the line buffer is written.  A line fits when it never holds
    127 characters before its newline. *)
Theorem typed_line_read lines turns ks h' s : fo_initialized s = true → cur_include s = 0 → cstr (fo_mem s) (fo_ptr s) [] →
  CString.mapped (fo_mem s) input sizeof_input →
  typed_line turns (keyboard s) (display s) (prompt_calls (display s) ++ fo_hist s) = Some (ks, h') →
  fits sizeof_input [] ks → Forall (λ c, c ≠ 0) ks → ∃ s',
  get_chars (length (edit ks) + 1) (S (S lines)) turns s = Ret (edit ks ++ [10], s') ∧
  cstr (fo_mem s') (fo_ptr s') [] ∧ only (fo_mem s) (fo_mem s') input sizeof_input ∧ fo_hist s' = h' ∧
  fo_initialized s' = true ∧ cur_include s' = 0 ∧ keyboard s' = keyboard s ∧ display s' = display s.
Proof.
  intros Hi Hc Hend Hm Hty Hf Hnz.
  destruct (read_keyboard_ok sizeof_input turns input ks h' s ltac:(unfold sizeof_input; lia) Hty Hf Hm) as (m' & E & Hb & Ho).
  set (text := edit ks ++ [10]). set (s1 := set_reader true input (set_both h' m' s)).
  assert (cstr m' input text) as Ht.
  { change (edit ks ++ [10; 0]) with (edit ks ++ ([10] ++ [0])) in Hb. rewrite app_assoc, map_app in Hb. fold text in Hb.
    apply bytes_at_app in Hb as [Hb Hz]. rewrite length_map in Hz. apply cstr_of_lookup.
    - apply Forall_app. split; [by apply Forall_edit|by repeat constructor].
    - apply Forall_app. split; [apply Forall_edit; [done|by eapply typed_range]|repeat constructor; lia].
    - intros j c Hj. apply Hb. by rewrite list_lookup_fmap, Hj.
    - specialize (Hz 0%nat 0 eq_refl). by rewrite Z.add_0_r in Hz. }
  destruct text as [|c cs] eqn:Etext; [by destruct (edit ks)|].
  assert (length (edit ks) + 1 = S (length cs))%nat as El.
  { apply (f_equal length) in Etext. unfold text in Etext. rewrite length_app in Etext. simpl in Etext. lia. }
  assert (minift_get_char peer fuel input text_at (S (S lines)) turns s = Ret (c, set_reader true (input + 1) s1)) as E1.
  { unfold minift_get_char. rewrite (bind_run get _ s s s) by done. rewrite Hi. rewrite (bind_run (mret tt) _ s tt s) by done.
    rewrite (bind_run _ _ s tt s1).
    - destruct Ht as ((b & Eb & Hb') & _ & _). pose proof (rdc_run input b c s1 Eb Hb') as Er.
      rewrite (bind_run get _ s1 s1 s1) by done. change (fo_ptr s1) with input. by rewrite (bind_run _ _ _ _ _ Er).
    - cbn [fill]. rewrite (bind_run get _ s s s) by done. rewrite (bind_run _ _ _ _ _ (rdc_run _ 0 0 s Hend eq_refl)).
      change (truthy 0) with false. cbv iota.
      rewrite (bind_run _ _ s input (set_both h' m' s)).
      2:{ unfold read_line. rewrite (bind_run get _ s s s) by done. by rewrite Hc. }
      set (s0 := set_both h' m' s). rewrite (bind_run (modify (set_reader (fo_initialized s) input)) _ s0 tt s1) by (by unfold modify; rewrite Hi).
      destruct Ht as ((b & Eb & Hb') & Hc0 & _). rewrite (bind_run get _ s1 s1 s1) by done.
      rewrite (bind_run _ _ _ _ _ (rdc_run input b c s1 Eb Hb')). by rewrite truthy_ne. }
  destruct Ht as (_ & _ & Ht). set (s2 := set_reader true (input + 1) s1) in *.
  exists (set_reader true (input + 1 + Z.of_nat (length cs)) s2). split.
  { rewrite El. cbn [get_chars]. rewrite (bind_run _ _ _ _ _ E1). rewrite (bind_run _ _ _ _ _ (get_chars_ready (S lines) turns cs s2 eq_refl Ht)). done. }
  split; [|split_and!; [exact Ho|reflexivity..|exact Hc|reflexivity|reflexivity]].
  rewrite <-(app_nil_r cs) in Ht. apply cstr_app in Ht. exact Ht.
Qed.

(** The line buffer has no room for its terminator when it is filled without a
    newline: the byte behind it is cleared. *)
Theorem read_keyboard_overflows c n turns buf s : (∀ h, key_of (kernel h).2 = Some c) → c ≠ 8 → c ≠ 10 → 1 < n < 2 ^ 32 →
  CString.mapped (fo_mem s) buf (n + 1) → n < Z.of_nat turns → ∃ h' m', read_keyboard turns buf n s = Ret (buf, set_both h' m' s) ∧
  m' !! (buf + n) = Some 0.
Proof.
  intros Hk H8 H10 Hn Hm Ht.
  assert (∀ turns i s, n - 1 - i < Z.of_nat turns → 0 <= i < n - 1 → CString.mapped (fo_mem s) buf (n + 1) → ∃ h' m',
    read_keys turns buf n i s = Ret (n - 1, set_both h' m' s) ∧ CString.mapped m' buf (n + 1)) as Hall.
  { clear s Hm turns Ht. intros turns. induction turns as [|t IH]; intros i s Ht Hi Hm; [lia|]. cbn [read_keys].
    rewrite (bind_run get _ s s s) by done. set (h1 := wait_call (keyboard s) :: fo_hist s). set (s1 := set_both h1 (fo_mem s) s).
    rewrite (bind_run _ _ s (kernel h1).2 s1) by (by apply (fk_ok (c4rt_peripheral_wait_event (keyboard s)))).
    rewrite Hk, (bind_run _ _ _ _ _ (echo_ok c s1)), (proj2 (Z.eqb_neq _ _) H8), andb_false_r.
    set (h2 := put_call (display s1) c :: fo_hist s1). set (s2 := set_both h2 (fo_mem s1) s1).
    destruct (Hm (buf + i)) as [old Eold]; [lia|]. set (m1 := <[buf + i := u8 c]> (fo_mem s)).
    rewrite (bind_run _ _ s2 tt (set_both h2 m1 s)).
    2:{ apply (fmem_ok (wr _ c) tt m1 s2). by apply (wr_ok _ _ _ old). }
    rewrite (proj2 (Z.eqb_neq _ _) H10), u32_small by lia.
    assert (CString.mapped m1 buf (n + 1)) as Hm1 by (intros a Ha; apply lookup_insert_is_Some'; right; by apply Hm).
    destruct (Z.ltb_spec (i + 1) (n - 1)).
    - destruct (IH (i + 1) (set_both h2 m1 s)) as (h' & m' & E & Hm'); [lia|lia|exact Hm1|]. exists h', m'. by rewrite E.
    - exists h2, m1. split; [|done]. unfold mret, M_ret. by replace (i + 1) with (n - 1) by lia. }
  unfold read_keyboard. rewrite (bind_run _ _ _ _ _ (debug_print_ok prompt s)). set (s1 := set_both _ _ s).
  rewrite u32_small by lia. rewrite (proj2 (Z.ltb_lt _ _)) by lia.
  destruct (Hall turns 0 s1) as (h' & m' & E & Hm'); [lia|lia|exact Hm|]. rewrite (bind_run _ _ _ _ _ E).
  replace (n - 1 + 1) with n by lia. destruct (Hm' (buf + n)) as [old Eold]; [lia|].
  exists h', (<[buf + n := u8 0]> m'). split; [|apply lookup_insert_eq].
  rewrite (bind_run _ _ _ tt (set_both h' (<[buf + n := u8 0]> m') s)); [done|].
  apply (fmem_ok (wr _ 0) tt _ (set_both h' m' s1)). by apply (wr_ok _ _ _ old).
Qed.
End line.

(** ** A line typed with a correction

    The keyboard sends a release, "h", "u", a backspace, "i", a shift and
    return, one after the other: the kernel answers by how often it was asked. *)
Definition key_script : list (Z * Z) := [(104, 1); (104, 0); (117, 0); (8, 0); (105, 0); (4, 0); (10, 0)].
Definition count_waits (h : list kcall) : nat := length (filter (λ c, cnum c = SYSCALL_ASYNC_RECIEVE) h).
Definition script_env : KernelEnv :=
  let e := steady 0 no_msg in
  {| kernel := λ h, let k := default (0, 1) (key_script !! (count_waits h - 1)%nat) in
       (0, mk_msg (@KEYBOARD_MSG_EVENT e) [k.1; 0; 0; k.2]);
     CAP_ACCESS := @CAP_ACCESS e; CAP_MODIFY := @CAP_MODIFY e; CAP_MULTI_USE := @CAP_MULTI_USE e; CAP_SHARE := @CAP_SHARE e;
     PAGE_READ := @PAGE_READ e; PAGE_WRITE := @PAGE_WRITE e; MESSAGE_TYPE_GRANT_OBJECT := @MESSAGE_TYPE_GRANT_OBJECT e;
     MESSAGE_TYPE_END_RESERVED := @MESSAGE_TYPE_END_RESERVED e; MESSAGE_ASYNC_BLOCK := @MESSAGE_ASYNC_BLOCK e;
     IO_PORT_IN_BYTE := @IO_PORT_IN_BYTE e; IO_PORT_IN_WORD := @IO_PORT_IN_WORD e; IO_PORT_IN_DWORD := @IO_PORT_IN_DWORD e;
     IO_PORT_OUT_BYTE := @IO_PORT_OUT_BYTE e; IO_PORT_OUT_WORD := @IO_PORT_OUT_WORD e; IO_PORT_OUT_DWORD := @IO_PORT_OUT_DWORD e;
     SYSCALL_INFO_GET_ID := @SYSCALL_INFO_GET_ID e |}.

Definition script_forth : forth Bump.bump Bump.bump :=
  mk_forth (mk_spawner (set_iomem (put_bytes 64 (replicate 128 0) ∅) start_io) [] ∅ ∅ []) 5 6 0 true 64.

Lemma typed_line_read_witness : let _ := script_env in ∃ s',
  get_chars (λ _ _ b, b) 9 64 32 3 2 9 script_forth = Ret ([104; 105; 10], s').
Proof.
  intros env.
  destruct (typed_line_read (λ _ _ b, b) 9 64 32 0 9 [104; 117; 8; 105]
    (match typed_line 9 6 5 (prompt_calls 5) with Some r => r.2 | None => [] end) script_forth) as (s' & E & _).
  - reflexivity.
  - reflexivity.
  - vm_compute. reflexivity.
  - apply (put_bytes_mapped 64 (replicate 128 0) ∅).
  - vm_compute. reflexivity.
  - vm_compute. tauto.
  - repeat constructor; lia.
  - exists s'. exact E.
Defined.
