(* ===== verification/ForthWords.v ===== *)
(** The words the shell adds to its interpreter ([programs/forth/src/words.c]):
    messages, the console, names, a heap, programs, files and directories.

    The interpreter (miniforth) is not in this repository: [MiniforthVm] is what
    the words use of its machine, [MiniforthLaws] what they rely on.  The layout
    of [message_t] is the kernel's: messages in memory are read and written by
    the parameters [load_msg] and [store_msg]. *)

From stdpp Require Import strings.
From S2P Require Import Prelude Interfaces Kernel Mem RingBuffer Connman CString Words Filesystem Nameserver Devices Elf Stdio StdioSpec Spawn Forth.
#[local] Open Scope Z_scope.

(** [minift_pop] and [minift_push] on [vm->param_stack], and [vm->running]. *)
Class MiniforthVm (V : Type) := {
  minift_pop : M V Z;
  minift_push : Z → M V unit;
  running : V → bool
}.

(** The state the words work on; [w_procs] holds the [c4_process_t] records
    that [exec] stored, by their address in the words' heap. *)
Record words (V R H P : Type) := mk_words {
  w_vm : V;
  w_forth : forth R H;
  minift_heap : P;
  w_procs : gmap Z c4_process
}.
Arguments mk_words {V R H P}.
Arguments w_vm {V R H P}.
Arguments w_forth {V R H P}.
Arguments minift_heap {V R H P}.
Arguments w_procs {V R H P}.

(** [minift_archive_entry_t], [minift_archive_t]. *)
Record minift_archive_entry (W : Type) := mk_entry { en_name : string; en_code : M W bool }.
Arguments mk_entry {W}.
Arguments en_name {W}.
Arguments en_code {W}.
Record minift_archive (W : Type) := mk_archive { ar_name : string; ar_entries : list (minift_archive_entry W); ar_size : Z }.
Arguments mk_archive {W}.
Arguments ar_name {W}.
Arguments ar_entries {W}.
Arguments ar_size {W}.

Definition sizeof_c4_process : Z := 20.
(** Where [dent] is in a [FILE]. *)
Definition offsetof_dent : Z := 68.
Definition FORTH_HEAP_BASE : Z := 0xd0000000.

Section words.
Context `{KernelEnv} {R : Type} `{Allocator R} {Hp : Type} `{Allocator Hp} {Pp : Type} `{Allocator Pp}.
Context {V : Type} `{MiniforthVm V}.
Context (peer : Z → list kcall → c4_ringbuf → c4_ringbuf) (page : list Z) (env : io_env) (fuel : nat).
Context (blank : nat → nat → Z) (BOOTINFO_ADDR progbuf input text_at args_at env_at : Z).
Context (load_msg : mem → Z → option message) (store_msg : Z → message → mem → option mem).
Context (lines turns freads loads : nat).
Abbreviation W := (M (words V R Hp Pp)).

Definition on_vm {A} (m : M V A) : W A := zoom w_vm (λ v s, mk_words v (w_forth s) (minift_heap s) (w_procs s)) m.
Definition on_forth {A} (m : M (forth R Hp) A) : W A :=
  zoom w_forth (λ f s, mk_words (w_vm s) f (minift_heap s) (w_procs s)) m.
Definition on_words_heap {A} (m : M Pp A) : W A :=
  zoom minift_heap (λ h s, mk_words (w_vm s) (w_forth s) h (w_procs s)) m.
Definition wk {A} (m : K A) : W A := on_forth (fk m).
Definition wio {A} (m : M (stdio R Hp) A) : W A := on_forth (fo_io m).
Definition wmem {A} (m : M mem A) : W A := on_forth (fmem m).

Definition popptr : W Z := on_vm minift_pop.
Definition popnum : W Z := on_vm minift_pop.
Definition pushptr (p : Z) : W unit := on_vm (minift_push (u32 p)).
Definition pushnum (n : Z) : W unit := on_vm (minift_push (u32 n)).

(** [if ( !vm->running ) return false;] *)
Definition if_running (m : W unit) : W bool :=
  s ← get; if negb (running (w_vm s)) then mret false else m;; mret true.

(** ** Messages, the console and names *)
Definition c4_minift_usleep : W bool := useconds ← popnum; wk (c4_sleep useconds);; mret true.

Definition c4_minift_sendmsg : W bool :=
  target ← popnum;
  temp ← popnum;
  if_running (
    msg ← wmem (getsome (λ m, load_msg m temp));
    wk (c4_msg_send msg target);; mret tt).

Definition c4_minift_recvmsg : W bool :=
  temp ← popnum;
  if_running (
    r ← wk (c4_msg_recieve 0);
    wmem (λ m, match store_msg temp r.2 m with Some m' => Ret (tt, m') | None => UB end)).

Definition c4_minift_console_put_char : W bool :=
  c ← popnum;
  id ← popnum;
  if_running (wk (console_put_char id c)).

Definition c4_minift_console_set_pos : W bool :=
  y ← popnum;
  x ← popnum;
  id ← popnum;
  if_running (wk (console_set_position id x y)).

Definition c4_minift_console_clear : W bool :=
  id ← popnum;
  if_running (wk (console_clear id)).

Definition c4_minift_console_info : W bool :=
  id ← popnum;
  if_running (
    info ← wk (console_get_info id);
    pushnum (ci_x_pos info);;
    pushnum (ci_y_pos info);;
    pushnum (ci_width info);;
    pushnum (ci_height info)).

Definition c4_minift_name_lookup : W bool :=
  name ← popptr;
  id ← popnum;
  if_running (
    n ← wmem (load_cstr fuel name);
    ret ← wk (nameserver_lookup id n);
    pushnum ret).

Definition c4_minift_key : W bool :=
  c ← on_forth (minift_get_char peer fuel input text_at lines turns);
  pushnum c;;
  mret true.

(** ** The words' heap and programs *)
Definition c4_minift_allocate : W bool :=
  size ← popnum;
  if_running (
    foo ← on_words_heap (al_alloc size);
    pushptr foo).

Definition c4_minift_free : W bool :=
  ptr ← popptr;
  if_running (
    on_words_heap (al_free ptr);;
    pushnum 0).

(** The local arrays [args] and [env] are at [args_at] and [env_at]; a failed
    allocation is a null dereference. *)
Definition c4_minift_exec : W bool :=
  name ← popptr;
  wmem (store_bytes args_at (le32 name ++ le32 0));;
  wmem (store_bytes env_at (le32 0));;
  proc ← on_words_heap (al_alloc sizeof_c4_process);
  p ← on_forth (zoom fo_proc set_fo_proc (spawn peer page env fuel blank BOOTINFO_ADDR progbuf turns freads loads name args_at env_at));
  if proc =? 0 then ub
  else
    modify (λ s, mk_words (w_vm s) (w_forth s) (minift_heap s) (<[proc := p]> (w_procs s)));;
    pushptr proc;;
    mret true.

(** ** Files *)
Definition c4_minift_open_file : W bool :=
  fam ← popptr;
  name ← popptr;
  fp ← wio (fopen peer page env fuel turns name fam);
  pushptr fp;;
  pushnum (if truthy fp then 0 else 1);;
  mret true.

Definition c4_minift_close_file : W bool := fp ← popptr; wio (fclose page fp);; mret true.

Definition c4_minift_read_file : W bool :=
  fp ← popptr;
  len ← popnum;
  buf ← popptr;
  n ← wio (fread peer turns len 1 fp);
  wmem (store_bytes buf n.2);;
  pushnum n.1;;
  e ← wio (ferror fp);
  pushnum (Z.b2z e);;
  mret true.

Definition c4_minift_read_line : W bool :=
  fp ← popptr;
  len ← popnum;
  buf ← popptr;
  wio (fgets peer turns turns buf len fp);;
  n ← wmem (strlen fuel buf);
  pushnum n;;
  e ← wio (ferror fp);
  pushnum (Z.b2z e);;
  mret true.

Definition c4_minift_write_file : W bool :=
  fp ← popptr;
  len ← popnum;
  buf ← popptr;
  s ← get;
  n ← wio (fwrite peer fuel turns (mapped_bytes (Z.to_nat len) buf (fo_mem (w_forth s))) len 1 fp);
  pushnum n;;
  e ← wio (ferror fp);
  pushnum (Z.b2z e);;
  mret true.

Definition c4_minift_write_line : W bool :=
  fp ← popptr;
  buf ← popptr;
  wio (fputs peer fuel turns buf fp);;
  wio (fputc peer fuel turns 10 fp);;
  n ← wmem (strlen fuel buf);
  pushnum n;;
  e ← wio (ferror fp);
  pushnum (Z.b2z e);;
  mret true.

Definition c4_minift_include_file : W bool := fp ← popptr; on_forth (set_cur_include fp);; mret true.

(** ** Directories *)
Definition c4_minift_open_dir : W bool :=
  name ← popptr;
  dir ← wio (opendir peer page env fuel turns name);
  pushptr dir;;
  pushnum (if truthy dir then 0 else 1);;
  mret true.

(** [readdir] answers the address of the entry in the [FILE]. *)
Definition c4_minift_read_dir : W bool :=
  dir ← popptr;
  d ← wio (readdir peer dir);
  let dirp := match d with Some _ => u32 (dir + offsetof_dent) | None => 0 end in
  pushptr dirp;;
  pushnum (if truthy dirp then 0 else 1);;
  mret true.

Definition c4_minift_close_dir : W bool := dir ← popptr; wio (closedir page dir);; mret true.

(** ** The table *)
Definition c4_words : list (minift_archive_entry (words V R Hp Pp)) :=
  [mk_entry "sendmsg" c4_minift_sendmsg; mk_entry "recvmsg" c4_minift_recvmsg;
   mk_entry "putchar" c4_minift_console_put_char; mk_entry "setpos" c4_minift_console_set_pos;
   mk_entry "clear" c4_minift_console_clear; mk_entry "consinfo" c4_minift_console_info;
   mk_entry "lookup" c4_minift_name_lookup; mk_entry "key" c4_minift_key; mk_entry "exec" c4_minift_exec;
   mk_entry "usleep" c4_minift_usleep; mk_entry "allocate" c4_minift_allocate; mk_entry "free" c4_minift_free;
   mk_entry "open-file" c4_minift_open_file; mk_entry "close-file" c4_minift_close_file;
   mk_entry "read-file" c4_minift_read_file; mk_entry "read-line" c4_minift_read_line;
   mk_entry "write-file" c4_minift_write_file; mk_entry "write-line" c4_minift_write_line;
   mk_entry "include-file" c4_minift_include_file; mk_entry "open-dir" c4_minift_open_dir;
   mk_entry "read-dir" c4_minift_read_dir; mk_entry "close-dir" c4_minift_close_dir]%string.

Definition c4_archive : minift_archive (words V R Hp Pp) := mk_archive "c4" c4_words (Z.of_nat (length c4_words)).

(** [minift_archive_add] is the interpreter's. *)
Definition add_c4_archives (minift_archive_add : minift_archive (words V R Hp Pp) → W unit) : W unit :=
  minift_archive_add c4_archive.

Definition init_c4_allocator (c4a_heap_init : Z → M Pp unit) : W unit := on_words_heap (c4a_heap_init FORTH_HEAP_BASE).
End words.

(** ** The machine

    What the words rely on: a parameter stack, top first, of at most [depth]
    cells; a pop from the empty stack stops the machine. *)
Class MiniforthLaws (V : Type) `{MiniforthVm V} := {
  param_stack : V → list Z;
  depth : nat;
  pop_ok : ∀ v x xs, param_stack v = x :: xs →
    ∃ v', minift_pop v = Ret (x, v') ∧ param_stack v' = xs ∧ running v' = running v;
  pop_empty : ∀ v, param_stack v = [] →
    ∃ x v', minift_pop v = Ret (x, v') ∧ param_stack v' = [] ∧ running v' = false;
  push_ok : ∀ v x, (length (param_stack v) < depth)%nat →
    ∃ v', minift_push x v = Ret (tt, v') ∧ param_stack v' = x :: param_stack v ∧ running v' = running v
}.

(** The smallest machine. *)
Module ListVm.
Record vm := mk_vm { stack : list Z; up : bool }.

Definition pop : M vm Z := λ v,
  match stack v with
  | x :: xs => Ret (x, mk_vm xs (up v))
  | [] => Ret (0, mk_vm [] false)
  end.
Definition push (x : Z) : M vm unit := λ v,
  if (length (stack v) <? 128)%nat then Ret (tt, mk_vm (x :: stack v) (up v)) else Ret (tt, mk_vm (stack v) false).

#[global] Instance vm_miniforth : MiniforthVm vm := {| minift_pop := pop; minift_push := push; running := up |}.
#[global] Instance vm_laws : MiniforthLaws vm.
Proof.
  refine {| param_stack := stack; depth := 128 |}.
  - intros [st b] x xs; simpl; intros ->. by eexists.
  - intros [st b]; simpl; intros ->. by eexists 0, _.
  - intros v x Hv. simpl. unfold push. rewrite (proj2 (Nat.ltb_lt _ _) Hv). by eexists.
Defined.
End ListVm.

Lemma cstr_of_bytes m bs : ∀ p, Forall (λ b, 0 < b < 256) bs → bytes_at m p (bs ++ [0]) → cstr m p (map i8 bs).
Proof.
  induction bs as [|b bs IH]; intros p Hb Ha; cbn [map cstr].
  - specialize (Ha 0%nat 0 eq_refl). by rewrite Z.add_0_r in Ha.
  - apply Forall_cons in Hb as [Hb Hbs]. split_and!.
    + exists b. split; [|done]. specialize (Ha 0%nat b eq_refl). by rewrite Z.add_0_r in Ha.
    + unfold wraps. rewrite Z.mod_small by lia. cbv zeta. zbool; lia.
    + apply IH; [done|]. intros j x Hj. specialize (Ha (S j) x Hj). rewrite <-Ha. f_equal. lia.
Qed.

Section laws.
Context `{KernelEnv} {R : Type} `{Allocator R} {Hp : Type} `{Allocator Hp} {Pp : Type} `{Allocator Pp}.
Context {V : Type} `{MiniforthLaws V}.
Context (peer : Z → list kcall → c4_ringbuf → c4_ringbuf) (fuel : nat) (turns : nat).
Context (load_msg : mem → Z → option message) (store_msg : Z → message → mem → option mem).
Abbreviation WS := (words V R Hp Pp).
Abbreviation W := (M WS).
Implicit Types s : WS.

Definition with_vm (v : V) s : WS := mk_words v (w_forth s) (minift_heap s) (w_procs s).
Definition with_forth (f : forth R Hp) s : WS := mk_words (w_vm s) f (minift_heap s) (w_procs s).
Definition stack_of s : list Z := param_stack (w_vm s).
Definition is_running s : bool := running (w_vm s).

(** The same machine up to its stack. *)
Definition machine (xs : list Z) s (v : V) : Prop := param_stack v = xs ∧ running v = is_running s.

Lemma popnum_ok x xs s : stack_of s = x :: xs → ∃ v, popnum s = Ret (x, with_vm v s) ∧ machine xs s v.
Proof.
  intros Hs. destruct (pop_ok (w_vm s) x xs Hs) as (v & E & Hv & Hr). exists v. split; [|done].
  unfold popnum, on_vm, zoom. by rewrite E.
Qed.

Lemma pushnum_ok x s : (length (stack_of s) < depth)%nat → ∃ v, pushnum x s = Ret (tt, with_vm v s) ∧ machine (u32 x :: stack_of s) s v.
Proof.
  intros Hs. destruct (push_ok (w_vm s) (u32 x) Hs) as (v & E & Hv & Hr). exists v. split; [|done].
  unfold pushnum, on_vm, zoom. by rewrite E.
Qed.

(** A pop of whatever is there. *)
Lemma pop_any s : ∃ x v, popnum s = Ret (x, with_vm v s) ∧ length (param_stack v) = pred (length (stack_of s)) ∧
  running v = is_running s && (0 <? length (stack_of s))%nat.
Proof.
  unfold stack_of. destruct (param_stack (w_vm s)) as [|x xs] eqn:Es.
  - destruct (pop_empty (w_vm s) Es) as (x & v & E & Hv & Hr). exists x, v. unfold popnum, on_vm, zoom. rewrite E.
    split_and!; [done|by rewrite Hv|]. by rewrite andb_false_r.
  - destruct (popnum_ok x xs s Es) as (v & E & Hv & Hr). exists x, v. split_and!; [done|by rewrite Hv|]. by rewrite andb_true_r.
Qed.

Lemma if_running_stops (m : W unit) s : is_running s = false → if_running m s = Ret (false, s).
Proof. intros Hr. unfold if_running. rewrite (bind_run get _ s s s) by done. unfold is_running in Hr. by rewrite Hr. Qed.

Lemma if_running_goes (m : W unit) s s' : is_running s = true → m s = Ret (tt, s') → if_running m s = Ret (true, s').
Proof. intros Hr E. unfold if_running. rewrite (bind_run get _ s s s) by done. unfold is_running in Hr. rewrite Hr. cbn [negb]. by rewrite (bind_run _ _ _ _ _ E). Qed.

Lemma wk_ok {A} (m : K A) v h' s : m (fo_hist (w_forth s)) = Ret (v, h') →
  wk m s = Ret (v, with_forth (set_both h' (fo_mem (w_forth s)) (w_forth s)) s).
Proof. intros E. unfold wk, on_forth, zoom. by rewrite (fk_ok m v h' _ E). Qed.

Lemma wmem_ok {A} (m : M mem A) v m' s : m (fo_mem (w_forth s)) = Ret (v, m') →
  wmem m s = Ret (v, with_forth (set_both (fo_hist (w_forth s)) m' (w_forth s)) s).
Proof. intros E. unfold wmem, on_forth, zoom. by rewrite (fmem_ok m v m' _ E). Qed.

(** The words that look at the machine after taking their arguments, and how
    many they take. *)
Definition guarded : list (nat * W bool) :=
  [(2%nat, c4_minift_sendmsg load_msg); (1%nat, c4_minift_recvmsg store_msg); (2%nat, c4_minift_console_put_char);
   (3%nat, c4_minift_console_set_pos); (1%nat, c4_minift_console_clear); (1%nat, c4_minift_console_info);
   (2%nat, c4_minift_name_lookup fuel); (1%nat, c4_minift_allocate); (1%nat, c4_minift_free)].

(** Taking one, two or three arguments from too short a stack. *)
Lemma stops1 (k : Z → W unit) s : (length (stack_of s) < 1)%nat ∨ is_running s = false →
  ∃ v, (x ← popnum; if_running (k x)) s = Ret (false, with_vm v s) ∧ running v = false.
Proof.
  intros Hs. destruct (pop_any s) as (x & v & E & _ & Hr). exists v. rewrite (bind_run _ _ _ _ _ E).
  assert (running v = false) as Hv by (rewrite Hr; destruct Hs as [Hl| ->]; [rewrite (proj2 (Nat.ltb_ge _ _)) by lia; apply andb_false_r|done]).
  split; [by apply if_running_stops|done].
Qed.

Lemma stops_more (n : nat) (k : Z → W bool) s :
  (∀ x s', (length (stack_of s') < n)%nat ∨ is_running s' = false → ∃ v, k x s' = Ret (false, with_vm v s') ∧ running v = false) →
  (length (stack_of s) < S n)%nat ∨ is_running s = false →
  ∃ v, (x ← popnum; k x) s = Ret (false, with_vm v s) ∧ running v = false.
Proof.
  intros Hk Hs. destruct (pop_any s) as (x & v & E & Hl & Hr). rewrite (bind_run _ _ _ _ _ E).
  apply (Hk x (with_vm v s)). unfold stack_of, is_running in *. cbn [with_vm w_vm] in *. rewrite Hl, Hr.
  destruct Hs as [Hs| ->]; [|by right]. destruct (length (param_stack (w_vm s))); simpl; [right; apply andb_false_r|left; lia].
Qed.

Lemma stops2 (k : Z → Z → W unit) s : (length (stack_of s) < 2)%nat ∨ is_running s = false →
  ∃ v, (x ← popnum; y ← popnum; if_running (k x y)) s = Ret (false, with_vm v s) ∧ running v = false.
Proof. apply (stops_more 1 (λ x, y ← popnum; if_running (k x y))). intros x s'. apply stops1. Qed.

Lemma stops3 (k : Z → Z → Z → W unit) s : (length (stack_of s) < 3)%nat ∨ is_running s = false →
  ∃ v, (x ← popnum; y ← popnum; z ← popnum; if_running (k x y z)) s = Ret (false, with_vm v s) ∧ running v = false.
Proof. apply (stops_more 2 (λ x, y ← popnum; z ← popnum; if_running (k x y z))). intros x s'. apply stops2. Qed.
End laws.

Section guarded.
Context `{KernelEnv} {R : Type} `{Allocator R} {Hp : Type} `{Allocator Hp} {Pp : Type} `{Allocator Pp}.
Context {V : Type} `{MiniforthLaws V}.
Context (fuel : nat) (load_msg : mem → Z → option message) (store_msg : Z → message → mem → option mem).

(** A word that checks the machine does nothing on too short a stack, or
    when the machine was stopped before: it answers [false], and apart from the
    pops nothing has happened: no system call, no memory, heap, file or program
    is touched. *)
Theorem guarded_words_stop (s : words V R Hp Pp) :
  Forall (λ e, (length (stack_of s) < e.1)%nat ∨ is_running s = false →
    ∃ v, e.2 s = Ret (false, with_vm v s) ∧ running v = false) (guarded fuel load_msg store_msg).
Proof.
  repeat constructor; cbn [fst snd]; intros Hs; solve [by apply (stops1 _ s)|by apply (stops2 _ s)|by apply (stops3 _ s)].
Qed.

(** One message sent, nothing else changed but the machine. *)
Definition sent (to : Z) (msg : message) (v : V) (s : words V R Hp Pp) : words V R Hp Pp :=
  with_vm v (with_forth (set_both (mk_call SYSCALL_SYNC_SEND [0; u32 to; 0; 0] msg :: fo_hist (w_forth s)) (fo_mem (w_forth s)) (w_forth s)) s).

Lemma send_one (m : K unit) to msg (s : words V R Hp Pp) v : (∀ h, m h = Ret (tt, mk_call SYSCALL_SYNC_SEND [0; u32 to; 0; 0] msg :: h)) →
  running v = true → if_running (wk m) (with_vm v s) = Ret (true, sent to msg v s).
Proof. intros Hm Hr. apply if_running_goes; [done|]. by rewrite (wk_ok m tt _ _ (Hm _)). Qed.

(** The words that send take their arguments off the stack in the order the
    shell's programs push them and send exactly one message, to the endpoint
    they name: the character, the position with [x] before [y], the request to
    clear, or the message stored in memory. *)
Theorem sending_words_correct (s : words V R Hp Pp) : is_running s = true →
  (∀ c id xs, stack_of s = c :: id :: xs → ∃ v, machine xs s v ∧
    c4_minift_console_put_char s = Ret (true, sent id (mk_msg CONSOLE_MSG_PUT_CHAR [c]) v s)) ∧
  (∀ x y id xs, stack_of s = y :: x :: id :: xs → ∃ v, machine xs s v ∧
    c4_minift_console_set_pos s = Ret (true, sent id (mk_msg CONSOLE_MSG_SET_POSITION [x; y]) v s)) ∧
  (∀ id xs, stack_of s = id :: xs → ∃ v, machine xs s v ∧
    c4_minift_console_clear s = Ret (true, sent id (mk_msg CONSOLE_MSG_CLEAR []) v s)) ∧
  (∀ temp to msg xs, stack_of s = to :: temp :: xs → load_msg (fo_mem (w_forth s)) temp = Some msg → ∃ v, machine xs s v ∧
    c4_minift_sendmsg load_msg s = Ret (true, sent to msg v s)).
Proof.
  intros Hrun.
  assert (∀ x xs (t : words V R Hp Pp), is_running t = true → stack_of t = x :: xs → ∃ v,
    popnum t = Ret (x, with_vm v t) ∧ is_running (with_vm v t) = true ∧ stack_of (with_vm v t) = xs) as Hpop.
  { intros x xs t Ht Hs. destruct (popnum_ok x xs t Hs) as (v & E & Hv & Hr). exists v. split_and!; [done| |done].
    unfold is_running in *. cbn. by rewrite Hr. }
  split_and!.
  - intros c id xs Hs. destruct (Hpop c (id :: xs) s Hrun Hs) as (v1 & E1 & R1 & S1). destruct (Hpop id xs _ R1 S1) as (v & E2 & R2 & S2).
    exists v. split; [split; [done|by rewrite Hrun]|]. unfold c4_minift_console_put_char.
    rewrite (bind_run _ _ _ _ _ E1), (bind_run _ _ _ _ _ E2). exact (send_one _ _ _ s v (λ _, eq_refl) R2).
  - intros x y id xs Hs. destruct (Hpop y (x :: id :: xs) s Hrun Hs) as (v1 & E1 & R1 & S1).
    destruct (Hpop x (id :: xs) _ R1 S1) as (v2 & E2 & R2 & S2). destruct (Hpop id xs _ R2 S2) as (v & E3 & R3 & S3).
    exists v. split; [split; [done|by rewrite Hrun]|]. unfold c4_minift_console_set_pos.
    rewrite (bind_run _ _ _ _ _ E1), (bind_run _ _ _ _ _ E2), (bind_run _ _ _ _ _ E3). exact (send_one _ _ _ s v (λ _, eq_refl) R3).
  - intros id xs Hs. destruct (Hpop id xs s Hrun Hs) as (v & E & R1 & S1).
    exists v. split; [split; [done|by rewrite Hrun]|]. unfold c4_minift_console_clear.
    rewrite (bind_run _ _ _ _ _ E). exact (send_one _ _ _ s v (λ _, eq_refl) R1).
  - intros temp to msg xs Hs Hmsg. destruct (Hpop to (temp :: xs) s Hrun Hs) as (v1 & E1 & R1 & S1).
    destruct (Hpop temp xs _ R1 S1) as (v & E2 & R2 & S2).
    exists v. split; [split; [done|by rewrite Hrun]|]. unfold c4_minift_sendmsg.
    rewrite (bind_run _ _ _ _ _ E1), (bind_run _ _ _ _ _ E2). apply if_running_goes; [done|].
    set (t := with_vm v (with_vm v1 s)).
    assert (getsome (λ m, load_msg m temp) (fo_mem (w_forth t)) = Ret (msg, fo_mem (w_forth t))) as Eg by (unfold getsome; cbn; by rewrite Hmsg).
    rewrite (bind_run _ _ _ _ _ (wmem_ok _ _ _ _ Eg)). set (t1 := with_forth _ t).
    assert (t1 = t) as -> by (unfold t1; rewrite set_both_id; by destruct s). 
    by rewrite (bind_run _ _ _ _ _ (wk_ok (c4_msg_send msg to) _ _ t eq_refl)).
Qed.
End guarded.

(** ** Reading a line *)
Section read_line.
Context `{KernelEnv} {R : Type} `{Allocator R} {Hp : Type} `{Allocator Hp} {Pp : Type} `{Allocator Pp}.
Context {V : Type} `{MiniforthLaws V}.
Context (peer : Z → list kcall → c4_ringbuf → c4_ringbuf) (W : stream_server) (fuel turns : nat).
Implicit Types s : words V R Hp Pp.

Definition io_of s : stdio R Hp := sp_io (fo_proc (w_forth s)).
Definition with_io (x : stdio R Hp) s : words V R Hp Pp :=
  let p := fo_proc (w_forth s) in
  with_forth (set_fo_proc (mk_spawner x (sp_objs p) (sp_caps p) (sp_win p) (sp_children p)) (w_forth s)) s.

Lemma wio_ok {A} (m : M (stdio R Hp) A) v x s : m (io_of s) = Ret (v, x) → wio m s = Ret (v, with_io x s).
Proof. intros E. unfold wio, on_forth, fo_io, io, zoom, io_of in *. by rewrite E. Qed.

Lemma wio_same {A} (m : M (stdio R Hp) A) v s : m (io_of s) = Ret (v, io_of s) → wio m s = Ret (v, s).
Proof. intros E. rewrite (wio_ok m v _ s E). by destruct s as [? [[]]]. Qed.

Lemma dm_same {A} (m : M mem A) v (x : stdio R Hp) : m (io_mem x) = Ret (v, io_mem x) → dm m x = Ret (v, x).
Proof. intros E. unfold dm, zoom. rewrite E. by destruct x. Qed.

Lemma ferror_ok fp c st stream (x : stdio R Hp) : reading W fp c st stream x →
  ferror fp x = Ret (negb (st =? FILE_STATUS_PRETTY_GOOD), x).
Proof.
  intros [(f & Ef & _ & <-) _ _]. unfold ferror. rewrite (bind_run (load_file fp) _ x f x); [done|]. unfold load_file, getsome. by rewrite Ef.
Qed.

(** C36: "read-line" leaves the next line of the file in the buffer, whatever
    pieces the file system hands it out in: the characters up to and including
    the newline, at most one less than there is room for, terminated; behind the
    stack's other cells are their number and a flag which is 1 exactly when the
    end of the file was met.  Nothing outside the buffer is written, and the
    rest of the file is what the next read gets. *)
Theorem read_line_word_correct s fp len buf xs c stream : stack_of s = fp :: len :: buf :: xs → (length xs + 1 < depth)%nat →
  serves peer W c → reading W fp c FILE_STATUS_PRETTY_GOOD stream (io_of s) → Forall (λ b, 0 < b < 256) stream →
  0 < len < 2 ^ 31 → CString.mapped (io_mem (io_of s)) buf len → (Z.to_nat len <= turns)%nat → (1 < turns)%nat → (Z.to_nat len <= fuel)%nat →
  let n := Z.to_nat (len - 1) in let r := line n stream in ∃ s',
  c4_minift_read_line peer fuel turns s = Ret (true, s') ∧
  stack_of s' = Z.b2z (ended n stream) :: Z.of_nat (length r.1) :: xs ∧ is_running s' = is_running s ∧
  bytes_at (io_mem (io_of s')) buf (r.1 ++ [0]) ∧ only (io_mem (io_of s)) (io_mem (io_of s')) buf len ∧
  reading W fp c (status_after n stream) r.2 (io_of s').
Proof.
  intros Hs Hd Hsv Hr Hby Hlen Hm Ht1 Ht2 Hfu n r. unfold c4_minift_read_line.
  destruct (popnum_ok fp _ s Hs) as (v1 & E1 & S1 & R1). change popptr with (@popnum R Hp Pp V _). rewrite (bind_run _ _ _ _ _ E1).
  destruct (popnum_ok len (buf :: xs) (with_vm v1 s) S1) as (v2 & E2 & S2 & R2). rewrite (bind_run _ _ _ _ _ E2).
  destruct (popnum_ok buf xs (with_vm v2 (with_vm v1 s)) S2) as (v3 & E3 & S3 & R3). rewrite (bind_run _ _ _ _ _ E3).
  set (s3 := with_vm v3 _). change (io_of s) with (io_of s3) in *.
  assert (Forall (λ b, 0 <= b < 256) stream) as Hby' by (eapply Forall_impl; [exact Hby|]; intros; simpl in *; lia).
  destruct (fgets_ok peer W fp c stream (io_of s3) turns turns buf len Hsv Hr Hby' Hlen Hm Ht1 Ht2) as (x & E4 & Hb & Ho & Hrx & _).
  fold n r in Hb, Hrx. rewrite (bind_run _ _ _ _ _ (wio_ok _ _ _ s3 E4)). set (s4 := with_io x s3).
  pose proof (length_line n stream) as Hll. fold r in Hll.
  assert (n = Z.to_nat (len - 1)) as En by done. rewrite En in Hll.
  assert (cstr (io_mem x) buf (map i8 r.1)) as Hc.
  { apply cstr_of_bytes; [by apply Forall_line|done]. }
  assert (wmem (strlen fuel buf) s4 = Ret (Z.of_nat (length r.1), s4)) as E5.
  { apply (wio_same (dm (strlen fuel buf)) _ s4). apply dm_same. rewrite (strlen_ok fuel _ _ (map i8 r.1)); [by rewrite length_map|rewrite length_map; lia|exact Hc]. }
  rewrite (bind_run _ _ _ _ _ E5).
  destruct (pushnum_ok (Z.of_nat (length r.1)) s4) as (v6 & E6 & S6 & R6); [unfold stack_of; cbn; rewrite S3; lia|].
  rewrite (bind_run _ _ _ _ _ E6). set (s6 := with_vm v6 s4).
  rewrite (bind_run _ _ _ _ _ (wio_same (ferror fp) _ s6 (ferror_ok fp c _ _ x Hrx))).
  destruct (pushnum_ok (Z.b2z (negb (status_after n stream =? FILE_STATUS_PRETTY_GOOD))) s6) as (v7 & E7 & S7 & R7).
  { unfold stack_of in *. cbn in *. rewrite S6, S3. simpl. lia. }
  rewrite (bind_run _ _ _ _ _ E7). exists (with_vm v7 s6). split; [done|].
  unfold stack_of, is_running in *. cbn in S7, S6, R7, R6, R3, R2, R1. cbn [with_vm w_vm].
  split; [|split; [|split; [exact Hb|split; [exact Ho|exact Hrx]]]].
  - rewrite S7, S6, S3. rewrite (u32_small (Z.of_nat (length r.1))) by lia. f_equal. unfold status_after. by destruct (ended n stream).
  - by rewrite R7, R6, R3, R2, R1.
Qed.
End read_line.

(** ** A shell with the file "hi", newline, "yo" open *)
Definition hi_forth : forth Bump.bump Bump.bump := mk_forth (mk_spawner hi_stdio [] ∅ ∅ []) 5 6 0 true 64.
Definition hi_words (st : list Z) : words ListVm.vm Bump.bump Bump.bump Bump.bump := mk_words (ListVm.mk_vm st true) hi_forth Bump.start ∅.

Lemma guarded_words_stop_witness : let _ := steady 0 no_msg in ∃ v, c4_minift_console_set_pos (hi_words [3; 4]) = Ret (false, with_vm v (hi_words [3; 4])).
Proof.
  intros env.
  pose proof (guarded_words_stop 9 (λ _ _, None) (λ _ _ _, None) (hi_words [3; 4])) as Hall. rewrite Forall_forall in Hall.
  destruct (Hall (3%nat, c4_minift_console_set_pos)) as (v & E & _).
  - right. right. right. left.
  - left. simpl. lia.
  - exists v. exact E.
Defined.

Lemma sending_words_correct_witness : let _ := steady 0 no_msg in ∃ v,
  c4_minift_console_set_pos (hi_words [3; 4; 7]) = Ret (true, sent 7 (mk_msg CONSOLE_MSG_SET_POSITION [4; 3]) v (hi_words [3; 4; 7])).
Proof.
  intros env.
  destruct (sending_words_correct (λ _ _, None) (hi_words [3; 4; 7])) as (_ & Hpos & _); [reflexivity|].
  destruct (Hpos 4 3 7 [] eq_refl) as (v & _ & E). exists v. exact E.
Defined.

Lemma read_line_word_correct_witness : let _ := steady 0 no_msg in ∃ s',
  c4_minift_read_line hi_peer 9 9 (hi_words [512; 8; 64]) = Ret (true, s') ∧ stack_of s' = [0; 3].
Proof.
  intros env.
  destruct (read_line_word_correct hi_peer hi_server 9 9 (hi_words [512; 8; 64]) 512 8 64 [] hi_conn hi_file) as (s' & E & Hs & _).
  - reflexivity.
  - simpl. lia.
  - exact hi_serves.
  - exact hi_reading.
  - repeat constructor; lia.
  - lia.
  - apply (put_bytes_mapped 64 (replicate 8 0) ∅).
  - lia.
  - lia.
  - lia.
  - exists s'. split; [exact E|exact Hs].
Defined.
