(* ===== verification/Ipcbench.v ===== *)
(** The message benchmark ([programs/initprogs/src/ipcbench.c]): two receiver
    threads, and round trips timed with the processor's time stamp counter.

    The counter is hardware: [rdtsc h k] is its value at the [k]th reading, after
    the calls [h].  [sender] is the field of [message_t] that names the thread a
    message came from; its layout is the kernel's. *)

From S2P Require Import Prelude Kernel.
#[local] Open Scope Z_scope.

Definition BENCHMARK_ITERS : Z := 10000.
Definition BENCHMARK_PING : Z := 0xbad.
Definition BENCHMARK_PONG : Z := BENCHMARK_PING + 1.
Definition BENCHMARK_EXIT : Z := BENCHMARK_PING + 2.

Record bench := mk_bench { b_hist : list kcall; b_reads : nat }.

(** What is printed: the two averages and the length of the whole run. *)
Record report := mk_report { round_avg : Z; oneway_avg : Z; benchmark_len : Z }.

Section ipcbench.
Context `{KernelEnv} (rdtsc : list kcall → nat → Z) (sender : message → Z).
Context (reciever_entry inter_stack intra_stack THREAD_CREATE_FLAG_CLONE : Z).
Abbreviation B := (M bench).

Definition bk {A} (m : K A) : B A := zoom b_hist (λ h s, mk_bench h (b_reads s)) m.

(** [rdtsc]: both halves, put together. *)
Definition get_timestamp : B Z := λ s, Ret (u64 (rdtsc (b_hist s) (b_reads s)), mk_bench (b_hist s) (S (b_reads s))).

(** One turn of the receiver: whether it goes on. *)
Definition reciever_turn : B bool :=
  r ← bk (c4_msg_recieve 0);
  stamp ← get_timestamp;
  let msg := r.2 in
  if mtype msg =? BENCHMARK_PING then
    bk (c4_msg_send (mk_msg BENCHMARK_PONG (Z.shiftr stamp 32 :: Z.land stamp 0xffffffff :: drop 2 (mdata msg))) (sender msg));;
    mret true
  else if mtype msg =? BENCHMARK_EXIT then bk c4_exit;; mret false
  else mret true.

Fixpoint reciever (turns : nat) : B unit :=
  match turns with
  | O => nofuel
  | S t => running ← reciever_turn; if running : bool then reciever t else mret tt
  end.

(** One round trip: the two times. *)
Definition round_trip (to : Z) : B (Z * Z) :=
  stamp ← get_timestamp;
  bk (c4_msg_send (mk_msg BENCHMARK_PING []) to);;
  r ← bk (c4_msg_recieve to);
  end_stamp ← get_timestamp;
  let mid_stamp := u64 (Z.lor (Z.shiftl (mget r.2 0) 32) (mget r.2 1)) in
  mret (u32 (end_stamp - stamp), u32 (mid_stamp - stamp)).

Fixpoint bench_loop (n : nat) (to round_sum oneway_sum : Z) : B (Z * Z) :=
  match n with
  | O => mret (round_sum, oneway_sum)
  | S n' => t ← round_trip to; bench_loop n' to (u32 (round_sum + t.1)) (u32 (oneway_sum + t.2))
  end.

Definition do_benchmark (to : Z) : B report :=
  benchmark_start ← get_timestamp;
  r ← bench_loop (Z.to_nat BENCHMARK_ITERS) to 0 0;
  benchmark_end ← get_timestamp;
  mret (mk_report (r.1 / BENCHMARK_ITERS) (r.2 / BENCHMARK_ITERS) (u32 (benchmark_end - benchmark_start))).

Definition stop_benchmark (to : Z) : B unit := bk (c4_msg_send (mk_msg BENCHMARK_EXIT []) to);; mret tt.

(** The stacks grow down from the end of their arrays of 128 words. *)
Definition bench_main : B (report * report) :=
  inter_id ← bk (c4_create_thread reciever_entry (inter_stack + 512) THREAD_CREATE_FLAG_CLONE);
  intra_id ← bk (c4_create_thread reciever_entry (intra_stack + 512) 0);
  bk (c4_continue_thread (u32 inter_id));;
  bk (c4_continue_thread (u32 intra_id));;
  a ← do_benchmark (u32 inter_id);
  b ← do_benchmark (u32 intra_id);
  stop_benchmark (u32 inter_id);;
  stop_benchmark (u32 intra_id);;
  bk c4_exit;;
  mret (a, b).

(** ** The averages *)
Implicit Types s : bench.

(** The cycles a round trip from [s] takes, and the state after it. *)
Definition send_ping (to : Z) : kcall := mk_call SYSCALL_SYNC_SEND [0; u32 to; 0; 0] (mk_msg BENCHMARK_PING []).
Definition take_pong (to : Z) : kcall := mk_call SYSCALL_SYNC_RECIEVE [0; u32 to; 0; 0] no_msg.
Definition after_trip (to : Z) s : bench := mk_bench (take_pong to :: send_ping to :: b_hist s) (b_reads s + 2).
Definition trip_cycles (to : Z) s : Z :=
  u64 (rdtsc (b_hist (after_trip to s)) (b_reads s + 1)) - u64 (rdtsc (b_hist s) (b_reads s)).

(** The next [n] round trips. *)
Fixpoint trips (n : nat) (to : Z) s : list Z :=
  match n with O => [] | S n' => trip_cycles to s :: trips n' to (after_trip to s) end.
Definition after_trips (n : nat) (to : Z) s : bench := Nat.iter n (after_trip to) s.
Definition sum (l : list Z) : Z := foldr Z.add 0 l.

Lemma round_trip_ok to s : ∃ oneway, round_trip to s = Ret ((u32 (trip_cycles to s), oneway), after_trip to s).
Proof.
  eexists. unfold round_trip, get_timestamp, bk, zoom, trip_cycles, after_trip, mbind, M_bind. cbn.
  unfold mret, M_ret. rewrite !Nat.add_succ_r, Nat.add_0_r. reflexivity.
Qed.

Lemma bench_loop_ok n to : ∀ rs os s, ∃ os', bench_loop n to (u32 rs) os s =
  Ret ((u32 (rs + sum (trips n to s)), os'), after_trips n to s).
Proof.
  induction n as [|n IH]; intros rs os s; cbn [bench_loop trips sum foldr].
  - exists os. by rewrite Z.add_0_r.
  - destruct (round_trip_ok to s) as (o & E). rewrite (bind_run _ _ _ _ _ E). cbn [fst snd].
    assert (u32 (u32 rs + u32 (trip_cycles to s)) = u32 (rs + trip_cycles to s)) as -> by (unfold wrapu; by rewrite <-Z.add_mod by lia).
    destruct (IH (rs + trip_cycles to s) (u32 (os + o)) (after_trip to s)) as (os' & E'). exists os'. rewrite E'.
    unfold after_trips. rewrite Nat.iter_succ_r.
    by replace (rs + trip_cycles to s + sum (trips n to (after_trip to s))) with (rs + (trip_cycles to s + foldr Z.add 0 (trips n to (after_trip to s)))) by (unfold sum; lia).
Qed.

(** The benchmark always ends, after 10000 sends and as many receives, and
    the average it prints for a round trip is the mean of the cycles measured,
    rounded down, as long as all of them together are less than 2^32; otherwise
    the sum has wrapped around. *)
Theorem benchmark_average to s : let ts := trips (Z.to_nat BENCHMARK_ITERS) to (mk_bench (b_hist s) (S (b_reads s))) in ∃ r s',
  do_benchmark to s = Ret (r, s') ∧ Z.of_nat (length (b_hist s')) = Z.of_nat (length (b_hist s)) + 2 * BENCHMARK_ITERS ∧
  round_avg r = u32 (sum ts) / BENCHMARK_ITERS ∧ (0 <= sum ts < 2 ^ 32 → round_avg r = sum ts / BENCHMARK_ITERS).
Proof.
  unfold do_benchmark, get_timestamp. pose proof (Z2Nat.id BENCHMARK_ITERS ltac:(done)) as Hid. revert Hid.
  generalize (Z.to_nat BENCHMARK_ITERS) as iters. intros iters Hid. set (s1 := mk_bench (b_hist s) (S (b_reads s))). set (ts := trips iters to s1).
  rewrite (bind_run _ _ s (u64 (rdtsc (b_hist s) (b_reads s))) s1) by done.
  destruct (bench_loop_ok iters to 0 0 s1) as (os' & E). change (u32 0) with 0 in E. rewrite (bind_run _ _ _ _ _ E).
  set (s2 := after_trips _ to s1).
  rewrite (bind_run _ _ s2 (u64 (rdtsc (b_hist s2) (b_reads s2))) (mk_bench (b_hist s2) (S (b_reads s2)))) by done.
  eexists _, _. split; [reflexivity|]. cbn [b_hist round_avg fst]. split_and!.
  - assert (∀ n t, length (b_hist (after_trips n to t)) = (length (b_hist t) + 2 * n)%nat) as Hlen.
    { unfold after_trips. induction n as [|n IH]; intros t; [simpl; lia|]. rewrite Nat.iter_succ_r, IH. simpl. lia. }
    unfold s2. rewrite Hlen. cbn [b_hist s1]. by rewrite Nat2Z.inj_add, Nat2Z.inj_mul, Hid.
  - done.
  - intros Hs. rewrite Z.add_0_l. fold ts. by rewrite u32_small.
Qed.
End ipcbench.

(** A counter that stands still. *)
Lemma benchmark_average_witness : let _ := steady 0 no_msg in ∃ r s',
  do_benchmark (λ _ _, 0) 3 (mk_bench [] 0) = Ret (r, s') ∧ Z.of_nat (length (b_hist s')) = 20000.
Proof.
  intros env. destruct (benchmark_average (λ _ _, 0) 3 (mk_bench [] 0)) as (r & s' & E & Hl & _).
  exists r, s'. split; [exact E|exact Hl].
Defined.
