(* ===== verification/TestProgs.v ===== *)
(** The small test programs of [programs/initprogs/src]: [alloctest.c],
    [clibtest.c], [test.c] and [atatest.c].  What they print is not recorded. *)

From S2P Require Import Prelude Interfaces Kernel Mem RingBuffer Connman CString Words Filesystem Stdio C4Alloc C4AllocInv C4AllocOps.
#[local] Open Scope Z_scope.

(** ** [alloctest.c] *)
Definition ALLOC_SMALL_SIZE : Z := 128.
Definition ALLOC_ITERS : nat := 32.
Definition sizeof_test : Z := 128.

Section alloctest.
Abbreviation T := (M c4a_heap).

(** The block is written to at once. *)
Fixpoint alloc_all (n : nat) (test : list Z) : T (list Z) :=
  match n with
  | O => mret test
  | S n' => p ← c4a_alloc ALLOC_SMALL_SIZE; if p =? 0 then ub else alloc_all n' (test ++ [p])
  end.

Fixpoint free_all (ps : list Z) : T unit :=
  match ps with [] => mret tt | p :: ps' => c4a_free p;; free_all ps' end.

(** Every other element, from the first or the second on. *)
Fixpoint every_other (l : list Z) : list Z :=
  match l with
  | [] => []
  | [x] => [x]
  | x :: _ :: l' => x :: every_other l'
  end.

Definition c4a_heap_deinit : T unit := mret tt.

(** On a fresh heap at [0xbeef0000]; [c4_exit] follows.  The result is what both
    rounds allocated. *)
Definition alloctest : T (list Z * list Z) :=
  test ← c4a_alloc sizeof_test;
  if test =? 0 then ub
  else
    ps ← alloc_all ALLOC_ITERS [];
    free_all (every_other (tail ps));;
    free_all (every_other ps);;
    qs ← alloc_all ALLOC_ITERS [];
    free_all qs;;
    c4a_free test;;
    c4a_heap_deinit;;
    mret (ps, qs).
End alloctest.

(** ** [clibtest.c] *)
Section clibtest.
Context `{KernelEnv} {R : Type} `{Allocator R} {Hp : Type} `{Allocator Hp}.
Context (peer : Z → list kcall → c4_ringbuf → c4_ringbuf) (page : list Z) (env : io_env) (fuel : nat).
Context (lit_keyboard lit_read : Z).
Abbreviation D := (M (stdio R Hp)).

(** [n] reads of 32 bytes; [buffer] holds what was read last. *)
Fixpoint read_blocks (n turns : nat) (fp : Z) (out : list (list Z)) : D (list (list Z)) :=
  match n with
  | O => mret out
  | S n' => r ← fread peer turns 32 1 fp; read_blocks n' turns fp (out ++ [r.2])
  end.

Fixpoint read_characters (n turns : nat) (fp : Z) (out : list Z) : D (list Z) :=
  match n with
  | O => mret out
  | S n' => c ← fgetc peer turns fp; read_characters n' turns fp (out ++ [u8 c])
  end.

(** [main]: its status and what it prints; the file is read without a check. *)
Definition clibtest_main (turns : nat) (argc : Z) : D (Z * (list (list Z) * list Z)) :=
  if argc <=? 0 then mret (1, ([], []))
  else
    foo ← fopen peer page env fuel turns lit_keyboard lit_read;
    blocks ← read_blocks 4 turns foo [];
    chars ← read_characters 16 turns foo [];
    fclose page foo;;
    mret (0, (blocks, chars)).
End clibtest.

(** ** [test.c], [atatest.c] and [programs/skeleton-prog] *)
Section exits.
Context `{KernelEnv} (MESSAGE_TYPE_DEBUG_PRINT : Z).

(** Before the endless loop, and one turn of it; [display] is 0.  The receive
    overwrites the buffer. *)
Definition test_start : K message :=
  r ← do_syscall SYSCALL_SYNC_RECIEVE 0 0 0 0 (mk_msg MESSAGE_TYPE_DEBUG_PRINT [65]);
  mret (mk_msg 0xabcd (65 :: tail (mdata r.2))).
Definition test_turn (msg : message) : K Z := r ← do_syscall SYSCALL_SYNC_SEND 0 0 0 0 msg; mret r.1.

Definition atatest_main : K unit := c4_exit.

(** Before the endless loop, and one turn of it. *)
Definition skeleton_start : K Z := c4_get_id.
Definition skeleton_turn : K (Z * message) := c4_msg_recieve 0.
End exits.

(** The test allocates 33 different blocks, gets the same 32 again after freeing
    them out of order, and leaves an empty heap. *)
Theorem alloctest_clean : match alloctest (c4a_heap_init 0xbeef0000) with
  | Ret ((ps, qs), h) => length ps = ALLOC_ITERS ∧ NoDup ps ∧ qs ≡ₚ ps ∧ live h = ∅
  | _ => False
  end.
Proof.
  set (r := alloctest (c4a_heap_init 0xbeef0000)). vm_compute in r. subst r. split_and!; [done| | |done].
  - apply (bool_decide_eq_true_1 _). vm_compute. reflexivity.
  - apply (bool_decide_eq_true_1 _). vm_compute. reflexivity.
Qed.
